(* ===== verification/_CoqProject ===== *)
-Q . S2P
Prelude.v
RustStr.v
RawSyscall.v
RustNet.v
Policy.v
TrustedSigners.v
Signature.v
Snapshot.v
Paths.v
RuleStore.v
ProcessTree.v
Frame.v
Handlers.v
Prompt.v
Resolve.v
HookCache.v
HookNet.v
Lockfile.v
Publish.v
HookLoad.v
RustUtf8.v
EnvFilter.v
MachO.v
ImageFlags.v
Calendar.v
LogWriter.v
Messages.v
Events.v
HookExec.v
HookFiles.v
HookNw.v
Watcher.v
Admin.v
SnapshotGc.v
Server.v
Watchdog.v
HardwareSigning.v
CliClient.v
CliPrompt.v
InstallHealth.v
InstallSys.v
Install.v
Rollback.v
Installed.v
CliRun.v
CliLogs.v
HookInit.v
OsLayer.v
Update.v
DaemonStart.v
Biometric.v
Banner.v
CliMain.v
