(* ===== verification/Prelude.v ===== *)
(** * Stentorian Guard: a verification development

    Stentorian Guard runs a package manager or another build tool in a wrapper
    that allows outbound connections by rule.  Its parts:

    - the _daemon_ (crates/guard-daemon) keeps the rules, the tree of wrapped
      processes and the prompts that wait for the user, and answers requests on a
      local socket;
    - the _command line_ (crates/guard-cli) asks the daemon for the inputs of a run,
      builds and signs the snapshot of its rules, starts the program with the hook
      injected and shows the prompts;
    - the _hook_ (crates/guard-hook) is a library injected into every wrapped
      process.  It loads the signed snapshot of the run and interposes the network
      calls of libc and of the Network framework, and the calls that start programs;
    - crates/guard-core holds what the three share (rules, policy, snapshots,
      signatures, paths), crates/guard-ipc the messages and their framing.

    A rule reaches a decision along one path, which the development follows:
    a signed rule enters the store (RuleStore, Handlers); a run collects the verified
    rules, the curated ones and the registries of the lockfile (Lockfile, Publish);
    the snapshot is built, signed, checked again and published (Snapshot, Signature,
    Publish); the hook loads it after the same checks (HookLoad); a network call is
    decided by the policy on the loaded rules (Policy, HookNet, HookCache), with names
    resolved by the daemon, which may prompt (Resolve, Prompt, ProcessTree); requests
    travel as frames (Frame).  Beside that path the hook checks the executables a
    process starts (MachO, HookExec) and reports forks, execs and writes to
    persistence locations (HookExec, HookFiles); the daemon keeps its tree and its
    gap timers by them (Events), watches the same locations itself (Watcher), writes
    a log (LogWriter, EnvFilter), answers the command line (Admin) and removes the
    files of finished runs (SnapshotGc).  Server puts the state of all these together
    and takes every connection, timer and thread of a prompt channel as one step;
    DaemonStart starts it and hands it the connections, in the order they are accepted.
    On the other side CliMain dispatches a command to the parts that are modelled: CliRun
    prepares the run of a program and starts it with the hook in front (HookInit), which
    closes the path.

    ** Files and sources

    - [Prelude]: results with the [?] operator, tactics, hints, lemmas on lists,
      sorting and options.
    - [RustStr], [RustNet]: what the source uses of the Rust standard library:
      byte strings, UTF-8 validation, splitting, trimming, integer parsing, lines,
      paths, and the parser of IP addresses.
    - [Policy]: guard-core/src/allowlist.rs, policy.rs ([evaluate_policy]), with the
      abstract procedure [Decides].
    - [TrustedSigners], [Signature]: guard-core/src/trusted_signers.rs,
      rule_signature.rs.
    - [Snapshot]: guard-core/src/snapshot.rs, snapshot_build.rs and
      guard-daemon/src/curated.rs.
    - [Paths]: guard-core/src/paths.rs.
    - [RuleStore]: guard-daemon/src/rule_store.rs over the tables of migrations/.
    - [ProcessTree]: guard-core/src/identity.rs, guard-daemon/src/tracked.rs; one
      atomic step per lock-protected section, interleaved by [tree_step].
    - [Frame]: guard-ipc/src/frame.rs, error.rs, guard-daemon/src/ipc_dispatch.rs.
    - [Handlers]: guard-daemon/src/management_auth.rs and the rule handlers under
      guard-daemon/src/handlers/.
    - [Prompt], [Resolve]: guard-daemon/src/prompt/, baseline_staging.rs,
      handlers/resolve.rs, handlers/prompt_channel.rs and the resolve path of
      ipc_server.rs.
    - [HookCache], [HookNet]: guard-hook/src/cache.rs, replace_libc.rs, ipc_client.rs,
      log_buffer.rs.
    - [Lockfile], [Publish]: guard-core/src/lockfile.rs,
      guard-daemon/src/handlers/prepare_snapshot.rs, guard-daemon/src/snapshot.rs.
    - [HookLoad]: guard-hook/src/snapshot.rs.
    - [RustUtf8], [Calendar]: the lossy decoding of UTF-8, and the calendar arithmetic
      of the log.
    - [EnvFilter]: guard-core/src/env_filter.rs, guard-daemon/src/env_capture.rs and
      the hook's pm_env_filter.rs, envp.rs and env_scrub.rs.
    - [MachO]: guard-hook/src/scanner/, macho_flags.rs and exec_policy.rs.
    - [ImageFlags]: what an allowed program is, by the offsets of the Mach-O format and
      without the scanner, with the proof that the scanner allows no other.
    - [LogWriter]: guard-daemon/src/log_writer/; senders, the writer thread, compression
      and retention are the steps of [log_step].
    - [Messages], [Events]: the event messages of guard-ipc/src/messages.rs,
      guard-daemon/src/gap_detector.rs and the event handlers of ipc_server.rs; a
      handler or a timer is one [ev_step].
    - [HookExec]: guard-hook/src/replace_exec.rs, replace_fork.rs and the event clients
      of ipc_client.rs.
    - [HookFiles]: guard-hook/src/replace_open.rs, persistence_paths.rs, fd_class.rs.
    - [HookNw]: guard-hook/src/replace_nw.rs.
    - [Watcher]: guard-daemon/src/persistence_watcher.rs.
    - [Admin]: guard-daemon/src/install_artifacts.rs and the handlers of status,
      artifacts and baselines.
    - [SnapshotGc]: guard-daemon/src/snapshot_gc.rs.
    - [Watchdog]: guard-watchdog/src/main.rs.
    - [HardwareSigning]: guard-cli/src/hardware_signing.rs and rule_signing.rs.
    - [CliClient]: guard-cli/src/ipc_client.rs, its connections served by [Server.handle].
    - [CliPrompt]: guard-cli/src/prompt_render.rs, prompt_channel.rs, sigint_handler.rs
      and the render loop of run_orchestrator.rs, the threads as [thread_step].
    - [CliRun]: guard-cli/src/spawn.rs, locate.rs, ensure_daemon.rs, run_orchestrator.rs
      and the wrap command of main.rs; [wrap] is the whole command.
    - [CliLogs]: guard-cli/src/denial_log.rs, persistence_log.rs, logs.rs and status/.
    - [Update]: guard-cli/src/install/update.rs.
    - [Biometric]: guard-cli/src/biometric.rs, the wait for the reply as [auth_step].
    - [Banner], [CliMain]: guard-cli/src/banner.rs, tty.rs, cli.rs and main.rs;
      [real_main] runs a command on the state of all the parts above.
    - [InstallHealth]: guard-cli/src/install/health.rs.
    - [InstallSys], [Install]: the system an installer works on, and
      guard-cli/src/install/system.rs.  [Rollback] and [Installed] prove what an
      installation that fails, and one that succeeds, leaves.
    - [Server]: the rest of ipc_server.rs, codesign.rs and the threads of
      handlers/prompt_channel.rs.  [handle] is [IpcServer::handle]; [server_step] is
      the daemon.
    - [DaemonStart]: guard-daemon/src/main.rs, manifest.rs, daemon_state.rs, and the socket,
      the accept loop and the workers of ipc_server.rs; [serve] is the start and
      [pool_step] what follows it.
    - [RawSyscall]: guard-hook/src/raw_syscall.rs, the registers and the stack at the trap;
      the fork wrappers of [HookExec] are built on it.
    - [HookInit]: guard-hook/src/lib.rs, self_check.rs and the symbols and probes of
      interpose.rs; [guard_hook_init] is the constructor of the library.
    - [OsLayer]: crates/guard-os and guard-ipc/src/transport.rs.

    ** What the theorems show

    - _Policy_: [evaluate_policy] implements [Decides]; hard rules cannot be
      overridden, whatever the spelling of the metadata address; an allowed
      connection has an allow rule no matching deny rule outranks; the verdict does
      not depend on the order of the rules.
    - _Signatures and store_: verification succeeds exactly on authentic payloads and
      binds them; a verified read returns authenticated rules of trusted signers
      only; every sequence of writes keeps the constraints of the schema; the handlers
      change the store only on an authenticated request.
    - _Snapshots_: the built snapshot decides as the rules in force do; no user rule
      opens what an enabled curated deny closes; the codec refuses other schemas.
    - _Publication and loading_: only the snapshot of inputs the daemon prepared, with
      an authentic signature of a trusted signer, is published; the files of a run
      are replaced atomically; the hook loads vouched snapshots only, and loads what
      was published.
    - _Interposers_: every network system call with a destination that a sequence of
      interposed calls makes was allowed by the loaded rules for a name the daemon
      resolved to that address; [connect] carries out its decision and never faults
      on a readable address; lookups keep the heap balanced; the cache implements a
      least-recently-used list.
    - _The library itself_: its constructor always returns, and leaves rules to decide with
      exactly when every check passed; the calls past libc hand the kernel their arguments
      within the types of C.
    - _Programs and files_: the entry points that start a program do so only for a
      target the scanner allows, which is a script or an image without a syscall
      instruction whose flags keep the library; the scanner's buffered search equals a
      search of the whole file; a call of fork with a positive result is acknowledged by the
      daemon, or its process is killed and the caller sees a failure; open and write
      are transparent; the descriptor bitmap refines a map; what the library reports
      as a persistence location the watcher observes.
    - _Daemon_: the process tree stays well formed under any interleaving and
      descendants keep their run; prompts are answered once, by their own run, and
      drained when it ends; a name is resolved without a prompt only when the policy
      of its run allows it; a gap timer kills exactly if the version of its process is not
      known to have changed; the accepted rows reach the log in order and, whatever call of
      the disk fails, the text of a rotated file is there, compressed, removed by retention or,
      in a directory of more than 64 files, overwritten; a sweep removes exactly finished runs.
    - _Signing and supervision_: what the command line signs, the daemon verifies; an
      enrollment works on the keychain of one user, never that of root; an
      installation counts as healthy exactly when every path and record is as
      expected; the watchdog and the daemon agree on the ping, and the watchdog signals
      once per outage.
    - _Installation_: whatever call fails, a rollback that reports no failure leaves
      the system as it was, except for the owners below the state directory and
      directories on the way to an installed one; an installer that reports success
      leaves a system the health checks accept, on which the daemon trusts the key of
      the user who installed and no other.
    - _The command line_: the answer to a request says what the daemon did; a rule that
      was added is in the snapshot of the next run; the key pressed at a prompt decides
      the waiting connection and the rule that is stored; whatever the interleaving of
      its threads, an interrupt that finds the channel open settles the prompts that were
      recorded, if its writes succeed, and the threads of a run that ends come to rest; a wrapped program is started with the library in
      front and decides by the rules of its own run, or it is not started; a review of a
      learning run stores what was answered; the listings are exactly the rows of the log;
      Touch ID answers with the reply of the framework and fails closed; an update goes
      through its gates in order and runs the installer behind the last; and no command
      but the installation, with the consent of the user, and the programs of an update
      touches the system.
    - _The whole daemon_: every step keeps the invariants of all components; no
      sequence of steps stores a rule without a signature of a signer enrolled at the
      start, or changes the signers, the signature policy or the built-in rules; a
      peer that is not authenticated changes nothing.  The start establishes these
      invariants, announces the daemon only behind its socket, and its workers keep them;
      on Linux the identity of a process is the same wherever it is read.
    - _Flaws_: an error of a raw call is taken for a positive result, so that the scanner
      counts a failed read as bytes and can call a file clean that it did not read, or go on
      for ever, and a child and a failed call take the path of a parent in the fork
      wrappers.  Other lemmas state what the code does where it does not do what its
      documentation says: two coalesced prompts deny the first request, interactive
      learning resolves destinations of hard rules, an answer to a prompt of another
      run still inserts its rule, [connect] on a null address faults, a second prompt
      channel of a run is torn down with the first, the limit of channels can be
      passed, a sweep can take a snapshot being published for an orphan, a file
      written before its directory is watched is never reported, a prompt asked on a
      closed input keeps the run from ending, only the first interrupt is handled,
      a package can draw a prompt of its own, a variable of the caller turns off the
      checks of an installed system, waiting prompts can occupy every worker, a peer on
      Linux is refused whatever its identity, the snapshots of earlier starts stay, a
      library without effect reports itself as loaded, connectx on x86_64 passes its last
      arguments where the kernel does not look, and a wide terminal ends the banner in a
      panic.

    ** Parameters, bounds and fuel

    Code outside the repository is an argument: [Crypto] (SHA-256, ECDSA, payload
    encoding), [SnapshotCodec] and [Cbor] (CBOR), [SqlEngine] (faults and row
    identifiers of SQLite), [TrustFs], [PubEnv], [HookFs], [LockEnv] (file systems,
    the environment, randomness, the JSON parser), [ResolveEnv] (name resolution and
    snapshot files), [HookEnv], [XEnv] and [NwEnv] (the daemon as a
    peer, system calls, allocation, the Network framework), [OsView] (processes and
    the clock), [LogEnv] (files of the log), [WatchEnv] (directories and kernel
    events); [ServerEnv] and [ServerCodec] collect those a connection needs.
    [server_step] takes a new [ServerEnv] at each step, so the theorems on the daemon
    hold whatever the system answers from one step to the next.  [SecurityFramework] is
    the keychain and [HealthView] what the health checks read.  [InstallEnv] says which
    calls of the installer fail and what its programs print, [InstallerEnv] and
    [UserHalf] its executable, its fresh directories, the codec of enrollments, the files
    of the database and [sudo].  [CliEnv] is the connection of the command line, with what
    else reaches the daemon between two requests, Touch ID and the clock; [Terminal] the
    lines typed.  [RunHost] is the machine on which a program is wrapped, [MainHost] what
    the entry finds beside it (the log, the rules of the build, the clock) and what the
    programs of an update do to the system, [UpdateHost] what these programs answer, and [ObjC] the Objective-C runtime.  [StartEnv] is what the
    start of the daemon finds, [InitEnv] what the constructor of the library does, [ProcFs],
    [Darwin], [CodeSigning] and [Kqueue] the two operating systems.
    Laws are assumed only where a theorem names them, such as the round trip of a
    codec; each such theorem has a witness at a concrete instance.

    Machine integers are [Z] or [N] with their range where the source depends on it:
    frame lengths are 32-bit, frames at most 64 KiB (snapshots 4 MiB), prompt
    identifiers and cache ticks 64-bit (the cache theorem is for fewer than 2^64
    uses), ports 16-bit.  Loops are structural, except the ascent to a lockfile, which
    the source bounds by eight directories, and the reverse resolution of an address,
    which it bounds by four candidates; the reading of an answer takes the number of
    lines as fuel, and returns exactly when one of these lines is decisive; the two
    reviews take it for each of their questions.  The layout of socket addresses is that of
    Darwin, the platform of the interposers.

    ** Not modelled

    Lock poisoning, panics on allocation failure, tracing, the select loops that pump
    sockets and channels (their bodies are steps), timeouts of a socket other than as
    missing bytes, the linker sections of the interposers and the meaning of the assembly
    beyond the registers it loads, the parser of the arguments, the calls of
    CoreFoundation that build the queries of the keychain, the installer on Linux (it
    refuses), the test signer, the benchmarks and the end-to-end tests.  In [Server] the
    rows of the decision log and those of the log writer are two lists, as the modules
    that write them have them; a worker that waits for a prompt is counted in
    [DaemonStart] and not part of that state.  In [Install] the parents of a path are no
    symbolic links, and the messages printed and the failpoints of test builds are left
    out. *)

From stdpp Require Export prelude gmap strings pretty sorting.
From Stdlib Require Export Ascii.

(** ** Results

    Rust's [Result<T, E>], with the [?] operator as a bind. *)

Inductive result (A E : Type) : Type :=
| Ok (a : A)
| Err (e : E).
Arguments Ok {A E} a.
Arguments Err {A E} e.

Declare Scope result_scope.
Delimit Scope result_scope with result.
Open Scope result_scope.

Notation "'let?' x ':=' c 'in' k" :=
  (match c with Ok x => k | Err e => Err e end)
  (at level 10, x pattern, c at level 100, k at level 200) : result_scope.

Definition is_ok {A E} (r : result A E) : bool :=
  match r with Ok _ => true | Err _ => false end.

Definition ok_or {A E} (o : option A) (e : E) : result A E :=
  match o with Some a => Ok a | None => Err e end.

Definition map_err {A E F} (f : E -> F) (r : result A E) : result A F :=
  match r with Ok a => Ok a | Err e => Err (f e) end.

Definition unwrap_or {A E} (r : result A E) (d : A) : A :=
  match r with Ok a => a | Err _ => d end.

#[export] Instance result_eq_dec {A E} `{EqDecision A, EqDecision E} :
  EqDecision (result A E).
Proof. solve_decision. Defined.

(** Collecting results: the first error wins, as in a [for] loop that uses [?]. *)
Fixpoint collect_results {A E} (l : list (result A E)) : result (list A) E :=
  match l with
  | [] => Ok []
  | r :: l' => let? a := r in let? l'' := collect_results l' in Ok (a :: l'')
  end.

(** ** State and errors

    An operation that changes a state and may fail; a failure keeps the state. *)

Definition SM (S E A : Type) : Type := S -> S * result A E.

#[export] Instance sm_ret {S E} : MRet (SM S E) := fun A a s => (s, Ok a).
#[export] Instance sm_bind {S E} : MBind (SM S E) := fun A B k m s =>
  match m s with (s', Ok a) => k a s' | (s', Err e) => (s', Err e) end.

Definition sm_lift {S E A} (r : result A E) : SM S E A := fun s => (s, r).
Definition sm_get {S E} : SM S E S := fun s => (s, Ok s).
Definition sm_put {S E} (s : S) : SM S E unit := fun _ => (s, Ok tt).

(** ** Automation *)

Create HintDb guard.

(** Split every [match]/[if] in sight, keep the equations, clean up. *)
Ltac case_all :=
  repeat (case_match || case_bool_decide || case_decide); simplify_eq/=.

Ltac bool_split :=
  repeat match goal with
  | H : _ && _ = true |- _ => apply andb_true_iff in H; destruct H
  | H : _ || _ = false |- _ => apply orb_false_iff in H; destruct H
  | H : negb _ = true |- _ => apply negb_true_iff in H
  | H : negb _ = false |- _ => apply negb_false_iff in H
  | H : bool_decide _ = true |- _ => apply bool_decide_eq_true in H
  | H : bool_decide _ = false |- _ => apply bool_decide_eq_false in H
  end.

(** Decide a closed proposition by evaluating its decision procedure. *)
Ltac by_decide := refine (bool_decide_unpack _ _); vm_compute; exact I.

Lemma sm_bind_eq {S E A B} (m : SM S E A) (k : A -> SM S E B) (s : S) :
  (m ≫= k) s = match m s with (s', Ok a) => k a s' | (s', Err e) => (s', Err e) end.
Proof. done. Qed.

Lemma sm_bind_ok {S E A B} (m : SM S E A) (k : A -> SM S E B) (s s' : S) (b : B) :
  (m ≫= k) s = (s', Ok b) <-> exists s1 a, m s = (s1, Ok a) /\ k a s1 = (s', Ok b).
Proof. rewrite sm_bind_eq. destruct (m s) as [s1 []]; naive_solver. Qed.

(** A run whose result is known, its state left unevaluated. *)
Lemma pair_snd {A B} (x : A * B) (b : B) : x.2 = b -> x = (x.1, b).
Proof. destruct x. by intros <-. Qed.

Lemma collect_results_ok {A E} (l : list (result A E)) (xs : list A) :
  collect_results l = Ok xs <-> Forall2 (fun r x => r = Ok x) l xs.
Proof.
  revert xs. induction l as [|r l IH]; intros xs; simpl.
  - split; [intros [= <-]; constructor | by inversion 1].
  - split.
    + intros H. destruct r as [a|]; [|done].
      destruct (collect_results l) as [ys|]; [|done].
      simplify_eq. constructor; [done|]. by apply IH.
    + inversion_clear 1 as [|? x ? ys Hr Hl]. rewrite Hr.
      apply IH in Hl. by rewrite Hl.
Qed.
