(* ===== verification/RustStr.v ===== *)
(** * The parts of Rust's [str], [slice] and [fmt] the program uses

    A Rust [String], [&str], [Vec<u8>] or [&[u8]] is a Rocq [string], read as a
    sequence of bytes ([String.length] is the byte length).  Where the source
    needs a [str] it is a [string] for which [utf8_valid] holds; where it slices
    a [str] the char-boundary test is written out. *)

From S2P Require Import Prelude.

(** ** Bytes *)

Definition byte_val (a : ascii) : N := N_of_ascii a.

Definition byte_in (lo hi : N) (a : ascii) : bool :=
  bool_decide (lo <= byte_val a)%N && bool_decide (byte_val a <= hi)%N.

(** [u8::to_ascii_uppercase] and [u8::to_ascii_lowercase]. *)
Definition ascii_upper (a : ascii) : ascii :=
  if byte_in 97 122 a then ascii_of_N (byte_val a - 32) else a.

Definition ascii_lower (a : ascii) : ascii :=
  if byte_in 65 90 a then ascii_of_N (byte_val a + 32) else a.

Fixpoint str_map (f : ascii -> ascii) (s : string) : string :=
  match s with
  | EmptyString => EmptyString
  | String a s' => String (f a) (str_map f s')
  end.

Definition to_ascii_uppercase : string -> string := str_map ascii_upper.
Definition to_ascii_lowercase : string -> string := str_map ascii_lower.

Definition eq_ignore_ascii_case (a b : string) : bool :=
  bool_decide (to_ascii_lowercase a = to_ascii_lowercase b).

Fixpoint str_forallb (p : ascii -> bool) (s : string) : bool :=
  match s with
  | EmptyString => true
  | String a s' => p a && str_forallb p s'
  end.

Definition is_ascii_hexdigit (a : ascii) : bool :=
  byte_in 48 57 a || byte_in 65 70 a || byte_in 97 102 a.

(** ** Searching *)

Definition is_empty (s : string) : bool :=
  match s with EmptyString => true | _ => false end.

Fixpoint strip_prefix (p s : string) : option string :=
  match p, s with
  | EmptyString, _ => Some s
  | String a p', String b s' => if bool_decide (a = b) then strip_prefix p' s' else None
  | String _ _, EmptyString => None
  end.

Definition starts_with (s p : string) : bool :=
  match strip_prefix p s with Some _ => true | None => false end.

Fixpoint ends_with (s p : string) : bool :=
  bool_decide (s = p) ||
  match s with
  | EmptyString => false
  | String _ s' => ends_with s' p
  end.

Fixpoint contains (s p : string) : bool :=
  starts_with s p ||
  match s with
  | EmptyString => false
  | String _ s' => contains s' p
  end.

(** [str::split_once(char)] for an ASCII separator. *)
Fixpoint split_once (c : ascii) (s : string) : option (string * string) :=
  match s with
  | EmptyString => None
  | String a s' =>
      if bool_decide (a = c) then Some (EmptyString, s')
      else match split_once c s' with
           | Some (l, r) => Some (String a l, r)
           | None => None
           end
  end.

(** [str::split(char)] for an ASCII separator: always at least one piece. *)
Fixpoint split_on (c : ascii) (s : string) : list string :=
  match s with
  | EmptyString => [EmptyString]
  | String a s' =>
      if bool_decide (a = c) then EmptyString :: split_on c s'
      else match split_on c s' with
           | h :: t => String a h :: t
           | [] => [String a EmptyString]
           end
  end.

(** [[str]::join]. *)
Fixpoint join (sep : string) (l : list string) : string :=
  match l with
  | [] => ""
  | [x] => x
  | x :: l' => x +:+ sep +:+ join sep l'
  end.

(** ** Slicing *)

Fixpoint str_take (n : nat) (s : string) : string :=
  match n, s with
  | S n', String a s' => String a (str_take n' s')
  | _, _ => EmptyString
  end.

Fixpoint str_drop (n : nat) (s : string) : string :=
  match n, s with
  | S n', String _ s' => str_drop n' s'
  | _, _ => s
  end.

(** A UTF-8 continuation byte, [0b10xx_xxxx]. *)
Definition is_cont (a : ascii) : bool := byte_in 128 191 a.

(** [str::is_char_boundary]. *)
Definition is_char_boundary (s : string) (i : nat) : bool :=
  if bool_decide (i = 0) then true
  else match String.get i s with
       | Some a => negb (is_cont a)
       | None => bool_decide (i = String.length s)
       end.

(** ** UTF-8 validation, [core::str::from_utf8] *)

Fixpoint utf8_valid (s : string) : bool :=
  match s with
  | EmptyString => true
  | String a s1 =>
      if byte_in 0 127 a then utf8_valid s1
      else match s1 with
      | EmptyString => false
      | String b s2 =>
          if byte_in 194 223 a then is_cont b && utf8_valid s2
          else match s2 with
          | EmptyString => false
          | String c s3 =>
              let three := is_cont c && utf8_valid s3 in
              if bool_decide (byte_val a = 224%N) then byte_in 160 191 b && three
              else if bool_decide (byte_val a = 237%N) then byte_in 128 159 b && three
              else if byte_in 225 239 a then is_cont b && three
              else match s3 with
              | EmptyString => false
              | String d s4 =>
                  let four := is_cont c && (is_cont d && utf8_valid s4) in
                  if bool_decide (byte_val a = 240%N) then byte_in 144 191 b && four
                  else if byte_in 241 243 a then is_cont b && four
                  else if bool_decide (byte_val a = 244%N) then byte_in 128 143 b && four
                  else false
              end
          end
      end
  end.

(** ** White space, [str::trim]

    [char::is_whitespace] is Unicode [White_Space]; its UTF-8 encodings take
    one, two or three bytes. *)

Definition ws1 (a : ascii) : bool := byte_in 9 13 a || bool_decide (a = " "%char).

Definition ws2 (a b : ascii) : bool :=
  bool_decide (byte_val a = 194%N) &&
  (bool_decide (byte_val b = 133%N) || bool_decide (byte_val b = 160%N)).

Definition ws3 (a b c : ascii) : bool :=
  (bool_decide (byte_val a = 225%N) && bool_decide (byte_val b = 154%N)
     && bool_decide (byte_val c = 128%N))
  || (bool_decide (byte_val a = 226%N) && bool_decide (byte_val b = 128%N)
        && (byte_in 128 138 c || byte_in 168 169 c || bool_decide (byte_val c = 175%N)))
  || (bool_decide (byte_val a = 226%N) && bool_decide (byte_val b = 129%N)
        && bool_decide (byte_val c = 159%N))
  || (bool_decide (byte_val a = 227%N) && bool_decide (byte_val b = 128%N)
        && bool_decide (byte_val c = 128%N)).

Fixpoint trim_start (s : string) : string :=
  match s with
  | EmptyString => EmptyString
  | String a s1 =>
      if ws1 a then trim_start s1
      else match s1 with
      | EmptyString => s
      | String b s2 =>
          if ws2 a b then trim_start s2
          else match s2 with
          | EmptyString => s
          | String c s3 => if ws3 a b c then trim_start s3 else s
          end
      end
  end.

(** [trim_start] on the reversed string: the bytes of a character come last
    byte first. *)
Fixpoint trim_start_rev (s : string) : string :=
  match s with
  | EmptyString => EmptyString
  | String a s1 =>
      if ws1 a then trim_start_rev s1
      else match s1 with
      | EmptyString => s
      | String b s2 =>
          if ws2 b a then trim_start_rev s2
          else match s2 with
          | EmptyString => s
          | String c s3 => if ws3 c b a then trim_start_rev s3 else s
          end
      end
  end.

Definition trim_end (s : string) : string := String.rev (trim_start_rev (String.rev s)).
Definition trim (s : string) : string := trim_end (trim_start s).

(** The characters before the first white space, and [split_whitespace().next()]. *)
Fixpoint take_word (s : string) : string :=
  match s with
  | EmptyString => EmptyString
  | String a s1 =>
      if ws1 a then EmptyString
      else match s1 with
      | String b s2 =>
          if ws2 a b then EmptyString
          else match s2 with
          | String c _ => if ws3 a b c then EmptyString else String a (take_word s1)
          | EmptyString => String a (take_word s1)
          end
      | EmptyString => s
      end
  end.

Definition first_word (s : string) : option string :=
  let w := take_word (trim_start s) in if is_empty w then None else Some w.

(** [s.trim().is_empty()], the test the handlers make. *)
Definition blank (s : string) : bool := is_empty (trim s).

(** ** Lines, [str::lines]: split after each line feed, drop the line feed and one
    carriage return before it; no empty last line. *)

Definition LF : ascii := ascii_of_nat 10.
Definition CR : ascii := ascii_of_nat 13.
Definition TAB : ascii := ascii_of_nat 9.
Definition DQUOTE : ascii := ascii_of_nat 34.

Definition strip_cr_rev (acc : string) : string :=
  match acc with
  | String a acc' => if bool_decide (a = CR) then acc' else acc
  | EmptyString => acc
  end.

Fixpoint lines_aux (s acc : string) : list string :=
  match s with
  | EmptyString => if is_empty acc then [] else [String.rev acc]
  | String a s' =>
      if bool_decide (a = LF) then String.rev (strip_cr_rev acc) :: lines_aux s' EmptyString
      else lines_aux s' (String a acc)
  end.

Definition lines (s : string) : list string := lines_aux s EmptyString.

(** ** Numbers *)

Definition digit_val (a : ascii) : option N :=
  if byte_in 48 57 a then Some (byte_val a - 48)%N else None.

(** [char::to_digit(radix)] for the radixes 10 and 16. *)
Definition to_digit (radix : N) (a : ascii) : option N :=
  let v := if byte_in 48 57 a then Some (byte_val a - 48)%N
           else if byte_in 97 122 a then Some (byte_val a - 87)%N
           else if byte_in 65 90 a then Some (byte_val a - 55)%N
           else None in
  match v with
  | Some n => if bool_decide (n < radix)%N then Some n else None
  | None => None
  end.

Fixpoint digits_go (s : string) (acc : Z) : option Z :=
  match s with
  | EmptyString => Some acc
  | String a s' =>
      match digit_val a with
      | Some d => digits_go s' (acc * 10 + Z.of_N d)%Z
      | None => None
      end
  end.

Definition I64_MIN : Z := (- 2 ^ 63)%Z.
Definition I64_MAX : Z := (2 ^ 63 - 1)%Z.

(** [str::parse::<i64>]: an optional sign, at least one digit, no overflow. *)
Definition parse_i64 (s : string) : option Z :=
  let in_range z := if bool_decide (I64_MIN <= z <= I64_MAX)%Z then Some z else None in
  match s with
  | EmptyString => None
  | String a s' =>
      if bool_decide (a = "-"%char) then
        if is_empty s' then None else z ← digits_go s' 0; in_range (- z)%Z
      else if bool_decide (a = "+"%char) then
        if is_empty s' then None else z ← digits_go s' 0; in_range z
      else z ← digits_go s 0; in_range z
  end.

(** [str::parse::<u32>]: an optional plus sign, at least one digit, no overflow;
    the first offence in reading order is reported. *)
Fixpoint parse_u32_go (s : string) (acc : N) : result N string :=
  match s with
  | EmptyString => Ok acc
  | String a s' =>
      match digit_val a with
      | None => Err "invalid digit found in string"
      | Some d =>
          if bool_decide (acc * 10 + d <= 4294967295)%N then parse_u32_go s' (acc * 10 + d)%N
          else Err "number too large to fit in target type"
      end
  end.

Definition parse_u32 (s : string) : result N string :=
  match s with
  | EmptyString => Err "cannot parse integer from empty string"
  | String a s' =>
      if bool_decide (a = "+"%char) then
        if is_empty s' then Err "invalid digit found in string" else parse_u32_go s' 0
      else parse_u32_go s 0
  end.

(** [format!("{n:0w}")] for an unsigned [n]. *)
Fixpoint str_repeat (a : ascii) (n : nat) : string :=
  match n with O => EmptyString | S n' => String a (str_repeat a n') end.

Definition zero_pad (w : nat) (s : string) : string :=
  str_repeat "0" (w - String.length s) +:+ s.

(** [format!("{n:o}")]: octal digits, most significant first. *)
Fixpoint octal_go (fuel : nat) (n : N) (acc : string) : string :=
  match fuel with
  | O => acc
  | S fuel' =>
      let acc' := String (ascii_of_N (48 + N.land n 7)) acc in
      let rest := N.shiftr n 3 in
      if bool_decide (rest = 0%N) then acc' else octal_go fuel' rest acc'
  end.

Definition octal (n : N) : string := octal_go (S (N.to_nat (N.size n))) n "".

(** ** Paths, [std::path::Path], on the text of the path *)

(** Drop trailing separators and [.] components; the text is reversed. *)
Fixpoint trim_path_rev (r : string) : string :=
  match r with
  | String a r1 =>
      if bool_decide (a = "/"%char) then
        if is_empty r1 then r else trim_path_rev r1
      else match r1 with
           | String b _ =>
               if bool_decide (a = "."%char) && bool_decide (b = "/"%char)
               then trim_path_rev r1 else r
           | EmptyString => r
           end
  | EmptyString => r
  end.

Fixpoint take_until_sep (r : string) : string :=
  match r with
  | String a r' => if bool_decide (a = "/"%char) then "" else String a (take_until_sep r')
  | EmptyString => ""
  end.

Fixpoint drop_until_sep (r : string) : string :=
  match r with
  | String a r' => if bool_decide (a = "/"%char) then r else drop_until_sep r'
  | EmptyString => ""
  end.

(** [Path::parent]. *)
Definition path_parent (p : string) : option string :=
  let r := trim_path_rev (String.rev p) in
  if is_empty r || bool_decide (r = "/") then None
  else Some (String.rev (trim_path_rev (drop_until_sep r))).

(** [Path::file_name]: the last component unless it is the root, [.] or [..]. *)
Definition path_file_name (p : string) : option string :=
  let r := trim_path_rev (String.rev p) in
  let name := String.rev (take_until_sep r) in
  if is_empty name || bool_decide (name = "..") || bool_decide (name = ".") then None
  else Some name.

(** [Path::is_absolute] on Unix. *)
Definition path_is_absolute (p : string) : bool := starts_with p "/".

(** [Path::join]. *)
Definition path_join (a b : string) : string :=
  if path_is_absolute b || is_empty a then b
  else if ends_with a "/" then a +:+ b
  else a +:+ "/" +:+ b.

(** [Path::components], the root written as a slash; equality of paths compares them. *)
Definition path_components (p : string) : list string :=
  let parts := split_on "/" p in
  let normal := filter (fun c => c <> "" /\ c <> ".") parts in
  if path_is_absolute p then "/" :: normal
  else match parts with
       | "." :: _ => "." :: normal
       | _ => normal
       end.

Definition path_eq (a b : string) : bool := bool_decide (path_components a = path_components b).

Example path_examples :
  path_parent "/usr/local/bin/x" = Some "/usr/local/bin" /\ path_parent "/" = None
  /\ path_parent "x" = Some "" /\ path_parent "" = None /\ path_parent "/a/./" = Some "/"
  /\ path_parent "a//b/c/" = Some "a//b" /\ path_file_name "/a/b.lock/" = Some "b.lock"
  /\ path_file_name "/a/.." = None /\ path_join "/a" "b" = "/a/b" /\ path_join "/a/" "b" = "/a/b"
  /\ path_join "/a" "/b" = "/b" /\ path_eq "/a//b/." "/a/b" = true /\ octal 420 = "644".
Proof. by vm_compute. Qed.

(** ** Lemmas: concatenation *)

Lemma app_nil_l_str (s : string) : EmptyString +:+ s = s.
Proof. done. Qed.

Lemma app_cons_str (a : ascii) (s t : string) : String a s +:+ t = String a (s +:+ t).
Proof. done. Qed.

Lemma app_nil_r_str (s : string) : s +:+ EmptyString = s.
Proof. induction s as [|a s IH]; [done|]. by rewrite app_cons_str, IH. Qed.

Lemma app_assoc_str (s t u : string) : (s +:+ t) +:+ u = s +:+ t +:+ u.
Proof. induction s as [|a s IH]; [done|]. by rewrite !app_cons_str, IH. Qed.

Lemma length_app_str (s t : string) :
  String.length (s +:+ t) = String.length s + String.length t.
Proof. induction s as [|a s IH]; [done|]. rewrite app_cons_str. simpl. by rewrite IH. Qed.

Lemma rev_app_spec (s t : string) : String.rev_app s t = String.rev s +:+ t.
Proof.
  unfold String.rev. revert t. induction s as [|a s IH]; intros t; [done|]. simpl.
  rewrite IH. rewrite (IH (String a "")). rewrite app_assoc_str. done.
Qed.

Lemma rev_cons_str (a : ascii) (s : string) : String.rev (String a s) = String.rev s +:+ String a "".
Proof. unfold String.rev at 1. simpl. apply rev_app_spec. Qed.

Lemma rev_app_str (s t : string) : String.rev (s +:+ t) = String.rev t +:+ String.rev s.
Proof.
  induction s as [|a s IH]; simpl.
  - by rewrite app_nil_l_str, app_nil_r_str.
  - by rewrite app_cons_str, !rev_cons_str, IH, app_assoc_str.
Qed.

Lemma rev_involutive_str (s : string) : String.rev (String.rev s) = s.
Proof. induction s as [|a s IH]; [done|]. by rewrite rev_cons_str, rev_app_str, IH. Qed.

(** ** Lemmas: prefixes, suffixes, substrings *)

Lemma strip_prefix_Some (p s r : string) : strip_prefix p s = Some r <-> s = p +:+ r.
Proof.
  revert s. induction p as [|a p IH]; intros s; simpl.
  - rewrite app_nil_l_str. split; [by intros [= ->] | by intros ->].
  - destruct s as [|b s]; [split; [done|by rewrite app_cons_str]|].
    rewrite app_cons_str. case_bool_decide as Hab.
    + subst b. rewrite IH. split; [by intros -> | by intros [=]].
    + split; [done | by intros [= -> ->]].
Qed.

Lemma starts_with_true (s p : string) : starts_with s p = true <-> exists r, s = p +:+ r.
Proof.
  unfold starts_with. destruct (strip_prefix p s) as [r|] eqn:H.
  - apply strip_prefix_Some in H. split; [eauto | done].
  - split; [done|]. intros [r Hr]. apply strip_prefix_Some in Hr. congruence.
Qed.

Lemma ends_with_true (s p : string) : ends_with s p = true <-> exists l, s = l +:+ p.
Proof.
  induction s as [|a s IH]; simpl; rewrite orb_true_iff, bool_decide_eq_true.
  - split; [intros [<-|]; [by exists "" | done]|].
    intros [l Hl]. left. destruct l; [by rewrite Hl | done].
  - rewrite IH. split.
    + intros [<- | [l ->]]; [by exists "" | by exists (String a l)].
    + intros [[|b l] Hl]; [by left | right].
      rewrite app_cons_str in Hl. simplify_eq. eauto.
Qed.

Lemma contains_true (s p : string) :
  contains s p = true <-> exists l r, s = l +:+ p +:+ r.
Proof.
  induction s as [|a s IH]; simpl; rewrite orb_true_iff, starts_with_true.
  - split; [intros [[r ->]|]; [by exists "", r | done]|].
    intros (l & r & Hl). left. destruct l; [by exists r | done].
  - rewrite IH. split.
    + intros [[r ->] | (l & r & ->)]; [by exists "", r | by exists (String a l), r].
    + intros ([|b l] & r & Hl); [left; by exists r | right].
      rewrite app_cons_str in Hl. simplify_eq. eauto.
Qed.

(** A character does not occur in a string. *)
Definition no_char (c : ascii) (s : string) : bool :=
  str_forallb (fun a => negb (bool_decide (a = c))) s.

Lemma str_forallb_app (p : ascii -> bool) (s t : string) :
  str_forallb p (s +:+ t) = str_forallb p s && str_forallb p t.
Proof.
  induction s as [|a s IH]; [done|]. rewrite app_cons_str. simpl.
  by rewrite IH, andb_assoc.
Qed.

Lemma no_char_cons (c a : ascii) (s : string) :
  no_char c (String a s) = true <-> a <> c /\ no_char c s = true.
Proof.
  unfold no_char. simpl. rewrite andb_true_iff, negb_true_iff, bool_decide_eq_false. done.
Qed.

Lemma split_once_no_char (c : ascii) (s : string) :
  no_char c s = true -> split_once c s = None.
Proof.
  induction s as [|a s IH]; [done|]. intros [??]%no_char_cons. simpl.
  rewrite bool_decide_eq_false_2 by done. by rewrite IH.
Qed.

Lemma split_once_app (c : ascii) (s t : string) :
  no_char c s = true -> split_once c (s +:+ String c t) = Some (s, t).
Proof.
  induction s as [|a s IH]; intros H.
  - rewrite app_nil_l_str. simpl. by rewrite bool_decide_eq_true_2.
  - apply no_char_cons in H as [??]. rewrite app_cons_str. simpl.
    rewrite bool_decide_eq_false_2 by done. by rewrite IH.
Qed.

Lemma split_once_None (c : ascii) (s : string) :
  split_once c s = None -> no_char c s = true.
Proof.
  induction s as [|a s IH]; simpl; [done|].
  case_bool_decide; [done|]. destruct (split_once c s) as [[l r]|]; [done|].
  intros _. apply no_char_cons. auto.
Qed.

Lemma split_once_Some (c : ascii) (s l r : string) :
  split_once c s = Some (l, r) -> s = l +:+ String c r /\ no_char c l = true.
Proof.
  revert l r. induction s as [|a s IH]; intros l r; simpl; [done|].
  case_bool_decide as Ha.
  - intros [= <- <-]. by subst.
  - destruct (split_once c s) as [[l' r']|]; [|done]. intros [= <- <-].
    destruct (IH l' r') as [-> Hl]; [done|].
    rewrite app_cons_str, no_char_cons. auto.
Qed.

Lemma split_on_nonempty (c : ascii) (s : string) : split_on c s <> [].
Proof. destruct s as [|a s]; simpl; [done|]. case_bool_decide; [done|]. by case_match. Qed.

Lemma split_on_join (c : ascii) (s : string) :
  join (String c "") (split_on c s) = s.
Proof.
  induction s as [|a s IH]; [done|]. simpl.
  pose proof (split_on_nonempty c s) as Hne.
  case_bool_decide as Ha; destruct (split_on c s) as [|h t] eqn:Hs; try done.
  - subst a. change (join (String c "") ("" :: h :: t))
      with ("" +:+ String c "" +:+ join (String c "") (h :: t)).
    by rewrite IH.
  - destruct t as [|h' t]; simpl in *; by rewrite <- IH.
Qed.

Lemma split_on_no_char (c : ascii) (s : string) :
  no_char c s = true -> split_on c s = [s].
Proof.
  induction s as [|a s IH]; [done|]. intros [??]%no_char_cons. simpl.
  rewrite bool_decide_eq_false_2 by done. by rewrite IH.
Qed.

Lemma split_on_app (c : ascii) (s t : string) :
  no_char c s = true -> split_on c (s +:+ String c t) = s :: split_on c t.
Proof.
  induction s as [|a s IH]; intros H.
  - rewrite app_nil_l_str. simpl. by rewrite bool_decide_eq_true_2.
  - apply no_char_cons in H as [??]. rewrite app_cons_str. simpl.
    rewrite bool_decide_eq_false_2 by done. by rewrite IH.
Qed.

Lemma split_on_join_inv (c : ascii) (l : list string) :
  l <> [] -> Forall (fun s => no_char c s = true) l -> split_on c (join (String c "") l) = l.
Proof.
  induction l as [|x l IH]; intros Hne Hl; [done|]. apply Forall_cons in Hl as [Hx Hl].
  destruct l as [|y l]; [by apply split_on_no_char|].
  change (join (String c "") (x :: y :: l))
    with (x +:+ String c "" +:+ join (String c "") (y :: l)).
  rewrite (app_cons_str c ""), app_nil_l_str, split_on_app by done. by rewrite IH.
Qed.

(** ** Lemmas: decimal numbers *)

Lemma digits_go_pretty_go (x : N) (s : string) :
  digits_go (pretty_N_go x s) 0 = digits_go s (Z.of_N x).
Proof.
  revert s. induction (N.lt_wf_0 x) as [x _ IH]; intros s.
  destruct (decide (x = 0)%N) as [->|Hx]; [by rewrite pretty_N_go_0|].
  rewrite pretty_N_go_step by lia. rewrite IH by (apply N.div_lt; lia).
  pose proof (N.mod_lt x 10 ltac:(lia)) as Hm. cbn [digits_go].
  assert (forall d, (d < 10)%N -> digit_val (pretty_N_char d) = Some d) as Hdv.
  { intros d Hd. assert (d ∈ [0; 1; 2; 3; 4; 5; 6; 7; 8; 9]%N) as Hin.
    { rewrite !elem_of_cons. lia. }
    repeat (apply elem_of_cons in Hin as [->|Hin]; [done|]). by apply elem_of_nil in Hin. }
  rewrite Hdv by done. f_equal. pose proof (N.div_mod x 10 ltac:(lia)). lia.
Qed.

(** Printing a number and reading its digits. *)
Lemma digits_go_pretty (n : N) : digits_go (pretty n) 0 = Some (Z.of_N n).
Proof.
  unfold pretty, pretty_N. case_decide as Hn; [by subst|]. apply digits_go_pretty_go.
Qed.

Lemma digits_go_zeros (k : nat) (s : string) :
  digits_go (str_repeat "0" k +:+ s) 0 = digits_go s 0.
Proof. induction k as [|k IH]; [done|]. simpl. apply IH. Qed.

Lemma zero_pad_inj (w : nat) (a b : N) : zero_pad w (pretty a) = zero_pad w (pretty b) -> a = b.
Proof.
  unfold zero_pad. intros H. apply (f_equal (fun s => digits_go s 0)) in H.
  rewrite !digits_go_zeros, !digits_go_pretty in H. simplify_eq. lia.
Qed.

(** ** Lemmas: lines *)

Definition no_cr_end (s : string) : bool :=
  match String.rev s with
  | String a _ => negb (bool_decide (a = CR))
  | EmptyString => true
  end.

Lemma lines_aux_app (s t acc : string) :
  no_char LF s = true ->
  lines_aux (s +:+ String LF t) acc
  = String.rev (strip_cr_rev (String.rev s +:+ acc)) :: lines_aux t "".
Proof.
  revert acc. induction s as [|a s IH]; intros acc H.
  - reflexivity.
  - apply no_char_cons in H as [??]. rewrite app_cons_str. simpl.
    rewrite bool_decide_eq_false_2 by done.
    rewrite IH by done. by rewrite rev_cons_str, app_assoc_str.
Qed.

(** Printing a line with a line feed and reading it back. *)
Lemma lines_app (s t : string) :
  no_char LF s = true -> no_cr_end s = true -> lines (s +:+ String LF t) = s :: lines t.
Proof.
  intros Hlf Hcr. unfold lines. rewrite lines_aux_app by done.
  rewrite app_nil_r_str. unfold no_cr_end in Hcr. f_equal.
  destruct (String.rev s) as [|a r] eqn:Hr; simpl.
  - by rewrite <- (rev_involutive_str s), Hr.
  - bool_split. rewrite bool_decide_eq_false_2 by done.
    by rewrite <- Hr, rev_involutive_str.
Qed.

(** ** Lemmas: slices *)

Lemma str_take_drop (n : nat) (s : string) : str_take n s +:+ str_drop n s = s.
Proof.
  revert s. induction n as [|n IH]; intros s; [done|].
  destruct s as [|a s]; [done|]. simpl. by rewrite app_cons_str, IH.
Qed.

Lemma length_str_take (n : nat) (s : string) :
  String.length (str_take n s) = Nat.min n (String.length s).
Proof.
  revert s. induction n as [|n IH]; intros s; [done|].
  destruct s as [|a s]; [done|]. simpl. by rewrite IH.
Qed.

Lemma str_take_app (s t : string) : str_take (String.length s) (s +:+ t) = s.
Proof. induction s as [|a s IH]; [done|]. simpl. by rewrite IH. Qed.

Lemma str_drop_app (s t : string) : str_drop (String.length s) (s +:+ t) = t.
Proof. induction s as [|a s IH]; [done|]. simpl. done. Qed.

Lemma str_take_ge (n : nat) (s : string) : String.length s <= n -> str_take n s = s.
Proof.
  revert s. induction n as [|n IH]; intros s; destruct s as [|a s]; simpl; intros H;
    try done; [lia|]. by rewrite IH by lia.
Qed.

Create Rewrite HintDb rust_str.
#[export] Hint Rewrite app_nil_l_str app_cons_str app_nil_r_str app_assoc_str
  length_app_str rev_cons_str : rust_str.
