(* ===== verification/RawSyscall.v ===== *)
(** * Direct system calls of the injected library

    [crates/guard-hook/src/raw_syscall.rs]: the registers and the stack at the trap
    instruction, for both processors, and what is made of the register the kernel
    leaves its result in.  A wrapper is one trap, so it is the pair of the two.  The
    kernel is an argument: what it does with the registers is its own, what it reads of
    them is the convention the source states at its head.  Words are numbers below
    2^64, C integers are numbers in their range, pointers are addresses. *)

From S2P Require Import Prelude.

(** ** Widths *)

Definition word_size : Z := 2 ^ 64.
Definition U64_MAX : Z := word_size - 1.

(** [u64::from_ne_bytes(v.to_ne_bytes())] of an [i64]. *)
Definition u64_of_i64 (v : Z) : Z := v mod word_size.

(** [u64::try_from(..).unwrap_or(u64::MAX)] of a [usize]. *)
Definition u64_try_from (v : Z) : Z := if bool_decide (0 <= v <= U64_MAX)%Z then v else U64_MAX.

(** [i64::from(c_int)] keeps the value. *)
Definition c_int_arg (value : Z) : Z := u64_of_i64 value.
Definition ptr_arg (ptr : Z) : Z := u64_try_from ptr.
Definition mut_ptr_arg (ptr : Z) : Z := u64_try_from ptr.
Definition size_arg (value : Z) : Z := u64_try_from value.

Definition in_signed (bits : Z) (v : Z) : Prop := (- 2 ^ (bits - 1) <= v < 2 ^ (bits - 1))%Z.
#[export] Instance in_signed_dec bits v : Decision (in_signed bits v).
Proof. unfold in_signed. apply _. Defined.

(** [try_from(..).unwrap_or(if value < 0 { -1 } else { MAX })]. *)
Definition saturated (bits value : Z) : Z :=
  if bool_decide (in_signed bits value) then value
  else if bool_decide (value < 0)%Z then -1 else 2 ^ (bits - 1) - 1.
Definition syscall_ret_c_int (value : Z) : Z := saturated 32 value.
Definition syscall_ret_ssize (value : Z) : Z := saturated 64 value.

(** ** Numbers *)

Definition SYS_FORK : Z := 2.
Definition SYS_WRITE : Z := 4.
Definition SYS_EXECVE : Z := 59.
Definition SYS_VFORK : Z := 66.
Definition SYS_SENDMSG : Z := 28.
Definition SYS_SENDTO : Z := 133.
Definition SYS_CONNECT : Z := 98.
Definition SYS_WRITEV : Z := 121.
Definition SYS_CONNECTX : Z := 447.
Definition SYS_READ : Z := 3.
Definition SYS_OPEN : Z := 5.
Definition SYS_GETSOCKOPT : Z := 118.
Definition SYS_OPENAT : Z := 463.

(** ** Traps *)

Inductive Arch : Type := Aarch64 | X86_64.

Inductive Reg : Type :=
| X0 | X1 | X2 | X3 | X4 | X5 | X6 | X7 | X16
| RAX | RDI | RSI | RDX | R10 | R8 | R9.

#[export] Instance Reg_eq_dec : EqDecision Reg.
Proof. solve_decision. Defined.

(** The registers written for the trap, and the words from the stack pointer up. *)
Record Trap : Type := mkTrap {
  tr_regs : list (Reg * Z);
  tr_stack : list Z;
}.

(** What the kernel leaves: the result register, the second result register, the carry
    flag. *)
Record Returned : Type := mkReturned {
  kr_ret : Z;
  kr_second : Z;
  kr_carry : bool;
}.

(** One system call: the trap, above a stack, and the reading of what comes back. *)
Record Call (A : Type) : Type := mkCall {
  call_trap : Arch -> list Z -> Trap;
  call_result : Returned -> A;
}.
Arguments mkCall {A} _ _.
Arguments call_trap {A} _ _ _.
Arguments call_result {A} _ _.

Definition call_map {A B} (f : A -> B) (c : Call A) : Call B :=
  mkCall (call_trap c) (fun r => f (call_result c r)).

(** The class of BSD calls on x86_64. *)
Definition bsd_class (num : Z) : Z := Z.lor num 0x2000000.

Definition arm_args : list Reg := [X0; X1; X2; X3; X4; X5; X6; X7].
Definition x86_args : list Reg := [RDI; RSI; RDX; R10; R8; R9].

(** [syscall0], [syscall3] to [syscall6]: the arguments fill the first registers; the
    result is an [i64]. *)
Definition syscall (num : Z) (args : list Z) : Call Z :=
  mkCall
    (fun arch stack =>
       match arch with
       | Aarch64 => mkTrap ((X16, u64_of_i64 num) :: zip arm_args args) stack
       | X86_64 => mkTrap ((RAX, u64_of_i64 (bsd_class num)) :: zip x86_args args) stack
       end)
    kr_ret.

Definition syscall0 (num : Z) : Call Z := syscall num [].
Definition syscall3 (num a1 a2 a3 : Z) : Call Z := syscall num [a1; a2; a3].
Definition syscall4 (num a1 a2 a3 a4 : Z) : Call Z := syscall num [a1; a2; a3; a4].
Definition syscall5 (num a1 a2 a3 a4 a5 : Z) : Call Z := syscall num [a1; a2; a3; a4; a5].
Definition syscall6 (num a1 a2 a3 a4 a5 a6 : Z) : Call Z := syscall num [a1; a2; a3; a4; a5; a6].

(** Eight arguments: on x86_64 the last two are pushed, the eighth first. *)
Definition syscall8 (num : Z) (args : list Z) : Call Z :=
  mkCall
    (fun arch stack =>
       match arch with
       | Aarch64 => mkTrap ((X16, u64_of_i64 num) :: zip arm_args args) stack
       | X86_64 => mkTrap ((RAX, u64_of_i64 (bsd_class num)) :: zip x86_args args) (drop 6 args ++ stack)
       end)
    kr_ret.

(** ** The wrappers *)

Record ConnectxArgs : Type := mkConnectx {
  cx_socket : Z; cx_endpoints : Z; cx_associd : Z; cx_flags : Z;
  cx_iov : Z; cx_iovcnt : Z; cx_len : Z; cx_connid : Z;
}.

Definition raw_connect (s addr addrlen : Z) : Call Z :=
  call_map syscall_ret_c_int (syscall3 SYS_CONNECT (c_int_arg s) (ptr_arg addr) addrlen).

Definition raw_connectx (args : ConnectxArgs) : Call Z :=
  call_map syscall_ret_c_int
    (syscall8 SYS_CONNECTX
       [c_int_arg (cx_socket args); ptr_arg (cx_endpoints args); c_int_arg (cx_associd args); cx_flags args;
        ptr_arg (cx_iov args); c_int_arg (cx_iovcnt args); mut_ptr_arg (cx_len args); mut_ptr_arg (cx_connid args)]).

Definition raw_sendto (s buf len flags to tolen : Z) : Call Z :=
  call_map syscall_ret_ssize
    (syscall6 SYS_SENDTO (c_int_arg s) (ptr_arg buf) (size_arg len) (c_int_arg flags) (ptr_arg to) tolen).

Definition raw_sendmsg (s msg flags : Z) : Call Z :=
  call_map syscall_ret_ssize (syscall3 SYS_SENDMSG (c_int_arg s) (ptr_arg msg) (c_int_arg flags)).

Definition raw_send (s buf len flags : Z) : Call Z := raw_sendto s buf len flags 0 0.

Definition raw_read (fd buf count : Z) : Call Z :=
  call_map syscall_ret_ssize (syscall3 SYS_READ (c_int_arg fd) (mut_ptr_arg buf) (size_arg count)).

Definition raw_write (fd buf count : Z) : Call Z :=
  call_map syscall_ret_ssize (syscall3 SYS_WRITE (c_int_arg fd) (ptr_arg buf) (size_arg count)).

Definition raw_writev (fd iov iovcnt : Z) : Call Z :=
  call_map syscall_ret_ssize (syscall3 SYS_WRITEV (c_int_arg fd) (ptr_arg iov) (c_int_arg iovcnt)).

Definition raw_fork : Call Z := call_map syscall_ret_c_int (syscall0 SYS_FORK).
Definition raw_vfork : Call Z := call_map syscall_ret_c_int (syscall0 SYS_VFORK).

Definition raw_getsockopt (s level optname optval optlen : Z) : Call Z :=
  call_map syscall_ret_c_int
    (syscall5 SYS_GETSOCKOPT (c_int_arg s) (c_int_arg level) (c_int_arg optname) (mut_ptr_arg optval) (mut_ptr_arg optlen)).

Definition raw_execve (path argv envp : Z) : Call Z :=
  call_map syscall_ret_c_int (syscall3 SYS_EXECVE (ptr_arg path) (ptr_arg argv) (ptr_arg envp)).

Definition raw_open (path oflag mode : Z) : Call Z :=
  call_map syscall_ret_c_int (syscall3 SYS_OPEN (ptr_arg path) (c_int_arg oflag) mode).

Definition raw_openat (dirfd path oflag mode : Z) : Call Z :=
  call_map syscall_ret_c_int (syscall4 SYS_OPENAT (c_int_arg dirfd) (ptr_arg path) (c_int_arg oflag) mode).

(** ** The calls as the C library has them *)

(** An argument with its C type. *)
Inductive CArg : Type :=
| CInt (v : Z)
| CU32 (v : Z)
| CPtr (v : Z)
| CSize (v : Z).

#[export] Instance CArg_eq_dec : EqDecision CArg.
Proof. solve_decision. Defined.

Definition well_typed (a : CArg) : Prop :=
  match a with
  | CInt v => in_signed 32 v
  | CU32 v => (0 <= v < 2 ^ 32)%Z
  | CPtr v | CSize v => (0 <= v < word_size)%Z
  end.

Inductive RawCall : Type :=
| Connect (s addr addrlen : Z)
| Connectx (args : ConnectxArgs)
| Sendto (s buf len flags to tolen : Z)
| Sendmsg (s msg flags : Z)
| Send (s buf len flags : Z)
| Read (fd buf count : Z)
| Write (fd buf count : Z)
| Writev (fd iov iovcnt : Z)
| Fork
| Vfork
| Getsockopt (s level optname optval optlen : Z)
| Execve (path argv envp : Z)
| Open (path oflag mode : Z)
| Openat (dirfd path oflag mode : Z).

Definition invoke (c : RawCall) : Call Z :=
  match c with
  | Connect s addr addrlen => raw_connect s addr addrlen
  | Connectx args => raw_connectx args
  | Sendto s buf len flags to tolen => raw_sendto s buf len flags to tolen
  | Sendmsg s msg flags => raw_sendmsg s msg flags
  | Send s buf len flags => raw_send s buf len flags
  | Read fd buf count => raw_read fd buf count
  | Write fd buf count => raw_write fd buf count
  | Writev fd iov iovcnt => raw_writev fd iov iovcnt
  | Fork => raw_fork
  | Vfork => raw_vfork
  | Getsockopt s level optname optval optlen => raw_getsockopt s level optname optval optlen
  | Execve path argv envp => raw_execve path argv envp
  | Open path oflag mode => raw_open path oflag mode
  | Openat dirfd path oflag mode => raw_openat dirfd path oflag mode
  end.

(** The number, the arguments and the width of the result; [send] is [sendto] without a
    destination. *)
Definition c_number (c : RawCall) : Z :=
  match c with
  | Connect _ _ _ => 98 | Connectx _ => 447 | Sendto _ _ _ _ _ _ | Send _ _ _ _ => 133 | Sendmsg _ _ _ => 28
  | Read _ _ _ => 3 | Write _ _ _ => 4 | Writev _ _ _ => 121 | Fork => 2 | Vfork => 66 | Getsockopt _ _ _ _ _ => 118
  | Execve _ _ _ => 59 | Open _ _ _ => 5 | Openat _ _ _ _ => 463
  end.

Definition c_args (c : RawCall) : list CArg :=
  match c with
  | Connect s addr addrlen => [CInt s; CPtr addr; CU32 addrlen]
  | Connectx a =>
      [CInt (cx_socket a); CPtr (cx_endpoints a); CInt (cx_associd a); CU32 (cx_flags a); CPtr (cx_iov a); CInt (cx_iovcnt a);
       CPtr (cx_len a); CPtr (cx_connid a)]
  | Sendto s buf len flags to tolen => [CInt s; CPtr buf; CSize len; CInt flags; CPtr to; CU32 tolen]
  | Sendmsg s msg flags => [CInt s; CPtr msg; CInt flags]
  | Send s buf len flags => [CInt s; CPtr buf; CSize len; CInt flags; CPtr 0; CU32 0]
  | Read fd buf count | Write fd buf count => [CInt fd; CPtr buf; CSize count]
  | Writev fd iov iovcnt => [CInt fd; CPtr iov; CInt iovcnt]
  | Fork | Vfork => []
  | Getsockopt s level optname optval optlen => [CInt s; CInt level; CInt optname; CPtr optval; CPtr optlen]
  | Execve path argv envp => [CPtr path; CPtr argv; CPtr envp]
  | Open path oflag mode => [CPtr path; CInt oflag; CU32 mode]
  | Openat dirfd path oflag mode => [CInt dirfd; CPtr path; CInt oflag; CU32 mode]
  end.

Definition c_bits (c : RawCall) : Z :=
  match c with
  | Sendto _ _ _ _ _ _ | Sendmsg _ _ _ | Send _ _ _ _ | Read _ _ _ | Write _ _ _ | Writev _ _ _ => 64
  | _ => 32
  end.

(** ** The convention of the kernel

    On aarch64 the number is in x16 and the arguments in x0 to x7.  On x86_64 the
    number is in rax with the class above it, six arguments are in registers and the
    others where the C calling convention has them, above the return address. *)

Definition reg (t : Trap) (r : Reg) : option Z := snd <$> find (fun p => bool_decide (p.1 = r)) (tr_regs t).

Definition abi_number (arch : Arch) (t : Trap) : option Z :=
  match arch with
  | Aarch64 => reg t X16
  | X86_64 => n ← reg t RAX; if bool_decide (Z.shiftr n 24 = 2%Z) then Some (Z.land n 0xffffff) else None
  end.

Definition abi_words (arch : Arch) (n : nat) (t : Trap) : list (option Z) :=
  match arch with
  | Aarch64 => reg t <$> take n arm_args
  | X86_64 => (reg t <$> take n x86_args) ++ (Some <$> take (n - 6) (drop 1 (tr_stack t)))
  end.

(** The value of a word at the type of an argument. *)
Definition signed32 (w : Z) : Z := let v := (w mod 2 ^ 32)%Z in if bool_decide (v < 2 ^ 31)%Z then v else (v - 2 ^ 32)%Z.
Definition read_as (a : CArg) (w : Z) : CArg :=
  match a with
  | CInt _ => CInt (signed32 w)
  | CU32 _ => CU32 (w mod 2 ^ 32)
  | CPtr _ => CPtr w
  | CSize _ => CSize w
  end.

Definition abi_args (arch : Arch) (args : list CArg) (t : Trap) : list (option CArg) :=
  zip_with (fun a (w : option Z) => read_as a <$> w) args (abi_words arch (length args) t).

(** ** Arguments and results keep their values *)

(** How a C argument is put into a word. *)
Definition word_of (a : CArg) : Z :=
  match a with CInt v => c_int_arg v | CU32 v => v | CPtr v | CSize v => u64_try_from v end.

Lemma word_of_range (a : CArg) : well_typed a -> (0 <= word_of a < word_size)%Z.
Proof.
  unfold word_of, c_int_arg, u64_of_i64, u64_try_from, U64_MAX, word_size.
  destruct a as [v|v|v|v]; cbn [well_typed]; intros H; try (case_bool_decide; unfold word_size in *; lia); [|lia].
  apply Z.mod_pos_bound. lia.
Qed.

Lemma signed32_mod (v : Z) : in_signed 32 v -> signed32 (v mod 2 ^ 64) = v.
Proof.
  unfold in_signed, signed32. intros H.
  assert ((v mod 2 ^ 64) mod 2 ^ 32 = v mod 2 ^ 32)%Z as ->.
  { change (2 ^ 64)%Z with (2 ^ 32 * 2 ^ 32)%Z. rewrite Z.rem_mul_r by lia.
    by rewrite (Z.mul_comm (2 ^ 32)%Z), Z.add_mod, Z.mod_mul, Z.add_0_r, !Z.mod_mod by lia. }
  destruct (decide (0 <= v)%Z).
  - rewrite Z.mod_small by lia. cbv zeta. rewrite bool_decide_eq_true_2 by lia. done.
  - assert (v mod 2 ^ 32 = v + 2 ^ 32)%Z as ->.
    { symmetry. apply (Z.mod_unique_pos _ _ (-1)); lia. }
    cbv zeta. rewrite bool_decide_eq_false_2 by lia. lia.
Qed.

(** A word reads back as the argument it was made of. *)
Lemma read_word (a : CArg) : well_typed a -> read_as a (word_of a) = a.
Proof.
  destruct a as [v|v|v|v]; cbn [well_typed read_as word_of]; intros H.
  - f_equal. by apply signed32_mod.
  - f_equal. by apply Z.mod_small.
  - f_equal. unfold u64_try_from, U64_MAX. rewrite bool_decide_eq_true_2; [done|lia].
  - f_equal. unfold u64_try_from, U64_MAX. rewrite bool_decide_eq_true_2; [done|lia].
Qed.

(** The trap of every wrapper is that of its words. *)
Lemma invoke_trap (c : RawCall) (arch : Arch) (stack : list Z) :
  call_trap (invoke c) arch stack = call_trap (syscall8 (c_number c) (word_of <$> c_args c)) arch stack.
Proof. by destruct c, arch. Qed.

(** At most eight words, six on x86_64, are read in their order. *)
Lemma abi_words_read (arch : Arch) (num : Z) (ws stack : list Z) :
  length ws <= match arch with Aarch64 => 8 | X86_64 => 6 end ->
  abi_words arch (length ws) (call_trap (syscall8 num ws) arch stack) = Some <$> ws.
Proof. intros H. destruct arch; do 9 (destruct ws as [|? ws]; [first [reflexivity|exfalso; cbn [length] in H; lia]|]); exfalso; cbn [length] in H; lia. Qed.

Lemma abi_number_read (c : RawCall) (arch : Arch) (stack : list Z) :
  abi_number arch (call_trap (invoke c) arch stack) = Some (c_number c).
Proof. destruct c, arch; reflexivity. Qed.

Lemma abi_args_read (args : list CArg) :
  Forall well_typed args -> zip_with (fun a (w : option Z) => read_as a <$> w) args (Some <$> (word_of <$> args)) = Some <$> args.
Proof. induction 1 as [|a args Ha _ IH]; [done|]. cbn. rewrite IH. f_equal. cbn. by rewrite read_word. Qed.

Lemma saturated_spec (bits v : Z) :
  (0 < bits <= 64)%Z -> in_signed 64 v ->
  in_signed bits (saturated bits v) /\ (in_signed bits v -> saturated bits v = v) /\ ((saturated bits v < 0)%Z <-> (v < 0)%Z).
Proof.
  intros Hb Hv. unfold saturated. assert (0 < 2 ^ (bits - 1))%Z by (apply Z.pow_pos_nonneg; lia).
  destruct (decide (in_signed bits v)) as [H1|H1].
  - by rewrite (bool_decide_eq_true_2 (in_signed bits v)).
  - rewrite (bool_decide_eq_false_2 (in_signed bits v)) by done. unfold in_signed in *.
    case_bool_decide; (split; [lia|]); (split; [done|lia]).
Qed.

Definition trap_words (t : Trap) : list Z := (tr_regs t).*2.

Lemma trap_words_range (arch : Arch) (num : Z) (ws stack : list Z) :
  (0 <= u64_of_i64 num < word_size)%Z /\ (0 <= u64_of_i64 (bsd_class num) < word_size)%Z ->
  Forall (fun w => 0 <= w < word_size)%Z ws ->
  Forall (fun w => 0 <= w < word_size)%Z (trap_words (call_trap (syscall8 num ws) arch stack)).
Proof.
  intros [Hn Hb] Hw. unfold trap_words. destruct arch; cbn [call_trap syscall8 tr_regs]; rewrite fmap_cons; (constructor; [done|]).
  all: apply Forall_fmap, Forall_forall; intros [x w] Hin; cbn; apply elem_of_zip_r in Hin; by eapply Forall_forall in Hw.
Qed.

Lemma invoke_result (c : RawCall) (r : Returned) : call_result (invoke c) r = saturated (c_bits c) (kr_ret r).
Proof. by destruct c. Qed.

(** C25: the wrappers keep the types of C.  Whatever the call and the processor, and for
    arguments in the range of their C types, the kernel finds the number of the call and
    reads exactly these arguments, the negative integers and the absent destination of
    [send] included; all words fit a register, and nothing is left on the stack but the two
    words of [connectx] on x86_64, the one call that is excepted.  What comes back is in the
    range of the C result, negative exactly when the kernel's value is, and that value
    whenever it is in range. *)
Theorem raw_calls_keep_types (c : RawCall) (arch : Arch) (stack : list Z) (r : Returned) :
  Forall well_typed (c_args c) -> in_signed 64 (kr_ret r) ->
  (arch = X86_64 -> length (c_args c) <= 6) ->
  let t := call_trap (invoke c) arch stack in
  abi_number arch t = Some (c_number c)
  /\ abi_args arch (c_args c) t = Some <$> c_args c
  /\ Forall (fun w => 0 <= w < word_size)%Z (trap_words t) /\ tr_stack t = stack
  /\ in_signed (c_bits c) (call_result (invoke c) r)
  /\ ((call_result (invoke c) r < 0)%Z <-> (kr_ret r < 0)%Z)
  /\ (in_signed (c_bits c) (kr_ret r) -> call_result (invoke c) r = kr_ret r).
Proof.
  intros Ha Hr Hn t. destruct (saturated_spec (c_bits c) (kr_ret r)) as (R1 & R2 & R3); [by destruct c|done|].
  rewrite invoke_result. split; [apply abi_number_read|]. split.
  { unfold abi_args, t. rewrite invoke_trap. rewrite <- (length_fmap word_of (c_args c)).
    rewrite abi_words_read; [by apply abi_args_read|]. rewrite length_fmap. destruct arch; [by destruct c; cbn; lia|by apply Hn]. }
  split; [|split; [|done]].
  - unfold t. rewrite invoke_trap. apply trap_words_range; [by destruct c|]. apply Forall_fmap.
    eapply Forall_impl; [exact Ha|]. intros a. apply word_of_range.
  - unfold t. rewrite invoke_trap. destruct arch; [done|]. cbn [call_trap syscall8 tr_stack].
    rewrite drop_ge; [done|]. rewrite length_fmap. by apply Hn.
Qed.

(** ** Where the convention is missed *)

(** On x86_64 the two words pushed for [connectx] have no return address below them: the
    kernel reads the eighth argument as the seventh, and a word of the caller's frame as
    the eighth. *)
Lemma connectx_stack_shifted (args : ConnectxArgs) (below : Z) (stack : list Z) :
  Forall well_typed (c_args (Connectx args)) ->
  abi_args X86_64 (c_args (Connectx args)) (call_trap (invoke (Connectx args)) X86_64 (below :: stack))
  = Some <$> (take 6 (c_args (Connectx args)) ++ [CPtr (cx_connid args); CPtr below]).
Proof.
  intros H. apply (Forall_impl _ (fun a => read_as a (word_of a) = a)) in H; [|apply read_word].
  cbn [c_args] in H. rewrite !Forall_cons in H. destruct H as (H1 & H2 & H3 & H4 & H5 & H6 & _ & H8 & _).
  unfold abi_args. rewrite invoke_trap.
  transitivity [Some (read_as (CInt (cx_socket args)) (word_of (CInt (cx_socket args))));
                Some (read_as (CPtr (cx_endpoints args)) (word_of (CPtr (cx_endpoints args))));
                Some (read_as (CInt (cx_associd args)) (word_of (CInt (cx_associd args))));
                Some (read_as (CU32 (cx_flags args)) (word_of (CU32 (cx_flags args))));
                Some (read_as (CPtr (cx_iov args)) (word_of (CPtr (cx_iov args))));
                Some (read_as (CInt (cx_iovcnt args)) (word_of (CInt (cx_iovcnt args))));
                Some (read_as (CPtr (cx_connid args)) (word_of (CPtr (cx_connid args)))); Some (CPtr below)]; [reflexivity|].
  by rewrite H1, H2, H3, H4, H5, H6, H8.
Qed.

(** Only the result register counts: the flag by which the kernel reports an error, and
    the second register by which Darwin tells the child of a fork from its parent, have no
    part in the result, so a refused connection is the positive number of its error. *)
Lemma flag_and_second_register_dropped (c : RawCall) (ret second : Z) (carry : bool) :
  call_result (invoke c) (mkReturned ret second carry) = call_result (invoke c) (mkReturned ret 0 false).
Proof. by rewrite !invoke_result. Qed.

Example refused_connection_positive : call_result (raw_connect 3 16 16) (mkReturned 61 0 true) = 61%Z.
Proof. reflexivity. Qed.

Lemma raw_calls_keep_types_witness :
  abi_args X86_64 [CInt (-2); CPtr 4096; CSize 10; CInt 0; CPtr 0; CU32 0] (call_trap (raw_send (-2) 4096 10 0) X86_64 [])
  = [Some (CInt (-2)); Some (CPtr 4096); Some (CSize 10); Some (CInt 0); Some (CPtr 0); Some (CU32 0)].
Proof.
  apply (raw_calls_keep_types (Send (-2) 4096 10 0) X86_64 [] (mkReturned 10 0 false)).
  - repeat constructor; vm_compute; congruence.
  - vm_compute. split; congruence.
  - intros _. cbn. lia.
Defined.
