(* ===== verification/RustNet.v ===== *)
(** * Rust's address parser, [core::net::parser]

    The combinators keep their names.  A parser takes the bytes that are left
    and returns a value with the bytes after it; [None] leaves the caller with
    the bytes it had, which is what [read_atomically] does. *)

From S2P Require Import Prelude RustStr.

Definition parser (A : Type) : Type := string -> option (A * string).

(** [read_given_char]. *)
Definition read_given_char (c : ascii) : parser unit := fun s =>
  match s with
  | String a s' => if bool_decide (a = c) then Some (tt, s') else None
  | EmptyString => None
  end.

(** [read_separator(sep, index, inner)]: the separator is read from the second
    element on. *)
Definition read_separator {A} (sep : ascii) (index : nat) (inner : parser A) : parser A :=
  fun s =>
  if bool_decide (index = 0) then inner s
  else match read_given_char sep s with
       | Some (_, s') => inner s'
       | None => None
       end.

(** The digit loop of [read_number]: [None] when more than [max_digits] digits
    are read. *)
Fixpoint read_digits (radix : N) (max_digits : nat) (s : string) (acc : N) (count : nat)
  : option (N * nat * string) :=
  match s with
  | EmptyString => Some (acc, count, s)
  | String a s' =>
      match to_digit radix a with
      | None => Some (acc, count, s)
      | Some d =>
          if bool_decide (max_digits < S count) then None
          else read_digits radix max_digits s' (acc * radix + d)%N (S count)
      end
  end.

(** [read_number(radix, Some(max_digits), allow_zero_prefix)] into a type whose
    largest value is [limit] ([try_into] fails above it). *)
Definition read_number (radix : N) (max_digits : nat) (allow_zero_prefix : bool)
    (limit : N) : parser N := fun s =>
  let has_leading_zero :=
    match s with String a _ => bool_decide (a = "0"%char) | EmptyString => false end in
  match read_digits radix max_digits s 0%N 0 with
  | None => None
  | Some (n, count, rest) =>
      if bool_decide (count = 0) then None
      else if negb allow_zero_prefix && has_leading_zero && bool_decide (1 < count) then None
      else if bool_decide (n <= limit)%N then Some (n, rest) else None
  end.

Definition U8_MAX : N := 255.
Definition U16_MAX : N := 65535.

(** [read_ipv4_addr], the four octets. *)
Fixpoint read_octets (n i : nat) (s : string) : option (list N * string) :=
  match n with
  | O => Some ([], s)
  | S n' =>
      match read_separator "." i (read_number 10 3 false U8_MAX) s with
      | None => None
      | Some (o, s') =>
          match read_octets n' (S i) s' with
          | Some (os, s'') => Some (o :: os, s'')
          | None => None
          end
      end
  end.

Definition read_ipv4_addr : parser (list N) := read_octets 4 0.

(** [u16::from_be_bytes]. *)
Definition u16_be (hi lo : N) : N := (hi * 256 + lo)%N.

(** [read_groups(p, groups)] with [limit] groups: the groups read, and whether
    the last two came from an embedded IPv4 address. *)
Fixpoint read_groups (n limit i : nat) (s : string) : list N * bool * string :=
  match n with
  | O => ([], false, s)
  | S n' =>
      let v4 := if bool_decide (i < limit - 1) then read_separator ":" i read_ipv4_addr s
                else None in
      match v4 with
      | Some ([one; two; three; four], s') =>
          ([u16_be one two; u16_be three four], true, s')
      | _ =>
          match read_separator ":" i (read_number 16 4 true U16_MAX) s with
          | Some (g, s') =>
              let '(gs, v, s'') := read_groups n' limit (S i) s' in (g :: gs, v, s'')
          | None => ([], false, s)
          end
      end
  end.

(** [read_ipv6_addr]: eight groups, or a head and a tail around one [::]. *)
Definition read_ipv6_addr : parser (list N) := fun s =>
  let '(head, head_ipv4, s1) := read_groups 8 8 0 s in
  if bool_decide (length head = 8) then Some (head, s1)
  else if head_ipv4 then None
  else match read_given_char ":" s1 with
  | None => None
  | Some (_, s2) =>
      match read_given_char ":" s2 with
      | None => None
      | Some (_, s3) =>
          let limit := 8 - (length head + 1) in
          let '(tail, _, s4) := read_groups limit limit 0 s3 in
          Some (head ++ replicate (8 - length head - length tail) 0%N ++ tail, s4)
      end
  end.

(** [parse_with]: the whole input is consumed. *)
Definition parse_with {A} (p : parser A) (s : string) : option A :=
  match p s with
  | Some (a, EmptyString) => Some a
  | _ => None
  end.

(** [Ipv4Addr::from_str] and [Ipv6Addr::from_str]. *)
Definition parse_ipv4 (s : string) : option (list N) :=
  if bool_decide (15 < String.length s) then None else parse_with read_ipv4_addr s.

Definition parse_ipv6 (s : string) : option (list N) := parse_with read_ipv6_addr s.

(** ** The parser reads both cases of the hexadecimal digits *)

Lemma to_digit_upper (r : N) (a : ascii) :
  to_digit r (ascii_upper a) = to_digit r a.
Proof.
  unfold to_digit.
  destruct a as [[] [] [] [] [] [] [] []]; reflexivity.
Qed.

(** The separators of the grammar are fixed points of [ascii_upper], and no
    other byte becomes one. *)
Definition caseless (c : ascii) : Prop :=
  ascii_upper c = c /\ (forall a, ascii_upper a = c -> a = c).

Lemma caseless_colon : caseless ":".
Proof. split; [done|]. intros [[] [] [] [] [] [] [] []]; vm_compute; congruence. Qed.

Lemma caseless_dot : caseless ".".
Proof. split; [done|]. intros [[] [] [] [] [] [] [] []]; vm_compute; congruence. Qed.

Lemma caseless_zero : caseless "0".
Proof. split; [done|]. intros [[] [] [] [] [] [] [] []]; vm_compute; congruence. Qed.

Lemma caseless_percent : caseless "%".
Proof. split; [done|]. intros [[] [] [] [] [] [] [] []]; vm_compute; congruence. Qed.

Lemma caseless_eq (c a : ascii) :
  caseless c -> bool_decide (ascii_upper a = c) = bool_decide (a = c).
Proof. intros [Hc Hinj]. apply bool_decide_ext. split; [apply Hinj | by intros ->]. Qed.

Abbreviation upper := to_ascii_uppercase.

Lemma upper_cons (a : ascii) (s : string) : upper (String a s) = String (ascii_upper a) (upper s).
Proof. done. Qed.

(** What it means for a parser not to see the case of its input. *)
Definition case_blind {A} (p : parser A) : Prop :=
  forall s, p (upper s) = (fun '(a, r) => (a, upper r)) <$> p s.

Lemma read_given_char_case (c : ascii) : caseless c -> case_blind (read_given_char c).
Proof.
  intros Hc [|a s]; [done|]. simpl. rewrite caseless_eq by done. by case_bool_decide.
Qed.

Lemma read_separator_case {A} (c : ascii) (i : nat) (p : parser A) :
  caseless c -> case_blind p -> case_blind (read_separator c i p).
Proof.
  intros Hc Hp s. unfold read_separator. case_bool_decide; [apply Hp|].
  rewrite read_given_char_case by done.
  destruct (read_given_char c s) as [[[] r]|]; simpl; [apply Hp | done].
Qed.

Lemma read_digits_case (r : N) (m : nat) (s : string) (acc : N) (k : nat) :
  read_digits r m (upper s) acc k
  = (fun '(n, c, rest) => (n, c, upper rest)) <$> read_digits r m s acc k.
Proof.
  revert acc k. induction s as [|a s IH]; intros acc k; [done|].
  simpl. rewrite to_digit_upper.
  destruct (to_digit r a) as [d|]; [|done]. case_bool_decide; [done|]. apply IH.
Qed.

Lemma read_number_case (r : N) (m : nat) (z : bool) (l : N) :
  case_blind (read_number r m z l).
Proof.
  intros s. unfold read_number. rewrite read_digits_case.
  assert (match upper s with String a _ => bool_decide (a = "0"%char) | "" => false end
          = match s with String a _ => bool_decide (a = "0"%char) | "" => false end) as ->.
  { destruct s as [|a s]; [done|]. rewrite upper_cons.
    apply caseless_eq, caseless_zero. }
  destruct (read_digits r m s 0 0) as [[[n c] rest]|]; simpl; [|done].
  repeat case_match; done.
Qed.

Lemma read_octets_case (n i : nat) : case_blind (read_octets n i).
Proof.
  revert i. induction n as [|n IH]; intros i s; [done|]. simpl.
  rewrite read_separator_case by auto using caseless_dot, read_number_case.
  destruct (read_separator "." i _ s) as [[o s']|]; simpl; [|done].
  rewrite IH. by destruct (read_octets n (S i) s') as [[os s'']|].
Qed.

Lemma read_ipv4_addr_case : case_blind read_ipv4_addr.
Proof. apply read_octets_case. Qed.

Lemma read_groups_case (n l i : nat) (s : string) :
  read_groups n l i (upper s)
  = (fun '(gs, v, r) => (gs, v, upper r)) (read_groups n l i s).
Proof.
  revert i s. induction n as [|n IH]; intros i s; [done|]. simpl.
  rewrite (read_separator_case ":" i (read_number 16 4 true U16_MAX))
    by auto using caseless_colon, read_number_case.
  rewrite (read_separator_case ":" i read_ipv4_addr)
    by auto using caseless_colon, read_ipv4_addr_case.
  destruct (read_separator ":" i (read_number 16 4 true U16_MAX) s) as [[g s']|]; simpl;
    [rewrite IH; destruct (read_groups n l (S i) s') as [[gs v] s'']|];
    destruct (read_separator ":" i read_ipv4_addr s) as [[o t]|]; simpl;
    repeat case_match; simplify_eq/=; done.
Qed.

Lemma read_ipv6_addr_case : case_blind read_ipv6_addr.
Proof.
  intros s. unfold read_ipv6_addr. rewrite read_groups_case.
  destruct (read_groups 8 8 0 s) as [[hd v] s1].
  case_bool_decide; [done|]. destruct v; [done|].
  rewrite read_given_char_case by apply caseless_colon.
  destruct (read_given_char ":" s1) as [[[] s2]|]; simpl; [|done].
  rewrite read_given_char_case by apply caseless_colon.
  destruct (read_given_char ":" s2) as [[[] s3]|]; simpl; [|done].
  rewrite read_groups_case. by destruct (read_groups _ _ 0 s3) as [[tl w] s4].
Qed.

Lemma parse_ipv6_upper (s : string) : parse_ipv6 (upper s) = parse_ipv6 s.
Proof.
  unfold parse_ipv6, parse_with. rewrite read_ipv6_addr_case.
  destruct (read_ipv6_addr s) as [[gs [|a r]]|]; done.
Qed.

(** Every parsed address has eight groups. *)
Lemma read_groups_length (n l i : nat) (s : string) :
  n + i = l -> length (read_groups n l i s).1.1 <= n.
Proof.
  revert i s. induction n as [|n IH]; intros i s Hl; [done|]. simpl.
  assert (forall x : option (N * string),
    length (match x with
     | Some (g, s') => let '(gs, v, s'') := read_groups n l (S i) s' in (g :: gs, v, s'')
     | None => ([], false, s) end).1.1 <= S n) as Hg.
  { intros [[g s']|]; simpl; [|lia]. specialize (IH (S i) s' ltac:(lia)).
    destruct (read_groups n l (S i) s') as [[gs v] s'']. simpl in *. lia. }
  case_bool_decide; [|apply Hg].
  destruct (read_separator ":" i read_ipv4_addr s) as [[o t]|]; [|apply Hg].
  destruct o as [|? [|? [|? [|? [|]]]]]; try apply Hg. simpl. lia.
Qed.

Lemma parse_ipv6_length (s : string) (gs : list N) :
  parse_ipv6 s = Some gs -> length gs = 8.
Proof.
  unfold parse_ipv6, parse_with, read_ipv6_addr.
  pose proof (read_groups_length 8 8 0 s eq_refl) as Hhd.
  destruct (read_groups 8 8 0 s) as [[hd v] s1]. simpl in Hhd.
  case_bool_decide as H8; [destruct s1; [by intros [= <-] | done]|].
  destruct v; [done|].
  destruct (read_given_char ":" s1) as [[[] s2]|]; [|done].
  destruct (read_given_char ":" s2) as [[[] s3]|]; [|done].
  set (lim := 8 - (length hd + 1)).
  pose proof (read_groups_length lim lim 0 s3 ltac:(lia)) as Htl.
  destruct (read_groups lim lim 0 s3) as [[tl w] s4]. simpl in Htl.
  destruct s4; [|done]. intros [= <-].
  rewrite !length_app, length_replicate. lia.
Qed.

(** ** The parser consumes address characters only *)

Definition addr_char (a : ascii) : bool :=
  is_ascii_hexdigit a || bool_decide (a = ":"%char) || bool_decide (a = "."%char).

(** [s] is [r] preceded by address characters. *)
Definition reads (s r : string) : Prop :=
  exists c, s = c +:+ r /\ str_forallb addr_char c = true.

Lemma reads_refl (s : string) : reads s s.
Proof. by exists "". Qed.

Lemma reads_trans (s t u : string) : reads s t -> reads t u -> reads s u.
Proof.
  intros (c & -> & Hc) (d & -> & Hd). exists (c +:+ d).
  by rewrite app_assoc_str, str_forallb_app, Hc, Hd.
Qed.

Lemma reads_cons (a : ascii) (s t : string) :
  addr_char a = true -> reads s t -> reads (String a s) t.
Proof.
  intros Ha (c & -> & Hc). exists (String a c). rewrite app_cons_str. simpl. by rewrite Ha, Hc.
Qed.

#[export] Hint Resolve reads_refl reads_trans reads_cons : guard.

Lemma to_digit_addr_char (r : N) (a : ascii) (d : N) :
  (r <= 16)%N -> to_digit r a = Some d -> addr_char a = true.
Proof.
  intros Hr H. assert (is_Some (to_digit 16 a)) as Hs.
  { unfold to_digit in *. destruct (if byte_in 48 57 a then _ else _) as [n|]; [|done].
    case_bool_decide; [|done]. rewrite bool_decide_eq_true_2 by lia. by eexists. }
  clear H. destruct Hs as [n H]. revert H.
  destruct a as [[] [] [] [] [] [] [] []]; vm_compute; congruence.
Qed.

Definition reads_only {A} (p : parser A) : Prop :=
  forall s a r, p s = Some (a, r) -> reads s r.

Lemma read_given_char_reads (c : ascii) : addr_char c = true -> reads_only (read_given_char c).
Proof.
  intros Hc [|a s] x r; simpl; [done|]. case_bool_decide; [|done].
  intros [= <- <-]. subst. auto with guard.
Qed.

Lemma read_separator_reads {A} (c : ascii) (i : nat) (p : parser A) :
  addr_char c = true -> reads_only p -> reads_only (read_separator c i p).
Proof.
  intros Hc Hp s a r. unfold read_separator. case_bool_decide; [apply Hp|].
  destruct (read_given_char c s) as [[x s']|] eqn:Hg; [|done].
  apply read_given_char_reads in Hg; [|done]. intros Hin%Hp. by eapply reads_trans.
Qed.

Lemma read_digits_reads (r : N) (m : nat) (s : string) (acc n : N) (k c : nat) (rest : string) :
  (r <= 16)%N -> read_digits r m s acc k = Some (n, c, rest) -> reads s rest.
Proof.
  intros Hr. revert acc k. induction s as [|a s IH]; intros acc k; simpl.
  - intros [= _ _ <-]. apply reads_refl.
  - destruct (to_digit r a) as [d|] eqn:Hd; [|intros [= _ _ <-]; apply reads_refl].
    case_bool_decide; [done|]. intros Hrd%IH. apply reads_cons; [|done].
    by eapply to_digit_addr_char.
Qed.

Lemma read_number_reads (r : N) (m : nat) (z : bool) (l : N) :
  (r <= 16)%N -> reads_only (read_number r m z l).
Proof.
  intros Hr s a rest. unfold read_number.
  destruct (read_digits r m s 0 0) as [[[n c] rs]|] eqn:Hd; [|done].
  apply read_digits_reads in Hd; [|done]. intros H. repeat case_match; by simplify_eq.
Qed.

Lemma read_octets_reads (n i : nat) : reads_only (read_octets n i).
Proof.
  revert i. induction n as [|n IH]; intros i s a r; simpl.
  - intros [= _ <-]. apply reads_refl.
  - destruct (read_separator "." i _ s) as [[o s']|] eqn:Ho; [|done].
    apply read_separator_reads in Ho; [|done | by apply read_number_reads].
    destruct (read_octets n (S i) s') as [[os s'']|] eqn:Hs; [|done].
    apply IH in Hs. intros [= _ <-]. by eapply reads_trans.
Qed.

Lemma read_groups_reads (n l i : nat) (s : string) : reads s (read_groups n l i s).2.
Proof.
  revert i s. induction n as [|n IH]; intros i s; simpl; [apply reads_refl|].
  assert (reads s (match read_separator ":" i (read_number 16 4 true U16_MAX) s with
     | Some (g, s') => let '(gs, v, s'') := read_groups n l (S i) s' in (g :: gs, v, s'')
     | None => ([], false, s) end).2) as Hg.
  { destruct (read_separator ":" i (read_number 16 4 true U16_MAX) s) as [[g s']|] eqn:Hn;
      [|apply reads_refl].
    apply read_separator_reads in Hn; [|done | by apply read_number_reads].
    specialize (IH (S i) s'). destruct (read_groups n l (S i) s') as [[gs v] s''].
    by eapply reads_trans. }
  case_bool_decide; [|apply Hg].
  destruct (read_separator ":" i read_ipv4_addr s) as [[o t]|] eqn:Hv; [|apply Hg].
  apply read_separator_reads in Hv; [|done | apply read_octets_reads].
  destruct o as [|? [|? [|? [|? [|]]]]]; try apply Hg. done.
Qed.

Lemma read_ipv6_addr_reads : reads_only read_ipv6_addr.
Proof.
  intros s a r. unfold read_ipv6_addr.
  pose proof (read_groups_reads 8 8 0 s) as H1.
  destruct (read_groups 8 8 0 s) as [[hd v] s1]. simpl in H1.
  case_bool_decide; [by intros [= _ <-]|]. destruct v; [done|].
  destruct (read_given_char ":" s1) as [[[] s2]|] eqn:H2; [|done].
  apply read_given_char_reads in H2; [|done].
  destruct (read_given_char ":" s2) as [[[] s3]|] eqn:H3; [|done].
  apply read_given_char_reads in H3; [|done].
  set (lim := 8 - (length hd + 1)). pose proof (read_groups_reads lim lim 0 s3) as H4.
  destruct (read_groups lim lim 0 s3) as [[tl w] s4]. simpl in H4.
  intros [= _ <-]. eauto using reads_trans.
Qed.

Lemma parse_ipv6_addr_chars (s : string) (gs : list N) :
  parse_ipv6 s = Some gs -> str_forallb addr_char s = true.
Proof.
  unfold parse_ipv6, parse_with. intros H.
  destruct (read_ipv6_addr s) as [[a r]|] eqn:Hr; [|done]. destruct r; [|done].
  apply read_ipv6_addr_reads in Hr as (c & -> & Hc). by rewrite app_nil_r_str.
Qed.

Lemma addr_char_ascii (s t : string) :
  str_forallb addr_char s = true -> utf8_valid (s +:+ t) = utf8_valid t.
Proof.
  induction s as [|a s IH]; intros H; [done|]. rewrite app_cons_str. simpl in *.
  apply andb_true_iff in H as [Ha Hs].
  assert (byte_in 0 127 a = true) as ->; [|by apply IH].
  revert Ha. destruct a as [[] [] [] [] [] [] [] []]; vm_compute; congruence.
Qed.

Lemma addr_char_no_percent (s : string) :
  str_forallb addr_char s = true -> no_char "%" s = true.
Proof.
  induction s as [|a s IH]; intros H; [done|]. simpl in *.
  apply andb_true_iff in H as [Ha Hs]. apply no_char_cons.
  split; [intros ->; by vm_compute in Ha | auto].
Qed.

Example parse_ipv6_forms :
  parse_ipv6 "fe80::a9fe:a9fe" = Some [65152; 0; 0; 0; 0; 0; 43518; 43518]%N
  /\ parse_ipv6 "FE80:0:0:0:0:0:A9FE:A9FE" = Some [65152; 0; 0; 0; 0; 0; 43518; 43518]%N
  /\ parse_ipv6 "fe80::169.254.169.254" = Some [65152; 0; 0; 0; 0; 0; 43518; 43518]%N
  /\ parse_ipv6 "::" = Some (replicate 8 0%N)
  /\ parse_ipv6 "1::2::3" = None
  /\ parse_ipv6 "12345::" = None
  /\ parse_ipv4 "169.254.169.254" = Some [169; 254; 169; 254]%N
  /\ parse_ipv4 "1.2.3.04" = None
  /\ parse_ipv4 "256.0.0.1" = None.
Proof. by vm_compute. Qed.
