(* ===== verification/Policy.v ===== *)
(** * Rules and the tier-ordered policy evaluator

    [crates/guard-core/src/allowlist.rs] and [crates/guard-core/src/policy.rs]:
    the rule data types, the per-entry matcher, the hard rules and
    [evaluate_policy], with the abstract specification [Decides] it refines. *)

From S2P Require Import Prelude RustStr RustNet.

(** ** allowlist.rs *)

Inductive RuleKind : Type := Allow | Deny.

Inductive MatchType : Type := Exact | Suffix | Ip.

Inductive RuleTier : Type :=
| BuiltinDeny
| CuratedAllow
| ConfirmedDeny
| UserDeny
| UserAllow
| SuspectDeny.

Record AllowlistEntry : Type := mkEntry {
  e_kind : RuleKind;
  e_tier : RuleTier;
  e_match_type : MatchType;
  e_pattern : string;
  e_reason : string;
}.

Inductive Verdict : Type := VAllow | VDeny.

#[export] Instance RuleKind_eq_dec : EqDecision RuleKind.
Proof. solve_decision. Defined.
#[export] Instance MatchType_eq_dec : EqDecision MatchType.
Proof. solve_decision. Defined.
#[export] Instance RuleTier_eq_dec : EqDecision RuleTier.
Proof. solve_decision. Defined.
#[export] Instance AllowlistEntry_eq_dec : EqDecision AllowlistEntry.
Proof. solve_decision. Defined.
#[export] Instance Verdict_eq_dec : EqDecision Verdict.
Proof. solve_decision. Defined.

(** The discriminants of [#[repr(u8)] enum RuleTier], on which [Ord] is derived. *)
Definition tier_rank (t : RuleTier) : nat :=
  match t with
  | BuiltinDeny => 0
  | CuratedAllow => 1
  | ConfirmedDeny => 2
  | UserDeny => 3
  | UserAllow => 4
  | SuspectDeny => 5
  end.

Definition tier_le (a b : RuleTier) : Prop := tier_rank a <= tier_rank b.

#[export] Instance tier_le_dec : RelDecision tier_le.
Proof. intros a b. unfold tier_le. apply _. Defined.

(** [AllowlistEntry::matches]. *)
Definition matches (e : AllowlistEntry) (host : string) : bool :=
  match e_match_type e with
  | Exact | Ip => bool_decide (e_pattern e = host)
  | Suffix =>
      match e_pattern e with
      | String a _ => if bool_decide (a = "."%char) then ends_with host (e_pattern e) else false
      | EmptyString => false
      end
  end.

Definition kind_verdict (k : RuleKind) : Verdict :=
  match k with Allow => VAllow | Deny => VDeny end.

(** [evaluate_rule]. *)
Definition evaluate_rule (e : AllowlistEntry) (host : string) : option Verdict :=
  if matches e host then Some (kind_verdict (e_kind e)) else None.

(** ** policy.rs *)

Inductive SourceKind : Type :=
| HardRule (name : string)
| SrcBuiltinDeny
| SrcCuratedAllow
| SrcConfirmedDeny
| SrcUserDeny
| SrcUserAllow
| SrcSuspectDeny
| DefaultDeny.

#[export] Instance SourceKind_eq_dec : EqDecision SourceKind.
Proof. solve_decision. Defined.

(** [SourceKind::from_tier]. *)
Definition from_tier (t : RuleTier) : SourceKind :=
  match t with
  | BuiltinDeny => SrcBuiltinDeny
  | CuratedAllow => SrcCuratedAllow
  | ConfirmedDeny => SrcConfirmedDeny
  | UserDeny => SrcUserDeny
  | UserAllow => SrcUserAllow
  | SuspectDeny => SrcSuspectDeny
  end.

(** [SourceKind::as_label]. *)
Definition as_label (s : SourceKind) : string :=
  match s with
  | HardRule n =>
      if bool_decide (n = "loopback") then "loopback-denied"
      else if bool_decide (n = "unix-socket") then "unix-socket-denied"
      else if bool_decide (n = "cloud-metadata") then "cloud-metadata-blocked"
      else if bool_decide (n = "raw-ip-cache-miss") then "raw-ip-no-dns"
      else if bool_decide (n = "fail-closed") then "fail-closed"
      else "hard-rule"
  | SrcBuiltinDeny => "builtin-deny"
  | SrcCuratedAllow => "curated-allow"
  | SrcConfirmedDeny => "confirmed-deny"
  | SrcUserDeny => "user-deny"
  | SrcUserAllow => "user-allow"
  | SrcSuspectDeny => "suspect-deny"
  | DefaultDeny => "default-deny"
  end.

Definition is_loopback_host (host : string) : bool :=
  bool_decide (host = "localhost") || bool_decide (host = "localhost6").

Definition is_loopback_ip (ip : string) : bool :=
  if bool_decide (ip = "::1") then true else starts_with ip "127.".

(** [IMDS_V6], [fe80::a9fe:a9fe]. *)
Definition IMDS_V6 : list N := [65152; 0; 0; 0; 0; 0; 43518; 43518]%N.

Definition is_cloud_metadata_host (host : string) : bool :=
  if bool_decide (host = "169.254.169.254") then true
  else if is_empty host then false
  else if negb (utf8_valid host) then false
  else
    let s := match split_once "%" host with
             | Some (addr, _zone) => addr
             | None => host
             end in
    match parse_ipv6 s with
    | Some addr => bool_decide (addr = IMDS_V6)
    | None => false
    end.

Definition is_cloud_metadata_ip (ip : string) : bool := is_cloud_metadata_host ip.

Definition verdict_for (e : AllowlistEntry) : Verdict * SourceKind :=
  (kind_verdict (e_kind e), from_tier (e_tier e)).

(** One iteration of the tier walk: the host is tried first, then the address
    for entries of type [Ip]. *)
Definition entry_hit (host : string) (ip : option string) (e : AllowlistEntry) : bool :=
  (negb (is_empty host) && matches e host)
  || match ip with
     | Some ip_bytes => bool_decide (e_match_type e = Ip) && matches e ip_bytes
     | None => false
     end.

Fixpoint walk_entries (host : string) (ip : option string) (entries : list AllowlistEntry)
  : Verdict * SourceKind :=
  match entries with
  | [] => (VDeny, DefaultDeny)
  | e :: rest => if entry_hit host ip e then verdict_for e else walk_entries host ip rest
  end.

Definition on_ip (p : string -> bool) (ip : option string) : bool :=
  match ip with Some b => p b | None => false end.

Definition evaluate_policy (host : string) (ip : option string)
    (resolved_via_getaddrinfo : bool) (entries : list AllowlistEntry)
  : Verdict * SourceKind :=
  if negb (is_empty host) && is_loopback_host host then (VDeny, HardRule "loopback")
  else if on_ip is_loopback_ip ip then (VDeny, HardRule "loopback")
  else if negb (is_empty host) && is_cloud_metadata_host host
    then (VDeny, HardRule "cloud-metadata")
  else if on_ip is_cloud_metadata_ip ip then (VDeny, HardRule "cloud-metadata")
  else if (match ip with Some _ => true | None => false end) && negb resolved_via_getaddrinfo
    then (VDeny, HardRule "raw-ip-cache-miss")
  else walk_entries host ip entries.

(** [has_user_allow]. *)
Definition has_user_allow (host : string) (entries : list AllowlistEntry) : bool :=
  existsb (fun e => bool_decide (e_tier e = UserAllow) && matches e host) entries.

(** ** The abstract specification *)

(** The destinations no rule source can open: a predicate on the request alone. *)
Definition hard_denied (host : string) (ip : option string) (resolved : bool) : Prop :=
  is_loopback_host host = true
  \/ (host <> "" /\ is_cloud_metadata_host host = true)
  \/ (exists b, ip = Some b /\
        (is_loopback_ip b = true \/ is_cloud_metadata_ip b = true \/ resolved = false)).

(** A request is decided by a hard rule, by a matching entry of the strongest
    matching tier, or by default.  Nothing is said of the order of the entries. *)
Inductive Decides (host : string) (ip : option string) (resolved : bool)
    (entries : list AllowlistEntry) : Verdict * SourceKind -> Prop :=
| Decides_hard name :
    hard_denied host ip resolved ->
    Decides host ip resolved entries (VDeny, HardRule name)
| Decides_entry e :
    ~ hard_denied host ip resolved ->
    e ∈ entries ->
    entry_hit host ip e = true ->
    (forall e', e' ∈ entries -> entry_hit host ip e' = true -> tier_le (e_tier e) (e_tier e')) ->
    Decides host ip resolved entries (kind_verdict (e_kind e), from_tier (e_tier e))
| Decides_default :
    ~ hard_denied host ip resolved ->
    (forall e, e ∈ entries -> entry_hit host ip e = false) ->
    Decides host ip resolved entries (VDeny, DefaultDeny).

(** The kind an entry of a tier has; the rule sources establish it. *)
Definition tier_kind (t : RuleTier) : RuleKind :=
  match t with
  | CuratedAllow | UserAllow => Allow
  | _ => Deny
  end.

Definition wf_entry (e : AllowlistEntry) : Prop := e_kind e = tier_kind (e_tier e).

#[export] Instance wf_entry_dec (e : AllowlistEntry) : Decision (wf_entry e).
Proof. unfold wf_entry. apply _. Defined.

Definition tier_sorted (entries : list AllowlistEntry) : Prop :=
  StronglySorted (fun a b => tier_le (e_tier a) (e_tier b)) entries.

#[export] Instance tier_sorted_dec (l : list AllowlistEntry) : Decision (tier_sorted l).
Proof. unfold tier_sorted. apply _. Defined.

(** ** Lemmas *)

Lemma tier_rank_inj (a b : RuleTier) : tier_rank a = tier_rank b -> a = b.
Proof. by destruct a, b. Qed.

Lemma from_tier_inj (a b : RuleTier) : from_tier a = from_tier b -> a = b.
Proof. by destruct a, b. Qed.

(** The hard rule that fires, if any: a function of the request alone. *)
Definition hard_rule (host : string) (ip : option string) (resolved : bool) : option string :=
  if negb (is_empty host) && is_loopback_host host || on_ip is_loopback_ip ip
    then Some "loopback"
  else if negb (is_empty host) && is_cloud_metadata_host host || on_ip is_cloud_metadata_ip ip
    then Some "cloud-metadata"
  else if on_ip (fun _ => negb resolved) ip then Some "raw-ip-cache-miss"
  else None.

Lemma evaluate_policy_split (host : string) (ip : option string) (r : bool)
    (es : list AllowlistEntry) :
  evaluate_policy host ip r es
  = match hard_rule host ip r with
    | Some name => (VDeny, HardRule name)
    | None => walk_entries host ip es
    end.
Proof.
  unfold evaluate_policy, hard_rule.
  destruct (negb (is_empty host) && is_loopback_host host); [done|].
  destruct (on_ip is_loopback_ip ip); [done|].
  destruct (negb (is_empty host) && is_cloud_metadata_host host); [done|].
  destruct (on_ip is_cloud_metadata_ip ip); [done|].
  destruct ip, r; done.
Qed.

Lemma is_empty_true (s : string) : is_empty s = true <-> s = "".
Proof. by destruct s. Qed.

Lemma hard_rule_Some (host : string) (ip : option string) (r : bool) :
  is_Some (hard_rule host ip r) <-> hard_denied host ip r.
Proof.
  unfold hard_rule, hard_denied.
  assert (is_loopback_host host = true <-> negb (is_empty host) && is_loopback_host host = true)
    as ->. { destruct host; [by vm_compute | done]. }
  assert (host <> "" /\ is_cloud_metadata_host host = true
          <-> negb (is_empty host) && is_cloud_metadata_host host = true) as ->.
  { rewrite andb_true_iff, negb_true_iff, <- not_true_iff_false, is_empty_true. done. }
  assert ((exists b, ip = Some b /\
            (is_loopback_ip b = true \/ is_cloud_metadata_ip b = true \/ r = false))
          <-> on_ip is_loopback_ip ip = true \/ on_ip is_cloud_metadata_ip ip = true
              \/ on_ip (fun _ => negb r) ip = true) as ->.
  { destruct ip as [b|]; simpl; [|by split; [intros (? & ? & ?) | intros [|[|]]]]. rewrite negb_true_iff.
    split; [by intros (? & [= <-] & ?) | by exists b]. }
  generalize (negb (is_empty host) && is_loopback_host host) (on_ip is_loopback_ip ip)
    (negb (is_empty host) && is_cloud_metadata_host host) (on_ip is_cloud_metadata_ip ip)
    (on_ip (fun _ => negb r) ip).
  intros [] [] [] [] []; simpl; split; intros H;
    first [by eexists | by destruct H | by destruct H as [|[|[|[|]]]] | tauto].
Qed.

Lemma hard_denied_reflect (host : string) (ip : option string) (r : bool) :
  (hard_denied host ip r /\ exists name, forall es, evaluate_policy host ip r es = (VDeny, HardRule name))
  \/ (~ hard_denied host ip r /\ forall es, evaluate_policy host ip r es = walk_entries host ip es).
Proof.
  pose proof (hard_rule_Some host ip r) as Hh.
  destruct (hard_rule host ip r) as [n|] eqn:Hr.
  - left. split; [by apply Hh|]. exists n. intros es'. by rewrite evaluate_policy_split, Hr.
  - right. split; [intros Hc; apply Hh in Hc; by destruct Hc|].
    intros es'. by rewrite evaluate_policy_split, Hr.
Qed.

(** The walk returns the first hit. *)
Lemma walk_entries_spec (host : string) (ip : option string) (es : list AllowlistEntry) :
  (exists l1 e l2, es = l1 ++ e :: l2 /\ entry_hit host ip e = true
     /\ (forall e', e' ∈ l1 -> entry_hit host ip e' = false)
     /\ walk_entries host ip es = verdict_for e)
  \/ ((forall e, e ∈ es -> entry_hit host ip e = false)
      /\ walk_entries host ip es = (VDeny, DefaultDeny)).
Proof.
  induction es as [|e es IH]; simpl; [right; split; [set_solver | done]|].
  destruct (entry_hit host ip e) eqn:He.
  - left. exists [], e, es. split_and!; [done | done | set_solver | done].
  - destruct IH as [(l1 & e' & l2 & -> & Hh & Hl1 & Hw) | [Hno Hw]].
    + left. exists (e :: l1), e', l2. split_and!; [done | done | | done].
      intros x [->|Hx]%elem_of_cons; auto.
    + right. split; [|done]. intros x [->|Hx]%elem_of_cons; auto.
Qed.

Lemma tier_sorted_app_le (l1 l2 : list AllowlistEntry) (x y : AllowlistEntry) :
  tier_sorted (l1 ++ x :: l2) -> y ∈ l2 -> tier_le (e_tier x) (e_tier y).
Proof.
  unfold tier_sorted. intros H Hy. apply StronglySorted_app in H as (_ & _ & H).
  inversion_clear H as [|? ? _ Hall]. rewrite Forall_forall in Hall. auto.
Qed.

Lemma Decides_walk (host : string) (ip : option string) (r : bool) (es : list AllowlistEntry) :
  tier_sorted es -> ~ hard_denied host ip r ->
  Decides host ip r es (walk_entries host ip es).
Proof.
  intros Hs Hh.
  destruct (walk_entries_spec host ip es) as [(l1 & e & l2 & -> & He & Hl1 & ->) | [Hno ->]].
  - apply Decides_entry; [done | set_solver | done |].
    intros e' [Hin | [->|Hin]%elem_of_cons]%elem_of_app He'.
    + by rewrite Hl1 in He'.
    + unfold tier_le. lia.
    + by eapply tier_sorted_app_le.
  - by apply Decides_default.
Qed.

(** Two entries that decide the same request come from the same tier. *)
Lemma Decides_functional (host : string) (ip : option string) (r : bool)
    (es es' : list AllowlistEntry) (v v' : Verdict) (s s' : SourceKind) :
  Forall wf_entry es ->
  (forall e, e ∈ es <-> e ∈ es') ->
  ~ hard_denied host ip r ->
  Decides host ip r es (v, s) -> Decides host ip r es' (v', s') -> (v, s) = (v', s').
Proof.
  intros Hwf Heq Hh HD HD'. rewrite Forall_forall in Hwf.
  inversion HD as [? ? | e _ Hin He Hmin | _ Hno]; subst; [done | |];
    inversion HD' as [? ? | e' _ Hin' He' Hmin' | _ Hno']; subst; try done.
  - apply Heq in Hin'.
    assert (e_tier e = e_tier e') as Ht.
    { apply tier_rank_inj. apply Nat.le_antisymm; [by apply Hmin | apply Hmin'; set_solver]. }
    pose proof (Hwf _ Hin) as Hk. pose proof (Hwf _ Hin') as Hk'.
    unfold wf_entry in *. by rewrite Hk, Hk', Ht.
  - rewrite Hno' in He by set_solver. done.
  - rewrite Hno in He' by set_solver. done.
Qed.

Lemma walk_entries_tier (host : string) (ip : option string) (es : list AllowlistEntry) :
  tier_sorted es -> Forall wf_entry es ->
  forall d, d ∈ es -> entry_hit host ip d = true ->
  exists e, e ∈ es /\ tier_le (e_tier e) (e_tier d)
    /\ walk_entries host ip es = (kind_verdict (tier_kind (e_tier e)), from_tier (e_tier e)).
Proof.
  intros Hs Hwf d Hd Hhit. rewrite Forall_forall in Hwf.
  destruct (walk_entries_spec host ip es) as [(l1 & e & l2 & -> & He & Hl1 & ->) | [Hno _]].
  - exists e. assert (e ∈ l1 ++ e :: l2) as Hin by set_solver.
    split_and!; [done | | unfold verdict_for; by rewrite (Hwf e Hin)].
    apply elem_of_app in Hd as [Hin1 | [->|Hin2]%elem_of_cons].
    + by rewrite Hl1 in Hhit.
    + unfold tier_le. lia.
    + by eapply tier_sorted_app_le.
  - by rewrite Hno in Hhit.
Qed.

(** Every text [Ipv6Addr::from_str] reads as the metadata address, alone or with
    a zone, is a metadata host. *)
Lemma is_cloud_metadata_host_zone (addr zone : string) :
  parse_ipv6 addr = Some IMDS_V6 -> utf8_valid zone = true ->
  is_cloud_metadata_host addr = true
  /\ is_cloud_metadata_host (addr +:+ String "%" zone) = true.
Proof.
  intros Hp Hz. pose proof (parse_ipv6_addr_chars _ _ Hp) as Hc.
  assert (no_char "%" addr = true) as Hn by by apply addr_char_no_percent.
  assert (forall t, utf8_valid t = true -> utf8_valid (addr +:+ t) = true) as Hu.
  { intros t Ht. by rewrite addr_char_ascii. }
  destruct addr as [|a addr]; [by vm_compute in Hp|]. unfold is_cloud_metadata_host.
  specialize (Hu "" eq_refl) as Hu1. rewrite app_nil_r_str in Hu1.
  specialize (Hu (String "%" zone) Hz) as Hu2. rewrite Hu1, Hu2.
  rewrite split_once_no_char, split_once_app, Hp by done.
  rewrite (bool_decide_eq_true_2 (IMDS_V6 = IMDS_V6)) by done. simpl. by repeat case_match.
Qed.

(** ** Properties *)

Definition npm : AllowlistEntry :=
  mkEntry Allow CuratedAllow Exact "registry.npmjs.org" "npm default registry".
Definition workers : AllowlistEntry :=
  mkEntry Deny BuiltinDeny Suffix ".workers.dev" "Cloudflare Workers C2 pattern".
Definition my_worker : AllowlistEntry :=
  mkEntry Allow UserAllow Exact "me.workers.dev" "mine".

(** C1: on entries sorted by tier, [evaluate_policy] implements the abstract
    decision procedure [Decides]: a hard rule wins over every entry, then a
    matching entry of the strongest matching tier decides with its own kind and
    source, and a request nothing matches is denied by default. *)
Theorem evaluate_policy_refines_Decides (host : string) (ip : option string) (resolved : bool)
    (entries : list AllowlistEntry) :
  tier_sorted entries ->
  Decides host ip resolved entries (evaluate_policy host ip resolved entries).
Proof.
  intros Hs.
  destruct (hard_denied_reflect host ip resolved) as [[Hh [n ->]] | [Hh ->]].
  - by apply Decides_hard.
  - by apply Decides_walk.
Qed.

Lemma evaluate_policy_refines_Decides_witness :
  Decides "me.workers.dev" None false [workers; npm; my_worker] (VDeny, SrcBuiltinDeny).
Proof.
  apply (evaluate_policy_refines_Decides "me.workers.dev" None false [workers; npm; my_worker]).
  by_decide.
Defined.

(** The verdict and its attribution depend on the set of rules only: two
    tier-sorted snapshots with the same entries, whose kinds agree with their
    tiers, decide every request alike, however equal-tier entries are ordered or
    repeated. *)
Theorem evaluate_policy_order_independent (host : string) (ip : option string)
    (resolved : bool) (es es' : list AllowlistEntry) :
  tier_sorted es -> tier_sorted es' -> Forall wf_entry es ->
  (forall e, e ∈ es <-> e ∈ es') ->
  evaluate_policy host ip resolved es = evaluate_policy host ip resolved es'.
Proof.
  intros Hs Hs' Hwf Heq.
  destruct (hard_denied_reflect host ip resolved) as [[_ [n Hn]] | [Hh Hn]];
    rewrite !Hn; [done|].
  destruct (walk_entries host ip es) as [v s] eqn:Hw.
  destruct (walk_entries host ip es') as [v' s'] eqn:Hw'.
  eapply (Decides_functional host ip resolved es es'); [done..| |].
  - rewrite <- Hw. by apply Decides_walk.
  - rewrite <- Hw'. by apply Decides_walk.
Qed.

Definition es_ab : list AllowlistEntry := [workers; npm; npm; my_worker].
Definition es_ba : list AllowlistEntry := [workers; npm; my_worker].

Lemma evaluate_policy_order_independent_witness :
  evaluate_policy "registry.npmjs.org" (Some "104.16.0.1") true es_ab
  = evaluate_policy "registry.npmjs.org" (Some "104.16.0.1") true es_ba.
Proof.
  apply (evaluate_policy_order_independent "registry.npmjs.org" (Some "104.16.0.1") true
           es_ab es_ba).
  - by_decide.
  - by_decide.
  - by_decide.
  - unfold es_ab, es_ba. set_solver.
Defined.

(** C27: the hard rules cannot be overridden: exactly the destinations
    [hard_denied] describes are refused by a hard rule, under one of the three
    rule names, whatever list of entries, sorted or not, the snapshot carries. *)
Theorem hard_rules_not_overridable (host : string) (ip : option string) (resolved : bool)
    (entries : list AllowlistEntry) :
  hard_denied host ip resolved
  <-> exists name, name ∈ ["loopback"; "cloud-metadata"; "raw-ip-cache-miss"]
        /\ evaluate_policy host ip resolved entries = (VDeny, HardRule name).
Proof.
  rewrite <- hard_rule_Some, evaluate_policy_split. split.
  - intros [n Hn]. rewrite Hn. exists n. split; [|done]. unfold hard_rule in Hn.
    case_all; set_solver.
  - intros (n & _ & H). destruct (hard_rule host ip resolved) as [m|]; [by eexists|].
    destruct (walk_entries_spec host ip entries) as [(l1 & e & l2 & _ & _ & _ & Hw) | [_ Hw]];
      rewrite Hw in H; [|done].
    unfold verdict_for in H. by destruct (e_tier e).
Qed.

(** An allowed connection is justified: it is no hard-denied destination,
    some allow entry of the curated or the user tier matches it, and every
    matching deny entry is of a strictly weaker tier than that entry. *)
Theorem evaluate_policy_allow_sound (host : string) (ip : option string) (resolved : bool)
    (entries : list AllowlistEntry) (src : SourceKind) :
  tier_sorted entries -> Forall wf_entry entries ->
  evaluate_policy host ip resolved entries = (VAllow, src) ->
  ~ hard_denied host ip resolved /\
  exists e, e ∈ entries /\ entry_hit host ip e = true /\ src = from_tier (e_tier e)
    /\ (e_tier e = CuratedAllow \/ e_tier e = UserAllow)
    /\ forall d, d ∈ entries -> entry_hit host ip d = true -> e_kind d = Deny ->
         tier_rank (e_tier e) < tier_rank (e_tier d).
Proof.
  intros Hs Hwf Hev. rewrite Forall_forall in Hwf.
  destruct (hard_denied_reflect host ip resolved) as [[Hh [n Hn]] | [Hh Hn]];
    rewrite Hn in Hev; [done|]. split; [done|].
  pose proof (Decides_walk host ip resolved entries Hs Hh) as HD. rewrite Hev in HD.
  inversion HD as [| e _ Hin He Hmin Hk |]; subst. exists e.
  pose proof (Hwf e Hin) as Hke. unfold wf_entry in Hke.
  split_and!; [done | done | done | by destruct (e_kind e), (e_tier e); auto |].
  intros d Hd Hhit Hdk. pose proof (Hmin d Hd Hhit) as Hle. unfold tier_le in Hle.
  pose proof (Hwf d Hd) as Hkd. unfold wf_entry in Hkd. rewrite Hdk in Hkd.
  destruct (decide (e_tier e = e_tier d)) as [Heq|Hne].
  - rewrite Heq in Hke. rewrite <- Hkd in Hke. by rewrite Hke in Hk.
  - assert (tier_rank (e_tier e) <> tier_rank (e_tier d)); [|lia].
    intros ?%tier_rank_inj. done.
Qed.

Lemma evaluate_policy_allow_sound_witness :
  exists e, e ∈ es_ab /\ e_tier e = CuratedAllow.
Proof.
  destruct (evaluate_policy_allow_sound "registry.npmjs.org" None false es_ab SrcCuratedAllow)
    as [_ (e & Hin & _ & Hsrc & _)];
    [by_decide | by_decide | by vm_compute |].
  exists e. split; [done|]. by destruct (e_tier e).
Defined.

(** No spelling of the IPv6 metadata address gets through: any text the
    address parser reads as [fe80::a9fe:a9fe], in lower or upper case, with or
    without a zone, is denied by the cloud-metadata rule both as a host name and
    as a destination address, whatever the entries say. *)
Theorem cloud_metadata_every_spelling (addr zone : string) (resolved : bool)
    (entries : list AllowlistEntry) :
  parse_ipv6 addr = Some IMDS_V6 -> utf8_valid zone = true ->
  Forall (fun text =>
      evaluate_policy text None resolved entries = (VDeny, HardRule "cloud-metadata")
      /\ exists name, evaluate_policy "" (Some text) resolved entries = (VDeny, HardRule name))
    [addr; to_ascii_uppercase addr; addr +:+ String "%" zone;
     to_ascii_uppercase addr +:+ String "%" zone].
Proof.
  intros Hp Hz.
  assert (parse_ipv6 (to_ascii_uppercase addr) = Some IMDS_V6) as Hup by by rewrite parse_ipv6_upper.
  assert (forall t, is_cloud_metadata_host t = true ->
    evaluate_policy t None resolved entries = (VDeny, HardRule "cloud-metadata")
    /\ exists name, evaluate_policy "" (Some t) resolved entries = (VDeny, HardRule name)) as Hall.
  { intros t Ht. split.
    - rewrite evaluate_policy_split. unfold hard_rule. rewrite Ht.
      destruct (decide (t = "localhost")) as [->|]; [by vm_compute in Ht|].
      destruct (decide (t = "localhost6")) as [->|]; [by vm_compute in Ht|].
      unfold is_loopback_host. rewrite !bool_decide_eq_false_2 by done.
      destruct t; [by vm_compute in Ht | done].
    - rewrite evaluate_policy_split. unfold hard_rule, is_cloud_metadata_ip. simpl.
      rewrite Ht. destruct (is_loopback_ip t); simpl; by eexists. }
  destruct (is_cloud_metadata_host_zone _ _ Hp Hz), (is_cloud_metadata_host_zone _ _ Hup Hz).
  repeat constructor; by apply Hall.
Qed.

Lemma cloud_metadata_every_spelling_witness :
  evaluate_policy "FE80::A9FE:169.254.169.254%en0" None true es_ab = (VDeny, DefaultDeny)
  /\ evaluate_policy "FE80::A9FE:A9FE%en0" None true es_ab = (VDeny, HardRule "cloud-metadata").
Proof.
  split; [by vm_compute|].
  pose proof (cloud_metadata_every_spelling "fe80::a9fe:a9fe" "en0" true es_ab eq_refl eq_refl) as H.
  rewrite !Forall_cons in H. apply H.
Defined.
