(* ===== verification/TrustedSigners.v ===== *)
(** * Hexadecimal text and the trusted-signer manifest

    [crates/guard-core/src/trusted_signers.rs]: the TSV manifest of the signing
    keys the installation trusts, read by the daemon and by the hook. *)

From S2P Require Import Prelude RustStr.

(** ** Hexadecimal text *)

Inductive TrustedSignerManifestError : Type :=
| OddLengthPublicKeyHex
| InvalidPublicKeyHex.

#[export] Instance TrustedSignerManifestError_eq_dec : EqDecision TrustedSignerManifestError.
Proof. solve_decision. Defined.

Definition hex_value (b : ascii) : result N TrustedSignerManifestError :=
  if byte_in 48 57 b then Ok (byte_val b - 48)%N
  else if byte_in 97 102 b then Ok (byte_val b - 97 + 10)%N
  else if byte_in 65 70 b then Ok (byte_val b - 65 + 10)%N
  else Err InvalidPublicKeyHex.

(** The loop over [chunks_exact(2)]. *)
Fixpoint decode_pairs (s : string) : result string TrustedSignerManifestError :=
  match s with
  | String a (String b s') =>
      let? hi := hex_value a in
      let? lo := hex_value b in
      let? out := decode_pairs s' in
      Ok (String (ascii_of_N (N.lor (N.shiftl hi 4) lo)) out)
  | _ => Ok ""
  end.

Definition decode_hex (s : string) : result string TrustedSignerManifestError :=
  if negb (Nat.even (String.length s)) then Err OddLengthPublicKeyHex else decode_pairs s.

Definition HEX : list ascii :=
  ["0"; "1"; "2"; "3"; "4"; "5"; "6"; "7"; "8"; "9"; "a"; "b"; "c"; "d"; "e"; "f"]%char.

Definition hex_digit (n : N) : ascii := nth (N.to_nat n) HEX "0"%char.

Fixpoint hex_lower (bytes : string) : string :=
  match bytes with
  | EmptyString => ""
  | String b rest =>
      String (hex_digit (N.shiftr (byte_val b) 4))
        (String (hex_digit (N.land (byte_val b) 15)) (hex_lower rest))
  end.

(** ** The manifest *)

Record TrustedSigner : Type := mkSigner {
  ts_public_key_sha256 : string;
  ts_signer_kind : string;
  ts_public_key_x963_hex : string;
}.

#[export] Instance TrustedSigner_eq_dec : EqDecision TrustedSigner.
Proof. solve_decision. Defined.

(** The three fields a row of the manifest must have, before the key is decoded;
    blank lines, comments and short rows have none. *)
Definition signer_fields (line : string) : option (string * string * string) :=
  let line := trim line in
  if is_empty line || starts_with line "#" then None
  else match split_on TAB line with
       | sha :: kind :: key :: _ => Some (sha, kind, key)
       | _ => None
       end.

Fixpoint parse_signer_lines (ls : list string)
  : result (list TrustedSigner) TrustedSignerManifestError :=
  match ls with
  | [] => Ok []
  | line :: rest =>
      match signer_fields line with
      | None => parse_signer_lines rest
      | Some (sha, kind, key) =>
          let? _ := decode_hex key in
          let? signers := parse_signer_lines rest in
          Ok (mkSigner sha kind (to_ascii_lowercase key) :: signers)
      end
  end.

Definition parse_trusted_signers (contents : string)
  : result (list TrustedSigner) TrustedSignerManifestError :=
  parse_signer_lines (lines contents).

Definition first_trusted_signer (contents : string)
  : result (option TrustedSigner) TrustedSignerManifestError :=
  let? signers := parse_trusted_signers contents in Ok (head signers).

Definition signer_matches (sha kind : string) (expected_key_hex : option string)
    (s : TrustedSigner) : bool :=
  bool_decide (ts_public_key_sha256 s = sha)
  && bool_decide (ts_signer_kind s = kind)
  && match expected_key_hex with
     | Some expected => bool_decide (expected = ts_public_key_x963_hex s)
     | None => true
     end.

Definition trusted_signer_matches (contents public_key_sha256 signer_kind : string)
    (public_key_x963 : option string) : result bool TrustedSignerManifestError :=
  let expected_key_hex := hex_lower <$> public_key_x963 in
  let? signers := parse_trusted_signers contents in
  Ok (existsb (signer_matches public_key_sha256 signer_kind expected_key_hex) signers).

(** ** Lemmas *)

Lemma decode_byte (b : ascii) (rest : string) :
  decode_pairs (hex_lower (String b rest))
  = let? out := decode_pairs (hex_lower rest) in Ok (String b out).
Proof.
  cbn [hex_lower decode_pairs].
  assert (forall c : ascii,
    match hex_value (hex_digit (N.shiftr (byte_val c) 4)),
          hex_value (hex_digit (N.land (byte_val c) 15)) with
    | Ok hi, Ok lo => ascii_of_N (N.lor (N.shiftl hi 4) lo) = c
    | _, _ => False
    end) as H by (intros [[] [] [] [] [] [] [] []]; vm_compute; reflexivity).
  specialize (H b). destruct (hex_value _); [|done]. destruct (hex_value _); [|done].
  by rewrite H.
Qed.

Lemma length_hex_lower (s : string) : String.length (hex_lower s) = 2 * String.length s.
Proof. induction s as [|b s IH]; simpl in *; lia. Qed.

Lemma decode_pairs_hex_lower (s : string) : decode_pairs (hex_lower s) = Ok s.
Proof. induction s as [|b s IH]; [done|]. by rewrite decode_byte, IH. Qed.

Lemma decode_hex_hex_lower (s : string) : decode_hex (hex_lower s) = Ok s.
Proof.
  unfold decode_hex. rewrite length_hex_lower, Nat.even_even. apply decode_pairs_hex_lower.
Qed.

#[export] Instance hex_lower_inj : Inj eq eq hex_lower.
Proof.
  intros a b H. pose proof (decode_hex_hex_lower a) as Ha.
  rewrite H, decode_hex_hex_lower in Ha. congruence.
Qed.

Lemma hex_value_digit (c : ascii) (n : N) :
  hex_value c = Ok n -> (n < 16)%N /\ hex_digit n = ascii_lower c.
Proof. destruct c as [[] [] [] [] [] [] [] []]; vm_compute; intros [= <-]; done. Qed.

Lemma nibbles (hi lo : N) :
  (hi < 16)%N -> (lo < 16)%N ->
  let b := ascii_of_N (N.lor (N.shiftl hi 4) lo) in
  N.shiftr (byte_val b) 4 = hi /\ N.land (byte_val b) 15 = lo.
Proof.
  intros Hh Hl b. subst b.
  assert (forallb (fun hi => forallb (fun lo =>
    let b := ascii_of_N (N.lor (N.shiftl (N.of_nat hi) 4) (N.of_nat lo)) in
    bool_decide (N.shiftr (byte_val b) 4 = N.of_nat hi)
    && bool_decide (N.land (byte_val b) 15 = N.of_nat lo)) (seq 0 16)) (seq 0 16) = true) as H
    by by vm_compute.
  rewrite forallb_forall in H. specialize (H (N.to_nat hi) ltac:(apply in_seq; lia)).
  rewrite forallb_forall in H. specialize (H (N.to_nat lo) ltac:(apply in_seq; lia)).
  rewrite !N2Nat.id in H. cbv beta zeta in H. bool_split. done.
Qed.

(** Decoding and printing again gives the lower-case text. *)
Lemma hex_lower_decode_pairs (n : nat) (s out : string) :
  String.length s = 2 * n -> decode_pairs s = Ok out -> hex_lower out = to_ascii_lowercase s.
Proof.
  revert s out. induction n as [|n IH]; intros s out Hn.
  - destruct s; [|done]. by intros [= <-].
  - destruct s as [|a [|b s]]; simpl in Hn; [lia | lia |]. simpl.
    destruct (hex_value a) as [hi|] eqn:Ha; [|done].
    destruct (hex_value b) as [lo|] eqn:Hb; [|done].
    destruct (decode_pairs s) as [o|] eqn:Hs; [|done]. intros [= <-]. simpl.
    apply hex_value_digit in Ha as [Hhi Ha], Hb as [Hlo Hb].
    destruct (nibbles hi lo Hhi Hlo) as [-> ->]. rewrite Ha, Hb.
    rewrite (IH s o) by (done || lia). done.
Qed.

Lemma hex_lower_decode_hex (s out : string) :
  decode_hex s = Ok out -> hex_lower out = to_ascii_lowercase s.
Proof.
  unfold decode_hex. destruct (Nat.even (String.length s)) eqn:He; [|done]. simpl.
  apply Nat.even_spec in He as [n Hn]. by apply hex_lower_decode_pairs with n.
Qed.

Lemma to_ascii_lowercase_hex_lower (s : string) : to_ascii_lowercase (hex_lower s) = hex_lower s.
Proof. by rewrite <- (hex_lower_decode_hex _ _ (decode_hex_hex_lower s)). Qed.

Lemma hex_lower_no_comma (s : string) : no_char "," (hex_lower s) = true.
Proof.
  induction s as [|b s IH]; [done|]. simpl. rewrite !no_char_cons. split_and!; [..|done].
  - destruct b as [[] [] [] [] [] [] [] []]; by vm_compute.
  - destruct b as [[] [] [] [] [] [] [] []]; by vm_compute.
Qed.

Lemma parse_signer_lines_elem (ls : list string) (signers : list TrustedSigner) (s : TrustedSigner) :
  parse_signer_lines ls = Ok signers ->
  s ∈ signers <->
  exists line sha kind key k, line ∈ ls /\ signer_fields line = Some (sha, kind, key)
    /\ decode_hex key = Ok k /\ s = mkSigner sha kind (hex_lower k).
Proof.
  revert signers. induction ls as [|line ls IH]; intros signers; simpl.
  - intros [= <-]. set_solver.
  - destruct (signer_fields line) as [[[sha kind] key]|] eqn:Hf.
    + destruct (decode_hex key) as [k|] eqn:Hk; [|done].
      destruct (parse_signer_lines ls) as [ss|]; [|done]. intros [= <-].
      specialize (IH ss eq_refl). rewrite elem_of_cons, IH.
      rewrite <- (hex_lower_decode_hex _ _ Hk). split.
      * intros [-> | (l' & a & b & c & d & ? & ?)].
        -- exists line, sha, kind, key, k. split_and!; [set_solver | done..].
        -- exists l', a, b, c, d. split; [set_solver | done].
      * intros (l' & a & b & c & d & [->|Hin]%elem_of_cons & Hl & Hd & ->).
        -- left. rewrite Hf in Hl. injection Hl as <- <- <-. rewrite Hk in Hd. by injection Hd as <-.
        -- right. by exists l', a, b, c, d.
    + intros Hp. rewrite (IH _ Hp). split.
      * intros (l' & a & b & c & d & ? & ?). exists l', a, b, c, d. split; [set_solver | done].
      * intros (l' & a & b & c & d & [->|Hin]%elem_of_cons & Hl & ?); [by rewrite Hf in Hl|].
        by exists l', a, b, c, d.
Qed.

Lemma trusted_signer_matches_spec (contents sha kind key : string) (signers : list TrustedSigner) :
  parse_trusted_signers contents = Ok signers ->
  trusted_signer_matches contents sha kind (Some key) = Ok true
  <-> exists line text, line ∈ lines contents /\ signer_fields line = Some (sha, kind, text)
        /\ decode_hex text = Ok key.
Proof.
  intros Hp. unfold trusted_signer_matches. rewrite Hp. unfold parse_trusted_signers in Hp.
  assert (forall b : bool, @Ok bool TrustedSignerManifestError b = Ok true <-> b = true) as ->
    by (intros b; split; congruence).
  rewrite existsb_exists. setoid_rewrite <- list_elem_of_In.
  setoid_rewrite (parse_signer_lines_elem _ _ _ Hp). unfold signer_matches. simpl. split.
  - intros (s & (line & a & b & c & d & Hin & Hf & Hd & ->) & Hm). simpl in Hm.
    apply andb_true_iff in Hm as [[<-%bool_decide_eq_true <-%bool_decide_eq_true]%andb_true_iff
      ->%bool_decide_eq_true%hex_lower_inj]. by exists line, c.
  - intros (line & text & Hin & Hf & Hd). exists (mkSigner sha kind (hex_lower key)).
    split; [by exists line, sha, kind, text, key|]. simpl. by rewrite !bool_decide_eq_true_2.
Qed.

(** ** Properties *)

(** the hexadecimal codec round-trips: decoding what [hex_lower] prints gives
    the bytes back, and printing what [decode_hex] accepted gives its lower-case
    spelling, so two accepted texts denote the same key exactly when they agree up
    to case. *)
Theorem hex_round_trip (bytes text text' : string) (k k' : string) :
  decode_hex text = Ok k -> decode_hex text' = Ok k' ->
  decode_hex (hex_lower bytes) = Ok bytes
  /\ hex_lower k = to_ascii_lowercase text
  /\ (k = k' <-> eq_ignore_ascii_case text text' = true).
Proof.
  intros Hk Hk'. split_and!; [apply decode_hex_hex_lower | by apply hex_lower_decode_hex |].
  unfold eq_ignore_ascii_case. rewrite bool_decide_eq_true.
  rewrite <- (hex_lower_decode_hex _ _ Hk), <- (hex_lower_decode_hex _ _ Hk').
  split; [by intros -> | apply hex_lower_inj].
Qed.

Lemma hex_round_trip_witness : hex_lower "AZ" = "415a" /\ decode_hex "415A" = Ok "AZ".
Proof.
  destruct (hex_round_trip "AZ" "415a" "415A" "AZ" "AZ") as (H & -> & _); by vm_compute.
Defined.

(** A signer is accepted exactly when the manifest holds a row for it: with
    every row's key decodable, [trusted_signer_matches] answers true if and only
    if some row that is neither blank nor a comment carries the fingerprint, the
    signer kind and a hexadecimal text of exactly the presented key. *)
Theorem trusted_signer_matches_iff (contents sha kind key : string) (signers : list TrustedSigner) :
  parse_trusted_signers contents = Ok signers ->
  trusted_signer_matches contents sha kind (Some key) = Ok true
  <-> exists line text, line ∈ lines contents /\ signer_fields line = Some (sha, kind, text)
        /\ decode_hex text = Ok key.
Proof. intros Hp. by eapply trusted_signer_matches_spec. Qed.

Definition sample_manifest : string :=
  "# fingerprint kind key" +:+ String LF ("abc" +:+ String TAB ("tpm" +:+ String TAB
    ("0001FF" +:+ String TAB ("label" +:+ String LF "")))).

Lemma trusted_signer_matches_iff_witness :
  trusted_signer_matches sample_manifest "abc" "tpm"
    (Some (String (ascii_of_nat 0) (String (ascii_of_nat 1) (String (ascii_of_nat 255) ""))))
  = Ok true.
Proof.
  apply (trusted_signer_matches_iff sample_manifest "abc" "tpm" _ [mkSigner "abc" "tpm" "0001ff"]);
    [by vm_compute|].
  exists ("abc" +:+ String TAB ("tpm" +:+ String TAB ("0001FF" +:+ String TAB "label"))), "0001FF".
  split_and!; [by_decide | by vm_compute | by vm_compute].
Defined.
