(* ===== verification/Signature.v ===== *)
(** * Signed payloads

    [crates/guard-core/src/rule_signature.rs]: the three signed payloads, the
    detached signatures and their verification.  The cryptography (SHA-256, ECDSA
    P-256) and the CBOR encoder are libraries: they are the operations of the
    class [Crypto]. *)

From S2P Require Import Prelude RustStr TrustedSigners.

(** ** Payloads and signatures *)

Record RuleSignaturePayloadV1 : Type := mkRulePayload {
  rp_schema_version : Z;
  rp_kind : string;
  rp_match_type : string;
  rp_pattern : string;
  rp_reason : string;
  rp_created_at_unix_ms : Z;
  rp_origin : string;
  rp_run_uuid : option string;
}.

Record SnapshotSignaturePayloadV1 : Type := mkSnapshotPayload {
  sp_schema_version : Z;
  sp_run_uuid : string;
  sp_snapshot_sha256 : string;
  sp_generated_at_unix_ms : Z;
}.

Record ManagementActionPayloadV1 : Type := mkManagementPayload {
  mp_schema_version : Z;
  mp_action : string;
  mp_pattern : string;
  mp_reason : string;
  mp_created_at_unix_ms : Z;
}.

(** [RuleSignatureV1] and [SnapshotSignatureV1] have the same fields. *)
Record RuleSignatureV1 : Type := mkSignature {
  sig_scheme : string;
  sig_signer_kind : string;
  sig_public_key_x963 : string;
  sig_public_key_sha256 : string;
  sig_signature_der : string;
  sig_signed_payload_sha256 : string;
  sig_created_at_unix_ms : Z;
}.

Definition SnapshotSignatureV1 : Type := RuleSignatureV1.

#[export] Instance RuleSignatureV1_eq_dec : EqDecision RuleSignatureV1.
Proof. solve_decision. Defined.
#[export] Instance RuleSignaturePayloadV1_eq_dec : EqDecision RuleSignaturePayloadV1.
Proof. solve_decision. Defined.

Inductive RuleSignaturePolicy : Type := Production | AllowTestSimulator.

Inductive RuleSignatureError : Type :=
| Encode (msg : string)
| UnsupportedPayloadSchema (v : Z)
| UnsupportedScheme (scheme : string)
| UnsupportedSignerKind (kind : string)
| PublicKeyHashMismatch
| PayloadHashMismatch
| InvalidPublicKey
| InvalidSignatureEncoding
| SignatureMismatch.

#[export] Instance RuleSignatureError_eq_dec : EqDecision RuleSignatureError.
Proof. solve_decision. Defined.

Definition RULE_SIGNATURE_PAYLOAD_SCHEMA_V1 : Z := 1.
Definition SNAPSHOT_SIGNATURE_PAYLOAD_SCHEMA_V1 : Z := 1.
Definition MANAGEMENT_ACTION_PAYLOAD_SCHEMA_V1 : Z := 1.
Definition RULE_SIGNATURE_SCHEME_ECDSA_P256_SHA256 : string := "ecdsa-p256-sha256".
Definition SIGNER_KIND_MACOS_KEYCHAIN : string := "macos-keychain".
Definition SIGNER_KIND_SECURITY_KEY : string := "security-key".
Definition SIGNER_KIND_TPM : string := "tpm".
Definition SIGNER_KIND_TEST_SIMULATOR : string := "test-simulator".

(** [RuleSignaturePayloadV1::new] and its two siblings. *)
Definition new_rule_payload (kind match_type pattern reason : string) (created_at : Z)
    (origin : string) (run_uuid : option string) : RuleSignaturePayloadV1 :=
  mkRulePayload RULE_SIGNATURE_PAYLOAD_SCHEMA_V1 kind match_type pattern reason created_at
    origin run_uuid.

Definition new_snapshot_payload (run_uuid snapshot_sha256 : string) (generated_at : Z)
  : SnapshotSignaturePayloadV1 :=
  mkSnapshotPayload SNAPSHOT_SIGNATURE_PAYLOAD_SCHEMA_V1 run_uuid snapshot_sha256 generated_at.

Definition new_management_payload (action pattern reason : string) (created_at : Z)
  : ManagementActionPayloadV1 :=
  mkManagementPayload MANAGEMENT_ACTION_PAYLOAD_SCHEMA_V1 action pattern reason created_at.

(** ** The libraries the verification calls *)

Class Crypto : Type := {
  (** [Sha256::digest]. *)
  sha256 : string -> string;
  (** [ciborium::into_writer] on each payload type. *)
  cbor_rule_payload : RuleSignaturePayloadV1 -> result string string;
  cbor_snapshot_payload : SnapshotSignaturePayloadV1 -> result string string;
  cbor_management_payload : ManagementActionPayloadV1 -> result string string;
  (** [p256::ecdsa]: key and signature parsing, and the verification equation. *)
  VerifyingKey : Type;
  EcdsaSignature : Type;
  from_sec1_bytes : string -> option VerifyingKey;
  from_der : string -> option EcdsaSignature;
  ecdsa_verify : VerifyingKey -> string -> EcdsaSignature -> bool;
}.

Definition signer_kind_allowed (kind : string) (policy : RuleSignaturePolicy) : bool :=
  match policy with
  | Production =>
      bool_decide (kind = SIGNER_KIND_MACOS_KEYCHAIN)
      || bool_decide (kind = SIGNER_KIND_SECURITY_KEY)
      || bool_decide (kind = SIGNER_KIND_TPM)
  | AllowTestSimulator =>
      bool_decide (kind = SIGNER_KIND_MACOS_KEYCHAIN)
      || bool_decide (kind = SIGNER_KIND_SECURITY_KEY)
      || bool_decide (kind = SIGNER_KIND_TPM)
      || bool_decide (kind = SIGNER_KIND_TEST_SIMULATOR)
  end.

Section Verify.
Context `{Crypto}.

Definition sha256_hex (bytes : string) : string := hex_lower (sha256 bytes).

Definition canonical_rule_payload_bytes (p : RuleSignaturePayloadV1)
  : result string RuleSignatureError := map_err Encode (cbor_rule_payload p).

Definition canonical_snapshot_payload_bytes (p : SnapshotSignaturePayloadV1)
  : result string RuleSignatureError := map_err Encode (cbor_snapshot_payload p).

Definition canonical_management_action_payload_bytes (p : ManagementActionPayloadV1)
  : result string RuleSignatureError := map_err Encode (cbor_management_payload p).

(** The body the three verifiers share, in the order of its checks: the payload's
    schema number, its expected value and its canonical bytes differ. *)
Definition verify_payload (schema expected : Z) (payload : result string RuleSignatureError)
    (signature : RuleSignatureV1) (policy : RuleSignaturePolicy)
  : result unit RuleSignatureError :=
  if negb (bool_decide (schema = expected)) then Err (UnsupportedPayloadSchema schema)
  else if negb (bool_decide (sig_scheme signature = RULE_SIGNATURE_SCHEME_ECDSA_P256_SHA256))
    then Err (UnsupportedScheme (sig_scheme signature))
  else if negb (signer_kind_allowed (sig_signer_kind signature) policy)
    then Err (UnsupportedSignerKind (sig_signer_kind signature))
  else if negb (bool_decide (sha256_hex (sig_public_key_x963 signature)
                             = sig_public_key_sha256 signature))
    then Err PublicKeyHashMismatch
  else
    let? payload_bytes := payload in
    if negb (bool_decide (sha256_hex payload_bytes = sig_signed_payload_sha256 signature))
      then Err PayloadHashMismatch
    else
      let? verifying_key := ok_or (from_sec1_bytes (sig_public_key_x963 signature)) InvalidPublicKey in
      let? sig := ok_or (from_der (sig_signature_der signature)) InvalidSignatureEncoding in
      if ecdsa_verify verifying_key payload_bytes sig then Ok tt else Err SignatureMismatch.

Definition verify_rule_signature (p : RuleSignaturePayloadV1) :=
  verify_payload (rp_schema_version p) RULE_SIGNATURE_PAYLOAD_SCHEMA_V1
    (canonical_rule_payload_bytes p).

Definition verify_snapshot_signature (p : SnapshotSignaturePayloadV1) :=
  verify_payload (sp_schema_version p) SNAPSHOT_SIGNATURE_PAYLOAD_SCHEMA_V1
    (canonical_snapshot_payload_bytes p).

Definition verify_management_action_signature (p : ManagementActionPayloadV1) :=
  verify_payload (mp_schema_version p) MANAGEMENT_ACTION_PAYLOAD_SCHEMA_V1
    (canonical_management_action_payload_bytes p).

(** ** What a successful verification means *)

(** A signature made by the holder of its own embedded key over exactly [bytes]. *)
Record Authentic (bytes : string) (s : RuleSignatureV1) (policy : RuleSignaturePolicy) : Prop := {
  au_scheme : sig_scheme s = RULE_SIGNATURE_SCHEME_ECDSA_P256_SHA256;
  au_kind : signer_kind_allowed (sig_signer_kind s) policy = true;
  au_key : sha256_hex (sig_public_key_x963 s) = sig_public_key_sha256 s;
  au_digest : sha256_hex bytes = sig_signed_payload_sha256 s;
  au_sig : exists k g, from_sec1_bytes (sig_public_key_x963 s) = Some k
             /\ from_der (sig_signature_der s) = Some g /\ ecdsa_verify k bytes g = true;
}.

Lemma verify_payload_ok (schema expected : Z) (payload : result string RuleSignatureError)
    (s : RuleSignatureV1) (policy : RuleSignaturePolicy) :
  verify_payload schema expected payload s policy = Ok tt
  <-> schema = expected /\ exists bytes, payload = Ok bytes /\ Authentic bytes s policy.
Proof.
  unfold verify_payload, ok_or. split.
  - intros Hv. case_bool_decide; [|done]. case_bool_decide; [|done].
    destruct (signer_kind_allowed _ _) eqn:Hk; [|done].
    case_bool_decide; [|done]. destruct payload as [bytes|]; [|done].
    simpl in Hv. case_bool_decide; [|done].
    destruct (from_sec1_bytes _) as [k|] eqn:Hkey; [|done].
    destruct (from_der _) as [g|] eqn:Hg; [|done].
    destruct (ecdsa_verify k bytes g) eqn:Hs; [|done].
    split; [done|]. exists bytes. split; [done|]. constructor; eauto.
  - intros (-> & bytes & -> & [Hs Hk Hkey Hd (k & g & Hpk & Hder & Hsig)]).
    rewrite !bool_decide_eq_true_2 by done. rewrite Hk, Hpk, Hder, Hsig. done.
Qed.

Lemma Authentic_Production_kind (bytes : string) (s : RuleSignatureV1) :
  Authentic bytes s Production -> sig_signer_kind s <> SIGNER_KIND_TEST_SIMULATOR.
Proof. intros [_ Hk _ _ _] Heq. rewrite Heq in Hk. by vm_compute in Hk. Qed.

(** One signature authenticates one payload, or exhibits a SHA-256 collision. *)
Lemma Authentic_binds (b b' : string) (s : RuleSignatureV1) (p p' : RuleSignaturePolicy) :
  Authentic b s p -> Authentic b' s p' -> b = b' \/ (b <> b' /\ sha256 b = sha256 b').
Proof.
  intros [_ _ _ Hd _] [_ _ _ Hd' _]. destruct (decide (b = b')); [by left | right].
  split; [done|]. apply hex_lower_inj. unfold sha256_hex in *. congruence.
Qed.

End Verify.

#[export] Hint Resolve Authentic_Production_kind : guard.

(** ** A concrete instance, for evaluation

    The digest is the identity, a payload is encoded as its fields in hexadecimal
    separated by commas, and a signature is the key followed by the bytes. *)

Definition enc_fields (l : list string) : string := join "," (hex_lower <$> l).

#[local] Instance toy_crypto : Crypto := {|
  sha256 s := s;
  cbor_rule_payload p :=
    Ok (enc_fields [pretty (rp_schema_version p); rp_kind p; rp_match_type p; rp_pattern p;
      rp_reason p; pretty (rp_created_at_unix_ms p); rp_origin p;
      match rp_run_uuid p with Some u => "S" +:+ u | None => "N" end]);
  cbor_snapshot_payload p :=
    Ok (enc_fields [pretty (sp_schema_version p); sp_run_uuid p; sp_snapshot_sha256 p;
      pretty (sp_generated_at_unix_ms p)]);
  cbor_management_payload p :=
    Ok (enc_fields [pretty (mp_schema_version p); mp_action p; mp_pattern p; mp_reason p;
      pretty (mp_created_at_unix_ms p)]);
  VerifyingKey := string;
  EcdsaSignature := string;
  from_sec1_bytes s := if is_empty s then None else Some s;
  from_der s := if is_empty s then None else Some s;
  ecdsa_verify k bytes g := bool_decide (g = k +:+ bytes);
|}.

Lemma enc_fields_inj (l l' : list string) :
  l <> [] -> l' <> [] -> enc_fields l = enc_fields l' -> l = l'.
Proof.
  intros Hl Hl' H. unfold enc_fields in H.
  apply (f_equal (split_on ",")) in H.
  assert (forall k, k <> [] -> split_on "," (join "," (hex_lower <$> k)) = hex_lower <$> k) as Hs.
  { intros k Hk. apply split_on_join_inv; [by destruct k|].
    apply Forall_fmap, Forall_true. intros x. apply hex_lower_no_comma. }
  rewrite !Hs in H by done. by apply (inj (fmap hex_lower)) in H.
Qed.

Lemma toy_cbor_rule_payload_inj (q q' : RuleSignaturePayloadV1) (b : string) :
  cbor_rule_payload q = Ok b -> cbor_rule_payload q' = Ok b -> q = q'.
Proof.
  simpl. intros H [= H']. injection H as <-.
  apply enc_fields_inj in H'; [|done..].
  destruct q as [? ? ? ? ? ? ? u], q' as [? ? ? ? ? ? ? u'].
  simplify_eq/=. f_equal. by destruct u, u'; simplify_eq/=.
Qed.

(** Signing with the instance's key [key]. *)
Definition toy_sign (kind key bytes : string) (created_at : Z) : RuleSignatureV1 :=
  mkSignature RULE_SIGNATURE_SCHEME_ECDSA_P256_SHA256 kind key (sha256_hex key) (key +:+ bytes)
    (sha256_hex bytes) created_at.

Definition toy_payload : RuleSignaturePayloadV1 :=
  new_rule_payload "allow" "exact" "user.example" "mine" 1 "baseline" None.

(** The sample payload signed by the key [kind]/[key]. *)
Definition toy_rule_signature (kind key : string) (p : RuleSignaturePayloadV1) : RuleSignatureV1 :=
  toy_sign kind key (unwrap_or (canonical_rule_payload_bytes p) "") (rp_created_at_unix_ms p).

(** ** Properties *)

(** A rule, snapshot or management signature verifies exactly when the payload
    has the supported schema and its canonical bytes are authentic: known scheme,
    permitted signer kind, key and payload digests that match, and an ECDSA
    signature of those bytes under the embedded key. *)
Theorem verify_signature_iff_authentic `{Crypto} (rp : RuleSignaturePayloadV1)
    (sp : SnapshotSignaturePayloadV1) (mp : ManagementActionPayloadV1)
    (s : RuleSignatureV1) (policy : RuleSignaturePolicy) :
  (verify_rule_signature rp s policy = Ok tt
   <-> rp_schema_version rp = 1%Z
       /\ exists b, cbor_rule_payload rp = Ok b /\ Authentic b s policy)
  /\ (verify_snapshot_signature sp s policy = Ok tt
      <-> sp_schema_version sp = 1%Z
          /\ exists b, cbor_snapshot_payload sp = Ok b /\ Authentic b s policy)
  /\ (verify_management_action_signature mp s policy = Ok tt
      <-> mp_schema_version mp = 1%Z
          /\ exists b, cbor_management_payload mp = Ok b /\ Authentic b s policy).
Proof.
  assert (forall (r : result string string) b, map_err Encode r = Ok b <-> r = Ok b) as Hm.
  { intros [?|?] b; simpl; split; congruence. }
  unfold verify_rule_signature, verify_snapshot_signature, verify_management_action_signature,
    canonical_rule_payload_bytes, canonical_snapshot_payload_bytes,
    canonical_management_action_payload_bytes.
  rewrite !verify_payload_ok. by setoid_rewrite Hm.
Qed.

(** Tampering is detected: when one signature verifies for two rule payloads
    under an injective encoder, either the payloads are equal or the two encodings
    are a SHA-256 collision; and under the production policy no signature of the
    test simulator verifies. *)
Theorem verify_rule_signature_binds_payload `{Crypto} (p p' : RuleSignaturePayloadV1)
    (s : RuleSignatureV1) (policy : RuleSignaturePolicy)
    (cbor_injective : forall q q' b, cbor_rule_payload q = Ok b -> cbor_rule_payload q' = Ok b -> q = q') :
  verify_rule_signature p s policy = Ok tt ->
  verify_rule_signature p' s Production = Ok tt ->
  sig_signer_kind s <> SIGNER_KIND_TEST_SIMULATOR
  /\ (p = p' \/ exists b b', b <> b' /\ sha256 b = sha256 b').
Proof.
  unfold verify_rule_signature. rewrite !verify_payload_ok.
  intros (_ & b & Hb & Ha) (_ & b' & Hb' & Ha').
  split; [by eapply Authentic_Production_kind|].
  destruct (Authentic_binds _ _ _ _ _ Ha Ha') as [<- | [? ?]]; [left | eauto].
  unfold canonical_rule_payload_bytes in *.
  destruct (cbor_rule_payload p) eqn:Hp, (cbor_rule_payload p') eqn:Hp'; simplify_eq/=.
  by eapply cbor_injective.
Qed.

Lemma verify_rule_signature_binds_payload_witness :
  let s := toy_rule_signature "tpm" "K" toy_payload in
  verify_rule_signature toy_payload s Production = Ok tt
  /\ sig_signer_kind s <> SIGNER_KIND_TEST_SIMULATOR.
Proof.
  split; [by vm_compute|].
  apply (verify_rule_signature_binds_payload toy_payload toy_payload _ Production
           toy_cbor_rule_payload_inj); by vm_compute.
Defined.
