(* ===== verification/Snapshot.v ===== *)
(** * Snapshots: curated rules, construction and codec

    [crates/guard-core/src/snapshot.rs], [snapshot_build.rs] and
    [crates/guard-daemon/src/curated.rs]: the curated rules are validated and
    tagged with a tier, merged with the user's and the lockfile's rules, sorted by
    tier and encoded.  The CBOR codec is a library: class [SnapshotCodec]. *)

From S2P Require Import Prelude RustStr RustNet Policy.

(** ** [slice::sort_by_key]: a stable sort, as insertion *)

Section SortByKey.
Context {A : Type} (key : A -> nat).

Fixpoint insert_by_key (x : A) (l : list A) : list A :=
  match l with
  | [] => [x]
  | y :: l' => if bool_decide (key x <= key y) then x :: l else y :: insert_by_key x l'
  end.

Definition sort_by_key (l : list A) : list A := foldr insert_by_key [] l.

Lemma insert_by_key_perm (x : A) (l : list A) : insert_by_key x l ≡ₚ x :: l.
Proof.
  induction l as [|y l IH]; simpl; [done|]. case_bool_decide; [done|].
  rewrite IH. apply Permutation_swap.
Qed.

Lemma sort_by_key_perm (l : list A) : sort_by_key l ≡ₚ l.
Proof. induction l as [|x l IH]; simpl; [done|]. by rewrite insert_by_key_perm, IH. Qed.

Abbreviation by_key := (fun a b => key a <= key b).

Lemma insert_by_key_sorted (x : A) (l : list A) :
  StronglySorted by_key l -> StronglySorted by_key (insert_by_key x l).
Proof.
  induction 1 as [|y l Hl IH Hy]; simpl; [repeat constructor|].
  case_bool_decide as Hxy.
  - repeat constructor; [done | done | done |].
    eapply Forall_impl; [exact Hy|]. simpl. lia.
  - constructor; [done|]. rewrite Forall_forall. intros z Hz.
    rewrite insert_by_key_perm in Hz. apply elem_of_cons in Hz as [->|Hz]; [lia|].
    rewrite Forall_forall in Hy. by apply Hy.
Qed.

Lemma sort_by_key_sorted (l : list A) : StronglySorted by_key (sort_by_key l).
Proof. induction l as [|x l IH]; simpl; [constructor|]. by apply insert_by_key_sorted. Qed.

(** Elements of equal key keep their order. *)
Lemma insert_by_key_stable (k : nat) (x : A) (l : list A) :
  filter (fun a => key a = k) (insert_by_key x l) = filter (fun a => key a = k) (x :: l).
Proof.
  induction l as [|y l IH]; simpl; [done|]. case_bool_decide as Hxy; [done|].
  rewrite filter_cons, IH, !filter_cons. repeat case_decide; try done. lia.
Qed.

Lemma sort_by_key_stable (k : nat) (l : list A) :
  filter (fun a => key a = k) (sort_by_key l) = filter (fun a => key a = k) l.
Proof.
  induction l as [|x l IH]; simpl; [done|].
  rewrite insert_by_key_stable, !filter_cons, IH. done.
Qed.

End SortByKey.

(** ** curated.rs *)

Inductive Confidence : Type := Confirmed | Suspect.

Record RawEntry : Type := mkRaw {
  raw_kind : RuleKind;
  raw_match_type : MatchType;
  raw_pattern : string;
  raw_reason : string;
  raw_confidence : option Confidence;
}.

Inductive CuratedError : Type :=
| Parse (msg : string)
| InvalidPattern (index : nat) (reason : string).

Definition MIN_SUFFIX_LEN : nat := 6.

(** The tier of a curated entry. *)
Definition curated_tier (kind : RuleKind) (confidence : option Confidence) : RuleTier :=
  match kind, confidence with
  | Allow, _ => CuratedAllow
  | Deny, Some Confirmed => ConfirmedDeny
  | Deny, Some Suspect => SuspectDeny
  | Deny, None => BuiltinDeny
  end.

(** The three guards on one entry; [None] when it passes. *)
Definition raw_error (e : RawEntry) : option string :=
  if blank (raw_reason e) then Some "reason field is empty"
  else if bool_decide (raw_match_type e = Suffix) then
    if negb (starts_with (raw_pattern e) ".")
      then Some ("suffix pattern must start with '.': " +:+ raw_pattern e)
    else if bool_decide (String.length (raw_pattern e) < MIN_SUFFIX_LEN)
      then Some ("suffix pattern too short (over-broad): " +:+ raw_pattern e
                 +:+ " (min " +:+ pretty MIN_SUFFIX_LEN +:+ " bytes)")
    else None
  else None.

Definition curated_entry (e : RawEntry) : AllowlistEntry :=
  mkEntry (raw_kind e) (curated_tier (raw_kind e) (raw_confidence e)) (raw_match_type e)
    (raw_pattern e) (raw_reason e).

Fixpoint validate_from (i : nat) (entries : list RawEntry)
  : result (list AllowlistEntry) CuratedError :=
  match entries with
  | [] => Ok []
  | e :: rest =>
      match raw_error e with
      | Some reason => Err (InvalidPattern i reason)
      | None =>
          let? out := validate_from (S i) rest in
          Ok (curated_entry e :: out)
      end
  end.

Definition validate_entries (entries : list RawEntry) := validate_from 0 entries.

(** ** snapshot.rs *)

Definition SCHEMA_V1 : Z := 1.
Definition SCHEMA_V2 : Z := 2.

Record Snapshot : Type := mkSnapshot {
  schema_version : Z;
  generated_at_unix_ms : Z;
  entries : list AllowlistEntry;
  run_uuid : option string;
}.

#[export] Instance Snapshot_eq_dec : EqDecision Snapshot.
Proof. solve_decision. Defined.

Inductive Error : Type :=
| Codec (msg : string)
| SchemaVersionMismatch (expected got : Z).

Definition v1_default : Snapshot := mkSnapshot SCHEMA_V1 0 [] None.

Definition v2_default : Snapshot :=
  mkSnapshot SCHEMA_V2 0
    [mkEntry Allow CuratedAllow Exact "registry.npmjs.org" "npm default registry (ALLOW-01)"] None.

(** [ciborium] on [Snapshot]; the law is what [serde]'s derived implementations
    promise: what was encoded decodes to the same value. *)
Class SnapshotCodec : Type := {
  cbor_encode_snapshot : Snapshot -> result string string;
  cbor_decode_snapshot : string -> result Snapshot string;
}.

Definition codec_round_trips `{SnapshotCodec} : Prop :=
  forall s b, cbor_encode_snapshot s = Ok b -> cbor_decode_snapshot b = Ok s.

Section Codec.
Context `{SnapshotCodec}.

Definition encode (s : Snapshot) : result string Error := map_err Codec (cbor_encode_snapshot s).

Definition decode (bytes : string) : result Snapshot Error :=
  let? s := map_err Codec (cbor_decode_snapshot bytes) in
  if negb (bool_decide (schema_version s = SCHEMA_V2))
    then Err (SchemaVersionMismatch SCHEMA_V2 (schema_version s))
  else Ok s.

(** ** snapshot_build.rs *)

Record SnapshotBuildInput : Type := mkBuildInput {
  bi_run_uuid : string;
  bi_generated_at_unix_ms : Z;
  bi_curated_entries : list AllowlistEntry;
  bi_disabled_curated_patterns : gset string;
  bi_verified_user_entries : list AllowlistEntry;
  bi_lockfile_entries : list AllowlistEntry;
}.

Definition build_snapshot (input : SnapshotBuildInput) : Snapshot :=
  let entries :=
    filter (fun e => e_pattern e ∉ bi_disabled_curated_patterns input) (bi_curated_entries input)
    ++ bi_verified_user_entries input
    ++ bi_lockfile_entries input in
  mkSnapshot SCHEMA_V2 (bi_generated_at_unix_ms input)
    (sort_by_key (fun e => tier_rank (e_tier e)) entries) (Some (bi_run_uuid input)).

Definition build_snapshot_bytes (input : SnapshotBuildInput) : result string Error :=
  encode (build_snapshot input).

(** ** The abstract view of a build input: the set of rules in force *)

Definition in_force (input : SnapshotBuildInput) (e : AllowlistEntry) : Prop :=
  (e ∈ bi_curated_entries input /\ e_pattern e ∉ bi_disabled_curated_patterns input)
  \/ e ∈ bi_verified_user_entries input
  \/ e ∈ bi_lockfile_entries input.

(** Curated and lockfile rules agree with their tiers; user rules have a user tier. *)
Definition wf_input (input : SnapshotBuildInput) : Prop :=
  Forall wf_entry (bi_curated_entries input)
  /\ Forall (fun e => wf_entry e /\ (e_tier e = UserAllow \/ e_tier e = UserDeny))
       (bi_verified_user_entries input)
  /\ Forall (fun e => wf_entry e) (bi_lockfile_entries input).

Lemma build_snapshot_sorted (input : SnapshotBuildInput) :
  tier_sorted (entries (build_snapshot input)).
Proof. apply sort_by_key_sorted. Qed.

Lemma build_snapshot_elem (input : SnapshotBuildInput) (e : AllowlistEntry) :
  e ∈ entries (build_snapshot input) <-> in_force input e.
Proof.
  unfold build_snapshot, in_force. simpl. rewrite sort_by_key_perm.
  rewrite !elem_of_app, list_elem_of_filter. tauto.
Qed.

Lemma build_snapshot_wf (input : SnapshotBuildInput) :
  wf_input input -> Forall wf_entry (entries (build_snapshot input)).
Proof.
  intros (Hc & Hu & Hl). rewrite Forall_forall in *. intros e.
  rewrite build_snapshot_elem. intros [[? _] | [?|?]]; [auto | by apply Hu | auto].
Qed.

End Codec.

Lemma validate_from_ok (i : nat) (es : list RawEntry) (out : list AllowlistEntry) :
  validate_from i es = Ok out
  <-> Forall (fun e => raw_error e = None) es /\ out = curated_entry <$> es.
Proof.
  revert i out. induction es as [|e es IH]; intros i out; simpl.
  - split; [by intros [= <-] | by intros [_ ->]].
  - rewrite Forall_cons. destruct (raw_error e) as [r|] eqn:He.
    + split; [done | by intros [[? _] _]].
    + specialize (IH (S i)). destruct (validate_from (S i) es) as [o|].
      * split.
        -- intros [= <-]. destruct (proj1 (IH o) eq_refl) as [Hall ->]. done.
        -- intros [[_ Hall] ->]. destruct (IH (curated_entry <$> es)) as [_ Hc].
           by injection (Hc (conj Hall eq_refl)) as ->.
      * split; [done|]. intros [[_ Hall] ->].
        destruct (IH (curated_entry <$> es)) as [_ Hc].
        discriminate (Hc (conj Hall eq_refl)).
Qed.

Lemma validate_from_err (i : nat) (es : list RawEntry) (err : CuratedError) :
  validate_from i es = Err err ->
  exists l e r l', es = l ++ e :: l' /\ Forall (fun x => raw_error x = None) l
    /\ raw_error e = Some r /\ err = InvalidPattern (i + length l) r.
Proof.
  revert i. induction es as [|e es IH]; intros i; simpl; [done|].
  destruct (raw_error e) as [r|] eqn:He.
  - intros [= <-]. exists [], e, r, es. split_and!; [done | constructor | done | f_equal; simpl; lia].
  - destruct (validate_from (S i) es) as [|er] eqn:Hv; [done|]. intros [= <-].
    destruct (IH _ Hv) as (l & x & r & l' & -> & Hl & Hx & ->).
    exists (e :: l), x, r, l'. split_and!; [done | by constructor | done | f_equal; simpl; lia].
Qed.

Lemma curated_entry_wf (e : RawEntry) : wf_entry (curated_entry e).
Proof. by destruct e as [[] ? ? ? [[]|]]. Qed.

(** ** Properties *)

(** C36: the snapshot a build publishes enforces exactly the rules in force: on any
    request [evaluate_policy] over the built entries decides as the abstract
    procedure does on the curated rules that are not disabled, the verified user
    rules and the lockfile rules, and every entry of the snapshot is one of those. *)
Theorem build_snapshot_decides (input : SnapshotBuildInput) (host : string) (ip : option string)
    (resolved : bool) :
  let snap := build_snapshot input in
  schema_version snap = SCHEMA_V2
  /\ (forall e, e ∈ entries snap <-> in_force input e)
  /\ (forall es, (forall e, e ∈ es <-> in_force input e) ->
        Decides host ip resolved es (evaluate_policy host ip resolved (entries snap))).
Proof.
  split_and!; [done | apply build_snapshot_elem |].
  intros es Hes. pose proof (build_snapshot_sorted input) as Hs.
  assert (forall e, e ∈ es <-> e ∈ entries (build_snapshot input)) as Heq.
  { intros e. by rewrite Hes, build_snapshot_elem. }
  destruct (hard_denied_reflect host ip resolved) as [[Hh [n ->]] | [Hh ->]];
    [by apply Decides_hard|].
  pose proof (Decides_walk host ip resolved _ Hs Hh) as HD. revert HD.
  generalize (walk_entries host ip (entries (build_snapshot input))) as v. intros v HD.
  destruct HD as [| e _ Hin Hhit Hmin | _ Hno]; [done | |].
  - apply Decides_entry; [done | by apply Heq | done |].
    intros e' He'%Heq. auto.
  - apply Decides_default; [done|]. intros e He%Heq. auto.
Qed.

(** The order of the snapshot is fully determined: within each tier the
    entries appear in input order, curated before user before lockfile, and the
    tiers follow one another by rank, so the same inputs always give the same
    bytes. *)
Theorem build_snapshot_stable (input : SnapshotBuildInput) (t : RuleTier) :
  tier_sorted (entries (build_snapshot input))
  /\ filter (fun e => tier_rank (e_tier e) = tier_rank t) (entries (build_snapshot input))
     = filter (fun e => tier_rank (e_tier e) = tier_rank t)
         (filter (fun e => e_pattern e ∉ bi_disabled_curated_patterns input)
            (bi_curated_entries input))
       ++ filter (fun e => tier_rank (e_tier e) = tier_rank t) (bi_verified_user_entries input)
       ++ filter (fun e => tier_rank (e_tier e) = tier_rank t) (bi_lockfile_entries input).
Proof.
  split; [apply build_snapshot_sorted|].
  unfold build_snapshot. simpl.
  rewrite (sort_by_key_stable (fun e => tier_rank (e_tier e))). by rewrite !filter_app.
Qed.

(** A user rule cannot open what a curated deny closes: when a curated entry
    of the built-in or the confirmed tier that is not disabled matches a request,
    and no curated or lockfile allow entry does, the built snapshot denies the
    request whatever the user's rules are. *)
Theorem user_rules_cannot_override_curated_deny (input : SnapshotBuildInput) (d : AllowlistEntry)
    (host : string) (ip : option string) (resolved : bool) :
  wf_input input ->
  d ∈ bi_curated_entries input -> e_pattern d ∉ bi_disabled_curated_patterns input ->
  e_tier d = BuiltinDeny \/ e_tier d = ConfirmedDeny ->
  entry_hit host ip d = true ->
  (forall a, in_force input a -> e_tier a = CuratedAllow -> entry_hit host ip a = false) ->
  (evaluate_policy host ip resolved (entries (build_snapshot input))).1 = VDeny.
Proof.
  intros Hwf Hd Hdis Ht Hhit Hno.
  destruct (hard_denied_reflect host ip resolved) as [[_ [n ->]] | [Hh ->]]; [done|].
  pose proof (build_snapshot_sorted input) as Hs.
  pose proof (Decides_walk host ip resolved _ Hs Hh) as HD. revert HD.
  generalize (walk_entries host ip (entries (build_snapshot input))) as v. intros v HD.
  destruct HD as [| e _ Hin He Hmin | _ _]; [done | | done]. simpl.
  assert (d ∈ entries (build_snapshot input)) as Hdin by (apply build_snapshot_elem; left; done).
  pose proof (Hmin d Hdin Hhit) as Hle. unfold tier_le in Hle.
  pose proof (build_snapshot_wf _ Hwf) as Hall. rewrite Forall_forall in Hall.
  pose proof (Hall e Hin) as Hk. unfold wf_entry in Hk. rewrite Hk.
  apply build_snapshot_elem in Hin.
  destruct (e_tier e) eqn:Hte; try done.
  - by rewrite (Hno e Hin Hte) in He.
  - destruct Ht as [Ht|Ht]; rewrite Ht in Hle; simpl in Hle; lia.
Qed.

Definition sample_input : SnapshotBuildInput :=
  mkBuildInput "run-1" 0 [npm; workers] ∅ [my_worker] [].

Lemma user_rules_cannot_override_curated_deny_witness :
  (evaluate_policy "me.workers.dev" None false (entries (build_snapshot sample_input))).1 = VDeny.
Proof.
  apply (user_rules_cannot_override_curated_deny sample_input workers).
  - split_and!; by_decide.
  - by_decide.
  - by_decide.
  - by left.
  - by vm_compute.
  - intros a [[Ha _] | [Ha | Ha]].
    + unfold sample_input in Ha. simpl in Ha. intros Hc.
      apply elem_of_cons in Ha as [->|Ha]; [by vm_compute|].
      apply list_elem_of_singleton in Ha as ->. done.
    + apply list_elem_of_singleton in Ha as ->. done.
    + by apply elem_of_nil in Ha.
Defined.

(** The codec fails closed: bytes decode only to snapshots of the current
    schema; what [build_snapshot_bytes] writes reads back as the snapshot built,
    and the bytes of any other schema, the retired one included, are refused with
    the version they carry. *)
Theorem snapshot_codec_fails_closed `{SnapshotCodec} (input : SnapshotBuildInput) (s : Snapshot)
    (bytes b : string) (round_trip : codec_round_trips) :
  build_snapshot_bytes input = Ok bytes -> cbor_encode_snapshot s = Ok b ->
  decode bytes = Ok (build_snapshot input)
  /\ (schema_version s <> SCHEMA_V2 -> decode b = Err (SchemaVersionMismatch SCHEMA_V2 (schema_version s)))
  /\ (forall x y, decode x = Ok y -> schema_version y = SCHEMA_V2).
Proof.
  intros Hb Hs. unfold build_snapshot_bytes, encode in Hb.
  destruct (cbor_encode_snapshot (build_snapshot input)) as [b'|] eqn:Hc; simplify_eq/=.
  unfold decode. rewrite (round_trip _ _ Hc), (round_trip _ _ Hs). simpl. split_and!; [done | |].
  - intros Hne. by rewrite bool_decide_eq_false_2.
  - intros x y Hd. destruct (cbor_decode_snapshot x) as [z|]; [|done]. simpl in Hd.
    case_bool_decide; [|done]. by simplify_eq/=.
Qed.

(** A codec that knows the two default snapshots and one built snapshot. *)
Definition toy_codec : SnapshotCodec := {|
  cbor_encode_snapshot s :=
    if bool_decide (s = v1_default) then Ok "v1"
    else if bool_decide (s = build_snapshot sample_input) then Ok "built" else Err "unknown";
  cbor_decode_snapshot b :=
    if bool_decide (b = "v1") then Ok v1_default
    else if bool_decide (b = "built") then Ok (build_snapshot sample_input) else Err "unknown";
|}.

Lemma toy_codec_round_trips : @codec_round_trips toy_codec.
Proof. intros s b. simpl. repeat case_bool_decide; intros; simplify_eq; done. Qed.

Lemma snapshot_codec_fails_closed_witness :
  @decode toy_codec "v1" = Err (SchemaVersionMismatch SCHEMA_V2 SCHEMA_V1).
Proof.
  refine (proj1 (proj2 (@snapshot_codec_fails_closed toy_codec sample_input v1_default "built" "v1"
            toy_codec_round_trips _ _)) _); by vm_compute.
Defined.

(** Curated rules are validated whole: they load exactly when every entry has
    a reason and every suffix pattern starts with a dot and is at least six bytes
    long, each loaded entry's kind agrees with its tier, and a rejected file is
    reported at its first bad entry. *)
Theorem validate_entries_correct (es : list RawEntry) :
  match validate_entries es with
  | Ok out =>
      out = curated_entry <$> es /\ Forall wf_entry out
      /\ Forall (fun e => blank (e_reason e) = false
           /\ (e_match_type e = Suffix ->
                 starts_with (e_pattern e) "." = true /\ 6 <= String.length (e_pattern e))) out
      /\ Forall (fun e => e_tier e <> UserAllow /\ e_tier e <> UserDeny) out
  | Err err =>
      exists l e r l', es = l ++ e :: l' /\ Forall (fun x => raw_error x = None) l
        /\ raw_error e = Some r /\ err = InvalidPattern (length l) r
  end.
Proof.
  unfold validate_entries. destruct (validate_from 0 es) as [out|err] eqn:Hv.
  - apply validate_from_ok in Hv as [Hall ->]. split_and!; [done | ..]; apply Forall_fmap.
    + apply Forall_true. intros e. apply curated_entry_wf.
    + eapply Forall_impl; [exact Hall|]. intros e He. unfold raw_error in He. simpl.
      destruct (blank (raw_reason e)); [done|]. split; [done|]. intros Hs.
      rewrite bool_decide_eq_true_2 in He by done.
      destruct (starts_with (raw_pattern e) "."); [|done]. split; [done|]. simpl in He.
      case_bool_decide; [done|]. unfold MIN_SUFFIX_LEN in *. lia.
    + apply Forall_true. intros e. by destruct e as [[] ? ? ? [[]|]].
  - by apply validate_from_err in Hv.
Qed.
