(* ===== verification/Paths.v ===== *)
(** * File-system layout

    [crates/guard-core/src/paths.rs]: names, path builders and the resolution of
    the state directory, for the two platforms the constants distinguish. *)

From S2P Require Import Prelude RustStr.

(** [cfg(target_os)]. *)
Inductive Os : Type := MacOs | Linux.

#[export] Instance Os_eq_dec : EqDecision Os.
Proof. solve_decision. Defined.

Definition SYSTEM_STATE_DIR (os : Os) : string :=
  match os with
  | MacOs => "/Library/Application Support/Stentorian Guard"
  | Linux => "/var/lib/stt-guard"
  end.
Definition SYSTEM_LOG_DIR : string := "/var/log/stt-guard".
Definition SYSTEM_BIN_DIR : string := "/usr/local/libexec/stt-guard".
Definition DB_FILENAME : string := "stt-guard.db".
Definition SOCKET_FILENAME : string := "stt-guard-daemon.sock".
Definition READY_FILENAME : string := "daemon.ready".
Definition HOOK_HASH_FILENAME : string := "hook.sha256".
Definition TRUSTED_RULE_SIGNERS_FILENAME : string := "trusted-rule-signers.tsv".
Definition MANIFEST_FILENAME : string := "snapshot.manifest".
Definition WATCHDOG_STATE_FILENAME : string := "watchdog.state".
Definition RUNS_DIR_NAME : string := "runs".
Definition ENV_STATE_DIR : string := "STT_GUARD_STATE_DIR".
Definition ENV_SNAPSHOT_MANIFEST : string := "STT_GUARD_SNAPSHOT_MANIFEST".
Definition ENV_HOOK_INJECTION (os : Os) : string :=
  match os with MacOs => "DYLD_INSERT_LIBRARIES" | Linux => "LD_PRELOAD" end.

Definition db_path (state_dir : string) : string := path_join state_dir DB_FILENAME.
Definition socket_path (state_dir : string) : string := path_join state_dir SOCKET_FILENAME.
Definition ready_path (state_dir : string) : string := path_join state_dir READY_FILENAME.
Definition manifest_path (state_dir : string) : string := path_join state_dir MANIFEST_FILENAME.
Definition manifest_tmp_path (state_dir : string) : string :=
  path_join state_dir ("." +:+ MANIFEST_FILENAME +:+ ".tmp").
Definition hook_hash_path (state_dir : string) : string := path_join state_dir HOOK_HASH_FILENAME.
Definition trusted_rule_signers_path : string :=
  path_join SYSTEM_BIN_DIR TRUSTED_RULE_SIGNERS_FILENAME.
Definition watchdog_state_path (state_dir : string) : string :=
  path_join state_dir WATCHDOG_STATE_FILENAME.

Definition runs_dir (state_dir : string) : string := path_join state_dir RUNS_DIR_NAME.
Definition run_snapshot_path (state_dir run_uuid : string) : string :=
  path_join (runs_dir state_dir) (run_uuid +:+ ".cbor").
Definition run_snapshot_tmp_path (state_dir run_uuid : string) : string :=
  path_join (runs_dir state_dir) ("." +:+ run_uuid +:+ ".cbor.tmp").
Definition run_manifest_path (state_dir run_uuid : string) : string :=
  path_join (runs_dir state_dir) (run_uuid +:+ ".manifest").
Definition run_manifest_tmp_path (state_dir run_uuid : string) : string :=
  path_join (runs_dir state_dir) ("." +:+ run_uuid +:+ ".manifest.tmp").

Definition is_system_install (os : Os) (state_dir : string) : bool :=
  path_eq state_dir (SYSTEM_STATE_DIR os).

(** The environment of the process, [std::env::var_os]. *)
Definition Env : Type := gmap string string.

(** [linux_user_state_dir]; [None] is the panic of [expect]. *)
Definition linux_user_state_dir (home xdg_state_home : option string) : option string :=
  match xdg_state_home with
  | Some x =>
      if negb (is_empty x) then Some (path_join x "stt-guard")
      else (fun h => path_join h ".local/state/stt-guard") <$> home
  | None => (fun h => path_join h ".local/state/stt-guard") <$> home
  end.

Definition user_state_dir (os : Os) (env : Env) : option string :=
  match os with
  | MacOs => (fun h => path_join h "Library/Application Support/Stentorian Guard") <$> env !! "HOME"
  | Linux => linux_user_state_dir (env !! "HOME") (env !! "XDG_STATE_HOME")
  end.

Definition user_log_dir (os : Os) (env : Env) : option string :=
  match os with
  | MacOs => (fun h => path_join h "Library/Logs/Stentorian Guard") <$> env !! "HOME"
  | Linux => (fun d => path_join d "logs") <$> user_state_dir os env
  end.

(** [default_state_dir]; [exists_path] is the file system's [Path::exists]. *)
Definition default_state_dir (os : Os) (env : Env) (exists_path : string -> bool) : option string :=
  match env !! ENV_STATE_DIR with
  | Some dir => Some dir
  | None =>
      let sys := SYSTEM_STATE_DIR os in
      if exists_path sys then Some sys else user_state_dir os env
  end.

Definition log_dir_for_state (os : Os) (env : Env) (state_dir : string) : option string :=
  if is_system_install os state_dir then Some SYSTEM_LOG_DIR else user_log_dir os env.

(** ** Lemmas *)

Lemma app_inj_r_str (a b s : string) : a +:+ s = b +:+ s -> a = b.
Proof.
  revert b. induction a as [|x a IH]; intros b H.
  - destruct b as [|y b]; [done|]. apply (f_equal String.length) in H.
    rewrite !length_app_str in H. simpl in H. lia.
  - destruct b as [|y b].
    + apply (f_equal String.length) in H. rewrite !length_app_str in H. simpl in H. lia.
    + rewrite !app_cons_str in H. injection H as -> H. f_equal. auto.
Qed.

Lemma app_inj_l_str (s a b : string) : s +:+ a = s +:+ b -> a = b.
Proof. induction s as [|x s IH]; [done|]. rewrite !app_cons_str. intros [= H]. auto. Qed.

(** Two texts with suffixes of equal length agree on the suffixes. *)
Lemma app_suffix_eq (a b s t : string) :
  String.length s = String.length t -> a +:+ s = b +:+ t -> s = t.
Proof.
  intros Hl H. assert (String.length a = String.length b) as Hab.
  { apply (f_equal String.length) in H. rewrite !length_app_str in H. lia. }
  revert b H Hab. induction a as [|x a IH]; intros [|y b] H Hab; simpl in *; try lia; [done|].
  rewrite !app_cons_str in H. simplify_eq/=. eauto.
Qed.

(** A name that does not look absolute. *)
Definition relative (s : string) : Prop := path_is_absolute s = false.

Lemma path_join_inj (d a b : string) :
  relative a -> relative b -> path_join d a = path_join d b -> a = b.
Proof.
  unfold relative, path_join. intros -> ->. simpl.
  destruct (is_empty d); [done|]. destruct (ends_with d "/"); intros H.
  - by apply app_inj_l_str in H.
  - by apply app_inj_l_str, (app_inj_l_str "/") in H.
Qed.

Lemma relative_app (a b : string) : a <> "" -> relative a -> relative (a +:+ b).
Proof. destruct a as [|x a]; [done|]. intros _. unfold relative, path_is_absolute, starts_with.
  rewrite app_cons_str. simpl. by case_bool_decide. Qed.

Lemma relative_dot (a : string) : relative ("." +:+ a).
Proof. done. Qed.

#[export] Hint Resolve relative_app relative_dot : guard.

(** ** Properties *)

(** the artifacts of different runs never share a file: for run identifiers
    that are not absolute paths, the snapshot, the manifest and their temporary
    names are pairwise distinct, within a run and across runs. *)
Theorem run_artifact_paths_distinct (d u v : string) :
  u <> "" -> v <> "" -> relative u -> relative v ->
  (run_snapshot_path d u = run_snapshot_path d v -> u = v)
  /\ (run_manifest_path d u = run_manifest_path d v -> u = v)
  /\ run_snapshot_path d u <> run_manifest_path d v
  /\ run_snapshot_path d u <> run_snapshot_tmp_path d v
  /\ run_snapshot_path d u <> run_manifest_tmp_path d v
  /\ run_manifest_path d u <> run_snapshot_tmp_path d v
  /\ run_manifest_path d u <> run_manifest_tmp_path d v
  /\ run_snapshot_tmp_path d u <> run_manifest_tmp_path d v.
Proof.
  intros Hu Hv Ru Rv.
  unfold run_snapshot_path, run_manifest_path, run_snapshot_tmp_path, run_manifest_tmp_path.
  assert (forall a s b t : string, relative (a +:+ s) -> relative (b +:+ t) ->
    path_join (runs_dir d) (a +:+ s) = path_join (runs_dir d) (b +:+ t) -> a +:+ s = b +:+ t) as Hj.
  { intros a s b t Ha Hb H. by eapply path_join_inj. }
  assert (forall x : string, x +:+ ".cbor.tmp" = (x +:+ ".cbor") +:+ ".tmp") as Ec
    by (intros; by rewrite app_assoc_str).
  assert (forall x : string, x +:+ ".manifest.tmp" = (x +:+ ".manifest") +:+ ".tmp") as Em
    by (intros; by rewrite app_assoc_str).
  assert (forall x : string, x +:+ ".cbor" = (x +:+ ".") +:+ "cbor") as E4
    by (intros; by rewrite app_assoc_str).
  assert (forall x : string, x +:+ ".manifest" = (x +:+ ".mani") +:+ "fest") as E5
    by (intros; by rewrite app_assoc_str).
  split_and!; intros H; apply Hj in H; auto with guard.
  - by apply app_inj_r_str in H.
  - by apply app_inj_r_str in H.
  - rewrite E4, E5 in H. by apply app_suffix_eq in H.
  - rewrite E4 in H. rewrite <- (app_assoc_str "." v), Ec in H. by apply app_suffix_eq in H.
  - rewrite E4 in H. rewrite <- (app_assoc_str "." v), Em in H. by apply app_suffix_eq in H.
  - rewrite E5 in H. rewrite <- (app_assoc_str "." v), Ec in H. by apply app_suffix_eq in H.
  - rewrite E5 in H. rewrite <- (app_assoc_str "." v), Em in H. by apply app_suffix_eq in H.
  - rewrite <- !(app_assoc_str "."), Ec, Em in H. apply app_inj_r_str in H.
    rewrite E4, E5 in H. by apply app_suffix_eq in H.
Qed.

Lemma run_artifact_paths_distinct_witness :
  run_snapshot_path "/s" "a" = "/s/runs/a.cbor"
  /\ run_snapshot_path "/s" "a" <> run_manifest_tmp_path "/s" "b".
Proof.
  split; [by vm_compute|]. apply (run_artifact_paths_distinct "/s" "a" "b"); by vm_compute.
Defined.
