(* ===== verification/RuleStore.v ===== *)
(** * The rule store

    [crates/guard-daemon/src/rule_store.rs] over the tables of
    [crates/guard-daemon/migrations/*.sql].  A table is a finite map from its
    primary (or unique) key to the columns the code reads; the SQL engine and the
    file system that holds the trust root are the classes [SqlEngine] and
    [TrustFs].  A store operation takes the store and returns it with a result;
    mutex poisoning (a panic) and [debug_assert!] (absent from release builds) are
    left out. *)

From S2P Require Import Prelude RustStr RustNet Policy TrustedSigners Signature.
From S2P Require Import Paths.

(** ** The tables *)

Record RuleRow : Type := mkRuleRow {
  r_kind : string;
  r_match_type : string;
  r_pattern : string;
  r_reason : string;
  r_created_at : Z;
}.

Record SigRow : Type := mkSigRow {
  s_signature : RuleSignatureV1;
  s_origin : string;
  s_run_uuid : option string;
  s_payload_created_at : Z;
}.

Record SignerRow : Type := mkSignerRow {
  t_signer_kind : string;
  t_public_key_x963 : string;
  t_enrolled_at : Z;
  t_label : string;
}.

Record OverrideRow : Type := mkOverrideRow {
  o_disabled : Z;
  o_reason : string;
  o_created_at : Z;
}.

Record Db : Type := mkDb {
  rules : gmap Z RuleRow;
  rule_signatures : gmap Z SigRow;
  trusted_rule_signers : gmap string SignerRow;
  curated_overrides : gmap string OverrideRow;
}.

Definition empty_db : Db := mkDb ∅ ∅ ∅ ∅.

Record RuleStore : Type := mkStore {
  db : Db;
  trusted_signers_manifest_path : option string;
}.

#[export] Instance RuleRow_eq_dec : EqDecision RuleRow.
Proof. solve_decision. Defined.
#[export] Instance SigRow_eq_dec : EqDecision SigRow.
Proof. solve_decision. Defined.
#[export] Instance SignerRow_eq_dec : EqDecision SignerRow.
Proof. solve_decision. Defined.
#[export] Instance OverrideRow_eq_dec : EqDecision OverrideRow.
Proof. solve_decision. Defined.

Definition with_db (st : RuleStore) (d : Db) : RuleStore :=
  mkStore d (trusted_signers_manifest_path st).

(** The rows of a table keyed by an integer, [ORDER BY id]. *)
Definition sorted_ids {A} (m : gmap Z A) : list Z := merge_sort Z.le (elements (dom m)).

Definition rows_by_id {A} (m : gmap Z A) : list (Z * A) :=
  omap (fun id => (fun r => (id, r)) <$> m !! id) (sorted_ids m).

(** ** Errors *)

Inductive RuleStoreError : Type :=
| Sql (msg : string)
| Migrate (msg : string)
| Signature (msg : string).

#[export] Instance RuleStoreError_eq_dec : EqDecision RuleStoreError.
Proof. solve_decision. Defined.

(** The [Display] texts of the errors ([thiserror]). *)
Definition show_signature_error (e : RuleSignatureError) : string :=
  match e with
  | Encode m => "canonical payload encode failed: " +:+ m
  | UnsupportedPayloadSchema v => "unsupported rule signature payload schema: " +:+ pretty v
  | UnsupportedScheme s => "unsupported rule signature scheme: " +:+ s
  | UnsupportedSignerKind k => "unsupported rule signer kind: " +:+ k
  | PublicKeyHashMismatch => "public key hash mismatch"
  | PayloadHashMismatch => "signed payload hash mismatch"
  | InvalidPublicKey => "invalid public key"
  | InvalidSignatureEncoding => "invalid signature encoding"
  | SignatureMismatch => "signature mismatch"
  end.

Definition show_manifest_error (e : TrustedSignerManifestError) : string :=
  match e with
  | OddLengthPublicKeyHex => "trusted signer manifest contains odd-length public key hex"
  | InvalidPublicKeyHex => "trusted signer manifest contains invalid public key hex"
  end.

Definition show_store_error (e : RuleStoreError) : string :=
  match e with
  | Sql m => "sqlite: " +:+ m
  | Migrate m => "migrations: " +:+ m
  | Signature m => "rule signature: " +:+ m
  end.

(** ** The environment of the store *)

(** SQLite: every statement the store issues, named, may be refused by the engine
    with a message; [free_rowid] is the identifier it picks when the largest one is
    taken. *)
Class SqlEngine : Type := {
  sql_fault : string -> option string;
  free_rowid : gset Z -> option Z;
}.

Definition stmt `{SqlEngine} (name : string) : result unit RuleStoreError :=
  match sql_fault name with Some m => Err (Sql m) | None => Ok tt end.

(** Metadata of a path, [std::fs::symlink_metadata]. *)
Inductive FileKind : Type := RegularFile | Directory | OtherFile.

Record Metadata : Type := mkMeta {
  m_kind : FileKind;
  m_uid : N;
  m_gid : N;
  m_mode : N;
}.

#[export] Instance FileKind_eq_dec : EqDecision FileKind.
Proof. solve_decision. Defined.

Class TrustFs : Type := {
  symlink_metadata : string -> result Metadata string;
  read_to_string : string -> result string string;
}.

(** ** Identifiers: [INTEGER PRIMARY KEY] takes the largest rowid plus one *)

Definition max_id {A} (m : gmap Z A) : Z := foldr Z.max 0%Z (elements (dom m)).

Definition next_rowid `{SqlEngine} {A} (m : gmap Z A) : option Z :=
  if bool_decide (max_id m = I64_MAX) then free_rowid (dom m) else Some (max_id m + 1)%Z.

(** The [CHECK] constraints of [rules]. *)
Definition check_rule (kind match_type : string) : bool :=
  bool_decide (kind ∈ ["allow"; "deny"])
  && bool_decide (match_type ∈ ["exact"; "suffix"; "ip"]).

(** [INSERT INTO rules]: the new identifier and the table. *)
Definition insert_rule_row `{SqlEngine} (d : Db) (row : RuleRow) : result (Z * Db) RuleStoreError :=
  let? _ := stmt "insert rules" in
  if negb (check_rule (r_kind row) (r_match_type row)) then Err (Sql "CHECK constraint failed")
  else
    let? id := ok_or (next_rowid (rules d)) (Sql "database or disk is full") in
    Ok (id, mkDb (<[id := row]> (rules d)) (rule_signatures d) (trusted_rule_signers d)
              (curated_overrides d)).

Section Store.
Context `{SqlEngine, TrustFs, Crypto}.

(** [RuleStore::open] on the tables [d] the file holds after the migrations (an
    empty set of tables for a new file). *)
Definition open (os : Os) (db_file : string) (d : Db) : result RuleStore RuleStoreError :=
  let? _ := stmt "open" in
  let? _ := map_err (fun e => Migrate (show_store_error e)) (stmt "migrate") in
  let? _ := map_err (fun e => Migrate ("foreign_keys pragma: " +:+ show_store_error e))
              (stmt "pragma foreign_keys") in
  let? _ := map_err (fun e => Migrate ("WAL pragma: " +:+ show_store_error e))
              (stmt "pragma journal_mode") in
  let? _ := map_err (fun e => Migrate ("verify WAL: " +:+ show_store_error e))
              (stmt "query journal_mode") in
  let? _ := stmt "open reader" in
  let? _ := map_err (fun e => Migrate ("reader foreign_keys pragma: " +:+ show_store_error e))
              (stmt "reader pragma foreign_keys") in
  Ok (mkStore d
        (match path_parent db_file with
         | Some p => if path_eq p (SYSTEM_STATE_DIR os) then Some trusted_rule_signers_path else None
         | None => None
         end)).

(** ** Writing rules *)

Definition insert_user_rule (st : RuleStore) (now : Z) (kind match_type pattern reason : string)
  : RuleStore * result Z RuleStoreError :=
  match insert_rule_row (db st) (mkRuleRow kind match_type pattern reason now) with
  | Ok (id, d) => (with_db st d, Ok id)
  | Err e => (st, Err e)
  end.

(** The transaction body; a failure anywhere rolls everything back. *)
Definition insert_signed_tx (d : Db) (p : RuleSignaturePayloadV1) (s : RuleSignatureV1)
  : result (Z * Db) RuleStoreError :=
  let? _ := stmt "begin" in
  let? idd := insert_rule_row d (mkRuleRow (rp_kind p) (rp_match_type p) (rp_pattern p)
                                   (rp_reason p) (rp_created_at_unix_ms p)) in
  let '(rule_id, d1) := idd in
  let? _ := stmt "insert rule_signatures" in
  match rule_signatures d1 !! rule_id with
  | Some _ => Err (Sql "UNIQUE constraint failed")
  | None =>
      let d2 := mkDb (rules d1)
        (<[rule_id := mkSigRow s (rp_origin p) (rp_run_uuid p) (rp_created_at_unix_ms p)]>
           (rule_signatures d1))
        (trusted_rule_signers d1) (curated_overrides d1) in
      let? _ := stmt "commit" in
      Ok (rule_id, d2)
  end.

Definition insert_signed_user_rule (st : RuleStore) (p : RuleSignaturePayloadV1)
    (s : RuleSignatureV1) : RuleStore * result Z RuleStoreError :=
  match insert_signed_tx (db st) p s with
  | Ok (id, d) => (with_db st d, Ok id)
  | Err e => (st, Err e)
  end.

(** ** Trusted signers *)

Definition register_trusted_rule_signer_key (st : RuleStore) (now : Z)
    (sha kind key label : string) : RuleStore * result unit RuleStoreError :=
  match stmt "insert trusted_rule_signers" with
  | Err e => (st, Err e)
  | Ok _ =>
      let d := db st in
      (with_db st (mkDb (rules d) (rule_signatures d)
         (<[sha := mkSignerRow kind key now label]> (trusted_rule_signers d))
         (curated_overrides d)), Ok tt)
  end.

Definition register_trusted_rule_signer (st : RuleStore) (now : Z) (s : RuleSignatureV1)
    (label : string) : RuleStore * result unit RuleStoreError :=
  register_trusted_rule_signer_key st now (sig_public_key_sha256 s) (sig_signer_kind s)
    (sig_public_key_x963 s) label.

Definition unsafe_owner (m : Metadata) : bool :=
  negb (bool_decide (m_uid m = 0%N)) || negb (bool_decide (m_gid m = 0%N))
  || negb (bool_decide (N.land (m_mode m) 18 = 0%N)).

Definition show_owner (path : string) (m : Metadata) : string :=
  path +:+ " uid=" +:+ pretty (m_uid m) +:+ " gid=" +:+ pretty (m_gid m)
  +:+ " mode=" +:+ octal (N.land (m_mode m) 511).

Definition verify_trusted_manifest_path (path : string) : result unit RuleStoreError :=
  let? meta := map_err (fun e => Signature ("trusted signer manifest metadata unreadable at "
                                            +:+ path +:+ ": " +:+ e)) (symlink_metadata path) in
  if negb (bool_decide (m_kind meta = RegularFile))
    then Err (Signature ("trusted signer manifest is not a regular file: " +:+ path))
  else if unsafe_owner meta
    then Err (Signature ("trusted signer manifest has unsafe ownership or permissions: "
                         +:+ show_owner path meta))
  else
    let? parent := ok_or (path_parent path)
      (Signature ("trusted signer manifest has no parent directory: " +:+ path)) in
    let? parent_meta := map_err (fun e => Signature
        ("trusted signer manifest parent metadata unreadable at " +:+ parent +:+ ": " +:+ e))
      (symlink_metadata parent) in
    if negb (bool_decide (m_kind parent_meta = Directory))
      then Err (Signature ("trusted signer manifest parent is not a directory: " +:+ parent))
    else if unsafe_owner parent_meta
      then Err (Signature ("trusted signer manifest parent has unsafe ownership or permissions: "
                           +:+ show_owner parent parent_meta))
    else Ok tt.

Definition trusted_manifest_contains (st : RuleStore) (sha kind : string) (key : option string)
  : result bool RuleStoreError :=
  match trusted_signers_manifest_path st with
  | None => Ok true
  | Some path =>
      let? _ := verify_trusted_manifest_path path in
      let? contents := map_err (fun e => Signature ("trusted signer manifest unreadable at "
                                                    +:+ path +:+ ": " +:+ e)) (read_to_string path) in
      map_err (fun e => Signature (show_manifest_error e))
        (trusted_signer_matches contents sha kind key)
  end.

(** [SELECT COUNT( * ) FROM trusted_rule_signers WHERE ...]; the fingerprint is the
    primary key, so the count is zero or one. *)
Definition count_signers (d : Db) (sha kind : string) : Z :=
  match trusted_rule_signers d !! sha with
  | Some row => if bool_decide (t_signer_kind row = kind) then 1 else 0
  | None => 0
  end.

Definition count_signer_keys (d : Db) (sha kind key : string) : Z :=
  match trusted_rule_signers d !! sha with
  | Some row =>
      if bool_decide (t_signer_kind row = kind) && bool_decide (t_public_key_x963 row = key)
      then 1 else 0
  | None => 0
  end.

Definition is_trusted_rule_signer (st : RuleStore) (sha kind : string)
  : result bool RuleStoreError :=
  let? _ := stmt "count trusted_rule_signers" in
  if negb (bool_decide (count_signers (db st) sha kind = 1%Z)) then Ok false
  else trusted_manifest_contains st sha kind None.

Definition trusted_signer_db_matches (st : RuleStore) (sha kind key_hex : string)
  : result bool RuleStoreError :=
  let? public_key := map_err (fun e => Signature (show_manifest_error e)) (decode_hex key_hex) in
  let? _ := stmt "count trusted_rule_signers" in
  Ok (bool_decide (count_signer_keys (db st) sha kind public_key = 1%Z)).

(** ** Reading rules *)

Definition parse_rule_kind (kind : string) : result RuleKind RuleStoreError :=
  if bool_decide (kind = "allow") then Ok Allow
  else if bool_decide (kind = "deny") then Ok Deny
  else Err (Signature ("invalid kind: " +:+ kind)).

Definition parse_match_type (match_type : string) : result MatchType RuleStoreError :=
  if bool_decide (match_type = "exact") then Ok Exact
  else if bool_decide (match_type = "suffix") then Ok Suffix
  else if bool_decide (match_type = "ip") then Ok Ip
  else Err (Signature ("invalid match_type: " +:+ match_type)).

Definition user_tier (k : RuleKind) : RuleTier :=
  match k with Allow => UserAllow | Deny => UserDeny end.

Definition count_user_rules (st : RuleStore) : result Z RuleStoreError :=
  let? _ := stmt "count rules" in Ok (Z.of_nat (size (rules (db st)))).

(** The row mapper of [all_user_rules]: conversion failures are SQL errors. *)
Definition user_rule_entry (row : RuleRow) : result AllowlistEntry RuleStoreError :=
  let? kind := map_err (fun _ => Sql ("invalid kind: " +:+ r_kind row))
                 (parse_rule_kind (r_kind row)) in
  let? mt := map_err (fun _ => Sql ("invalid match_type: " +:+ r_match_type row))
               (parse_match_type (r_match_type row)) in
  Ok (mkEntry kind (user_tier kind) mt (r_pattern row) (r_reason row)).

Definition all_user_rules (st : RuleStore) : result (list AllowlistEntry) RuleStoreError :=
  let? _ := stmt "select rules" in
  collect_results ((fun '(_, row) => user_rule_entry row) <$> rows_by_id (rules (db st))).

(** The payload a stored row stands for. *)
Definition row_payload (row : RuleRow) (sg : SigRow) : RuleSignaturePayloadV1 :=
  new_rule_payload (r_kind row) (r_match_type row) (r_pattern row) (r_reason row)
    (r_created_at row) (s_origin sg) (s_run_uuid sg).

Definition verify_rule_signer_trusted (st : RuleStore) (s : RuleSignatureV1)
  : result unit RuleStoreError :=
  let? _ := stmt "count trusted_rule_signers" in
  let untrusted := Err (Signature ("untrusted rule signer: " +:+ sig_public_key_sha256 s)) in
  if bool_decide (count_signers (db st) (sig_public_key_sha256 s) (sig_signer_kind s) = 1%Z) then
    let? contained := trusted_manifest_contains st (sig_public_key_sha256 s) (sig_signer_kind s)
                        (Some (sig_public_key_x963 s)) in
    if (contained : bool) then Ok tt else untrusted
  else untrusted.

Definition verify_user_rule_row (st : RuleStore) (policy : RuleSignaturePolicy)
    (row : RuleRow) (sg : SigRow) : result AllowlistEntry RuleStoreError :=
  if negb (bool_decide (r_created_at row = s_payload_created_at sg))
    then Err (Signature "rule created_at does not match signed payload")
  else
    let? _ := map_err (fun e => Signature (show_signature_error e))
                (verify_rule_signature (row_payload row sg) (s_signature sg) policy) in
    let? _ := verify_rule_signer_trusted st (s_signature sg) in
    let? kind := parse_rule_kind (r_kind row) in
    let? match_type := parse_match_type (r_match_type row) in
    Ok (mkEntry kind (user_tier kind) match_type (r_pattern row) (r_reason row)).

(** The join of [rules] and [rule_signatures] on the identifier, [ORDER BY r.id]. *)
Definition joined_rows (d : Db) : list (RuleRow * SigRow) :=
  omap (fun '(id, row) => (fun sg => (row, sg)) <$> rule_signatures d !! id) (rows_by_id (rules d)).

(** [LEFT JOIN n ... WHERE n.id IS NULL]: the rows of [m] with no row in [n]. *)
Definition missing_in {A B} (m : gmap Z A) (n : gmap Z B) : gmap Z A :=
  filter (fun '(id, _) => n !! id = None) m.

Definition all_verified_user_rules (st : RuleStore) (policy : RuleSignaturePolicy)
  : result (list AllowlistEntry) RuleStoreError :=
  let d := db st in
  let? _ := stmt "select unsigned" in
  match sorted_ids (missing_in (rules d) (rule_signatures d)) with
  | id :: _ => Err (Signature ("unsigned user rule present: rule_id=" +:+ pretty id))
  | [] =>
      let? _ := stmt "select orphan" in
      match sorted_ids (missing_in (rule_signatures d) (rules d)) with
      | id :: _ => Err (Signature ("orphan rule signature present: rule_id=" +:+ pretty id))
      | [] =>
          let? _ := stmt "count rules" in
          let total_rules := size (rules d) in
          let? _ := stmt "select verified" in
          let? out := collect_results
            ((fun '(row, sg) => verify_user_rule_row st policy row sg) <$> joined_rows d) in
          if negb (bool_decide (length out = total_rules))
            then Err (Signature ("verified user rule count mismatch: verified="
                       +:+ pretty (length out) +:+ ", rules=" +:+ pretty total_rules))
          else Ok out
      end
  end.

(** ** Rules for display, curated overrides, queries *)

Record StoredRule : Type := mkStored {
  st_source : string;
  st_kind : string;
  st_match_type : string;
  st_pattern : string;
  st_reason : string;
}.

Definition all_rules_with_source (st : RuleStore) : result (list StoredRule) RuleStoreError :=
  let? _ := stmt "select rules" in
  Ok ((fun '(_, row) => mkStored "user" (r_kind row) (r_match_type row) (r_pattern row)
         (r_reason row)) <$> rows_by_id (rules (db st))).

Definition set_overrides (st : RuleStore) (o : gmap string OverrideRow) : RuleStore :=
  let d := db st in
  with_db st (mkDb (rules d) (rule_signatures d) (trusted_rule_signers d) o).

Definition disable_curated_rule (st : RuleStore) (now : Z) (pattern reason : string)
  : RuleStore * result unit RuleStoreError :=
  match stmt "insert curated_overrides" with
  | Err e => (st, Err e)
  | Ok _ => (set_overrides st (<[pattern := mkOverrideRow 1 reason now]> (curated_overrides (db st))),
             Ok tt)
  end.

Definition enable_curated_rule (st : RuleStore) (pattern : string)
  : RuleStore * result bool RuleStoreError :=
  match stmt "delete curated_overrides" with
  | Err e => (st, Err e)
  | Ok _ =>
      let deleted := match curated_overrides (db st) !! pattern with Some _ => 1 | None => 0 end in
      (set_overrides st (delete pattern (curated_overrides (db st))), Ok (bool_decide (0 < deleted)))
  end.

Definition disabled_curated_patterns (st : RuleStore) : result (gset string) RuleStoreError :=
  let? _ := stmt "select curated_overrides" in
  Ok (dom (filter (fun '(_, o) => o_disabled o = 1%Z) (curated_overrides (db st)))).

Definition has_user_allow_for (st : RuleStore) (pattern : string) : result bool RuleStoreError :=
  let? _ := stmt "count rules" in
  Ok (bool_decide (0 < size (filter (fun '(_, r) => r_kind r = "allow" /\ r_pattern r = pattern)
                               (rules (db st))))).

(** ** The signing status *)

Record RuleSigningStatus : Type := mkSigningStatus {
  ss_configured : bool;
  ss_status : string;
  ss_signer_kind : option string;
  ss_fingerprint : option string;
  ss_trust_root_path : option string;
  ss_trust_root_ok : bool;
  ss_reason : option string;
  ss_action : option string;
}.

Definition rule_signing_status_no_trust_root : RuleSigningStatus :=
  mkSigningStatus false "not-configured" None None None false
    (Some "system trusted signer manifest is unavailable for this state directory")
    (Some "run the installer on a supported OS-backed signing platform").

Definition rule_signing_status_invalid_trust_root (path : option string) (reason : string) :=
  mkSigningStatus false "invalid" None None path false (Some reason)
    (Some "rerun the installer to repair signer enrollment").

Definition rule_signing_status_manifest_has_no_signers (path : option string) :=
  mkSigningStatus false "not-configured" None None path true
    (Some "trusted signer manifest contains no signer entries")
    (Some "run the installer to enroll an OS-backed signer").

Definition rule_signing_status_cache_mismatch (path : option string) (s : TrustedSigner) :=
  mkSigningStatus false "invalid" (Some (ts_signer_kind s)) (Some (ts_public_key_sha256 s)) path true
    (Some "trusted signer manifest does not match daemon signer cache")
    (Some "rerun the installer to repair signer enrollment").

Definition read_trusted_manifest_contents (path : string) : result string string :=
  map_err (fun e => "trusted signer manifest unreadable: " +:+ e) (read_to_string path).

Definition rule_signing_status (st : RuleStore) : RuleSigningStatus :=
  match trusted_signers_manifest_path st with
  | None => rule_signing_status_no_trust_root
  | Some path =>
      let trust_root_path := Some path in
      match verify_trusted_manifest_path path with
      | Err e => rule_signing_status_invalid_trust_root trust_root_path (show_store_error e)
      | Ok _ =>
          match read_trusted_manifest_contents path with
          | Err reason => rule_signing_status_invalid_trust_root trust_root_path reason
          | Ok contents =>
              match first_trusted_signer contents with
              | Err e => rule_signing_status_invalid_trust_root trust_root_path
                           (show_manifest_error e)
              | Ok None => rule_signing_status_manifest_has_no_signers trust_root_path
              | Ok (Some signer) =>
                  let db_matches := unwrap_or
                    (trusted_signer_db_matches st (ts_public_key_sha256 signer)
                       (ts_signer_kind signer) (ts_public_key_x963_hex signer)) false in
                  if negb db_matches then rule_signing_status_cache_mismatch trust_root_path signer
                  else mkSigningStatus true "configured" (Some (ts_signer_kind signer))
                         (Some (ts_public_key_sha256 signer)) trust_root_path true None None
              end
          end
      end
  end.

End Store.

(** ** Lemmas: tables *)

Lemma elem_of_sorted_ids {A} (m : gmap Z A) (k : Z) : k ∈ sorted_ids m <-> is_Some (m !! k).
Proof.
  unfold sorted_ids. rewrite merge_sort_Permutation, elem_of_elements. apply elem_of_dom.
Qed.

Lemma sorted_ids_sorted {A} (m : gmap Z A) : StronglySorted Z.le (sorted_ids m).
Proof. unfold sorted_ids. apply (StronglySorted_merge_sort _). Qed.

Lemma sorted_ids_nil {A} (m : gmap Z A) : sorted_ids m = [] <-> m = ∅.
Proof.
  split.
  - intros Hs. apply map_empty. intros k. destruct (m !! k) as [x|] eqn:Hk; [|done].
    assert (k ∈ sorted_ids m) as Hin by (apply elem_of_sorted_ids; eauto).
    rewrite Hs in Hin. by apply elem_of_nil in Hin.
  - intros ->. done.
Qed.

Lemma elem_of_rows_by_id {A} (m : gmap Z A) (k : Z) (r : A) :
  (k, r) ∈ rows_by_id m <-> m !! k = Some r.
Proof.
  unfold rows_by_id. rewrite list_elem_of_omap. split.
  - intros (k' & _ & Hk). destruct (m !! k') eqn:E; simplify_eq/=. done.
  - intros Hk. exists k. rewrite elem_of_sorted_ids, Hk. eauto.
Qed.

Lemma length_rows_by_id {A} (m : gmap Z A) : length (rows_by_id m) = size m.
Proof.
  assert (forall l, Forall (fun k => is_Some (m !! k)) l ->
    length (omap (fun id => (fun r => (id, r)) <$> m !! id) l) = length l) as Hl.
  { induction 1 as [|k l [x Hx] Hl IH]; [done|]. simpl. rewrite Hx. simpl. f_equal. apply IH. }
  unfold rows_by_id. rewrite Hl.
  - unfold sorted_ids. rewrite merge_sort_Permutation, <- size_dom. done.
  - apply Forall_forall. intros k. apply elem_of_sorted_ids.
Qed.

Lemma max_id_ge {A} (m : gmap Z A) (k : Z) : is_Some (m !! k) -> (k <= max_id m)%Z.
Proof.
  intros Hk. apply elem_of_dom in Hk. apply elem_of_elements in Hk. unfold max_id.
  induction Hk as [|k y l Hk IH]; simpl; lia.
Qed.

Lemma max_id_fresh {A} (m : gmap Z A) (k : Z) : (max_id m < k)%Z -> m !! k = None.
Proof.
  intros Hk. destruct (m !! k) eqn:E; [|done].
  assert (k <= max_id m)%Z by (apply max_id_ge; eauto). lia.
Qed.

(** A row with an identifier above all others comes last. *)
Lemma sorted_ids_insert {A} (m : gmap Z A) (k : Z) (x : A) :
  (max_id m < k)%Z -> sorted_ids (<[k := x]> m) = sorted_ids m ++ [k].
Proof.
  intros Hk. pose proof (max_id_fresh m k Hk) as Hn.
  apply (StronglySorted_unique Z.le).
  - apply sorted_ids_sorted.
  - apply StronglySorted_app. split_and!.
    + intros a b Ha%elem_of_sorted_ids Hb%list_elem_of_singleton. subst.
      apply max_id_ge in Ha. lia.
    + apply sorted_ids_sorted.
    + repeat constructor.
  - unfold sorted_ids. rewrite !merge_sort_Permutation, dom_insert_L.
    rewrite elements_union_singleton by (by apply not_elem_of_dom). by rewrite Permutation_app_comm.
Qed.

Lemma rows_by_id_insert {A} (m : gmap Z A) (k : Z) (x : A) :
  (max_id m < k)%Z -> rows_by_id (<[k := x]> m) = rows_by_id m ++ [(k, x)].
Proof.
  intros Hk. unfold rows_by_id. rewrite sorted_ids_insert, omap_app by done. f_equal.
  - assert (forall l, Forall (fun i => i <> k) l ->
      omap (fun id => (fun r => (id, r)) <$> <[k:=x]> m !! id) l
      = omap (fun id => (fun r => (id, r)) <$> m !! id) l) as Hl.
    { induction 1 as [|i l Hi Hl IH]; [done|]. simpl. rewrite lookup_insert_ne by done.
      destruct (m !! i); simpl; [f_equal|]; apply IH. }
    apply Hl, Forall_forall. intros i Hi%elem_of_sorted_ids%max_id_ge. lia.
  - simpl. by rewrite lookup_insert_eq.
Qed.

#[export] Hint Resolve max_id_ge max_id_fresh : guard.

(** ** Lemmas: verification of stored rules *)

Section StoreFacts.
Context `{SqlEngine, TrustFs, Crypto}.

(** The signer of [s] is enrolled in the database and, on a system install, listed
    with its key in a manifest only root can have written. *)
Definition signer_trusted (st : RuleStore) (s : RuleSignatureV1) : Prop :=
  (exists row, trusted_rule_signers (db st) !! sig_public_key_sha256 s = Some row
               /\ t_signer_kind row = sig_signer_kind s)
  /\ match trusted_signers_manifest_path st with
     | None => True
     | Some path =>
         verify_trusted_manifest_path path = Ok tt
         /\ exists contents line text, read_to_string path = Ok contents
              /\ line ∈ lines contents
              /\ signer_fields line = Some (sig_public_key_sha256 s, sig_signer_kind s, text)
              /\ decode_hex text = Ok (sig_public_key_x963 s)
     end.

(** A stored rule that may enter a snapshot, as [e]. *)
Record RuleVerified (st : RuleStore) (policy : RuleSignaturePolicy) (row : RuleRow) (sg : SigRow)
    (e : AllowlistEntry) : Prop := {
  rv_signed : verify_rule_signature (row_payload row sg) (s_signature sg) policy = Ok tt;
  rv_created : r_created_at row = s_payload_created_at sg;
  rv_trusted : signer_trusted st (s_signature sg);
  rv_kind : parse_rule_kind (r_kind row) = Ok (e_kind e);
  rv_match : parse_match_type (r_match_type row) = Ok (e_match_type e);
  rv_pattern : e_pattern e = r_pattern row /\ e_reason e = r_reason row;
  rv_tier : e_tier e = user_tier (e_kind e);
}.

Lemma verify_rule_signer_trusted_sound (st : RuleStore) (s : RuleSignatureV1) :
  verify_rule_signer_trusted st s = Ok tt -> signer_trusted st s.
Proof.
  unfold verify_rule_signer_trusted, count_signers, signer_trusted, trusted_manifest_contains.
  destruct (stmt _) as [[]|]; [|done].
  destruct (trusted_rule_signers (db st) !! sig_public_key_sha256 s) as [row|]; [|done].
  case_bool_decide as Hn; [|done]. case_bool_decide as Hk; [|done].
  intros Hc. split; [by exists row|].
  destruct (trusted_signers_manifest_path st) as [path|]; [|done].
  destruct (verify_trusted_manifest_path path) as [[]|] eqn:Hv; [|done].
  destruct (read_to_string path) as [contents|] eqn:Hr; [|done]. simpl in Hc.
  destruct (trusted_signer_matches _ _ _ _) as [[]|] eqn:Hm; try done.
  split; [done|].
  assert (exists signers, parse_trusted_signers contents = Ok signers) as [signers Hp].
  { unfold trusted_signer_matches in Hm. destruct (parse_trusted_signers contents); [eauto | done]. }
  destruct (proj1 (trusted_signer_matches_spec _ _ _ _ _ Hp) Hm) as (line & text & ? & ? & ?).
  by exists contents, line, text.
Qed.

Lemma verify_user_rule_row_ok (st : RuleStore) (policy : RuleSignaturePolicy) (row : RuleRow)
    (sg : SigRow) (e : AllowlistEntry) :
  verify_user_rule_row st policy row sg = Ok e -> RuleVerified st policy row sg e.
Proof.
  unfold verify_user_rule_row. case_bool_decide as Hc; [|done]. simpl.
  destruct (verify_rule_signature _ _ _) as [[]|] eqn:Hs; [|done]. simpl.
  destruct (verify_rule_signer_trusted _ _) as [[]|] eqn:Ht; [|done].
  destruct (parse_rule_kind _) as [k|] eqn:Hk; [|done].
  destruct (parse_match_type _) as [m|] eqn:Hm; [|done].
  intros [= <-]. constructor; simpl; auto using verify_rule_signer_trusted_sound.
Qed.

Lemma collect_results_map {A B E} (f : A -> result B E) (l : list A) (out : list B) :
  collect_results (f <$> l) = Ok out <-> Forall2 (fun a b => f a = Ok b) l out.
Proof. rewrite collect_results_ok, Forall2_fmap_l. done. Qed.

(** Every rule has a signature: the join loses nothing. *)
Lemma joined_rows_total (d : Db) :
  (forall id, is_Some (rules d !! id) -> is_Some (rule_signatures d !! id)) ->
  Forall2 (fun '(id, row) '(row', sg) => row = row' /\ rule_signatures d !! id = Some sg)
    (rows_by_id (rules d)) (joined_rows d).
Proof.
  intros Htot. unfold joined_rows.
  assert (forall l : list (Z * RuleRow), (forall id row, (id, row) ∈ l -> is_Some (rule_signatures d !! id)) ->
    Forall2 (fun '(id, row) '(row', sg) => row = row' /\ rule_signatures d !! id = Some sg) l
      (omap (fun '(id, row) => (fun sg => (row, sg)) <$> rule_signatures d !! id) l)) as Hl.
  { induction l as [|[id row] l IH]; intros Hin; [constructor|]. simpl.
    destruct (Hin id row) as [sg Hsg]; [set_solver|]. rewrite Hsg. simpl.
    constructor; [done|]. apply IH. intros i r Hi. apply (Hin i r). set_solver. }
  apply Hl. intros id row Hin%elem_of_rows_by_id. apply Htot. eauto.
Qed.

Lemma filter_none_empty {A B} (m : gmap Z A) (n : gmap Z B) :
  sorted_ids (missing_in m n) = []
  <-> forall id, is_Some (m !! id) -> is_Some (n !! id).
Proof.
  unfold missing_in. rewrite sorted_ids_nil, map_empty. split.
  - intros He id [x Hx]. specialize (He id). rewrite map_lookup_filter_None in He.
    destruct (n !! id) as [y|] eqn:Hy; [eauto|]. destruct He as [He|He]; [congruence|].
    by destruct (He x Hx).
  - intros Hs id. apply map_lookup_filter_None. destruct (m !! id) as [x|] eqn:Hx; [right|by left].
    intros y _ Hn. destruct (Hs id) as [z Hz]; [eauto|]. congruence.
Qed.

Lemma all_verified_ok (st : RuleStore) (policy : RuleSignaturePolicy) (out : list AllowlistEntry) :
  all_verified_user_rules st policy = Ok out ->
  (forall id, is_Some (rules (db st) !! id) <-> is_Some (rule_signatures (db st) !! id))
  /\ Forall2 (fun '(row, sg) e => verify_user_rule_row st policy row sg = Ok e)
       (joined_rows (db st)) out.
Proof.
  unfold all_verified_user_rules. destruct (stmt "select unsigned"); [|done].
  destruct (sorted_ids (missing_in (rules (db st)) _)) eqn:Hu; [|done].
  destruct (stmt "select orphan"); [|done].
  destruct (sorted_ids (missing_in (rule_signatures (db st)) _)) eqn:Ho; [|done].
  destruct (stmt "count rules"); [|done]. destruct (stmt "select verified"); [|done].
  rewrite filter_none_empty in Hu. rewrite filter_none_empty in Ho.
  destruct (collect_results _) as [out'|] eqn:Hc; [|done].
  case_bool_decide; [|done]. intros [= <-]. apply collect_results_map in Hc.
  split; [split; auto|]. eapply Forall2_impl; [exact Hc|]. by intros [row sg] e.
Qed.

Lemma all_verified_intro (st : RuleStore) (policy : RuleSignaturePolicy) (out : list AllowlistEntry) :
  (forall n, sql_fault n = None) ->
  (forall id, is_Some (rules (db st) !! id) <-> is_Some (rule_signatures (db st) !! id)) ->
  Forall2 (fun '(row, sg) e => verify_user_rule_row st policy row sg = Ok e)
    (joined_rows (db st)) out ->
  all_verified_user_rules st policy = Ok out.
Proof.
  intros Hf Hid Hall. unfold all_verified_user_rules.
  assert (forall n, stmt n = Ok tt) as Hst by (intros n; unfold stmt; by rewrite Hf).
  rewrite !Hst.
  rewrite (proj2 (filter_none_empty (rules (db st)) (rule_signatures (db st))))
    by (intros ? ?; by apply Hid).
  rewrite (proj2 (filter_none_empty (rule_signatures (db st)) (rules (db st))))
    by (intros ? ?; by apply Hid).
  assert (collect_results ((fun '(row, sg) => verify_user_rule_row st policy row sg)
            <$> joined_rows (db st)) = Ok out) as ->.
  { apply collect_results_map. eapply Forall2_impl; [exact Hall|]. by intros [? ?] ?. }
  rewrite bool_decide_eq_true_2; [done|].
  rewrite <- (Forall2_length _ _ _ Hall), <- length_rows_by_id.
  symmetry. eapply Forall2_length. apply joined_rows_total. intros id. apply Hid.
Qed.

(** Verification of a row reads the trust tables and the manifest path only. *)
Lemma verify_user_rule_row_ext (st st' : RuleStore) (policy : RuleSignaturePolicy)
    (row : RuleRow) (sg : SigRow) :
  trusted_rule_signers (db st) = trusted_rule_signers (db st') ->
  trusted_signers_manifest_path st = trusted_signers_manifest_path st' ->
  verify_user_rule_row st policy row sg = verify_user_rule_row st' policy row sg.
Proof.
  intros Ht Hp. unfold verify_user_rule_row, verify_rule_signer_trusted,
    trusted_manifest_contains, count_signers. by rewrite Ht, Hp.
Qed.

Lemma insert_rule_row_ok (d d' : Db) (row : RuleRow) (id : Z) :
  insert_rule_row d row = Ok (id, d') ->
  check_rule (r_kind row) (r_match_type row) = true
  /\ next_rowid (rules d) = Some id
  /\ d' = mkDb (<[id := row]> (rules d)) (rule_signatures d) (trusted_rule_signers d)
            (curated_overrides d).
Proof.
  unfold insert_rule_row. destruct (stmt _); [|done].
  destruct (check_rule _ _); [|done]. simpl.
  destruct (next_rowid (rules d)); [|done]. simpl. by intros [= -> <-].
Qed.

Lemma check_rule_parse (kind match_type : string) :
  check_rule kind match_type = true ->
  exists k m, parse_rule_kind kind = Ok k /\ parse_match_type match_type = Ok m.
Proof.
  unfold check_rule. intros Hc. bool_split. unfold parse_rule_kind, parse_match_type.
  repeat match goal with Hin : _ ∈ _ :: _ |- _ => apply elem_of_cons in Hin as [->|Hin]
    | Hin : _ ∈ [] |- _ => by apply elem_of_nil in Hin end; vm_compute; eauto.
Qed.

Lemma omap_lookup_insert_ne {A} (m : gmap Z A) (k : Z) (x : A) (l : list (Z * RuleRow)) :
  Forall (fun '(i, _) => i <> k) l ->
  omap (fun '(id, row) => (fun sg => (row, sg)) <$> <[k := x]> m !! id) l
  = omap (fun '(id, row) => (fun sg => (row, sg)) <$> m !! id) l.
Proof.
  induction 1 as [|[i r] l Hi Hl IH]; [done|]. simpl. rewrite lookup_insert_ne by done.
  destruct (m !! i); simpl; [f_equal|]; apply IH.
Qed.

Lemma joined_rows_insert (d : Db) (k : Z) (row : RuleRow) (sg : SigRow) t o :
  (max_id (rules d) < k)%Z ->
  joined_rows (mkDb (<[k := row]> (rules d)) (<[k := sg]> (rule_signatures d)) t o)
  = joined_rows d ++ [(row, sg)].
Proof.
  intros Hk. unfold joined_rows. simpl. rewrite rows_by_id_insert, omap_app by done. f_equal.
  - apply omap_lookup_insert_ne, Forall_forall. intros [i r] Hi.
    apply elem_of_rows_by_id in Hi. assert (i <= max_id (rules d))%Z by eauto with guard. lia.
  - simpl. by rewrite lookup_insert_eq.
Qed.

Lemma verified_schema (p : RuleSignaturePayloadV1) (s : RuleSignatureV1)
    (policy : RuleSignaturePolicy) :
  verify_rule_signature p s policy = Ok tt -> rp_schema_version p = 1%Z.
Proof. unfold verify_rule_signature. by intros [? _]%verify_payload_ok. Qed.

(** What is stored for a payload stands for that payload. *)
Lemma row_payload_of (p : RuleSignaturePayloadV1) (s : RuleSignatureV1) :
  rp_schema_version p = 1%Z ->
  row_payload (mkRuleRow (rp_kind p) (rp_match_type p) (rp_pattern p) (rp_reason p)
      (rp_created_at_unix_ms p))
    (mkSigRow s (rp_origin p) (rp_run_uuid p) (rp_created_at_unix_ms p)) = p.
Proof. destruct p. simpl. by intros ->. Qed.

End StoreFacts.

(** ** The store as a transition system *)

(** The writes the daemon issues, with their arguments and the clock reading. *)
Inductive StoreOp : Type :=
| OpInsertUserRule (now : Z) (kind match_type pattern reason : string)
| OpInsertSigned (p : RuleSignaturePayloadV1) (s : RuleSignatureV1)
| OpRegisterSigner (now : Z) (sha kind key label : string)
| OpDisable (now : Z) (pattern reason : string)
| OpEnable (pattern : string).

Section Transitions.
Context `{SqlEngine, TrustFs, Crypto}.

Definition apply_op (st : RuleStore) (op : StoreOp) : RuleStore :=
  match op with
  | OpInsertUserRule now kind mt pattern reason => (insert_user_rule st now kind mt pattern reason).1
  | OpInsertSigned p s => (insert_signed_user_rule st p s).1
  | OpRegisterSigner now sha kind key label =>
      (register_trusted_rule_signer_key st now sha kind key label).1
  | OpDisable now pattern reason => (disable_curated_rule st now pattern reason).1
  | OpEnable pattern => (enable_curated_rule st pattern).1
  end.

Definition run_ops (st : RuleStore) (ops : list StoreOp) : RuleStore := foldl apply_op st ops.

(** The schema's constraints: every signature has its rule and repeats its creation
    time, rules satisfy the [CHECK]s, overrides are only ever set. *)
Record store_inv (st : RuleStore) : Prop := {
  inv_fk : forall id sg, rule_signatures (db st) !! id = Some sg ->
    exists row, rules (db st) !! id = Some row /\ r_created_at row = s_payload_created_at sg;
  inv_check : forall id row, rules (db st) !! id = Some row ->
    check_rule (r_kind row) (r_match_type row) = true;
  inv_disabled : forall p o, curated_overrides (db st) !! p = Some o -> o_disabled o = 1%Z;
}.

(** Documented behaviour of SQLite: a rowid it picks itself is not in use. *)
Definition free_rowid_unused : Prop := forall used id, free_rowid used = Some id -> id ∉ used.

Lemma next_rowid_fresh {A} (m : gmap Z A) (id : Z) :
  free_rowid_unused -> next_rowid m = Some id -> m !! id = None.
Proof.
  unfold next_rowid. intros Hf. case_bool_decide as Hm.
  - intros Hid%Hf. by apply not_elem_of_dom.
  - intros [= <-]. apply max_id_fresh. lia.
Qed.

Lemma insert_signed_tx_ok (d d' : Db) (p : RuleSignaturePayloadV1) (s : RuleSignatureV1) (id : Z) :
  insert_signed_tx d p s = Ok (id, d') ->
  let row := mkRuleRow (rp_kind p) (rp_match_type p) (rp_pattern p) (rp_reason p)
               (rp_created_at_unix_ms p) in
  let sg := mkSigRow s (rp_origin p) (rp_run_uuid p) (rp_created_at_unix_ms p) in
  check_rule (rp_kind p) (rp_match_type p) = true /\ next_rowid (rules d) = Some id
  /\ rule_signatures d !! id = None
  /\ d' = mkDb (<[id := row]> (rules d)) (<[id := sg]> (rule_signatures d))
            (trusted_rule_signers d) (curated_overrides d).
Proof.
  unfold insert_signed_tx. destruct (stmt "begin"); [|done].
  destruct (insert_rule_row _ _) as [[i d1]|] eqn:Hi; [|done].
  destruct (stmt "insert rule_signatures"); [|done].
  apply insert_rule_row_ok in Hi as (Hc & Hn & ->). simpl in *.
  destruct (rule_signatures d !! i) eqn:Hs; [done|].
  destruct (stmt "commit"); [|done]. by intros [= -> <-].
Qed.

Lemma apply_op_inv (st : RuleStore) (op : StoreOp) :
  free_rowid_unused -> store_inv st -> store_inv (apply_op st op).
Proof.
  intros Hf [Hfk Hck Hd]. destruct op as [now k m pat rs | p s | now sha k key l | now pat rs | pat]; simpl.
  - unfold insert_user_rule. destruct (insert_rule_row _ _) as [[id d]|] eqn:Hi; [|done].
    apply insert_rule_row_ok in Hi as (Hc & Hn & ->). simpl in Hc.
    apply next_rowid_fresh in Hn; [|done]. constructor; simpl; [|..|done].
    + intros i sg Hs. destruct (Hfk i sg Hs) as (row & Hr & ?). exists row.
      by rewrite lookup_insert_ne by congruence.
    + intros i row. destruct (decide (i = id)) as [->|]; [rewrite lookup_insert_eq; by intros [= <-]|].
      rewrite lookup_insert_ne by done. apply Hck.
  - unfold insert_signed_user_rule. destruct (insert_signed_tx _ _ _) as [[id d]|] eqn:Hi; [|done].
    apply insert_signed_tx_ok in Hi as (Hc & Hn & Hs & ->). constructor; simpl; [..|done].
    + intros i sg. destruct (decide (i = id)) as [->|]; [rewrite !lookup_insert_eq; intros [= <-]; eauto|].
      rewrite !lookup_insert_ne by done. apply Hfk.
    + intros i row. destruct (decide (i = id)) as [->|]; [rewrite lookup_insert_eq; by intros [= <-]|].
      rewrite lookup_insert_ne by done. apply Hck.
  - unfold register_trusted_rule_signer_key. by destruct (stmt _).
  - unfold disable_curated_rule. destruct (stmt _); [|done]. constructor; simpl; [done..|].
    intros q o. destruct (decide (q = pat)) as [->|]; [rewrite lookup_insert_eq; by intros [= <-]|].
    rewrite lookup_insert_ne by done. apply Hd.
  - unfold enable_curated_rule. destruct (stmt _); [|done]. constructor; simpl; [done..|].
    intros q o [_ Hq]%lookup_delete_Some. by eapply Hd.
Qed.

Lemma store_inv_empty (mp : option string) : store_inv (mkStore empty_db mp).
Proof. constructor; intros *; simpl; by rewrite lookup_empty. Qed.

Lemma run_ops_inv (st : RuleStore) (ops : list StoreOp) :
  free_rowid_unused -> store_inv st -> store_inv (run_ops st ops).
Proof.
  intros Hf. revert st. induction ops as [|op ops IH]; intros st Hi; [done|].
  apply IH. by apply apply_op_inv.
Qed.

Definition is_unsigned_insert (op : StoreOp) : Prop :=
  match op with OpInsertUserRule _ _ _ _ _ => True | _ => False end.

Definition all_signed (st : RuleStore) : Prop :=
  forall id, is_Some (rules (db st) !! id) <-> is_Some (rule_signatures (db st) !! id).

Lemma apply_op_all_signed (st : RuleStore) (op : StoreOp) :
  ~ is_unsigned_insert op -> all_signed st -> all_signed (apply_op st op).
Proof.
  intros Hop Hs. destruct op; simpl in *; [done | | | |].
  - unfold insert_signed_user_rule. destruct (insert_signed_tx _ _ _) as [[id d]|] eqn:Hi; [|done].
    apply insert_signed_tx_ok in Hi as (_ & _ & _ & ->). intros i. simpl.
    destruct (decide (i = id)) as [->|]; [by rewrite !lookup_insert_eq|].
    rewrite !lookup_insert_ne by done. apply Hs.
  - unfold register_trusted_rule_signer_key. by destruct (stmt _).
  - unfold disable_curated_rule. by destruct (stmt _).
  - unfold enable_curated_rule. by destruct (stmt _).
Qed.

(** The set of disabled patterns, abstractly. *)
Definition spec_disabled (s : gset string) (op : StoreOp) : gset string :=
  match op with
  | OpDisable _ p _ => {[p]} ∪ s
  | OpEnable p => s ∖ {[p]}
  | _ => s
  end.

Lemma apply_op_overrides (st : RuleStore) (op : StoreOp) :
  (forall n, sql_fault n = None) ->
  dom (curated_overrides (db (apply_op st op))) = spec_disabled (dom (curated_overrides (db st))) op.
Proof.
  intros Hn. assert (forall n, stmt n = Ok tt) as Hst by (intros n; unfold stmt; by rewrite Hn).
  destruct op; simpl.
  - unfold insert_user_rule. destruct (insert_rule_row _ _) as [[id d]|] eqn:Hi; [|done].
    by apply insert_rule_row_ok in Hi as (_ & _ & ->).
  - unfold insert_signed_user_rule. destruct (insert_signed_tx _ _ _) as [[id d]|] eqn:Hi; [|done].
    by apply insert_signed_tx_ok in Hi as (_ & _ & _ & ->).
  - unfold register_trusted_rule_signer_key. by destruct (stmt _).
  - unfold disable_curated_rule. rewrite Hst. simpl. by rewrite dom_insert_L.
  - unfold enable_curated_rule. rewrite Hst. simpl. by rewrite dom_delete_L.
Qed.

Lemma disabled_of_inv (st : RuleStore) :
  store_inv st -> (forall n, sql_fault n = None) ->
  disabled_curated_patterns st = Ok (dom (curated_overrides (db st))).
Proof.
  intros Hi Hn. unfold disabled_curated_patterns, stmt. rewrite Hn. do 2 f_equal.
  apply map_filter_id. intros p o Ho. by eapply inv_disabled.
Qed.

End Transitions.

(** ** A concrete environment, for evaluation *)

#[local] Existing Instance toy_crypto.

Definition toy_sql : SqlEngine := {| sql_fault _ := None; free_rowid _ := None |}.

Definition toy_manifest : string :=
  sha256_hex "K" +:+ String TAB ("tpm" +:+ String TAB (hex_lower "K" +:+ String LF "")).

Definition toy_fs : TrustFs := {|
  symlink_metadata p :=
    if bool_decide (p = trusted_rule_signers_path) then Ok (mkMeta RegularFile 0 0 420)
    else Ok (mkMeta Directory 0 0 493);
  read_to_string p := if bool_decide (p = trusted_rule_signers_path) then Ok toy_manifest else Err "ENOENT";
|}.

Definition toy_store : RuleStore :=
  mkStore (mkDb ∅ ∅ {[ sha256_hex "K" := mkSignerRow "tpm" "K" 0 "installer" ]} ∅)
    (Some trusted_rule_signers_path).

Definition toy_sig : RuleSignatureV1 := toy_rule_signature "tpm" "K" toy_payload.

#[local] Existing Instances toy_sql toy_fs.

Definition toy_store1 : RuleStore := (insert_signed_user_rule toy_store toy_payload toy_sig).1.

(** ** Properties *)

(** C7: the rules that enter a snapshot are authentic: when the verified read
    succeeds, every stored rule has a signature and every signature a rule, and
    the result lists, in identifier order, exactly one entry per stored rule, each
    carrying the stored pattern with a user tier, its payload authenticated under
    the policy and its signer trusted by the database and the root-owned
    manifest. *)
Theorem all_verified_user_rules_sound `{SqlEngine, TrustFs, Crypto} (st : RuleStore)
    (policy : RuleSignaturePolicy) (out : list AllowlistEntry) :
  all_verified_user_rules st policy = Ok out ->
  (forall id, is_Some (rules (db st) !! id) <-> is_Some (rule_signatures (db st) !! id))
  /\ Forall2 (fun '(id, row) e =>
        exists sg, rule_signatures (db st) !! id = Some sg /\ RuleVerified st policy row sg e)
      (rows_by_id (rules (db st))) out.
Proof.
  intros Hv. apply all_verified_ok in Hv as [Hid Hall]. split; [done|].
  eapply Forall2_trans; [|apply joined_rows_total; intros id; apply Hid|exact Hall].
  intros [id row] [row' sg] e [-> Hsg] Hr. exists sg. split; [done|].
  by apply verify_user_rule_row_ok.
Qed.

Definition toy_entry : AllowlistEntry := mkEntry Allow UserAllow Exact "user.example" "mine".

Lemma all_verified_user_rules_sound_witness :
  Forall2 (fun '(id, row) e =>
      exists sg, rule_signatures (db toy_store1) !! id = Some sg
                 /\ RuleVerified toy_store1 Production row sg e)
    (rows_by_id (rules (db toy_store1))) [toy_entry].
Proof.
  apply (all_verified_user_rules_sound toy_store1 Production [toy_entry]). by vm_compute.
Defined.

(** Insert and read back: with a working engine, inserting a rule whose
    signature verifies and whose signer is trusted succeeds, and the next verified
    read returns the previous rules followed by the new one. *)
Theorem insert_signed_then_verified `{SqlEngine, TrustFs, Crypto} (st : RuleStore)
    (policy : RuleSignaturePolicy) (out : list AllowlistEntry) (p : RuleSignaturePayloadV1)
    (s : RuleSignatureV1) (no_fault : forall n, sql_fault n = None) :
  all_verified_user_rules st policy = Ok out ->
  check_rule (rp_kind p) (rp_match_type p) = true ->
  (max_id (rules (db st)) < I64_MAX)%Z ->
  verify_rule_signature p s policy = Ok tt ->
  verify_rule_signer_trusted st s = Ok tt ->
  exists st' id e,
    insert_signed_user_rule st p s = (st', Ok id)
    /\ all_verified_user_rules st' policy = Ok (out ++ [e])
    /\ parse_rule_kind (rp_kind p) = Ok (e_kind e)
    /\ parse_match_type (rp_match_type p) = Ok (e_match_type e)
    /\ e_pattern e = rp_pattern p /\ e_reason e = rp_reason p /\ e_tier e = user_tier (e_kind e).
Proof.
  intros Hv Hc Hmax Hs Ht.
  destruct (all_verified_ok st policy out Hv) as [Hid Hall].
  destruct (check_rule_parse _ _ Hc) as (k & m & Hk & Hm).
  set (id := (max_id (rules (db st)) + 1)%Z).
  assert (rules (db st) !! id = None) as Hfresh by (apply max_id_fresh; lia).
  assert (rule_signatures (db st) !! id = None) as Hsfresh.
  { destruct (rule_signatures (db st) !! id) eqn:E; [|done].
    destruct (proj2 (Hid id)) as [x Hx]; [eauto | congruence]. }
  assert (forall n, stmt n = Ok tt) as Hst by (intros n; unfold stmt; by rewrite no_fault).
  unfold insert_signed_user_rule, insert_signed_tx, insert_rule_row.
  rewrite !Hst. simpl. rewrite Hc. simpl. unfold next_rowid.
  rewrite bool_decide_eq_false_2 by lia. fold id. simpl. rewrite Hsfresh.
  eexists _, id, (mkEntry k (user_tier k) m (rp_pattern p) (rp_reason p)).
  split_and!; [done | | done..].
  apply all_verified_intro; [done | |]; simpl.
  - intros i. destruct (decide (i = id)) as [->|Hne]; [by rewrite !lookup_insert_eq|].
    rewrite !lookup_insert_ne by done. apply Hid.
  - rewrite joined_rows_insert by lia. apply Forall2_app.
    + eapply Forall2_impl; [exact Hall|]. intros [row sg] e <-. symmetry.
      by apply verify_user_rule_row_ext.
    + repeat constructor. unfold verify_user_rule_row. simpl.
      rewrite bool_decide_eq_true_2 by done. simpl.
      rewrite row_payload_of by by eapply verified_schema. rewrite Hs. simpl.
      assert (verify_rule_signer_trusted
        (with_db st (mkDb (<[id := mkRuleRow (rp_kind p) (rp_match_type p) (rp_pattern p)
           (rp_reason p) (rp_created_at_unix_ms p)]> (rules (db st)))
          (<[id := mkSigRow s (rp_origin p) (rp_run_uuid p) (rp_created_at_unix_ms p)]>
             (rule_signatures (db st)))
          (trusted_rule_signers (db st)) (curated_overrides (db st)))) s = Ok tt) as -> by exact Ht.
      by rewrite Hk, Hm.
Qed.

Lemma insert_signed_then_verified_witness :
  exists st' id e, insert_signed_user_rule toy_store toy_payload toy_sig = (st', Ok id)
    /\ all_verified_user_rules st' Production = Ok ([] ++ [e]) /\ e_pattern e = "user.example".
Proof.
  destruct (@insert_signed_then_verified toy_sql toy_fs toy_crypto toy_store Production []
              toy_payload toy_sig
              (fun _ => eq_refl)) as (st' & id & e & Hi & Hv & _ & _ & He & _);
    [by vm_compute .. |]. by exists st', id, e.
Defined.

(** An unsigned rule blocks every snapshot: after [insert_user_rule] succeeds on
    a store that respects its foreign key, the verified read fails whatever the
    policy, so no snapshot can be built with or without that rule. *)
Theorem unsigned_rule_fails_closed `{SqlEngine, TrustFs, Crypto} (st st' : RuleStore)
    (policy : RuleSignaturePolicy) (now id : Z) (kind match_type pattern reason : string)
    (rowids : free_rowid_unused) :
  store_inv st ->
  insert_user_rule st now kind match_type pattern reason = (st', Ok id) ->
  is_ok (all_verified_user_rules st' policy) = false.
Proof.
  intros Hinv Hins. destruct (all_verified_user_rules st' policy) as [out|] eqn:Hv; [|done].
  apply all_verified_ok in Hv as [Hid _]. unfold insert_user_rule in Hins.
  destruct (insert_rule_row _ _) as [[i d]|] eqn:Hi; [|done]. injection Hins as <- ->.
  apply insert_rule_row_ok in Hi as (_ & Hn & ->). simpl in Hid.
  apply next_rowid_fresh in Hn; [|done].
  destruct (proj1 (Hid id)) as [sg Hsg]; [rewrite lookup_insert_eq; eauto|].
  destruct (inv_fk _ Hinv id sg Hsg) as (row & Hr & _). congruence.
Qed.

Lemma toy_rowids : @free_rowid_unused toy_sql.
Proof. by intros used id. Qed.

Lemma unsigned_rule_fails_closed_witness :
  is_ok (all_verified_user_rules (insert_user_rule toy_store 0 "allow" "exact" "x.example" "r").1
           AllowTestSimulator) = false.
Proof.
  apply (@unsigned_rule_fails_closed toy_sql toy_fs toy_crypto toy_store _ AllowTestSimulator 0 1
           "allow" "exact" "x.example" "r" toy_rowids); [|by vm_compute].
  constructor; intros *; simpl; by rewrite lookup_empty.
Defined.

(** The tables keep their constraints: from an empty database any sequence of
    store writes, failing ones included, leaves every signature with its rule and
    creation time, every rule within the [CHECK] constraints and every override set;
    without unsigned inserts every rule also keeps its signature. *)
Theorem store_reachable_invariant `{SqlEngine, TrustFs, Crypto} (mp : option string)
    (ops : list StoreOp) (rowids : free_rowid_unused) :
  let st := run_ops (mkStore empty_db mp) ops in
  store_inv st /\ (Forall (fun op => ~ is_unsigned_insert op) ops -> all_signed st).
Proof.
  split; [apply run_ops_inv; auto using store_inv_empty|].
  assert (all_signed (mkStore empty_db mp)) as Hempty.
  { intros id. simpl. by rewrite !lookup_empty. }
  revert Hempty. generalize (mkStore empty_db mp) as st. unfold run_ops.
  induction ops as [|op ops IH]; intros st Hs Hops; [done|].
  apply Forall_cons in Hops as [Hop Hops]. simpl. apply IH; [by apply apply_op_all_signed | done].
Qed.

Lemma store_reachable_invariant_witness :
  all_signed (run_ops (mkStore empty_db None) [OpInsertSigned toy_payload toy_sig; OpDisable 0 "a" "b"]).
Proof.
  apply (@store_reachable_invariant toy_sql toy_fs toy_crypto None
           [OpInsertSigned toy_payload toy_sig; OpDisable 0 "a" "b"] toy_rowids).
  repeat constructor; by intros [].
Defined.

(** Disabling and enabling curated rules implements a set: with a working
    engine, after any sequence of store writes the patterns read back are exactly
    those the abstract set operations give (last write wins, repeats are
    idempotent, rule and signer writes have no effect). *)
Theorem disabled_patterns_refine_set `{SqlEngine, TrustFs, Crypto} (mp : option string)
    (ops : list StoreOp) (no_fault : forall n, sql_fault n = None) (rowids : free_rowid_unused) :
  disabled_curated_patterns (run_ops (mkStore empty_db mp) ops) = Ok (foldl spec_disabled ∅ ops).
Proof.
  rewrite disabled_of_inv by (done || (apply run_ops_inv; auto using store_inv_empty)). f_equal.
  assert (forall st, dom (curated_overrides (db (run_ops st ops)))
    = foldl spec_disabled (dom (curated_overrides (db st))) ops) as ->; [|done].
  induction ops as [|op ops IH]; intros st; [done|]. simpl.
  rewrite <- apply_op_overrides by done. apply IH.
Qed.

Lemma disabled_patterns_refine_set_witness :
  disabled_curated_patterns (run_ops (mkStore empty_db None)
    [OpDisable 0 "a" "r"; OpDisable 1 "b" "r"; OpDisable 2 "a" "r"; OpEnable "a"])
  = Ok (foldl spec_disabled ∅
         [OpDisable 0 "a" "r"; OpDisable 1 "b" "r"; OpDisable 2 "a" "r"; OpEnable "a"]).
Proof.
  exact (@disabled_patterns_refine_set toy_sql toy_fs toy_crypto None _ (fun _ => eq_refl) toy_rowids).
Defined.

(** Signing is reported as configured only when it is: the status says
    configured exactly when the store has a trust root whose ownership checks pass,
    whose first signer decodes, and the database caches that signer with the same
    kind and key; otherwise no signer's rules are claimed trusted. *)
Theorem signing_status_configured_iff `{SqlEngine, TrustFs, Crypto} (st : RuleStore)
    (no_fault : forall n, sql_fault n = None) :
  ss_configured (rule_signing_status st) = true <->
  exists path contents signer key row,
    trusted_signers_manifest_path st = Some path
    /\ verify_trusted_manifest_path path = Ok tt
    /\ read_to_string path = Ok contents
    /\ first_trusted_signer contents = Ok (Some signer)
    /\ decode_hex (ts_public_key_x963_hex signer) = Ok key
    /\ trusted_rule_signers (db st) !! ts_public_key_sha256 signer = Some row
    /\ t_signer_kind row = ts_signer_kind signer /\ t_public_key_x963 row = key.
Proof.
  assert (forall n, stmt n = Ok tt) as Hst by (intros n; unfold stmt; by rewrite no_fault).
  unfold rule_signing_status, read_trusted_manifest_contents, trusted_signer_db_matches,
    count_signer_keys. split.
  - destruct (trusted_signers_manifest_path st) as [path|]; [|done].
    destruct (verify_trusted_manifest_path path) as [[]|] eqn:Hv; [|done].
    destruct (read_to_string path) as [contents|] eqn:Hr; [|done]. simpl.
    destruct (first_trusted_signer contents) as [[signer|]|] eqn:Hf; [|done..].
    destruct (decode_hex _) as [key|] eqn:Hk; [|done]. simpl. rewrite Hst.
    destruct (trusted_rule_signers (db st) !! _) as [row|] eqn:Ht; [|done].
    destruct (bool_decide (t_signer_kind row = _) && _) eqn:Hb; [|done]. bool_split.
    intros _. by exists path, contents, signer, key, row.
  - intros (path & contents & signer & key & row & -> & -> & -> & Hf & Hk & Ht & Hkind & Hkey).
    simpl. rewrite Hf, Hk. simpl. rewrite Hst, Ht, Hkind, Hkey.
    rewrite (bool_decide_eq_true_2 (ts_signer_kind signer = _)) by done.
    by rewrite (bool_decide_eq_true_2 (key = key)) by done.
Qed.

Lemma signing_status_configured_iff_witness :
  ss_configured (rule_signing_status toy_store) = true.
Proof.
  apply (@signing_status_configured_iff toy_sql toy_fs toy_crypto toy_store (fun _ => eq_refl)).
  exists trusted_rule_signers_path, toy_manifest, (mkSigner (sha256_hex "K") "tpm" (hex_lower "K")),
    "K", (mkSignerRow "tpm" "K" 0 "installer").
  split_and!; by vm_compute.
Defined.
