(* ===== verification/ProcessTree.v ===== *)
(** * Process identities and the tracked process tree

    [crates/guard-core/src/identity.rs] and [crates/guard-daemon/src/tracked.rs].
    Each method of [ProcessTree] holds one lock for its whole body and is one
    atomic operation; [bind_run_root] takes two locks one after the other and is
    two, between which other operations may run.  Lock poisoning is tolerated by
    the code and has no effect. *)

From S2P Require Import Prelude RustStr.

(** ** identity.rs *)

(** The eight 32-bit words of [audit_token_t]. *)
Record AuditToken : Type := mkToken {
  val0 : N; val1 : N; val2 : N; val3 : N; val4 : N; val5 : N; val6 : N; val7 : N;
}.

#[export] Instance AuditToken_eq_dec : EqDecision AuditToken.
Proof. solve_decision. Defined.

#[export] Instance AuditToken_countable : Countable AuditToken.
Proof.
  refine (inj_countable'
    (fun t => (val0 t, val1 t, val2 t, val3 t, val4 t, val5 t, val6 t, val7 t))
    (fun '(a, b, c, d, e, f, g, h) => mkToken a b c d e f g h) _).
  by intros [].
Defined.

(** [i32::from_ne_bytes(u32::to_ne_bytes)]. *)
Definition i32_of_u32 (n : N) : Z :=
  let z := (Z.of_N n mod 2 ^ 32)%Z in
  if bool_decide (z < 2 ^ 31)%Z then z else (z - 2 ^ 32)%Z.

Definition token_pid (t : AuditToken) : Z := i32_of_u32 (val5 t).
Definition pidversion (t : AuditToken) : N := val7 t.

Inductive ProcessIdentity : Type :=
| Verified (t : AuditToken)
| Unverified (p : Z).

Definition from_kernel_token (t : AuditToken) : ProcessIdentity := Verified t.
Definition from_pid_unverified (p : Z) : ProcessIdentity := Unverified p.

Definition as_policy_key (i : ProcessIdentity) : option AuditToken :=
  match i with Verified t => Some t | Unverified _ => None end.

Definition identity_pid (i : ProcessIdentity) : Z :=
  match i with Verified t => token_pid t | Unverified p => p end.

(** ** tracked.rs *)

Inductive CoverageGap : Type :=
| ConfirmedHardened (binary_path : string) (detected_at_ms : N)
| UnknownInjectionFailure (binary_path : string) (detected_at_ms : N)
| EnvNotPropagated (binary_path : string) (detected_at_ms : N).

Record ProcessNode : Type := mkNode {
  audit_token : AuditToken;
  parent_audit_token : option AuditToken;
  tracked_root : AuditToken;
  node_run_uuid : string;
  binary_path : string;
  coverage_gap : option CoverageGap;
  pm_env_snapshot : option (list (string * string));
}.

Record RunRecord : Type := mkRun {
  rr_run_uuid : string;
  rr_tracked_root : AuditToken;
  rr_snapshot_path : string;
  rr_manifest_path : string;
  rr_is_tty : bool;
  rr_baseline_mode : bool;
}.

(** A prompt channel is known by a number. *)
Record Tree : Type := mkTree {
  nodes : gmap AuditToken ProcessNode;
  runs : gmap string RunRecord;
  prompt_channels : gmap string nat;
}.

Inductive TreeError : Type := ParentNotFound | NodeNotFound.

Definition new_tree : Tree := mkTree ∅ ∅ ∅.

Definition set_nodes (t : Tree) (n : gmap AuditToken ProcessNode) : Tree :=
  mkTree n (runs t) (prompt_channels t).
Definition set_runs (t : Tree) (r : gmap string RunRecord) : Tree :=
  mkTree (nodes t) r (prompt_channels t).
Definition set_channels (t : Tree) (c : gmap string nat) : Tree := mkTree (nodes t) (runs t) c.

Definition insert_root (t : Tree) (tok : AuditToken) (run_uuid binary_path : string)
  : Tree * bool :=
  match nodes t !! tok with
  | Some _ => (t, false)
  | None => (set_nodes t (<[tok := mkNode tok None tok run_uuid binary_path None None]> (nodes t)), true)
  end.

Definition record_fork (t : Tree) (parent child : AuditToken) : Tree * result unit TreeError :=
  match nodes t !! parent with
  | None => (t, Err ParentNotFound)
  | Some p =>
      (set_nodes t (<[child := mkNode child (Some parent) (tracked_root p) (node_run_uuid p) ""
                                 None None]> (nodes t)), Ok tt)
  end.

(** [get_mut] and an update of one field. *)
Definition update_node (t : Tree) (tok : AuditToken) (f : ProcessNode -> ProcessNode)
  : Tree * result unit TreeError :=
  match nodes t !! tok with
  | None => (t, Err NodeNotFound)
  | Some n => (set_nodes t (<[tok := f n]> (nodes t)), Ok tt)
  end.

Definition record_exec (t : Tree) (tok : AuditToken) (path : string) :=
  update_node t tok (fun n => mkNode (audit_token n) (parent_audit_token n) (tracked_root n)
    (node_run_uuid n) path (coverage_gap n) (pm_env_snapshot n)).

Definition set_coverage_gap (t : Tree) (tok : AuditToken) (gap : CoverageGap) :=
  update_node t tok (fun n => mkNode (audit_token n) (parent_audit_token n) (tracked_root n)
    (node_run_uuid n) (binary_path n) (Some gap) (pm_env_snapshot n)).

Definition set_pm_env_snapshot (t : Tree) (tok : AuditToken) (pm_env : list (string * string)) : Tree :=
  (update_node t tok (fun n => mkNode (audit_token n) (parent_audit_token n) (tracked_root n)
    (node_run_uuid n) (binary_path n) (coverage_gap n) (Some pm_env))).1.

Definition get_node (t : Tree) (tok : AuditToken) : option ProcessNode := nodes t !! tok.

Definition update_run (t : Tree) (u : string) (f : RunRecord -> RunRecord) : Tree :=
  match runs t !! u with
  | Some r => set_runs t (<[u := f r]> (runs t))
  | None => t
  end.

Definition set_run_is_tty (t : Tree) (u : string) (b : bool) : Tree :=
  update_run t u (fun r => mkRun (rr_run_uuid r) (rr_tracked_root r) (rr_snapshot_path r)
    (rr_manifest_path r) b (rr_baseline_mode r)).

Definition set_run_baseline_mode (t : Tree) (u : string) (b : bool) : Tree :=
  update_run t u (fun r => mkRun (rr_run_uuid r) (rr_tracked_root r) (rr_snapshot_path r)
    (rr_manifest_path r) (rr_is_tty r) b).

(** The two critical sections of [bind_run_root]. *)
Definition bind_run_record (t : Tree) (u : string) (root : AuditToken) : Tree :=
  update_run t u (fun r => mkRun (rr_run_uuid r) root (rr_snapshot_path r) (rr_manifest_path r)
    (rr_is_tty r) (rr_baseline_mode r)).

Definition bind_root_node (t : Tree) (u : string) (root : AuditToken) : Tree :=
  (update_node t root (fun n => mkNode (audit_token n) (parent_audit_token n) root u
    (binary_path n) (coverage_gap n) (pm_env_snapshot n))).1.

Definition bind_run_root (t : Tree) (u : string) (root : AuditToken) : Tree :=
  bind_root_node (bind_run_record t u root) u root.

Definition list_runs (t : Tree) : list RunRecord := (map_to_list (runs t)).*2.
Definition set_prompt_channel (t : Tree) (u : string) (c : nat) : Tree :=
  set_channels t (<[u := c]> (prompt_channels t)).
Definition take_prompt_channel (t : Tree) (u : string) : Tree * option nat :=
  (set_channels t (delete u (prompt_channels t)), prompt_channels t !! u).
Definition get_prompt_channel (t : Tree) (u : string) : option nat := prompt_channels t !! u.
Definition prompt_channels_len (t : Tree) : nat := size (prompt_channels t).

Definition is_tracked (t : Tree) (tok : AuditToken) : bool :=
  match nodes t !! tok with Some _ => true | None => false end.

Definition is_tracked_root (t : Tree) (tok : AuditToken) : bool :=
  match nodes t !! tok with
  | Some n => bool_decide (parent_audit_token n = None) && bool_decide (tracked_root n = tok)
  | None => false
  end.

Definition nodes_len (t : Tree) : nat := size (nodes t).
Definition insert_run (t : Tree) (r : RunRecord) : Tree := set_runs t (<[rr_run_uuid r := r]> (runs t)).
Definition remove_run (t : Tree) (u : string) : Tree * option RunRecord :=
  (set_runs t (delete u (runs t)), runs t !! u).
Definition get_run (t : Tree) (u : string) : option RunRecord := runs t !! u.
Definition runs_len (t : Tree) : nat := size (runs t).
Definition list_tracked_pids (t : Tree) : list (N * N) :=
  (fun n => (val5 (audit_token n), val7 (audit_token n))) <$> (map_to_list (nodes t)).*2.

(** ** The tree as a transition system *)

(** One atomic operation by any of the daemon's worker threads. *)
Inductive tree_step : Tree -> Tree -> Prop :=
| step_insert_root t tok u b : tree_step t (insert_root t tok u b).1
| step_fork t p c : tree_step t (record_fork t p c).1
| step_exec t tok b : tree_step t (record_exec t tok b).1
| step_gap t tok g : tree_step t (set_coverage_gap t tok g).1
| step_pm_env t tok e : tree_step t (set_pm_env_snapshot t tok e)
| step_tty t u b : tree_step t (set_run_is_tty t u b)
| step_baseline t u b : tree_step t (set_run_baseline_mode t u b)
| step_bind_record t u r : tree_step t (bind_run_record t u r)
| step_bind_node t u r : tree_step t (bind_root_node t u r)
| step_channel t u c : tree_step t (set_prompt_channel t u c)
| step_take_channel t u : tree_step t (take_prompt_channel t u).1
| step_insert_run t r : tree_step t (insert_run t r)
| step_remove_run t u : tree_step t (remove_run t u).1.

(** Well-formed trees: nodes sit under their own token, parents and roots are
    nodes, a node without a parent is its own root, runs sit under their uuid. *)
Record tree_wf (t : Tree) : Prop := {
  wf_key : forall k n, nodes t !! k = Some n -> audit_token n = k;
  wf_parent : forall k n p, nodes t !! k = Some n -> parent_audit_token n = Some p ->
    is_Some (nodes t !! p);
  wf_root : forall k n, nodes t !! k = Some n -> is_Some (nodes t !! tracked_root n);
  wf_self : forall k n, nodes t !! k = Some n -> parent_audit_token n = None -> tracked_root n = k;
  wf_run : forall u r, runs t !! u = Some r -> rr_run_uuid r = u;
}.

(** Operations that may rewrite the run of a node already in the tree: a fork event
    naming it as the child, or a root binding naming it as the root. *)
Inductive quiet_step (tok : AuditToken) : Tree -> Tree -> Prop :=
| quiet_insert_root t k u b : quiet_step tok t (insert_root t k u b).1
| quiet_fork t p c : c <> tok -> quiet_step tok t (record_fork t p c).1
| quiet_exec t k b : quiet_step tok t (record_exec t k b).1
| quiet_gap t k g : quiet_step tok t (set_coverage_gap t k g).1
| quiet_pm_env t k e : quiet_step tok t (set_pm_env_snapshot t k e)
| quiet_bind_node t u r : r <> tok -> quiet_step tok t (bind_root_node t u r)
| quiet_runs t t' : nodes t' = nodes t -> quiet_step tok t t'.

(** ** Lemmas *)

Lemma update_node_nodes (t : Tree) (tok : AuditToken) (f : ProcessNode -> ProcessNode) :
  nodes (update_node t tok f).1 = alter f tok (nodes t).
Proof.
  unfold update_node. destruct (nodes t !! tok) as [n|] eqn:Hn; simpl.
  - apply map_eq. intros k. destruct (decide (k = tok)) as [->|Hne].
    + by rewrite lookup_insert_eq, lookup_alter_eq, Hn.
    + by rewrite lookup_insert_ne, lookup_alter_ne by done.
  - by rewrite alter_id by (intros; congruence).
Qed.

Lemma update_node_runs (t : Tree) (tok : AuditToken) (f : ProcessNode -> ProcessNode) :
  runs (update_node t tok f).1 = runs t.
Proof. unfold update_node. by destruct (nodes t !! tok). Qed.

Lemma alter_Some {A} (f : A -> A) (m : gmap AuditToken A) (i k : AuditToken) (y : A) :
  alter f i m !! k = Some y ->
  exists x, m !! k = Some x /\ ((k = i /\ y = f x) \/ (k <> i /\ y = x)).
Proof.
  destruct (decide (k = i)) as [->|Hne].
  - rewrite lookup_alter_eq. destruct (m !! i) as [x|]; simpl; [|done]. intros [= <-]. eauto.
  - rewrite lookup_alter_ne by done. eauto.
Qed.

Lemma alter_is_Some {A} (f : A -> A) (m : gmap AuditToken A) (i k : AuditToken) :
  is_Some (m !! k) -> is_Some (alter f i m !! k).
Proof.
  intros [x Hx]. destruct (decide (k = i)) as [->|Hne].
  - rewrite lookup_alter_eq, Hx. eauto.
  - rewrite lookup_alter_ne by done. eauto.
Qed.

(** An update that leaves the token and the parent alone, and sends the root to a
    token of the tree, keeps a tree well formed. *)
Lemma alter_wf (t : Tree) (tok : AuditToken) (f : ProcessNode -> ProcessNode) :
  tree_wf t ->
  (forall n, audit_token (f n) = audit_token n) ->
  (forall n, parent_audit_token (f n) = parent_audit_token n) ->
  (forall n, tracked_root (f n) = tracked_root n) \/ (forall n, tracked_root (f n) = tok) ->
  tree_wf (update_node t tok f).1.
Proof.
  intros [Hk Hp Hr Hs Hu] Ha Hpa Htr.
  constructor; rewrite ?update_node_nodes, ?update_node_runs; [..|done].
  - intros k n (x & Hx & [[-> ->] | [_ ->]])%alter_Some; rewrite ?Ha; eauto.
  - intros k n p (x & Hx & [[-> ->] | [_ ->]])%alter_Some; rewrite ?Hpa; intros Hpar;
      apply alter_is_Some; eauto.
  - intros k n (x & Hx & [[-> ->] | [_ ->]])%alter_Some; apply alter_is_Some; [|eauto].
    destruct Htr as [Htr|Htr]; rewrite Htr; eauto.
  - intros k n (x & Hx & [[-> ->] | [_ ->]])%alter_Some; [rewrite Hpa|]; intros Hn; [|eauto].
    destruct Htr as [Htr|Htr]; rewrite Htr; eauto.
Qed.

Lemma insert_is_Some_ne {A} (m : gmap AuditToken A) (i k : AuditToken) (x : A) :
  is_Some (m !! k) -> is_Some (<[i := x]> m !! k).
Proof. intros. apply lookup_insert_is_Some'. auto. Qed.

#[local] Hint Resolve insert_is_Some_ne alter_is_Some : guard.

Lemma insert_root_wf (t : Tree) (tok : AuditToken) (u b : string) :
  tree_wf t -> tree_wf (insert_root t tok u b).1.
Proof.
  intros [Hk Hp Hr Hs Hu]. unfold insert_root. destruct (nodes t !! tok) eqn:Hn; [done|].
  constructor; simpl; [..|done].
  - intros k n [[<- <-] | [_ Hl]]%lookup_insert_Some; eauto.
  - intros k n p [[<- <-] | [_ Hl]]%lookup_insert_Some Hpar; [done|]. eauto with guard.
  - intros k n [[<- <-] | [_ Hl]]%lookup_insert_Some; simpl; [|by eauto with guard].
    rewrite lookup_insert_eq. eauto.
  - intros k n [[<- <-] | [_ Hl]]%lookup_insert_Some; eauto.
Qed.

Lemma record_fork_wf (t : Tree) (p c : AuditToken) :
  tree_wf t -> tree_wf (record_fork t p c).1.
Proof.
  intros [Hk Hp Hr Hs Hu]. unfold record_fork. destruct (nodes t !! p) as [pn|] eqn:Hn; [|done].
  constructor; simpl; [..|done].
  - intros k n [[<- <-] | [_ Hl]]%lookup_insert_Some; eauto.
  - intros k n q [[<- <-] | [_ Hl]]%lookup_insert_Some; simpl; [intros [= <-]|intros];
      eauto with guard.
  - intros k n [[<- <-] | [_ Hl]]%lookup_insert_Some; simpl; eauto with guard.
  - intros k n [[<- <-] | [_ Hl]]%lookup_insert_Some; simpl; [done | eauto].
Qed.

Lemma runs_only_wf (t t' : Tree) :
  nodes t' = nodes t -> (forall u r, runs t' !! u = Some r -> rr_run_uuid r = u) ->
  tree_wf t -> tree_wf t'.
Proof. intros Hn Hr' [Hk Hp Hr Hs Hu]. constructor; rewrite ?Hn; eauto. Qed.

Lemma update_run_nodes (t : Tree) (u : string) (f : RunRecord -> RunRecord) :
  nodes (update_run t u f) = nodes t.
Proof. unfold update_run. by destruct (runs t !! u). Qed.

Lemma update_run_wf (t : Tree) (u : string) (f : RunRecord -> RunRecord) :
  (forall r, rr_run_uuid (f r) = rr_run_uuid r) -> tree_wf t -> tree_wf (update_run t u f).
Proof.
  intros Hf Hwf. apply (runs_only_wf t); [apply update_run_nodes | | done].
  destruct Hwf as [_ _ _ _ Hu]. unfold update_run. destruct (runs t !! u) as [r|] eqn:Hr; [|done].
  simpl. intros v s [[<- <-] | [_ Hl]]%lookup_insert_Some; rewrite ?Hf; eauto.
Qed.

Lemma tree_step_wf (t t' : Tree) : tree_step t t' -> tree_wf t -> tree_wf t'.
Proof.
  intros [] Hwf; auto using insert_root_wf, record_fork_wf;
    try (apply alter_wf; by eauto); try (apply update_run_wf; by auto);
    apply (runs_only_wf t0); try done; simpl; try apply (wf_run _ Hwf).
  - intros u s [[<- <-] | [_ Hl]]%lookup_insert_Some; [done | by apply (wf_run _ Hwf)].
  - intros v s [_ Hl]%lookup_delete_Some. by apply (wf_run _ Hwf).
Qed.

(** Tokens never leave the tree. *)
Lemma tree_step_tracked (t t' : Tree) (tok : AuditToken) :
  tree_step t t' -> is_tracked t tok = true -> is_tracked t' tok = true.
Proof.
  assert (forall t0 : Tree, is_tracked t0 tok = true <-> is_Some (nodes t0 !! tok)) as Heq.
  { intros t0. unfold is_tracked. by destruct (nodes t0 !! tok); split; try done; eauto; intros []. }
  rewrite !Heq. unfold set_pm_env_snapshot, bind_root_node.
  intros [] Ht; unfold record_exec, set_coverage_gap, set_pm_env_snapshot, bind_root_node,
    set_run_is_tty, set_run_baseline_mode, bind_run_record;
    rewrite ?update_node_nodes, ?update_run_nodes; auto using alter_is_Some.
  - unfold insert_root. destruct (nodes t0 !! tok0); simpl; auto using insert_is_Some_ne.
  - unfold record_fork. destruct (nodes t0 !! p); simpl; auto using insert_is_Some_ne.
Qed.

(** The run of a node: its root and its run identifier. *)
Definition run_of (t : Tree) (tok : AuditToken) : option (AuditToken * string) :=
  (fun n => (tracked_root n, node_run_uuid n)) <$> nodes t !! tok.

Lemma run_of_alter (t : Tree) (k tok : AuditToken) (f : ProcessNode -> ProcessNode) :
  (forall n, tracked_root (f n) = tracked_root n) \/ k <> tok ->
  (forall n, node_run_uuid (f n) = node_run_uuid n) \/ k <> tok ->
  run_of (update_node t k f).1 tok = run_of t tok.
Proof.
  intros H1 H2. unfold run_of. rewrite update_node_nodes.
  destruct (decide (k = tok)) as [->|Hne]; [|by rewrite lookup_alter_ne].
  rewrite lookup_alter_eq. destruct (nodes t !! tok); [|done]. simpl.
  destruct H1 as [->|]; [|done]. by destruct H2 as [->|].
Qed.

Lemma quiet_step_run_of (tok : AuditToken) (t t' : Tree) :
  quiet_step tok t t' -> is_Some (run_of t tok) -> run_of t' tok = run_of t tok.
Proof.
  intros [] Hs; try (apply run_of_alter; auto; fail).
  - unfold insert_root. destruct (nodes t0 !! k) eqn:Hk; [done|]. unfold run_of in *. simpl.
    rewrite lookup_insert_ne; [done|]. intros ->. rewrite Hk in Hs. by destruct Hs.
  - unfold record_fork. destruct (nodes t0 !! p); [|done]. unfold run_of. simpl.
    by rewrite lookup_insert_ne.
  - unfold run_of. congruence.
Qed.

Lemma record_fork_run_of (t : Tree) (p c : AuditToken) :
  is_tracked t p = true -> run_of (record_fork t p c).1 c = run_of t p.
Proof.
  unfold is_tracked, record_fork, run_of. destruct (nodes t !! p) as [n|]; [|done].
  intros _. simpl. by rewrite lookup_insert_eq.
Qed.

(** A line of descent: each token forked from the one before, with quiet steps of
    all the tokens so far in between. *)
Inductive descends (t0 : Tree) (root : AuditToken) : Tree -> AuditToken -> Prop :=
| descends_root t : rtc (quiet_step root) t0 t -> descends t0 root t root
| descends_fork t t' p c :
    descends t0 root t p -> p <> c ->
    rtc (quiet_step c) (record_fork t p c).1 t' ->
    descends t0 root t' c.

Lemma quiet_steps_run_of (tok : AuditToken) (t t' : Tree) :
  rtc (quiet_step tok) t t' -> is_Some (run_of t tok) -> run_of t' tok = run_of t tok.
Proof.
  induction 1 as [|t t1 t2 H1 _ IH]; [done|]. intros Hs.
  rewrite <- (quiet_step_run_of _ _ _ H1 Hs). apply IH.
  by rewrite (quiet_step_run_of _ _ _ H1 Hs).
Qed.

Lemma descends_run_of (t0 t : Tree) (root tok : AuditToken) :
  is_Some (run_of t0 root) -> descends t0 root t tok -> run_of t tok = run_of t0 root.
Proof.
  intros Hs. induction 1 as [t Hq | t t' p c Hd IH Hne Hq]; [by apply quiet_steps_run_of|].
  assert (is_tracked t p = true) as Ht.
  { unfold is_tracked, run_of in *. destruct (nodes t !! p); [done|].
    rewrite <- IH in Hs. by destruct Hs. }
  pose proof (record_fork_run_of t p c Ht) as Hf. rewrite IH in Hf.
  rewrite <- Hf. apply quiet_steps_run_of; [done|]. by rewrite Hf.
Qed.

(** ** Properties *)

(** Whatever the worker threads do, and in whatever order, the tree stays well
    formed: nodes are keyed by their own token, every parent and every tracked root
    is itself a node, and a node without a parent is its own root. *)
Theorem process_tree_invariant (t : Tree) : rtc tree_step new_tree t -> tree_wf t.
Proof.
  intros Hr. assert (tree_wf new_tree) as H0 by (constructor; intros *; simpl; by rewrite lookup_empty).
  induction Hr; eauto using tree_step_wf.
Qed.

Definition tok_a : AuditToken := mkToken 0 501 20 501 20 100 1 7.
Definition tok_b : AuditToken := mkToken 0 0 0 0 0 101 0 9.
Definition tok_c : AuditToken := mkToken 0 0 0 0 0 102 0 11.

Definition tree_ab : Tree := (record_fork (insert_root new_tree tok_a "run-1" "/bin/sh").1 tok_a tok_b).1.

Lemma process_tree_invariant_witness : tree_wf tree_ab.
Proof.
  apply (process_tree_invariant tree_ab).
  eapply rtc_l; [apply (step_insert_root new_tree tok_a "run-1" "/bin/sh")|].
  apply rtc_once, step_fork.
Defined.

(** A tracked process stays tracked: no operation of any thread ever removes a
    token from the tree, whether its run ends, its parent dies or it executes
    another program. *)
Theorem tracked_forever (t t' : Tree) (tok : AuditToken) :
  rtc tree_step t t' -> is_tracked t tok = true -> is_tracked t' tok = true.
Proof. induction 1; eauto using tree_step_tracked. Qed.

Lemma tracked_forever_witness : is_tracked (remove_run tree_ab "run-1").1 tok_b = true.
Proof.
  apply (tracked_forever tree_ab _ tok_b); [apply rtc_once, step_remove_run | by vm_compute].
Defined.

(** Every descendant belongs to its run: along any line of forks from a tracked
    process, with any other operations interleaved that neither report one of the
    line's tokens as a fork child again nor bind it as a root, the last descendant is
    tracked with the original process's root and run identifier. *)
Theorem descendants_inherit_run (t0 t : Tree) (root tok : AuditToken) (r : AuditToken) (u : string) :
  run_of t0 root = Some (r, u) -> descends t0 root t tok ->
  run_of t tok = Some (r, u) /\ is_tracked t tok = true.
Proof.
  intros H0 Hd. assert (run_of t tok = Some (r, u)) as Hrun.
  { rewrite <- H0. apply descends_run_of; [rewrite H0; eauto | done]. }
  split; [done|]. unfold run_of, is_tracked in *. by destruct (nodes t !! tok).
Qed.

Lemma descendants_inherit_run_witness :
  run_of (record_fork (record_exec tree_ab tok_b "/usr/bin/node").1 tok_b tok_c).1 tok_c
  = Some (tok_a, "run-1").
Proof.
  refine (proj1 (descendants_inherit_run (insert_root new_tree tok_a "run-1" "/bin/sh").1 _
            tok_a tok_c tok_a "run-1" eq_refl _)).
  eapply descends_fork with (p := tok_b); [|done|apply rtc_refl].
  eapply descends_fork with (p := tok_a); [apply descends_root, rtc_refl|done|].
  apply rtc_once, quiet_exec.
Defined.

(** [bind_run_root] can change the tracked root of a process already in the
    tree: binding a forked child as the root of another run moves it there, although
    the field is documented as never changed after the fork; the child still is no
    tracked root. *)
Theorem bind_run_root_rewrites_tracked_root :
  exists t tok u, rtc tree_step new_tree t
    /\ run_of t tok = Some (tok_a, "run-1")
    /\ run_of (bind_run_root t u tok) tok = Some (tok, u) /\ tok <> tok_a
    /\ is_tracked_root (bind_run_root t u tok) tok = false.
Proof.
  exists tree_ab, tok_b, "run-2". split_and!; [|by vm_compute..].
  eapply rtc_l; [apply (step_insert_root new_tree tok_a "run-1" "/bin/sh")|].
  apply rtc_once, step_fork.
Qed.
