(* ===== verification/Frame.v ===== *)
(** * Framing and dispatch

    [crates/guard-ipc/src/frame.rs], [error.rs] and
    [crates/guard-daemon/src/ipc_dispatch.rs].  A reader is the list of bytes still
    to come (an end of file after them), a writer the bytes written so far with the
    error its next write meets, if any.  The CBOR codec of a message type is the
    class [Cbor]. *)

From S2P Require Import Prelude RustStr.

(** ** Errors and codecs *)

Inductive IpcError : Type :=
| Io (msg : string)
| FrameTooLarge (got max : N)
| IpcCodec (msg : string)
| SchemaMismatch (expected got : Z)
| PeerAuth (msg : string)
| NonceReplay (expected got : N).

#[export] Instance IpcError_eq_dec : EqDecision IpcError.
Proof. solve_decision. Defined.

Class Cbor (T : Type) : Type := {
  into_writer : T -> result string string;
  from_reader : string -> result T string;
}.

(** What serde's derived implementations promise. *)
Definition cbor_round_trips (T : Type) `{Cbor T} : Prop :=
  forall (v : T) b, into_writer v = Ok b -> from_reader b = Ok v.

(** A codec for messages that are all [v]. *)
Definition toy_only {T} `{EqDecision T} (v : T) : Cbor T := {|
  into_writer x := if bool_decide (x = v) then Ok "p" else Err "unexpected";
  from_reader _ := Ok v;
|}.

Lemma toy_only_round_trips {T} `{EqDecision T} (v : T) : @cbor_round_trips T (toy_only v).
Proof. intros x b. cbn. case_bool_decide; [by subst|done]. Qed.

(** ** Big-endian length prefixes *)

Definition U32_MAX : N := 4294967295.

Definition to_be_bytes (n : N) : string :=
  String (ascii_of_N (N.shiftr n 24 mod 256)) (String (ascii_of_N (N.shiftr n 16 mod 256))
    (String (ascii_of_N (N.shiftr n 8 mod 256)) (String (ascii_of_N (n mod 256)) ""))).

Fixpoint from_be_go (s : string) (acc : N) : N :=
  match s with
  | EmptyString => acc
  | String a s' => from_be_go s' (acc * 256 + byte_val a)%N
  end.

Definition from_be_bytes (s : string) : N := from_be_go s 0.

(** ** I/O *)

Record Writer : Type := mkWriter {
  written : string;
  w_fault : option string;
}.

Definition write_all (w : Writer) (b : string) : result Writer IpcError :=
  match w_fault w with
  | Some e => Err (Io e)
  | None => Ok (mkWriter (written w +:+ b) None)
  end.

(** [Read::read_exact]: the bytes and what remains, or an unexpected end of file. *)
Definition read_exact (r : string) (n : nat) : result (string * string) IpcError :=
  if bool_decide (String.length r < n) then Err (Io "failed to fill whole buffer")
  else Ok (str_take n r, str_drop n r).

Definition MAX_FRAME_BYTES : N := 65536.
Definition MAX_SNAPSHOT_FRAME_BYTES : N := 4194304.
Definition FRAME_LENGTH_BYTES : nat := 4.

Section Frames.
Context {T : Type} `{Cbor T}.

(** On a 64-bit target [usize::try_from(max_frame_bytes)] cannot fail. *)
Definition write_frame_with_limit (w : Writer) (value : T) (max_frame_bytes : N)
  : result Writer IpcError :=
  let? buf := map_err IpcCodec (into_writer value) in
  let len := N.of_nat (String.length buf) in
  if bool_decide (max_frame_bytes < len)%N
    then Err (FrameTooLarge (if bool_decide (len <= U32_MAX)%N then len else U32_MAX) max_frame_bytes)
  else if negb (bool_decide (len <= U32_MAX)%N)
    then Err (FrameTooLarge U32_MAX max_frame_bytes)
  else
    let? w1 := write_all w (to_be_bytes len) in
    write_all w1 buf.

Definition write_frame (w : Writer) (value : T) := write_frame_with_limit w value MAX_FRAME_BYTES.

(** The outcome and the bytes left in the reader. *)
Definition read_frame_with_limit (r : string) (max_frame_bytes : N)
  : result T IpcError * string :=
  match read_exact r FRAME_LENGTH_BYTES with
  | Err e => (Err e, "")
  | Ok (prefix, r1) =>
      let len := from_be_bytes prefix in
      if bool_decide (max_frame_bytes < len)%N then (Err (FrameTooLarge len max_frame_bytes), r1)
      else match read_exact r1 (N.to_nat len) with
           | Err e => (Err e, "")
           | Ok (payload, r2) => (map_err IpcCodec (from_reader payload), r2)
           end
  end.

Definition read_frame (r : string) := read_frame_with_limit r MAX_FRAME_BYTES.

(** Frames written one after another, and read one after another. *)
Fixpoint write_frames (w : Writer) (vs : list T) (max : N) : result Writer IpcError :=
  match vs with
  | [] => Ok w
  | v :: vs' => let? w' := write_frame_with_limit w v max in write_frames w' vs' max
  end.

Fixpoint read_frames (n : nat) (r : string) (max : N) : result (list T) IpcError * string :=
  match n with
  | O => (Ok [], r)
  | S n' =>
      match read_frame_with_limit r max with
      | (Err e, r') => (Err e, r')
      | (Ok v, r') =>
          match read_frames n' r' max with
          | (Ok vs, r'') => (Ok (v :: vs), r'')
          | (Err e, r'') => (Err e, r'')
          end
      end
  end.

(** ** Lemmas *)

Lemma byte_val_ascii_of_N (n : N) : (n < 256)%N -> byte_val (ascii_of_N n) = n.
Proof. apply N_ascii_embedding. Qed.

Lemma from_to_be_bytes (n : N) : (n <= U32_MAX)%N -> from_be_bytes (to_be_bytes n) = n.
Proof.
  intros Hn. unfold from_be_bytes, to_be_bytes. cbn [from_be_go].
  rewrite !byte_val_ascii_of_N by (apply N.mod_lt; lia).
  rewrite !N.shiftr_div_pow2. change (2 ^ 24)%N with 16777216%N.
  change (2 ^ 16)%N with 65536%N. change (2 ^ 8)%N with 256%N. unfold U32_MAX in Hn.
  rewrite (N.mod_small (n / 16777216)) by (apply N.Div0.div_lt_upper_bound; lia).
  pose proof (N.div_mod n 256 ltac:(lia)) as E1.
  pose proof (N.div_mod (n / 256) 256 ltac:(lia)) as E2.
  pose proof (N.div_mod (n / 65536) 256 ltac:(lia)) as E3.
  rewrite N.Div0.div_div in E2, E3. change (256 * 256)%N with 65536%N in E2.
  change (65536 * 256)%N with 16777216%N in E3. lia.
Qed.

Lemma read_exact_app (a b : string) : read_exact (a +:+ b) (String.length a) = Ok (a, b).
Proof.
  unfold read_exact. rewrite bool_decide_eq_false_2 by (rewrite length_app_str; lia).
  by rewrite str_take_app, str_drop_app.
Qed.

Lemma length_to_be_bytes (n : N) : String.length (to_be_bytes n) = FRAME_LENGTH_BYTES.
Proof. done. Qed.

Lemma write_frame_ok (w w' : Writer) (v : T) (max : N) :
  write_frame_with_limit w v max = Ok w' ->
  exists b, into_writer v = Ok b
    /\ (N.of_nat (String.length b) <= max)%N /\ (N.of_nat (String.length b) <= U32_MAX)%N
    /\ w' = mkWriter (written w +:+ to_be_bytes (N.of_nat (String.length b)) +:+ b) None.
Proof.
  unfold write_frame_with_limit. destruct (into_writer v) as [b|]; [|done]. simpl.
  case_bool_decide as Hmax; [done|]. case_bool_decide as Hu; [|done]. simpl.
  unfold write_all. destruct (w_fault w); [done|]. simpl. intros [= <-].
  exists b. rewrite app_assoc_str. split_and!; [done | lia | done | done].
Qed.

Lemma read_frame_app (v : T) (b rest : string) (max : N) :
  cbor_round_trips T -> into_writer v = Ok b ->
  (N.of_nat (String.length b) <= max)%N -> (N.of_nat (String.length b) <= U32_MAX)%N ->
  read_frame_with_limit (to_be_bytes (N.of_nat (String.length b)) +:+ b +:+ rest) max = (Ok v, rest).
Proof.
  intros Hrt Hb Hmax Hu. unfold read_frame_with_limit.
  rewrite <- (length_to_be_bytes (N.of_nat (String.length b))), read_exact_app, from_to_be_bytes by done.
  rewrite bool_decide_eq_false_2 by lia. rewrite Nat2N.id, read_exact_app.
  by rewrite (Hrt _ _ Hb).
Qed.

Lemma write_frames_ok (w w' : Writer) (vs : list T) (max rmax : N) :
  cbor_round_trips T -> (max <= rmax)%N -> write_frames w vs max = Ok w' ->
  exists s, written w' = written w +:+ s
    /\ forall rest, read_frames (length vs) (s +:+ rest) rmax = (Ok vs, rest).
Proof.
  intros Hrt Hm. revert w. induction vs as [|v vs IH]; intros w; simpl.
  - intros [= <-]. exists "". by rewrite app_nil_r_str.
  - destruct (write_frame_with_limit w v max) as [w1|] eqn:Hw; [|done]. intros Hws.
    apply write_frame_ok in Hw as (b & Hb & Hmax & Hu & ->).
    destruct (IH _ Hws) as (s & Hs & Hr). simpl in Hs.
    exists (to_be_bytes (N.of_nat (String.length b)) +:+ b +:+ s).
    rewrite Hs, !app_assoc_str. split; [done|]. intros rest.
    rewrite !app_assoc_str, (read_frame_app v) by (done || lia). by rewrite Hr.
Qed.

End Frames.

(** ** ipc_dispatch.rs *)

Inductive MessageTag : Type :=
| PrepareSnapshot | ForkEvent | ExecEvent | DylibLoaded | Resolve | EnvNotPropagatedGap
| Status | PromptChannelInit | InsertUserRule | ReadInstallArtifacts | BaselineCommit
| ListRules | DeleteInstallArtifacts | DenyNotify | ExecBlocked | PersistenceWrite | Ping
| DisableCuratedRule | EnableCuratedRule | PrepareSnapshotInputs | PublishSignedSnapshot.

#[export] Instance MessageTag_eq_dec : EqDecision MessageTag.
Proof. solve_decision. Defined.

Definition as_byte (t : MessageTag) : N :=
  match t with
  | PrepareSnapshot => 2 | ForkEvent => 3 | ExecEvent => 4 | DylibLoaded => 5 | Resolve => 6
  | EnvNotPropagatedGap => 8 | Status => 9 | PromptChannelInit => 10 | InsertUserRule => 11
  | ReadInstallArtifacts => 12 | BaselineCommit => 13 | ListRules => 14
  | DeleteInstallArtifacts => 17 | DenyNotify => 18 | ExecBlocked => 19 | PersistenceWrite => 20
  | Ping => 21 | DisableCuratedRule => 22 | EnableCuratedRule => 23
  | PrepareSnapshotInputs => 24 | PublishSignedSnapshot => 25
  end.

Definition from_byte (b : N) : option MessageTag :=
  match b with
  | 2 => Some PrepareSnapshot | 3 => Some ForkEvent | 4 => Some ExecEvent
  | 5 => Some DylibLoaded | 6 => Some Resolve | 8 => Some EnvNotPropagatedGap
  | 9 => Some Status | 10 => Some PromptChannelInit | 11 => Some InsertUserRule
  | 12 => Some ReadInstallArtifacts | 13 => Some BaselineCommit | 14 => Some ListRules
  | 17 => Some DeleteInstallArtifacts | 18 => Some DenyNotify | 19 => Some ExecBlocked
  | 20 => Some PersistenceWrite | 21 => Some Ping | 22 => Some DisableCuratedRule
  | 23 => Some EnableCuratedRule | 24 => Some PrepareSnapshotInputs
  | 25 => Some PublishSignedSnapshot
  | _ => None
  end%N.

Inductive DispatchError : Type := DispatchIo (msg : string) | UnknownTag (b : N).

Inductive FrameKind : Type :=
| LegacyUntagged (first_length_byte : N)
| Tagged (t : MessageTag).

(** One byte is read; the rest of the stream is left to the caller. *)
Definition classify_frame (r : string) : result (FrameKind * string) DispatchError :=
  match r with
  | EmptyString => Err (DispatchIo "failed to fill whole buffer")
  | String a r' =>
      let b := byte_val a in
      match from_byte b with
      | Some tag => Ok (Tagged tag, r')
      | None =>
          if bool_decide (b = 0%N) then Ok (LegacyUntagged b, r') else Err (UnknownTag b)
      end
  end.

Lemma from_byte_Some (b : N) (t : MessageTag) : from_byte b = Some t -> (2 <= b <= 25)%N /\ as_byte t = b.
Proof.
  unfold from_byte. destruct b as [|p]; [done|]. intros Hb.
  do 5 (try destruct p as [p|p|]; try done); simplify_eq/=; split; (done || lia).
Qed.

(** ** ipc_server.rs: tagged bodies *)

Definition max_frame_bytes_for_tag (tag : MessageTag) : N :=
  match tag with
  | PrepareSnapshotInputs | PublishSignedSnapshot => MAX_SNAPSHOT_FRAME_BYTES
  | _ => MAX_FRAME_BYTES
  end.

Definition read_tagged_body {T} `{Cbor T} (stream : string) (tag : MessageTag) : result T IpcError :=
  (read_frame_with_limit stream (max_frame_bytes_for_tag tag)).1.

(** The bytes of a reply on a stream that takes them. *)
Definition write_tagged {T} `{Cbor T} (tag : MessageTag) (msg : T) : string :=
  let head := String (ascii_of_N (as_byte tag)) "" in
  match write_frame_with_limit (mkWriter head None) msg (max_frame_bytes_for_tag tag) with
  | Ok w => written w
  | Err _ => head
  end.

(** ** Properties *)

(** Framing is lossless: whatever sequence of values is written to a stream,
    a reader whose limit is no smaller gets the same values back in order and stops
    exactly at the end of the last frame, whatever follows. *)
Theorem frames_round_trip {T} `{Cbor T} (w w' : Writer) (vs : list T) (max rmax : N)
    (round_trips : cbor_round_trips T) :
  (max <= rmax)%N -> write_frames w vs max = Ok w' ->
  exists sent, written w' = written w +:+ sent
    /\ forall rest, read_frames (length vs) (sent +:+ rest) rmax = (Ok vs, rest).
Proof. intros Hm Hw. by eapply write_frames_ok. Qed.

(** Strings as their own encoding. *)
#[local] Instance cbor_string : Cbor string := {| into_writer s := Ok s; from_reader s := Ok s |}.

Lemma frames_round_trip_witness :
  exists sent, forall rest, read_frames (T := string) 2 (sent +:+ rest) MAX_FRAME_BYTES = (Ok ["ab"; ""], rest).
Proof.
  destruct (frames_round_trip (mkWriter "" None)
              (mkWriter (to_be_bytes 2 +:+ "ab" +:+ to_be_bytes 0) None) ["ab"; ""]
              MAX_FRAME_BYTES MAX_FRAME_BYTES) as (sent & _ & Hr);
    [by intros v b [= <-] | lia | by vm_compute | by exists sent].
Defined.

(** The size bound holds on both sides: a writer emits nothing but frames whose
    payload is within the limit (and refuses the others without writing a byte), and
    a reader that meets a longer length prefix stops after its four bytes, before
    reading any of the payload. *)
Theorem frame_limit_enforced {T} `{Cbor T} (w : Writer) (v : T) (b : string) (max n : N) (rest : string) :
  into_writer v = Ok b -> (max <= U32_MAX)%N -> (max < n)%N -> (n <= U32_MAX)%N ->
  (is_ok (write_frame_with_limit w v max) = true ->
     (N.of_nat (String.length b) <= max)%N)
  /\ ((max < N.of_nat (String.length b))%N ->
       exists got, write_frame_with_limit w v max = Err (FrameTooLarge got max))
  /\ read_frame_with_limit (T := T) (to_be_bytes n +:+ rest) max = (Err (FrameTooLarge n max), rest).
Proof.
  intros Hb Hmax Hn Hu. split_and!.
  - destruct (write_frame_with_limit w v max) as [w'|] eqn:Hw; [|done]. intros _.
    apply write_frame_ok in Hw as (b' & Hb' & ? & _). rewrite Hb in Hb'. by simplify_eq.
  - intros Hlen. unfold write_frame_with_limit. rewrite Hb. simpl.
    rewrite bool_decide_eq_true_2 by done. eauto.
  - unfold read_frame_with_limit. rewrite <- (length_to_be_bytes n), read_exact_app.
    rewrite from_to_be_bytes by done. by rewrite bool_decide_eq_true_2.
Qed.

Lemma frame_limit_enforced_witness :
  read_frame_with_limit (T := string) (to_be_bytes 4294967295 +:+ "xyz") MAX_FRAME_BYTES
  = (Err (FrameTooLarge 4294967295 MAX_FRAME_BYTES), "xyz").
Proof.
  apply (frame_limit_enforced (mkWriter "" None) "ab" "ab" MAX_FRAME_BYTES 4294967295 "xyz");
    (done || by vm_compute).
Defined.

(** Dispatch on the first byte is unambiguous: every tag byte classifies as its
    own message, every legacy frame within the size limit starts with the zero byte
    that classifies as legacy, and any byte that is neither is refused. *)
Theorem classify_frame_correct (r : string) (t : MessageTag) (n : N) (a : ascii) :
  classify_frame (String (ascii_of_N (as_byte t)) r) = Ok (Tagged t, r)
  /\ ((n <= MAX_FRAME_BYTES)%N ->
       exists r', classify_frame (to_be_bytes n +:+ r) = Ok (LegacyUntagged 0, r'))
  /\ match classify_frame (String a r) with
     | Ok (Tagged t', r') => byte_val a = as_byte t' /\ r' = r
     | Ok (LegacyUntagged b, r') => byte_val a = 0%N /\ b = 0%N /\ r' = r
     | Err (UnknownTag b) => b = byte_val a /\ b <> 0%N /\ forall t', as_byte t' <> b
     | Err (DispatchIo _) => False
     end.
Proof.
  split_and!.
  - by destruct t.
  - intros Hn. unfold to_be_bytes. rewrite app_cons_str.
    assert (N.shiftr n 24 mod 256 = 0)%N as ->; [|simpl; eauto].
    rewrite N.shiftr_div_pow2. unfold MAX_FRAME_BYTES in Hn.
    rewrite (N.div_small n (2 ^ 24)); [done|]. change (2 ^ 24)%N with 16777216%N. lia.
  - destruct a as [[] [] [] [] [] [] [] []]; vm_compute; split_and?; try done; by intros [].
Qed.

(** tags 0x18 and 0x19 are dispatched although the documentation of the dispatch
    bounds the valid tags by 0x17, and 0x07, 0x0F and 0x10 inside the documented
    range are refused. *)
Theorem tag_range_differs_from_doc :
  from_byte 24 = Some PrepareSnapshotInputs /\ from_byte 25 = Some PublishSignedSnapshot
  /\ from_byte 7 = None /\ from_byte 15 = None /\ from_byte 16 = None
  /\ (forall b t, from_byte b = Some t -> (2 <= b <= 25)%N /\ as_byte t = b).
Proof.
  split_and!; [done..|]. apply from_byte_Some.
Qed.
