(* ===== verification/Handlers.v ===== *)
(** * Management handlers

    [crates/guard-daemon/src/management_auth.rs] and the handlers
    [insert_user_rule.rs], [disable_curated_rule.rs], [enable_curated_rule.rs] and
    [list_rules.rs], with the wire messages they answer
    ([crates/guard-ipc/src/messages.rs]).  A handler takes the store and returns it
    with the reply; a reply is its [Ok] or [Err] variant (the schema number of the
    reply type is constant). *)

From S2P Require Import Prelude RustStr RustNet Policy TrustedSigners Signature.
From S2P Require Import Paths RuleStore Snapshot.

(** ** Messages *)

Record InsertUserRule : Type := mkInsertUserRule {
  iu_kind : string;
  iu_match_type : string;
  iu_pattern : string;
  iu_reason : string;
  iu_created_at_unix_ms : Z;
  iu_origin : string;
  iu_run_uuid : option string;
  iu_signature : option RuleSignatureV1;
}.

Record DisableCuratedRule : Type := mkDisableCuratedRule {
  dc_pattern : string;
  dc_reason : string;
  dc_created_at_unix_ms : Z;
  dc_signature : option RuleSignatureV1;
}.

Record EnableCuratedRule : Type := mkEnableCuratedRule {
  ec_pattern : string;
  ec_created_at_unix_ms : Z;
  ec_signature : option RuleSignatureV1;
}.

Record WireRuleRow : Type := mkWireRow {
  wr_source : string;
  wr_kind : string;
  wr_match_type : string;
  wr_pattern : string;
  wr_reason : string;
}.

#[export] Instance WireRuleRow_eq_dec : EqDecision WireRuleRow.
Proof. solve_decision. Defined.

Definition ACTION_DISABLE_CURATED_RULE : string := "disable-curated-rule".
Definition ACTION_ENABLE_CURATED_RULE : string := "enable-curated-rule".

Section Handlers.
Context `{SqlEngine, TrustFs, Crypto}.

(** The payload an insert request asks to store. *)
Definition insert_payload (req : InsertUserRule) : RuleSignaturePayloadV1 :=
  new_rule_payload (iu_kind req) (iu_match_type req) (iu_pattern req) (iu_reason req)
    (iu_created_at_unix_ms req) (iu_origin req) (iu_run_uuid req).

Definition handle_insert_user_rule (req : InsertUserRule) (st : RuleStore)
    (policy : RuleSignaturePolicy) : RuleStore * result Z string :=
  if negb (bool_decide (iu_kind req ∈ ["allow"; "deny"]))
    then (st, Err ("invalid kind: " +:+ iu_kind req))
  else if negb (bool_decide (iu_match_type req ∈ ["exact"; "suffix"; "ip"]))
    then (st, Err ("invalid match_type: " +:+ iu_match_type req))
  else if blank (iu_reason req) then (st, Err "reason must be non-empty (D-39)")
  else if blank (iu_pattern req) then (st, Err "pattern must be non-empty")
  else if bool_decide (iu_created_at_unix_ms req <= 0)%Z
    then (st, Err "created_at_unix_ms must be present for signed rules")
  else if blank (iu_origin req) then (st, Err "origin must be present for signed rules")
  else match iu_signature req with
  | None => (st, Err "signed rule attestation required")
  | Some signature =>
      let payload := insert_payload req in
      match verify_rule_signature payload signature policy with
      | Err e => (st, Err ("rule signature verification failed: " +:+ show_signature_error e))
      | Ok _ =>
          match is_trusted_rule_signer st (sig_public_key_sha256 signature)
                  (sig_signer_kind signature) with
          | Ok false => (st, Err ("untrusted rule signer: " +:+ sig_public_key_sha256 signature))
          | Err e => (st, Err ("rule_store: " +:+ show_store_error e))
          | Ok true =>
              let '(st', r) := insert_signed_user_rule st payload signature in
              (st', map_err (fun e => "rule_store: " +:+ show_store_error e) r)
          end
      end
  end.

Definition authorize_management_action (st : RuleStore) (policy : RuleSignaturePolicy)
    (action pattern reason : string) (created_at_unix_ms : Z) (signature : option RuleSignatureV1)
  : result unit string :=
  if bool_decide (created_at_unix_ms <= 0)%Z then Err "signed management authorization required"
  else match signature with
  | None => Err "signed management authorization required"
  | Some s =>
      let payload := new_management_payload action pattern reason created_at_unix_ms in
      let? _ := map_err (fun e => "management authorization verification failed: "
                                  +:+ show_signature_error e)
                  (verify_management_action_signature payload s policy) in
      match is_trusted_rule_signer st (sig_public_key_sha256 s) (sig_signer_kind s) with
      | Ok true => Ok tt
      | Ok false => Err ("untrusted management signer: " +:+ sig_public_key_sha256 s)
      | Err e => Err ("rule_store: " +:+ show_store_error e)
      end
  end.

(** The [Debug] quoting of the pattern in the third message is not reproduced. *)
Definition handle_disable_curated_rule (req : DisableCuratedRule) (st : RuleStore) (now : Z)
    (curated : list AllowlistEntry) (policy : RuleSignaturePolicy)
  : RuleStore * result unit string :=
  if blank (dc_pattern req) then (st, Err "pattern must be non-empty")
  else if blank (dc_reason req) then (st, Err "reason must be non-empty")
  else if negb (existsb (fun e => bool_decide (e_pattern e = dc_pattern req)) curated)
    then (st, Err ("no curated rule matches pattern " +:+ dc_pattern req))
  else match authorize_management_action st policy ACTION_DISABLE_CURATED_RULE (dc_pattern req)
               (dc_reason req) (dc_created_at_unix_ms req) (dc_signature req) with
  | Err e => (st, Err e)
  | Ok _ =>
      let '(st', r) := disable_curated_rule st now (dc_pattern req) (dc_reason req) in
      (st', map_err (fun e => "rule_store: " +:+ show_store_error e) r)
  end.

Definition handle_enable_curated_rule (req : EnableCuratedRule) (st : RuleStore)
    (policy : RuleSignaturePolicy) : RuleStore * result bool string :=
  if blank (ec_pattern req) then (st, Err "pattern must be non-empty")
  else match authorize_management_action st policy ACTION_ENABLE_CURATED_RULE (ec_pattern req)
               "" (ec_created_at_unix_ms req) (ec_signature req) with
  | Err e => (st, Err e)
  | Ok _ =>
      let '(st', r) := enable_curated_rule st (ec_pattern req) in
      (st', map_err (fun e => "rule_store: " +:+ show_store_error e) r)
  end.

Definition rule_row_from_storage (r : StoredRule) : WireRuleRow :=
  mkWireRow (st_source r) (st_kind r) (st_match_type r) (st_pattern r) (st_reason r).

Definition kind_text (k : RuleKind) : string := match k with Allow => "allow" | Deny => "deny" end.
Definition match_type_text (m : MatchType) : string :=
  match m with Exact => "exact" | Suffix => "suffix" | Ip => "ip" end.

Definition curated_to_rule_row (e : AllowlistEntry) (disabled : bool) : WireRuleRow :=
  mkWireRow (if disabled then "builtin (disabled)" else "builtin") (kind_text (e_kind e))
    (match_type_text (e_match_type e)) (e_pattern e) (e_reason e).

Definition handle_list_rules (include_builtins : bool) (st : RuleStore)
    (curated : list AllowlistEntry) : result (list WireRuleRow) string :=
  match all_rules_with_source st with
  | Err e => Err ("rule_store: " +:+ show_store_error e)
  | Ok rs =>
      let rows := rule_row_from_storage <$> rs in
      if include_builtins then
        match disabled_curated_patterns st with
        | Err e => Err ("rule_store (overrides): " +:+ show_store_error e)
        | Ok disabled =>
            Ok (rows ++ ((fun e => curated_to_rule_row e (bool_decide (e_pattern e ∈ disabled)))
                         <$> curated))
        end
      else Ok rows
  end.

(** ** Lemmas *)

(** A management signature by a trusted signer over exactly this action. *)
Definition authorized (st : RuleStore) (policy : RuleSignaturePolicy)
    (action pattern reason : string) (created_at : Z) (signature : option RuleSignatureV1) : Prop :=
  (0 < created_at)%Z
  /\ exists s bytes, signature = Some s
       /\ cbor_management_payload (new_management_payload action pattern reason created_at) = Ok bytes
       /\ Authentic bytes s policy
       /\ is_trusted_rule_signer st (sig_public_key_sha256 s) (sig_signer_kind s) = Ok true.

Lemma map_err_ok {A E F} (f : E -> F) (r : result A E) (a : A) : map_err f r = Ok a <-> r = Ok a.
Proof. destruct r; simpl; split; congruence. Qed.

Lemma authorize_ok (st : RuleStore) (policy : RuleSignaturePolicy) (action pattern reason : string)
    (created_at : Z) (signature : option RuleSignatureV1) :
  authorize_management_action st policy action pattern reason created_at signature = Ok tt
  <-> authorized st policy action pattern reason created_at signature.
Proof.
  unfold authorize_management_action, authorized, verify_management_action_signature,
    canonical_management_action_payload_bytes. split.
  - case_bool_decide as Hc; [done|]. destruct signature as [s|]; [|done]. simpl. intros Ha.
    destruct (verify_payload _ _ _ _ _) as [[]|] eqn:Hv; [|done]. simpl in Ha.
    apply verify_payload_ok in Hv as (_ & b & Hb%map_err_ok & Hau).
    destruct (is_trusted_rule_signer _ _ _) as [[]|] eqn:Ht; [|done..].
    split; [lia|]. by exists s, b.
  - intros (Hc & s & b & -> & Hb & Hau & Ht). rewrite bool_decide_eq_false_2 by lia.
    match goal with |- context [verify_payload ?a ?b ?c s policy] =>
      assert (verify_payload a b c s policy = Ok tt) as -> end.
    { apply verify_payload_ok. split; [done|]. exists b. by rewrite Hb. }
    simpl. by rewrite Ht.
Qed.

End Handlers.

#[local] Existing Instances toy_sql toy_fs toy_crypto.

(** ** Properties *)

(** A rule enters the store only with its attestation: the insert handler
    answers with an identifier exactly when the request is well formed, its
    signature verifies over exactly the rule requested, the signer is trusted and
    the transaction commits; the store then holds that rule and signature, and on
    every error it is unchanged. *)
Theorem insert_handler_attested `{SqlEngine, TrustFs, Crypto} (req : InsertUserRule)
    (st st' : RuleStore) (policy : RuleSignaturePolicy) (r : result Z string) :
  handle_insert_user_rule req st policy = (st', r) ->
  match r with
  | Ok id =>
      exists s, iu_signature req = Some s
        /\ check_rule (iu_kind req) (iu_match_type req) = true
        /\ blank (iu_reason req) = false /\ blank (iu_pattern req) = false
        /\ (0 < iu_created_at_unix_ms req)%Z
        /\ verify_rule_signature (insert_payload req) s policy = Ok tt
        /\ is_trusted_rule_signer st (sig_public_key_sha256 s) (sig_signer_kind s) = Ok true
        /\ rules (db st') !! id = Some (mkRuleRow (iu_kind req) (iu_match_type req) (iu_pattern req)
             (iu_reason req) (iu_created_at_unix_ms req))
        /\ rule_signatures (db st') !! id = Some (mkSigRow s (iu_origin req) (iu_run_uuid req)
             (iu_created_at_unix_ms req))
        /\ delete id (rules (db st')) = delete id (rules (db st))
        /\ curated_overrides (db st') = curated_overrides (db st)
  | Err _ => st' = st
  end.
Proof.
  unfold handle_insert_user_rule.
  case_bool_decide as Hk; [|by intros [= <- <-]]. case_bool_decide as Hm; [|by intros [= <- <-]].
  simpl. destruct (blank (iu_reason req)); [by intros [= <- <-]|].
  destruct (blank (iu_pattern req)); [by intros [= <- <-]|].
  case_bool_decide as Hc; [by intros [= <- <-]|].
  destruct (blank (iu_origin req)); [by intros [= <- <-]|].
  destruct (iu_signature req) as [s|]; [|by intros [= <- <-]].
  destruct (verify_rule_signature (insert_payload req) s policy) as [[]|] eqn:Hv; [|by intros [= <- <-]].
  destruct (is_trusted_rule_signer _ _ _) as [[]|] eqn:Ht; [|by intros [= <- <-]..].
  unfold insert_signed_user_rule.
  destruct (insert_signed_tx (db st) (insert_payload req) s) as [[id d]|] eqn:Hi;
    [|by intros [= <- <-]].
  intros [= <- <-]. simpl. apply insert_signed_tx_ok in Hi as (Hck & _ & _ & ->). simpl.
  exists s. rewrite !lookup_insert_eq, delete_insert_eq.
  split_and!; try done. lia.
Qed.

Definition toy_insert : InsertUserRule :=
  mkInsertUserRule "allow" "exact" "user.example" "mine" 1 "baseline" None (Some toy_sig).

Lemma insert_handler_attested_witness :
  exists s, iu_signature toy_insert = Some s
    /\ verify_rule_signature (insert_payload toy_insert) s Production = Ok tt.
Proof.
  destruct (@insert_handler_attested toy_sql toy_fs toy_crypto toy_insert toy_store
              (handle_insert_user_rule toy_insert toy_store Production).1 Production (Ok 1%Z))
    as (s & Hs & _ & _ & _ & _ & Hv & _); [by vm_compute|]. by exists s.
Defined.

(** Disabling or enabling a built-in rule needs the user's signature over that
    action: the overrides change only when the request carries an authentic
    signature, by a trusted signer, of the action, the pattern and the reason
    applied; every refused request leaves the store as it was. *)
Theorem curated_overrides_need_authorization `{SqlEngine, TrustFs, Crypto}
    (d : DisableCuratedRule) (e : EnableCuratedRule) (st : RuleStore) (now : Z)
    (curated : list AllowlistEntry) (policy : RuleSignaturePolicy) :
  (let '(st', r) := handle_disable_curated_rule d st now curated policy in
   match r with
   | Ok _ => authorized st policy ACTION_DISABLE_CURATED_RULE (dc_pattern d) (dc_reason d)
               (dc_created_at_unix_ms d) (dc_signature d)
             /\ (exists c, c ∈ curated /\ e_pattern c = dc_pattern d)
             /\ st' = (disable_curated_rule st now (dc_pattern d) (dc_reason d)).1
   | Err _ => st' = st
   end)
  /\ (let '(st', r) := handle_enable_curated_rule e st policy in
      match r with
      | Ok was => authorized st policy ACTION_ENABLE_CURATED_RULE (ec_pattern e) ""
                    (ec_created_at_unix_ms e) (ec_signature e)
                  /\ st' = (enable_curated_rule st (ec_pattern e)).1
                  /\ was = bool_decide (is_Some (curated_overrides (db st) !! ec_pattern e))
      | Err _ => st' = st
      end).
Proof.
  split.
  - unfold handle_disable_curated_rule. destruct (blank (dc_pattern d)); [done|].
    destruct (blank (dc_reason d)); [done|].
    destruct (existsb _ curated) eqn:Hex; [|done]. simpl.
    destruct (authorize_management_action _ _ _ _ _ _ _) as [[]|] eqn:Ha; [|done].
    apply authorize_ok in Ha. apply existsb_exists in Hex as (c & Hc & Hp%bool_decide_eq_true).
    unfold disable_curated_rule. destruct (stmt _); simpl; [|done].
    split_and!; [done | | done]. exists c. split; [by apply list_elem_of_In | done].
  - unfold handle_enable_curated_rule. destruct (blank (ec_pattern e)); [done|].
    destruct (authorize_management_action _ _ _ _ _ _ _) as [[]|] eqn:Ha; [|done].
    apply authorize_ok in Ha. unfold enable_curated_rule. destruct (stmt _); simpl; [|done].
    split_and!; [done..|]. by destruct (curated_overrides (db st) !! ec_pattern e).
Qed.

(** A management signature can be replayed: nothing in the check depends on the
    time or on earlier requests, so a signed disable request is accepted again, and
    takes effect again, after the rule has been re-enabled. *)
Theorem management_signature_replayable :
  exists (d : DisableCuratedRule) (e : EnableCuratedRule) (curated : list AllowlistEntry),
    let '(st1, r1) := handle_disable_curated_rule d toy_store 10 curated Production in
    let '(st2, r2) := handle_enable_curated_rule e st1 Production in
    let '(st3, r3) := handle_disable_curated_rule d st2 99999 curated Production in
    r1 = Ok tt /\ r2 = Ok true /\ r3 = Ok tt
    /\ curated_overrides (db st2) !! "registry.npmjs.org" = None
    /\ is_Some (curated_overrides (db st3) !! "registry.npmjs.org").
Proof.
  set (sign := fun p => toy_sign "tpm" "K"
    (unwrap_or (canonical_management_action_payload_bytes p) "") 1).
  exists (mkDisableCuratedRule "registry.npmjs.org" "compromised" 1
            (Some (sign (new_management_payload ACTION_DISABLE_CURATED_RULE "registry.npmjs.org"
                           "compromised" 1)))),
         (mkEnableCuratedRule "registry.npmjs.org" 2
            (Some (sign (new_management_payload ACTION_ENABLE_CURATED_RULE "registry.npmjs.org" "" 2)))),
         [npm].
  vm_compute. by eauto 10.
Qed.

(** What [rules list] shows is what a snapshot enforces: with a working engine
    the listing succeeds and shows the stored user rules in order followed by every
    curated rule, marked disabled exactly when a snapshot built from this store's
    overrides leaves it out. *)
Theorem list_rules_matches_snapshot `{SqlEngine, TrustFs, Crypto} (st : RuleStore)
    (curated : list AllowlistEntry) (no_fault : forall n, sql_fault n = None) :
  exists user disabled,
    disabled_curated_patterns st = Ok disabled
    /\ length user = size (rules (db st))
    /\ handle_list_rules true st curated
       = Ok (user ++ ((fun e => curated_to_rule_row e (bool_decide (e_pattern e ∈ disabled))) <$> curated))
    /\ forall e, e ∈ curated ->
         (wr_source (curated_to_rule_row e (bool_decide (e_pattern e ∈ disabled))) = "builtin"
          <-> e ∈ entries (build_snapshot (mkBuildInput "r" 0 curated disabled [] []))).
Proof.
  assert (forall n, stmt n = Ok tt) as Hst by (intros n; unfold stmt; by rewrite no_fault).
  unfold handle_list_rules, all_rules_with_source, disabled_curated_patterns. rewrite !Hst.
  eexists _, _. split_and!; [done | | done |].
  - rewrite !length_fmap. apply length_rows_by_id.
  - intros e He. rewrite build_snapshot_elem. unfold in_force. simpl. rewrite !elem_of_nil.
    case_bool_decide as Hd; simpl; split; try done; [|by auto]. by intros [[_ ?]|[|]].
Qed.

Lemma list_rules_matches_snapshot_witness :
  exists user disabled, disabled_curated_patterns toy_store1 = Ok disabled
    /\ length user = 1
    /\ handle_list_rules true toy_store1 [npm]
       = Ok (user ++ ((fun e => curated_to_rule_row e (bool_decide (e_pattern e ∈ disabled))) <$> [npm])).
Proof.
  destruct (@list_rules_matches_snapshot toy_sql toy_fs toy_crypto toy_store1 [npm] (fun _ => eq_refl))
    as (u & d & Hd & Hu & Hl & _). by exists u, d.
Defined.
