(* ===== verification/Prompt.v ===== *)
(** * Prompt support

    [crates/guard-daemon/src/prompt/], [baseline_staging.rs] and the
    [DeferredResolveTable] of [ipc_server.rs].  Time is an [Instant] in
    milliseconds.  A [crossbeam] channel of capacity one is a cell: the verdict
    sent, if any, and whether a sender is still alive. *)

From S2P Require Import Prelude RustStr RustNet Policy.

(** ** recent_gaps.rs: the newest hundred coverage gaps *)

Definition CAPACITY : nat := 100.

Definition ring_push {A} (ring : list A) (gap : A) : list A :=
  (if bool_decide (CAPACITY <= length ring) then tail ring else ring) ++ [gap].

(** ** suggested_rules.rs *)

Record SuggestedRule : Type := mkSuggested {
  sr_match_type : string;
  sr_pattern : string;
}.

Definition SHARED_CDN_SLDS : list string :=
  ["s3.amazonaws.com"; "cloudfront.net"; "blob.core.windows.net"; "herokuapp.com"; "vercel.app";
   "netlify.app"; "github.io"; "azurewebsites.net"].

Definition is_likely_ip (host : string) : bool :=
  match parse_ipv4 host with
  | Some _ => true
  | None => match parse_ipv6 host with Some _ => true | None => false end
  end.

Definition generate_suggested_rules (host : string) : list SuggestedRule :=
  let out := [mkSuggested "exact" host] in
  if is_likely_ip host then out
  else
    let labels := split_on "." host in
    if bool_decide (length labels < 3) then out
    else
      let parent := join "." (tail labels) in
      out ++ (if bool_decide (parent ∈ SHARED_CDN_SLDS) then [mkSuggested "exact" parent] else [])
          ++ [mkSuggested "suffix" ("." +:+ parent)].

(** ** baseline_staging.rs *)

Record ProposedRule : Type := mkProposed {
  pr_match_type : string;
  pr_pattern : string;
  pr_reason : string;
}.

#[export] Instance ProposedRule_eq_dec : EqDecision ProposedRule.
Proof. solve_decision. Defined.

Abbreviation Staging := (gmap string (list ProposedRule)).

Definition record_allow (g : Staging) (run_uuid match_type pattern reason : string) : Staging :=
  let entries := default [] (g !! run_uuid) in
  if existsb (fun r => bool_decide (pr_match_type r = match_type)
                       && bool_decide (pr_pattern r = pattern)) entries
  then <[run_uuid := entries]> g
  else <[run_uuid := entries ++ [mkProposed match_type pattern reason]]> g.

Definition staging_take (g : Staging) (run_uuid : string) : Staging * option (list ProposedRule) :=
  (delete run_uuid g, g !! run_uuid).

Definition peek_count (g : Staging) (run_uuid : string) : nat :=
  match g !! run_uuid with Some l => length l | None => 0 end.

(** ** dedup.rs *)

Definition WINDOW : Z := 5000.

Abbreviation Dedup := (gmap (string * string * N) (string * Z)).

Inductive CoalesceOutcome : Type := Fresh | Existing (prompt_id : string).

#[export] Instance CoalesceOutcome_eq_dec : EqDecision CoalesceOutcome.
Proof. solve_decision. Defined.

Definition coalesce_with_now (g : Dedup) (now : Z) (run_uuid host : string) (port : N)
    (new_prompt_id : string) : Dedup * CoalesceOutcome :=
  let key := (run_uuid, host, port) in
  let fresh := (<[key := (new_prompt_id, (now + WINDOW)%Z)]> g, Fresh) in
  match g !! key with
  | Some (existing_id, expires) =>
      if bool_decide (now < expires)%Z then (g, Existing existing_id) else fresh
  | None => fresh
  end.

Definition forget (g : Dedup) (run_uuid host : string) (port : N) : Dedup :=
  delete (run_uuid, host, port) g.

Definition gc_expired (g : Dedup) (now : Z) : Dedup :=
  filter (fun '(_, (_, expires)) => (now < expires)%Z) g.

(** ** DeferredResolveTable *)

Record DeferredEntry : Type := mkDeferred {
  de_run_uuid : string;
  de_host : string;
  de_port : N;
  de_sender : nat;
}.

#[export] Instance DeferredEntry_eq_dec : EqDecision DeferredEntry.
Proof. solve_decision. Defined.

Record Chan : Type := mkChan {
  ch_value : option Verdict;
  ch_alive : bool;
}.

#[export] Instance Chan_eq_dec : EqDecision Chan.
Proof. solve_decision. Defined.

(** The table, the channels its entries hold the senders of, and the counter of
    prompt identifiers (a [u64] that wraps). *)
Record Deferred : Type := mkDeferredTable {
  pending : gmap string DeferredEntry;
  chans : gmap nat Chan;
  next_chan : nat;
  counter : N;
}.

Definition new_deferred : Deferred := mkDeferredTable ∅ ∅ 0 0.

Definition U64_MOD : N := 18446744073709551616.

Definition show_prompt_id (n : N) : string := "p-" +:+ zero_pad 8 (pretty n).

Definition next_prompt_id (t : Deferred) : Deferred * string :=
  (mkDeferredTable (pending t) (chans t) (next_chan t) ((counter t + 1) mod U64_MOD)%N,
   show_prompt_id (counter t)).

(** [crossbeam_channel::bounded(1)]. *)
Definition new_channel (t : Deferred) : Deferred * nat :=
  (mkDeferredTable (pending t) (<[next_chan t := mkChan None true]> (chans t)) (S (next_chan t))
     (counter t), next_chan t).

Definition set_chans (t : Deferred) (c : gmap nat Chan) : Deferred :=
  mkDeferredTable (pending t) c (next_chan t) (counter t).
Definition set_pending (t : Deferred) (p : gmap string DeferredEntry) : Deferred :=
  mkDeferredTable p (chans t) (next_chan t) (counter t).

(** [Sender::send] into the empty cell, and the drop of the only sender. *)
Definition chan_send (v : Verdict) (c : Chan) : Chan :=
  mkChan (match ch_value c with None => Some v | s => s end) (ch_alive c).
Definition chan_drop (c : Chan) : Chan := mkChan (ch_value c) false.

Definition send_on (t : Deferred) (e : DeferredEntry) (v : Verdict) : Deferred :=
  set_chans t (alter (chan_send v) (de_sender e) (chans t)).
Definition drop_entry (t : Deferred) (e : DeferredEntry) : Deferred :=
  set_chans t (alter chan_drop (de_sender e) (chans t)).

(** [HashMap::insert] drops the entry it replaces. *)
Definition deferred_insert (t : Deferred) (prompt_id : string) (e : DeferredEntry) : Deferred :=
  let t1 := match pending t !! prompt_id with Some old => drop_entry t old | None => t end in
  set_pending t1 (<[prompt_id := e]> (pending t1)).

Definition take_full (t : Deferred) (prompt_id : string) : Deferred * option DeferredEntry :=
  (set_pending t (delete prompt_id (pending t)), pending t !! prompt_id).

(** [let _ = table.take(id)]: the sender taken out is dropped at once. *)
Definition take_and_drop (t : Deferred) (prompt_id : string) : Deferred :=
  match take_full t prompt_id with
  | (t', Some e) => drop_entry t' e
  | (t', None) => t'
  end.

Definition take_full_for_run (t : Deferred) (prompt_id run_uuid : string)
  : Deferred * option DeferredEntry :=
  match pending t !! prompt_id with
  | Some e => if negb (bool_decide (de_run_uuid e = run_uuid)) then (t, None)
              else take_full t prompt_id
  | None => take_full t prompt_id
  end.

Definition take_full_if_owned (t : Deferred) (prompt_id run_uuid : string)
  : Deferred * result (option DeferredEntry) string :=
  match pending t !! prompt_id with
  | None => (t, Ok None)
  | Some e =>
      if bool_decide (de_run_uuid e = run_uuid)
      then let '(t', o) := take_full t prompt_id in (t', Ok o)
      else (t, Err (de_run_uuid e))
  end.

(** The body of the loop of [drain_for_run]. *)
Definition drain_one (acc : Deferred * list (string * N)) (k : string)
  : Deferred * list (string * N) :=
  let '(t, drained) := acc in
  match take_full t k with
  | (t', Some e) => (drop_entry (send_on t' e VDeny) e, drained ++ [(de_host e, de_port e)])
  | (t', None) => (t', drained)
  end.

#[global] Arguments drain_one : simpl never.

Definition drain_for_run (t : Deferred) (run_uuid : string) : Deferred * list (string * N) :=
  let to_remove := (map_to_list (filter (fun '(_, e) => de_run_uuid e = run_uuid) (pending t))).*1 in
  foldl drain_one (t, []) to_remove.

(** ** Invariant of the table: parked senders are alive, unanswered and distinct *)

Record deferred_wf (t : Deferred) : Prop := {
  dw_chan : forall id e, pending t !! id = Some e -> chans t !! de_sender e = Some (mkChan None true);
  dw_inj : forall id id' e e', pending t !! id = Some e -> pending t !! id' = Some e' ->
    de_sender e = de_sender e' -> id = id';
  dw_next : forall c, is_Some (chans t !! c) -> c < next_chan t;
}.

Lemma alter_ne_Some (f : Chan -> Chan) (m : gmap nat Chan) (i k : nat) (c : Chan) :
  k <> i -> m !! k = Some c -> alter f i m !! k = Some c.
Proof. intros Hne Hk. by rewrite lookup_alter_ne. Qed.

Lemma deferred_wf_new : deferred_wf new_deferred.
Proof. constructor; intros *; simpl; rewrite ?lookup_empty; try done; by intros []. Qed.

Lemma next_prompt_id_wf (t : Deferred) : deferred_wf t -> deferred_wf (next_prompt_id t).1.
Proof. by intros [Hc Hi Hn]; constructor. Qed.

(** Removing an entry, then sending on or dropping its sender any number of times. *)
Lemma take_full_wf (t : Deferred) (id : string) (e : DeferredEntry) (f : Chan -> Chan) :
  deferred_wf t -> pending t !! id = Some e ->
  deferred_wf (set_chans (take_full t id).1 (alter f (de_sender e) (chans t))).
Proof.
  intros [Hc Hi Hn] He. constructor; simpl.
  - intros i x [Hne Hx]%lookup_delete_Some. apply alter_ne_Some; [|eauto].
    intros Heq. apply Hne. by apply (Hi id i e x).
  - intros i i' x x' [_ Hx]%lookup_delete_Some [_ Hx']%lookup_delete_Some. by apply Hi.
  - intros c Hs. apply Hn. by rewrite lookup_alter_is_Some in Hs.
Qed.

Lemma deferred_insert_fresh_wf (t : Deferred) (id run host : string) (port : N) :
  deferred_wf t -> pending t !! id = None ->
  deferred_wf (let '(t1, c) := new_channel t in deferred_insert t1 id (mkDeferred run host port c)).
Proof.
  intros [Hc Hi Hn] Hid. unfold deferred_insert. simpl. rewrite Hid.
  assert (forall i x, pending t !! i = Some x -> de_sender x < next_chan t) as Hlt.
  { intros i x Hx. apply Hn. rewrite (Hc i x Hx). eauto. }
  constructor; simpl.
  - intros i x [[<- <-] | [_ Hx]]%lookup_insert_Some; simpl; [by rewrite lookup_insert_eq|].
    rewrite lookup_insert_ne; [eauto|]. specialize (Hlt i x Hx). lia.
  - intros i i' x x' [[<- <-] | [Hne Hx]]%lookup_insert_Some [[<- <-] | [Hne' Hx']]%lookup_insert_Some;
      simpl; [done | | | by apply Hi].
    + specialize (Hlt _ _ Hx'). lia.
    + specialize (Hlt _ _ Hx). lia.
  - intros c Hs. destruct (decide (c = next_chan t)) as [->|Hne]; [lia|].
    rewrite lookup_insert_ne in Hs by done. specialize (Hn _ Hs). lia.
Qed.

(** ** Lemmas: draining a run *)

Lemma drain_one_Some (t : Deferred) (l : list (string * N)) (k : string) (e : DeferredEntry) :
  pending t !! k = Some e ->
  drain_one (t, l) k
  = (set_chans (take_full t k).1
       (alter (fun c => chan_drop (chan_send VDeny c)) (de_sender e) (chans t)),
     l ++ [(de_host e, de_port e)]).
Proof.
  intros He. unfold drain_one, take_full. rewrite He. simpl. unfold drop_entry, send_on, set_chans.
  simpl. f_equal. f_equal. apply map_eq. intros i.
  destruct (decide (i = de_sender e)) as [->|Hne].
  - rewrite !lookup_alter_eq. by destruct (chans t !! de_sender e).
  - by rewrite !lookup_alter_ne by done.
Qed.

Lemma drain_one_None (t : Deferred) (l : list (string * N)) (k : string) :
  pending t !! k = None -> drain_one (t, l) k = ((take_full t k).1, l).
Proof. intros He. unfold drain_one, take_full. by rewrite He. Qed.

(** The loop leaves alone a channel no entry of the table sends on. *)
Lemma foldl_drain_other (ks : list string) (t t' : Deferred) (l l' : list (string * N)) (k : string)
    (c : nat) :
  foldl drain_one (t, l) ks = (t', l') ->
  pending t !! k = None -> (forall i x, pending t !! i = Some x -> de_sender x <> c) ->
  pending t' !! k = None /\ chans t' !! c = chans t !! c.
Proof.
  revert t l. induction ks as [|i ks IH]; simpl; intros t l; [by intros [= <- <-]|].
  intros Hf Hp Hx. destruct (pending t !! i) as [x|] eqn:Hi.
  - rewrite (drain_one_Some _ _ _ _ Hi) in Hf. apply IH in Hf as [? Hc].
    + split; [done|]. rewrite Hc. simpl. apply lookup_alter_ne. by eapply Hx.
    + simpl. rewrite lookup_delete_None. by right.
    + simpl. intros j y [_ Hy]%lookup_delete_Some. by eapply Hx.
  - rewrite (drain_one_None _ _ _ Hi) in Hf. apply IH in Hf; [done | |].
    + simpl. rewrite lookup_delete_None. by right.
    + simpl. intros j y [_ Hy]%lookup_delete_Some. by eapply Hx.
Qed.

(** What the loop does to the table, the channels and the list it returns. *)
Lemma foldl_drain_spec (ks : list string) (t t' : Deferred) (l l' : list (string * N)) :
  deferred_wf t -> foldl drain_one (t, l) ks = (t', l') ->
  deferred_wf t'
  /\ (forall x, x ∈ l -> x ∈ l')
  /\ forall id e, pending t !! id = Some e ->
       (id ∈ ks -> pending t' !! id = None
          /\ chans t' !! de_sender e = Some (mkChan (Some VDeny) false)
          /\ (de_host e, de_port e) ∈ l')
       /\ (id ∉ ks -> pending t' !! id = Some e
             /\ chans t' !! de_sender e = Some (mkChan None true)).
Proof.
  revert t l. induction ks as [|k ks IH]; intros t l Hwf; simpl.
  - intros [= <- <-]. split_and!; [done..|]. intros id e He. split; [by intros ?%elem_of_nil|].
    intros _. split; [done|]. by eapply dw_chan.
  - destruct (pending t !! k) as [e0|] eqn:Hk.
    + rewrite (drain_one_Some _ _ _ _ Hk). intros Hf.
      destruct (IH _ _ (take_full_wf t k e0 _ Hwf Hk) Hf) as (Hwf' & Hl & Hid).
      split_and!; [done | set_solver |].
      intros id e He. destruct (decide (id = k)) as [->|Hne].
      * rewrite Hk in He. injection He as ->. split; [|set_solver]. intros _.
        destruct (foldl_drain_other _ _ _ _ _ k (de_sender e) Hf) as [Hp Hc]; simpl.
        { by rewrite lookup_delete_eq. }
        { intros i x [Hne Hx]%lookup_delete_Some Heq. apply Hne. symmetry. by eapply (dw_inj _ Hwf). }
        split_and!; [done | | apply Hl; set_solver].
        rewrite Hc. simpl. by rewrite lookup_alter_eq, (dw_chan _ Hwf _ _ Hk).
      * destruct (Hid id e) as [H1 H2]; [simpl; by rewrite lookup_delete_ne|].
        split; intros Hin; [apply H1 | apply H2]; set_solver.
    + rewrite (drain_one_None _ _ _ Hk).
      assert ((take_full t k).1 = t) as ->.
      { unfold take_full, set_pending. simpl. rewrite delete_id by done. by destruct t. }
      intros Hf. destruct (IH t l Hwf Hf) as (Hwf' & Hl & Hid). split_and!; [done | done |].
      intros id e He. destruct (Hid id e He) as [H1 H2].
      assert (id <> k) by congruence. split; intros Hin; [apply H1 | apply H2]; set_solver.
Qed.

(** ** Lemmas: staging, dedup, the ring *)

Definition same_rule (a b : ProposedRule) : Prop :=
  pr_match_type a = pr_match_type b /\ pr_pattern a = pr_pattern b.

(** One record call per argument tuple. *)
Definition record_all (g : Staging) (calls : list (string * ProposedRule)) : Staging :=
  foldl (fun g '(u, r) => record_allow g u (pr_match_type r) (pr_pattern r) (pr_reason r)) g calls.

Definition rule_key (r : ProposedRule) : string * string := (pr_match_type r, pr_pattern r).

Lemma existsb_rule_key (l : list ProposedRule) (m p : string) :
  existsb (fun r => bool_decide (pr_match_type r = m) && bool_decide (pr_pattern r = p)) l = true
  <-> (m, p) ∈ rule_key <$> l.
Proof.
  rewrite existsb_exists, list_elem_of_fmap. split.
  - intros (r & Hr & Hb). bool_split. exists r. split; [by subst | by apply list_elem_of_In].
  - intros (r & Hk & Hr). injection Hk as -> ->. exists r. split; [by apply list_elem_of_In|].
    by rewrite !bool_decide_eq_true_2.
Qed.

Lemma record_allow_lookup (g : Staging) (u u' m p r : string) :
  u <> u' -> record_allow g u m p r !! u' = g !! u'.
Proof. intros. unfold record_allow. cbv zeta. destruct (existsb _ _); by rewrite lookup_insert_ne. Qed.

Lemma record_allow_keys (g : Staging) (u m p r : string) :
  let before := rule_key <$> default [] (g !! u) in
  rule_key <$> default [] (record_allow g u m p r !! u)
  = if bool_decide ((m, p) ∈ before) then before else before ++ [(m, p)].
Proof.
  unfold record_allow. cbv zeta. destruct (existsb _ _) eqn:He; rewrite lookup_insert_eq; simpl.
  - rewrite existsb_rule_key in He. by rewrite bool_decide_eq_true_2.
  - rewrite bool_decide_eq_false_2; [by rewrite fmap_app|].
    rewrite <- existsb_rule_key. congruence.
Qed.

Lemma ring_push_drop {A} (l : list A) (x : A) (n : nat) :
  n = length l - CAPACITY -> ring_push (drop n l) x = drop (length (l ++ [x]) - CAPACITY) (l ++ [x]).
Proof.
  intros ->. unfold ring_push. rewrite length_drop, length_app. simpl. unfold CAPACITY.
  case_bool_decide.
  - replace (length l + 1 - 100) with (length l - 100 + 1) by lia.
    rewrite drop_app_le by lia. f_equal. rewrite <- drop_drop.
    by destruct (drop (length l - 100) l).
  - replace (length l + 1 - 100) with 0 by lia. replace (length l - 100) with 0 by lia. done.
Qed.

(** ** Properties *)

(** A closed prompt channel releases every waiter of its run and of no other
    run: draining sends Deny on the channel of each prompt parked for the run,
    removes it from the table and reports its destination, and leaves the prompts of
    other runs parked with their channels open. *)
Theorem drain_releases_run (t t' : Deferred) (run_uuid : string) (drained : list (string * N)) :
  deferred_wf t -> drain_for_run t run_uuid = (t', drained) ->
  deferred_wf t'
  /\ forall id e, pending t !! id = Some e ->
       if bool_decide (de_run_uuid e = run_uuid)
       then pending t' !! id = None
            /\ chans t' !! de_sender e = Some (mkChan (Some VDeny) false)
            /\ (de_host e, de_port e) ∈ drained
       else pending t' !! id = Some e /\ chans t' !! de_sender e = Some (mkChan None true).
Proof.
  intros Hwf Hd. unfold drain_for_run in Hd.
  destruct (foldl_drain_spec _ _ _ _ _ Hwf Hd) as (Hwf' & _ & Hid). split; [done|].
  intros id e He. destruct (Hid id e He) as [H1 H2].
  assert (id ∈ (map_to_list (filter (fun '(_, e) => de_run_uuid e = run_uuid) (pending t))).*1
          <-> de_run_uuid e = run_uuid) as Hiff.
  { rewrite list_elem_of_fmap. split.
    - intros ([i x] & -> & Hin%elem_of_map_to_list). apply map_lookup_filter_Some in Hin as [Hx Hr].
      simpl in *. congruence.
    - intros Hr. exists (id, e). split; [done|]. apply elem_of_map_to_list.
      by apply map_lookup_filter_Some. }
  case_bool_decide as Hr; [apply H1 | apply H2]; by rewrite Hiff.
Qed.

Definition sample_table : Deferred :=
  let '(t1, id1) := next_prompt_id new_deferred in
  let '(t2, c1) := new_channel t1 in
  let t3 := deferred_insert t2 id1 (mkDeferred "run-a" "a.example" 443 c1) in
  let '(t4, id2) := next_prompt_id t3 in
  let '(t5, c2) := new_channel t4 in
  deferred_insert t5 id2 (mkDeferred "run-b" "b.example" 443 c2).

Lemma sample_table_wf : deferred_wf sample_table.
Proof.
  apply (deferred_insert_fresh_wf _ "p-00000001" "run-b" "b.example" 443); [|by vm_compute].
  apply next_prompt_id_wf.
  apply (deferred_insert_fresh_wf _ "p-00000000" "run-a" "a.example" 443); [|by vm_compute].
  apply next_prompt_id_wf, deferred_wf_new.
Qed.

Lemma drain_releases_run_witness :
  let '(t', drained) := drain_for_run sample_table "run-a" in
  pending t' !! "p-00000001" = Some (mkDeferred "run-b" "b.example" 443 1)
  /\ drained = [("a.example", 443%N)].
Proof.
  destruct (drain_for_run sample_table "run-a") as [t' drained] eqn:Hd.
  destruct (drain_releases_run sample_table t' "run-a" drained sample_table_wf Hd) as [_ Hall].
  specialize (Hall "p-00000001" (mkDeferred "run-b" "b.example" 443 1) eq_refl). simpl in Hall.
  split; [apply Hall|]. apply (f_equal snd) in Hd. simpl in Hd. rewrite <- Hd. by vm_compute.
Defined.

(** Prompts belong to their run: a response or cancellation that names another
    run's prompt takes nothing, changes nothing and learns only the owner, while the
    owner's takes exactly the entry; and prompt identifiers never repeat before the
    64-bit counter wraps. *)
Theorem prompt_ownership (t : Deferred) (id run_uuid : string) (e : DeferredEntry) (m n : N) :
  pending t !! id = Some e -> (m < U64_MOD)%N -> (n < U64_MOD)%N ->
  (de_run_uuid e <> run_uuid ->
     take_full_if_owned t id run_uuid = (t, Err (de_run_uuid e))
     /\ take_full_for_run t id run_uuid = (t, None))
  /\ (de_run_uuid e = run_uuid ->
       exists t', take_full_if_owned t id run_uuid = (t', Ok (Some e))
         /\ pending t' = delete id (pending t) /\ chans t' = chans t)
  /\ (show_prompt_id m = show_prompt_id n -> m = n)
  /\ (next_prompt_id t).2 = show_prompt_id (counter t).
Proof.
  intros He _ _. unfold take_full_if_owned, take_full_for_run. rewrite He. split_and!.
  - intros Hne. rewrite !bool_decide_eq_false_2 by done. done.
  - intros <-. rewrite bool_decide_eq_true_2 by done. unfold take_full. rewrite He. eauto.
  - unfold show_prompt_id. intros H. injection H as H. by apply zero_pad_inj in H.
  - done.
Qed.

Lemma prompt_ownership_witness :
  take_full_if_owned sample_table "p-00000000" "run-b" = (sample_table, Err "run-a").
Proof.
  apply (prompt_ownership sample_table "p-00000000" "run-b" (mkDeferred "run-a" "a.example" 443 0) 0 1);
    (done || by vm_compute).
Defined.

(** Learned rules are collected without repetition and per run: after any
    sequence of recordings, the rules staged for a run are the distinct (match type,
    pattern) pairs recorded for that run, in the order they first appeared. *)
Theorem staging_collects_distinct (calls : list (string * ProposedRule)) (u : string) :
  let staged := rule_key <$> default [] (record_all ∅ calls !! u) in
  NoDup staged
  /\ (forall k, k ∈ staged <-> exists r, (u, r) ∈ calls /\ rule_key r = k).
Proof.
  induction calls as [|[v r] calls IH] using rev_ind; simpl.
  - unfold record_all. simpl. rewrite lookup_empty. split; [constructor|]. intros k.
    split; [by intros ?%elem_of_nil | intros (r & ?%elem_of_nil & _); done].
  - unfold record_all in *. rewrite foldl_snoc. destruct IH as [Hnd Hk].
    set (g := foldl _ ∅ calls) in *. destruct (decide (v = u)) as [->|Hne].
    + rewrite record_allow_keys. simpl in *. case_bool_decide as Hin.
      * split; [done|]. intros k. rewrite Hk. split.
        -- intros (x & Hx & <-). exists x. set_solver.
        -- intros (x & [Hx | Hx%list_elem_of_singleton]%elem_of_app & <-); [eauto|].
           injection Hx as ->. by apply Hk.
      * split.
        -- apply NoDup_app. split_and!; [done | set_solver | apply NoDup_singleton].
        -- intros k. rewrite elem_of_app, list_elem_of_singleton, Hk. split.
           ++ intros [(x & Hx & <-) | ->]; [exists x; set_solver | exists r; set_solver].
           ++ intros (x & [Hx | Hx%list_elem_of_singleton]%elem_of_app & <-); [eauto|].
              injection Hx as ->. by right.
    + rewrite record_allow_lookup by done. split; [done|]. intros k. rewrite Hk. split.
      * intros (x & Hx & <-). exists x. set_solver.
      * intros (x & [Hx | Hx%list_elem_of_singleton]%elem_of_app & <-); [eauto|]. congruence.
Qed.

(** the gap ring keeps the newest hundred gaps: after any sequence of pushes it
    holds exactly the last hundred pushed, oldest first. *)
Theorem ring_keeps_newest {A} (gaps : list A) :
  foldl ring_push [] gaps = drop (length gaps - CAPACITY) gaps /\ length (foldl ring_push [] gaps) <= CAPACITY.
Proof.
  assert (foldl ring_push [] gaps = drop (length gaps - CAPACITY) gaps) as H.
  { induction gaps as [|g gaps IH] using rev_ind; [done|]. rewrite foldl_snoc, IH.
    by apply ring_push_drop. }
  split; [done|]. rewrite H, length_drop. lia.
Qed.
