(* ===== verification/Resolve.v ===== *)
(** * Resolving names for wrapped processes, and prompting for the unknown ones

    [handlers/resolve.rs], the resolve path of [ipc_server.rs]
    ([handle_resolve_frame] and what it calls) and the response side of
    [handlers/prompt_channel.rs].  The handler of one request runs in a worker
    thread; it either answers at once or parks on a one-shot channel, and then
    answers from [finish_prompt].  The reply sent to the client is the outcome of
    the handler.  A prompt request and a log row keep the fields the decision
    depends on (package context, threat intelligence, time stamps and the all-zero
    process contexts of the rows are left out). *)

From S2P Require Import Prelude RustStr RustNet Policy TrustedSigners Signature.
From S2P Require Import Paths RuleStore Snapshot Handlers ProcessTree Prompt.

(** ** Messages and state *)

Definition IPC_SCHEMA_V2 : Z := 2.

Record ResolveMsg : Type := mkResolve {
  rq_schema_version : Z;
  rq_host : string;
  rq_port : N;
}.

Inductive SocketAddr : Type :=
| V4 (octets : list N) (port : N)
| V6 (octets : list N) (port : N).

Inductive ResolveReply : Type :=
| RAddresses (schema_version : Z) (addrs : list (list N))
| RDeny (schema_version : Z) (reason : string)
| RErr (schema_version : Z) (message : string).

(** [ResolveReply::addresses] and [ResolveReply::err]. *)
Definition Addresses (addrs : list (list N)) : ResolveReply := RAddresses IPC_SCHEMA_V2 addrs.
Definition ReplyErr (message : string) : ResolveReply := RErr IPC_SCHEMA_V2 message.

Record PromptRequest : Type := mkPromptRequest {
  pq_prompt_id : string;
  pq_dest_host : string;
  pq_dest_port : N;
  pq_source_kind : string;
  pq_pid : N;
  pq_pidversion : N;
  pq_argv0 : string;
  pq_suggested_rules : list SuggestedRule;
}.

Inductive PromptVerdict : Type := AllowOnce | AllowAlwaysMachine | PromptDeny.

Record RulePattern : Type := mkRulePattern {
  rpt_match_type : string;
  rpt_pattern : string;
}.

Record PromptResponse : Type := mkPromptResponse {
  ps_prompt_id : string;
  ps_verdict : PromptVerdict;
  ps_rule_pattern : option RulePattern;
  ps_signed_rule : option InsertUserRule;
}.

(** Rows of the block log: a decision, or a gap. *)
Inductive LogRow : Type :=
| Decision (verdict run_uuid dest_host : string) (dest_port : N) (source_kind : string)
| Gap (run_uuid gap_kind : string).

(** The part of [DaemonState] these handlers use.  [d_queues] holds the requests
    waiting in each open prompt channel. *)
Record Daemon : Type := mkDaemon {
  d_tree : Tree;
  d_staging : Staging;
  d_dedup : Dedup;
  d_deferred : Deferred;
  d_queues : gmap nat (list PromptRequest);
  d_store : RuleStore;
  d_policy : RuleSignaturePolicy;
  d_log : list LogRow;
}.

Definition upd_staging (d : Daemon) (s : Staging) : Daemon :=
  mkDaemon (d_tree d) s (d_dedup d) (d_deferred d) (d_queues d) (d_store d) (d_policy d) (d_log d).
Definition upd_dedup (d : Daemon) (x : Dedup) : Daemon :=
  mkDaemon (d_tree d) (d_staging d) x (d_deferred d) (d_queues d) (d_store d) (d_policy d) (d_log d).
Definition upd_deferred (d : Daemon) (x : Deferred) : Daemon :=
  mkDaemon (d_tree d) (d_staging d) (d_dedup d) x (d_queues d) (d_store d) (d_policy d) (d_log d).
Definition upd_queues (d : Daemon) (x : gmap nat (list PromptRequest)) : Daemon :=
  mkDaemon (d_tree d) (d_staging d) (d_dedup d) (d_deferred d) x (d_store d) (d_policy d) (d_log d).
Definition upd_store (d : Daemon) (x : RuleStore) : Daemon :=
  mkDaemon (d_tree d) (d_staging d) (d_dedup d) (d_deferred d) (d_queues d) x (d_policy d) (d_log d).
Definition log (d : Daemon) (r : LogRow) : Daemon :=
  mkDaemon (d_tree d) (d_staging d) (d_dedup d) (d_deferred d) (d_queues d) (d_store d) (d_policy d)
    (d_log d ++ [r]).

(** How a handler leaves: with a reply, by closing the stream without one, or
    parked on a channel until the prompt is answered. *)
Inductive Outcome : Type :=
| Replied (r : ResolveReply)
| Closed
| Parked (prompt_id : string) (chan : nat).

(** ** handlers/resolve.rs *)

(** The system resolver, the disk and the codec. *)
Class ResolveEnv : Type := {
  to_socket_addrs : string -> result (list SocketAddr) string;
  fs_read : string -> option string;
  resolve_codec :: SnapshotCodec;
  AF_INET6 : N;
}.

Definition SOCKADDR_WIRE_LEN : nat := 28.
Definition AF_INET : N := 2.

Definition be16 (n : N) : list N := [N.shiftr n 8 mod 256; n mod 256]%N.

Section Resolve.
Context `{ResolveEnv}.

(** Bytes by position, as the code writes them into a zeroed buffer. *)
Definition sockaddr_to_wire (sa : SocketAddr) : list N :=
  match sa with
  | V4 octets port => [16%N; AF_INET] ++ be16 port ++ octets ++ replicate 20 0%N
  | V6 octets port =>
      [28%N; AF_INET6] ++ be16 port ++ replicate 4 0%N ++ octets ++ replicate 4 0%N
  end.

Definition handle_resolve (host : string) (port : N) : ResolveReply :=
  match to_socket_addrs (host +:+ ":" +:+ pretty port) with
  | Err e => ReplyErr ("resolve " +:+ host +:+ ":" +:+ pretty port +:+ ": " +:+ e)
  | Ok resolved =>
      let wire := sockaddr_to_wire <$> resolved in
      match wire with
      | [] => ReplyErr ("resolve " +:+ host +:+ ":" +:+ pretty port +:+ ": no addresses")
      | _ => Addresses wire
      end
  end.

Definition load_run_entries (snapshot_path : string) : option (list AllowlistEntry) :=
  match fs_read snapshot_path with
  | None => None
  | Some bytes => match decode bytes with Ok snap => Some (entries snap) | Err _ => None end
  end.

(** ** ipc_server.rs: the policy gate *)

Record ResolvePolicyDeny : Type := mkPolicyDeny {
  pd_run_uuid : string;
  pd_source : SourceKind;
}.

Definition is_hard_resolve_deny (s : SourceKind) : bool :=
  match s with SrcConfirmedDeny | SrcBuiltinDeny | HardRule _ => true | _ => false end.

Definition write_resolve_policy_deny (d : Daemon) (req : ResolveMsg) (p : ResolvePolicyDeny)
  : Daemon * Outcome :=
  let source_kind := as_label (pd_source p) in
  (log d (Decision "Deny" (pd_run_uuid p) (rq_host req) (rq_port req) source_kind),
   Replied (ReplyErr ("denied by policy: " +:+ source_kind))).

Definition write_resolve_reply (req : ResolveMsg) : Outcome :=
  Replied (handle_resolve (rq_host req) (rq_port req)).

Definition run_of_peer (d : Daemon) (peer : AuditToken) : option RunRecord :=
  match get_node (d_tree d) peer with
  | Some node => get_run (d_tree d) (node_run_uuid node)
  | None => None
  end.

Definition learn_reason : string := "learn: recorded by stt-guard wrap --learn".

Definition resolve_policy_deny (d : Daemon) (peer : AuditToken) (req : ResolveMsg)
  : Daemon * option ResolvePolicyDeny :=
  match run_of_peer d peer with
  | None => (d, None)
  | Some run =>
      match load_run_entries (rr_snapshot_path run) with
      | None => (d, Some (mkPolicyDeny (rr_run_uuid run) (HardRule "fail-closed")))
      | Some es =>
          let '(verdict, source) := evaluate_policy (rq_host req) None false es in
          match verdict with
          | VAllow => (d, None)
          | VDeny =>
              if rr_baseline_mode run && negb (is_hard_resolve_deny source)
              then (upd_staging d (record_allow (d_staging d) (rr_run_uuid run) "exact"
                                     (rq_host req) learn_reason), None)
              else (d, Some (mkPolicyDeny (rr_run_uuid run) source))
          end
      end
  end.

(** ** ipc_server.rs: prompting *)

Definition prompt_eligible_run (d : Daemon) (peer : AuditToken) : option (string * bool) :=
  match run_of_peer d peer with
  | Some run =>
      if rr_is_tty run
         && match get_prompt_channel (d_tree d) (rr_run_uuid run) with Some _ => true | None => false end
      then Some (rr_run_uuid run, rr_baseline_mode run) else None
  | None => None
  end.

Definition resolve_prompt_request (d : Daemon) (peer : AuditToken) (req : ResolveMsg)
    (prompt_id : string) (source : SourceKind) : PromptRequest :=
  mkPromptRequest prompt_id (rq_host req) (rq_port req) (as_label source) (val5 peer) (val7 peer)
    (match get_node (d_tree d) peer with Some n => binary_path n | None => "" end)
    (generate_suggested_rules (rq_host req)).

Definition PROMPT_QUEUE : nat := 64.

(** [Sender::try_send] on a channel of capacity 64: refused when it is full or its
    receiver is gone. *)
Definition try_send (d : Daemon) (chan : nat) (r : PromptRequest) : option Daemon :=
  match d_queues d !! chan with
  | Some q =>
      if bool_decide (PROMPT_QUEUE <= length q) then None
      else Some (upd_queues d (<[chan := q ++ [r]]> (d_queues d)))
  | None => None
  end.

(** [send_prompted_resolve] up to the wait. *)
Definition send_prompted_resolve (d : Daemon) (now : Z) (peer : AuditToken) (req : ResolveMsg)
    (run_uuid : string) (source : SourceKind) : Daemon * Outcome :=
  let '(t1, prompt_id) := next_prompt_id (d_deferred d) in
  let '(g, outcome) := coalesce_with_now (d_dedup d) now run_uuid (rq_host req) (rq_port req) prompt_id in
  let effective_id := match outcome with Fresh => prompt_id | Existing other_id => other_id end in
  let '(t2, chan) := new_channel t1 in
  let t3 := deferred_insert t2 effective_id (mkDeferred run_uuid (rq_host req) (rq_port req) chan) in
  let d1 := upd_dedup (upd_deferred d t3) g in
  let request := resolve_prompt_request d1 peer req effective_id source in
  match get_prompt_channel (d_tree d1) run_uuid with
  | None => (upd_deferred d1 (take_and_drop (d_deferred d1) effective_id), Closed)
  | Some channel =>
      match try_send d1 channel request with
      | None => (upd_deferred d1 (take_and_drop (d_deferred d1) effective_id), write_resolve_reply req)
      | Some d2 => (d2, Parked effective_id chan)
      end
  end.

(** The rest of [send_prompted_resolve]: [recv_timeout] on the parked channel, with
    whether its 35 seconds are over; [None] while it keeps waiting. *)
Definition finish_prompt (d : Daemon) (req : ResolveMsg) (run_uuid effective_id : string)
    (chan : nat) (timed_out : bool) : option (Daemon * Outcome) :=
  let denied := ReplyErr ("connection to " +:+ rq_host req +:+ " denied by user") in
  let reclaimed := Some (upd_dedup (upd_deferred d (take_and_drop (d_deferred d) effective_id))
                         (forget (d_dedup d) run_uuid (rq_host req) (rq_port req)),
                       Replied denied) in
  match chans (d_deferred d) !! chan with
  | Some (mkChan (Some VAllow) _) => Some (d, write_resolve_reply req)
  | Some (mkChan (Some VDeny) _) => Some (d, Replied denied)
  | Some (mkChan None alive) => if timed_out || negb alive then reclaimed else None
  | None => reclaimed
  end.

Definition prompt_policy_blocks_without_prompt (d : Daemon) (req : ResolveMsg) (run_uuid : string)
    (source : SourceKind) : option (Daemon * Outcome) :=
  match source with
  | SrcConfirmedDeny | SrcBuiltinDeny =>
      Some (write_resolve_policy_deny d req (mkPolicyDeny run_uuid source))
  | _ => None
  end.

Definition try_handle_prompted_resolve (d : Daemon) (now : Z) (peer : AuditToken) (req : ResolveMsg)
  : option (Daemon * Outcome) :=
  match prompt_eligible_run d peer with
  | None => None
  | Some (run_uuid, is_baseline) =>
      let loaded := match get_run (d_tree d) run_uuid with
                    | Some run => load_run_entries (rr_snapshot_path run)
                    | None => None
                    end in
      let '(verdict, source) :=
        match loaded with
        | Some es => evaluate_policy (rq_host req) None false es
        | None => (VDeny, DefaultDeny)
        end in
      match verdict with
      | VAllow => Some (d, write_resolve_reply req)
      | VDeny =>
          match prompt_policy_blocks_without_prompt d req run_uuid source with
          | Some r => Some r
          | None =>
              if is_baseline && negb (bool_decide (source = SrcSuspectDeny))
              then Some (upd_staging d (record_allow (d_staging d) run_uuid "exact" (rq_host req)
                                          learn_reason), write_resolve_reply req)
              else Some (send_prompted_resolve d now peer req run_uuid source)
          end
      end
  end.

(** [handle_resolve_frame] on a decoded request. *)
Definition handle_resolve_frame (d : Daemon) (now : Z) (peer : AuditToken) (req : ResolveMsg)
  : Daemon * Outcome :=
  if negb (bool_decide (rq_schema_version req = IPC_SCHEMA_V2))
    then (d, Replied (ReplyErr ("schema_version " +:+ pretty (rq_schema_version req)
                                +:+ " != IPC_SCHEMA_V2")))
  else match try_handle_prompted_resolve d now peer req with
  | Some r => r
  | None =>
      let '(d1, deny) := resolve_policy_deny d peer req in
      match deny with
      | Some p => write_resolve_policy_deny d1 req p
      | None => (d1, write_resolve_reply req)
      end
  end.

End Resolve.

(** ** handlers/prompt_channel.rs *)

Section Channel.
Context `{SqlEngine, TrustFs, Crypto}.

Definition take_prompt_response_entry (d : Daemon) (run_uuid prompt_id : string)
  : Daemon * option DeferredEntry :=
  let '(t, r) := take_full_if_owned (d_deferred d) prompt_id run_uuid in
  (upd_deferred d t, match r with Ok entry_opt => entry_opt | Err _ => None end).

Definition emit_decision_row (d : Daemon) (run_uuid verdict source_kind dest_host : string)
    (dest_port : N) : Daemon :=
  log d (Decision verdict run_uuid dest_host dest_port source_kind).

Definition allow_always_machine_verdict (d : Daemon) (run_uuid dest_host : string) (dest_port : N)
    (signed_rule : option InsertUserRule) (rule_pattern : option RulePattern) : Daemon * Verdict :=
  let emit d v s := emit_decision_row d run_uuid v s dest_host dest_port in
  match signed_rule with
  | None => (emit d "Deny" "prompt_allow_machine_missing_signature", VDeny)
  | Some rule =>
      match rule_pattern with
      | None => (emit d "Deny" "prompt_allow_machine_missing_pattern", VDeny)
      | Some pat =>
          if negb (bool_decide (iu_kind rule = "allow"))
             || negb (bool_decide (iu_match_type rule = rpt_match_type pat))
             || negb (bool_decide (iu_pattern rule = rpt_pattern pat))
             || negb (bool_decide (iu_run_uuid rule = Some run_uuid))
          then (emit d "Deny" "prompt_allow_machine_signature_mismatch", VDeny)
          else
            let '(st, reply) := handle_insert_user_rule rule (d_store d) (d_policy d) in
            let d1 := upd_store d st in
            match reply with
            | Ok _ => (emit d1 "Allow" "prompt_allow_machine", VAllow)
            | Err _ => (emit d1 "Deny" "prompt_allow_machine_signature_rejected", VDeny)
            end
      end
  end.

Definition verdict_for_prompt_response (d : Daemon) (run_uuid : string) (resp : PromptResponse)
    (dest_host : string) (dest_port : N) : Daemon * Verdict :=
  match ps_verdict resp with
  | AllowOnce => (emit_decision_row d run_uuid "Allow" "prompt_allow_once" dest_host dest_port, VAllow)
  | AllowAlwaysMachine =>
      allow_always_machine_verdict d run_uuid dest_host dest_port (ps_signed_rule resp)
        (ps_rule_pattern resp)
  | PromptDeny => (emit_decision_row d run_uuid "Deny" "prompt_deny" dest_host dest_port, VDeny)
  end.

Definition dispatch_response (d : Daemon) (run_uuid : string) (resp : PromptResponse) : Daemon :=
  let '(d1, entry_opt) := take_prompt_response_entry d run_uuid (ps_prompt_id resp) in
  let dest_host := match entry_opt with Some e => de_host e | None => "" end in
  let dest_port := match entry_opt with Some e => de_port e | None => 0%N end in
  let '(d2, verdict) := verdict_for_prompt_response d1 run_uuid resp dest_host dest_port in
  match entry_opt with
  | Some e =>
      let t := drop_entry (send_on (d_deferred d2) e verdict) e in
      upd_dedup (upd_deferred d2 t) (forget (d_dedup d2) (de_run_uuid e) (de_host e) (de_port e))
  | None => d2
  end.

Definition dispatch_cancel (d : Daemon) (run_uuid prompt_id : string) : Daemon :=
  let '(t, r) := take_full_if_owned (d_deferred d) prompt_id run_uuid in
  match r with
  | Err _ => d
  | Ok entry_opt =>
      let d1 := upd_deferred d t in
      let d2 := match entry_opt with
        | Some e =>
            upd_dedup (upd_deferred d1 (drop_entry (send_on t e VDeny) e))
              (forget (d_dedup d1) (de_run_uuid e) (de_host e) (de_port e))
        | None => d1
        end in
      log d2 (Gap run_uuid "prompt-cancelled")
  end.

(** The cleanup of [run] when the channel's loop ends; [chan] is its receiver. *)
Definition channel_cleanup (d : Daemon) (run_uuid : string) (chan : nat) : Daemon :=
  let '(t, drained) := drain_for_run (d_deferred d) run_uuid in
  let g := foldl (fun g '(host, port) => forget g run_uuid host port) (d_dedup d) drained in
  mkDaemon (take_prompt_channel (d_tree d) run_uuid).1 (staging_take (d_staging d) run_uuid).1 g t
    (delete chan (d_queues d)) (d_store d) (d_policy d) (d_log d).

End Channel.

(** ** Lemmas *)

Section ResolveFacts.
Context `{ResolveEnv}.

(** The snapshot of a run decides a host. *)
Definition run_decides (run : RunRecord) (host : string) (v : Verdict * SourceKind) : Prop :=
  exists es, load_run_entries (rr_snapshot_path run) = Some es
             /\ evaluate_policy host None false es = v.

Lemma run_of_peer_uuid (d : Daemon) (peer : AuditToken) (run : RunRecord) :
  tree_wf (d_tree d) -> run_of_peer d peer = Some run ->
  get_run (d_tree d) (rr_run_uuid run) = Some run.
Proof.
  unfold run_of_peer, get_run. intros Hwf. destruct (get_node _ _) as [n|]; [|done].
  intros Hr. by rewrite (wf_run _ Hwf _ _ Hr).
Qed.

Lemma try_handle_cases (d : Daemon) (now : Z) (peer : AuditToken) (req : ResolveMsg)
    (run : RunRecord) :
  tree_wf (d_tree d) -> run_of_peer d peer = Some run ->
  rr_is_tty run = true -> is_Some (get_prompt_channel (d_tree d) (rr_run_uuid run)) ->
  try_handle_prompted_resolve d now peer req
  = let '(verdict, source) :=
      match load_run_entries (rr_snapshot_path run) with
      | Some es => evaluate_policy (rq_host req) None false es
      | None => (VDeny, DefaultDeny)
      end in
    match verdict with
    | VAllow => Some (d, write_resolve_reply req)
    | VDeny =>
        match prompt_policy_blocks_without_prompt d req (rr_run_uuid run) source with
        | Some r => Some r
        | None =>
            if rr_baseline_mode run && negb (bool_decide (source = SrcSuspectDeny))
            then Some (upd_staging d (record_allow (d_staging d) (rr_run_uuid run) "exact"
                                        (rq_host req) learn_reason), write_resolve_reply req)
            else Some (send_prompted_resolve d now peer req (rr_run_uuid run) source)
        end
    end.
Proof.
  intros Hwf Hrun Htty [c Hc]. unfold try_handle_prompted_resolve, prompt_eligible_run.
  rewrite Hrun, Htty, Hc. simpl. by rewrite (run_of_peer_uuid d peer run Hwf Hrun).
Qed.

Lemma try_handle_none (d : Daemon) (now : Z) (peer : AuditToken) (req : ResolveMsg)
    (run : RunRecord) :
  run_of_peer d peer = Some run ->
  rr_is_tty run = false \/ get_prompt_channel (d_tree d) (rr_run_uuid run) = None ->
  try_handle_prompted_resolve d now peer req = None.
Proof.
  intros Hrun Hor. unfold try_handle_prompted_resolve, prompt_eligible_run. rewrite Hrun.
  destruct Hor as [-> | ->]; [done|]. by rewrite andb_false_r.
Qed.

End ResolveFacts.

(** A run is either prompted interactively or not. *)
Lemma prompted_or_not (d : Daemon) (run : RunRecord) :
  (rr_is_tty run = true /\ is_Some (get_prompt_channel (d_tree d) (rr_run_uuid run)))
  \/ (rr_is_tty run = false \/ get_prompt_channel (d_tree d) (rr_run_uuid run) = None).
Proof.
  destruct (rr_is_tty run); [|by right; left].
  destruct (get_prompt_channel _ _); [by left; eauto | by right; right].
Qed.

(** ** Properties *)

(** A name a curated deny rule covers is never resolved: whatever the mode of
    the run (interactive or not, learning or not), the daemon refuses it at once,
    logs one block row, and neither prompts nor stages a rule. *)
Theorem curated_deny_never_resolved `{ResolveEnv} (d : Daemon) (now : Z) (peer : AuditToken)
    (req : ResolveMsg) (run : RunRecord) (source : SourceKind) :
  tree_wf (d_tree d) -> rq_schema_version req = IPC_SCHEMA_V2 ->
  run_of_peer d peer = Some run -> run_decides run (rq_host req) (VDeny, source) ->
  source = SrcBuiltinDeny \/ source = SrcConfirmedDeny ->
  handle_resolve_frame d now peer req
  = (log d (Decision "Deny" (rr_run_uuid run) (rq_host req) (rq_port req) (as_label source)),
     Replied (ReplyErr ("denied by policy: " +:+ as_label source))).
Proof.
  intros Hwf Hsch Hrun (es & Hes & Hev) Hsrc. unfold handle_resolve_frame.
  rewrite bool_decide_eq_true_2 by done. simpl.
  destruct (prompted_or_not d run) as [[Htty Hc] | Hor].
  - rewrite (try_handle_cases _ _ _ _ _ Hwf Hrun Htty Hc), Hes, Hev.
    by destruct Hsrc as [-> | ->].
  - rewrite (try_handle_none _ _ _ _ _ Hrun Hor). unfold resolve_policy_deny.
    rewrite Hrun, Hes, Hev. destruct Hsrc as [-> | ->]; simpl; by rewrite andb_false_r.
Qed.

(** A concrete daemon: one run with one process. *)
Definition toy_resolver : ResolveEnv := {|
  to_socket_addrs s := Ok [V4 [93; 184; 216; 34]%N 443];
  fs_read p := if bool_decide (p = "/s/runs/r.cbor") then Some "built" else None;
  resolve_codec := toy_codec;
  AF_INET6 := 30;
|}.

#[local] Existing Instances toy_resolver toy_sql toy_fs toy_crypto.

Definition toy_tree (tty baseline : bool) (chan : option nat) : Tree :=
  let t := insert_run (insert_root new_tree tok_a "r" "/bin/sh").1
             (mkRun "r" tok_a "/s/runs/r.cbor" "/s/runs/r.manifest" tty baseline) in
  match chan with Some c => set_prompt_channel t "r" c | None => t end.

Lemma toy_tree_wf (tty baseline : bool) (chan : option nat) : tree_wf (toy_tree tty baseline chan).
Proof.
  assert (rtc tree_step new_tree (toy_tree tty baseline chan)) as Hr.
  { eapply rtc_l; [apply (step_insert_root new_tree tok_a "r" "/bin/sh")|].
    eapply rtc_l; [apply step_insert_run|]. destruct chan; [apply rtc_once, step_channel | apply rtc_refl]. }
  assert (tree_wf new_tree) as Hw by (constructor; intros *; simpl; by rewrite lookup_empty).
  clear -Hr Hw. revert Hr Hw. generalize new_tree (toy_tree tty baseline chan).
  induction 1; eauto using tree_step_wf.
Qed.

Definition toy_daemon (tty baseline : bool) (chan : option nat) (queue : list PromptRequest) : Daemon :=
  mkDaemon (toy_tree tty baseline chan) ∅ ∅ new_deferred {[0 := queue]} toy_store Production [].

Lemma curated_deny_never_resolved_witness :
  (handle_resolve_frame (toy_daemon true true (Some 0) []) 0 tok_a
     (mkResolve IPC_SCHEMA_V2 "evil.workers.dev" 443)).2
  = Replied (ReplyErr "denied by policy: builtin-deny").
Proof.
  rewrite (curated_deny_never_resolved (toy_daemon true true (Some 0) []) 0 tok_a
    (mkResolve IPC_SCHEMA_V2 "evil.workers.dev" 443)
    (mkRun "r" tok_a "/s/runs/r.cbor" "/s/runs/r.manifest" true true) SrcBuiltinDeny);
    [done | apply toy_tree_wf | done | by vm_compute | | by left].
  exists (entries (build_snapshot sample_input)). split; by vm_compute.
Defined.

(** Without a prompt the daemon fails closed: for a process of a run that is not
    prompted, an unreadable or undecodable snapshot refuses the name; otherwise
    addresses are returned only when the policy allows the name or the run is
    learning and no hard rule, built-in deny or confirmed deny covers it, and in the
    learning case the name is staged. *)
Theorem unprompted_resolve_fails_closed `{ResolveEnv} (d d' : Daemon) (now : Z) (peer : AuditToken)
    (req : ResolveMsg) (run : RunRecord) (out : Outcome) :
  run_of_peer d peer = Some run ->
  rr_is_tty run = false \/ get_prompt_channel (d_tree d) (rr_run_uuid run) = None ->
  handle_resolve_frame d now peer req = (d', out) ->
  (exists reply, out = Replied reply)
  /\ (load_run_entries (rr_snapshot_path run) = None -> exists m, out = Replied (ReplyErr m))
  /\ forall addrs, out = Replied (Addresses addrs) ->
       exists es source, load_run_entries (rr_snapshot_path run) = Some es
         /\ ((evaluate_policy (rq_host req) None false es = (VAllow, source) /\ d' = d)
             \/ (evaluate_policy (rq_host req) None false es = (VDeny, source)
                 /\ rr_baseline_mode run = true /\ is_hard_resolve_deny source = false
                 /\ d' = upd_staging d (record_allow (d_staging d) (rr_run_uuid run) "exact"
                                          (rq_host req) learn_reason))).
Proof.
  intros Hrun Hor. unfold handle_resolve_frame.
  case_bool_decide as Hs; simpl; [|intros [= <- <-]; split_and!; eauto; done].
  rewrite (try_handle_none _ _ _ _ _ Hrun Hor). unfold resolve_policy_deny. rewrite Hrun.
  destruct (load_run_entries (rr_snapshot_path run)) as [es|] eqn:Hes.
  - destruct (evaluate_policy (rq_host req) None false es) as [[] source] eqn:Hev.
    + intros [= <- <-]. split_and!; [eexists; reflexivity | done|].
      intros addrs _. exists es, source. eauto.
    + destruct (rr_baseline_mode run) eqn:Hb, (is_hard_resolve_deny source) eqn:Hh; simpl;
        intros [= <- <-]; (split_and!; [eexists; reflexivity | done|]); intros addrs Ha;
        try discriminate Ha.
      exists es, source. split; [done|]. right. eauto.
  - intros [= <- <-]. split_and!; eauto; done.
Qed.

Lemma unprompted_resolve_fails_closed_witness :
  let '(d', out) := handle_resolve_frame (toy_daemon false false None []) 0 tok_a
                      (mkResolve IPC_SCHEMA_V2 "unknown.example" 443) in
  exists reply, out = Replied reply.
Proof.
  destruct (handle_resolve_frame (toy_daemon false false None []) 0 tok_a
              (mkResolve IPC_SCHEMA_V2 "unknown.example" 443)) as [d' out] eqn:He.
  apply (unprompted_resolve_fails_closed (toy_daemon false false None []) d' 0 tok_a
    (mkResolve IPC_SCHEMA_V2 "unknown.example" 443)
    (mkRun "r" tok_a "/s/runs/r.cbor" "/s/runs/r.manifest" false false) out); [by vm_compute | by left | done].
Defined.

(** Learning through a prompt channel stages and resolves hard-denied names: in
    an interactive learning run, any name a hard rule refuses (loopback, the cloud
    metadata address) and, when the snapshot cannot be read, any name at all is
    recorded as a proposed allow rule and resolved, although hard rules are
    documented to fire and not to be staged. *)
Theorem interactive_learning_opens_hard_denied `{ResolveEnv} (d : Daemon) (now : Z)
    (peer : AuditToken) (req : ResolveMsg) (run : RunRecord) :
  tree_wf (d_tree d) -> rq_schema_version req = IPC_SCHEMA_V2 ->
  run_of_peer d peer = Some run -> rr_is_tty run = true -> rr_baseline_mode run = true ->
  is_Some (get_prompt_channel (d_tree d) (rr_run_uuid run)) ->
  (hard_denied (rq_host req) None false \/ load_run_entries (rr_snapshot_path run) = None) ->
  handle_resolve_frame d now peer req
  = (upd_staging d (record_allow (d_staging d) (rr_run_uuid run) "exact" (rq_host req) learn_reason),
     Replied (handle_resolve (rq_host req) (rq_port req))).
Proof.
  intros Hwf Hsch Hrun Htty Hb Hc Hcase. unfold handle_resolve_frame.
  rewrite bool_decide_eq_true_2 by done. simpl.
  rewrite (try_handle_cases _ _ _ _ _ Hwf Hrun Htty Hc), Hb.
  destruct (load_run_entries (rr_snapshot_path run)) as [es|] eqn:Hes; [|done].
  destruct Hcase as [Hh|]; [|done].
  destruct (hard_denied_reflect (rq_host req) None false) as [[_ [n ->]] | [Hn _]]; done.
Qed.

Lemma interactive_learning_opens_hard_denied_witness :
  (handle_resolve_frame (toy_daemon true true (Some 0) []) 0 tok_a
     (mkResolve IPC_SCHEMA_V2 "169.254.169.254" 80)).2
  = Replied (handle_resolve "169.254.169.254" 80).
Proof.
  rewrite (interactive_learning_opens_hard_denied (toy_daemon true true (Some 0) []) 0 tok_a
    (mkResolve IPC_SCHEMA_V2 "169.254.169.254" 80)
    (mkRun "r" tok_a "/s/runs/r.cbor" "/s/runs/r.manifest" true true));
    [done | apply toy_tree_wf | done | by vm_compute | done | done | by vm_compute; eauto |].
  left. apply hard_rule_Some. by exists "cloud-metadata".
Defined.

(** ** Lemmas: answering prompts *)

Section ChannelFacts.
Context `{SqlEngine, TrustFs, Crypto}.

Definition same_prompts (d d' : Daemon) : Prop :=
  d_deferred d' = d_deferred d /\ d_dedup d' = d_dedup d.

(** Working out the verdict reads and writes the store and the log only. *)
Lemma verdict_same_prompts (d d' : Daemon) (u h : string) (p : N) (resp : PromptResponse) (v : Verdict) :
  verdict_for_prompt_response d u resp h p = (d', v) -> same_prompts d d'.
Proof.
  unfold verdict_for_prompt_response, allow_always_machine_verdict, same_prompts.
  destruct (ps_verdict resp); [by intros [= <- <-] | | by intros [= <- <-]].
  destruct (ps_signed_rule resp) as [rule|]; [|by intros [= <- <-]].
  destruct (ps_rule_pattern resp) as [pat|]; [|by intros [= <- <-]].
  destruct (_ || _); [by intros [= <- <-]|].
  destruct (handle_insert_user_rule _ _ _) as [st [id|e]]; by intros [= <- <-].
Qed.

(** The answers that allow. *)
Definition answer_allows (d : Daemon) (run_uuid : string) (resp : PromptResponse) : Prop :=
  match ps_verdict resp with
  | AllowOnce => True
  | PromptDeny => False
  | AllowAlwaysMachine =>
      exists rule pat, ps_signed_rule resp = Some rule /\ ps_rule_pattern resp = Some pat
        /\ iu_kind rule = "allow" /\ iu_match_type rule = rpt_match_type pat
        /\ iu_pattern rule = rpt_pattern pat /\ iu_run_uuid rule = Some run_uuid
        /\ is_ok (handle_insert_user_rule rule (d_store d) (d_policy d)).2 = true
  end.

Lemma verdict_allow_iff (d d' : Daemon) (u h : string) (p : N) (resp : PromptResponse) (v : Verdict) :
  verdict_for_prompt_response d u resp h p = (d', v) -> (v = VAllow <-> answer_allows d u resp).
Proof.
  unfold verdict_for_prompt_response, allow_always_machine_verdict, answer_allows.
  destruct (ps_verdict resp); [by intros [= <- <-] | | by intros [= <- <-]].
  destruct (ps_signed_rule resp) as [rule|]; [|intros [= <- <-]; split; [done | by intros (? & ? & ? & _)]].
  destruct (ps_rule_pattern resp) as [pat|];
    [|intros [= <- <-]; split; [done | by intros (? & ? & _ & ? & _)]].
  destruct (negb _ || _ || _ || _) eqn:Hb.
  - intros [= <- <-]. split; [done|]. intros (? & ? & [= <-] & [= <-] & H2 & H3 & H4 & H5 & _).
    rewrite !bool_decide_eq_true_2 in Hb by done. done.
  - bool_split. destruct (handle_insert_user_rule _ _ _) as [st [id|e]] eqn:Hi;
      intros [= <- <-]; split; try done.
    + intros _. exists rule, pat. rewrite Hi. done.
    + intros (? & ? & [= <-] & [= <-] & _ & _ & _ & _ & Hok). by rewrite Hi in Hok.
Qed.

End ChannelFacts.

(** The answer reaches the waiter it is for and nobody else: a response from the
    run that owns a parked prompt removes the prompt, delivers on its channel Allow
    exactly when the user allowed once, or allowed always with a signed rule for
    that run and pattern which the store accepted, and Deny otherwise; every other
    parked prompt is left as it was. *)
Theorem response_delivers_verdict `{SqlEngine, TrustFs, Crypto} (d : Daemon) (run_uuid : string)
    (resp : PromptResponse) (e : DeferredEntry) :
  deferred_wf (d_deferred d) ->
  pending (d_deferred d) !! ps_prompt_id resp = Some e -> de_run_uuid e = run_uuid ->
  let d' := dispatch_response d run_uuid resp in
  pending (d_deferred d') !! ps_prompt_id resp = None
  /\ (exists v, chans (d_deferred d') !! de_sender e = Some (mkChan (Some v) false)
        /\ (v = VAllow <-> answer_allows d run_uuid resp))
  /\ (forall id x, id <> ps_prompt_id resp -> pending (d_deferred d) !! id = Some x ->
        pending (d_deferred d') !! id = Some x
        /\ chans (d_deferred d') !! de_sender x = Some (mkChan None true)).
Proof.
  intros Hwf He Hrun. unfold dispatch_response, take_prompt_response_entry, take_full_if_owned.
  rewrite He, bool_decide_eq_true_2 by done. unfold take_full. rewrite He.
  destruct (verdict_for_prompt_response _ _ _ _ _) as [d2 v] eqn:Hv.
  pose proof (verdict_same_prompts _ _ _ _ _ _ _ Hv) as [Hd2 _].
  apply verdict_allow_iff in Hv. simpl in *. rewrite Hd2. simpl. split_and!.
  - by rewrite lookup_delete_eq.
  - exists v. split; [|done]. rewrite !lookup_alter_eq, (dw_chan _ Hwf _ _ He). done.
  - intros id x Hne Hx. split; [by rewrite lookup_delete_ne|].
    assert (de_sender x <> de_sender e) by (intros ?; apply Hne; by eapply (dw_inj _ Hwf)).
    rewrite !lookup_alter_ne by done. by apply (dw_chan _ Hwf id).
Qed.

Definition resp_once (id : string) : PromptResponse := mkPromptResponse id AllowOnce None None.

Definition sample_daemon : Daemon :=
  mkDaemon (toy_tree true false (Some 0)) ∅ ∅ sample_table {[0 := []]} toy_store Production [].

Lemma response_delivers_verdict_witness :
  pending (d_deferred (dispatch_response sample_daemon "run-a" (resp_once "p-00000000"))) !! "p-00000000"
  = None.
Proof.
  apply (@response_delivers_verdict toy_sql toy_fs toy_crypto sample_daemon "run-a"
           (resp_once "p-00000000") (mkDeferred "run-a" "a.example" 443 0));
    [apply sample_table_wf | by vm_compute | done].
Defined.

(** A repeated request revokes the first prompt: two connections of one run to
    the same destination within the window share a prompt identifier, but the second
    replaces the entry of the first, so the first waiter is refused at once without
    any answer from the user; its cleanup then removes the entry of the second, so
    that the user's Allow finds nothing and the second is refused too.  Both requests
    are also sent to the user. *)
Theorem coalesced_prompt_denies_both :
  let req := mkResolve IPC_SCHEMA_V2 "unknown.example" 443 in
  let id := "p-00000000" in
  let denied := Replied (ReplyErr "connection to unknown.example denied by user") in
  let '(d1, o1) := handle_resolve_frame (toy_daemon true false (Some 0) []) 0 tok_a req in
  let '(d2, o2) := handle_resolve_frame d1 1000 tok_a req in
  o1 = Parked id 0 /\ o2 = Parked id 1
  /\ length (default [] (d_queues d2 !! 0)) = 2
  /\ finish_prompt d1 req "r" id 0 false = None
  /\ match finish_prompt d2 req "r" id 0 false with
     | Some (d3, o3) =>
         o3 = denied
         /\ option_map snd (finish_prompt (dispatch_response d3 "r" (resp_once id)) req "r" id 1 false)
            = Some denied
     | None => False
     end.
Proof. vm_compute. repeat split; reflexivity. Qed.

(** A full prompt channel resolves the name: when the channel of an interactive
    run is saturated the request is answered with the addresses of a name the policy
    denies, where the channel's documentation has the handler fall through to a
    denial. *)
Theorem saturated_channel_fails_open `{ResolveEnv} (d : Daemon) (now : Z) (peer : AuditToken)
    (req : ResolveMsg) (run_uuid : string) (source : SourceKind) (chan : nat) (q : list PromptRequest) :
  get_prompt_channel (d_tree d) run_uuid = Some chan ->
  d_queues d !! chan = Some q -> PROMPT_QUEUE <= length q ->
  (send_prompted_resolve d now peer req run_uuid source).2
  = Replied (handle_resolve (rq_host req) (rq_port req)).
Proof.
  intros Hc Hq Hfull. unfold send_prompted_resolve.
  destruct (next_prompt_id _) as [t1 pid]. destruct (coalesce_with_now _ _ _ _ _ _) as [g o].
  destruct (new_channel t1) as [t2 c]. simpl. rewrite Hc. unfold try_send. simpl. rewrite Hq.
  by rewrite bool_decide_eq_true_2.
Qed.

Lemma saturated_channel_fails_open_witness :
  let q := replicate 64 (mkPromptRequest "p" "h" 1 "default-deny" 0 0 "" []) in
  (send_prompted_resolve (toy_daemon true false (Some 0) q) 0 tok_a
     (mkResolve IPC_SCHEMA_V2 "unknown.example" 443) "r" DefaultDeny).2
  = Replied (handle_resolve "unknown.example" 443).
Proof.
  apply (saturated_channel_fails_open (toy_daemon true false (Some 0) _) 0 tok_a
           (mkResolve IPC_SCHEMA_V2 "unknown.example" 443) "r" DefaultDeny 0
           (replicate 64 (mkPromptRequest "p" "h" 1 "default-deny" 0 0 "" []))); by vm_compute.
Defined.

(** A refused answer still writes: when a run answers another run's prompt with
    allow-always, the ownership check leaves the owner's prompt parked, yet the
    signed rule is stored and an Allow row is logged as for an accepted answer. *)
Theorem foreign_answer_still_inserts :
  let rule := mkInsertUserRule "allow" "exact" "user.example" "mine" 1 "prompt" (Some "run-b")
    (Some (toy_rule_signature "tpm" "K"
       (new_rule_payload "allow" "exact" "user.example" "mine" 1 "prompt" (Some "run-b")))) in
  let resp := mkPromptResponse "p-00000000" AllowAlwaysMachine
                (Some (mkRulePattern "exact" "user.example")) (Some rule) in
  let d' := dispatch_response sample_daemon "run-b" resp in
  pending (d_deferred d') !! "p-00000000" = pending (d_deferred sample_daemon) !! "p-00000000"
  /\ size (rules (db (d_store sample_daemon))) = 0 /\ size (rules (db (d_store d'))) = 1
  /\ d_log d' = [Decision "Allow" "run-b" "" 0 "prompt_allow_machine"].
Proof. by vm_compute. Qed.
