(* ===== verification/HookCache.v ===== *)
(** * The resolver cache of the injected library

    [crates/guard-hook/src/cache.rs]: a fixed array of thirty-two slots, searched
    linearly, with a tick per use.  A slot keeps the used part of its two byte
    arrays; a slot whose key is empty is free, as in the source.  The reference
    is a list ordered by recency, and the array implements it. *)

From S2P Require Import Prelude RustStr.

(** ** The implementation *)

Module HookCache.

Definition CAPACITY : nat := 32.
Definition MAX_SOCKADDR_BYTES : nat := 28.
Definition MAX_HOSTNAME : nat := 253.
Definition U64_MOD : N := 18446744073709551616.
Definition U64_MAX : N := 18446744073709551615.

Record Entry : Type := mkCacheEntry {
  ce_sockaddr : list N;
  ce_hostname : string;
  ce_last_use_tick : N;
}.

Definition EMPTY : Entry := mkCacheEntry [] "" 0.

Record Cache : Type := mkCache {
  c_entries : list Entry;
  c_tick : N;
}.

Definition new : Cache := mkCache (replicate CAPACITY EMPTY) 1.

(** [fetch_add] returns the old value and wraps around. *)
Definition next_tick (c : Cache) : Cache * N :=
  (mkCache (c_entries c) ((c_tick c + 1) mod U64_MOD), c_tick c).

Definition find_idx (c : Cache) (sockaddr : list N) : option nat :=
  fst <$> list_find (fun e => ce_sockaddr e = sockaddr) (c_entries c).

(** The scan for a slot: the first free one, else the one with the least tick. *)
Fixpoint pick_slot (es : list Entry) (i target_idx : nat) (min_tick : N) : nat :=
  match es with
  | [] => target_idx
  | e :: rest =>
      if bool_decide (ce_sockaddr e = []) then i
      else if bool_decide (ce_last_use_tick e < min_tick)%N
      then pick_slot rest (S i) i (ce_last_use_tick e)
      else pick_slot rest (S i) target_idx min_tick
  end.

Definition insert (c : Cache) (sockaddr : list N) (hostname : string) : Cache :=
  if bool_decide (MAX_SOCKADDR_BYTES < length sockaddr) then c
  else if bool_decide (MAX_HOSTNAME < String.length hostname) then c
  else
    let idx := match find_idx c sockaddr with
               | Some idx => idx
               | None => pick_slot (c_entries c) 0 0 U64_MAX
               end in
    let '(c', now) := next_tick c in
    mkCache (<[idx := mkCacheEntry sockaddr hostname now]> (c_entries c')) (c_tick c').

Definition lookup (c : Cache) (sockaddr : list N) : Cache * option string :=
  match find_idx c sockaddr with
  | None => (c, None)
  | Some idx =>
      let '(c', now) := next_tick c in
      match c_entries c' !! idx with
      | Some e =>
          (mkCache (<[idx := mkCacheEntry (ce_sockaddr e) (ce_hostname e) now]> (c_entries c'))
             (c_tick c'), Some (ce_hostname e))
      | None => (c', None)
      end
  end.

(** ** The reference: a bounded list, most recently used first *)

Abbreviation Lru := (list (list N * string)).

Definition lru_insert (l : Lru) (k : list N) (h : string) : Lru :=
  if bool_decide (MAX_SOCKADDR_BYTES < length k) then l
  else if bool_decide (MAX_HOSTNAME < String.length h) then l
  else (k, h) :: take (CAPACITY - 1) (filter (fun p => p.1 <> k) l).

Definition lru_lookup (l : Lru) (k : list N) : Lru * option string :=
  match head (filter (fun p => p.1 = k) l) with
  | Some (_, h) => ((k, h) :: filter (fun p => p.1 <> k) l, Some h)
  | None => (l, None)
  end.

Inductive CacheOp : Type :=
| OpInsert (k : list N) (h : string)
| OpLookup (k : list N).

Definition op_key (o : CacheOp) : list N := match o with OpInsert k _ | OpLookup k => k end.

(** The answers of the lookups of a sequence of operations. *)
Fixpoint run_cache (c : Cache) (ops : list CacheOp) : list (option string) :=
  match ops with
  | [] => []
  | OpInsert k h :: rest => run_cache (insert c k h) rest
  | OpLookup k :: rest => (lookup c k).2 :: run_cache (lookup c k).1 rest
  end.

Fixpoint run_lru (l : Lru) (ops : list CacheOp) : list (option string) :=
  match ops with
  | [] => []
  | OpInsert k h :: rest => run_lru (lru_insert l k h) rest
  | OpLookup k :: rest => (lru_lookup l k).2 :: run_lru (lru_lookup l k).1 rest
  end.

(** ** The representation relation *)

Definition newer (a b : Entry) : Prop := (ce_last_use_tick b < ce_last_use_tick a)%N.
Definition used (e : Entry) : Prop := ce_sockaddr e <> [].
Definition kv (e : Entry) : list N * string := (ce_sockaddr e, ce_hostname e).

(** [es] lists the used slots, newest first. *)
Record repr (c : Cache) (es : list Entry) : Prop := {
  repr_len : length (c_entries c) = CAPACITY;
  repr_perm : filter used (c_entries c) ≡ₚ es;
  repr_keys : NoDup (ce_sockaddr <$> es);
  repr_sorted : StronglySorted newer es;
  repr_tick : Forall (fun e => ce_last_use_tick e < c_tick c)%N es;
}.

Lemma repr_new : repr new [].
Proof. split; [done | by apply Permutation_refl' | constructor | constructor | constructor]. Qed.

(** Overwriting one slot replaces one element up to order. *)
Lemma slot_update (es : list Entry) (i : nat) (e : Entry) :
  es !! i = Some e ->
  exists rest, es ≡ₚ e :: rest /\ forall e', <[i := e']> es ≡ₚ e' :: rest.
Proof.
  intros He. exists (take i es ++ drop (S i) es). split.
  - rewrite <- (take_drop_middle es i e He) at 1. by rewrite Permutation_middle.
  - intros e'. rewrite insert_take_drop by (by apply lookup_lt_Some in He).
    by rewrite Permutation_middle.
Qed.

Lemma find_idx_Some (c : Cache) (k : list N) (i : nat) :
  find_idx c k = Some i ->
  exists e, c_entries c !! i = Some e /\ ce_sockaddr e = k.
Proof.
  unfold find_idx. intros ([j e] & Hf & Hj)%fmap_Some. simpl in Hj. subst i.
  apply list_find_Some in Hf as (He & Hk & _). eauto.
Qed.

Lemma find_idx_None (c : Cache) (k : list N) :
  find_idx c k = None -> Forall (fun e => ce_sockaddr e <> k) (c_entries c).
Proof. unfold find_idx. rewrite fmap_None. apply list_find_None. Qed.

Lemma StronglySorted_filter {A} (R : A -> A -> Prop) (P : A -> Prop) `{forall x, Decision (P x)} (l : list A) :
  StronglySorted R l -> StronglySorted R (filter P l).
Proof.
  induction 1 as [|x l Hs IH Hx]; [constructor|]. rewrite filter_cons. destruct (decide (P x)); [|done].
  constructor; [done|]. apply Forall_forall. intros y [_ Hy]%list_elem_of_filter.
  by eapply Forall_forall in Hx.
Qed.

Lemma StronglySorted_take {A} (R : A -> A -> Prop) (l : list A) (n : nat) :
  StronglySorted R l -> StronglySorted R (take n l).
Proof.
  intros Hs. revert n. induction Hs as [|x l Hs IH Hx]; intros [|n]; simpl; constructor; auto.
  by apply Forall_take.
Qed.

(** Putting an entry with the current tick in front keeps the order of the rest. *)
Lemma repr_front (c : Cache) (slots rest : list Entry) (k : list N) (h : string) :
  length slots = CAPACITY ->
  filter used slots ≡ₚ mkCacheEntry k h (c_tick c) :: rest ->
  k ∉ (ce_sockaddr <$> rest) ->
  NoDup (ce_sockaddr <$> rest) ->
  StronglySorted newer rest ->
  Forall (fun e => ce_last_use_tick e < c_tick c)%N rest ->
  (c_tick c + 1 < U64_MOD)%N ->
  repr (mkCache slots ((c_tick c + 1) mod U64_MOD)) (mkCacheEntry k h (c_tick c) :: rest).
Proof.
  intros Hlen Hp Hk Hnd Hs Ht Hbound. split; simpl; [done|done|by constructor| |].
  - by constructor.
  - rewrite N.mod_small by done. constructor; [simpl; lia|].
    eapply Forall_impl; [exact Ht|]. simpl. lia.
Qed.

Lemma kv_filter (P : list N -> Prop) `{forall k, Decision (P k)} (es : list Entry) :
  kv <$> filter (fun e => P (ce_sockaddr e)) es = filter (fun p => P p.1) (kv <$> es).
Proof.
  induction es as [|e es IH]; [done|]. simpl. rewrite !filter_cons. simpl. case_decide; simpl; by f_equal.
Qed.

(** ** The operations preserve the representation *)

(** The used slots other than the one of key [k]. *)
Lemma repr_other_slots (c : Cache) (es rest : list Entry) (e : Entry) :
  repr c es -> c_entries c ≡ₚ e :: rest -> used e ->
  filter used rest ≡ₚ filter (fun x => ce_sockaddr x <> ce_sockaddr e) es.
Proof.
  intros [_ Hp Hk _ _] Hr Hu. rewrite Hr, filter_cons_True in Hp by done.
  rewrite <- Hp, filter_cons_False by (intros []; done).
  rewrite <- Hp in Hk. apply NoDup_cons in Hk as [Hk _].
  assert (Forall (fun x => ce_sockaddr x <> ce_sockaddr e) (filter used rest)) as HF.
  { apply Forall_forall. intros x Hx Heq. apply Hk. rewrite <- Heq. by apply list_elem_of_fmap_2. }
  clear -HF. induction HF as [|x l Hx HF IH]; [done|]. rewrite filter_cons_True by done. by constructor.
Qed.

Lemma filter_other_facts (c : Cache) (es : list Entry) (k : list N) :
  repr c es ->
  let rest := filter (fun x => ce_sockaddr x <> k) es in
  k ∉ (ce_sockaddr <$> rest) /\ NoDup (ce_sockaddr <$> rest) /\ StronglySorted newer rest
  /\ Forall (fun e => ce_last_use_tick e < c_tick c)%N rest.
Proof.
  intros [_ _ Hk Hs Ht] rest. split_and!.
  - intros (x & -> & [Hx _]%list_elem_of_filter)%list_elem_of_fmap. done.
  - subst rest. clear -Hk. induction es as [|x es IH]; [constructor|].
    simpl in Hk. apply NoDup_cons in Hk as [Hx Hk]. rewrite filter_cons.
    case_decide; [|auto]. simpl. constructor; [|auto].
    intros (y & Hy & [_ Hin]%list_elem_of_filter)%list_elem_of_fmap. apply Hx. rewrite Hy.
    by apply list_elem_of_fmap_2.
  - by apply StronglySorted_filter.
  - apply Forall_forall. intros x [_ Hx]%list_elem_of_filter. by eapply Forall_forall in Ht.
Qed.

(** Writing over the slot of [e], whose key stays. *)
Lemma repr_touch (c : Cache) (es : list Entry) (i : nat) (e : Entry) (h : string) :
  repr c es -> c_entries c !! i = Some e -> used e -> (c_tick c + 1 < U64_MOD)%N ->
  repr (mkCache (<[i := mkCacheEntry (ce_sockaddr e) h (c_tick c)]> (c_entries c))
          ((c_tick c + 1) mod U64_MOD))
    (mkCacheEntry (ce_sockaddr e) h (c_tick c) :: filter (fun x => ce_sockaddr x <> ce_sockaddr e) es).
Proof.
  intros Hr He Hu Hb. destruct (slot_update _ _ _ He) as (rest & Hp & Hi).
  destruct (filter_other_facts c es (ce_sockaddr e) Hr) as (? & ? & ? & ?).
  apply repr_front; try done.
  - rewrite length_insert. apply Hr.
  - rewrite Hi, filter_cons_True by done. by rewrite (repr_other_slots c es rest e).
Qed.

(** The entry a search finds is the one the list finds. *)
Lemma find_idx_list (c : Cache) (es : list Entry) (k : list N) :
  repr c es -> k <> [] ->
  match find_idx c k with
  | Some i => exists e, c_entries c !! i = Some e /\ ce_sockaddr e = k /\ e ∈ es
                        /\ head (filter (fun p => p.1 = k) (kv <$> es)) = Some (kv e)
  | None => filter (fun p => p.1 = k) (kv <$> es) = [] /\ k ∉ (ce_sockaddr <$> es)
  end.
Proof.
  intros Hr Hk. destruct (find_idx c k) as [i|] eqn:Hf.
  - apply find_idx_Some in Hf as (e & He & <-). exists e.
    assert (e ∈ es) as Hin.
    { rewrite <- (repr_perm _ _ Hr). apply list_elem_of_filter. split; [done|].
      by eapply list_elem_of_lookup_2. }
    split_and!; try done. pose proof (repr_keys _ _ Hr) as Hnd. clear -Hin Hnd.
    induction es as [|x es IH]; [by apply elem_of_nil in Hin|]. simpl in *.
    apply NoDup_cons in Hnd as [Hx Hnd]. apply elem_of_cons in Hin as [<-|Hin].
    + by rewrite filter_cons_True.
    + rewrite filter_cons_False; [auto|]. simpl. intros Heq. apply Hx. rewrite Heq.
      by apply list_elem_of_fmap_2.
  - apply find_idx_None in Hf.
    assert (k ∉ (ce_sockaddr <$> es)) as Hni.
    { intros (e & -> & Hin)%list_elem_of_fmap. rewrite <- (repr_perm _ _ Hr) in Hin.
      apply list_elem_of_filter in Hin as [_ Hin]. by eapply Forall_forall in Hf. }
    split; [|done]. destruct (filter _ (kv <$> es)) as [|p l] eqn:Hl; [done|]. exfalso. apply Hni.
    assert (p ∈ filter (fun p : list N * string => p.1 = k) (kv <$> es)) as Hp by (rewrite Hl; left).
    apply list_elem_of_filter in Hp as [<- (e & -> & Hin)%list_elem_of_fmap].
    by apply (list_elem_of_fmap_2 ce_sockaddr).
Qed.

(** What the scan for a slot returns. *)
Lemma pick_slot_spec (es : list Entry) (i t : nat) (m : N) :
  (exists j e, es !! j = Some e /\ ~ used e /\ pick_slot es i t m = (i + j)%nat)
  \/ (Forall used es /\ Forall (fun e => m <= ce_last_use_tick e)%N es /\ pick_slot es i t m = t)
  \/ (Forall used es /\ exists j e, es !! j = Some e /\ (ce_last_use_tick e < m)%N
        /\ Forall (fun x => ce_last_use_tick e <= ce_last_use_tick x)%N es
        /\ pick_slot es i t m = (i + j)%nat).
Proof.
  revert i t m. induction es as [|e es IH]; intros i t m; [right; left; done|]. simpl.
  case_bool_decide as Hu.
  { left. exists 0, e. split_and!; [done|by intros H|lia]. }
  case_bool_decide as Hm.
  - destruct (IH (S i) i (ce_last_use_tick e)) as [(j & x & Hj & Hx & ->)|[(HF & Hmin & ->)|(HF & j & x & Hj & Hx & Hmin & ->)]].
    + left. exists (S j), x. split_and!; [done|done|lia].
    + right. right. split; [by constructor|]. exists 0, e. split_and!; [done|done| |lia].
      by constructor.
    + right. right. split; [by constructor|]. exists (S j), x. split_and!; [done|lia| |lia].
      constructor; [lia|done].
  - destruct (IH (S i) t m) as [(j & x & Hj & Hx & ->)|[(HF & Hmin & ->)|(HF & j & x & Hj & Hx & Hmin & ->)]].
    + left. exists (S j), x. split_and!; [done|done|lia].
    + right. left. split_and!; [by constructor| |done]. constructor; [lia|done].
    + right. right. split; [by constructor|]. exists (S j), x. split_and!; [done|done| |lia].
      constructor; [lia|done].
Qed.

Lemma oldest_is_last (es : list Entry) (x : Entry) :
  StronglySorted newer es -> x ∈ es ->
  Forall (fun y => ce_last_use_tick x <= ce_last_use_tick y)%N es ->
  exists es0, es = es0 ++ [x].
Proof.
  intros Hs (l1 & l2 & ->)%list_elem_of_split HF. exists l1. f_equal. f_equal.
  destruct l2 as [|y l2]; [done|]. exfalso.
  apply StronglySorted_app in Hs as (_ & _ & Hs). apply StronglySorted_inv in Hs as [_ Hn].
  apply Forall_app in HF as [_ HF]. rewrite !Forall_cons in HF. apply Forall_cons in Hn as [Hn _].
  unfold newer in Hn. lia.
Qed.

Lemma filter_id {A} (P : A -> Prop) `{forall x, Decision (P x)} (l : list A) :
  Forall P l -> filter P l = l.
Proof. induction 1; [done|]. rewrite filter_cons_True by done. by f_equal. Qed.

Lemma filter_fresh_key (es : list Entry) (k : list N) :
  k ∉ (ce_sockaddr <$> es) -> filter (fun p : list N * string => p.1 <> k) (kv <$> es) = kv <$> es.
Proof.
  intros Hk. apply filter_id, Forall_fmap, Forall_forall. intros e He Heq. apply Hk.
  rewrite <- Heq. by apply (list_elem_of_fmap_2 ce_sockaddr).
Qed.

Lemma kv_other (es : list Entry) (k : list N) :
  kv <$> filter (fun x => ce_sockaddr x <> k) es
  = filter (fun p : list N * string => p.1 <> k) (kv <$> es).
Proof.
  induction es as [|e es IH]; [done|]. simpl. rewrite !filter_cons. simpl.
  case_decide; simpl; by f_equal.
Qed.

Lemma repr_length (c : Cache) (es : list Entry) : repr c es -> length es <= CAPACITY.
Proof.
  intros Hr. rewrite <- (repr_perm _ _ Hr), <- (repr_len _ _ Hr). apply length_filter.
Qed.

Lemma lookup_repr (c : Cache) (es : list Entry) (k : list N) :
  repr c es -> k <> [] -> (c_tick c + 1 < U64_MOD)%N ->
  (lookup c k).2 = (lru_lookup (kv <$> es) k).2
  /\ (c_tick (lookup c k).1 <= c_tick c + 1)%N
  /\ exists es', repr (lookup c k).1 es' /\ kv <$> es' = (lru_lookup (kv <$> es) k).1.
Proof.
  intros Hr Hk Hb. pose proof (find_idx_list c es k Hr Hk) as Hf. unfold lookup, lru_lookup.
  destruct (find_idx c k) as [i|].
  - destruct Hf as (e & He & <- & Hin & Hh). rewrite Hh. simpl. rewrite He. simpl.
    split_and!; [done|rewrite N.mod_small by done; lia|]. eexists.
    split; [by apply repr_touch|]. simpl. by rewrite kv_other.
  - destruct Hf as [-> _]. simpl. split_and!; [done|lia|]. by exists es.
Qed.

(** Insertion of a key the cache does not hold, in the slot the scan picked. *)
Lemma insert_fresh_repr (c : Cache) (es : list Entry) (k : list N) (h : string) :
  repr c es -> k <> [] -> (c_tick c + 1 < U64_MOD)%N -> k ∉ (ce_sockaddr <$> es) ->
  exists es', repr (mkCache (<[pick_slot (c_entries c) 0 0 U64_MAX := mkCacheEntry k h (c_tick c)]>
                               (c_entries c)) ((c_tick c + 1) mod U64_MOD)) es'
    /\ kv <$> es' = (k, h) :: take (CAPACITY - 1) (kv <$> es).
Proof.
  intros Hr Hk Hb Hni.
  assert (forall j x rest, c_entries c !! j = Some x -> filter used rest ≡ₚ take (CAPACITY - 1) es ->
            (forall e', <[j := e']> (c_entries c) ≡ₚ e' :: rest) ->
            repr (mkCache (<[j := mkCacheEntry k h (c_tick c)]> (c_entries c)) ((c_tick c + 1) mod U64_MOD))
              (mkCacheEntry k h (c_tick c) :: take (CAPACITY - 1) es)) as Hput.
  { intros j x rest Hj Hrest Hi. pose proof (repr_keys _ _ Hr) as Hnd. apply repr_front; try done.
    - rewrite length_insert. apply Hr.
    - rewrite Hi, filter_cons_True by done. by rewrite Hrest.
    - rewrite fmap_take. intros Hin. apply Hni.
      rewrite <- (take_drop (CAPACITY - 1) (ce_sockaddr <$> es)). apply elem_of_app. by left.
    - rewrite fmap_take. rewrite <- (take_drop (CAPACITY - 1) (ce_sockaddr <$> es)) in Hnd.
      by apply NoDup_app in Hnd as [? _].
    - apply StronglySorted_take, Hr.
    - apply Forall_take, Hr. }
  destruct (pick_slot_spec (c_entries c) 0 0 U64_MAX)
    as [(j & x & Hj & Hx & ->)|[(HF & Hmin & _)|(HF & j & x & Hj & _ & Hmin & ->)]].
  - destruct (slot_update _ _ _ Hj) as (rest & Hp & Hi). pose proof (repr_perm _ _ Hr) as He.
    rewrite Hp, filter_cons_False in He by done.
    assert (length es <= CAPACITY - 1) as Hlen.
    { rewrite <- He. pose proof (length_filter used rest) as Hl. apply Permutation_length in Hp.
      rewrite (repr_len _ _ Hr) in Hp. unfold CAPACITY in *. simpl in *. lia. }
    exists (mkCacheEntry k h (c_tick c) :: take (CAPACITY - 1) es). split.
    + eapply Hput; eauto. by rewrite take_ge.
    + simpl. by rewrite fmap_take.
  - exfalso. pose proof (repr_len _ _ Hr) as Hl. destruct (c_entries c) as [|e l] eqn:Hes; [done|].
    apply Forall_cons in HF as [Hu _]. apply Forall_cons in Hmin as [Hm _].
    assert (e ∈ es) as Hin by (rewrite <- (repr_perm _ _ Hr), Hes, filter_cons_True by done; left).
    pose proof (repr_tick _ _ Hr) as Ht. eapply Forall_forall in Ht; [|exact Hin]. unfold U64_MAX, U64_MOD in *. lia.
  - destruct (slot_update _ _ _ Hj) as (rest & Hp & Hi). pose proof (repr_perm _ _ Hr) as He.
    assert (c_entries c ≡ₚ es) as Hall by (by rewrite <- He, filter_id).
    destruct (oldest_is_last es x) as (es0 & ->).
    { apply Hr. }
    { rewrite <- Hall. by eapply list_elem_of_lookup_2. }
    { by rewrite <- Hall. }
    assert (length es0 = CAPACITY - 1) as Hl0.
    { apply Permutation_length in Hall. rewrite (repr_len _ _ Hr), length_app in Hall. simpl in Hall. unfold CAPACITY in *. lia. }
    assert (take (CAPACITY - 1) (es0 ++ [x]) = es0) as Htk by (by rewrite <- Hl0, take_app_length).
    exists (mkCacheEntry k h (c_tick c) :: take (CAPACITY - 1) (es0 ++ [x])). split.
    + eapply Hput; eauto. rewrite Htk. rewrite Hp, filter_cons_True, <- Permutation_cons_append in He.
      * by apply Permutation_cons_inv in He.
      * eapply Forall_lookup_1; eauto.
    + simpl. by rewrite fmap_take.
Qed.

Lemma insert_repr (c : Cache) (es : list Entry) (k : list N) (h : string) :
  repr c es -> k <> [] -> (c_tick c + 1 < U64_MOD)%N ->
  (c_tick (insert c k h) <= c_tick c + 1)%N
  /\ exists es', repr (insert c k h) es' /\ kv <$> es' = lru_insert (kv <$> es) k h.
Proof.
  intros Hr Hk Hb. unfold insert, lru_insert.
  case_bool_decide; [split; [lia|by exists es]|]. case_bool_decide; [split; [lia|by exists es]|].
  simpl. split; [rewrite N.mod_small by done; lia|].
  pose proof (find_idx_list c es k Hr Hk) as Hf. destruct (find_idx c k) as [i|].
  - destruct Hf as (e & He & <- & Hin & _). eexists. split; [by apply repr_touch|]. simpl.
    rewrite kv_other, take_ge; [done|].
    rewrite <- kv_other, length_fmap.
    pose proof (repr_length _ _ (repr_touch c es i e h Hr He Hk Hb)) as Hl. unfold CAPACITY in *. simpl in *. lia.
  - destruct Hf as [_ Hni]. rewrite filter_fresh_key by done. by apply insert_fresh_repr.
Qed.

Lemma run_refines (ops : list CacheOp) (c : Cache) (es : list Entry) :
  repr c es -> Forall (fun o => op_key o <> []) ops ->
  (c_tick c + N.of_nat (length ops) < U64_MOD)%N ->
  run_cache c ops = run_lru (kv <$> es) ops.
Proof.
  intros Hr HF. revert c es Hr. induction HF as [|o ops Ho HF IH]; intros c es Hr Hb; [done|].
  simpl in Hb. destruct o as [k h|k]; simpl in *.
  - destruct (insert_repr c es k h Hr Ho) as (Ht & es' & Hr' & <-); [lia|]. apply IH; [done|lia].
  - destruct (lookup_repr c es k Hr Ho) as (-> & Ht & es' & Hr' & <-); [lia|]. f_equal. apply IH; [done|lia].
Qed.

(** ** What the cache knows was inserted *)

Definition cache_all (P : list N -> string -> Prop) (c : Cache) : Prop :=
  Forall (fun e => used e -> P (ce_sockaddr e) (ce_hostname e)) (c_entries c).

Lemma cache_all_new (P : list N -> string -> Prop) : cache_all P new.
Proof. apply Forall_replicate. by intros []. Qed.

Lemma cache_all_impl (P Q : list N -> string -> Prop) (c : Cache) :
  (forall k h, P k h -> Q k h) -> cache_all P c -> cache_all Q c.
Proof. intros HPQ Hc. eapply Forall_impl; [exact Hc|]. auto. Qed.

Lemma cache_all_insert (P : list N -> string -> Prop) (c : Cache) (k : list N) (h : string) :
  cache_all P c -> (k <> [] -> String.length h <= MAX_HOSTNAME -> P k h) -> cache_all P (insert c k h).
Proof.
  intros Hc Hk. unfold insert. case_bool_decide; [done|]. case_bool_decide; [done|].
  apply Forall_insert; [done|]. simpl. intros Hu. apply Hk; [done|lia].
Qed.

Lemma cache_all_lookup (P : list N -> string -> Prop) (c : Cache) (k : list N) :
  cache_all P c ->
  cache_all P (lookup c k).1 /\ (forall h, k <> [] -> (lookup c k).2 = Some h -> P k h).
Proof.
  intros Hc. unfold lookup. destruct (find_idx c k) as [i|] eqn:Hf; [|done].
  apply find_idx_Some in Hf as (e & He & <-). simpl. rewrite He. simpl.
  pose proof (proj1 (Forall_lookup _ _) Hc _ _ He) as Hp. split.
  - by apply Forall_insert.
  - intros h Hk [= <-]. by apply Hp.
Qed.

(** ** Theorem *)

(** The array with ticks is a least-recently-used cache: over any sequence of
    insertions and lookups with non-empty keys, shorter than the range of the
    tick counter, every lookup answers as the bounded recency list does. *)
Theorem cache_refines_lru (ops : list CacheOp) :
  Forall (fun o => op_key o <> []) ops ->
  (N.of_nat (length ops) < U64_MAX)%N ->
  run_cache new ops = run_lru [] ops.
Proof.
  intros HF Hb. apply (run_refines ops new [] repr_new HF). simpl. unfold U64_MAX, U64_MOD in *. lia.
Qed.

(** Thirty-three keys: the first, looked up in between, survives, the second is evicted. *)
Definition sample_ops : list CacheOp :=
  ((fun n => OpInsert [N.of_nat n] (pretty (N.of_nat n))) <$> seq 1 32)
  ++ [OpLookup [1]; OpInsert [100] "new"; OpLookup [1]; OpLookup [2]; OpLookup [100]]%N.

Lemma cache_refines_lru_witness :
  run_cache new sample_ops = run_lru [] sample_ops
  /\ run_cache new sample_ops = [Some "1"; Some "1"; None; Some "new"].
Proof.
  split; [|vm_compute; reflexivity]. apply (cache_refines_lru sample_ops).
  - apply (bool_decide_unpack _). vm_compute. exact I.
  - vm_compute. reflexivity.
Defined.

End HookCache.
