(* ===== verification/HookNet.v ===== *)
(** * The network interposers of the injected library

    [crates/guard-hook/src/replace_libc.rs] with the round trip of
    [ipc_client.rs] it uses.  An entry point runs in a monad over the state of
    the library in one thread; [None] is a memory fault (a read through a null
    pointer or past the memory the caller provided).  Raw system calls are
    recorded in a trace and their results are the environment's.  Layouts and
    constants are Darwin's: the length byte comes first and the address family is
    the byte at offset one. *)

From S2P Require Import Prelude RustStr RustNet Policy TrustedSigners Frame Snapshot.
From S2P Require Import Resolve HookCache.

(** ** The state and the monad *)

Inductive IpcClientError : Type :=
| NotConfigured
| Timeout
| CIo (msg : string)
| DaemonRejected (msg : string)
| CCodec (msg : string).

#[export] Instance IpcClientError_eq_dec : EqDecision IpcClientError.
Proof. solve_decision. Defined.

(** A pointer and the bytes readable at it. *)
Definition Ptr : Type := option (list N).

Definition IPC_SCHEMA_V4 : Z := 4.

Record DenyNotify : Type := mkDenyNotify {
  dn_schema_version : Z;
  dn_audit_token : list N;
  dn_dest_host : option string;
  dn_dest_port : N;
  dn_dest_ip : option string;
  dn_source_surface : string;
  dn_denied_at_ms : N;
  dn_source_kind : string;
}.

Inductive DenyNotifyAck : Type :=
| DnOk (schema_version : Z)
| DnErr (schema_version : Z) (message : string).

(** The system calls of the network surface; a destination is an address and its length. *)
Inductive Syscall : Type :=
| SysConnect (addr : Ptr) (addrlen : nat)
| SysConnectx (dst : option (Ptr * nat))
| SysSendto (dst : Ptr) (len : nat)
| SysSendmsg (msg : option (Ptr * nat))
| SysSend.

Record Hook : Type := mkHook {
  h_in_hook : bool;
  h_fail_closed : bool;
  h_allowlist : option (list AllowlistEntry);
  h_socket : bool;
  h_cache : HookCache.Cache;
  h_log : list string;
  h_errno : Z;
  h_conns : nat;
  h_mallocs : nat;
  h_live : nat;
  h_resolved : list (string * list (list N));
  h_notified : list DenyNotify;
  h_trace : list Syscall;
}.

Definition HM (A : Type) : Type := Hook -> option (A * Hook).

#[export] Instance hm_ret : MRet HM := fun A a h => Some (a, h).
#[export] Instance hm_bind : MBind HM := fun A B f m h =>
  match m h with Some (a, h') => f a h' | None => None end.

Definition fault {A} : HM A := fun _ => None.
Definition gets {A} (f : Hook -> A) : HM A := fun h => Some (f h, h).
Definition modify (f : Hook -> Hook) : HM unit := fun h => Some (tt, f h).

Definition with_cache_state (c : HookCache.Cache) (h : Hook) : Hook :=
  mkHook (h_in_hook h) (h_fail_closed h) (h_allowlist h) (h_socket h) c (h_log h) (h_errno h)
    (h_conns h) (h_mallocs h) (h_live h) (h_resolved h) (h_notified h) (h_trace h).
Definition with_in_hook (b : bool) (h : Hook) : Hook :=
  mkHook b (h_fail_closed h) (h_allowlist h) (h_socket h) (h_cache h) (h_log h) (h_errno h)
    (h_conns h) (h_mallocs h) (h_live h) (h_resolved h) (h_notified h) (h_trace h).
Definition with_log (l : list string) (h : Hook) : Hook :=
  mkHook (h_in_hook h) (h_fail_closed h) (h_allowlist h) (h_socket h) (h_cache h) l (h_errno h)
    (h_conns h) (h_mallocs h) (h_live h) (h_resolved h) (h_notified h) (h_trace h).
Definition with_errno (e : Z) (h : Hook) : Hook :=
  mkHook (h_in_hook h) (h_fail_closed h) (h_allowlist h) (h_socket h) (h_cache h) (h_log h) e
    (h_conns h) (h_mallocs h) (h_live h) (h_resolved h) (h_notified h) (h_trace h).
Definition with_conns (n : nat) (h : Hook) : Hook :=
  mkHook (h_in_hook h) (h_fail_closed h) (h_allowlist h) (h_socket h) (h_cache h) (h_log h) (h_errno h)
    n (h_mallocs h) (h_live h) (h_resolved h) (h_notified h) (h_trace h).
Definition with_heap (mallocs live : nat) (h : Hook) : Hook :=
  mkHook (h_in_hook h) (h_fail_closed h) (h_allowlist h) (h_socket h) (h_cache h) (h_log h) (h_errno h)
    (h_conns h) mallocs live (h_resolved h) (h_notified h) (h_trace h).
Definition with_resolved (r : list (string * list (list N))) (h : Hook) : Hook :=
  mkHook (h_in_hook h) (h_fail_closed h) (h_allowlist h) (h_socket h) (h_cache h) (h_log h) (h_errno h)
    (h_conns h) (h_mallocs h) (h_live h) r (h_notified h) (h_trace h).
Definition with_notified (l : list DenyNotify) (h : Hook) : Hook :=
  mkHook (h_in_hook h) (h_fail_closed h) (h_allowlist h) (h_socket h) (h_cache h) (h_log h) (h_errno h)
    (h_conns h) (h_mallocs h) (h_live h) (h_resolved h) l (h_trace h).
Definition with_trace (t : list Syscall) (h : Hook) : Hook :=
  mkHook (h_in_hook h) (h_fail_closed h) (h_allowlist h) (h_socket h) (h_cache h) (h_log h) (h_errno h)
    (h_conns h) (h_mallocs h) (h_live h) (h_resolved h) (h_notified h) t.

(** ** log_buffer.rs: a ring that drops its oldest line *)

Definition RING_CAPACITY : nat := 1024.

Definition log_append (msg : string) : HM unit :=
  modify (fun h =>
    let l := h_log h ++ [msg +:+ String LF ""] in
    with_log (if bool_decide (RING_CAPACITY < length l) then drop 1 l else l) h).

(** ** The environment *)

(** The daemon as the [n]-th connection of this process meets it. *)
Record Peer : Type := mkPeer {
  p_connect : option string;
  p_tag_fault : option (bool * string);
  p_frame_fault : option string;
  p_answer : string -> string;
  p_short : bool * string;
}.

(** A fault is paired with whether its kind is a time-out.  [p_short] is the
    outcome of reading past the bytes the daemon answered. *)
Class HookEnv : Type := {
  peer : nat -> N -> Peer;
  malloc_ok : nat -> bool;
  inet_ntop : N -> list N -> option string;
  syscall_result : nat -> Z;
  now_ms : nat -> N;
  getpid : Z;
  getppid : Z;
  hook_resolve_cbor :: Cbor ResolveMsg;
  hook_reply_cbor :: Cbor ResolveReply;
  hook_deny_cbor :: Cbor DenyNotify;
  hook_ack_cbor :: Cbor DenyNotifyAck;
}.

(** ** ipc_client.rs *)

Definition TAG_RESOLVE : N := 6.
Definition TAG_DENY_NOTIFY : N := 18.

Definition show_ipc_error (e : IpcError) : string :=
  match e with
  | Io m => "io: " +:+ m
  | FrameTooLarge got max => "frame too large: " +:+ pretty got +:+ " bytes (max " +:+ pretty max +:+ ")"
  | IpcCodec m => "codec: " +:+ m
  | SchemaMismatch expected got =>
      "schema mismatch: expected " +:+ pretty expected +:+ ", got " +:+ pretty got
  | PeerAuth m => "peer auth failed: " +:+ m
  | NonceReplay expected got =>
      "IPC nonce not monotonic: expected > " +:+ pretty expected +:+ ", got " +:+ pretty got
  end.

(** [connect_with_timeout]: the budget of the read and of the write phase. *)
Definition rw_budget (total_ms : N) : N := (N.max total_ms 5 * 2 / 5)%N.

Definition map_io_to_timeout (e : bool * string) : IpcClientError :=
  if e.1 then Timeout else CIo e.2.

Section Hooks.
Context `{HookEnv}.

(** The exchange over an open connection: tag, frame, tag back, frame back. *)
Definition exchange {Req Ack} `{Cbor Req, Cbor Ack} (p : Peer) (tag : N) (msg : Req)
  : result Ack IpcClientError :=
  match p_connect p with
  | Some e => Err (CIo e)
  | None =>
      match p_tag_fault p with
      | Some e => Err (map_io_to_timeout e)
      | None =>
          let w := mkWriter (String (ascii_of_N tag) "") (p_frame_fault p) in
          let? w' := map_err (fun e => CCodec (show_ipc_error e)) (write_frame w msg) in
          match p_answer p (written w') with
          | EmptyString => Err (map_io_to_timeout (p_short p))
          | String tag_back rest =>
              if negb (bool_decide (byte_val tag_back = tag))
              then Err (CCodec ("tag mismatch: sent 0x" +:+ hex_lower (String (ascii_of_N tag) "")
                               +:+ ", got 0x" +:+ hex_lower (String tag_back "")))
              else map_err (fun e => CCodec (show_ipc_error e)) (read_frame rest).1
          end
      end
  end.

Definition send_tagged_and_recv_ack {Req Ack} `{Cbor Req, Cbor Ack} (tag : N) (msg : Req)
    (timeout_ms : N) : HM (result Ack IpcClientError) :=
  socket ← gets h_socket;
  if negb socket then mret (Err NotConfigured)
  else
    n ← gets h_conns;
    _ ← modify (with_conns (S n));
    mret (exchange (peer n (rw_budget timeout_ms)) tag msg).

(** The addresses the daemon answered are kept in the state, for the theorems. *)
Definition send_resolve_sync (host : string) (port timeout_ms : N)
  : HM (result (list (list N)) IpcClientError) :=
  let req := mkResolve IPC_SCHEMA_V2 host port in
  reply ← send_tagged_and_recv_ack (Ack := ResolveReply) TAG_RESOLVE req timeout_ms;
  match reply with
  | Err e => mret (Err e)
  | Ok (RAddresses schema_version addrs) =>
      if negb (bool_decide (schema_version = IPC_SCHEMA_V2))
      then mret (Err (CCodec ("ResolveReply schema_version " +:+ pretty schema_version
                              +:+ " != IPC_SCHEMA_V2")))
      else
        _ ← modify (fun h => with_resolved (h_resolved h ++ [(host, addrs)]) h);
        mret (Ok addrs)
  | Ok (RDeny _ reason) => mret (Err (DaemonRejected reason))
  | Ok (RErr _ message) => mret (Err (DaemonRejected message))
  end.

Definition send_deny_notify (audit_token : list N) (dest_host : option string) (dest_port : N)
    (dest_ip : option string) (source_surface source_kind : string) : HM unit :=
  now ← gets (fun h => now_ms (length (h_notified h)));
  let ev := mkDenyNotify IPC_SCHEMA_V4 audit_token dest_host dest_port dest_ip source_surface now source_kind in
  _ ← modify (fun h => with_notified (h_notified h ++ [ev]) h);
  _ ← send_tagged_and_recv_ack (Ack := DenyNotifyAck) TAG_DENY_NOTIFY ev 50;
  mret tt.

(** ** replace_libc.rs: addresses *)

Definition MAX_RESOLVE_ATTEMPTS : nat := 4.
Definition RESOLVE_TIMEOUT_MS : N := 100.
Definition GETADDRINFO_RESOLVE_TIMEOUT_MS : N := 30000.

Definition AF_UNIX : N := 1.
Definition AF_INET6 : N := 30.
Definition SOCKADDR_IN : nat := 16.
Definition SOCKADDR_IN6 : nat := 28.
Definition EHOSTUNREACH : Z := 65.
Definition EAI_AGAIN : Z := 2.
Definition EAI_FAIL : Z := 4.
Definition EAI_MEMORY : Z := 6.
Definition EAI_NONAME : Z := 8.
Definition SOCK_STREAM : Z := 1.
Definition IPPROTO_TCP : Z := 6.

Definition read_byte (p : Ptr) (i : nat) : HM N :=
  match p with
  | Some m => match m !! i with Some b => mret b | None => fault end
  | None => fault
  end.

(** [copy_nonoverlapping] and [read_unaligned] of [len] bytes. *)
Definition read_bytes (p : Ptr) (len : nat) : HM (list N) :=
  match p with
  | Some m => if bool_decide (length m < len) then fault else mret (take len m)
  | None => fault
  end.

Definition is_null (p : Ptr) : bool := match p with None => true | Some _ => false end.

Definition entries_or_deny : HM (option (list AllowlistEntry)) :=
  fail_closed ← gets h_fail_closed;
  if (fail_closed : bool) then mret None else gets h_allowlist.

(** The buffer holds zeros past the length; only its used part is kept. *)
Definition sockaddr_bytes (addr : Ptr) (addrlen : nat) : HM (option (list N)) :=
  if is_null addr then mret None
  else if bool_decide (addrlen = 0) || bool_decide (HookCache.MAX_SOCKADDR_BYTES < addrlen)
  then mret None
  else bytes ← read_bytes addr addrlen; mret (Some bytes).

(** [cache_key(sa, sa_len)], the used part of the key. *)
Definition cache_key (sa : list N) (sa_len : nat) : list N :=
  let n := Nat.min sa_len HookCache.MAX_SOCKADDR_BYTES in
  let key := take n sa in
  if bool_decide (4 <= n) then <[3 := 0%N]> (<[2 := 0%N]> key) else key.

Definition from_be16 (hi lo : N) : N := (hi * 256 + lo)%N.

(** The port is read from the copied bytes; short addresses have none. *)
Definition port_of (sa : list N) : N :=
  match sa with _ :: _ :: hi :: lo :: _ => from_be16 hi lo | _ => 0 end.

Definition cache_lookup (k : list N) : HM (option string) :=
  fun h => let '(c, r) := HookCache.lookup (h_cache h) k in Some (r, with_cache_state c h).

Definition cache_insert (k : list N) (host : string) : HM unit :=
  modify (fun h => with_cache_state (HookCache.insert (h_cache h) k host) h).

Definition ip_to_str (addr : Ptr) (addrlen : nat) : HM (option string) :=
  if bool_decide (1 <= addrlen) then
    family ← read_byte addr 1;
    if bool_decide (family = AF_INET) && bool_decide (SOCKADDR_IN <= addrlen) then
      sin ← read_bytes addr SOCKADDR_IN;
      mret (inet_ntop AF_INET (take 4 (drop 4 sin)))
    else if bool_decide (family = AF_INET6) && bool_decide (SOCKADDR_IN6 <= addrlen) then
      sin6 ← read_bytes addr SOCKADDR_IN6;
      mret (inet_ntop AF_INET6 (take 16 (drop 8 sin6)))
    else mret None
  else mret None.

(** ** replace_libc.rs: the decision *)

(** Candidate names: at most four exact curated allow entries. *)
Definition resolve_candidates (entries : list AllowlistEntry) : list AllowlistEntry :=
  take MAX_RESOLVE_ATTEMPTS
    (filter (fun e => e_kind e = Allow /\ e_tier e = CuratedAllow /\ e_match_type e = Exact) entries).

Fixpoint resolve_walk (candidates : list AllowlistEntry) (port : N) (ck : list N) (sa_n : nat)
  : HM (option string) :=
  match candidates with
  | [] => mret None
  | e :: rest =>
      r ← send_resolve_sync (e_pattern e) port RESOLVE_TIMEOUT_MS;
      match r with
      | Ok addrs =>
          if existsb (fun wire => bool_decide (cache_key wire sa_n = ck)) addrs then
            _ ← cache_insert ck (e_pattern e);
            mret (Some (str_take HookCache.MAX_HOSTNAME (e_pattern e)))
          else resolve_walk rest port ck sa_n
      | Err _ => resolve_walk rest port ck sa_n
      end
  end.

(** The check for local sockets, made before anything else. *)
Definition unix_destination (addr : Ptr) (addrlen : nat) : HM bool :=
  if negb (is_null addr) && bool_decide (1 <= addrlen)
  then family ← read_byte addr 1; mret (bool_decide (family = AF_UNIX))
  else mret false.

(** The name of the destination: the cached one, else one found by asking the
    daemon for the candidate names. *)
Definition resolve_fallback (cached : option string) (socket : bool) (ip : option string)
    (sa : list N) (entries : list AllowlistEntry) : HM (option string) :=
  match cached with
  | Some h => mret (Some h)
  | None =>
      let af := nth 1 sa 0%N in
      let is_inet := bool_decide (af = AF_INET) || bool_decide (af = AF_INET6) in
      if socket && is_inet
         && negb (on_ip is_loopback_ip ip) && negb (on_ip is_cloud_metadata_ip ip)
      then resolve_walk (resolve_candidates entries) (port_of sa) (cache_key sa (length sa)) (length sa)
      else mret None
  end.

Definition decide_for_sockaddr (addr : Ptr) (addrlen : nat) : HM (Verdict * SourceKind) :=
  is_unix ← unix_destination addr addrlen;
  if (is_unix : bool) then mret (VDeny, HardRule "unix-socket")
  else
    entries_opt ← entries_or_deny;
    match entries_opt with
    | None => mret (VDeny, HardRule "fail-closed")
    | Some entries =>
        sa_opt ← sockaddr_bytes addr addrlen;
        match sa_opt with
        | None => mret (VDeny, HardRule "bad-sockaddr")
        | Some sa =>
            cached ← cache_lookup (cache_key sa (length sa));
            ip ← ip_to_str addr addrlen;
            socket ← gets h_socket;
            host ← resolve_fallback cached socket ip sa entries;
            match host with
            | Some host => mret (evaluate_policy host ip true entries)
            | None => mret (evaluate_policy "" ip false entries)
            end
        end
    end.

Definition notify_deny_for_sockaddr (addr : Ptr) (addrlen : nat) (source_surface : string)
    (source_kind : SourceKind) : HM unit :=
  socket ← gets h_socket;
  if negb socket then mret tt
  else
    let u32 := fun z => if bool_decide (0 <= z < 4294967296)%Z then Z.to_N z else 0%N in
    let audit_token := [0; 0; 0; 0; 0; u32 getpid; u32 getppid; 0]%N in
    ip ← ip_to_str addr addrlen;
    let ip_opt := match ip with Some b => if utf8_valid b then Some b else None | None => None end in
    port ← (if negb (is_null addr) && bool_decide (4 <= addrlen)
            then hi ← read_byte addr 2; lo ← read_byte addr 3; mret (from_be16 hi lo)
            else mret 0%N);
    let sk_label := as_label source_kind in
    sa_opt ← sockaddr_bytes addr addrlen;
    match sa_opt with
    | None => send_deny_notify audit_token None port ip_opt source_surface sk_label
    | Some sa =>
        host ← cache_lookup (cache_key sa (length sa));
        let host_str := match host with
                        | Some b => if utf8_valid b then Some b else None
                        | None => None
                        end in
        send_deny_notify audit_token host_str port ip_opt source_surface sk_label
    end.

(** ** replace_libc.rs: the entry points *)

(** [InHookGuard]: a call made inside a hook of the same thread takes the first
    branch; otherwise the flag is cleared when the guard is dropped. *)
Definition in_hook_guard {A} (reentrant body : HM A) : HM A :=
  was ← gets h_in_hook;
  _ ← modify (with_in_hook true);
  if (was : bool) then reentrant
  else a ← body; _ ← modify (with_in_hook false); mret a.

Definition raw_syscall (s : Syscall) : HM Z :=
  r ← gets (fun h => syscall_result (length (h_trace h)));
  _ ← modify (fun h => with_trace (h_trace h ++ [s]) h);
  mret r.

Definition deny_with (surface : string) (source : SourceKind) (notify : HM unit) : HM Z :=
  _ ← log_append ("[guard-hook] DENY " +:+ surface +:+ " (" +:+ as_label source +:+ ")");
  _ ← notify;
  _ ← modify (with_errno EHOSTUNREACH);
  mret (-1)%Z.

Definition guard_connect (addr : Ptr) (addrlen : nat) : HM Z :=
  in_hook_guard (raw_syscall (SysConnect addr addrlen))
    ('(verdict, source) ← decide_for_sockaddr addr addrlen;
     if bool_decide (verdict = VDeny)
     then deny_with "connect" source (notify_deny_for_sockaddr addr addrlen "connect" source)
     else raw_syscall (SysConnect addr addrlen)).

(** [endpoints] is null or carries the destination address. *)
Definition guard_connectx (endpoints : option (Ptr * nat)) : HM Z :=
  in_hook_guard (raw_syscall (SysConnectx endpoints))
    ('(verdict, source) ←
       (match endpoints with
        | None => mret (VDeny, HardRule "null-endpoints")
        | Some (dst, len) => decide_for_sockaddr dst len
        end);
     if bool_decide (verdict = VDeny)
     then deny_with "connectx" source
            (match endpoints with
             | None => mret tt
             | Some (dst, len) => notify_deny_for_sockaddr dst len "connectx" source
             end)
     else raw_syscall (SysConnectx endpoints)).

Definition guard_sendto (to : Ptr) (tolen : nat) : HM Z :=
  in_hook_guard (raw_syscall (SysSendto to tolen))
    ('(verdict, source) ←
       (if is_null to || bool_decide (tolen = 0)
        then mret (VAllow, HardRule "connected-send")
        else decide_for_sockaddr to tolen);
     if bool_decide (verdict = VDeny)
     then deny_with "sendto" source (notify_deny_for_sockaddr to tolen "sendto" source)
     else raw_syscall (SysSendto to tolen)).

(** [msg] is null or carries [msg_name] and [msg_namelen].  Here the error
    number is set before the notification. *)
Definition guard_sendmsg (msg : option (Ptr * nat)) : HM Z :=
  in_hook_guard (raw_syscall (SysSendmsg msg))
    ('(verdict, source) ←
       (match msg with
        | None => mret (VDeny, HardRule "null-msg")
        | Some (name, namelen) =>
            if is_null name || bool_decide (namelen = 0)
            then mret (VAllow, HardRule "connected-send")
            else decide_for_sockaddr name namelen
        end);
     if bool_decide (verdict = VDeny) then
       _ ← modify (with_errno EHOSTUNREACH);
       _ ← log_append ("[guard-hook] DENY sendmsg (" +:+ as_label source +:+ ")");
       _ ← (match msg with
            | None => mret tt
            | Some (name, namelen) =>
                if negb (is_null name) && bool_decide (0 < namelen)
                then notify_deny_for_sockaddr name namelen "sendmsg" source
                else mret tt
            end);
       mret (-1)%Z
     else raw_syscall (SysSendmsg msg)).

Definition guard_send : HM Z :=
  in_hook_guard (raw_syscall SysSend) (raw_syscall SysSend).

(** ** replace_libc.rs: name resolution *)

Record Addrinfo : Type := mkAddrinfo {
  ai_family : Z;
  ai_socktype : Z;
  ai_protocol : Z;
  ai_addrlen : nat;
  ai_addr : list N;
}.

Definition malloc : HM bool :=
  n ← gets h_mallocs;
  live ← gets h_live;
  let ok := malloc_ok n in
  _ ← modify (with_heap (S n) (if ok then S live else live));
  mret ok.

Definition free (k : nat) : HM unit :=
  modify (fun h => with_heap (h_mallocs h) (h_live h - k) h).

(** Each node owns two allocations. *)
Fixpoint free_addrinfo_chain (p : list Addrinfo) : HM unit :=
  match p with
  | [] => mret tt
  | _ :: next => _ ← free 1; _ ← free 1; free_addrinfo_chain next
  end.

Definition addrinfo_node_for_wire (host : string) (wire : list N)
    (hint_family hint_socktype hint_protocol : Z) (head : list Addrinfo)
  : HM (result (option Addrinfo) Z) :=
  let sa_family := Z.of_N (nth 1 wire 0%N) in
  if negb (bool_decide (hint_family = 0)%Z) && negb (bool_decide (hint_family = sa_family))
  then mret (Ok None)
  else
    let sockaddr_size := if bool_decide (sa_family = Z.of_N AF_INET) then Some SOCKADDR_IN
                         else if bool_decide (sa_family = Z.of_N AF_INET6) then Some SOCKADDR_IN6
                         else None in
    match sockaddr_size with
    | None => mret (Ok None)
    | Some size =>
        let ck_len := Nat.min (N.to_nat (nth 0 wire 0%N)) SOCKADDR_WIRE_LEN in
        _ ← cache_insert (cache_key wire ck_len) host;
        ai ← malloc;
        if negb ai then _ ← free_addrinfo_chain head; mret (Err EAI_MEMORY)
        else
          sa ← malloc;
          if negb sa then _ ← free 1; _ ← free_addrinfo_chain head; mret (Err EAI_MEMORY)
          else
            mret (Ok (Some (mkAddrinfo sa_family
              (if bool_decide (hint_socktype = 0)%Z then SOCK_STREAM else hint_socktype)
              (if bool_decide (hint_protocol = 0)%Z then IPPROTO_TCP else hint_protocol)
              size (take (Nat.min size SOCKADDR_WIRE_LEN) wire))))
    end.

Fixpoint build_addrinfo_chain (host : string) (addrs : list (list N))
    (hint_family hint_socktype hint_protocol : Z) (head : list Addrinfo)
  : HM (result (list Addrinfo) Z) :=
  match addrs with
  | [] => mret (match head with [] => Err EAI_NONAME | _ => Ok head end)
  | wire :: rest =>
      r ← addrinfo_node_for_wire host wire hint_family hint_socktype hint_protocol head;
      match r with
      | Err code => mret (Err code)
      | Ok None => build_addrinfo_chain host rest hint_family hint_socktype hint_protocol head
      | Ok (Some node) =>
          build_addrinfo_chain host rest hint_family hint_socktype hint_protocol (head ++ [node])
      end
  end.

(** [str::parse::<u16>]. *)
Definition parse_u16 (s : string) : option N :=
  let digits := match strip_prefix "+" s with Some r => r | None => s end in
  if is_empty digits then None
  else match digits_go digits 0 with
       | Some z => if bool_decide (z <= 65535)%Z then Some (Z.to_N z) else None
       | None => None
       end.

(** The code for a failed round trip: a policy denial is not recoverable. *)
Definition resolve_error_code (e : IpcClientError) : Z :=
  match e with
  | NotConfigured | Timeout => EAI_AGAIN
  | DaemonRejected reason => if starts_with reason "resolve " then EAI_NONAME else EAI_FAIL
  | _ => EAI_FAIL
  end.

(** The port of a numeric service; a service name gives no constraint. *)
Definition service_port (service : option string) : N :=
  match service with
  | None => 0
  | Some svc => if utf8_valid svc then match parse_u16 svc with Some p => p | None => 0 end else 0
  end.

Definition proxy_lookup (host : string) (port : N) (hints : option (Z * Z * Z))
  : HM (Z * list Addrinfo) :=
  r ← send_resolve_sync host port GETADDRINFO_RESOLVE_TIMEOUT_MS;
  match r with
  | Ok [] => mret (EAI_NONAME, [])
  | Ok addrs =>
      let '(hint_family, hint_socktype, hint_protocol) :=
        match hints with Some h => h | None => (0, 0, 0)%Z end in
      built ← build_addrinfo_chain host addrs hint_family hint_socktype hint_protocol [];
      match built with
      | Err code => mret (code, [])
      | Ok head =>
          _ ← log_append "[guard-hook] getaddrinfo proxied via daemon";
          mret (0%Z, head)
      end
  | Err e => mret (resolve_error_code e, [])
  end.

(** The code returned and the chain stored through [res]. *)
Definition guard_getaddrinfo (node service : option string) (hints : option (Z * Z * Z))
    (res_null : bool) : HM (Z * list Addrinfo) :=
  in_hook_guard (mret (EAI_AGAIN, []))
    (if res_null then mret (EAI_FAIL, [])
     else
       fail_closed ← gets h_fail_closed;
       socket ← gets h_socket;
       if (fail_closed : bool) then mret (EAI_FAIL, [])
       else if negb socket then mret (EAI_AGAIN, [])
       else
         match node with
         | Some host =>
             if utf8_valid host && negb (is_empty host)
             then proxy_lookup host (service_port service) hints
             else mret (EAI_AGAIN, [])
         | None => mret (EAI_AGAIN, [])
         end).

Definition guard_freeaddrinfo (res : list Addrinfo) : HM unit := free_addrinfo_chain res.

(** ** Weakest liberal preconditions *)

Definition wlp {A} (m : HM A) (Q : A -> Hook -> Prop) (h : Hook) : Prop :=
  match m h with Some (a, h') => Q a h' | None => True end.

Lemma wlp_bind {A B} (m : HM A) (f : A -> HM B) (Q : B -> Hook -> Prop) (h : Hook) :
  wlp m (fun a h' => wlp (f a) Q h') h -> wlp (m ≫= f) Q h.
Proof. unfold wlp, mbind, hm_bind. by destruct (m h) as [[a h']|]. Qed.

Lemma wlp_ret {A} (a : A) (Q : A -> Hook -> Prop) (h : Hook) : Q a h -> wlp (mret a) Q h.
Proof. done. Qed.

Lemma wlp_mono {A} (m : HM A) (P Q : A -> Hook -> Prop) (h : Hook) :
  wlp m P h -> (forall a h', P a h' -> Q a h') -> wlp m Q h.
Proof. unfold wlp. destruct (m h) as [[a h']|]; auto. Qed.

Lemma wlp_gets {A} (g : Hook -> A) (Q : A -> Hook -> Prop) (h : Hook) :
  Q (g h) h -> wlp (gets g) Q h.
Proof. done. Qed.

Lemma wlp_modify (g : Hook -> Hook) (Q : unit -> Hook -> Prop) (h : Hook) :
  Q tt (g h) -> wlp (modify g) Q h.
Proof. done. Qed.

(** ** What the helpers leave alone *)

(** A name (as the cache keeps it) the daemon resolved to an address of key [k]. *)
Definition resolved_for (log : list (string * list (list N))) (k : list N) (host : string) : Prop :=
  exists name addrs wire n, (name, addrs) ∈ log /\ wire ∈ addrs /\ cache_key wire n = k
    /\ host = str_take HookCache.MAX_HOSTNAME name.

Definition cache_inv (h : Hook) : Prop :=
  HookCache.cache_all (resolved_for (h_resolved h)) (h_cache h).

Record pres (h h' : Hook) : Prop := {
  pres_in_hook : h_in_hook h' = h_in_hook h;
  pres_fail_closed : h_fail_closed h' = h_fail_closed h;
  pres_allowlist : h_allowlist h' = h_allowlist h;
  pres_socket : h_socket h' = h_socket h;
  pres_trace : h_trace h' = h_trace h;
  pres_resolved : exists l, h_resolved h' = h_resolved h ++ l;
  pres_inv : cache_inv h -> cache_inv h';
}.

Lemma pres_refl (h : Hook) : pres h h.
Proof. split; try done. exists []. by rewrite app_nil_r. Qed.

Lemma pres_trans (h1 h2 h3 : Hook) : pres h1 h2 -> pres h2 h3 -> pres h1 h3.
Proof.
  intros [????? (l & Hl) ?] [????? (l' & Hl') ?]. split; try congruence; [|auto].
  exists (l ++ l'). rewrite Hl', Hl. by rewrite app_assoc.
Qed.

Lemma resolved_for_mono (log l : list (string * list (list N))) (k : list N) (host : string) :
  resolved_for log k host -> resolved_for (log ++ l) k host.
Proof.
  intros (name & addrs & wire & n & Hin & ?). exists name, addrs, wire, n.
  split; [|done]. apply elem_of_app. by left.
Qed.

(** Changes to the log, the counters, the heap and the error number. *)
Lemma pres_same (h h' : Hook) :
  h_in_hook h' = h_in_hook h -> h_fail_closed h' = h_fail_closed h ->
  h_allowlist h' = h_allowlist h -> h_socket h' = h_socket h -> h_trace h' = h_trace h ->
  h_resolved h' = h_resolved h -> h_cache h' = h_cache h -> pres h h'.
Proof.
  intros ????? Hr Hc. split; try done.
  - exists []. by rewrite app_nil_r.
  - unfold cache_inv. by rewrite Hr, Hc.
Qed.

Lemma wlp_pres_bind {A B} (m : HM A) (f : A -> HM B) (h0 h : Hook) (P : A -> Hook -> Prop)
    (Q : B -> Hook -> Prop) :
  pres h0 h -> wlp m (fun a h' => pres h h' /\ P a h') h ->
  (forall a h', pres h0 h' -> P a h' -> wlp (f a) (fun b h'' => pres h0 h'' /\ Q b h'') h') ->
  wlp (m ≫= f) (fun b h'' => pres h0 h'' /\ Q b h'') h.
Proof.
  intros Hp Hm Hf. apply wlp_bind. eapply wlp_mono; [exact Hm|]. simpl. intros a h' [Hp' HP].
  apply Hf; [by eapply pres_trans|done].
Qed.

Lemma send_tagged_pres {Req Ack} `{Cbor Req, Cbor Ack} (tag : N) (msg : Req) (t : N) (h : Hook) :
  wlp (send_tagged_and_recv_ack (Ack := Ack) tag msg t)
    (fun _ h' => pres h h' /\ h_resolved h' = h_resolved h /\ h_live h' = h_live h
                 /\ (h_conns h' <= S (h_conns h))%nat) h.
Proof.
  unfold send_tagged_and_recv_ack. apply wlp_bind, wlp_gets.
  destruct (h_socket h); simpl; [|apply wlp_ret; split; [apply pres_refl|auto]].
  apply wlp_bind, wlp_gets, wlp_bind, wlp_modify, wlp_ret. split; [by apply pres_same|auto].
Qed.

Lemma send_resolve_pres (host : string) (port t : N) (h : Hook) :
  wlp (send_resolve_sync host port t)
    (fun r h' => pres h h' /\ h_live h' = h_live h /\ (h_conns h' <= S (h_conns h))%nat
                 /\ match r with Ok addrs => (host, addrs) ∈ h_resolved h' | Err _ => True end) h.
Proof.
  unfold send_resolve_sync. apply wlp_bind. eapply wlp_mono; [apply send_tagged_pres|].
  intros r h' (Hp & Hr & Hl & Hc). destruct r as [[v addrs|v reason|v m]|e]; try by apply wlp_ret.
  destruct (negb _); [by apply wlp_ret|]. apply wlp_bind, wlp_modify, wlp_ret. simpl.
  split_and!; [|done|done|apply elem_of_app; right; by left].
  eapply pres_trans; [exact Hp|]. split; try done; [by eexists|]. unfold cache_inv. simpl.
  apply HookCache.cache_all_impl. intros. by apply resolved_for_mono.
Qed.

Lemma cache_lookup_pres (k : list N) (h : Hook) :
  wlp (cache_lookup k)
    (fun r h' => pres h h' /\ h_conns h' = h_conns h /\ h_resolved h' = h_resolved h
       /\ (cache_inv h -> k <> [] -> forall host, r = Some host -> resolved_for (h_resolved h') k host)) h.
Proof.
  unfold cache_lookup, wlp. destruct (HookCache.lookup (h_cache h) k) as [c r] eqn:Hl.
  pose proof (HookCache.cache_all_lookup (resolved_for (h_resolved h)) (h_cache h) k) as Hc.
  rewrite Hl in Hc. simpl in *. split_and!; try done.
  - split; try done; [by exists []; rewrite app_nil_r|]. intros Hi. by apply Hc.
  - intros Hi Hk host ->. by apply Hc.
Qed.

Lemma str_take_short (n : nat) (s : string) : String.length s <= n -> str_take n s = s.
Proof. apply str_take_ge. Qed.

Lemma cache_insert_pres (k : list N) (host : string) (h : Hook) :
  (k <> [] -> exists addrs wire n, (host, addrs) ∈ h_resolved h /\ wire ∈ addrs /\ cache_key wire n = k) ->
  wlp (cache_insert k host)
    (fun _ h' => pres h h' /\ h_conns h' = h_conns h /\ h_resolved h' = h_resolved h
                 /\ h_live h' = h_live h) h.
Proof.
  intros Hk. unfold cache_insert, modify, wlp. split_and!; try done.
  split; try done; [by exists []; rewrite app_nil_r|].
  intros Hi. apply HookCache.cache_all_insert; [done|]. intros Hne Hlen.
  destruct (Hk Hne) as (addrs & wire & n & ? & ? & ?). exists host, addrs, wire, n.
  split_and!; try done. by rewrite str_take_short.
Qed.

(** The rendering of an address, as a function of the copied bytes. *)
Definition render_ip (sa : list N) : option string :=
  if bool_decide (nth 1 sa 0%N = AF_INET) && bool_decide (SOCKADDR_IN <= length sa)
  then inet_ntop AF_INET (take 4 (drop 4 sa))
  else if bool_decide (nth 1 sa 0%N = AF_INET6) && bool_decide (SOCKADDR_IN6 <= length sa)
  then inet_ntop AF_INET6 (take 16 (drop 8 sa))
  else None.

Lemma read_byte_Some (p : Ptr) (i : nat) (h h' : Hook) (b : N) :
  read_byte p i h = Some (b, h') -> exists m, p = Some m /\ m !! i = Some b /\ h' = h.
Proof.
  unfold read_byte. destruct p as [m|]; [|done]. destruct (m !! i) as [x|] eqn:Hm; [|done].
  intros [= <- <-]. eauto.
Qed.

Lemma nth_take_lookup (m : list N) (n : nat) (b : N) :
  m !! 1 = Some b -> 2 <= n -> nth 1 (take n m) 0%N = b.
Proof.
  intros Hm Hn. apply nth_lookup_Some. by rewrite lookup_take_lt.
Qed.

Lemma ip_to_str_spec (p : Ptr) (n : nat) (h : Hook) :
  wlp (ip_to_str p n)
    (fun r h' => h' = h /\ forall m, p = Some m -> length (take n m) = n -> r = render_ip (take n m)) h.
Proof.
  unfold ip_to_str. case_bool_decide as Hn.
  2: { apply wlp_ret. split; [done|]. intros m -> Hl. assert (n = 0) as -> by lia. done. }
  unfold wlp, mbind, hm_bind. destruct (read_byte p 1 h) as [[family h']|] eqn:Hr; [|done].
  apply read_byte_Some in Hr as (m & -> & Hm & ->).
  assert (forall k, k <= n -> take k m = take k (take n m)) as Htk
    by (intros k Hk; by rewrite take_take, Nat.min_l).
  destruct (bool_decide (family = AF_INET) && bool_decide (SOCKADDR_IN <= n)) eqn:H4.
  { bool_split. unfold read_bytes. case_bool_decide; [done|]. split; [done|]. intros m' [= <-] Hl.
    unfold render_ip. rewrite (nth_take_lookup m n family Hm) by (unfold SOCKADDR_IN in *; lia).
    rewrite Hl, !bool_decide_eq_true_2 by done. simpl. f_equal.
    rewrite !firstn_skipn_comm. change (4 + 4) with 8. rewrite !take_take. f_equal.
    unfold SOCKADDR_IN in *. f_equal. lia. }
  destruct (bool_decide (family = AF_INET6) && bool_decide (SOCKADDR_IN6 <= n)) eqn:H6.
  { clear H4. bool_split. unfold read_bytes. case_bool_decide; [done|]. split; [done|].
    intros m' [= <-] Hl. unfold render_ip.
    rewrite (nth_take_lookup m n family Hm) by (unfold SOCKADDR_IN6 in *; lia).
    subst family. rewrite Hl, bool_decide_eq_false_2 by done. simpl. 
    rewrite bool_decide_eq_true_2 by done. simpl. f_equal.
    rewrite !firstn_skipn_comm, !take_take. f_equal. unfold SOCKADDR_IN6 in *. f_equal. lia. }
  split; [done|]. intros m' [= <-] Hl. unfold render_ip. rewrite Hl.
  destruct (decide (n = 1)) as [->|]; [by rewrite !andb_false_r|].
  rewrite (nth_take_lookup m n family Hm) by lia. by rewrite H4, H6.
Qed.

Lemma resolve_walk_pres (cs : list AllowlistEntry) (port : N) (ck : list N) (n : nat) (h : Hook) :
  wlp (resolve_walk cs port ck n)
    (fun r h' => pres h h' /\ (h_conns h' <= h_conns h + length cs)%nat
       /\ forall host, r = Some host -> resolved_for (h_resolved h') ck host) h.
Proof.
  revert h. induction cs as [|e cs IH]; intros h; simpl.
  { apply wlp_ret. split_and!; [apply pres_refl|lia|done]. }
  assert (forall h', pres h h' /\ (h_conns h' <= S (h_conns h))%nat ->
            wlp (resolve_walk cs port ck n)
              (fun r h'' => pres h h'' /\ (h_conns h'' <= h_conns h + S (length cs))%nat
                 /\ forall host, r = Some host -> resolved_for (h_resolved h'') ck host) h') as Hnext.
  { intros h' [Hp Hc]. eapply wlp_mono; [apply IH|]. intros r h'' (Hp' & Hc' & Hr).
    split_and!; [by eapply pres_trans|lia|done]. }
  apply wlp_bind. eapply wlp_mono; [apply send_resolve_pres|]. intros r h' (Hp & _ & Hc & Hr).
  destruct r as [addrs|err]; [|by apply Hnext].
  destruct (existsb _ addrs) eqn:He; [|by apply Hnext].
  apply existsb_exists in He as (wire & Hw%list_elem_of_In & Hk%bool_decide_eq_true).
  apply wlp_bind. eapply wlp_mono; [apply cache_insert_pres; intros _; by exists addrs, wire, n|].
  intros [] h'' (Hp' & Hc' & Hres & _). apply wlp_ret. split_and!; [by eapply pres_trans|lia|].
  intros host [= <-]. rewrite Hres. by exists (e_pattern e), addrs, wire, n.
Qed.

(** ** The decision *)

Lemma unresolved_denied (ip : option string) (entries : list AllowlistEntry) (v : Verdict) (s : SourceKind) :
  evaluate_policy "" ip false entries = (v, s) -> v = VDeny.
Proof.
  assert (walk_entries "" None entries = (VDeny, DefaultDeny)) as Hw
    by (induction entries as [|e l IH]; [done|simpl; done]).
  unfold evaluate_policy. destruct ip as [b|]; simpl.
  - destruct (is_loopback_ip b), (is_cloud_metadata_ip b); by intros [= <- <-].
  - rewrite Hw. by intros [= <- <-].
Qed.

Lemma cache_key_nonempty (sa : list N) : sa <> [] -> cache_key sa (length sa) <> [].
Proof.
  intros Hsa. unfold cache_key. destruct sa as [|x sa]; [done|].
  case_bool_decide; unfold HookCache.MAX_SOCKADDR_BYTES; simpl; [|done].
  destruct (length sa); simpl; [done|]. destruct sa; simpl; done.
Qed.

Lemma sockaddr_bytes_spec (p : Ptr) (n : nat) (h : Hook) :
  wlp (sockaddr_bytes p n)
    (fun r h' => h' = h /\ forall sa, r = Some sa ->
       exists m, p = Some m /\ sa = take n m /\ length sa = n /\ 1 <= n) h.
Proof.
  unfold sockaddr_bytes. destruct p as [m|]; simpl; [|by apply wlp_ret].
  destruct (bool_decide (n = 0) || _) eqn:Hn; [by apply wlp_ret|]. bool_split.
  unfold wlp, mbind, hm_bind, read_bytes. case_bool_decide as Hm; [done|]. simpl. split; [done|].
  intros sa [= <-]. exists m. split_and!; try done; [|lia]. rewrite length_take. lia.
Qed.

(** What a permitted destination is: the library holds rules and is not closed,
    the address is not a local socket, the daemon resolved a name to it, and
    the policy allows that name at that address. *)
Definition permitted (h : Hook) (p : Ptr) (n : nat) : Prop :=
  exists m entries host src,
    p = Some m /\ length (take n m) = n /\ nth 1 (take n m) 0%N <> AF_UNIX
    /\ h_fail_closed h = false /\ h_allowlist h = Some entries
    /\ resolved_for (h_resolved h) (cache_key (take n m) n) host
    /\ evaluate_policy host (render_ip (take n m)) true entries = (VAllow, src).

Lemma unix_destination_spec (p : Ptr) (n : nat) (h : Hook) :
  wlp (unix_destination p n)
    (fun u h' => h' = h /\ (u = false -> forall m, p = Some m -> length (take n m) = n ->
                              nth 1 (take n m) 0%N <> AF_UNIX)) h.
Proof.
  unfold unix_destination. destruct (negb (is_null p) && bool_decide (1 <= n)) eqn:Hc.
  - bool_split. unfold wlp, mbind, hm_bind. destruct (read_byte p 1 h) as [[b h']|] eqn:Hr; [|done].
    apply read_byte_Some in Hr as (m & -> & Hm & ->). split; [done|].
    intros Hb%bool_decide_eq_false m' [= <-] Hl. destruct (decide (n = 1)) as [->|].
    + destruct m as [|x m]; simpl; done.
    + rewrite (nth_take_lookup m n b Hm) by lia. done.
  - apply wlp_ret. split; [done|]. intros _ m -> Hl. simpl in Hc.
    apply bool_decide_eq_false in Hc. assert (n = 0) as -> by lia. done.
Qed.

Lemma resolve_fallback_pres (cached : option string) (socket : bool) (ip : option string)
    (sa : list N) (entries : list AllowlistEntry) (h : Hook) :
  (forall host, cached = Some host -> resolved_for (h_resolved h) (cache_key sa (length sa)) host) ->
  wlp (resolve_fallback cached socket ip sa entries)
    (fun r h' => pres h h' /\ (h_conns h' <= h_conns h + MAX_RESOLVE_ATTEMPTS)%nat
       /\ forall host, r = Some host -> resolved_for (h_resolved h') (cache_key sa (length sa)) host) h.
Proof.
  intros Hc. unfold resolve_fallback. destruct cached as [host|].
  - apply wlp_ret. split_and!; [apply pres_refl|lia|]. by intros host' [= <-]; apply Hc.
  - destruct (_ && _); [|apply wlp_ret; split_and!; [apply pres_refl|lia|done]].
    eapply wlp_mono; [apply resolve_walk_pres|]. intros r h' (? & Hl & ?). split_and!; [done| |done].
    unfold resolve_candidates in Hl. rewrite length_take in Hl. lia.
Qed.

Lemma decide_spec (p : Ptr) (n : nat) (h : Hook) :
  cache_inv h ->
  wlp (decide_for_sockaddr p n)
    (fun r h' => pres h h' /\ (h_conns h' <= h_conns h + MAX_RESOLVE_ATTEMPTS)%nat
                 /\ (r.1 = VAllow -> permitted h' p n)) h.
Proof.
  intros Hi. unfold decide_for_sockaddr. apply wlp_bind.
  eapply wlp_mono; [apply unix_destination_spec|].
  intros u h1 [-> Hu]. destruct u; [apply wlp_ret; split_and!; [apply pres_refl|lia|done]|].
  specialize (Hu eq_refl). apply wlp_bind. unfold entries_or_deny. apply wlp_bind, wlp_gets.
  destruct (h_fail_closed h) eqn:Hfc; [apply wlp_ret, wlp_ret; split_and!; [apply pres_refl|simpl; lia|done]|].
  apply wlp_gets. destruct (h_allowlist h) as [entries|] eqn:Hal;
    [|apply wlp_ret; split_and!; [apply pres_refl|simpl; lia|done]].
  apply wlp_bind. eapply wlp_mono; [apply sockaddr_bytes_spec|]. intros r h1 [-> Hsa].
  destruct r as [sa|]; [|apply wlp_ret; split_and!; [apply pres_refl|simpl; lia|done]].
  destruct (Hsa sa eq_refl) as (m & -> & Heq & Hlen & Hn). specialize (Hu m eq_refl). rewrite <- Heq in Hu.
  apply wlp_bind. eapply wlp_mono; [apply cache_lookup_pres|]. intros cached h2 (Hp2 & Hc2 & Hr2 & Hf).
  specialize (Hf Hi (cache_key_nonempty sa ltac:(intros ->; simpl in *; lia))).
  apply wlp_bind. eapply wlp_mono; [apply ip_to_str_spec|].
  intros ip h3 [-> Hip]. specialize (Hip m eq_refl). rewrite <- Heq in Hip. specialize (Hip Hlen). subst ip.
  apply wlp_bind, wlp_gets, wlp_bind.
  eapply wlp_mono; [apply resolve_fallback_pres, Hf|].
  intros host h3 (Hp3 & Hc3 & Hr3). assert (pres h h3) as Hp by (by eapply pres_trans).
  destruct host as [host|]; apply wlp_ret; (split_and!; [done|lia|]).
  - destruct (evaluate_policy host _ true entries) as [v src] eqn:Hev. simpl. intros ->.
    exists m, entries, host, src.
    rewrite <- Heq, (pres_fail_closed _ _ Hp), (pres_allowlist _ _ Hp).
    specialize (Hr3 host eq_refl). rewrite Hlen in Hr3. split_and!; auto.
  - destruct (evaluate_policy "" _ false entries) as [v src] eqn:Hev.
    apply unresolved_denied in Hev as ->. done.
Qed.

(** ** The entry points *)

Lemma notify_pres (p : Ptr) (n : nat) (surface : string) (k : SourceKind) (h : Hook) :
  wlp (notify_deny_for_sockaddr p n surface k)
    (fun _ h' => pres h h' /\ (h_conns h' <= S (h_conns h))%nat) h.
Proof.
  assert (forall tok host port ip h1, pres h h1 -> h_conns h1 = h_conns h ->
            wlp (send_deny_notify tok host port ip surface (as_label k))
              (fun _ h' => pres h h' /\ (h_conns h' <= S (h_conns h))%nat) h1) as Hsend.
  { intros tok host port ip h1 Hp Hc. unfold send_deny_notify. apply wlp_bind, wlp_gets, wlp_bind, wlp_modify.
    apply wlp_bind. eapply wlp_mono; [apply send_tagged_pres|]. intros r h2 (Hp2 & _ & _ & Hc2).
    apply wlp_ret. simpl in Hc2. rewrite Hc in Hc2. split; [|done].
    eapply pres_trans; [exact Hp|]. eapply pres_trans; [|exact Hp2]. by apply pres_same. }
  unfold notify_deny_for_sockaddr. apply wlp_bind, wlp_gets.
  destruct (h_socket h); simpl; [|apply wlp_ret; split; [apply pres_refl|lia]].
  apply wlp_bind. eapply wlp_mono; [apply ip_to_str_spec|]. intros ip h1 [-> _].
  apply wlp_bind. eapply (wlp_mono _ (fun _ h' => h' = h)).
  { destruct (_ && _); [|by apply wlp_ret]. unfold wlp, mbind, hm_bind.
    destruct (read_byte p 2 h) as [[hi h2]|] eqn:Hr; [|done]. apply read_byte_Some in Hr as (_ & _ & _ & ->).
    destruct (read_byte p 3 h) as [[lo h3]|] eqn:Hr; [|done]. by apply read_byte_Some in Hr as (_ & _ & _ & ->). }
  intros port h1 ->. apply wlp_bind. eapply wlp_mono; [apply sockaddr_bytes_spec|]. intros sa h1 [-> _].
  destruct sa as [sa|]; [|apply Hsend; [apply pres_refl|done]].
  apply wlp_bind. eapply wlp_mono; [apply cache_lookup_pres|]. intros host h2 (Hp & Hc & _). by apply Hsend.
Qed.

Lemma log_append_pres (m : string) (h : Hook) :
  wlp (log_append m) (fun _ h' => pres h h' /\ h_conns h' = h_conns h) h.
Proof. apply wlp_modify. split; [by apply pres_same|done]. Qed.

(** The destination a system call names; sends on connected sockets have none. *)
Definition dest_of (s : Syscall) : option (Ptr * nat) :=
  let named := fun p n => if is_null p || bool_decide (n = 0) then None else Some (p, n) in
  match s with
  | SysConnect p n => Some (p, n)
  | SysConnectx d => Some (match d with Some pn => pn | None => (None, 0) end)
  | SysSendto p n => named p n
  | SysSendmsg (Some (p, n)) => named p n
  | SysSendmsg None => Some (None, 0)
  | SysSend => None
  end.

Definition justified (h : Hook) (s : Syscall) : Prop :=
  forall p n, dest_of s = Some (p, n) -> permitted h p n.

(** Between two calls of the program. *)
Record idle_inv (h : Hook) : Prop := {
  ii_idle : h_in_hook h = false;
  ii_cache : cache_inv h;
  ii_trace : Forall (justified h) (h_trace h);
}.

Lemma permitted_mono (h h' : Hook) (p : Ptr) (n : nat) :
  h_fail_closed h' = h_fail_closed h -> h_allowlist h' = h_allowlist h ->
  (exists l, h_resolved h' = h_resolved h ++ l) -> permitted h p n -> permitted h' p n.
Proof.
  intros Hf Ha [l Hl] (m & entries & host & src & ? & ? & ? & ? & ? & ? & ?).
  exists m, entries, host, src. rewrite Hf, Ha, Hl. split_and!; auto. by apply resolved_for_mono.
Qed.

(** The body of an interposed call, run with the flag set: it leaves the
    invariant's parts alone, except for one justified system call at the end. *)
Definition body_ok {A} (m : HM A) (h : Hook) : Prop :=
  wlp m (fun _ h' => h_fail_closed h' = h_fail_closed h /\ h_allowlist h' = h_allowlist h
          /\ (exists l, h_resolved h' = h_resolved h ++ l) /\ cache_inv h'
          /\ (h_trace h' = h_trace h \/ exists s, h_trace h' = h_trace h ++ [s] /\ justified h' s)) h.

Lemma guard_preserves {A} (reentrant body : HM A) (h : Hook) :
  idle_inv h ->
  (forall h0, cache_inv h0 -> body_ok body h0) ->
  wlp (in_hook_guard reentrant body) (fun _ h' => idle_inv h') h.
Proof.
  intros [Hin Hc Ht] Hb. unfold in_hook_guard. apply wlp_bind, wlp_gets, wlp_bind, wlp_modify.
  rewrite Hin. apply wlp_bind. eapply wlp_mono; [by apply Hb|].
  intros r h' (Hf & Ha & Hl & Hc' & Htr). apply wlp_bind, wlp_modify, wlp_ret.
  assert (Forall (justified h') (h_trace h)) as Hold.
  { eapply Forall_impl; [exact Ht|]. intros s Hs p n Hd. eapply permitted_mono; [exact Hf|exact Ha|exact Hl|].
    by apply Hs. }
  split; [done|done|]. simpl. destruct Htr as [->|(s & -> & Hs)]; [done|].
  apply Forall_app. split; [done|]. by apply Forall_singleton.
Qed.

Lemma pres_body_ok {A} (m : HM A) (h : Hook) :
  cache_inv h -> wlp m (fun _ h' => pres h h') h -> body_ok m h.
Proof.
  intros Hi Hm. eapply wlp_mono; [exact Hm|]. intros r h' Hp.
  split_and!; [apply Hp|apply Hp|apply Hp|by apply Hp|]. left. apply Hp.
Qed.

Lemma filtered_ok (dec : HM (Verdict * SourceKind)) (deny : SourceKind -> HM Z) (s : Syscall) (h : Hook) :
  cache_inv h ->
  wlp dec (fun r h' => pres h h' /\ (r.1 = VAllow -> justified h' s)) h ->
  (forall src h', wlp (deny src) (fun _ h'' => pres h' h'') h') ->
  body_ok ('(verdict, source) ← dec;
           if bool_decide (verdict = VDeny) then deny source else raw_syscall s) h.
Proof.
  intros Hi Hd Hdeny. unfold body_ok. apply wlp_bind. eapply wlp_mono; [exact Hd|].
  intros [v src] h' [Hp Hj]. case_bool_decide as Hv.
  - eapply wlp_mono; [apply Hdeny|]. intros r h'' Hp'. pose proof (pres_trans _ _ _ Hp Hp') as Hpp.
    split_and!; [apply Hpp|apply Hpp|apply Hpp|by apply Hpp|]. left. apply Hpp.
  - apply wlp_bind, wlp_gets, wlp_bind, wlp_modify, wlp_ret. simpl.
    split_and!; [apply Hp|apply Hp|apply Hp|by apply Hp|]. right. exists s.
    split; [by rewrite (pres_trace _ _ Hp)|]. destruct v; [|done].
    intros p n Hd'. eapply (permitted_mono h'); [done|done|by exists []; rewrite app_nil_r|]. by apply Hj.
Qed.

Lemma deny_with_pres (surface : string) (src : SourceKind) (notify : HM unit) (h : Hook) :
  (forall h', wlp notify (fun _ h'' => pres h' h'') h') ->
  wlp (deny_with surface src notify) (fun _ h' => pres h h') h.
Proof.
  intros Hn. unfold deny_with. apply wlp_bind. eapply wlp_mono; [apply log_append_pres|].
  intros [] h1 [Hp1 _]. apply wlp_bind. eapply wlp_mono; [apply Hn|]. intros [] h2 Hp2.
  apply wlp_bind, wlp_modify, wlp_ret. eapply pres_trans; [exact Hp1|]. eapply pres_trans; [exact Hp2|].
  by apply pres_same.
Qed.

Lemma notify_pres_only (p : Ptr) (n : nat) (surface : string) (k : SourceKind) (h : Hook) :
  wlp (notify_deny_for_sockaddr p n surface k) (fun _ h' => pres h h') h.
Proof. eapply wlp_mono; [apply notify_pres|]. by intros [] h' []. Qed.

Lemma decide_justified (p : Ptr) (n : nat) (s : Syscall) (h : Hook) :
  cache_inv h -> dest_of s = Some (p, n) ->
  wlp (decide_for_sockaddr p n) (fun r h' => pres h h' /\ (r.1 = VAllow -> justified h' s)) h.
Proof.
  intros Hi Hd. eapply wlp_mono; [by apply decide_spec|]. intros r h' (Hp & _ & Hr). split; [done|].
  intros Hv p' n' Hd'. simplify_eq. auto.
Qed.

Lemma guard_connect_ok (p : Ptr) (n : nat) (h : Hook) :
  idle_inv h -> wlp (guard_connect p n) (fun _ h' => idle_inv h') h.
Proof.
  intros Hi. apply guard_preserves; [done|]. intros h0 Hc. apply filtered_ok; [done|by apply decide_justified|].
  intros src h'. apply deny_with_pres. intros. apply notify_pres_only.
Qed.

Lemma guard_connectx_ok (d : option (Ptr * nat)) (h : Hook) :
  idle_inv h -> wlp (guard_connectx d) (fun _ h' => idle_inv h') h.
Proof.
  intros Hi. apply guard_preserves; [done|]. intros h0 Hc. apply filtered_ok; [done| |].
  - destruct d as [[p n]|]; [by apply decide_justified|]. apply wlp_ret. split; [apply pres_refl|done].
  - intros src h'. apply deny_with_pres. intros h1. destruct d as [[p n]|]; [apply notify_pres_only|].
    apply wlp_ret, pres_refl.
Qed.

Lemma guard_sendto_ok (p : Ptr) (n : nat) (h : Hook) :
  idle_inv h -> wlp (guard_sendto p n) (fun _ h' => idle_inv h') h.
Proof.
  intros Hi. apply guard_preserves; [done|]. intros h0 Hc. apply filtered_ok; [done| |].
  - destruct (is_null p || bool_decide (n = 0)) eqn:Hn.
    + apply wlp_ret. split; [apply pres_refl|]. intros _ p' n' Hd. simpl in Hd. by rewrite Hn in Hd.
    + apply decide_justified; [done|]. simpl. by rewrite Hn.
  - intros src h'. apply deny_with_pres. intros. apply notify_pres_only.
Qed.

Lemma guard_sendmsg_ok (msg : option (Ptr * nat)) (h : Hook) :
  idle_inv h -> wlp (guard_sendmsg msg) (fun _ h' => idle_inv h') h.
Proof.
  intros Hi. apply guard_preserves; [done|]. intros h0 Hc.
  eapply (filtered_ok _ (fun source => _ ← modify (with_errno EHOSTUNREACH); _)); [done| |].
  - destruct msg as [[p n]|]; [|apply wlp_ret; split; [apply pres_refl|done]].
    destruct (is_null p || bool_decide (n = 0)) eqn:Hn.
    + apply wlp_ret. split; [apply pres_refl|]. intros _ p' n' Hd. simpl in Hd. by rewrite Hn in Hd.
    + apply decide_justified; [done|]. simpl. by rewrite Hn.
  - intros src h'. apply wlp_bind, wlp_modify, wlp_bind. eapply wlp_mono; [apply log_append_pres|].
    intros [] h1 [Hp1 _]. apply wlp_bind. eapply (wlp_mono _ (fun _ h'' => pres h1 h'')).
    + destruct msg as [[p n]|]; [|apply wlp_ret, pres_refl].
      destruct (_ && _); [apply notify_pres_only|apply wlp_ret, pres_refl].
    + intros [] h2 Hp2. apply wlp_ret. eapply pres_trans; [|exact Hp2].
      eapply pres_trans; [|exact Hp1]. by apply pres_same.
Qed.

Lemma guard_send_ok (h : Hook) : idle_inv h -> wlp guard_send (fun _ h' => idle_inv h') h.
Proof.
  intros Hi. apply guard_preserves; [done|]. intros h0 Hc.
  unfold body_ok, raw_syscall. apply wlp_bind, wlp_gets, wlp_bind, wlp_modify, wlp_ret. simpl.
  split_and!; try done; [by exists []; rewrite app_nil_r|]. right. by exists SysSend.
Qed.

(** ** Name resolution *)

Lemma malloc_spec (h : Hook) :
  wlp malloc (fun ok h' => pres h h' /\ h_resolved h' = h_resolved h
                /\ h_live h' = (if (ok : bool) then S (h_live h) else h_live h)) h.
Proof.
  unfold malloc. apply wlp_bind, wlp_gets, wlp_bind, wlp_gets, wlp_bind, wlp_modify, wlp_ret.
  split_and!; [by apply pres_same|done|done].
Qed.

Lemma free_chain_spec (l : list Addrinfo) (h : Hook) :
  wlp (free_addrinfo_chain l)
    (fun _ h' => pres h h' /\ h_live h' = h_live h - 2 * length l) h.
Proof.
  revert h. induction l as [|a l IH]; intros h; simpl.
  - apply wlp_ret. split; [apply pres_refl|lia].
  - apply wlp_bind, wlp_modify, wlp_bind, wlp_modify. eapply wlp_mono; [apply IH|].
    intros [] h' [Hp Hl]. split; [|simpl in Hl; lia]. eapply pres_trans; [|exact Hp]. by apply pres_same.
Qed.

(** The heap around the construction of a chain from [head]. *)
Definition heap_of_node (h : Hook) (head : list Addrinfo) (r : result (option Addrinfo) Z) (h' : Hook) : Prop :=
  match r with
  | Ok None => h_live h' = h_live h
  | Ok (Some _) => h_live h' = S (S (h_live h))
  | Err code => h_live h' = h_live h - 2 * length head /\ code = EAI_MEMORY
  end.

Lemma node_spec (host : string) (wire : list N) (addrs : list (list N)) (f t p : Z)
    (head : list Addrinfo) (h : Hook) :
  (host, addrs) ∈ h_resolved h -> wire ∈ addrs ->
  wlp (addrinfo_node_for_wire host wire f t p head)
    (fun r h' => pres h h' /\ heap_of_node h head r h') h.
Proof.
  intros Hin Hw. unfold addrinfo_node_for_wire.
  destruct (_ && _); [apply wlp_ret; split; [apply pres_refl|done]|].
  destruct (if bool_decide _ then _ else _) as [size|]; [|apply wlp_ret; split; [apply pres_refl|done]].
  apply wlp_bind. eapply wlp_mono; [apply cache_insert_pres; intros _; by eexists addrs, wire, _|].
  intros [] h1 (Hp1 & _ & _ & Hl1). apply wlp_bind. eapply wlp_mono; [apply malloc_spec|].
  intros ok h2 (Hp2 & _ & Hl2). pose proof (pres_trans _ _ _ Hp1 Hp2) as Hp12. destruct ok; simpl.
  2: { apply wlp_bind. eapply wlp_mono; [apply free_chain_spec|]. intros [] h3 [Hp3 Hl3]. apply wlp_ret.
       split; [by eapply pres_trans|]. simpl. split; [|done]. rewrite Hl3. simpl in *. lia. }
  apply wlp_bind. eapply wlp_mono; [apply malloc_spec|].
  intros ok h3 (Hp3 & _ & Hl3). pose proof (pres_trans _ _ _ Hp12 Hp3) as Hp13. destruct ok; simpl.
  - apply wlp_ret. split; [done|]. simpl. congruence.
  - apply wlp_bind, wlp_modify, wlp_bind. eapply wlp_mono; [apply free_chain_spec|].
    intros [] h4 [Hp4 Hl4]. apply wlp_ret. split.
    + eapply pres_trans; [exact Hp13|]. eapply pres_trans; [|exact Hp4]. by apply pres_same.
    + simpl. split; [|done]. rewrite Hl4. simpl. simpl in *. lia.
Qed.

Lemma build_spec (host : string) (addrs0 addrs : list (list N)) (f t p : Z)
    (head : list Addrinfo) (h : Hook) :
  (host, addrs0) ∈ h_resolved h -> Forall (fun w => w ∈ addrs0) addrs -> 2 * length head <= h_live h ->
  wlp (build_addrinfo_chain host addrs f t p head)
    (fun r h' => pres h h' /\
       match r with
       | Ok chain => chain <> [] /\ h_live h' + 2 * length head = h_live h + 2 * length chain
       | Err code => h_live h' + 2 * length head = h_live h /\ code <> 0%Z
       end) h.
Proof.
  intros Hin HF. revert head h Hin. induction HF as [|wire addrs Hw HF IH]; intros head h Hin Hlive; simpl.
  { apply wlp_ret. split; [apply pres_refl|]. destruct head; simpl in *; split; [lia|done|done|lia]. }
  apply wlp_bind. eapply wlp_mono; [by eapply node_spec|]. intros r h1 [Hp1 Hn].
  assert ((host, addrs0) ∈ h_resolved h1) as Hin1.
  { destruct (pres_resolved _ _ Hp1) as [l ->]. apply elem_of_app. by left. }
  destruct r as [[node|]|code]; simpl in Hn.
  - eapply wlp_mono; [apply IH; [done|rewrite length_app; simpl; lia]|].
    intros r h2 [Hp2 Hr]. split; [by eapply pres_trans|]. rewrite length_app in Hr. simpl in Hr.
    destruct r; destruct Hr; split; try done; lia.
  - eapply wlp_mono; [apply IH; [done|lia]|]. intros r h2 [Hp2 Hr]. split; [by eapply pres_trans|].
    by rewrite Hn in Hr.
  - apply wlp_ret. split; [done|]. destruct Hn as [Hn ->]. split; [lia|done].
Qed.

(** The body of [guard_getaddrinfo], after the guard is entered. *)
Definition lookup_ok (h : Hook) (r : Z * list Addrinfo) (h' : Hook) : Prop :=
  h_live h' = h_live h + 2 * length r.2 /\ (r.1 = 0%Z <-> r.2 <> []).

Lemma lookup_ok_err (h h' : Hook) (code : Z) :
  h_live h' = h_live h -> code <> 0%Z -> lookup_ok h (code, []) h'.
Proof. intros Hl Hc. split; simpl; [lia|]. split; [done|]. by intros []. Qed.

Lemma proxy_lookup_spec (host : string) (port : N) (hints : option (Z * Z * Z)) (h : Hook) :
  wlp (proxy_lookup host port hints) (fun r h' => pres h h' /\ lookup_ok h r h') h.
Proof.
  unfold proxy_lookup. apply wlp_bind. eapply wlp_mono; [apply send_resolve_pres|].
  intros r h1 (Hp1 & Hl1 & _ & Hr). destruct r as [[|w addrs]|e].
  - apply wlp_ret. split; [done|]. by apply lookup_ok_err.
  - destruct (match hints with Some _ => _ | None => _ end) as [[f t] p]. apply wlp_bind.
    eapply wlp_mono; [apply (build_spec host (w :: addrs)); [done|by apply Forall_forall|simpl; lia]|].
    intros built h2 [Hp2 Hb]. pose proof (pres_trans _ _ _ Hp1 Hp2) as Hp. destruct built as [chain|code].
    + destruct Hb as [Hne Hlive]. apply wlp_bind. eapply wlp_mono.
      * apply (wlp_modify _ (fun _ h' => pres h2 h' /\ h_live h' = h_live h2)). split; [by apply pres_same|done].
      * intros [] h3 [Hp3 Hl3]. apply wlp_ret. split; [by eapply pres_trans|]. unfold lookup_ok. simpl in *. split; [lia|done].
    + apply wlp_ret. split; [done|]. apply lookup_ok_err; [|apply Hb]. destruct Hb. simpl in *. lia.
  - apply wlp_ret. split; [done|]. apply lookup_ok_err; [done|].
    destruct e; simpl; try done. by destruct (starts_with _ _).
Qed.

(** The body of the lookup, once the guard is entered. *)
Lemma lookup_body_spec (node service : option string) (hints : option (Z * Z * Z)) (res_null : bool) (h : Hook) :
  wlp (if res_null then mret (EAI_FAIL, [])
       else
         fail_closed ← gets h_fail_closed;
         socket ← gets h_socket;
         if (fail_closed : bool) then mret (EAI_FAIL, [])
         else if negb socket then mret (EAI_AGAIN, [])
         else match node with
              | Some host =>
                  if utf8_valid host && negb (is_empty host)
                  then proxy_lookup host (service_port service) hints
                  else mret (EAI_AGAIN, [])
              | None => mret (EAI_AGAIN, [])
              end)
    (fun r h' => pres h h' /\ lookup_ok h r h') h.
Proof.
  assert (forall code, code <> 0%Z -> wlp (mret (code, []) : HM (Z * list Addrinfo))
            (fun r h' => pres h h' /\ lookup_ok h r h') h) as Herr.
  { intros code Hc. apply wlp_ret. split; [apply pres_refl|]. by apply lookup_ok_err. }
  destruct res_null; [by apply Herr|]. apply wlp_bind, wlp_gets, wlp_bind, wlp_gets.
  destruct (h_fail_closed h); [by apply Herr|]. destruct (h_socket h); simpl; [|by apply Herr].
  destruct node as [host|]; [|by apply Herr].
  destruct (_ && _); [apply proxy_lookup_spec|by apply Herr].
Qed.

Lemma guard_getaddrinfo_ok (node service : option string) (hints : option (Z * Z * Z)) (b : bool) (h : Hook) :
  idle_inv h -> wlp (guard_getaddrinfo node service hints b) (fun _ h' => idle_inv h') h.
Proof.
  intros Hi. apply guard_preserves; [done|]. intros h0 Hc. apply pres_body_ok; [done|].
  eapply wlp_mono; [apply lookup_body_spec|]. by intros r h' [].
Qed.

Lemma guard_freeaddrinfo_ok (l : list Addrinfo) (h : Hook) :
  idle_inv h -> wlp (guard_freeaddrinfo l) (fun _ h' => idle_inv h') h.
Proof.
  intros [Hin Hc Ht]. eapply wlp_mono; [apply free_chain_spec|]. intros [] h' [Hp _]. split.
  - by rewrite (pres_in_hook _ _ Hp).
  - by apply (pres_inv _ _ Hp).
  - rewrite (pres_trace _ _ Hp). eapply Forall_impl; [exact Ht|]. intros s Hs p n Hd.
    eapply permitted_mono; [apply Hp..|]. by apply Hs.
Qed.

(** ** Sequences of calls *)

Inductive HookCall : Type :=
| CallConnect (addr : Ptr) (addrlen : nat)
| CallConnectx (endpoints : option (Ptr * nat))
| CallSendto (to : Ptr) (tolen : nat)
| CallSendmsg (msg : option (Ptr * nat))
| CallSend
| CallGetaddrinfo (node service : option string) (hints : option (Z * Z * Z)) (res_null : bool)
| CallFreeaddrinfo (res : list Addrinfo).

Definition run_call (c : HookCall) : HM unit :=
  match c with
  | CallConnect p n => _ ← guard_connect p n; mret tt
  | CallConnectx d => _ ← guard_connectx d; mret tt
  | CallSendto p n => _ ← guard_sendto p n; mret tt
  | CallSendmsg m => _ ← guard_sendmsg m; mret tt
  | CallSend => _ ← guard_send; mret tt
  | CallGetaddrinfo n s hi b => _ ← guard_getaddrinfo n s hi b; mret tt
  | CallFreeaddrinfo l => guard_freeaddrinfo l
  end.

Fixpoint run_calls (cs : list HookCall) : HM unit :=
  match cs with
  | [] => mret tt
  | c :: rest => _ ← run_call c; run_calls rest
  end.

(** The state the constructor leaves. *)
Definition hook_init (fail_closed : bool) (allowlist : option (list AllowlistEntry)) (socket : bool) : Hook :=
  mkHook false fail_closed allowlist socket HookCache.new [] 0 0 0 0 [] [] [].

Lemma idle_inv_init (b : bool) (a : option (list AllowlistEntry)) (k : bool) : idle_inv (hook_init b a k).
Proof. split; [done|apply HookCache.cache_all_new|constructor]. Qed.

Lemma run_call_ok (c : HookCall) (h : Hook) : idle_inv h -> wlp (run_call c) (fun _ h' => idle_inv h') h.
Proof.
  intros Hi. destruct c; simpl; [..|by apply guard_freeaddrinfo_ok]; apply wlp_bind.
  - eapply wlp_mono; [by apply guard_connect_ok|]. intros; by apply wlp_ret.
  - eapply wlp_mono; [by apply guard_connectx_ok|]. intros; by apply wlp_ret.
  - eapply wlp_mono; [by apply guard_sendto_ok|]. intros; by apply wlp_ret.
  - eapply wlp_mono; [by apply guard_sendmsg_ok|]. intros; by apply wlp_ret.
  - eapply wlp_mono; [by apply guard_send_ok|]. intros; by apply wlp_ret.
  - eapply wlp_mono; [by apply guard_getaddrinfo_ok|]. intros; by apply wlp_ret.
Qed.

Lemma run_calls_ok (cs : list HookCall) (h : Hook) :
  idle_inv h -> wlp (run_calls cs) (fun _ h' => idle_inv h') h.
Proof.
  revert h. induction cs as [|c cs IH]; intros h Hi; simpl; [by apply wlp_ret|].
  apply wlp_bind. eapply wlp_mono; [by apply run_call_ok|]. intros [] h' Hi'. by apply IH.
Qed.

(** ** Absence of faults *)

(** An address the caller may pass: readable over its length, which is not one. *)
Definition valid_addr (p : Ptr) (n : nat) : Prop :=
  exists m, p = Some m /\ n <= length m /\ n <> 1.

Lemma nf_bind {A B} (m : HM A) (f : A -> HM B) (h : Hook) :
  is_Some (m h) -> (forall a h', m h = Some (a, h') -> is_Some (f a h')) -> is_Some ((m ≫= f) h).
Proof. unfold mbind, hm_bind. intros [[a h'] Hm] Hf. rewrite Hm. by apply Hf. Qed.

Lemma nf_read_bytes (m : list N) (n : nat) (h : Hook) : n <= length m -> is_Some (read_bytes (Some m) n h).
Proof. intros Hn. unfold read_bytes. rewrite bool_decide_eq_false_2 by lia. by eexists. Qed.

Lemma nf_read_byte (m : list N) (i : nat) (h : Hook) : i < length m -> is_Some (read_byte (Some m) i h).
Proof. intros Hi. unfold read_byte. destruct (lookup_lt_is_Some_2 m i Hi) as [b ->]. by eexists. Qed.

Lemma nf_unix_destination (p : Ptr) (n : nat) (h : Hook) :
  p = None \/ valid_addr p n -> is_Some (unix_destination p n h).
Proof.
  intros [->|(m & -> & Hn & Hn1)]; [by eexists|]. unfold unix_destination. simpl.
  case_bool_decide; [|by eexists]. apply nf_bind; [apply nf_read_byte; lia|]. intros. by eexists.
Qed.

Lemma nf_ip_to_str (p : Ptr) (n : nat) (h : Hook) : valid_addr p n -> is_Some (ip_to_str p n h).
Proof.
  intros (m & -> & Hn & Hn1). unfold ip_to_str. case_bool_decide; [|by eexists].
  apply nf_bind; [apply nf_read_byte; lia|]. intros b h' _.
  destruct (_ && _) eqn:H4; bool_split.
  { apply nf_bind; [apply nf_read_bytes; lia|]. intros. by eexists. }
  clear H4. destruct (_ && _) eqn:H6; bool_split; [|by eexists].
  apply nf_bind; [apply nf_read_bytes; lia|]. intros. by eexists.
Qed.

Lemma nf_sockaddr_bytes (p : Ptr) (n : nat) (h : Hook) :
  p = None \/ valid_addr p n -> is_Some (sockaddr_bytes p n h).
Proof.
  intros [->|(m & -> & Hn & Hn1)]; [by eexists|]. unfold sockaddr_bytes. simpl.
  destruct (_ || _); [by eexists|]. apply nf_bind; [by apply nf_read_bytes|]. intros. by eexists.
Qed.

Lemma nf_send_tagged {Req Ack} `{Cbor Req, Cbor Ack} (tag : N) (msg : Req) (t : N) (h : Hook) :
  is_Some (send_tagged_and_recv_ack (Ack := Ack) tag msg t h).
Proof.
  unfold send_tagged_and_recv_ack, gets. simpl. unfold mbind, hm_bind. by destruct (h_socket h); eexists.
Qed.

Lemma nf_send_resolve (host : string) (port t : N) (h : Hook) : is_Some (send_resolve_sync host port t h).
Proof.
  unfold send_resolve_sync. apply nf_bind; [apply nf_send_tagged|]. intros r h' _.
  destruct r as [[v addrs|v reason|v m]|e]; try by eexists. destruct (negb _); by eexists.
Qed.

Lemma nf_cache_lookup (k : list N) (h : Hook) : is_Some (cache_lookup k h).
Proof. unfold cache_lookup. destruct (HookCache.lookup _ _). by eexists. Qed.

Lemma nf_resolve_walk (cs : list AllowlistEntry) (port : N) (ck : list N) (n : nat) (h : Hook) :
  is_Some (resolve_walk cs port ck n h).
Proof.
  revert h. induction cs as [|e cs IH]; intros h; simpl; [by eexists|].
  apply nf_bind; [apply nf_send_resolve|]. intros r h' _. destruct r; [|apply IH].
  destruct (existsb _ _); [by eexists|apply IH].
Qed.

Lemma nf_decide (p : Ptr) (n : nat) (h : Hook) :
  p = None \/ valid_addr p n -> is_Some (decide_for_sockaddr p n h).
Proof.
  intros Hp. unfold decide_for_sockaddr. apply nf_bind; [by apply nf_unix_destination|].
  intros [] h1 _; [by eexists|]. apply nf_bind.
  { unfold entries_or_deny, gets. unfold mbind, hm_bind. destruct (h_fail_closed h1); by eexists. }
  intros [entries|] h2 _; [|by eexists]. apply nf_bind; [by apply nf_sockaddr_bytes|].
  intros [sa|] h3 Hsa; [|by eexists]. apply nf_bind; [apply nf_cache_lookup|]. intros cached h4 _.
  destruct Hp as [->|Hp]; [done|]. apply nf_bind; [by apply nf_ip_to_str|]. intros ip h5 _.
  apply nf_bind; [by eexists|]. intros socket h6 _. apply nf_bind.
  { unfold resolve_fallback. destruct cached; [by eexists|]. destruct (_ && _); [apply nf_resolve_walk|by eexists]. }
  intros [host|] h7 _; by eexists.
Qed.

Lemma nf_send_deny (tok : list N) (host : option string) (port : N) (ip : option string) (s k : string) (h : Hook) :
  is_Some (send_deny_notify tok host port ip s k h).
Proof.
  unfold send_deny_notify. apply nf_bind; [by eexists|]. intros now h1 _. apply nf_bind; [by eexists|].
  intros [] h2 _. apply nf_bind; [apply nf_send_tagged|]. intros. by eexists.
Qed.

Lemma nf_notify (p : Ptr) (n : nat) (s : string) (k : SourceKind) (h : Hook) :
  valid_addr p n \/ h_socket h = false -> is_Some (notify_deny_for_sockaddr p n s k h).
Proof.
  intros Hp. unfold notify_deny_for_sockaddr. apply nf_bind; [by eexists|]. intros socket h0 [= <- <-].
  destruct (h_socket h) eqn:Hs; simpl; [|by eexists]. destruct Hp as [Hp|]; [|done].
  apply nf_bind; [by apply nf_ip_to_str|]. intros ip h1 _.
  destruct Hp as (m & -> & Hn & Hn1). apply nf_bind.
  { simpl. case_bool_decide; [|by eexists]. apply nf_bind; [apply nf_read_byte; lia|]. intros hi h2 _.
    apply nf_bind; [apply nf_read_byte; lia|]. intros. by eexists. }
  intros port h2 _. apply nf_bind; [apply nf_sockaddr_bytes; right; by exists m|].
  intros [sa|] h3 _; [|apply nf_send_deny]. apply nf_bind; [apply nf_cache_lookup|]. intros. apply nf_send_deny.
Qed.

(** ** Reports of denials *)

Definition quiet {A} (m : HM A) : Prop := forall h, wlp m (fun _ h' => h_notified h' = h_notified h) h.

Lemma quiet_bind {A B} (m : HM A) (f : A -> HM B) : quiet m -> (forall a, quiet (f a)) -> quiet (m ≫= f).
Proof.
  intros Hm Hf h. apply wlp_bind. eapply wlp_mono; [apply Hm|]. intros a h' Ha.
  eapply wlp_mono; [apply Hf|]. simpl. congruence.
Qed.

Ltac quiet :=
  repeat match goal with
  | |- quiet (mret _) => intros ?; by apply wlp_ret
  | |- quiet (gets _) => intros ?; by apply wlp_gets
  | |- quiet fault => by intros ?
  | |- quiet (modify _) => intros ?; by apply wlp_modify
  | |- quiet (_ ≫= _) => apply quiet_bind; [|intros ?]
  | |- quiet (match ?x with _ => _ end) => destruct x
  | |- quiet _ => progress simpl
  end.

Lemma quiet_send_resolve (host : string) (port t : N) : quiet (send_resolve_sync host port t).
Proof. unfold send_resolve_sync, send_tagged_and_recv_ack. quiet. Qed.

Lemma quiet_cache_lookup (k : list N) : quiet (cache_lookup k).
Proof. intros h. unfold cache_lookup, wlp. by destruct (HookCache.lookup _ _). Qed.

Lemma quiet_read_byte (p : Ptr) (i : nat) : quiet (read_byte p i).
Proof. unfold read_byte. quiet. Qed.

Lemma quiet_read_bytes (p : Ptr) (i : nat) : quiet (read_bytes p i).
Proof. unfold read_bytes. quiet. Qed.

Lemma quiet_resolve_walk (cs : list AllowlistEntry) (port : N) (ck : list N) (n : nat) :
  quiet (resolve_walk cs port ck n).
Proof.
  induction cs as [|e cs IH]; simpl; [quiet|]. apply quiet_bind; [apply quiet_send_resolve|].
  intros r. destruct r; [|done]. destruct (existsb _ _); [unfold cache_insert; quiet|done].
Qed.

Lemma quiet_decide (p : Ptr) (n : nat) : quiet (decide_for_sockaddr p n).
Proof.
  unfold decide_for_sockaddr, unix_destination, entries_or_deny, sockaddr_bytes, ip_to_str, resolve_fallback.
  quiet; try apply quiet_read_byte; try apply quiet_read_bytes; try apply quiet_cache_lookup;
    apply quiet_resolve_walk.
Qed.

Lemma notify_event (p : Ptr) (n : nat) (surface : string) (k : SourceKind) (h : Hook) :
  h_socket h = true ->
  wlp (notify_deny_for_sockaddr p n surface k)
    (fun _ h' => exists ev, h_notified h' = h_notified h ++ [ev]
       /\ dn_source_surface ev = surface /\ dn_source_kind ev = as_label k) h.
Proof.
  intros Hs. unfold notify_deny_for_sockaddr. apply wlp_bind, wlp_gets. rewrite Hs. simpl.
  assert (forall tok host port ip h1, h_notified h1 = h_notified h ->
            wlp (send_deny_notify tok host port ip surface (as_label k))
              (fun _ h' => exists ev, h_notified h' = h_notified h ++ [ev]
                 /\ dn_source_surface ev = surface /\ dn_source_kind ev = as_label k) h1) as Hsend.
  { intros tok host port ip h1 Hh. unfold send_deny_notify. apply wlp_bind, wlp_gets, wlp_bind, wlp_modify, wlp_bind.
    eapply wlp_mono; [assert (quiet (send_tagged_and_recv_ack (Ack := DenyNotifyAck) TAG_DENY_NOTIFY
      (mkDenyNotify IPC_SCHEMA_V4 tok host port ip surface (now_ms (length (h_notified h1))) (as_label k)) 50)) as Hq
      by (unfold send_tagged_and_recv_ack; quiet); apply Hq|].
    intros r h2 Hh2. apply wlp_ret. simpl in Hh2. rewrite Hh2, Hh. by eexists. }
  apply wlp_bind. eapply wlp_mono; [apply ip_to_str_spec|]. intros ip h1 [-> _]. apply wlp_bind.
  eapply (wlp_mono _ (fun _ h' => h_notified h' = h_notified h)).
  { assert (quiet (if negb (is_null p) && bool_decide (4 <= n)
                   then hi ← read_byte p 2; lo ← read_byte p 3; mret (from_be16 hi lo) else mret 0%N)) as Hq
      by (quiet; apply quiet_read_byte). apply Hq. }
  intros port h1 Hh1. apply wlp_bind. eapply wlp_mono; [apply sockaddr_bytes_spec|]. intros sa h2 [-> _].
  destruct sa as [sa|]; [|by apply Hsend]. apply wlp_bind.
  eapply wlp_mono; [apply quiet_cache_lookup|]. intros host h3 Hh3. apply Hsend. congruence.
Qed.

Lemma wlp_elim {A} (m : HM A) (Q : A -> Hook -> Prop) (h h' : Hook) (a : A) :
  wlp m Q h -> m h = Some (a, h') -> Q a h'.
Proof. unfold wlp. intros Hm He. by rewrite He in Hm. Qed.

(** What a denied call does before it returns. *)
Lemma deny_with_spec (surface : string) (src : SourceKind) (p : Ptr) (n : nat) (h : Hook) :
  valid_addr p n \/ h_socket h = false ->
  exists h', deny_with surface src (notify_deny_for_sockaddr p n surface src) h = Some ((-1)%Z, h')
    /\ pres h h' /\ h_errno h' = EHOSTUNREACH /\ (h_conns h' <= S (h_conns h))%nat
    /\ (h_socket h = true -> exists ev, h_notified h' = h_notified h ++ [ev]
          /\ dn_source_surface ev = surface /\ dn_source_kind ev = as_label src).
Proof.
  intros Hp. unfold deny_with, mbind, hm_bind.
  destruct (log_append _ h) as [[[] h1]|] eqn:Hl; [|done].
  pose proof (wlp_elim _ _ _ _ _ (log_append_pres _ h) Hl) as [Hp1 Hc1].
  assert (h_notified h1 = h_notified h) as Hn1 by (unfold log_append, modify in Hl; by simplify_eq).
  rewrite <- (pres_socket _ _ Hp1) in Hp |- *.
  destruct (nf_notify p n surface src h1 Hp) as [[[] h2] Hn]. rewrite Hn.
  pose proof (wlp_elim _ _ _ _ _ (notify_pres p n surface src h1) Hn) as [Hp2 Hc2].
  eexists. split_and!; [done| |done|simpl; lia|].
  - eapply pres_trans; [exact Hp1|]. eapply pres_trans; [exact Hp2|]. by apply pres_same.
  - intros Hs. simpl. rewrite <- Hn1. exact (wlp_elim _ _ _ _ _ (notify_event p n surface src h1 Hs) Hn).
Qed.

Lemma guard_entered {A} (reentrant body : HM A) (h h' : Hook) (a : A) :
  h_in_hook h = false -> in_hook_guard reentrant body h = Some (a, h') ->
  exists h1, body (with_in_hook true h) = Some (a, h1) /\ h' = with_in_hook false h1.
Proof.
  intros Hin. unfold in_hook_guard, gets, modify, mbind, hm_bind. rewrite Hin.
  destruct (body (with_in_hook true h)) as [[a1 h1]|]; [|done]. intros [= -> <-]. by eexists.
Qed.

(** ** Theorems *)

(** C3: whatever calls a program makes through the interposed functions, from the
    state the constructor leaves, every network system call that names a
    destination was permitted: the library holds rules and is not closed, the
    destination is no local socket, the daemon resolved a name to that address,
    the policy allows the name at the address as rendered, and no hard rule
    refuses it. *)
Theorem network_calls_authorized (fc : bool) (allowlist : option (list AllowlistEntry)) (socket : bool)
    (calls : list HookCall) (h : Hook) (s : Syscall) (p : Ptr) (n : nat) :
  run_calls calls (hook_init fc allowlist socket) = Some (tt, h) ->
  s ∈ h_trace h -> dest_of s = Some (p, n) ->
  permitted h p n
  /\ exists m host, p = Some m /\ ~ hard_denied host (render_ip (take n m)) true
       /\ resolved_for (h_resolved h) (cache_key (take n m) n) host.
Proof.
  intros Hr Hs Hd.
  pose proof (wlp_elim _ _ _ _ _ (run_calls_ok calls _ (idle_inv_init fc allowlist socket)) Hr) as [_ _ Ht].
  eapply Forall_forall in Ht; [|exact Hs]. specialize (Ht p n Hd). split; [done|].
  destruct Ht as (m & entries & host & src & -> & _ & _ & _ & _ & Hres & Hev). exists m, host.
  split_and!; try done. intros Hh. destruct (hard_denied_reflect host (render_ip (take n m)) true) as [[_ [name Hn]]|[]].
  - by rewrite Hn in Hev.
  - done.
Qed.

(** C28: on a readable address [connect] never faults, carries out the decision and
    releases the guard: an allowed call is the one system call made and its result
    is returned; a denied call makes none, returns -1 with EHOSTUNREACH and is
    reported to the daemon when there is a socket.  It costs at most five round
    trips, and a library without rules, or closed, denies. *)
Theorem connect_enforces_decision (p : Ptr) (n : nat) (h : Hook) :
  h_in_hook h = false -> cache_inv h -> valid_addr p n ->
  exists v src h1 r h',
    decide_for_sockaddr p n (with_in_hook true h) = Some ((v, src), h1)
    /\ guard_connect p n h = Some (r, h')
    /\ h_in_hook h' = false
    /\ (h_conns h' <= h_conns h + 5)%nat
    /\ match v with
       | VAllow => permitted h1 p n /\ r = syscall_result (length (h_trace h))
                   /\ h_trace h' = h_trace h ++ [SysConnect p n] /\ h_notified h' = h_notified h
       | VDeny => r = (-1)%Z /\ h_errno h' = EHOSTUNREACH /\ h_trace h' = h_trace h
                  /\ (h_socket h = true -> exists ev, h_notified h' = h_notified h ++ [ev]
                        /\ dn_source_surface ev = "connect" /\ dn_source_kind ev = as_label src)
       end
    /\ (h_fail_closed h = true \/ h_allowlist h = None -> v = VDeny).
Proof.
  intros Hin Hi Hv. destruct (nf_decide p n (with_in_hook true h) (or_intror Hv)) as [[[v src] h1] Hd].
  pose proof (wlp_elim _ _ _ _ _ (decide_spec p n (with_in_hook true h) Hi) Hd) as (Hp & Hc & Hperm).
  pose proof (wlp_elim _ _ _ _ _ (quiet_decide p n (with_in_hook true h)) Hd) as Hq. simpl in *.
  assert (h_fail_closed h = true \/ h_allowlist h = None -> v = VDeny) as Hclosed.
  { intros Hfc. destruct v; [|done]. destruct (Hperm eq_refl) as (m & es & host & s' & _ & _ & _ & Hf & Ha & _).
    rewrite (pres_fail_closed _ _ Hp) in Hf. rewrite (pres_allowlist _ _ Hp) in Ha. simpl in *.
    destruct Hfc; congruence. }
  unfold guard_connect, in_hook_guard, gets, modify, mbind, hm_bind. rewrite Hin, Hd. destruct v; simpl.
  - exists VAllow, src, h1. unfold gets, modify, mret, hm_ret. eexists _, _.
    pose proof (pres_trace _ _ Hp) as Htr. simpl in Htr.
    split_and!; [done|done|done|simpl; unfold MAX_RESOLVE_ATTEMPTS in Hc; lia
      |by apply Hperm|by rewrite Htr|simpl; by rewrite Htr|done|exact Hclosed].
  - destruct (deny_with_spec "connect" src p n h1 (or_introl Hv)) as (h2 & -> & Hp2 & He & Hc2 & Hn).
    exists VDeny, src, h1, (-1)%Z. eexists.
    split_and!; [done|done|done|simpl; unfold MAX_RESOLVE_ATTEMPTS in Hc; lia
      |done|done| | |exact Hclosed].
    + simpl. by rewrite (pres_trace _ _ Hp2), (pres_trace _ _ Hp).
    + simpl. rewrite <- Hq. intros Hs. apply Hn. by rewrite (pres_socket _ _ Hp).
Qed.

(** Resolution keeps the heap balanced: a lookup allocates two blocks per node
    of the chain it returns, and none when it fails, whichever allocation fails;
    it returns zero exactly with a chain; freeing the chain restores the heap. *)
Theorem getaddrinfo_balanced (node service : option string) (hints : option (Z * Z * Z))
    (res_null : bool) (h h' : Hook) (code : Z) (chain : list Addrinfo) :
  h_in_hook h = false ->
  guard_getaddrinfo node service hints res_null h = Some ((code, chain), h') ->
  h_in_hook h' = false
  /\ (code = 0%Z <-> chain <> [])
  /\ h_live h' = h_live h + 2 * length chain
  /\ forall h'', guard_freeaddrinfo chain h' = Some (tt, h'') -> h_live h'' = h_live h.
Proof.
  intros Hin Hg. apply guard_entered in Hg as (h1 & Hb & ->); [|done].
  pose proof (wlp_elim _ _ _ _ _ (lookup_body_spec node service hints res_null (with_in_hook true h)) Hb) as [_ [Hl Hc]].
  simpl in Hl, Hc.
  split_and!; [done|done|done|]. intros h'' Hf.
  pose proof (wlp_elim _ _ _ _ _ (free_chain_spec chain _) Hf) as [_ Hl']. simpl in Hl'. lia.
Qed.

(** A null address with a positive length makes [connect] read through the null
    pointer while it prepares the report of its denial, where the source means to
    refuse the call as malformed; without a daemon socket it is refused. *)
Theorem null_connect_faults (h : Hook) (n : nat) :
  h_in_hook h = false -> 1 <= n ->
  (h_socket h = true -> guard_connect None n h = None)
  /\ (h_socket h = false -> exists h', guard_connect None n h = Some ((-1)%Z, h') /\ h_errno h' = EHOSTUNREACH
                                      /\ h_trace h' = h_trace h).
Proof.
  intros Hin Hn.
  assert (exists src, decide_for_sockaddr None n (with_in_hook true h) = Some ((VDeny, src), with_in_hook true h)) as [src Hd].
  { unfold decide_for_sockaddr, unix_destination, entries_or_deny, gets, mbind, hm_bind. simpl.
    destruct (h_fail_closed h); simpl; [by eexists|]. destruct (h_allowlist h); simpl; by eexists. }
  unfold guard_connect, in_hook_guard, gets, modify. unfold mbind, hm_bind. rewrite Hin, Hd. simpl.
  split; intros Hs.
  - unfold deny_with, log_append, modify, mbind, hm_bind. simpl.
    unfold notify_deny_for_sockaddr, gets, mbind, hm_bind. simpl. rewrite Hs. simpl.
    unfold ip_to_str. rewrite bool_decide_eq_true_2 by done. done.
  - destruct (deny_with_spec "connect" src None n (with_in_hook true h) (or_intror Hs)) as (h2 & -> & Hp & He & _).
    eexists. split_and!; [done|done|]. simpl. by rewrite (pres_trace _ _ Hp).
Qed.

End Hooks.

(** ** A concrete environment *)

(** 93.184.216.34, as the daemon sends it and as a program passes it. *)
Definition sample_wire : list N := sockaddr_to_wire (H := {|
    to_socket_addrs := fun _ => Err ""; fs_read := fun _ => None;
    resolve_codec := toy_codec; Resolve.AF_INET6 := AF_INET6 |}) (V4 [93; 184; 216; 34]%N 0).
Definition sample_addr : list N := take 16 (<[3 := 187%N]> (<[2 := 1%N]> sample_wire)).

(** A daemon that answers every resolve with the sample address. *)
#[local] Instance toy_resolve_cbor : Cbor ResolveMsg :=
  {| into_writer m := Ok (rq_host m); from_reader _ := Err "" |}.
#[local] Instance toy_reply_cbor : Cbor ResolveReply :=
  {| into_writer _ := Err ""; from_reader _ := Ok (RAddresses 2 [sample_wire]) |}.
#[local] Instance toy_deny_cbor : Cbor DenyNotify :=
  {| into_writer m := Ok (dn_source_kind m); from_reader _ := Err "" |}.
#[local] Instance toy_ack_cbor : Cbor DenyNotifyAck :=
  {| into_writer _ := Err ""; from_reader _ := Ok (DnOk 4) |}.

Definition toy_answer (req : string) : string :=
  match req with String tag _ => String tag (to_be_bytes 0) | EmptyString => "" end.

Definition toy_hook_env : HookEnv := {|
  peer _ _ := mkPeer None None None toy_answer (true, "");
  malloc_ok _ := true;
  inet_ntop _ octets := Some (join "." (pretty <$> octets));
  syscall_result n := Z.of_nat n;
  now_ms _ := 0%N;
  getpid := 100%Z;
  getppid := 1%Z;
|}.

Definition sample_rules : list AllowlistEntry := [mkEntry Allow UserAllow Exact "example.com" "sample"].

Definition sample_calls : list HookCall :=
  [CallGetaddrinfo (Some "example.com") (Some "443") None false;
   CallConnect (Some sample_addr) 16;
   CallConnect (Some [16; 2; 1; 187; 10; 0; 0; 1; 0; 0; 0; 0; 0; 0; 0; 0]%N) 16;
   CallSend].

Definition final_of (calls : list HookCall) (h : Hook) : Hook :=
  match @run_calls toy_hook_env calls h with Some (_, h') => h' | None => h end.

Definition sample_start : Hook := hook_init false (Some sample_rules) true.

Lemma network_calls_authorized_witness :
  h_trace (final_of sample_calls sample_start) = [SysConnect (Some sample_addr) 16; SysSend]
  /\ @permitted toy_hook_env (final_of sample_calls sample_start) (Some sample_addr) 16.
Proof.
  split; [vm_compute; reflexivity|].
  apply (@network_calls_authorized toy_hook_env false (Some sample_rules) true sample_calls
           (final_of sample_calls sample_start) (SysConnect (Some sample_addr) 16) (Some sample_addr) 16).
  - vm_compute. reflexivity.
  - apply (list_elem_of_lookup_2 _ 0). vm_compute. reflexivity.
  - vm_compute. reflexivity.
Defined.

Lemma connect_enforces_decision_witness :
  exists v src h1 r h',
    @decide_for_sockaddr toy_hook_env (Some sample_addr) 16 (with_in_hook true sample_start) = Some ((v, src), h1)
    /\ @guard_connect toy_hook_env (Some sample_addr) 16 sample_start = Some (r, h') /\ h_in_hook h' = false.
Proof.
  destruct (@connect_enforces_decision toy_hook_env (Some sample_addr) 16 sample_start)
    as (v & src & h1 & r & h' & Hd & Hg & Hi & _).
  - reflexivity.
  - apply HookCache.cache_all_new.
  - exists sample_addr. split; [reflexivity|]. split; vm_compute; [lia|discriminate].
  - exists v, src, h1, r, h'. auto.
Defined.

Definition sample_chain : list Addrinfo :=
  [mkAddrinfo 2 1 6 16 (take 16 sample_wire)].

Definition after_lookup : Hook :=
  final_of [CallGetaddrinfo (Some "example.com") None None false] sample_start.

Lemma getaddrinfo_balanced_witness :
  h_live after_lookup = 2 /\ h_in_hook after_lookup = false.
Proof.
  destruct (@getaddrinfo_balanced toy_hook_env (Some "example.com") None None false sample_start
              after_lookup 0%Z sample_chain) as (Hi & _ & Hl & _).
  - reflexivity.
  - vm_compute. reflexivity.
  - split; [exact Hl|exact Hi].
Defined.

Lemma null_connect_faults_witness :
  @guard_connect toy_hook_env None 16 sample_start = None.
Proof.
  apply (@null_connect_faults toy_hook_env sample_start 16); [reflexivity|lia|reflexivity].
Defined.
