(* ===== verification/Lockfile.v ===== *)
(** * Registries named by the lockfile of a project

    [crates/guard-core/src/lockfile.rs]: the search for a lockfile, the readers of
    its formats and the host of a URL.  The JSON parser, the Unicode lower-case
    mapping and the file system are the class [LockEnv]. *)

From S2P Require Import Prelude RustStr.

(** ** serde_json::Value *)

Inductive Value : Type :=
| JNull
| JBool (b : bool)
| JNumber (n : string)
| JString (s : string)
| JArray (l : list Value)
| JObject (m : list (string * Value)).

Class LockEnv : Type := {
  json_from_str : string -> option Value;
  to_lowercase : string -> string;
  is_file : string -> bool;
  path_exists : string -> bool;
  lock_read : string -> option string;
}.

Definition jget (k : string) (m : list (string * Value)) : option Value :=
  snd <$> head (filter (fun kv => kv.1 = k) m).

(** [Value::get] and [Value::as_str]. *)
Definition vget (k : string) (v : Value) : option Value :=
  match v with JObject m => jget k m | _ => None end.

Definition as_str (v : Value) : option string :=
  match v with JString s => Some s | _ => None end.

(** [str::trim_end_matches] and [str::trim_matches] with one character. *)
Fixpoint trim_start_char (c : ascii) (s : string) : string :=
  match s with
  | String a s' => if bool_decide (a = c) then trim_start_char c s' else s
  | EmptyString => ""
  end.

Definition trim_end_char (c : ascii) (s : string) : string :=
  String.rev (trim_start_char c (String.rev s)).

Definition trim_char (c : ascii) (s : string) : string := trim_end_char c (trim_start_char c s).

Section Lockfile.
Context `{LockEnv}.

Definition LOCKFILES : list string :=
  ["package-lock.json"; "yarn.lock"; "pnpm-lock.yaml"; "bun.lockb"; "Cargo.lock"; "Pipfile.lock";
   "poetry.lock"; "Gemfile.lock"; "go.sum"; "composer.lock"].

(** At most [fuel] directories, upwards, not past one that holds [.git]. *)
Fixpoint discover_from (fuel : nat) (dir : string) : option string :=
  match fuel with
  | O => None
  | S fuel' =>
      match head (filter (fun p => is_file p = true) (path_join dir <$> LOCKFILES)) with
      | Some candidate => Some candidate
      | None =>
          if path_exists (path_join dir ".git") then None
          else match path_parent dir with
               | Some up => discover_from fuel' up
               | None => None
               end
      end
  end.

Definition discover_lockfile (cwd : string) : option string := discover_from 8 cwd.

Definition head_split (c : ascii) (s : string) : string :=
  match split_on c s with x :: _ => x | [] => "" end.

Definition extract_host_from_url (url : string) : option string :=
  rest ← (match strip_prefix "https://" url with
          | Some r => Some r
          | None => strip_prefix "http://" url
          end);
  let host := head_split ":" (head_split "/" rest) in
  if is_empty host || contains host " " then None
  else if contains host "." then Some (to_lowercase host)
  else None.

Definition insert_host (url : string) (hosts : gset string) : gset string :=
  match extract_host_from_url url with Some h => {[h]} ∪ hosts | None => hosts end.

(** The walk of a JSON tree; [pick] is the URL an object carries. *)
Fixpoint walk (pick : list (string * Value) -> option string) (v : Value) (hosts : gset string)
  : gset string :=
  match v with
  | JObject m =>
      let hosts' := match pick m with Some url => insert_host url hosts | None => hosts end in
      foldl (fun acc kv => walk pick kv.2 acc) hosts' m
  | JArray l => foldl (fun acc val => walk pick val acc) hosts l
  | _ => hosts
  end.

Definition pick_resolved (m : list (string * Value)) : option string := jget "resolved" m ≫= as_str.

Definition pick_dist (m : list (string * Value)) : option string :=
  dist ← jget "dist" m; url ← vget "url" dist; as_str url.

Definition walk_resolved (v : Value) (hosts : gset string) : gset string := walk pick_resolved v hosts.
Definition walk_dist (v : Value) (hosts : gset string) : gset string := walk pick_dist v hosts.

Definition extract_npm_registries (content : string) : gset string :=
  match json_from_str content with Some v => walk_resolved v ∅ | None => ∅ end.

Definition extract_composer_registries (content : string) : gset string :=
  match json_from_str content with Some v => walk_dist v ∅ | None => ∅ end.

Definition yarn_line (hosts : gset string) (line : string) : gset string :=
  let trimmed := trim line in
  let hosts1 := match strip_prefix ("resolved " +:+ String DQUOTE "") trimmed with
                | Some rest => insert_host (trim_end_char DQUOTE rest) hosts
                | None => hosts
                end in
  match strip_prefix "resolved: " trimmed with
  | Some rest => insert_host (trim_char DQUOTE rest) hosts1
  | None => hosts1
  end.

Definition extract_yarn_registries (content : string) : gset string :=
  foldl yarn_line ∅ (lines content).

Definition cargo_line (hosts : gset string) (line : string) : gset string :=
  match strip_prefix ("source = " +:+ String DQUOTE "") (trim line) with
  | None => hosts
  | Some rest =>
      let url := trim_end_char DQUOTE rest in
      let hosts1 := match strip_prefix "registry+" url with
                    | Some stripped => insert_host stripped hosts
                    | None => hosts
                    end in
      match strip_prefix "sparse+" url with
      | Some stripped => insert_host stripped hosts1
      | None => hosts1
      end
  end.

Definition extract_cargo_registries (content : string) : gset string :=
  foldl cargo_line ∅ (lines content).

Definition pip_source (hosts : gset string) (src : Value) : gset string :=
  match vget "url" src ≫= as_str with Some url => insert_host url hosts | None => hosts end.

Definition extract_pip_registries (content : string) : gset string :=
  match json_from_str content with
  | None => ∅
  | Some v =>
      match vget "_meta" v ≫= vget "sources" with
      | Some (JArray sources) => foldl pip_source ∅ sources
      | _ => ∅
      end
  end.

Record LockfileRegistries : Type := mkLockfileRegistries {
  lr_lockfile_path : string;
  lr_registries : gset string;
}.

Definition extract_for (name content : string) : gset string :=
  if bool_decide (name = "package-lock.json") then extract_npm_registries content
  else if bool_decide (name = "yarn.lock") then extract_yarn_registries content
  else if bool_decide (name = "Cargo.lock") then extract_cargo_registries content
  else if bool_decide (name = "Pipfile.lock") then extract_pip_registries content
  else if bool_decide (name = "composer.lock") then extract_composer_registries content
  else ∅.

Definition extract_registries (lockfile : string) : option LockfileRegistries :=
  name ← path_file_name lockfile;
  content ← lock_read lockfile;
  let registries := extract_for name content in
  if bool_decide (registries = ∅) then None
  else Some (mkLockfileRegistries lockfile registries).

End Lockfile.

(** ** The walk collects what the tree holds *)

(** [Sub x v]: the value [x] occurs in [v]. *)
Inductive Sub (x : Value) : Value -> Prop :=
| Sub_refl : Sub x x
| Sub_object m k val : (k, val) ∈ m -> Sub x val -> Sub x (JObject m)
| Sub_array l val : val ∈ l -> Sub x val -> Sub x (JArray l).

(** Induction over the nested lists. *)
Lemma Value_nested_ind (P : Value -> Prop) :
  P JNull -> (forall b, P (JBool b)) -> (forall n, P (JNumber n)) -> (forall s, P (JString s)) ->
  (forall l, Forall P l -> P (JArray l)) ->
  (forall m, Forall (fun kv => P kv.2) m -> P (JObject m)) ->
  forall v, P v.
Proof.
  intros Hn Hb Hnum Hs Ha Ho. fix IH 1. intros [|b|n|s|l|m].
  - exact Hn.
  - apply Hb.
  - apply Hnum.
  - apply Hs.
  - apply Ha. induction l as [|v l IHl]; constructor; [apply IH|exact IHl].
  - apply Ho. induction m as [|[k v] m IHm]; constructor; [apply IH|exact IHm].
Qed.

Section Walk.
Context `{LockEnv}.

(** The hosts found in [v]. *)
Definition found_in (pick : list (string * Value) -> option string) (v : Value) (h : string) : Prop :=
  exists m url, Sub (JObject m) v /\ pick m = Some url /\ extract_host_from_url url = Some h.

Lemma insert_host_spec (url h : string) (hosts : gset string) :
  h ∈ insert_host url hosts <-> extract_host_from_url url = Some h \/ h ∈ hosts.
Proof.
  unfold insert_host. destruct (extract_host_from_url url) as [x|]; [|naive_solver].
  rewrite elem_of_union, elem_of_singleton. naive_solver.
Qed.

Lemma foldl_union {A} (f : gset string -> A -> gset string) (Q : A -> string -> Prop) (l : list A)
    (hosts : gset string) (h : string) :
  (forall a acc, a ∈ l -> h ∈ f acc a <-> Q a h \/ h ∈ acc) ->
  h ∈ foldl f hosts l <-> (exists a, a ∈ l /\ Q a h) \/ h ∈ hosts.
Proof.
  revert hosts. induction l as [|a l IH]; intros hosts Hf; simpl.
  - split; [auto|]. intros [(a & Ha & _)|]; [by apply elem_of_nil in Ha|done].
  - rewrite IH by (intros b acc Hb; apply Hf; by right). rewrite Hf by left. split.
    + intros [(b & Hb & Hq)|[Hq|Hh]]; [left; exists b; split; [by right|done]|left; exists a; split; [by left|done]|auto].
    + intros [(b & [->|Hb]%elem_of_cons & Hq)|Hh]; auto. left. eauto.
Qed.

Lemma walk_spec (pick : list (string * Value) -> option string) (v : Value) (hosts : gset string) (h : string) :
  h ∈ walk pick v hosts <-> found_in pick v h \/ h ∈ hosts.
Proof.
  revert hosts. induction v as [|b|n|s|l IH|m IH] using Value_nested_ind; intros hosts; simpl;
    try (split; [auto|]; intros [(m & url & Hs & _)|]; [by inversion Hs|done]).
  - rewrite (foldl_union _ (found_in pick)) by (intros a acc Ha; by apply (proj1 (Forall_forall _ _) IH a Ha)).
    split; (intros [Hf|]; [left|auto]).
    + destruct Hf as (a & Ha & m & url & Hs & ?). exists m, url. split; [by eapply Sub_array|done].
    + destruct Hf as (m & url & Hs & ?). inversion Hs; subst. eexists. split; [done|]. by exists m, url.
  - rewrite (foldl_union _ (fun kv => found_in pick kv.2))
      by (intros a acc Ha; by apply (proj1 (Forall_forall _ _) IH a Ha)).
    split.
    + intros [([k a] & Ha & m' & url & Hs & ?)|Hh].
      * left. exists m', url. split; [by eapply Sub_object|done].
      * destruct (pick m) as [url|] eqn:Hp; [|auto]. apply insert_host_spec in Hh as [Hh|]; [|auto].
        left. exists m, url. split; [apply Sub_refl|done].
    + intros [(m' & url & Hs & Hp & He)|Hh].
      * inversion Hs; subst; [|left; eexists; split; [done|]; by exists m', url].
        right. rewrite Hp. apply insert_host_spec. by left.
      * right. destruct (pick m); [apply insert_host_spec; by right|done].
Qed.

(** ** The host of a URL *)

Lemma head_split_app (c : ascii) (x tail : string) :
  no_char c x = true -> tail = "" \/ (exists t, tail = String c t) -> head_split c (x +:+ tail) = x.
Proof.
  intros Hx [->|[t ->]]; unfold head_split.
  - by rewrite app_nil_r_str, split_on_no_char.
  - by rewrite split_on_app.
Qed.

Lemma head_split_id (c : ascii) (x : string) : no_char c x = true -> head_split c x = x.
Proof. intros Hx. unfold head_split. by rewrite split_on_no_char. Qed.

Lemma head_split_inv (c : ascii) (s : string) :
  no_char c (head_split c s) = true
  /\ exists tail, s = head_split c s +:+ tail /\ (tail = "" \/ exists t, tail = String c t).
Proof.
  destruct (split_once c s) as [[l r]|] eqn:Hs.
  - apply split_once_Some in Hs as [-> Hl]. rewrite head_split_app by eauto. split; [done|]. eauto.
  - apply split_once_None in Hs. assert (head_split c s = s) as ->.
    { by apply head_split_id. }
    split; [done|]. exists "". rewrite app_nil_r_str. auto.
Qed.

Lemma contains_char (c : ascii) (s : string) : contains s (String c "") = negb (no_char c s).
Proof.
  apply eq_iff_eq_true. rewrite contains_true, negb_true_iff. split.
  - intros (l & r & ->). unfold no_char. rewrite !str_forallb_app. simpl.
    rewrite bool_decide_eq_true_2 by done. simpl. by rewrite andb_false_r.
  - intros Hn. destruct (split_once c s) as [[l r]|] eqn:Hs.
    + apply split_once_Some in Hs as [-> _]. exists l, r. by rewrite app_cons_str, app_nil_l_str.
    + apply split_once_None in Hs. congruence.
Qed.

(** What is left of a URL after its host: nothing, a path, or a port and a path. *)
Definition url_tail (tail : string) : Prop :=
  tail = "" \/ (exists t, tail = String "/" t) \/ (exists t, tail = String ":" t).

Lemma host_of_rest (rest host : string) :
  head_split ":" (head_split "/" rest) = host <->
  no_char "/" host = true /\ no_char ":" host = true /\ exists tail, rest = host +:+ tail /\ url_tail tail.
Proof.
  destruct (head_split_inv "/" rest) as (Hn1 & t1 & He1 & Ht1). set (x := head_split "/" rest) in *.
  destruct (head_split_inv ":" x) as (Hn2 & t2 & He2 & Ht2). set (y := head_split ":" x) in *. split.
  - intros <-. rewrite He2 in Hn1. unfold no_char in Hn1 |- *. rewrite str_forallb_app in Hn1.
    apply andb_true_iff in Hn1 as [Hy Ht]. split_and!; [done|done|]. exists (t2 +:+ t1).
    rewrite He1, He2, app_assoc_str. split; [done|]. unfold url_tail.
    destruct Ht2 as [->|[t ->]]; [|right; right; exists (t +:+ t1); by rewrite app_cons_str].
    rewrite app_nil_l_str. destruct Ht1 as [->|]; auto.
  - intros (Hs & Hc & tail & -> & Htail). subst y x. destruct Htail as [->|[[t ->]|[t ->]]].
    + rewrite app_nil_r_str, (head_split_id "/") by done. by apply head_split_id.
    + rewrite head_split_app by eauto. by apply head_split_id.
    + assert (head_split "/" (host +:+ String ":" t) = host +:+ head_split "/" (String ":" t)) as ->.
      { destruct (head_split_inv "/" (String ":" t)) as (Hn & t' & He & Ht').
        rewrite He at 1. rewrite <- app_assoc_str. apply head_split_app; [|done].
        unfold no_char. rewrite str_forallb_app. by apply andb_true_iff. }
      apply head_split_app; [done|]. right. unfold head_split. simpl.
      destruct (split_on "/" t); eauto.
Qed.

(** ** The search *)

Fixpoint ancestor (k : nat) (dir : string) : option string :=
  match k with
  | O => Some dir
  | S k' => up ← path_parent dir; ancestor k' up
  end.

Definition has_lockfile (dir : string) : Prop :=
  exists name, name ∈ LOCKFILES /\ is_file (path_join dir name) = true.

(** The search from [dir] passes its first [k] ancestors. *)
Definition passes (k : nat) (dir : string) : Prop :=
  forall j d, j < k -> ancestor j dir = Some d ->
    path_exists (path_join d ".git") = false /\ ~ has_lockfile d.

Lemma candidates_None (dir : string) :
  head (filter (fun p => is_file p = true) (path_join dir <$> LOCKFILES)) = None <-> ~ has_lockfile dir.
Proof.
  split.
  - intros Hh (name & Hin & Hf).
    assert (path_join dir name ∈ filter (fun p => is_file p = true) (path_join dir <$> LOCKFILES)) as Hx.
    { apply list_elem_of_filter. split; [done|]. by apply list_elem_of_fmap_2. }
    destruct (filter _ _); [by apply elem_of_nil in Hx|done].
  - intros Hn. destruct (filter _ _) as [|p l] eqn:Hl; [done|]. exfalso. apply Hn.
    assert (p ∈ filter (fun p => is_file p = true) (path_join dir <$> LOCKFILES)) as Hx by (rewrite Hl; left).
    apply list_elem_of_filter in Hx as [Hf (name & -> & Hin)%list_elem_of_fmap]. by exists name.
Qed.

Lemma candidates_Some (dir p : string) :
  head (filter (fun p => is_file p = true) (path_join dir <$> LOCKFILES)) = Some p ->
  exists name, name ∈ LOCKFILES /\ p = path_join dir name /\ is_file p = true.
Proof.
  intros Hh. assert (p ∈ filter (fun p => is_file p = true) (path_join dir <$> LOCKFILES)) as Hx.
  { destruct (filter _ _); [done|]. injection Hh as ->. left. }
  apply list_elem_of_filter in Hx as [Hf (name & -> & Hin)%list_elem_of_fmap]. by exists name.
Qed.

Lemma passes_cons (k : nat) (dir up : string) :
  path_exists (path_join dir ".git") = false -> ~ has_lockfile dir -> path_parent dir = Some up ->
  passes k up -> passes (S k) dir.
Proof.
  intros Hg Hl Hup Hp [|j] d Hj Ha; simpl in Ha; [by injection Ha as <-|].
  rewrite Hup in Ha. simpl in Ha. apply (Hp j d); [lia|done].
Qed.

Lemma discover_from_spec (fuel : nat) (dir : string) :
  match discover_from fuel dir with
  | Some p => exists k d name, k < fuel /\ ancestor k dir = Some d /\ passes k dir
                /\ name ∈ LOCKFILES /\ p = path_join d name /\ is_file p = true
  | None => forall k d, k < fuel -> ancestor k dir = Some d -> passes k dir -> ~ has_lockfile d
  end.
Proof.
  revert dir. induction fuel as [|fuel IH]; intros dir; simpl; [intros; lia|].
  destruct (head _) as [p|] eqn:Hc.
  { apply candidates_Some in Hc as (name & ? & ? & ?). exists 0, dir, name.
    split_and!; try done; [lia|]. intros j d Hj. lia. }
  apply candidates_None in Hc. destruct (path_exists _) eqn:Hg.
  { intros [|k] d Hk Ha Hp; simpl in Ha; [by injection Ha as <-|].
    destruct (Hp 0 dir) as [Hg' _]; [lia|done|congruence]. }
  destruct (path_parent dir) as [up|] eqn:Hup.
  2: { intros [|k] d Hk Ha Hp; simpl in Ha; [by injection Ha as <-|]. by rewrite Hup in Ha. }
  specialize (IH up). destruct (discover_from fuel up) as [p|].
  - destruct IH as (k & d & name & ? & Ha & Hp & ?). exists (S k), d, name.
    simpl. rewrite Hup. split_and!; [lia|done|by eapply passes_cons|naive_solver..].
  - intros [|k] d Hk Ha Hp; simpl in Ha; [by injection Ha as <-|]. rewrite Hup in Ha. simpl in Ha.
    apply (IH k d); [lia|done|]. intros j d' Hj Hd'. apply (Hp (S j) d'); [lia|]. simpl. by rewrite Hup.
Qed.

End Walk.

(** ** Theorems *)

(** The host read from a URL: the text between an http or https scheme and the
    first slash or colon, in lower case, provided it has a dot and no space; any
    other text gives none. *)
Theorem extract_host_from_url_iff `{LockEnv} (url h : string) :
  extract_host_from_url url = Some h <->
  exists scheme host tail,
    (scheme = "https://" \/ scheme = "http://") /\ url = scheme +:+ host +:+ tail /\ url_tail tail
    /\ no_char "/" host = true /\ no_char ":" host = true /\ no_char " " host = true
    /\ no_char "." host = false /\ h = to_lowercase host.
Proof.
  assert (forall rest, (let host := head_split ":" (head_split "/" rest) in
            if is_empty host || contains host " " then None
            else if contains host "." then Some (to_lowercase host) else None) = Some h <->
          exists host tail, rest = host +:+ tail /\ url_tail tail /\ no_char "/" host = true
            /\ no_char ":" host = true /\ no_char " " host = true /\ no_char "." host = false
            /\ h = to_lowercase host) as Hrest.
  { intros rest. simpl. set (y := head_split ":" (head_split "/" rest)). rewrite !contains_char. split.
    - destruct (is_empty y) eqn:He; [done|]. simpl. destruct (no_char " " y) eqn:Hsp; [simpl|done].
      destruct (no_char "." y) eqn:Hd; [done|]. simpl. intros [= <-].
      destruct (proj1 (host_of_rest rest y) eq_refl) as (? & ? & tail & ? & ?). exists y, tail. auto 10.
    - intros (host & tail & Hr & Ht & Hs & Hc & Hsp & Hd & ->).
      assert (y = host) as -> by (apply host_of_rest; eauto). rewrite Hsp, Hd. simpl.
      by destruct host. }
  unfold extract_host_from_url.
  destruct (strip_prefix "https://" url) as [rest|] eqn:H1.
  - apply strip_prefix_Some in H1 as ->. simpl. rewrite Hrest. split.
    + intros (host & tail & -> & ?). exists "https://", host, tail. naive_solver.
    + intros (scheme & host & tail & [->| ->] & Heq & ?); [|done].
      exists host, tail. split; [|naive_solver]. 
      change ("https://" +:+ rest = "https://" +:+ (host +:+ tail)) in Heq. by simplify_eq.
  - destruct (strip_prefix "http://" url) as [rest|] eqn:H2.
    + apply strip_prefix_Some in H2 as ->. simpl. rewrite Hrest. split.
      * intros (host & tail & -> & ?). exists "http://", host, tail. naive_solver.
      * intros (scheme & host & tail & [->| ->] & Heq & ?).
        -- exfalso. assert (strip_prefix "https://" ("http://" +:+ rest) = Some (host +:+ tail)) as Hx
             by (by apply strip_prefix_Some). congruence.
        -- exists host, tail. split; [|naive_solver]. by simplify_eq.
    + simpl. split; [done|]. intros (scheme & host & tail & [->| ->] & -> & _).
      * assert (strip_prefix "https://" ("https://" +:+ host +:+ tail) = Some (host +:+ tail)) as Hx
          by (by apply strip_prefix_Some). congruence.
      * assert (strip_prefix "http://" ("http://" +:+ host +:+ tail) = Some (host +:+ tail)) as Hx
          by (by apply strip_prefix_Some). congruence.
Qed.

(** The registries read from an npm lockfile are the hosts of the URLs that the
    objects of its JSON tree, at any depth, give under [resolved], and no others;
    those of a composer lockfile are given under [dist], [url].  Text that is not
    JSON gives none. *)
Theorem json_registries_correct `{LockEnv} (content h : string) :
  (h ∈ extract_npm_registries content <->
   exists v m url, json_from_str content = Some v /\ Sub (JObject m) v
     /\ jget "resolved" m = Some (JString url) /\ extract_host_from_url url = Some h)
  /\ (h ∈ extract_composer_registries content <->
      exists v m dist url, json_from_str content = Some v /\ Sub (JObject m) v
        /\ jget "dist" m = Some (JObject dist) /\ jget "url" dist = Some (JString url)
        /\ extract_host_from_url url = Some h).
Proof.
  unfold extract_npm_registries, extract_composer_registries, walk_resolved, walk_dist.
  destruct (json_from_str content) as [v|]; [|set_solver]. rewrite !walk_spec.
  split; (split; [intros [(m & url & Hs & Hp & He)|]; [|set_solver]|]).
  - unfold pick_resolved in Hp. apply bind_Some in Hp as ([] & Hg & [= <-]). naive_solver.
  - intros (v' & m & url & [= <-] & Hs & Hg & He). left. exists m, url. unfold pick_resolved. by rewrite Hg.
  - unfold pick_dist in Hp. apply bind_Some in Hp as (d & Hd & (u & Hu & Hx)%bind_Some).
    destruct d as [| | | | |d]; try done. destruct u; try done. injection Hx as <-. naive_solver.
  - intros (v' & m & d & url & [= <-] & Hs & Hd & Hu & He). left. exists m, url. unfold pick_dist.
    by rewrite Hd; simpl; rewrite Hu.
Qed.

(** The search for a lockfile looks at the working directory and its nearest
    seven ancestors, nearest first, and never past a directory that holds a
    repository or a lockfile: what it returns is a file with a known name in the
    first such directory, and it returns nothing only when none is reachable. *)
Theorem discover_lockfile_correct `{LockEnv} (cwd : string) :
  match discover_lockfile cwd with
  | Some p => exists k d name, k < 8 /\ ancestor k cwd = Some d /\ passes k cwd
                /\ name ∈ LOCKFILES /\ p = path_join d name /\ is_file p = true
  | None => forall k d, k < 8 -> ancestor k cwd = Some d -> passes k cwd -> ~ has_lockfile d
  end.
Proof. apply (discover_from_spec 8 cwd). Qed.
