(* ===== verification/Publish.v ===== *)
(** * From the inputs of a run to its published snapshot

    [crates/guard-daemon/src/handlers/prepare_snapshot.rs] and
    [crates/guard-daemon/src/snapshot.rs]: collecting the inputs, building and
    checking the snapshot the command line signed, and writing the two files of the
    run.  Files are a map from paths to contents; an operation on them may fail,
    and a failed write leaves a prefix. *)

From S2P Require Import Prelude RustStr Policy TrustedSigners Signature.
From S2P Require Import Snapshot Paths RuleStore ProcessTree Lockfile.

(** ** Files *)

Abbreviation Files := (gmap string string).

Class PubEnv : Type := {
  fs_fault : string -> string -> option string;
  written_prefix : string -> nat;
  getrandom : option (list N);
  unix_ms_now : Z;
}.

(** Operations on files: the state, and a value or an error. *)
Definition FM (A : Type) : Type := Files -> Files * result A string.

#[export] Instance fm_ret : MRet FM := fun A a f => (f, Ok a).
#[export] Instance fm_bind : MBind FM := fun A B k m f =>
  match m f with (f', Ok a) => k a f' | (f', Err e) => (f', Err e) end.

Section Files.
Context `{PubEnv}.

Definition attempt {A} (op path : string) (m : FM A) : FM A :=
  fun f => match fs_fault op path with Some e => (f, Err e) | None => m f end.

Definition remove_file (path : string) : FM unit :=
  attempt "remove" path (fun f =>
    match f !! path with
    | Some _ => (delete path f, Ok tt)
    | None => (f, Err "No such file or directory")
    end).

Definition create_new (path : string) : FM unit :=
  attempt "create" path (fun f =>
    match f !! path with
    | Some _ => (f, Err "File exists")
    | None => (<[path := ""]> f, Ok tt)
    end).

Definition write_all (path bytes : string) : FM unit :=
  fun f => match fs_fault "write" path with
           | Some e => (<[path := str_take (written_prefix path) bytes]> f, Err e)
           | None => (<[path := bytes]> f, Ok tt)
           end.

Definition sync_all (path : string) : FM unit := attempt "sync" path (fun f => (f, Ok tt)).

Definition rename (from to : string) : FM unit :=
  attempt "rename" from (fun f =>
    match f !! from with
    | Some c => (<[to := c]> (delete from f), Ok tt)
    | None => (f, Err "No such file or directory")
    end).

Definition ignore {A} (m : FM A) : FM unit := fun f => ((m f).1, Ok tt).

Definition ensure_runs_dir (state_dir : string) : FM unit :=
  attempt "mkdir" (runs_dir state_dir) (fun f => (f, Ok tt)).

(** Write a temporary file and move it into place. *)
Definition put_file (tmp final bytes : string) : FM unit :=
  _ ← ignore (remove_file tmp);
  _ ← create_new tmp;
  _ ← write_all tmp bytes;
  _ ← sync_all tmp;
  rename tmp final.

(** ** snapshot.rs *)

Record PublishedSnapshot : Type := mkPublished {
  pub_path : string;
  pub_digest_hex : string;
}.

Context `{Crypto}.

Definition nl : string := String LF "".

(** The lines of the signature, in the order they are written. *)
Definition signature_lines (s : SnapshotSignatureV1) : list string :=
  ["snapshot_signature_scheme=" +:+ sig_scheme s;
   "snapshot_signer_kind=" +:+ sig_signer_kind s;
   "snapshot_public_key_sha256=" +:+ sig_public_key_sha256 s;
   "snapshot_public_key_x963=" +:+ hex_lower (sig_public_key_x963 s);
   "snapshot_signature_der=" +:+ hex_lower (sig_signature_der s);
   "snapshot_signed_payload_sha256=" +:+ sig_signed_payload_sha256 s;
   "snapshot_signature_created_at_unix_ms=" +:+ pretty (sig_created_at_unix_ms s)].

Fixpoint unlines (l : list string) : string :=
  match l with [] => "" | x :: l' => x +:+ nl +:+ unlines l' end.

Definition manifest_body (final_path digest_hex : string) (signature : option SnapshotSignatureV1) : string :=
  unlines (final_path :: ("digest=" +:+ digest_hex)
           :: match signature with Some s => signature_lines s | None => [] end).

Definition publish_run_inner (state_dir bytes run_uuid : string)
    (signature : option SnapshotSignatureV1) : FM PublishedSnapshot :=
  _ ← ensure_runs_dir state_dir;
  let final_path := run_snapshot_path state_dir run_uuid in
  _ ← put_file (run_snapshot_tmp_path state_dir run_uuid) final_path bytes;
  let digest_hex := hex_lower (sha256 bytes) in
  _ ← put_file (run_manifest_tmp_path state_dir run_uuid) (run_manifest_path state_dir run_uuid)
        (manifest_body final_path digest_hex signature);
  mret (mkPublished final_path digest_hex).

Definition publish_run_signed_bytes (state_dir bytes run_uuid : string) (signature : SnapshotSignatureV1) :=
  publish_run_inner state_dir bytes run_uuid (Some signature).

Definition show_snapshot_error (e : Snapshot.Error) : string :=
  match e with
  | Codec m => "snapshot codec: " +:+ m
  | SchemaVersionMismatch expected got =>
      "snapshot schema version mismatch: expected " +:+ pretty expected +:+ ", got " +:+ pretty got
  end.

Definition publish_run `{SnapshotCodec} (state_dir : string) (snap : Snapshot) (run_uuid : string)
  : FM PublishedSnapshot :=
  match encode snap with
  | Err e => fun f => (f, Err ("encode: " +:+ show_snapshot_error e))
  | Ok bytes => publish_run_inner state_dir bytes run_uuid None
  end.

(** Removal of a run's files; missing files are not errors. *)
Definition gc_run (state_dir run_uuid : string) : FM unit :=
  _ ← ignore (remove_file (run_snapshot_path state_dir run_uuid));
  ignore (remove_file (run_manifest_path state_dir run_uuid)).

End Files.

(** ** prepare_snapshot.rs: the working directory *)

Definition FORBIDDEN_CWD_PREFIXES : list string :=
  ["/etc"; "/private/etc"; "/System"; "/usr/bin"; "/usr/sbin"; "/sbin"; "/bin"; "/var/db"; "/var/root"].

(** Components are visited in order; [..] is refused, [.] and empty ones are skipped. *)
Fixpoint push_components (cs : list string) (acc : string) : option string :=
  match cs with
  | [] => Some acc
  | c :: rest =>
      if is_empty c || bool_decide (c = ".") then push_components rest acc
      else if bool_decide (c = "..") then None
      else push_components rest (path_join acc c)
  end.

Definition normalize_absolute_cwd (cwd : string) : result string string :=
  if negb (path_is_absolute cwd) then Err ("cwd must be absolute: " +:+ cwd)
  else ok_or (push_components (split_on "/" cwd) "/") ("cwd must not contain '..': " +:+ cwd).

Definition forbidden (normalized : string) : bool :=
  existsb (fun p => bool_decide (normalized = p) || starts_with normalized (p +:+ "/"))
    FORBIDDEN_CWD_PREFIXES.

Definition validate_cwd (cwd : string) : result string string :=
  let? normalized := normalize_absolute_cwd cwd in
  if forbidden normalized then Err ("cwd in forbidden system path: " +:+ normalized)
  else Ok normalized.

(** ** prepare_snapshot.rs: collecting the inputs *)

Definition hex_byte (b : N) : string := hex_lower (String (ascii_of_N b) "").

Fixpoint hex_bytes (bs : list N) : string :=
  match bs with [] => "" | b :: bs' => hex_byte b +:+ hex_bytes bs' end.

(** A version-four identifier from sixteen random bytes. *)
Definition new_run_uuid `{PubEnv} : result string string :=
  let? buf := ok_or getrandom "getrandom failed" in
  let buf1 := <[6 := N.lor (N.land (nth 6 buf 0%N) 15) 64]> buf in
  let buf2 := <[8 := N.lor (N.land (nth 8 buf1 0%N) 63) 128]> buf1 in
  Ok (hex_bytes (take 4 buf2) +:+ "-" +:+ hex_bytes (take 2 (drop 4 buf2)) +:+ "-"
      +:+ hex_bytes (take 2 (drop 6 buf2)) +:+ "-" +:+ hex_bytes (take 2 (drop 8 buf2)) +:+ "-"
      +:+ hex_bytes (take 6 (drop 10 buf2))).

Record CollectedSnapshotBuildInput : Type := mkCollected {
  ci_input : SnapshotBuildInput;
  ci_is_tty : bool;
  ci_baseline_mode : bool;
}.

(** The order in which a [BTreeSet] of names is visited. *)
Definition str_le (a b : string) : Prop := String.leb a b = true.
#[export] Instance str_le_dec : RelDecision str_le.
Proof. intros a b. unfold str_le. apply _. Defined.

Definition sorted_hosts (s : gset string) : list string := merge_sort str_le (elements s).

Definition lockfile_entry (lockfile_path host : string) : AllowlistEntry :=
  mkEntry Allow CuratedAllow Exact host
    ("lockfile: " +:+ match path_file_name lockfile_path with Some n => n | None => "" end).

Section Prepare.
Context `{PubEnv, LockEnv, SqlEngine, TrustFs, Crypto, SnapshotCodec}.

Definition lockfile_entries (cwd : string) : list AllowlistEntry :=
  match discover_lockfile cwd with
  | Some lockfile_path =>
      match extract_registries lockfile_path with
      | Some lr => lockfile_entry (lr_lockfile_path lr) <$> sorted_hosts (lr_registries lr)
      | None => []
      end
  | None => []
  end.

Definition collect_snapshot_build_input (cwd : string) (curated : list AllowlistEntry)
    (rule_store : RuleStore) (policy : RuleSignaturePolicy) (is_tty baseline_mode : bool)
  : result CollectedSnapshotBuildInput string :=
  let? run_uuid := new_run_uuid in
  let? cwd := map_err (fun e => "invalid cwd: " +:+ e) (validate_cwd cwd) in
  let disabled := match disabled_curated_patterns rule_store with Ok d => d | Err _ => ∅ end in
  let? verified_user_entries :=
    map_err (fun e => "user rule signature verification failed: " +:+ show_store_error e)
      (all_verified_user_rules rule_store policy) in
  Ok (mkCollected
        (mkBuildInput run_uuid unix_ms_now curated disabled verified_user_entries (lockfile_entries cwd))
        is_tty baseline_mode).

(** ** The handlers *)

Record PendingSnapshotInput : Type := mkPending {
  pi_input : SnapshotBuildInput;
  pi_is_tty : bool;
  pi_baseline_mode : bool;
  pi_prepared_at : Z;
}.

(** The part of the daemon's state these handlers use. *)
Record PrepState : Type := mkPrep {
  pp_curated : list AllowlistEntry;
  pp_rule_store : RuleStore;
  pp_state_dir : string;
  pp_policy : RuleSignaturePolicy;
  pp_process_tree : Tree;
  pp_pending : gmap string PendingSnapshotInput;
  pp_files : Files;
}.

Definition with_pending (st : PrepState) (p : gmap string PendingSnapshotInput) : PrepState :=
  mkPrep (pp_curated st) (pp_rule_store st) (pp_state_dir st) (pp_policy st) (pp_process_tree st) p
    (pp_files st).
Definition with_tree (st : PrepState) (t : Tree) : PrepState :=
  mkPrep (pp_curated st) (pp_rule_store st) (pp_state_dir st) (pp_policy st) t (pp_pending st)
    (pp_files st).
Definition with_files (st : PrepState) (f : Files) : PrepState :=
  mkPrep (pp_curated st) (pp_rule_store st) (pp_state_dir st) (pp_policy st) (pp_process_tree st)
    (pp_pending st) f.

(** Ten minutes, in milliseconds; instants are milliseconds too. *)
Definition PENDING_SNAPSHOT_INPUT_TTL : Z := 600000.
Definition IPC_SCHEMA_V5 : Z := 5.

(** The replies, without their constant schema version. *)
Inductive SnapshotReply : Type :=
| SnapOk (manifest_path run_uuid : string)
| SnapErr (message : string).

Inductive SnapshotInputsReply : Type :=
| InputsOk (input : SnapshotBuildInput) (is_tty baseline_mode : bool)
| InputsErr (message : string).

Record PublishSignedSnapshot : Type := mkPublishSigned {
  pr_schema_version : Z;
  pr_run_uuid : string;
  pr_snapshot_bytes : string;
  pr_signature : SnapshotSignatureV1;
  pr_is_tty : bool;
  pr_baseline_mode : bool;
}.

Definition record_run (t : Tree) (state_dir run_uuid snapshot_path : string)
    (is_tty baseline_mode : bool) : Tree :=
  let t1 := insert_run t (mkRun run_uuid (mkToken 0 0 0 0 0 0 0 0) snapshot_path
                            (run_manifest_path state_dir run_uuid) is_tty baseline_mode) in
  set_run_baseline_mode (set_run_is_tty t1 run_uuid is_tty) run_uuid baseline_mode.

Definition prune_pending_snapshot_inputs (st : PrepState) (now : Z) : PrepState :=
  with_pending st
    (filter (fun kv => (now - pi_prepared_at kv.2 < PENDING_SNAPSHOT_INPUT_TTL)%Z) (pp_pending st)).

(** The unsigned flow; the dispatcher answers the old message with an error instead. *)
Definition handle_prepare_snapshot (st : PrepState) (cwd : string) (is_tty baseline_mode : bool)
  : PrepState * SnapshotReply :=
  match collect_snapshot_build_input cwd (pp_curated st) (pp_rule_store st) (pp_policy st) is_tty
          baseline_mode with
  | Err e => (st, SnapErr e)
  | Ok collected =>
      let run_uuid := bi_run_uuid (ci_input collected) in
      match publish_run (pp_state_dir st) (build_snapshot (ci_input collected)) run_uuid (pp_files st) with
      | (f, Err e) => (with_files st f, SnapErr ("publish_run: " +:+ e))
      | (f, Ok pub) =>
          (with_tree (with_files st f)
             (record_run (pp_process_tree st) (pp_state_dir st) run_uuid (pub_path pub) is_tty baseline_mode),
           SnapOk (run_manifest_path (pp_state_dir st) run_uuid) run_uuid)
      end
  end.

Definition handle_prepare_snapshot_inputs_full (st : PrepState) (now : Z) (cwd : string)
    (is_tty baseline_mode : bool) : PrepState * SnapshotInputsReply :=
  let st1 := prune_pending_snapshot_inputs st now in
  match collect_snapshot_build_input cwd (pp_curated st1) (pp_rule_store st1) (pp_policy st1) is_tty
          baseline_mode with
  | Err e => (st1, InputsErr e)
  | Ok collected =>
      (with_pending st1
         (<[bi_run_uuid (ci_input collected) :=
              mkPending (ci_input collected) (ci_is_tty collected) (ci_baseline_mode collected) now]>
            (pp_pending st1)),
       InputsOk (ci_input collected) (ci_is_tty collected) (ci_baseline_mode collected))
  end.

(** The checks a signed snapshot passes, in order; the first that fails is reported. *)
Definition check_signed_snapshot (st : PrepState) (pending : PendingSnapshotInput)
    (req : PublishSignedSnapshot) : result unit string :=
  if negb (bool_decide (pi_is_tty pending = pr_is_tty req))
     || negb (bool_decide (pi_baseline_mode pending = pr_baseline_mode req))
    then Err "signed snapshot run flags mismatch"
  else
    let? expected_bytes := map_err (fun e => "rebuild prepared snapshot: " +:+ show_snapshot_error e)
                             (build_snapshot_bytes (pi_input pending)) in
    if negb (bool_decide (expected_bytes = pr_snapshot_bytes req))
      then Err "signed snapshot bytes do not match daemon-issued inputs"
    else
      let? snapshot := map_err (fun e => "decode signed snapshot: " +:+ show_snapshot_error e)
                         (decode (pr_snapshot_bytes req)) in
      if negb (bool_decide (run_uuid snapshot = Some (pr_run_uuid req)))
        then Err "signed snapshot run_uuid mismatch"
      else
        let payload := new_snapshot_payload (pr_run_uuid req) (sha256_hex (pr_snapshot_bytes req))
                         (generated_at_unix_ms snapshot) in
        let? _ := map_err (fun e => "snapshot signature verification failed: " +:+ show_signature_error e)
                    (verify_snapshot_signature payload (pr_signature req) (pp_policy st)) in
        match is_trusted_rule_signer (pp_rule_store st) (sig_public_key_sha256 (pr_signature req))
                (sig_signer_kind (pr_signature req)) with
        | Ok true => Ok tt
        | Ok false => Err "snapshot signer is not trusted"
        | Err e => Err ("snapshot signer trust check failed: " +:+ show_store_error e)
        end.

Definition handle_publish_signed_snapshot_full (st : PrepState) (now : Z) (req : PublishSignedSnapshot)
  : PrepState * SnapshotReply :=
  if negb (bool_decide (pr_schema_version req = IPC_SCHEMA_V5))
    then (st, SnapErr ("schema_version " +:+ pretty (pr_schema_version req) +:+ " != IPC_SCHEMA_V5"))
  else
    let st1 := prune_pending_snapshot_inputs st now in
    match pp_pending st1 !! pr_run_uuid req with
    | None => (st1, SnapErr "signed snapshot was not prepared by daemon")
    | Some pending =>
        let st2 := with_pending st1 (delete (pr_run_uuid req) (pp_pending st1)) in
        match check_signed_snapshot st2 pending req with
        | Err e => (st2, SnapErr e)
        | Ok _ =>
            match publish_run_signed_bytes (pp_state_dir st2) (pr_snapshot_bytes req) (pr_run_uuid req)
                    (pr_signature req) (pp_files st2) with
            | (f, Err e) => (with_files st2 f, SnapErr ("publish signed snapshot: " +:+ e))
            | (f, Ok pub) =>
                (with_tree (with_files st2 f)
                   (record_run (pp_process_tree st2) (pp_state_dir st2) (pr_run_uuid req) (pub_path pub)
                      (pr_is_tty req) (pr_baseline_mode req)),
                 SnapOk (run_manifest_path (pp_state_dir st2) (pr_run_uuid req)) (pr_run_uuid req))
            end
        end
    end.

(** The entry point the dispatcher uses for the old message. *)
Definition handle_prepare_snapshot_v4_full : SnapshotReply :=
  SnapErr "signed snapshot flow required; use PrepareSnapshotInputs and PublishSignedSnapshot".

End Prepare.

(** ** Writing a file *)

Section Atomic.
Context `{PubEnv}.

Lemma attempt_cases {A} (op path : string) (m : FM A) (f : Files) :
  (exists e, attempt op path m f = (f, Err e)) \/ attempt op path m f = m f.
Proof. unfold attempt. destruct (fs_fault op path); eauto. Qed.

Lemma fm_bind_eq {A B} (m : FM A) (k : A -> FM B) (f : Files) :
  (m ≫= k) f = match m f with (f', Ok a) => k a f' | (f', Err e) => (f', Err e) end.
Proof. done. Qed.

(** Only [path] may have changed. *)
Definition only (path : string) (f f' : Files) : Prop :=
  forall p, p <> path -> f' !! p = f !! p.

Lemma remove_file_only (path : string) (f : Files) : only path f (remove_file path f).1.
Proof.
  intros p Hp. unfold remove_file. destruct (attempt_cases "remove" path
    (fun f => match f !! path with
              | Some _ => (delete path f, Ok tt)
              | None => (f, Err "No such file or directory") end) f) as [[e ->]| ->]; [done|].
  destruct (f !! path); [|done]. simpl. by apply lookup_delete_ne.
Qed.

(** Either the file is in place, or the destination is untouched. *)
Lemma put_file_spec (tmp final bytes : string) (f f' : Files) (r : result unit string) :
  tmp <> final -> put_file tmp final bytes f = (f', r) ->
  (forall p, p <> tmp -> p <> final -> f' !! p = f !! p)
  /\ match r with
     | Ok _ => f' !! final = Some bytes
     | Err _ => f' !! final = f !! final
     end.
Proof.
  intros Hne Hput.
  assert (exists g, only tmp f g /\ (f' = g /\ (exists e, r = Err e)
            \/ f' = <[final := bytes]> (delete tmp g) /\ r = Ok tt)) as (g & Hg & Hcase).
  { unfold put_file in Hput. rewrite fm_bind_eq in Hput. unfold ignore at 1 in Hput.
    pose proof (remove_file_only tmp f) as H0. set (f0 := (remove_file tmp f).1) in *. simpl in Hput.
    rewrite fm_bind_eq in Hput. unfold create_new at 1, attempt at 1 in Hput.
    destruct (fs_fault "create" tmp); [exists f0; simplify_eq; eauto 6|].
    destruct (f0 !! tmp); [exists f0; simplify_eq; eauto 6|].
    assert (forall c, only tmp f (<[tmp := c]> (<[tmp := ""]> f0))) as Hins.
    { intros c p Hp. rewrite !lookup_insert_ne by done. by apply H0. }
    rewrite fm_bind_eq in Hput. unfold write_all at 1 in Hput.
    destruct (fs_fault "write" tmp); [eexists; split; [apply Hins|]; simplify_eq; eauto 6|].
    rewrite fm_bind_eq in Hput. unfold sync_all at 1, attempt at 1 in Hput.
    destruct (fs_fault "sync" tmp); [eexists; split; [apply Hins|]; simplify_eq; eauto 6|].
    unfold rename, attempt in Hput.
    destruct (fs_fault "rename" tmp); [eexists; split; [apply Hins|]; simplify_eq; eauto 6|].
    rewrite lookup_insert_eq in Hput. eexists. split; [apply (Hins bytes)|]. simplify_eq. eauto. }
  destruct Hcase as [[-> [e ->]]|[-> ->]].
  - split; [intros; by apply Hg|by apply Hg].
  - split; [|by rewrite lookup_insert_eq].
    intros p Ht Hf. rewrite lookup_insert_ne, lookup_delete_ne by done. by apply Hg.
Qed.

Context `{Crypto}.

Definition run_files (d u : string) : list string :=
  [run_snapshot_path d u; run_manifest_path d u; run_snapshot_tmp_path d u; run_manifest_tmp_path d u].

Definition run_manifest_body (d u bytes : string) (sg : option SnapshotSignatureV1) : string :=
  manifest_body (run_snapshot_path d u) (hex_lower (sha256 bytes)) sg.

(** The two files of a run are written in order. *)
Lemma publish_run_inner_spec (d u bytes : string) (sg : option SnapshotSignatureV1) (f f' : Files)
    (r : result PublishedSnapshot string) :
  u <> "" -> relative u -> publish_run_inner d bytes u sg f = (f', r) ->
  (forall p, p ∉ run_files d u -> f' !! p = f !! p)
  /\ (f' !! run_snapshot_path d u = f !! run_snapshot_path d u
      \/ f' !! run_snapshot_path d u = Some bytes)
  /\ match r with
     | Ok pub => f' !! run_snapshot_path d u = Some bytes
                 /\ f' !! run_manifest_path d u = Some (run_manifest_body d u bytes sg)
                 /\ pub = mkPublished (run_snapshot_path d u) (hex_lower (sha256 bytes))
     | Err _ => f' !! run_manifest_path d u = f !! run_manifest_path d u
     end.
Proof.
  intros Hu Ru Hp.
  destruct (run_artifact_paths_distinct d u u Hu Hu Ru Ru) as (_ & _ & H1 & H2 & H3 & H4 & H5 & H6).
  unfold publish_run_inner in Hp. rewrite fm_bind_eq in Hp. unfold ensure_runs_dir, attempt at 1 in Hp.
  destruct (fs_fault "mkdir" (runs_dir d)); [simplify_eq; auto|].
  rewrite fm_bind_eq in Hp. unfold run_files. setoid_rewrite not_elem_of_cons.
  do 3 setoid_rewrite not_elem_of_cons.
  destruct (put_file _ _ bytes f) as [f1 r1] eqn:Hp1.
  apply put_file_spec in Hp1 as [Ho1 Hr1]; [|done]. destruct r1 as [[]|e1].
  2: { simplify_eq. split_and!; [intros p (?&?&?&?&?); by apply Ho1|auto|by apply Ho1]. }
  rewrite fm_bind_eq in Hp. destruct (put_file _ _ (manifest_body _ _ _) f1) as [f2 r2] eqn:Hp2.
  apply put_file_spec in Hp2 as [Ho2 Hr2]; [|done].
  assert (f2 !! run_snapshot_path d u = Some bytes) as Hs by (by rewrite Ho2).
  assert (forall p, (p <> run_snapshot_path d u /\ p <> run_manifest_path d u /\
     p <> run_snapshot_tmp_path d u /\ p <> run_manifest_tmp_path d u /\ p ∉ []) -> f2 !! p = f !! p) as Hother.
  { intros p (? & ? & ? & ? & _). by rewrite Ho2, Ho1. }
  unfold mret, fm_ret in Hp.
  destruct r2 as [[]|e2]; simplify_eq; (split_and!; [done|by right|..]); try done.
  rewrite Hr2. by apply Ho1.
Qed.

End Atomic.

(** ** Collected inputs *)

Lemma verified_row_user (st : RuleStore) (policy : RuleSignaturePolicy) (row : RuleRow) (sg : SigRow)
    (e : AllowlistEntry) `{SqlEngine, TrustFs, Crypto} :
  verify_user_rule_row st policy row sg = Ok e ->
  wf_entry e /\ (e_tier e = UserAllow \/ e_tier e = UserDeny).
Proof.
  unfold verify_user_rule_row. destruct (negb _); [done|].
  destruct (map_err _ _) as [[]|]; [|done]. destruct (verify_rule_signer_trusted _ _) as [[]|]; [|done].
  destruct (parse_rule_kind (r_kind row)) as [k|]; [|done].
  destruct (parse_match_type (r_match_type row)); [|done].
  intros [= <-]. unfold wf_entry. simpl. destruct k; simpl; auto.
Qed.

Lemma verified_rules_user (st : RuleStore) (policy : RuleSignaturePolicy) (out : list AllowlistEntry)
    `{SqlEngine, TrustFs, Crypto} :
  all_verified_user_rules st policy = Ok out ->
  Forall (fun e => wf_entry e /\ (e_tier e = UserAllow \/ e_tier e = UserDeny)) out.
Proof.
  intros [_ HF]%all_verified_ok. apply Forall_forall. intros e He.
  apply list_elem_of_lookup_1 in He as [i Hi]. 
  destruct (Forall2_lookup_r _ _ _ _ _ HF Hi) as ([row sg] & _ & Hv). by eapply verified_row_user.
Qed.

Lemma lockfile_entries_shape `{LockEnv} (cwd : string) :
  Forall (fun e => e_kind e = Allow /\ e_tier e = CuratedAllow /\ e_match_type e = Exact
            /\ exists p lr, discover_lockfile cwd = Some p /\ extract_registries p = Some lr
                           /\ e_pattern e ∈ lr_registries lr) (lockfile_entries cwd).
Proof.
  unfold lockfile_entries. destruct (discover_lockfile cwd) as [p|] eqn:Hd; [|constructor].
  destruct (extract_registries p) as [lr|] eqn:Hx; [|constructor].
  apply Forall_fmap, Forall_forall. intros h Hh. simpl. split_and!; try done. exists p, lr.
  split_and!; try done. unfold sorted_hosts in Hh. rewrite merge_sort_Permutation in Hh. 
  by apply elem_of_elements.
Qed.

(** ** The working directory *)

(** The components of an absolute path that are visited. *)
Definition cwd_parts (cwd : string) : list string :=
  filter (fun c => c <> "" /\ c <> ".") (split_on "/" cwd).

Definition abs_path (parts : list string) : string := "/" +:+ join "/" parts.

Lemma split_parts_no_slash (s : string) : Forall (fun c => no_char "/" c = true) (split_on "/" s).
Proof.
  induction s as [|a s IH]; simpl; [by constructor|].
  case_bool_decide as Ha; [by constructor|].
  destruct (split_on "/" s) as [|h t] eqn:Hs; [by apply split_on_nonempty in Hs|].
  apply Forall_cons in IH as [Hh Ht]. constructor; [by apply no_char_cons|done].
Qed.

Lemma cwd_parts_no_slash (cwd : string) : Forall (fun c => no_char "/" c = true) (cwd_parts cwd).
Proof.
  apply Forall_forall. intros c [_ Hc]%list_elem_of_filter.
  by apply (proj1 (Forall_forall _ _) (split_parts_no_slash cwd)).
Qed.

Lemma join_app (l l' : list string) :
  l <> [] -> l' <> [] -> join "/" (l ++ l') = join "/" l +:+ "/" +:+ join "/" l'.
Proof.
  intros Hl Hl'. induction l as [|x l IH]; [done|]. destruct l as [|y l].
  - simpl. by destruct l'.
  - change (join "/" ((x :: y :: l) ++ l')) with (x +:+ "/" +:+ join "/" ((y :: l) ++ l')).
    rewrite IH by done. change (join "/" (x :: y :: l)) with (x +:+ "/" +:+ join "/" (y :: l)).
    by rewrite !app_assoc_str.
Qed.

Definition plain (c : string) : Prop := c <> "" /\ no_char "/" c = true.

Lemma split_abs_path (ds : list string) :
  ds <> [] -> Forall plain ds -> split_on "/" (abs_path ds) = "" :: ds.
Proof.
  intros Hne HF. unfold abs_path. rewrite <- (app_nil_l_str ("/" +:+ _)).
  change ("/" +:+ join "/" ds) with (String "/" (join "/" ds)). rewrite split_on_app by done. f_equal.
  apply (split_on_join_inv "/"); [done|]. eapply Forall_impl; [exact HF|]. by intros c [].
Qed.

Lemma split_trailing_slash (l : string) : last (split_on "/" (l +:+ "/")) = Some "".
Proof.
  induction l as [|a l IH]; [done|]. rewrite app_cons_str. simpl.
  destruct (split_on "/" (l +:+ "/")) as [|h t] eqn:Hs; [by apply split_on_nonempty in Hs|].
  case_bool_decide; [done|]. destruct t; [|done]. simpl in IH.
  assert (h = "") as -> by congruence. exfalso.
  assert (l +:+ "/" = "") as He by (rewrite <- (split_on_join "/" (l +:+ "/")), Hs; done).
  apply (f_equal String.length) in He. rewrite length_app_str in He. simpl in He. lia.
Qed.

Lemma path_join_abs (ds : list string) (c : string) :
  Forall plain ds -> plain c -> path_join (abs_path ds) c = abs_path (ds ++ [c]).
Proof.
  intros HF [Hc Hs].
  assert (path_is_absolute c = false) as Ha.
  { unfold path_is_absolute, starts_with. destruct c as [|a c]; [done|]. apply no_char_cons in Hs as [Hs _].
    simpl. by rewrite bool_decide_eq_false_2 by congruence. }
  unfold path_join. rewrite Ha. simpl is_empty. rewrite orb_false_l.
  destruct ds as [|d ds]; [done|]. destruct (ends_with (abs_path (d :: ds)) "/") eqn:He.
  - exfalso. apply ends_with_true in He as [l He].
    pose proof (split_abs_path (d :: ds) ltac:(done) HF) as Hsp. rewrite He in Hsp.
    pose proof (split_trailing_slash l) as Hl. rewrite Hsp in Hl.
    assert ("" ∈ d :: ds) as Hin.
    { apply last_Some in Hl as [l' Hl']. destruct l' as [|x l']; simplify_eq/=. rewrite H0. apply elem_of_app. right. by left. }
    by apply (proj1 (Forall_forall _ _) HF) in Hin as [].
  - unfold abs_path. rewrite join_app by done. by rewrite !app_assoc_str.
Qed.

Lemma push_components_spec (cs : list string) (ds : list string) (n : string) :
  Forall (fun c => no_char "/" c = true) cs -> Forall plain ds ->
  push_components cs (abs_path ds) = Some n <->
  ".." ∉ cs /\ n = abs_path (ds ++ filter (fun c => c <> "" /\ c <> ".") cs).
Proof.
  intros HF. revert ds. induction HF as [|c cs Hc HF IH]; intros ds Hds; simpl.
  { rewrite app_nil_r. split; [intros [= <-]; split; [apply not_elem_of_nil|done]|by intros [_ ->]]. }
  rewrite filter_cons, not_elem_of_cons. destruct (is_empty c || bool_decide (c = ".")) eqn:He.
  - assert (~ (c <> "" /\ c <> ".")) as Hskip.
    { intros [H1 H2]. apply orb_true_iff in He as [He|He%bool_decide_eq_true]; [by destruct c|done]. }
    rewrite decide_False by done. rewrite IH by done. split; [|naive_solver].
    intros [? ->]. split; [|done]. split; [|done]. intros <-. by vm_compute in He.
  - apply orb_false_iff in He as [He1 He2%bool_decide_eq_false].
    assert (c <> "" /\ c <> ".") as Hkeep by (split; [by intros ->|done]).
    rewrite decide_True by done. case_bool_decide as Hd; [subst; naive_solver|].
    rewrite path_join_abs by (done || by split; [apply Hkeep|]).
    rewrite IH, <- app_assoc; [naive_solver|].
    apply Forall_app. split; [done|]. apply Forall_singleton. by split; [apply Hkeep|].
Qed.

Lemma split_on_app_gen (c : ascii) (s r : string) :
  split_on c (s +:+ String c r) = split_on c s ++ split_on c r.
Proof.
  induction s as [|a s IH].
  - rewrite app_nil_l_str. simpl. by rewrite bool_decide_eq_true_2.
  - rewrite app_cons_str. simpl. rewrite IH. pose proof (split_on_nonempty c s).
    case_bool_decide; [done|]. by destruct (split_on c s).
Qed.

(** A path lies at or below another one. *)
Lemma below_iff (pp parts : list string) :
  pp <> [] -> Forall plain pp -> Forall plain parts ->
  bool_decide (abs_path parts = abs_path pp) || starts_with (abs_path parts) (abs_path pp +:+ "/") = true
  <-> pp `prefix_of` parts.
Proof.
  intros Hne Hp Hq. rewrite orb_true_iff, bool_decide_eq_true, starts_with_true. split.
  - intros [He|[r Hr]].
    + assert (parts <> []) as Hne' by (intros ->; destruct pp as [|x [|y pp]]; [done|..];
        apply Forall_cons in Hp as [[Hx _] _]; destruct x; done).
      apply (f_equal (split_on "/")) in He. rewrite !split_abs_path in He by done. by injection He as ->.
    + apply (f_equal (split_on "/")) in Hr.
      rewrite app_assoc_str in Hr. change ("/" +:+ r) with (String "/" r) in Hr.
      rewrite split_on_app_gen, (split_abs_path pp) in Hr by done.
      destruct parts as [|y parts].
      { exfalso. apply (f_equal length) in Hr. pose proof (split_on_nonempty "/" r).
        destruct pp; [done|]. destruct (split_on "/" r); [done|]. simpl in Hr.
        rewrite length_app in Hr. simpl in Hr. lia. }
      rewrite split_abs_path in Hr by done. simpl in Hr. injection Hr as ->. by eexists.
  - intros [rest ->]. destruct rest as [|x rest]; [left; by rewrite app_nil_r|right].
    exists (join "/" (x :: rest)). unfold abs_path. rewrite join_app by done. by rewrite !app_assoc_str.
Qed.

(** What the checks on a signed snapshot establish. *)
Lemma check_signed_ok `{SqlEngine, TrustFs, Crypto, SnapshotCodec} (st : PrepState)
    (pending : PendingSnapshotInput) (req : PublishSignedSnapshot) :
  check_signed_snapshot st pending req = Ok tt ->
  (pi_is_tty pending = pr_is_tty req /\ pi_baseline_mode pending = pr_baseline_mode req)
  /\ build_snapshot_bytes (pi_input pending) = Ok (pr_snapshot_bytes req)
  /\ (exists snap b, decode (pr_snapshot_bytes req) = Ok snap /\ run_uuid snap = Some (pr_run_uuid req)
        /\ cbor_snapshot_payload (new_snapshot_payload (pr_run_uuid req) (sha256_hex (pr_snapshot_bytes req))
             (generated_at_unix_ms snap)) = Ok b
        /\ Authentic b (pr_signature req) (pp_policy st))
  /\ is_trusted_rule_signer (pp_rule_store st) (sig_public_key_sha256 (pr_signature req))
       (sig_signer_kind (pr_signature req)) = Ok true.
Proof.
  unfold check_signed_snapshot. destruct (_ || _) eqn:Hf; [done|]. bool_split.
  destruct (build_snapshot_bytes _) as [eb|] eqn:Hb; [|done]. simpl. case_bool_decide; [|done]. simpl. subst eb.
  destruct (decode _) as [snap|] eqn:Hd; [|done]. simpl. case_bool_decide; [|done]. simpl.
  destruct (verify_snapshot_signature _ _ _) as [[]|] eqn:Hv; [|done]. simpl.
  destruct (is_trusted_rule_signer _ _ _) as [[]|] eqn:Ht; try done. intros _.
  apply verify_payload_ok in Hv as (_ & b & Hc & Ha). unfold canonical_snapshot_payload_bytes in Hc.
  split_and!; try done. exists snap, b. split_and!; try done.
  by destruct (cbor_snapshot_payload _); simplify_eq/=.
Qed.

(** ** Theorems *)

(** A working directory is accepted exactly when it is absolute, has no [..]
    component and does not lie at or below one of the forbidden directories,
    component by component; what is passed on is the path of its components. *)
Theorem validate_cwd_correct (cwd n : string) :
  validate_cwd cwd = Ok n <->
  path_is_absolute cwd = true /\ ".." ∉ split_on "/" cwd /\ n = abs_path (cwd_parts cwd)
  /\ forall p, p ∈ FORBIDDEN_CWD_PREFIXES -> ~ cwd_parts p `prefix_of` cwd_parts cwd.
Proof.
  assert (forall s, Forall plain (cwd_parts s)) as Hplain.
  { intros s. apply Forall_forall. intros c Hc. split; [by apply list_elem_of_filter in Hc as [[] _]|].
    by apply (proj1 (Forall_forall _ _) (cwd_parts_no_slash s)). }
  assert (forbidden (abs_path (cwd_parts cwd)) = false <->
          forall p, p ∈ FORBIDDEN_CWD_PREFIXES -> ~ cwd_parts p `prefix_of` cwd_parts cwd) as Hforb.
  { unfold forbidden. rewrite <- not_true_iff_false, existsb_exists. split.
    - intros Hn p Hp Hpre. apply Hn. exists p. split; [by apply list_elem_of_In|].
      assert (p = abs_path (cwd_parts p) /\ cwd_parts p <> []) as [Hpe Hne].
      { clear Hpre. revert p Hp. apply Forall_forall. by_decide. }
      rewrite Hpe. by apply below_iff.
    - intros Hall (p & Hp%list_elem_of_In & Hb). apply (Hall p Hp).
      assert (p = abs_path (cwd_parts p) /\ cwd_parts p <> []) as [Hpe Hne].
      { clear Hb. revert p Hp. apply Forall_forall. by_decide. }
      rewrite Hpe in Hb. by apply below_iff. }
  unfold validate_cwd, normalize_absolute_cwd. destruct (path_is_absolute cwd); simpl; [|naive_solver].
  pose proof (push_components_spec (split_on "/" cwd) [] ) as Hpush. change (abs_path []) with "/" in Hpush.
  destruct (push_components (split_on "/" cwd) "/") as [m|]; simpl.
  - destruct (proj1 (Hpush m (split_parts_no_slash cwd) (Forall_nil_2 _)) eq_refl) as [Hdd ->]. simpl.
    fold (cwd_parts cwd). rewrite <- Hforb. destruct (forbidden _); naive_solver.
  - split; [done|]. intros (_ & Hdd & -> & _). exfalso.
    assert (None = Some (abs_path (cwd_parts cwd))) as Hbad; [|done].
    apply Hpush; [apply split_parts_no_slash|constructor|by split].
Qed.

(** What a host named by the lockfile of the project is given: unless a hard
    rule or a built-in deny refuses it, its requests are allowed as curated, even
    against the deny rules of the user and of the feeds. *)
Theorem lockfile_hosts_outrank_user_denies (input : SnapshotBuildInput) (e : AllowlistEntry)
    (ip : option string) (resolved : bool) :
  wf_input input -> e ∈ bi_lockfile_entries input ->
  e_tier e = CuratedAllow -> e_match_type e = Exact -> e_pattern e <> "" ->
  ~ hard_denied (e_pattern e) ip resolved ->
  (forall d, in_force input d -> e_tier d = BuiltinDeny -> entry_hit (e_pattern e) ip d = false) ->
  evaluate_policy (e_pattern e) ip resolved (entries (build_snapshot input)) = (VAllow, SrcCuratedAllow).
Proof.
  intros Hwf He Ht Hm Hne Hh Hno.
  destruct (hard_denied_reflect (e_pattern e) ip resolved) as [[? _]|[_ ->]]; [done|].
  assert (e ∈ entries (build_snapshot input)) as Hin by (apply build_snapshot_elem; right; by right).
  assert (entry_hit (e_pattern e) ip e = true) as Hhit.
  { unfold entry_hit, matches. rewrite Hm, bool_decide_eq_true_2 by done. by destruct (e_pattern e). }
  destruct (walk_entries_spec (e_pattern e) ip (entries (build_snapshot input)))
    as [(l1 & x & l2 & Heq & Hx & Hl1 & ->)|[Hnone _]]; [|by rewrite Hnone in Hhit].
  assert (x ∈ entries (build_snapshot input)) as Hxin by (rewrite Heq; set_solver).
  assert (tier_le (e_tier x) (e_tier e)) as Hle.
  { pose proof (build_snapshot_sorted input) as Hs. rewrite Heq in Hs, Hin.
    apply elem_of_app in Hin as [Hin|[->|Hin]%elem_of_cons].
    - by rewrite Hl1 in Hhit.
    - unfold tier_le. lia.
    - by eapply tier_sorted_app_le. }
  pose proof (build_snapshot_wf _ Hwf) as Hall. rewrite Forall_forall in Hall.
  pose proof (Hall x Hxin) as Hk. unfold wf_entry in Hk. unfold verdict_for. rewrite Hk.
  unfold tier_le in Hle. rewrite Ht in Hle. destruct (e_tier x) eqn:Htx; simpl in Hle; try lia; [|done].
  apply build_snapshot_elem in Hxin. by rewrite (Hno x Hxin Htx) in Hx.
Qed.

(** Collecting inputs: on success the working directory was accepted, the user
    rules are the verified rules of the store, every lockfile rule is an exact
    curated allow of a registry the lockfile names, and the inputs are parked under
    their run for ten minutes; given well-formed curated rules the inputs are well
    formed.  On failure nothing is parked. *)
Theorem prepared_inputs_sound `{PubEnv, LockEnv, SqlEngine, TrustFs, Crypto, SnapshotCodec}
    (st st' : PrepState) (now : Z) (cwd : string) (is_tty baseline : bool) (reply : SnapshotInputsReply) :
  Forall wf_entry (pp_curated st) ->
  handle_prepare_snapshot_inputs_full st now cwd is_tty baseline = (st', reply) ->
  pp_process_tree st' = pp_process_tree st /\ pp_files st' = pp_files st
  /\ match reply with
     | InputsErr _ => forall u p, pp_pending st' !! u = Some p -> pp_pending st !! u = Some p
     | InputsOk input t b =>
         t = is_tty /\ b = baseline
         /\ wf_input input
         /\ bi_curated_entries input = pp_curated st
         /\ all_verified_user_rules (pp_rule_store st) (pp_policy st) = Ok (bi_verified_user_entries input)
         /\ (exists n, validate_cwd cwd = Ok n /\ bi_lockfile_entries input = lockfile_entries n
             /\ Forall (fun e => e_kind e = Allow /\ e_tier e = CuratedAllow /\ e_match_type e = Exact)
                  (bi_lockfile_entries input))
         /\ pp_pending st' !! bi_run_uuid input = Some (mkPending input is_tty baseline now)
     end.
Proof.
  intros Hwf. unfold handle_prepare_snapshot_inputs_full, collect_snapshot_build_input.
  set (st1 := prune_pending_snapshot_inputs st now).
  assert (forall u p, pp_pending st1 !! u = Some p -> pp_pending st !! u = Some p) as Hprune.
  { intros u p Hp. by apply map_lookup_filter_Some in Hp as [Hp _]. }
  destruct new_run_uuid as [uuid|]; [|intros [= <- <-]; done].
  destruct (validate_cwd cwd) as [n|] eqn:Hcwd; [|intros [= <- <-]; done]. simpl.
  destruct (all_verified_user_rules (pp_rule_store st) (pp_policy st)) as [users|] eqn:Hu; [|intros [= <- <-]; done].
  pose proof (lockfile_entries_shape n) as Hl. simpl. intros [= <- <-]. do 4 (split; [done|]). split.
  { split_and!; [done|by apply verified_rules_user in Hu|]. eapply Forall_impl; [exact Hl|].
    intros e (Hk & Ht & _). unfold wf_entry. simpl. by rewrite Hk, Ht. }
  split; [done|]. split; [done|]. split; [|simpl; by rewrite lookup_insert_eq].
  exists n. split; [done|]. split; [done|]. eapply Forall_impl; [exact Hl|]. naive_solver.
Qed.

(** What the daemon answers to a signed snapshot, and what it writes. *)
Lemma publish_signed_spec `{PubEnv, SqlEngine, TrustFs, Crypto, SnapshotCodec}
    (st st' : PrepState) (now : Z) (req : PublishSignedSnapshot) (reply : SnapshotReply) :
  let u := pr_run_uuid req in let d := pp_state_dir st in let bytes := pr_snapshot_bytes req in
  u <> "" -> relative u -> pr_schema_version req = IPC_SCHEMA_V5 ->
  handle_publish_signed_snapshot_full st now req = (st', reply) ->
  pp_pending st' !! u = None
  /\ (forall p, p ∉ run_files d u -> pp_files st' !! p = pp_files st !! p)
  /\ match reply with
     | SnapErr _ => pp_process_tree st' = pp_process_tree st
                    /\ pp_files st' !! run_manifest_path d u = pp_files st !! run_manifest_path d u
     | SnapOk manifest uuid =>
         uuid = u /\ manifest = run_manifest_path d u
         /\ (exists pending, pp_pending st !! u = Some pending
               /\ (now - pi_prepared_at pending < PENDING_SNAPSHOT_INPUT_TTL)%Z
               /\ pi_is_tty pending = pr_is_tty req /\ pi_baseline_mode pending = pr_baseline_mode req
               /\ build_snapshot_bytes (pi_input pending) = Ok bytes)
         /\ (exists snap b, decode bytes = Ok snap /\ run_uuid snap = Some u
               /\ cbor_snapshot_payload (new_snapshot_payload u (sha256_hex bytes) (generated_at_unix_ms snap)) = Ok b
               /\ Authentic b (pr_signature req) (pp_policy st))
         /\ is_trusted_rule_signer (pp_rule_store st) (sig_public_key_sha256 (pr_signature req))
              (sig_signer_kind (pr_signature req)) = Ok true
         /\ pp_files st' !! run_snapshot_path d u = Some bytes
         /\ pp_files st' !! run_manifest_path d u = Some (run_manifest_body d u bytes (Some (pr_signature req)))
         /\ get_run (pp_process_tree st') u
            = Some (mkRun u (mkToken 0 0 0 0 0 0 0 0) (run_snapshot_path d u) (run_manifest_path d u)
                      (pr_is_tty req) (pr_baseline_mode req))
     end.
Proof.
  intros u d bytes Hu Ru Hv. unfold handle_publish_signed_snapshot_full.
  rewrite bool_decide_eq_true_2 by done. simpl. fold u bytes.
  destruct (filter _ (pp_pending st) !! u) as [pending|] eqn:Hp; [|intros [= <- <-]; done].
  apply map_lookup_filter_Some in Hp as [Hp Httl].
  set (st2 := with_pending _ _). destruct (check_signed_snapshot st2 pending req) as [[]|e] eqn:Hc.
  2: { intros [= <- <-]. split_and!; try done. simpl. by rewrite lookup_delete_eq. }
  destruct (publish_run_signed_bytes _ _ _ _ _) as [f r] eqn:Hpub.
  apply publish_run_inner_spec in Hpub as (Ho & _ & Hr); [|done..]. simpl in Ho, Hr.
  destruct r as [pub|e]; intros [= <- <-];
    (split; [simpl; by rewrite lookup_delete_eq|split; [done|]]); [|done].
  destruct Hr as (Hs & Hm & ->). apply check_signed_ok in Hc as (Hflags & Hb & Hsig & Ht).
  split; [done|]. split; [done|]. split; [exists pending; naive_solver|]. do 4 (split; [done|]).
  unfold get_run, record_run, set_run_baseline_mode, set_run_is_tty, update_run, insert_run. simpl.
  rewrite lookup_insert_eq. simpl. rewrite lookup_insert_eq. simpl. by rewrite lookup_insert_eq.
Qed.

(** C11: a signed snapshot is published only when it is the snapshot of inputs the
    daemon prepared less than ten minutes before, with the same flags, under a
    signature that authenticates its digest for that run by a trusted signer; then
    its bytes and its manifest are in place and the run is recorded.  Otherwise no
    run is recorded and the manifest of the run is left as it was.  Either way the
    prepared inputs are used up and no file of another run changes. *)
Theorem publish_signed_sound `{PubEnv, LockEnv, SqlEngine, TrustFs, Crypto, SnapshotCodec}
    (st st' : PrepState) (now : Z) (req : PublishSignedSnapshot) (reply : SnapshotReply) :
  let u := pr_run_uuid req in let d := pp_state_dir st in let bytes := pr_snapshot_bytes req in
  u <> "" -> relative u -> pr_schema_version req = IPC_SCHEMA_V5 ->
  handle_publish_signed_snapshot_full st now req = (st', reply) ->
  pp_pending st' !! u = None
  /\ (forall p, p ∉ run_files d u -> pp_files st' !! p = pp_files st !! p)
  /\ match reply with
     | SnapErr _ => pp_process_tree st' = pp_process_tree st
                    /\ pp_files st' !! run_manifest_path d u = pp_files st !! run_manifest_path d u
     | SnapOk manifest uuid =>
         uuid = u /\ manifest = run_manifest_path d u
         /\ (exists pending, pp_pending st !! u = Some pending
               /\ (now - pi_prepared_at pending < PENDING_SNAPSHOT_INPUT_TTL)%Z
               /\ pi_is_tty pending = pr_is_tty req /\ pi_baseline_mode pending = pr_baseline_mode req
               /\ build_snapshot_bytes (pi_input pending) = Ok bytes)
         /\ (exists snap b, decode bytes = Ok snap /\ run_uuid snap = Some u
               /\ cbor_snapshot_payload (new_snapshot_payload u (sha256_hex bytes) (generated_at_unix_ms snap)) = Ok b
               /\ Authentic b (pr_signature req) (pp_policy st))
         /\ is_trusted_rule_signer (pp_rule_store st) (sig_public_key_sha256 (pr_signature req))
              (sig_signer_kind (pr_signature req)) = Ok true
         /\ pp_files st' !! run_snapshot_path d u = Some bytes
         /\ pp_files st' !! run_manifest_path d u = Some (run_manifest_body d u bytes (Some (pr_signature req)))
         /\ get_run (pp_process_tree st') u
            = Some (mkRun u (mkToken 0 0 0 0 0 0 0 0) (run_snapshot_path d u) (run_manifest_path d u)
                      (pr_is_tty req) (pr_baseline_mode req))
     end.
Proof. apply publish_signed_spec. Qed.

(** ** A concrete run *)

Definition toy_pub : PubEnv := {|
  fs_fault _ _ := None;
  written_prefix _ := 0;
  getrandom := Some (N.of_nat <$> seq 0 16);
  unix_ms_now := 0%Z;
|}.

Definition toy_lock : LockEnv := {|
  json_from_str s := if bool_decide (s = "{}") then Some (JObject [("resolved", JString "https://npm.corp.example/x")]) else None;
  to_lowercase := to_ascii_lowercase;
  is_file p := bool_decide (p = "/home/me/project/package-lock.json");
  path_exists p := bool_decide (p = "/home/me/.git");
  lock_read p := if bool_decide (p = "/home/me/project/package-lock.json") then Some "{}" else None;
|}.

(** A signature that [toy_crypto] accepts for the sample snapshot. *)
Definition toy_snapshot_payload : string :=
  match @cbor_snapshot_payload toy_crypto
          (new_snapshot_payload "run-1" (@sha256_hex toy_crypto "built") 0) with
  | Ok b => b | Err _ => "" end.

Definition toy_snapshot_sig : SnapshotSignatureV1 :=
  mkSignature RULE_SIGNATURE_SCHEME_ECDSA_P256_SHA256 "tpm" "K" (@sha256_hex toy_crypto "K")
    ("K" +:+ toy_snapshot_payload) (@sha256_hex toy_crypto toy_snapshot_payload) 0.

Definition toy_prep : PrepState :=
  mkPrep [npm; workers] toy_store "/s" Production new_tree
    {[ "run-1" := mkPending sample_input true false 1000 ]} ∅.

Definition toy_request : PublishSignedSnapshot :=
  mkPublishSigned 5 "run-1" "built" toy_snapshot_sig true false.

Definition toy_publish : PrepState * SnapshotReply :=
  @handle_publish_signed_snapshot_full toy_pub toy_sql toy_fs toy_crypto toy_codec toy_prep 2000 toy_request.

Lemma publish_signed_sound_witness :
  toy_publish.2 = SnapOk "/s/runs/run-1.manifest" "run-1"
  /\ pp_files toy_publish.1 !! "/s/runs/run-1.cbor" = Some "built".
Proof.
  pose proof (@publish_signed_sound toy_pub toy_lock toy_sql toy_fs toy_crypto toy_codec toy_prep
    toy_publish.1 2000 toy_request toy_publish.2 ltac:(discriminate) eq_refl eq_refl
    ltac:(unfold toy_publish; by destruct (handle_publish_signed_snapshot_full _ _ _))) as (_ & _ & H).
  assert (toy_publish.2 = SnapOk "/s/runs/run-1.manifest" "run-1") as Hr by (vm_compute; reflexivity).
  rewrite Hr in H. split; [exact Hr|]. apply H.
Defined.

Definition toy_prepared : PrepState * SnapshotInputsReply :=
  @handle_prepare_snapshot_inputs_full toy_pub toy_lock toy_sql toy_fs toy_crypto toy_prep 3000
    "/home/me/project" false false.

Definition toy_inputs : SnapshotBuildInput :=
  match toy_prepared.2 with InputsOk i _ _ => i | InputsErr _ => sample_input end.

Lemma prepared_inputs_sound_witness :
  toy_prepared.2 = InputsOk toy_inputs false false
  /\ e_pattern <$> bi_lockfile_entries toy_inputs = ["npm.corp.example"]
  /\ wf_input toy_inputs.
Proof.
  assert (toy_prepared.2 = InputsOk toy_inputs false false) as Hr by (vm_compute; reflexivity).
  split; [exact Hr|]. split; [vm_compute; reflexivity|].
  pose proof (@prepared_inputs_sound toy_pub toy_lock toy_sql toy_fs toy_crypto toy_codec toy_prep
    toy_prepared.1 3000 "/home/me/project" false false toy_prepared.2 ltac:(by_decide)
    ltac:(unfold toy_prepared; by destruct (handle_prepare_snapshot_inputs_full _ _ _ _ _))) as (_ & _ & H).
  rewrite Hr in H. apply H.
Defined.

(** The user denies the registry the lockfile names. *)
Definition override_input : SnapshotBuildInput :=
  mkBuildInput "run-1" 0 [npm; workers] ∅ [mkEntry Deny UserDeny Exact "npm.corp.example" "no"]
    [lockfile_entry "/home/me/project/package-lock.json" "npm.corp.example"].

Lemma lockfile_hosts_outrank_user_denies_witness :
  evaluate_policy "npm.corp.example" None false (entries (build_snapshot override_input))
  = (VAllow, SrcCuratedAllow).
Proof.
  apply (lockfile_hosts_outrank_user_denies override_input
           (lockfile_entry "/home/me/project/package-lock.json" "npm.corp.example") None false).
  - split_and!; by_decide.
  - by_decide.
  - reflexivity.
  - reflexivity.
  - discriminate.
  - intros [Hl|[[_ Hm]|(b & Hb & _)]]; [by vm_compute in Hl|by vm_compute in Hm|discriminate].
  - intros d [[Hd _]|[Hd|Hd]] Ht.
    + apply elem_of_cons in Hd as [->|Hd]; [discriminate|].
      apply list_elem_of_singleton in Hd as ->. by vm_compute.
    + apply list_elem_of_singleton in Hd as ->. discriminate.
    + apply list_elem_of_singleton in Hd as ->. discriminate.
Defined.
