(* ===== verification/HookLoad.v ===== *)
(** * Loading the snapshot into a wrapped process

    [crates/guard-hook/src/snapshot.rs], in the production configuration (no test
    signer, no debug assertions).  The file system is the class [HookFs]; the
    metadata of the trust root is [TrustFs], as in the daemon.  The mapping of the
    snapshot file into memory, which nothing reads, is only its failure. *)

From S2P Require Import Prelude RustStr Policy TrustedSigners Signature.
From S2P Require Import Snapshot Paths RuleStore Lockfile Publish.

(** ** Data *)

Inductive LoadError : Type :=
| EnvUnset
| PathOutsideStateDir (canonical state_dir : string)
| OpenFailed (msg : string)
| NotRegularFile (path : string)
| ManifestParseFailed
| DigestMismatch (expected got : string)
| LSchemaMismatch (expected got : Z)
| LIo (msg : string)
| LCodec (msg : string)
| SnapshotSignatureMissing
| SnapshotSignatureMismatch (msg : string)
| SnapshotSignerUntrusted
| TrustedSignerManifestInvalid (msg : string).

Record LoadedSnapshot : Type := mkLoaded {
  ld_entries : list AllowlistEntry;
  ld_schema_version : Z;
  ld_snapshot_path : string;
}.

Class HookFs : Type := {
  getenv : string -> option string;
  canonicalize : string -> result string string;
  (** Open without following links; the rest is done on the open file. *)
  open_nofollow : string -> result unit string;
  file_is_regular : string -> result bool string;
  read_to_end : string -> result string string;
  mmap : string -> result unit string;
}.

(** The signature lines read so far, [ManifestSnapshotSignature] when complete. *)
Record SigAcc : Type := mkSigAcc {
  a_scheme : option string;
  a_signer_kind : option string;
  a_public_key_sha256 : option string;
  a_public_key_x963 : option string;
  a_signature_der : option string;
  a_signed_payload_sha256 : option string;
  a_created_at : option Z;
}.

Definition no_sig : SigAcc := mkSigAcc None None None None None None None.

(** ** Parsing *)

(** [decode_hex] of this crate: [None] is its unit error. *)
Definition decode_hex (s : string) : option string :=
  match TrustedSigners.decode_hex s with Ok b => Some b | Err _ => None end.

(** One iteration: the prefixes are tried in order, unknown lines are skipped. *)
Definition sig_line (a : SigAcc) (line : string) : result SigAcc LoadError :=
  match strip_prefix "snapshot_signature_scheme=" line with
  | Some v => Ok (mkSigAcc (Some v) (a_signer_kind a) (a_public_key_sha256 a) (a_public_key_x963 a)
                    (a_signature_der a) (a_signed_payload_sha256 a) (a_created_at a))
  | None =>
  match strip_prefix "snapshot_signer_kind=" line with
  | Some v => Ok (mkSigAcc (a_scheme a) (Some v) (a_public_key_sha256 a) (a_public_key_x963 a)
                    (a_signature_der a) (a_signed_payload_sha256 a) (a_created_at a))
  | None =>
  match strip_prefix "snapshot_public_key_sha256=" line with
  | Some v => Ok (mkSigAcc (a_scheme a) (a_signer_kind a) (Some v) (a_public_key_x963 a)
                    (a_signature_der a) (a_signed_payload_sha256 a) (a_created_at a))
  | None =>
  match strip_prefix "snapshot_public_key_x963=" line with
  | Some v =>
      let? b := ok_or (decode_hex v) ManifestParseFailed in
      Ok (mkSigAcc (a_scheme a) (a_signer_kind a) (a_public_key_sha256 a) (Some b)
            (a_signature_der a) (a_signed_payload_sha256 a) (a_created_at a))
  | None =>
  match strip_prefix "snapshot_signature_der=" line with
  | Some v =>
      let? b := ok_or (decode_hex v) ManifestParseFailed in
      Ok (mkSigAcc (a_scheme a) (a_signer_kind a) (a_public_key_sha256 a) (a_public_key_x963 a)
            (Some b) (a_signed_payload_sha256 a) (a_created_at a))
  | None =>
  match strip_prefix "snapshot_signed_payload_sha256=" line with
  | Some v => Ok (mkSigAcc (a_scheme a) (a_signer_kind a) (a_public_key_sha256 a) (a_public_key_x963 a)
                    (a_signature_der a) (Some v) (a_created_at a))
  | None =>
  match strip_prefix "snapshot_signature_created_at_unix_ms=" line with
  | Some v =>
      let? z := ok_or (parse_i64 v) ManifestParseFailed in
      Ok (mkSigAcc (a_scheme a) (a_signer_kind a) (a_public_key_sha256 a) (a_public_key_x963 a)
            (a_signature_der a) (a_signed_payload_sha256 a) (Some z))
  | None => Ok a
  end end end end end end end.

Fixpoint sig_lines (a : SigAcc) (ls : list string) : result SigAcc LoadError :=
  match ls with
  | [] => Ok a
  | line :: rest => let? a' := sig_line a line in sig_lines a' rest
  end.

Definition parse_manifest_signature (ls : list string) : result SnapshotSignatureV1 LoadError :=
  let? a := sig_lines no_sig ls in
  let? scheme := ok_or (a_scheme a) SnapshotSignatureMissing in
  let? kind := ok_or (a_signer_kind a) SnapshotSignatureMissing in
  let? sha := ok_or (a_public_key_sha256 a) SnapshotSignatureMissing in
  let? key := ok_or (a_public_key_x963 a) SnapshotSignatureMissing in
  let? der := ok_or (a_signature_der a) SnapshotSignatureMissing in
  let? payload := ok_or (a_signed_payload_sha256 a) SnapshotSignatureMissing in
  let? created := ok_or (a_created_at a) SnapshotSignatureMissing in
  Ok (mkSignature scheme kind key sha der payload created).

(** The path and digest lines and the signature of a manifest. *)
Definition parse_manifest (text : string) : result (string * string * SnapshotSignatureV1) LoadError :=
  match lines text with
  | path :: digest_line :: rest =>
      let? digest := ok_or (strip_prefix "digest=" digest_line) ManifestParseFailed in
      if negb (bool_decide (String.length digest = 64)) || negb (str_forallb is_ascii_hexdigit digest)
        then Err ManifestParseFailed
      else let? sg := parse_manifest_signature rest in Ok (path, digest, sg)
  | _ => Err ManifestParseFailed
  end.

(** ** Checking *)

Definition APP_NAME : string := "Stentorian Guard".

Definition path_starts_with (p base : string) : bool :=
  bool_decide (path_components base `prefix_of` path_components p).

Section Load.
Context `{HookFs, TrustFs, Crypto, SnapshotCodec}.

Definition well_known_state_dir : string :=
  match getenv "STT_GUARD_STATE_DIR" with
  | Some s => if negb (is_empty s) then s
              else match getenv "HOME" with
                   | Some home => path_join home ("Library/Application Support/" +:+ APP_NAME)
                   | None => "/__stt_guard_missing_home__"
                   end
  | None => match getenv "HOME" with
            | Some home => path_join home ("Library/Application Support/" +:+ APP_NAME)
            | None => "/__stt_guard_missing_home__"
            end
  end.

Definition verify_trusted_signer_manifest_path (path : string) : result unit LoadError :=
  let? meta := map_err TrustedSignerManifestInvalid (symlink_metadata path) in
  if negb (bool_decide (m_kind meta = RegularFile))
    then Err (TrustedSignerManifestInvalid "trusted signer manifest is not a regular file")
  else if unsafe_owner meta
    then Err (TrustedSignerManifestInvalid "trusted signer manifest has unsafe ownership or permissions")
  else
    let? parent := ok_or (path_parent path)
      (TrustedSignerManifestInvalid "trusted signer manifest has no parent directory") in
    let? parent_meta := map_err TrustedSignerManifestInvalid (symlink_metadata parent) in
    if negb (bool_decide (m_kind parent_meta = Directory)) || unsafe_owner parent_meta
      then Err (TrustedSignerManifestInvalid
                  "trusted signer manifest parent has unsafe ownership or permissions")
    else Ok tt.

Definition trusted_signer_manifest_contains (s : SnapshotSignatureV1) : result bool LoadError :=
  let path := trusted_rule_signers_path in
  let? _ := verify_trusted_signer_manifest_path path in
  let? contents := map_err TrustedSignerManifestInvalid (read_to_string path) in
  map_err (fun e => TrustedSignerManifestInvalid (show_manifest_error e))
    (trusted_signer_matches contents (sig_public_key_sha256 s) (sig_signer_kind s)
       (Some (sig_public_key_x963 s))).

Definition verify_loaded_signature (snapshot : Snapshot) (snapshot_sha256 : string)
    (signature : SnapshotSignatureV1) : result unit LoadError :=
  let? uuid := ok_or (run_uuid snapshot) SnapshotSignatureMissing in
  let payload := new_snapshot_payload uuid snapshot_sha256 (generated_at_unix_ms snapshot) in
  let? _ := map_err (fun e => SnapshotSignatureMismatch (show_signature_error e))
              (verify_snapshot_signature payload signature Production) in
  let? contained := trusted_signer_manifest_contains signature in
  if (contained : bool) then Ok tt else Err SnapshotSignerUntrusted.

(** A path that resolves to one below the state directory. *)
Definition under_state_dir (path state_dir : string) : result string LoadError :=
  let? canonical := map_err LIo (canonicalize path) in
  if negb (path_starts_with canonical state_dir) then Err (PathOutsideStateDir canonical state_dir)
  else Ok canonical.

(** The snapshot file: one open descriptor for the digest and the content. *)
Definition load_snapshot_file (snapshot_path manifest_digest : string) (sg : SnapshotSignatureV1)
  : result LoadedSnapshot LoadError :=
  let? _ := map_err (fun e => OpenFailed ("snapshot: " +:+ e)) (open_nofollow snapshot_path) in
  let? regular := map_err LIo (file_is_regular snapshot_path) in
  if negb regular then Err (NotRegularFile snapshot_path)
  else
    let? bytes := map_err LIo (read_to_end snapshot_path) in
    let computed := sha256_hex bytes in
    if negb (bool_decide (computed = manifest_digest))
      then Err (DigestMismatch manifest_digest computed)
    else
      let? snap := map_err (fun e => match e with
                                     | SchemaVersionMismatch expected got => LSchemaMismatch expected got
                                     | other => LCodec (show_snapshot_error other)
                                     end) (decode bytes) in
      let? _ := verify_loaded_signature snap computed sg in
      let? _ := map_err LIo (mmap snapshot_path) in
      Ok (mkLoaded (entries snap) (schema_version snap) snapshot_path).

Definition load_from_env : result LoadedSnapshot LoadError :=
  let? manifest_env := ok_or (getenv "STT_GUARD_SNAPSHOT_MANIFEST") EnvUnset in
  let? canonical := map_err LIo (canonicalize manifest_env) in
  let? state_dir := map_err LIo (canonicalize well_known_state_dir) in
  if negb (path_starts_with canonical state_dir) then Err (PathOutsideStateDir canonical state_dir)
  else
    let? _ := map_err (fun e => OpenFailed ("manifest: " +:+ e)) (open_nofollow canonical) in
    let? text := map_err LIo (read_to_end canonical) in
    if negb (utf8_valid text) then Err (LIo "stream did not contain valid UTF-8")
    else
      let? parsed := parse_manifest text in
      let '(snapshot_path_str, manifest_digest, sg) := parsed in
      let? snapshot_path := under_state_dir snapshot_path_str state_dir in
      load_snapshot_file snapshot_path manifest_digest sg.

(** ** What a loaded snapshot satisfies *)

Lemma trusted_contains_ok (sg : SnapshotSignatureV1) :
  trusted_signer_manifest_contains sg = Ok true ->
  exists contents, read_to_string trusted_rule_signers_path = Ok contents
    /\ verify_trusted_signer_manifest_path trusted_rule_signers_path = Ok tt
    /\ trusted_signer_matches contents (sig_public_key_sha256 sg) (sig_signer_kind sg)
         (Some (sig_public_key_x963 sg)) = Ok true.
Proof.
  unfold trusted_signer_manifest_contains.
  destruct (verify_trusted_signer_manifest_path _) as [[]|]; [|done].
  destruct (read_to_string _) as [contents|]; [|done]. simpl. intros Hm. exists contents.
  split_and!; try done. destruct (trusted_signer_matches _ _ _ _) as [b|]; [|done]. by injection Hm as ->.
Qed.

(** A snapshot and the signature that vouches for it. *)
Definition vouched (bytes : string) (snap : Snapshot) (sg : SnapshotSignatureV1) : Prop :=
  decode bytes = Ok snap
  /\ (exists u b, run_uuid snap = Some u
        /\ cbor_snapshot_payload (new_snapshot_payload u (sha256_hex bytes) (generated_at_unix_ms snap)) = Ok b
        /\ Authentic b sg Production)
  /\ exists contents, read_to_string trusted_rule_signers_path = Ok contents
       /\ verify_trusted_signer_manifest_path trusted_rule_signers_path = Ok tt
       /\ trusted_signer_matches contents (sig_public_key_sha256 sg) (sig_signer_kind sg)
            (Some (sig_public_key_x963 sg)) = Ok true.

Lemma verify_loaded_ok (snap : Snapshot) (digest : string) (sg : SnapshotSignatureV1) :
  verify_loaded_signature snap digest sg = Ok tt ->
  (exists u b, run_uuid snap = Some u
     /\ cbor_snapshot_payload (new_snapshot_payload u digest (generated_at_unix_ms snap)) = Ok b
     /\ Authentic b sg Production)
  /\ trusted_signer_manifest_contains sg = Ok true.
Proof.
  unfold verify_loaded_signature. destruct (run_uuid snap) as [u|]; [|done]. simpl.
  destruct (verify_snapshot_signature _ _ _) as [[]|] eqn:Hv; [|done]. simpl.
  destruct (trusted_signer_manifest_contains sg) as [[]|]; try done. intros _. split; [|done].
  apply verify_payload_ok in Hv as (_ & b & Hb & Ha). exists u, b. split_and!; try done.
  unfold canonical_snapshot_payload_bytes in Hb. by destruct (cbor_snapshot_payload _); simplify_eq/=.
Qed.

Lemma load_snapshot_file_ok (path digest : string) (sg : SnapshotSignatureV1) (s : LoadedSnapshot) :
  load_snapshot_file path digest sg = Ok s ->
  ld_snapshot_path s = path
  /\ exists bytes snap, read_to_end path = Ok bytes /\ sha256_hex bytes = digest
      /\ vouched bytes snap sg /\ ld_entries s = entries snap /\ ld_schema_version s = schema_version snap.
Proof.
  unfold load_snapshot_file. destruct (open_nofollow path) as [[]|]; [|done]. simpl.
  destruct (file_is_regular path) as [[]|]; try done. simpl.
  destruct (read_to_end path) as [bytes|] eqn:Hr; [|done]. simpl. case_bool_decide as Hd; [|done]. simpl.
  destruct (decode bytes) as [snap|] eqn:Hdec; [|done]. simpl.
  destruct (verify_loaded_signature _ _ _) as [[]|] eqn:Hv; [|done].
  destruct (mmap path) as [[]|]; [|done]. simpl. intros [= <-]. split; [done|]. exists bytes, snap.
  apply verify_loaded_ok in Hv as [Hsig Htr]. apply trusted_contains_ok in Htr. split_and!; done.
Qed.

End Load.

(** ** Printing and reading a manifest *)

Lemma pretty_N_head (n : N) : exists a r, pretty n = String a r /\ is_Some (digit_val a).
Proof.
  pose proof (digits_go_pretty n) as Hd. destruct (pretty n) as [|a r] eqn:Hp.
  - exfalso. injection Hd as Hd. assert (n = 0%N) as -> by lia. by vm_compute in Hp.
  - exists a, r. split; [done|]. simpl in Hd. by destruct (digit_val a).
Qed.

Lemma parse_i64_pretty (z : Z) : (I64_MIN <= z <= I64_MAX)%Z -> parse_i64 (pretty z) = Some z.
Proof.
  intros Hz.
  assert (forall n : N, (Z.of_N n <= I64_MAX)%Z -> parse_i64 (pretty n) = Some (Z.of_N n)) as Hn.
  { intros n Hn. destruct (pretty_N_head n) as (a & r & Hp & [d Hd]). pose proof (digits_go_pretty n) as Hg.
    unfold parse_i64. rewrite Hp in *.
    rewrite bool_decide_eq_false_2 by (intros ->; by vm_compute in Hd).
    rewrite bool_decide_eq_false_2 by (intros ->; by vm_compute in Hd).
    rewrite Hg. simpl. rewrite bool_decide_eq_true_2; [done|]. unfold I64_MIN, I64_MAX in *. lia. }
  destruct z as [|p|p].
  - by vm_compute.
  - apply (Hn (Npos p)). unfold I64_MAX in *. lia.
  - change (pretty (Zneg p)) with (String "-" (pretty (Npos p))). unfold parse_i64.
    rewrite bool_decide_eq_true_2 by done. destruct (pretty_N_head (Npos p)) as (a & r & Hp & _).
    rewrite digits_go_pretty. rewrite Hp. simpl. rewrite bool_decide_eq_true_2 by (unfold I64_MIN, I64_MAX in *; lia).
    done.
Qed.

(** Text without line breaks. *)
Definition clean (s : string) : Prop := no_char LF s = true /\ no_char CR s = true.

Lemma clean_app (s t : string) : clean s -> clean t -> clean (s +:+ t).
Proof.
  intros [? ?] [? ?]. unfold clean, no_char in *. rewrite !str_forallb_app. split; by apply andb_true_iff.
Qed.

Lemma clean_no_cr_end (s : string) : clean s -> no_cr_end s = true.
Proof.
  intros [_ Hc]. unfold no_cr_end. destruct (String.rev s) as [|a r] eqn:Hr; [done|].
  assert (s = String.rev r +:+ String a "") as -> by (by rewrite <- rev_cons_str, <- Hr, rev_involutive_str).
  unfold no_char in Hc. rewrite str_forallb_app in Hc. apply andb_true_iff in Hc as [_ Hc]. simpl in Hc.
  by rewrite andb_true_r in Hc.
Qed.

Lemma lines_unlines (l : list string) : Forall clean l -> lines (unlines l) = l.
Proof.
  induction 1 as [|x l Hx HF IH]; [done|]. simpl.
  change (nl +:+ unlines l) with (String LF (unlines l)).
  rewrite lines_app; [by rewrite IH|apply Hx|by apply clean_no_cr_end].
Qed.

Lemma clean_hex_digit (n : N) : (n < 16)%N -> forall s, clean s -> clean (String (hex_digit n) s).
Proof.
  intros Hn s [H1 H2].
  assert (hex_digit n <> LF /\ hex_digit n <> CR) as [? ?].
  { assert (Forall (fun k => hex_digit (N.of_nat k) <> LF /\ hex_digit (N.of_nat k) <> CR) (seq 0 16)) as HF by by_decide.
    rewrite Forall_forall in HF. rewrite <- (N2Nat.id n). apply HF. apply elem_of_seq. lia. }
  split; by apply no_char_cons.
Qed.

Lemma clean_hex_lower (s : string) : clean (hex_lower s).
Proof.
  induction s as [|b s IH]; [done|]. simpl. pose proof (N_ascii_bounded b) as Hb.
  apply clean_hex_digit; [|apply clean_hex_digit; [|done]].
  - unfold byte_val. rewrite N.shiftr_div_pow2. apply N.Div0.div_lt_upper_bound. simpl. lia.
  - change 15%N with (N.ones 4). rewrite N.land_ones. apply N.mod_lt. done.
Qed.

Lemma clean_pretty_N (n : N) : clean (pretty n).
Proof.
  pose proof (digits_go_pretty n) as Hd. revert Hd. generalize 0%Z. generalize (Z.of_N n).
  induction (pretty n) as [|a s IH]; intros z acc Hd; [done|]. simpl in Hd.
  destruct (digit_val a) as [d|] eqn:Ha; [|done]. destruct (IH _ _ Hd) as [H1 H2].
  split; apply no_char_cons; (split; [|done]); intros ->; by vm_compute in Ha.
Qed.

Lemma clean_pretty_Z (z : Z) : clean (pretty z).
Proof.
  destruct z as [|p|p]; [done|apply (clean_pretty_N (Npos p))|].
  change (pretty (Zneg p)) with ("-" +:+ pretty (Npos p)). apply clean_app; [done|apply clean_pretty_N].
Qed.

Lemma clean_signature_lines `{Crypto} (b : string) (sg : SnapshotSignatureV1) :
  Authentic b sg Production -> Forall clean (signature_lines sg).
Proof.
  intros [Hs Hk Hkey Hd _].
  assert (clean (sig_signer_kind sg)) as Hkind.
  { simpl in Hk. by repeat (apply orb_true_iff in Hk as [Hk|Hk]); apply bool_decide_eq_true in Hk as ->. }
  unfold signature_lines. rewrite Hs, <- Hkey, <- Hd.
  repeat constructor; try (apply clean_app; [done|]); try apply clean_hex_lower; try done; apply clean_pretty_Z.
Qed.

(** The signature lines read back as the signature. *)
Lemma parse_signature_lines (sg : SnapshotSignatureV1) :
  (I64_MIN <= sig_created_at_unix_ms sg <= I64_MAX)%Z ->
  parse_manifest_signature (signature_lines sg) = Ok sg.
Proof.
  intros Hz. destruct sg as [scheme kind key sha der payload created]. simpl in Hz.
  unfold parse_manifest_signature, signature_lines, sig_lines, sig_line, ok_or, decode_hex. simpl.
  rewrite !app_nil_l_str, !decode_hex_hex_lower. simpl. by rewrite parse_i64_pretty.
Qed.

Lemma length_sha256_hex `{Crypto} (b : string) :
  String.length (sha256 b) = 32 -> String.length (hex_lower (sha256 b)) = 64.
Proof. intros Hl. rewrite length_hex_lower, Hl. done. Qed.

Lemma hex_lower_hexdigits (s : string) : str_forallb is_ascii_hexdigit (hex_lower s) = true.
Proof.
  induction s as [|b s IH]; [done|]. simpl. rewrite IH, andb_true_r. apply andb_true_iff.
  split; destruct b as [[] [] [] [] [] [] [] []]; by vm_compute.
Qed.

(** The manifest the daemon writes reads back as its parts. *)
Lemma parse_manifest_body `{Crypto} (path bytes b : string) (sg : SnapshotSignatureV1) :
  clean path -> String.length (sha256 bytes) = 32 -> Authentic b sg Production ->
  (I64_MIN <= sig_created_at_unix_ms sg <= I64_MAX)%Z ->
  parse_manifest (manifest_body path (hex_lower (sha256 bytes)) (Some sg))
  = Ok (path, hex_lower (sha256 bytes), sg).
Proof.
  intros Hp Hl Ha Hz. unfold parse_manifest, manifest_body.
  rewrite lines_unlines by (constructor; [done|constructor;
    [apply clean_app; [done|apply clean_hex_lower]|by eapply clean_signature_lines]]).
  assert (strip_prefix "digest=" ("digest=" +:+ hex_lower (sha256 bytes)) = Some (hex_lower (sha256 bytes))) as ->
    by (by apply strip_prefix_Some). simpl ok_or. cbv iota beta.
  rewrite (length_sha256_hex _ Hl), hex_lower_hexdigits. simpl.
  by rewrite parse_signature_lines.
Qed.

(** ** Theorems *)

(** C5: the library holds only vouched rules: when loading succeeds, manifest and
    snapshot resolve to files below the state directory, the digest of the bytes
    read is the manifest's, the bytes decode to a snapshot of the current schema
    whose digest, run and time a production signer signed, the signer has a row
    with that very key in the root-owned trust file, and the entries in use are
    those of that snapshot. *)
Theorem load_from_env_sound `{HookFs, TrustFs, Crypto, SnapshotCodec} (s : LoadedSnapshot) :
  load_from_env = Ok s ->
  exists env manifest state_dir text path_line sg bytes snap,
    getenv "STT_GUARD_SNAPSHOT_MANIFEST" = Some env /\ canonicalize env = Ok manifest
    /\ canonicalize well_known_state_dir = Ok state_dir
    /\ path_components state_dir `prefix_of` path_components manifest
    /\ read_to_end manifest = Ok text /\ parse_manifest text = Ok (path_line, sha256_hex bytes, sg)
    /\ canonicalize path_line = Ok (ld_snapshot_path s)
    /\ path_components state_dir `prefix_of` path_components (ld_snapshot_path s)
    /\ read_to_end (ld_snapshot_path s) = Ok bytes
    /\ vouched bytes snap sg
    /\ ld_entries s = entries snap /\ schema_version snap = SCHEMA_V2.
Proof.
  unfold load_from_env. destruct (getenv "STT_GUARD_SNAPSHOT_MANIFEST") as [env|]; [|done]. simpl.
  destruct (canonicalize env) as [manifest|] eqn:Hc1; [|done]. simpl.
  destruct (canonicalize well_known_state_dir) as [state_dir|] eqn:Hc2; [|done]. simpl.
  destruct (path_starts_with manifest state_dir) eqn:Hp1; [|done]. simpl.
  destruct (open_nofollow manifest) as [[]|]; [|done]. simpl.
  destruct (read_to_end manifest) as [text|] eqn:Hr; [|done]. simpl.
  destruct (utf8_valid text); [|done]. simpl.
  destruct (parse_manifest text) as [[[path_line digest] sg]|] eqn:Hm; [|done].
  unfold under_state_dir. destruct (canonicalize path_line) as [path|] eqn:Hc3; [|done]. simpl.
  destruct (path_starts_with path state_dir) eqn:Hp2; [|done]. simpl. intros Hl.
  apply load_snapshot_file_ok in Hl as (Hpath & bytes & snap & Hb & Hd & Hv & He & _).
  rewrite Hpath. exists env, manifest, state_dir, text, path_line, sg, bytes, snap.
  unfold path_starts_with in *. bool_split. rewrite Hd. split_and!; try done.
  destruct Hv as [Hdec _]. unfold decode in Hdec. destruct (cbor_decode_snapshot bytes); [|done].
  simpl in Hdec. case_bool_decide; [|done]. by injection Hdec as <-.
Qed.

(** The two files of a run, and a trusted signer: the library loads the snapshot. *)
Lemma run_files_load `{HookFs, TrustFs, Crypto, SnapshotCodec}
    (d u bytes : string) (sg : SnapshotSignatureV1) (snap : Snapshot) (f' : Files) :
  f' !! run_snapshot_path d u = Some bytes ->
  f' !! run_manifest_path d u = Some (run_manifest_body d u bytes (Some sg)) ->
  clean (run_snapshot_path d u) ->
  (forall b, String.length (sha256 b) = 32) ->
  (I64_MIN <= sig_created_at_unix_ms sg <= I64_MAX)%Z ->
  vouched bytes snap sg ->
  getenv "STT_GUARD_SNAPSHOT_MANIFEST" = Some (run_manifest_path d u) ->
  well_known_state_dir = d ->
  (forall p, p = d \/ p ∈ run_files d u -> canonicalize p = Ok p) ->
  (forall p c, f' !! p = Some c -> open_nofollow p = Ok tt /\ file_is_regular p = Ok true
                                   /\ read_to_end p = Ok c /\ mmap p = Ok tt) ->
  (forall c, f' !! run_manifest_path d u = Some c -> utf8_valid c = true) ->
  (forall p, p ∈ run_files d u -> path_starts_with p d = true) ->
  load_from_env = Ok (mkLoaded (entries snap) (schema_version snap) (run_snapshot_path d u)).
Proof.
  intros Hs Hm Hcl Hsha Hz (Hdec & (uuid & b & Huuid & Hb & Ha) & (contents & Hrd & Hvt & Htm)) Henv Hdir Hcan Hfs Hutf Hst.
  destruct (Hfs _ _ Hs) as (Hs1 & Hs2 & Hs3 & Hs4). destruct (Hfs _ _ Hm) as (Hm1 & _ & Hm3 & _).
  pose proof (Hutf _ Hm) as Hm5.
  assert (run_manifest_path d u ∈ run_files d u /\ run_snapshot_path d u ∈ run_files d u) as [Hin1 Hin2]
    by (unfold run_files; set_solver).
  unfold load_from_env. rewrite Henv. simpl. rewrite Hcan by auto. simpl. rewrite Hdir, Hcan by auto. simpl.
  rewrite Hst by done. simpl. rewrite Hm1. simpl. rewrite Hm3. simpl. rewrite Hm5. simpl.
  unfold run_manifest_body. rewrite (parse_manifest_body _ _ b) by done.
  unfold under_state_dir. rewrite Hcan by auto. simpl. rewrite Hst by done. simpl.
  unfold load_snapshot_file. rewrite Hs1. simpl. rewrite Hs2. simpl. rewrite Hs3. simpl.
  unfold sha256_hex. rewrite bool_decide_eq_true_2 by done. simpl. rewrite Hdec. simpl.
  unfold verify_loaded_signature. rewrite Huuid. simpl.
  assert (verify_snapshot_signature (new_snapshot_payload uuid (hex_lower (sha256 bytes))
            (generated_at_unix_ms snap)) sg Production = Ok tt) as ->.
  { apply verify_payload_ok. split; [done|]. exists b. split; [|done].
    unfold canonical_snapshot_payload_bytes. unfold sha256_hex in Hb. by rewrite Hb. }
  simpl. unfold trusted_signer_manifest_contains. rewrite Hvt, Hrd. simpl. rewrite Htm. simpl. by rewrite Hs4.
Qed.

(** C13: what the daemon publishes, the library loads: after a successful write of
    signed bytes, a process whose files are those of the daemon, with no links in
    the paths and a manifest that is text, and which trusts the signer, loads exactly the entries of the
    snapshot, from the published path. *)
Theorem published_run_loads `{PubEnv, HookFs, TrustFs, Crypto, SnapshotCodec}
    (d u bytes : string) (sg : SnapshotSignatureV1) (snap : Snapshot) (f f' : Files) (pub : PublishedSnapshot) :
  u <> "" -> relative u -> clean (run_snapshot_path d u) ->
  (forall b, String.length (sha256 b) = 32) ->
  (I64_MIN <= sig_created_at_unix_ms sg <= I64_MAX)%Z ->
  publish_run_signed_bytes d bytes u sg f = (f', Ok pub) ->
  vouched bytes snap sg ->
  getenv "STT_GUARD_SNAPSHOT_MANIFEST" = Some (run_manifest_path d u) ->
  well_known_state_dir = d ->
  (forall p, p = d \/ p ∈ run_files d u -> canonicalize p = Ok p) ->
  (forall p c, f' !! p = Some c -> open_nofollow p = Ok tt /\ file_is_regular p = Ok true
                                   /\ read_to_end p = Ok c /\ mmap p = Ok tt) ->
  (forall c, f' !! run_manifest_path d u = Some c -> utf8_valid c = true) ->
  (forall p, p ∈ run_files d u -> path_starts_with p d = true) ->
  load_from_env = Ok (mkLoaded (entries snap) (schema_version snap) (run_snapshot_path d u)).
Proof.
  intros Hu Ru Hcl Hsha Hz Hpub. apply publish_run_inner_spec in Hpub as (_ & _ & Hs & Hm & _); [|done..].
  by apply run_files_load.
Qed.

(** ** A concrete run *)

Definition pad32 (s : string) : string := str_take 32 (s +:+ "0123456789abcdef0123456789abcdef").

Definition crypto32 : Crypto := {|
  sha256 := pad32;
  cbor_rule_payload := @cbor_rule_payload toy_crypto;
  cbor_snapshot_payload := @cbor_snapshot_payload toy_crypto;
  cbor_management_payload := @cbor_management_payload toy_crypto;
  VerifyingKey := string;
  EcdsaSignature := string;
  from_sec1_bytes := @from_sec1_bytes toy_crypto;
  from_der := @from_der toy_crypto;
  ecdsa_verify := @ecdsa_verify toy_crypto;
|}.

Lemma pad32_length (s : string) : String.length (pad32 s) = 32.
Proof. unfold pad32. rewrite length_str_take, length_app_str.
  apply Nat.min_l, Nat.le_add_l. Qed.

Definition run_payload : string :=
  match @cbor_snapshot_payload toy_crypto
          (new_snapshot_payload "run-1" (@sha256_hex crypto32 "built") 0) with
  | Ok b => b | Err _ => "" end.

Definition run_sig : SnapshotSignatureV1 :=
  mkSignature RULE_SIGNATURE_SCHEME_ECDSA_P256_SHA256 "tpm" "K" (@sha256_hex crypto32 "K")
    ("K" +:+ run_payload) (@sha256_hex crypto32 run_payload) (-5).

Definition run_trust : TrustFs := {|
  symlink_metadata := @symlink_metadata toy_fs;
  read_to_string _ := Ok (@sha256_hex crypto32 "K" +:+ String TAB ("tpm" +:+ String TAB
                            (hex_lower "K" +:+ String LF "")));
|}.

Definition published : Files * result PublishedSnapshot string :=
  @publish_run_signed_bytes toy_pub crypto32 "/s" "built" "run-1" run_sig ∅.

Definition run_fs : HookFs := {|
  getenv n := if bool_decide (n = "STT_GUARD_SNAPSHOT_MANIFEST") then Some "/s/runs/run-1.manifest"
              else if bool_decide (n = "STT_GUARD_STATE_DIR") then Some "/s" else None;
  canonicalize p := Ok p;
  open_nofollow _ := Ok tt;
  file_is_regular _ := Ok true;
  read_to_end p := match published.1 !! p with Some c => Ok c | None => Err "ENOENT" end;
  mmap _ := Ok tt;
|}.

Definition run_loaded : LoadedSnapshot :=
  mkLoaded (entries (build_snapshot sample_input)) SCHEMA_V2 "/s/runs/run-1.cbor".

Lemma run_vouched : @vouched run_trust crypto32 toy_codec "built" (build_snapshot sample_input) run_sig.
Proof.
  split_and!; [by vm_compute| |].
  - exists "run-1", run_payload. split_and!; [by vm_compute|by vm_compute|].
    constructor; try by vm_compute. exists "K", ("K" +:+ run_payload). split_and!; by vm_compute.
  - exists (@sha256_hex crypto32 "K" +:+ String TAB ("tpm" +:+ String TAB (hex_lower "K" +:+ String LF ""))).
    split; [reflexivity|]. split; vm_compute; reflexivity.
Qed.

Lemma run_manifest_text :
  match published.1 !! run_manifest_path "/s" "run-1" with Some c => utf8_valid c | None => true end = true.
Proof. vm_compute. reflexivity. Qed.

Lemma published_run_loads_witness :
  @load_from_env run_fs run_trust crypto32 toy_codec = Ok run_loaded.
Proof.
  apply (@published_run_loads toy_pub run_fs run_trust crypto32 toy_codec "/s" "run-1" "built" run_sig
           (build_snapshot sample_input) ∅ published.1 (mkPublished "/s/runs/run-1.cbor" (hex_lower (pad32 "built")))).
  - discriminate.
  - reflexivity.
  - by vm_compute.
  - exact pad32_length.
  - by vm_compute.
  - vm_compute. reflexivity.
  - exact run_vouched.
  - reflexivity.
  - reflexivity.
  - reflexivity.
  - intros p c Hp. split_and!; [reflexivity|reflexivity| |reflexivity].
    simpl. by rewrite Hp.
  - intros c Hc. pose proof run_manifest_text as Ht. rewrite Hc in Ht. exact Ht.
  - intros p Hp. revert p Hp. apply Forall_forall. by_decide.
Defined.

Lemma load_from_env_sound_witness :
  exists bytes snap sg, @vouched run_trust crypto32 toy_codec bytes snap sg
    /\ ld_entries run_loaded = entries snap.
Proof.
  destruct (@load_from_env_sound run_fs run_trust crypto32 toy_codec run_loaded)
    as (env & man & sd & text & pl & sg & bytes & snap & _ & _ & _ & _ & _ & _ & _ & _ & _ & Hv & He & _).
  - vm_compute. reflexivity.
  - exists bytes, snap, sg. split; [exact Hv|exact He].
Defined.
