(* ===== verification/RustUtf8.v ===== *)
(** * Lossy UTF-8 decoding and character boundaries

    [String::from_utf8_lossy] ([core::str::lossy]) and the facts on character
    boundaries that slicing a [str] relies on. *)

From S2P Require Import Prelude RustStr.

(** ** One character *)

(** The second byte of a three- or four-byte sequence, by its first byte. *)
Definition second3 (a b : ascii) : bool :=
  if bool_decide (byte_val a = 224%N) then byte_in 160 191 b
  else if bool_decide (byte_val a = 237%N) then byte_in 128 159 b
  else is_cont b.

Definition second4 (a b : ascii) : bool :=
  if bool_decide (byte_val a = 240%N) then byte_in 144 191 b
  else if bool_decide (byte_val a = 244%N) then byte_in 128 143 b
  else is_cont b.

Definition is_cont_at (i : nat) (s : string) : bool :=
  match String.get i s with Some c => is_cont c | None => false end.

(** Whether the string starts with a character, and the bytes it takes; an
    ill-formed start takes the longest prefix that could have begun one. *)
Definition utf8_step (s : string) : bool * nat :=
  match s with
  | EmptyString => (true, 0)
  | String a s1 =>
      let second p := match s1 with String b _ => p b | EmptyString => false end in
      if byte_in 0 127 a then (true, 1)
      else if byte_in 194 223 a then (if second is_cont then (true, 2) else (false, 1))
      else if byte_in 224 239 a then
        if negb (second (second3 a)) then (false, 1)
        else if is_cont_at 1 s1 then (true, 3) else (false, 2)
      else if byte_in 240 244 a then
        if negb (second (second4 a)) then (false, 1)
        else if negb (is_cont_at 1 s1) then (false, 2)
        else if is_cont_at 2 s1 then (true, 4) else (false, 3)
      else (false, 1)
  end.

(** U+FFFD. *)
Definition REPLACEMENT : string :=
  String (ascii_of_N 239) (String (ascii_of_N 191) (String (ascii_of_N 189) "")).

Fixpoint lossy_go (fuel : nat) (s : string) : string :=
  match fuel, s with
  | S fuel', String _ _ =>
      let '(ok, n) := utf8_step s in
      (if ok then str_take n s else REPLACEMENT) +:+ lossy_go fuel' (str_drop n s)
  | _, _ => ""
  end.

Definition from_utf8_lossy (s : string) : string := lossy_go (String.length s) s.

(** ** Characters of a valid string *)

Lemma byte_in_true (lo hi : N) (a : ascii) : byte_in lo hi a = true <-> (lo <= byte_val a <= hi)%N.
Proof. unfold byte_in. rewrite andb_true_iff, !bool_decide_eq_true. done. Qed.

Lemma byte_in_false (lo hi : N) (a : ascii) :
  byte_in lo hi a = false <-> (byte_val a < lo \/ hi < byte_val a)%N.
Proof. rewrite <- not_true_iff_false, byte_in_true. lia. Qed.

(** Case analysis on every range test of one byte, dropping impossible cases. *)
Ltac byte_cases a :=
  repeat (match goal with
  | |- context [byte_in ?l ?h a] =>
      let H := fresh "Hb" in destruct (byte_in l h a) eqn:H;
      [apply byte_in_true in H | apply byte_in_false in H]
  | |- context [bool_decide (byte_val a = ?n)] =>
      let H := fresh "Hb" in destruct (decide (byte_val a = n)) as [H|H];
      [rewrite (bool_decide_eq_true_2 _ H) | rewrite (bool_decide_eq_false_2 _ H)]
  end; try (exfalso; lia)).

Lemma utf8_valid_step (s : string) :
  utf8_valid s = fst (utf8_step s) && utf8_valid (str_drop (snd (utf8_step s)) s).
Proof.
  destruct s as [|a s]; [done|]. cbn [utf8_valid]. unfold utf8_step, is_cont_at, second3, second4.
  byte_cases a; try (destruct s as [|b [|c [|d s]]]; done);
    destruct s as [|b s]; try done; destruct s as [|c s]; try destruct s as [|d s];
    cbn -[utf8_valid byte_in is_cont];
    repeat match goal with
    | |- context [is_cont ?x] => destruct (is_cont x)
    | |- context [byte_in ?l ?h ?x] => destruct (byte_in l h x)
    end; cbn -[utf8_valid]; reflexivity.
Qed.

Lemma utf8_step_length (s : string) :
  s <> "" -> 1 <= snd (utf8_step s) <= 4 /\ snd (utf8_step s) <= String.length s.
Proof.
  intros Hs. destruct s as [|a [|b [|c [|d s]]]]; [done|..]; unfold utf8_step, is_cont_at; simpl;
    repeat case_match; simpl; try lia; simpl in *; try done.
Qed.

(** A whole character in front does not change validity. *)
Lemma utf8_step_take (s t : string) (n : nat) :
  s <> "" -> utf8_step s = (true, n) -> utf8_step (str_take n s +:+ t) = (true, n).
Proof.
  intros Hs. destruct s as [|a [|b [|c [|d s]]]]; [done|..]; unfold utf8_step, is_cont_at; cbn -[byte_in is_cont];
    destruct (byte_in 0 127 a) eqn:E1; [intros [= <-]; simpl; by rewrite E1| |intros [= <-]; simpl; by rewrite E1|
      |intros [= <-]; simpl; by rewrite E1| |intros [= <-]; simpl; by rewrite E1|];
    destruct (byte_in 194 223 a) eqn:E2; try (repeat case_match; discriminate);
    try (destruct (is_cont b) eqn:E3; intros [= <-]; simpl; by rewrite E1, E2, E3);
    destruct (byte_in 224 239 a) eqn:E4; try (repeat case_match; discriminate);
    try (destruct (second3 a b) eqn:E5, (is_cont c) eqn:E6; intros [= <-]; simpl; by rewrite E1, E2, E4, E5; simpl; rewrite E6);
    destruct (byte_in 240 244 a) eqn:E7; try (repeat case_match; discriminate);
    destruct (second4 a b) eqn:E8, (is_cont c) eqn:E9, (is_cont d) eqn:E10; intros [= <-]; simpl;
      rewrite E1, E2, E4, E7, E8; simpl; by rewrite E9, E10.
Qed.

Lemma str_drop_length (n : nat) (s : string) : String.length (str_drop n s) = String.length s - n.
Proof.
  revert s. induction n as [|n IH]; intros s; [simpl; lia|]. destruct s as [|a s]; [done|]. apply IH.
Qed.

Lemma str_drop_take_app (n : nat) (s t : string) :
  n <= String.length s -> str_drop n (str_take n s +:+ t) = t.
Proof.
  intros Hn. rewrite <- (str_drop_app (str_take n s) t) at 2. by rewrite length_str_take, Nat.min_l.
Qed.

(** Induction over the characters of a string. *)
Lemma utf8_ind (P : string -> Prop) :
  P "" -> (forall s, s <> "" -> P (str_drop (snd (utf8_step s)) s) -> P s) -> forall s, P s.
Proof.
  intros H0 Hs s. remember (String.length s) as n eqn:Hn. revert s Hn.
  induction n as [n IH] using lt_wf_ind. intros s ->. destruct (decide (s = "")) as [->|Hne]; [done|].
  apply Hs; [done|]. destruct (utf8_step_length s Hne) as [[H1 _] H2].
  eapply IH; [|done]. rewrite str_drop_length. lia.
Qed.

Lemma utf8_valid_inv (s : string) :
  utf8_valid s = true ->
  fst (utf8_step s) = true /\ utf8_valid (str_drop (snd (utf8_step s)) s) = true.
Proof. rewrite utf8_valid_step. by intros [? ?]%andb_true_iff. Qed.

Lemma utf8_valid_app (s t : string) : utf8_valid s = true -> utf8_valid (s +:+ t) = utf8_valid t.
Proof.
  induction s as [|s Hne IH] using utf8_ind; [done|]. intros [Hok Hrest]%utf8_valid_inv.
  destruct (utf8_step s) as [ok n] eqn:Hst. simpl in *. subst ok.
  rewrite <- (IH Hrest). rewrite <- (str_take_drop n s) at 1. rewrite app_assoc_str, utf8_valid_step.
  rewrite utf8_step_take by done. simpl.
  destruct (utf8_step_length s Hne) as [_ Hl]. rewrite Hst in Hl. simpl in Hl.
  by rewrite str_drop_take_app.
Qed.

Lemma utf8_step_char (s : string) :
  s <> "" -> fst (utf8_step s) = true -> utf8_valid (str_take (snd (utf8_step s)) s) = true.
Proof.
  intros Hne Hok. destruct (utf8_step s) as [ok n] eqn:Hst. simpl in *. subst ok.
  pose proof (utf8_step_take s "" n Hne Hst) as Ht. rewrite app_nil_r_str in Ht.
  rewrite utf8_valid_step, Ht. simpl.
  destruct (utf8_step_length s Hne) as [_ Hl]. rewrite Hst in Hl. simpl in Hl.
  rewrite <- (app_nil_r_str (str_take n s)). by rewrite str_drop_take_app.
Qed.

(** ** Lossy decoding gives valid text and leaves valid text alone *)

Lemma lossy_go_valid (fuel : nat) (s : string) : utf8_valid (lossy_go fuel s) = true.
Proof.
  revert s. induction fuel as [|fuel IH]; intros s; [done|]. destruct s as [|a s]; [done|].
  cbn [lossy_go]. destruct (utf8_step (String a s)) as [ok n] eqn:Hst. destruct ok.
  - rewrite utf8_valid_app; [apply IH|].
    pose proof (utf8_step_char (String a s)) as Hc. rewrite Hst in Hc. by apply Hc.
  - rewrite utf8_valid_app; [apply IH|]. done.
Qed.

Lemma lossy_go_id (s : string) (fuel : nat) :
  String.length s <= fuel -> utf8_valid s = true -> lossy_go fuel s = s.
Proof.
  revert fuel. induction s as [|s Hne IH] using utf8_ind; intros fuel Hf; [by destruct fuel|].
  intros [Hok Hrest]%utf8_valid_inv. destruct (utf8_step_length s Hne) as [[H1 _] H2].
  destruct fuel as [|fuel]; [destruct s; [done|simpl in Hf; lia]|].
  destruct (utf8_step s) as [ok n] eqn:Hst. simpl in *. subst ok.
  destruct s as [|a s]; [done|]. cbn [lossy_go]. rewrite Hst.
  rewrite IH; [by rewrite str_take_drop| |done]. rewrite str_drop_length. lia.
Qed.

Lemma from_utf8_lossy_valid (s : string) : utf8_valid (from_utf8_lossy s) = true.
Proof. apply lossy_go_valid. Qed.

Lemma from_utf8_lossy_id (s : string) : utf8_valid s = true -> from_utf8_lossy s = s.
Proof. by apply lossy_go_id. Qed.

(** ** Character boundaries *)

Lemma get_drop (n i : nat) (s : string) : String.get i (str_drop n s) = String.get (n + i) s.
Proof.
  revert s. induction n as [|n IH]; intros s; [done|]. destruct s as [|a s]; [by destruct i|]. apply IH.
Qed.

Lemma utf8_first_not_cont (a : ascii) (s : string) :
  utf8_valid (String a s) = true -> is_cont a = false.
Proof.
  intros [Hok _]%utf8_valid_inv. revert Hok. unfold utf8_step, is_cont. byte_cases a; repeat case_match; done.
Qed.

(** The bytes of a character after its first are continuation bytes. *)
Lemma utf8_inside (s : string) (i : nat) :
  fst (utf8_step s) = true -> 0 < i < snd (utf8_step s) ->
  exists c, String.get i s = Some c /\ is_cont c = true.
Proof.
  assert (forall a b, second3 a b = true -> is_cont b = true) as H3.
  { intros a b. unfold second3, is_cont. byte_cases a; rewrite ?byte_in_true; lia. }
  assert (forall a b, second4 a b = true -> is_cont b = true) as H4.
  { intros a b. unfold second4, is_cont. byte_cases a; rewrite ?byte_in_true; lia. }
  destruct s as [|a s]; [simpl; lia|]. unfold utf8_step, is_cont_at.
  destruct (byte_in 0 127 a); [simpl; lia|].
  destruct (byte_in 194 223 a);
    [destruct s as [|b s]; [simpl; lia|]; destruct (is_cont b) eqn:Hb; simpl; intros ? Hi; [|lia];
     destruct i as [|[|i]]; [lia| |lia]; by exists b|].
  destruct s as [|b s]; [destruct (byte_in 224 239 a), (byte_in 240 244 a); simpl; lia|].
  destruct (byte_in 224 239 a).
  { destruct (second3 a b) eqn:E; simpl; [|lia]. destruct s as [|c s]; simpl; [lia|].
    destruct (is_cont c) eqn:Hc; simpl; [|lia]. intros _ Hi.
    destruct i as [|[|[|i]]]; [lia|exists b; eauto|exists c; eauto|lia]. }
  destruct (byte_in 240 244 a); [|simpl; lia].
  destruct (second4 a b) eqn:E; simpl; [|lia]. destruct s as [|c s]; simpl; [lia|].
  destruct (is_cont c) eqn:Hc; simpl; [|lia]. destruct s as [|d s]; simpl; [lia|].
  destruct (is_cont d) eqn:Hd; simpl; [|lia]. intros _ Hi.
  destruct i as [|[|[|[|i]]]]; [lia|exists b; eauto|exists c; eauto|exists d; eauto|lia].
Qed.

(** A boundary of a valid string is the start of a character or the end. *)
Lemma boundary_step (s : string) (i : nat) :
  s <> "" -> utf8_valid s = true -> 0 < i -> is_char_boundary s i = true ->
  snd (utf8_step s) <= i /\ is_char_boundary (str_drop (snd (utf8_step s)) s) (i - snd (utf8_step s)) = true.
Proof.
  intros Hne [Hok Hrest]%utf8_valid_inv Hi. unfold is_char_boundary. rewrite bool_decide_eq_false_2 by lia.
  intros Hb. assert (snd (utf8_step s) <= i) as Hle.
  { destruct (decide (i < snd (utf8_step s))) as [Hlt|]; [|lia].
    destruct (utf8_inside s i Hok) as (c & Hc & Hcc); [lia|]. by rewrite Hc, Hcc in Hb. }
  split; [done|]. destruct (decide (i - snd (utf8_step s) = 0)) as [Hz|Hz];
    [by rewrite bool_decide_eq_true_2|rewrite (bool_decide_eq_false_2 _ Hz)]. rewrite get_drop.
  replace (snd (utf8_step s) + (i - snd (utf8_step s))) with i by lia.
  destruct (String.get i s); [done|]. apply bool_decide_eq_true in Hb. apply bool_decide_eq_true.
  rewrite str_drop_length. lia.
Qed.

Lemma str_take_add (n m : nat) (s : string) :
  str_take (n + m) s = str_take n s +:+ str_take m (str_drop n s).
Proof.
  revert s. induction n as [|n IH]; intros s; [done|]. destruct s as [|a s]; [by destruct m|].
  simpl. rewrite app_cons_str. by rewrite <- IH.
Qed.

(** Slicing a valid string at a boundary gives a valid string. *)
Lemma utf8_valid_take (s : string) (i : nat) :
  utf8_valid s = true -> is_char_boundary s i = true -> utf8_valid (str_take i s) = true.
Proof.
  revert i. induction s as [|s Hne IH] using utf8_ind; intros i Hv Hb; [by destruct i|].
  destruct (decide (i = 0)) as [->|Hi]; [done|].
  destruct (boundary_step s i Hne Hv) as [Hle Hb']; [lia|done|].
  pose proof Hv as [Hok Hrest]%utf8_valid_inv.
  replace i with (snd (utf8_step s) + (i - snd (utf8_step s))) by lia.
  rewrite str_take_add, utf8_valid_app; [by apply IH|by apply utf8_step_char].
Qed.

(** A boundary is never more than three bytes back. *)
Lemma boundary_near (s : string) (i : nat) :
  utf8_valid s = true -> i <= String.length s ->
  exists j, j <= i /\ i <= j + 3 /\ is_char_boundary s j = true.
Proof.
  revert i. induction s as [|s Hne IH] using utf8_ind; intros i Hv Hi.
  { exists 0. simpl in Hi. split_and!; [lia|lia|done]. }
  pose proof Hv as [Hok Hrest]%utf8_valid_inv. destruct (utf8_step_length s Hne) as [[H1 H4] H2].
  destruct (decide (i < snd (utf8_step s))); [exists 0; split_and!; [lia|lia|done]|].
  destruct (IH (i - snd (utf8_step s))) as (j & Hj1 & Hj2 & Hjb); [done|rewrite str_drop_length; lia|].
  exists (snd (utf8_step s) + j). split_and!; [lia|lia|]. revert Hjb. unfold is_char_boundary.
  rewrite (bool_decide_eq_false_2 (snd (utf8_step s) + j = 0)) by lia. rewrite get_drop.
  destruct (decide (j = 0)) as [Hz|Hz]; [rewrite (bool_decide_eq_true_2 _ Hz)|rewrite (bool_decide_eq_false_2 _ Hz)].
  - intros _. subst j. rewrite Nat.add_0_r.
    destruct (String.get (snd (utf8_step s)) s) as [c|] eqn:Hg.
    + rewrite <- (Nat.add_0_r (snd (utf8_step s))), <- get_drop in Hg.
      destruct (str_drop (snd (utf8_step s)) s) as [|c' r] eqn:Hd; [done|]. simpl in Hg. injection Hg as ->.
      by rewrite (utf8_first_not_cont c r).
    + rewrite <- (Nat.add_0_r (snd (utf8_step s))), <- get_drop in Hg.
      pose proof (str_drop_length (snd (utf8_step s)) s) as Hl.
      destruct (str_drop (snd (utf8_step s)) s); [|done]. apply bool_decide_eq_true. simpl in Hl. lia.
  - destruct (String.get _ s); [done|]. intros Hl%bool_decide_eq_true. apply bool_decide_eq_true.
    rewrite str_drop_length in Hl. lia.
Qed.
