(* ===== verification/EnvFilter.v ===== *)
(** * Environment variables: what is recorded, what is hidden, what must propagate

    [crates/guard-core/src/env_filter.rs] with its two users, the hook's
    [pm_env_filter.rs] and the daemon's [env_capture.rs], and the hook's [envp.rs]
    and [env_scrub.rs].  An environment block is [None] (a null pointer) or the list
    of its entries before the terminating null, each a C string (its bytes before
    the NUL).  Names are those of the macOS build. *)

From S2P Require Import Prelude RustStr RustUtf8.

(** ** env_filter.rs *)

Definition PM_ENV_PREFIXES : list string :=
  ["npm_"; "PIP_"; "VIRTUAL_ENV"; "CARGO_"; "BUNDLE_"; "GEM_HOME"; "GOPATH"; "GOBIN"; "GOPROXY";
   "GOMODCACHE"; "GOROOT"; "GOFLAGS"; "GONOSUMCHECK"; "GONOSUMDB"; "GONOPROXY"; "GOPRIVATE";
   "MIX_"; "HEX_"; "COMPOSER_"].

Definition SECRET_DENYLIST : list string :=
  ["npm_config_authToken"; "npm_config_password"; "npm_config_email"; "npm_config__auth";
   "PIP_INDEX_URL"; "PIP_EXTRA_INDEX_URL"; "BUNDLE_GITHUB__COM"; "BUNDLE_GEMS__CONTRIBSYS__COM";
   "CARGO_REGISTRY_TOKEN"; "COMPOSER_AUTH"].

Definition SECRET_SUBSTRING_PATTERNS : list string :=
  ["TOKEN"; "PASSWORD"; "SECRET"; "PASSWD"; "APIKEY"; "API_KEY"].

Definition is_secret_key (key : string) : bool :=
  if existsb (fun d => eq_ignore_ascii_case d key) SECRET_DENYLIST then true
  else
    let upper := to_ascii_uppercase key in
    if existsb (contains upper) SECRET_SUBSTRING_PATTERNS then true
    else ends_with upper "_AUTH" || contains upper "__AUTH".

Definition is_pm_env_key (key : string) : bool := existsb (starts_with key) PM_ENV_PREFIXES.

Definition MAX_VALUE_BYTES : nat := 512.

(** The loop that moves back to a character boundary. *)
Fixpoint boundary_back (value : string) (end_ : nat) : nat :=
  match end_ with
  | O => O
  | S e => if is_char_boundary value end_ then end_ else boundary_back value e
  end.

Definition truncate_value (value : string) : string :=
  if bool_decide (String.length value <= MAX_VALUE_BYTES) then value
  else str_take (boundary_back value MAX_VALUE_BYTES) value.

(** ** pm_env_filter.rs *)

(** [ExecEvent::MAX_PM_ENV_BYTES]. *)
Definition MAX_PM_ENV_BYTES : nat := 4096.
Definition MAX_ENVP_ENTRIES : nat := 4096.

Definition split_env_entry (entry : string) : option (string * string) := split_once "=" entry.

Definition filter_one (key value : string) : option (string * string) :=
  if is_secret_key key then None
  else if negb (is_pm_env_key key) then None
  else Some (key, truncate_value value).

Definition pair_size (kv : string * string) : nat := String.length kv.1 + String.length kv.2 + 2.

(** The walk over the entries; it stops at the first pair over the cap. *)
Fixpoint extract_go (entries : list string) (total : nat) : list (string * string) :=
  match entries with
  | [] => []
  | p :: rest =>
      match split_env_entry (from_utf8_lossy p) with
      | None => extract_go rest total
      | Some (key, value) =>
          match filter_one key value with
          | None => extract_go rest total
          | Some kv =>
              if bool_decide (MAX_PM_ENV_BYTES < total + pair_size kv) then []
              else kv :: extract_go rest (total + pair_size kv)
          end
      end
  end.

Abbreviation Envp := (option (list string)).

Definition extract_pm_env_from_envp (envp : Envp) : list (string * string) :=
  match envp with
  | None => []
  | Some entries => extract_go (take MAX_ENVP_ENTRIES entries) 0
  end.

Definition extract_pm_env_from_environ (environ : Envp) : list (string * string) :=
  extract_pm_env_from_envp environ.

(** ** env_capture.rs *)

Fixpoint capture_go (env : list (string * string)) (total : nat) : list (string * string) :=
  match env with
  | [] => []
  | (k, v) :: rest =>
      if is_secret_key k then capture_go rest total
      else if negb (is_pm_env_key k) then capture_go rest total
      else
        let kv := (k, truncate_value v) in
        if bool_decide (MAX_PM_ENV_BYTES < total + pair_size kv) then []
        else kv :: capture_go rest (total + pair_size kv)
  end.

Definition extract_pm_env (env : list (string * string)) : list (string * string) := capture_go env 0.

(** ** envp.rs *)

Definition HOOK_INJECTION_KEY : string := "DYLD_INSERT_LIBRARIES=".
Definition REQUIRED_KEYS : list string := [HOOK_INJECTION_KEY; "STT_GUARD_SNAPSHOT_MANIFEST="].

(** [bytes_eq_prefix]: the C string at [p] starts with [key]. *)
Definition bytes_eq_prefix (p key : string) : bool := starts_with p key.

(** The walk; [found] is the array of flags. *)
Fixpoint gap_walk (entries : list string) (found : list bool) : bool :=
  match entries with
  | [] => negb (forallb id found)
  | p :: rest =>
      let found' := zip_with (fun f key => f || bytes_eq_prefix p key) found REQUIRED_KEYS in
      if forallb id found' then false else gap_walk rest found'
  end.

Definition should_emit_env_not_propagated_gap (envp : Envp) : bool :=
  match envp with
  | None => true
  | Some entries => gap_walk (take MAX_ENVP_ENTRIES entries) [false; false]
  end.

(** ** env_scrub.rs *)

(** [raw_getenv]: the value of the first entry that reads [name=...]. *)
Fixpoint getenv_walk (entries : list string) (name : string) : option string :=
  match entries with
  | [] => None
  | entry :: rest =>
      if bool_decide (String.length name < String.length entry)
         && bool_decide (String.get (String.length name) entry = Some "="%char)
         && bool_decide (str_take (String.length name) entry = name)
      then Some (str_drop (String.length name + 1) entry)
      else getenv_walk rest name
  end.

(** [name] is null or a C string. *)
Definition raw_getenv (environ : Envp) (name : option string) : option string :=
  match name with
  | None => None
  | Some n =>
      if is_empty n then None
      else match environ with None => None | Some entries => getenv_walk entries n end
  end.

Definition HIDDEN_NAMES : list string :=
  ["STT_GUARD_SNAPSHOT_MANIFEST"; "STT_GUARD_STATE_DIR"; "STT_GUARD_TEST_MARKER"; "DYLD_INSERT_LIBRARIES"].

Definition is_hidden_key (name : option string) : bool :=
  match name with None => false | Some n => bool_decide (n ∈ HIDDEN_NAMES) end.

Definition guard_getenv (scrub_active : bool) (environ : Envp) (name : option string) : option string :=
  if scrub_active && is_hidden_key name then None else raw_getenv environ name.

(** ** Truncation *)

Lemma boundary_back_spec (value : string) (n : nat) :
  let e := boundary_back value n in
  e <= n /\ is_char_boundary value e = true
  /\ forall j, e < j <= n -> is_char_boundary value j = false.
Proof.
  induction n as [|n IH]; simpl; [split_and!; [lia|done|lia]|].
  destruct (is_char_boundary value (S n)) eqn:Hb; [split_and!; [lia|done|lia]|].
  destruct IH as (H1 & H2 & H3). split_and!; [lia|done|]. intros j Hj.
  destruct (decide (j = S n)) as [->|]; [done|]. apply H3. lia.
Qed.

Lemma truncate_value_length (value : string) : String.length (truncate_value value) <= MAX_VALUE_BYTES.
Proof.
  unfold truncate_value. case_bool_decide; [done|]. rewrite length_str_take.
  pose proof (boundary_back_spec value MAX_VALUE_BYTES) as [H1 _]. lia.
Qed.

Lemma truncate_value_short (value : string) :
  String.length value <= MAX_VALUE_BYTES -> truncate_value value = value.
Proof. intros Hl. unfold truncate_value. by rewrite bool_decide_eq_true_2. Qed.

Lemma truncate_value_idem (value : string) : truncate_value (truncate_value value) = truncate_value value.
Proof. apply truncate_value_short, truncate_value_length. Qed.

(** ** What is recorded *)

(** A pair that may be recorded. *)
Record admitted (kv : string * string) : Prop := {
  ad_secret : is_secret_key kv.1 = false;
  ad_key : is_pm_env_key kv.1 = true;
  ad_value : truncate_value kv.2 = kv.2;
}.

Definition sizes (l : list (string * string)) : nat := sum_list_with pair_size l.

Lemma filter_one_Some (k v : string) (kv : string * string) :
  filter_one k v = Some kv -> admitted kv /\ kv = (k, truncate_value v).
Proof.
  unfold filter_one. destruct (is_secret_key k) eqn:Hs; [done|].
  destruct (is_pm_env_key k) eqn:Hk; [|done]. intros [= <-]. split; [|done].
  split; [done|done|]. apply truncate_value_idem.
Qed.

Lemma extract_go_spec (entries : list string) (total : nat) :
  total <= MAX_PM_ENV_BYTES ->
  Forall admitted (extract_go entries total)
  /\ total + sizes (extract_go entries total) <= MAX_PM_ENV_BYTES
  /\ Forall (fun kv => exists p v, p ∈ entries /\ split_env_entry (from_utf8_lossy p) = Some (kv.1, v)
                                   /\ kv.2 = truncate_value v) (extract_go entries total).
Proof.
  revert total. induction entries as [|p rest IH]; intros total Ht; simpl;
    [split_and!; [constructor|unfold sizes; simpl; lia|constructor]|].
  assert (forall l, Forall (fun kv => exists p v, p ∈ rest
            /\ split_env_entry (from_utf8_lossy p) = Some (kv.1, v) /\ kv.2 = truncate_value v) l ->
          Forall (fun kv : string * string => exists p' v, p' ∈ p :: rest
            /\ split_env_entry (from_utf8_lossy p') = Some (kv.1, v) /\ kv.2 = truncate_value v) l) as Hup.
  { intros l Hl. eapply Forall_impl; [exact Hl|]. intros kv (p' & v & Hp & Hv). exists p', v. split; [set_solver|done]. }
  destruct (split_env_entry (from_utf8_lossy p)) as [[key value]|] eqn:Hsp;
    [|destruct (IH total Ht) as (? & ? & ?); auto].
  destruct (filter_one key value) as [kv|] eqn:Hf; [|destruct (IH total Ht) as (? & ? & ?); auto].
  case_bool_decide as Hc; [split_and!; [constructor|unfold sizes; simpl; lia|constructor]|].
  apply filter_one_Some in Hf as [Had ->].
  destruct (IH (total + pair_size (key, truncate_value value))) as (H1 & H2 & H3); [lia|].
  split_and!; [by constructor|unfold sizes in *; simpl in *; lia|].
  constructor; [|by apply Hup]. exists p, value. split_and!; [set_solver|done|done].
Qed.

(** On admitted pairs within the cap the daemon's filter is the identity. *)
Lemma capture_go_id (l : list (string * string)) (total : nat) :
  Forall admitted l -> total + sizes l <= MAX_PM_ENV_BYTES -> capture_go l total = l.
Proof.
  revert total. induction l as [|[k v] l IH]; intros total Hall Hs; [done|]. simpl.
  apply Forall_cons in Hall as [[H1 H2 H3] Hall]. simpl in *. rewrite H1, H2, H3. simpl.
  unfold sizes in *. simpl in Hs. rewrite bool_decide_eq_false_2 by lia. f_equal. apply IH; [done|lia].
Qed.

Lemma capture_go_spec (env : list (string * string)) (total : nat) :
  total <= MAX_PM_ENV_BYTES ->
  Forall admitted (capture_go env total) /\ total + sizes (capture_go env total) <= MAX_PM_ENV_BYTES.
Proof.
  revert total. induction env as [|[k v] rest IH]; intros total Ht; simpl; [split; [constructor|unfold sizes; simpl; lia]|].
  destruct (is_secret_key k) eqn:Hs; [by apply IH|]. destruct (is_pm_env_key k) eqn:Hk; [|by apply IH]. simpl.
  case_bool_decide as Hc; [split; [constructor|unfold sizes; simpl; lia]|].
  destruct (IH (total + pair_size (k, truncate_value v))) as [H1 H2]; [lia|].
  split; [|unfold sizes in *; simpl in *; lia]. constructor; [|done].
  split; [done|done|apply truncate_value_idem].
Qed.

(** ** Case *)

Lemma ascii_case (P : ascii -> Prop) (f : ascii -> bool) :
  (forall a, P a <-> f a = true) -> forallb f (ascii_of_nat <$> seq 0 256) = true -> forall a, P a.
Proof.
  intros HP Hf a. apply HP. rewrite forallb_forall in Hf. apply Hf. apply list_elem_of_In, list_elem_of_fmap.
  exists (nat_of_ascii a). split; [by rewrite ascii_nat_embedding|]. apply elem_of_seq.
  pose proof (nat_ascii_bounded a). lia.
Qed.

Lemma upper_of_lower (a : ascii) : ascii_upper (ascii_lower a) = ascii_upper a.
Proof.
  revert a. apply (ascii_case _ (fun a => bool_decide (ascii_upper (ascii_lower a) = ascii_upper a))).
  - intros a. by rewrite bool_decide_eq_true.
  - by vm_compute.
Qed.

Lemma uppercase_lowercase (s : string) : to_ascii_uppercase (to_ascii_lowercase s) = to_ascii_uppercase s.
Proof.
  induction s as [|a s IH]; [done|]. unfold to_ascii_uppercase, to_ascii_lowercase in *. simpl.
  by rewrite upper_of_lower, IH.
Qed.

Lemma elem_of_take_1 {A} (x : A) (n : nat) (l : list A) : x ∈ take n l -> x ∈ l.
Proof. intros Hx. rewrite <- (take_drop n l). set_solver. Qed.

Lemma secret_case_insensitive (k k' : string) :
  eq_ignore_ascii_case k k' = true -> is_secret_key k = is_secret_key k'.
Proof.
  intros He%bool_decide_eq_true.
  assert (to_ascii_uppercase k = to_ascii_uppercase k') as Hu
    by (rewrite <- (uppercase_lowercase k), He; apply uppercase_lowercase).
  unfold is_secret_key, eq_ignore_ascii_case. by rewrite Hu, He.
Qed.

(** ** Walks *)

Lemma gap_walk_spec (entries : list string) (a b : bool) :
  gap_walk entries [a; b]
  = negb ((a || existsb (fun p => starts_with p HOOK_INJECTION_KEY) entries)
          && (b || existsb (fun p => starts_with p "STT_GUARD_SNAPSHOT_MANIFEST=") entries)).
Proof.
  revert a b. induction entries as [|p rest IH]; intros a b; cbn [gap_walk existsb];
    [by destruct a, b|].
  cbn [zip_with REQUIRED_KEYS]. unfold bytes_eq_prefix.
  destruct (starts_with p HOOK_INJECTION_KEY), (starts_with p "STT_GUARD_SNAPSHOT_MANIFEST="), a, b;
    cbn [orb andb forallb id negb]; rewrite ?IH; done.
Qed.

Lemma getenv_hit (entry name v : string) :
  bool_decide (String.length name < String.length entry)
  && bool_decide (String.get (String.length name) entry = Some "="%char)
  && bool_decide (str_take (String.length name) entry = name) = true
  /\ str_drop (String.length name + 1) entry = v
  <-> entry = name +:+ String "=" v.
Proof.
  rewrite !andb_true_iff, !bool_decide_eq_true. split.
  - intros [[[Hl Hg] Ht] <-]. rewrite <- (str_take_drop (String.length name) entry) at 1. rewrite Ht. f_equal.
    rewrite <- (Nat.add_0_r (String.length name)), <- get_drop in Hg.
    assert (str_drop (String.length name + 1) entry = str_drop 1 (str_drop (String.length name) entry)) as ->.
    { clear. generalize (String.length name). intros n. revert entry.
      induction n as [|n IH]; intros entry; [done|]. destruct entry; [done|apply IH]. }
    destruct (str_drop (String.length name) entry); simpl in *; [done|]. by injection Hg as ->.
  - intros ->. rewrite length_app_str, str_take_app. simpl.
    assert (forall n u, String.get (String.length name + n) (name +:+ u) = String.get n u) as Hget.
    { intros n u. rewrite <- (str_drop_app name u) at 2. by rewrite get_drop. }
    split; [split; [split; [lia|]|done]|].
    + rewrite <- (Nat.add_0_r (String.length name)). by rewrite Hget.
    + clear. induction name as [|c name IH]; [done|]. rewrite app_cons_str. apply IH.
Qed.

Lemma getenv_walk_spec (entries : list string) (name v : string) :
  getenv_walk entries name = Some v <->
  exists pre post, entries = pre ++ (name +:+ String "=" v) :: post
    /\ Forall (fun e => forall w, e <> name +:+ String "=" w) pre.
Proof.
  induction entries as [|e rest IH]; [split; [done|by intros ([|] & ? & ? & _)]|]. cbn [getenv_walk].
  destruct (_ && _) eqn:Hc.
  - pose proof (proj1 (getenv_hit e name _) (conj Hc eq_refl)) as He. split.
    + intros [= <-]. exists [], rest. split; [by rewrite <- He|constructor].
    + intros ([|x pre] & post & Heq & Hall); simplify_eq/=.
      * f_equal. by apply getenv_hit.
      * apply Forall_cons in Hall as [Hx _]. by destruct (Hx _ He).
  - assert (forall w, e <> name +:+ String "=" w) as Hno.
    { intros w Hw. apply getenv_hit in Hw as [Hw _]. by rewrite Hc in Hw. }
    rewrite IH. split.
    + intros (pre & post & -> & Hall). exists (e :: pre), post. split; [done|]. by constructor.
    + intros ([|x pre] & post & Heq & Hall); simplify_eq/=; [by destruct (Hno v)|].
      apply Forall_cons in Hall as [_ Hall]. eauto.
Qed.

(** ** Theorems *)

(** A recorded value is a whole-character prefix of the variable: at most 512
    bytes of valid text, everything when it fits, and otherwise short of the limit
    by at most three bytes. *)
Theorem truncate_value_bounds (value : string) :
  utf8_valid value = true ->
  let out := truncate_value value in
  utf8_valid out = true /\ (exists rest, value = out +:+ rest)
  /\ String.length out <= MAX_VALUE_BYTES
  /\ (String.length value <= MAX_VALUE_BYTES -> out = value)
  /\ (MAX_VALUE_BYTES < String.length value -> MAX_VALUE_BYTES <= String.length out + 3).
Proof.
  intros Hv. split; [|split; [|split; [apply truncate_value_length|split; [apply truncate_value_short|]]]].
  - unfold truncate_value. case_bool_decide; [done|].
    apply utf8_valid_take; [done|]. apply boundary_back_spec.
  - unfold truncate_value. case_bool_decide; [exists ""; by rewrite app_nil_r_str|].
    eexists. by rewrite str_take_drop.
  - intros Hl. unfold truncate_value. rewrite bool_decide_eq_false_2 by lia. rewrite length_str_take.
    destruct (boundary_near value MAX_VALUE_BYTES Hv) as (j & H1 & H2 & Hb); [lia|].
    destruct (boundary_back_spec value MAX_VALUE_BYTES) as (H3 & _ & H4).
    destruct (decide (boundary_back value MAX_VALUE_BYTES < j)) as [Hlt|]; [|lia].
    rewrite H4 in Hb by lia. done.
Qed.

(** What the hook records of an environment is safe to send: only keys of
    package managers, none of them secret in any spelling, values of at most 512
    bytes, at most 4096 bytes in all, each pair from an entry of the block; and the
    daemon's own filter accepts it unchanged. *)
Theorem recorded_env_sound (envp : Envp) :
  let out := extract_pm_env_from_envp envp in
  extract_pm_env out = out
  /\ sizes out <= MAX_PM_ENV_BYTES
  /\ Forall (fun kv =>
       is_pm_env_key kv.1 = true
       /\ (forall k, eq_ignore_ascii_case k kv.1 = true -> is_secret_key k = false)
       /\ String.length kv.2 <= MAX_VALUE_BYTES
       /\ exists entries p v, envp = Some entries /\ p ∈ entries
            /\ split_env_entry (from_utf8_lossy p) = Some (kv.1, v) /\ kv.2 = truncate_value v) out.
Proof.
  destruct envp as [entries|]; [|split_and!; [done|unfold sizes; simpl; lia|constructor]].
  cbn [extract_pm_env_from_envp].
  destruct (extract_go_spec (take MAX_ENVP_ENTRIES entries) 0) as (H1 & H2 & H3); [lia|].
  split_and!; [by apply capture_go_id|done|].
  rewrite Forall_forall in H1, H3. apply Forall_forall. intros kv Hkv.
  destruct (H1 kv Hkv) as [Hs Hk Hv]. destruct (H3 kv Hkv) as (p & v & Hp & Hsp & ->).
  split_and!; [done| |apply truncate_value_length|].
  - intros k Hk'. rewrite <- Hs. by apply secret_case_insensitive.
  - exists entries, p, v. split_and!; [done|by eapply elem_of_take_1|done|done].
Qed.

(** A spawn is reported as leaving the hook behind exactly when the environment
    it passes lacks one of the two variables the hook needs (within the first 4096
    entries); once the constructor has run, a program can read the value of the
    first entry of any name but the hidden ones, and nothing of those. *)
Theorem env_propagation_and_hiding (envp : Envp) (name v : string) :
  (should_emit_env_not_propagated_gap envp = false <->
   exists entries, envp = Some entries /\
     Forall (fun key => exists p, p ∈ take MAX_ENVP_ENTRIES entries /\ starts_with p key = true) REQUIRED_KEYS)
  /\ (guard_getenv true envp (Some name) = Some v <->
      name ∉ HIDDEN_NAMES /\ name <> "" /\
      exists pre post, envp = Some (pre ++ (name +:+ String "=" v) :: post)
        /\ Forall (fun e => forall w, e <> name +:+ String "=" w) pre).
Proof.
  split.
  - destruct envp as [entries|]; [|split; [done|by intros (? & ? & _)]]. cbn [should_emit_env_not_propagated_gap].
    rewrite gap_walk_spec, negb_false_iff. cbn [orb]. rewrite andb_true_iff, !existsb_exists. split.
    + intros [(p & Hp%list_elem_of_In & H1) (q & Hq%list_elem_of_In & H2)]. exists entries. split; [done|].
      apply Forall_cons_2; [exact (ex_intro _ p (conj Hp H1))|].
      apply Forall_cons_2; [exact (ex_intro _ q (conj Hq H2))|apply Forall_nil_2].
    + intros (? & [= <-] & Hall). unfold REQUIRED_KEYS in Hall.
      apply Forall_cons in Hall as [(p & Hp & H1) Hall]. apply Forall_cons in Hall as [(q & Hq & H2) _].
      apply list_elem_of_In in Hp, Hq. split; [exists p|exists q]; split; assumption.
  - unfold guard_getenv, is_hidden_key. simpl. case_bool_decide as Hh; [naive_solver|].
    unfold raw_getenv. destruct name as [|c name]; [simpl; naive_solver|]. cbn [is_empty].
    destruct envp as [entries|]; [|split; [done|by intros (_ & _ & ? & ? & ? & _)]].
    rewrite getenv_walk_spec. split.
    + intros (pre & post & -> & Hall). split_and!; [done|done|]. by exists pre, post.
    + intros (_ & _ & pre & post & [= ->] & Hall). by exists pre, post.
Qed.

Lemma truncate_value_bounds_witness :
  let value := str_repeat "a" 511 +:+ (String (ascii_of_N 195) (String (ascii_of_N 169) "xyz")) in
  String.length (truncate_value value) = 511 /\ utf8_valid (truncate_value value) = true.
Proof.
  split; [by vm_compute|].
  refine (proj1 (truncate_value_bounds (str_repeat "a" 511 +:+ (String (ascii_of_N 195) (String (ascii_of_N 169) "xyz"))) _)).
  by vm_compute.
Defined.
