(* ===== verification/MachO.v ===== *)
(** * Classification of exec targets

    [crates/guard-hook/src/macho_flags.rs], [scanner/macho.rs], [scanner/elf.rs] and
    [exec_policy.rs].  A file is a list of byte values; a descriptor is its content,
    a position and the kernel's answers to its reads, which may be short or fail.
    The same path may be opened several times and need not give the same content.
    Indexing past a slice, 64-bit overflow and a loop that outlives its fuel are
    [Panic]; theorems below show that none happens. *)

From S2P Require Import Prelude RustStr.

(** ** Outcomes *)

Inductive outcome (A : Type) : Type :=
| Val (a : A)
| Panic.
Arguments Val {A} a.
Arguments Panic {A}.

#[export] Instance outcome_ret : MRet outcome := fun A a => Val a.
#[export] Instance outcome_bind : MBind outcome := fun A B f m =>
  match m with Val a => f a | Panic => Panic end.

(** ** Bytes *)

Abbreviation bytes := (list N).

Definition idx (data : bytes) (i : nat) : outcome N :=
  match data !! i with Some b => Val b | None => Panic end.

(** [&data[i..j]]. *)
Definition slice (data : bytes) (i j : nat) : outcome bytes :=
  if bool_decide (i <= j /\ j <= length data) then Val (take (j - i) (drop i data)) else Panic.

Definition of_be (l : bytes) : N := foldl (fun acc b => acc * 256 + b)%N 0%N l.
Definition of_le (l : bytes) : N := of_be (rev l).

Definition u32_be (data : bytes) (off : nat) : outcome N := l ← slice data off (off + 4); mret (of_be l).
Definition u32_le (data : bytes) (off : nat) : outcome N := l ← slice data off (off + 4); mret (of_le l).
Definition u64_be (data : bytes) (off : nat) : outcome N := l ← slice data off (off + 8); mret (of_be l).
Definition u64_le (data : bytes) (off : nat) : outcome N := l ← slice data off (off + 8); mret (of_le l).

Definition U64_LIMIT : N := 18446744073709551616.
Definition OFF_T_LIMIT : N := 9223372036854775808.

(** [a + b] at 64 bits. *)
Definition add_u64 (a b : N) : outcome N :=
  if bool_decide (a + b < U64_LIMIT)%N then Val (a + b)%N else Panic.

Definition testbits (a mask : N) : bool := negb (bool_decide (N.land a mask = 0%N)).

(** ** Files *)

Record Fd : Type := mkFd {
  fd_content : bytes;
  fd_pos : nat;
  fd_reads : nat;
  (** The answer to the [i]-th read: an error, or a bound on what it returns. *)
  fd_answer : nat -> option nat;
  fd_seek_ok : N -> bool;
  (** The error number of the [i]-th read, when it fails. *)
  fd_errno : nat -> nat;
}.

(** [libc::read]: an error, or bytes from the position on. *)
Definition libc_read (f : Fd) (want : nat) : Fd * option bytes :=
  let next := mkFd (fd_content f) (fd_pos f) (S (fd_reads f)) (fd_answer f) (fd_seek_ok f) (fd_errno f) in
  match fd_answer f (fd_reads f) with
  | None => (next, None)
  | Some k =>
      let got := take (Nat.min want (Nat.max 1 k)) (drop (fd_pos f) (fd_content f)) in
      (mkFd (fd_content f) (fd_pos f + length got) (S (fd_reads f)) (fd_answer f) (fd_seek_ok f) (fd_errno f), Some got)
  end.

(** [raw_syscall::raw_read] into [buf]: as many bytes of the buffer as the number that
    comes back says.  The flag of a failed call is dropped and the number is then that of
    the error, with the buffer as it was; a negative number, for which the callers look, is
    never seen ([RawSyscall.flag_and_second_register_dropped]). *)
Definition raw_read (f : Fd) (want : nat) (buf : bytes) : Fd * option bytes :=
  match libc_read f want with
  | (f1, Some got) => (f1, Some got)
  | (f1, None) => (f1, Some (take (fd_errno f (fd_reads f)) buf))
  end.

(** [vec![0u8; n]]. *)
Definition zeros (n : nat) : bytes := replicate n 0%N.

(** [off_t::try_from] and [lseek(fd, offset, SEEK_SET)]. *)
Definition seek_to (f : Fd) (offset : N) : option Fd :=
  if bool_decide (offset < OFF_T_LIMIT)%N then
    if fd_seek_ok f offset
    then Some (mkFd (fd_content f) (N.to_nat offset) (fd_reads f) (fd_answer f) (fd_seek_ok f) (fd_errno f))
    else None
  else None.

Inductive Arch : Type := Aarch64 | X86_64.

Inductive SuspiciousReason : Type := SyscallInstruction.

Inductive ScanVerdict : Type :=
| Clean
| Suspicious (r : SuspiciousReason).

Class ExecEnv : Type := {
  native_arch : Arch;
  (** The [n]-th open of this process: nothing, or a descriptor at its start. *)
  open_rdonly : nat -> string -> option Fd;
  stat_mode : string -> option N;
  scan_sha256 : bytes -> bytes;
}.

Record ScanState : Type := mkScanState {
  sc_opens : nat;
  sc_cache : gmap bytes ScanVerdict;
}.

Definition SM (A : Type) : Type := ScanState -> outcome (A * ScanState).

#[export] Instance sm_ret : MRet SM := fun A a st => Val (a, st).
#[export] Instance sm_bind : MBind SM := fun A B f m st =>
  match m st with Val (a, st') => f a st' | Panic => Panic end.

Definition lift {A} (o : outcome A) : SM A := fun st =>
  match o with Val a => Val (a, st) | Panic => Panic end.

(** ** macho_flags.rs *)

Definition MH_MAGIC_64 : N := 4277009103.
Definition FAT_MAGIC : N := 3405691582.
Definition FAT_CIGAM : N := 3199925962.
Definition FAT_MAGIC_64 : N := 3405691583.
Definition FAT_CIGAM_64 : N := 3216703178.
Definition LC_CODE_SIGNATURE : N := 29.
Definition CSMAGIC_EMBEDDED_SIGNATURE : N := 4208856256.
Definition CSMAGIC_CODEDIRECTORY : N := 4208856066.
Definition CS_RUNTIME : N := 65536.
Definition CS_RESTRICT : N := 2048.
Definition CPU_TYPE_ARM64 : N := 16777228.
Definition CPU_TYPE_X86_64 : N := 16777223.
Definition MAX_READ : nat := N.to_nat 65536.
Definition MH_RESTRICT : N := 128.

Definition NATIVE_CPU_TYPE (a : Arch) : N :=
  match a with Aarch64 => CPU_TYPE_ARM64 | X86_64 => CPU_TYPE_X86_64 end.

Record CodeSignInfo : Type := mkCodeSignInfo {
  cs_flags : N;
  cs_platform : N;
}.

Definition info_will_shed_dylib (i : CodeSignInfo) : bool :=
  bool_decide (0 < cs_platform i)%N || testbits (cs_flags i) CS_RUNTIME || testbits (cs_flags i) CS_RESTRICT.

(** The blob of the code directory, at [blob_offset]. *)
Definition code_directory (buf : bytes) (blob_offset : nat) : outcome CodeSignInfo :=
  flags ← u32_be buf (blob_offset + 12);
  version ← u32_be buf (blob_offset + 8);
  platform ← (if bool_decide (132096 <= version)%N && bool_decide (blob_offset + 37 <= length buf)
              then idx buf (blob_offset + 36) else mret 0%N);
  mret (mkCodeSignInfo flags platform).

Fixpoint blob_walk (buf : bytes) (count i : nat) : outcome (option CodeSignInfo) :=
  match count with
  | O => mret None
  | S count' =>
      let idx_off := 12 + i * 8 in
      if bool_decide (length buf < idx_off + 8) then mret None
      else
        blob ← u32_be buf (idx_off + 4);
        let blob_offset := N.to_nat blob in
        if bool_decide (length buf < blob_offset + 44) then blob_walk buf count' (S i)
        else
          blob_magic ← u32_be buf blob_offset;
          if bool_decide (blob_magic = CSMAGIC_CODEDIRECTORY)
          then info ← code_directory buf blob_offset; mret (Some info)
          else blob_walk buf count' (S i)
  end.

(** The descriptor is left where the reads put it; nothing reads it afterwards. *)
Definition read_code_signature (f : Fd) (abs_offset : N) : outcome (option CodeSignInfo) :=
  match seek_to f abs_offset with
  | None => mret None
  | Some f1 =>
      match (raw_read f1 (N.to_nat 8192) (zeros (N.to_nat 8192))).2 with
      | None => mret None
      | Some buf =>
          if bool_decide (length buf < 12) then mret None
          else
            magic ← u32_be buf 0;
            if negb (bool_decide (magic = CSMAGIC_EMBEDDED_SIGNATURE)) then mret None
            else
              count ← u32_be buf 8;
              blob_walk buf (N.to_nat (N.min count 32)) 0
      end
  end.

(** What is reported when no code signature is found. *)
Definition restricted_only (mh_restricted : bool) : option CodeSignInfo :=
  if mh_restricted then Some (mkCodeSignInfo CS_RESTRICT 0) else None.

Fixpoint macho64_walk (data : bytes) (f : Fd) (base_offset : N) (mh_restricted : bool)
    (ncmds pos : nat) : outcome (option CodeSignInfo) :=
  match ncmds with
  | O => mret (restricted_only mh_restricted)
  | S ncmds' =>
      if bool_decide (length data < pos + 8) then mret (restricted_only mh_restricted)
      else
        cmd ← u32_le data pos;
        cmdsize ← u32_le data (pos + 4);
        if bool_decide (cmdsize < 8)%N then mret (restricted_only mh_restricted)
        else if bool_decide (cmd = LC_CODE_SIGNATURE) then
          if bool_decide (length data < pos + 16) then mret (restricted_only mh_restricted)
          else
            dataoff ← u32_le data (pos + 8);
            abs ← add_u64 base_offset dataoff;
            info ← read_code_signature f abs;
            match info with
            | Some i => mret (Some (if mh_restricted
                                    then mkCodeSignInfo (N.lor (cs_flags i) CS_RESTRICT) (cs_platform i) else i))
            | None => mret (restricted_only mh_restricted)
            end
        else
          next ← add_u64 (N.of_nat pos) cmdsize;
          macho64_walk data f base_offset mh_restricted ncmds' (N.to_nat next)
  end.

Definition check_macho64 (data : bytes) (f : Fd) (base_offset : N) : outcome (option CodeSignInfo) :=
  if bool_decide (length data < 32) then mret None
  else
    magic ← u32_le data 0;
    if negb (bool_decide (magic = MH_MAGIC_64)) then mret None
    else
      mh_flags ← u32_le data 24;
      ncmds ← u32_le data 16;
      macho64_walk data f base_offset (testbits mh_flags MH_RESTRICT) (N.to_nat (N.min ncmds 256)) 32.

Definition check_macho_at_offset (f : Fd) (offset : N) : outcome (option CodeSignInfo) :=
  match seek_to f offset with
  | None => mret None
  | Some f1 =>
      match raw_read f1 MAX_READ (zeros MAX_READ) with
      | (_, None) => mret None
      | (f2, Some buf) => if bool_decide (length buf < 4) then mret None else check_macho64 buf f2 offset
      end
  end.

Section Flags.
Context `{ExecEnv}.

(** The architectures of a universal binary; [width] is the size of an entry. *)
Fixpoint fat_walk (header : bytes) (f : Fd) (width : nat) (offset_of : bytes -> nat -> outcome N)
    (nfat i : nat) : outcome (option CodeSignInfo) :=
  match nfat with
  | O => mret None
  | S nfat' =>
      let off := 8 + i * width in
      if bool_decide (length header < off + width) then mret None
      else
        cputype ← u32_be header off;
        slice_offset ← offset_of header (off + 8);
        if bool_decide (cputype = NATIVE_CPU_TYPE native_arch)
        then check_macho_at_offset f slice_offset
        else fat_walk header f width offset_of nfat' (S i)
  end.

Definition check_fat32 (header : bytes) (f : Fd) : outcome (option CodeSignInfo) :=
  if bool_decide (length header < 8) then mret None
  else nfat ← u32_be header 4; fat_walk header f 20 u32_be (N.to_nat (N.min nfat 16)) 0.

Definition check_fat64 (header : bytes) (f : Fd) : outcome (option CodeSignInfo) :=
  if bool_decide (length header < 8) then mret None
  else nfat ← u32_be header 4; fat_walk header f 32 u64_be (N.to_nat (N.min nfat 16)) 0.

Definition check_fd (f : Fd) : outcome (option CodeSignInfo) :=
  match raw_read f MAX_READ (zeros MAX_READ) with
  | (_, None) => mret None
  | (f1, Some buf) =>
      if bool_decide (length buf < 4) then mret None
      else
        magic ← u32_be buf 0;
        if bool_decide (magic = FAT_MAGIC) || bool_decide (magic = FAT_CIGAM) then check_fat32 buf f1
        else if bool_decide (magic = FAT_MAGIC_64) || bool_decide (magic = FAT_CIGAM_64) then check_fat64 buf f1
        else
          le_magic ← u32_le buf 0;
          if bool_decide (le_magic = MH_MAGIC_64) then check_macho64 buf f1 0 else mret None
  end.

Definition open_file (path : string) : SM (option Fd) := fun st =>
  Val (open_rdonly (sc_opens st) path, mkScanState (S (sc_opens st)) (sc_cache st)).

Definition check_binary (path : option string) : SM (option CodeSignInfo) :=
  match path with
  | None => mret None
  | Some p =>
      fd ← open_file p;
      match fd with None => mret None | Some f => lift (check_fd f) end
  end.

(** [S_ISUID | S_ISGID]. *)
Definition is_setuid (path : option string) : bool :=
  match path with
  | None => false
  | Some p => match stat_mode p with None => false | Some mode => testbits mode 3072 end
  end.

Inductive ShedReason : Type := Setuid | CodeSign.

Definition will_shed_dylib (path : option string) : SM (option ShedReason) :=
  if is_setuid path then mret (Some Setuid)
  else
    info ← check_binary path;
    mret (match info with
          | Some i => if info_will_shed_dylib i then Some CodeSign else None
          | None => None
          end).

End Flags.

(** ** scanner/macho.rs *)

Definition MH_CIGAM_64 : N := 3489328638.
Definition LC_SEGMENT_64 : N := 25.
Definition CPU_SUBTYPE_MASK : N := 4278190080.
Definition CPU_SUBTYPE_ARM64_ALL : N := 0.
Definition CPU_SUBTYPE_X86_64_ALL : N := 3.
Definition CPU_SUBTYPE_X86_64_H : N := 8.
Definition MAX_HEADER_READ : nat := N.to_nat 262144.
Definition SCAN_CHUNK : N := 65536.

Definition NATIVE_SYSCALL_PATTERNS (a : Arch) : list bytes :=
  match a with
  | Aarch64 => [[1; 16; 0; 212]%N]
  | X86_64 => [[15; 5]%N; [205; 128]%N]
  end.

Inductive BlockReason : Type :=
| HardenedRuntime | PrivilegeEscalation | FatBinary | UnsupportedArch | UnsupportedSubtype
| UnsupportedElf | UnknownFormat | UnreadablePath | HeaderReadFailure | MalformedMachO | ScanFailure.

Inductive BinaryTier : Type :=
| T0Blocked (r : BlockReason)
| T2AllowedScript
| T2CleanNativeMachO
| T3SuspiciousUnknown (r : SuspiciousReason).

Definition block_reason_str (r : BlockReason) : string :=
  match r with
  | HardenedRuntime => "hardened-runtime"
  | PrivilegeEscalation => "privilege-escalation"
  | FatBinary => "fat-binary"
  | UnsupportedArch => "unsupported-arch"
  | UnsupportedSubtype => "unsupported-subtype"
  | UnsupportedElf => "unsupported-elf"
  | UnknownFormat => "unknown-format"
  | UnreadablePath => "unreadable-path"
  | HeaderReadFailure => "header-read-failure"
  | MalformedMachO => "malformed-macho"
  | ScanFailure => "scan-failure"
  end.

Definition suspicious_reason_str (r : SuspiciousReason) : string :=
  match r with SyscallInstruction => "syscall-instruction" end.

Inductive HeaderKind : Type :=
| HkElf | HkFat | HkScript | HkUnknownFormat | HkUnsupportedMachO | HkMalformedMachO
| HkThin64 (cputype cpusubtype : N) (ncmds : nat).

Definition starts_with (data prefix : bytes) : bool := bool_decide (take (length prefix) data = prefix).

Definition SHEBANG : bytes := [35; 33]%N.
Definition ELF_MAGIC : bytes := [127; 69; 76; 70]%N.

Definition parse_header_kind (data : bytes) : outcome HeaderKind :=
  if bool_decide (length data < 4)
  then mret (if starts_with data SHEBANG then HkScript else HkUnknownFormat)
  else if starts_with data ELF_MAGIC then mret HkElf
  else
    be_magic ← u32_be data 0;
    if bool_decide (be_magic = FAT_MAGIC) || bool_decide (be_magic = FAT_CIGAM)
       || bool_decide (be_magic = FAT_MAGIC_64) || bool_decide (be_magic = FAT_CIGAM_64)
    then mret HkFat
    else
      le_magic ← u32_le data 0;
      if bool_decide (le_magic = MH_CIGAM_64) then mret HkUnsupportedMachO
      else if negb (bool_decide (le_magic = MH_MAGIC_64))
      then mret (if starts_with data SHEBANG then HkScript else HkUnknownFormat)
      else if bool_decide (length data < 32) then mret HkMalformedMachO
      else
        cputype ← u32_le data 4;
        cpusubtype ← u32_le data 8;
        ncmds ← u32_le data 16;
        mret (HkThin64 cputype cpusubtype (N.to_nat ncmds)).

Fixpoint nul_trim (l : bytes) : bytes :=
  match l with
  | [] => []
  | b :: l' => if bool_decide (b = 0%N) then [] else b :: nul_trim l'
  end.

Definition TEXT_NAME : bytes := [95; 95; 84; 69; 88; 84]%N.

Fixpoint text_walk (data : bytes) (ncmds pos : nat) : outcome (option (list (N * N))) :=
  match ncmds with
  | O => mret (Some [])
  | S ncmds' =>
      if bool_decide (length data < pos + 72) then mret None
      else
        cmd ← u32_le data pos;
        size ← u32_le data (pos + 4);
        let cmdsize := N.to_nat size in
        if bool_decide (cmdsize < 8) || bool_decide (length data < pos + cmdsize) then mret None
        else
          here ← (if bool_decide (cmd = LC_SEGMENT_64) && bool_decide (72 <= cmdsize) then
                    segname ← slice data (pos + 8) (pos + 24);
                    if bool_decide (nul_trim segname = TEXT_NAME) then
                      fileoff ← u64_le data (pos + 40);
                      filesize ← u64_le data (pos + 48);
                      mret [(fileoff, filesize)]
                    else mret []
                  else mret []);
          rest ← text_walk data ncmds' (pos + cmdsize);
          mret (match rest with Some r => Some (here ++ r) | None => None end)
  end.

Definition text_ranges (data : bytes) : outcome (option (list (N * N))) :=
  kind ← parse_header_kind data;
  match kind with
  | HkThin64 _ _ ncmds => text_walk data (Nat.min ncmds 512) 32
  | _ => mret None
  end.

Definition is_supported_cpu (cputype : N) : bool :=
  bool_decide (cputype = CPU_TYPE_ARM64) || bool_decide (cputype = CPU_TYPE_X86_64).

(** [cpusubtype & !CPU_SUBTYPE_MASK] at 32 bits. *)
Definition is_supported_cpu_subtype (cputype cpusubtype : N) : bool :=
  let subtype := N.ldiff cpusubtype CPU_SUBTYPE_MASK in
  if bool_decide (cputype = CPU_TYPE_ARM64) then bool_decide (subtype = CPU_SUBTYPE_ARM64_ALL)
  else if bool_decide (cputype = CPU_TYPE_X86_64)
  then bool_decide (subtype = CPU_SUBTYPE_X86_64_ALL) || bool_decide (subtype = CPU_SUBTYPE_X86_64_H)
  else false.

(** [data.windows(n)]. *)
Definition windows (n : nat) (data : bytes) : list bytes :=
  (fun i => take n (drop i data)) <$> seq 0 (S (length data) - n).

Section Scanner.
Context `{ExecEnv}.

Definition contains_syscall_pattern (data : bytes) : bool :=
  existsb (fun pattern => existsb (fun w => bool_decide (w = pattern)) (windows (length pattern) data))
    (NATIVE_SYSCALL_PATTERNS native_arch).

(** The chunks of a range; [tail] is what the front of the buffer keeps of the
    chunks before, [rest] the bytes behind it, into which the next chunk is read. *)
Fixpoint scan_loop (fuel : nat) (f : Fd) (tail rest : bytes) (remaining : N) : outcome (Fd * option bool) :=
  if bool_decide (remaining = 0%N) then mret (f, Some false)
  else
    match fuel with
    | O => Panic
    | S fuel' =>
        match raw_read f (N.to_nat (N.min remaining SCAN_CHUNK)) rest with
        | (f1, None) => mret (f1, None)
        | (f1, Some []) => mret (f1, None)
        | (f1, Some got) =>
            let buf := tail ++ got in
            if contains_syscall_pattern buf then mret (f1, Some true)
            else
              let kept := drop (length buf - Nat.min (length buf) 3) buf in
              scan_loop fuel' f1 kept (drop (length kept) (buf ++ drop (length got) rest))
                (remaining - N.of_nat (length got))
        end
    end.

(** Every chunk takes something off the range, so its size is fuel enough. *)
Definition scan_file_range (f : Fd) (fileoff filesize : N) : outcome (Fd * option bool) :=
  if bool_decide (filesize = 0%N) then mret (f, Some false)
  else
    match seek_to f fileoff with
    | None => mret (f, None)
    | Some f1 => scan_loop (N.to_nat filesize) f1 [] (zeros (N.to_nat SCAN_CHUNK + 3)) filesize
    end.

Fixpoint scan_ranges (f : Fd) (ranges : list (N * N)) : outcome (option ScanVerdict) :=
  match ranges with
  | [] => mret (Some Clean)
  | (fileoff, filesize) :: rest =>
      r ← scan_file_range f fileoff filesize;
      match r with
      | (_, Some true) => mret (Some (Suspicious SyscallInstruction))
      | (f1, Some false) => scan_ranges f1 rest
      | (_, None) => mret None
      end
  end.

Definition scan_fd (f : Fd) : outcome (option ScanVerdict) :=
  match raw_read f MAX_HEADER_READ (zeros MAX_HEADER_READ) with
  | (_, None) => mret None
  | (f1, Some header) =>
      if bool_decide (length header < 32) then mret None
      else
        ranges ← text_ranges header;
        match ranges with
        | None => mret None
        | Some rs => scan_ranges f1 rs
        end
  end.

Definition scan_path (path : string) : SM (option ScanVerdict) :=
  fd ← open_file path;
  match fd with None => mret None | Some f => lift (scan_fd f) end.

Definition cached_or_scan (path : string) (hash : bytes) : SM (option ScanVerdict) := fun st =>
  match sc_cache st !! hash with
  | Some verdict => Val (Some verdict, st)
  | None =>
      match scan_path path st with
      | Val (Some verdict, st1) =>
          Val (Some verdict, mkScanState (sc_opens st1) (<[hash := verdict]> (sc_cache st1)))
      | other => other
      end
  end.

(** The bytes fed to the hasher; [buf] is the buffer of the reads. *)
Fixpoint hash_loop (fuel : nat) (f : Fd) (buf fed : bytes) : outcome (option bytes) :=
  match fuel with
  | O => Panic
  | S fuel' =>
      match raw_read f (N.to_nat SCAN_CHUNK) buf with
      | (_, None) => mret None
      | (_, Some []) => mret (Some (scan_sha256 fed))
      | (f1, Some got) => hash_loop fuel' f1 (got ++ drop (length got) buf) (fed ++ got)
      end
  end.

(** The fuel is that of a file all of whose reads succeed; one that fails makes the loop
    longer, one that fails for ever makes it endless: [failing_reads_hash_forever]. *)
Definition hash_file (path : string) : SM (option bytes) :=
  fd ← open_file path;
  match fd with
  | None => mret None
  | Some f => lift (hash_loop (S (length (fd_content f))) f (zeros (N.to_nat SCAN_CHUNK)) [])
  end.

Definition classify_thin64 (path : string) (cputype cpusubtype : N) : SM BinaryTier :=
  if negb (bool_decide (cputype = NATIVE_CPU_TYPE native_arch)) || negb (is_supported_cpu cputype)
  then mret (T0Blocked UnsupportedArch)
  else if negb (is_supported_cpu_subtype cputype cpusubtype) then mret (T0Blocked UnsupportedSubtype)
  else
    hash ← hash_file path;
    match hash with
    | None => mret (T0Blocked ScanFailure)
    | Some h =>
        verdict ← cached_or_scan path h;
        mret (match verdict with
              | Some Clean => T2CleanNativeMachO
              | Some (Suspicious reason) => T3SuspiciousUnknown reason
              | None => T0Blocked ScanFailure
              end)
    end.

Definition classify_path (path : option string) : SM BinaryTier :=
  match path with
  | None => mret (T0Blocked UnreadablePath)
  | Some p =>
      shed ← will_shed_dylib path;
      match shed with
      | Some Setuid => mret (T0Blocked PrivilegeEscalation)
      | Some CodeSign => mret (T0Blocked HardenedRuntime)
      | None =>
          fd ← open_file p;
          match fd with
          | None => mret (T0Blocked UnreadablePath)
          | Some f =>
              match (raw_read f MAX_HEADER_READ (zeros MAX_HEADER_READ)).2 with
              | None => mret (T0Blocked HeaderReadFailure)
              | Some header =>
                  kind ← lift (parse_header_kind header);
                  match kind with
                  | HkElf | HkUnknownFormat => mret (T0Blocked UnknownFormat)
                  | HkFat => mret (T0Blocked FatBinary)
                  | HkScript => mret T2AllowedScript
                  | HkUnsupportedMachO => mret (T0Blocked UnsupportedArch)
                  | HkMalformedMachO => mret (T0Blocked MalformedMachO)
                  | HkThin64 cputype cpusubtype _ => classify_thin64 p cputype cpusubtype
                  end
              end
          end
      end
  end.

(** The Linux boundary of [scanner/elf.rs]. *)
Definition classify_path_elf (path : option string) : SM BinaryTier :=
  match path with
  | None => mret (T0Blocked UnreadablePath)
  | Some p =>
      if is_setuid path then mret (T0Blocked PrivilegeEscalation)
      else
        fd ← open_file p;
        match fd with
        | None => mret (T0Blocked UnreadablePath)
        | Some f =>
            match (libc_read f 4).2 with
            | None => mret (T0Blocked HeaderReadFailure)
            | Some header =>
                if starts_with header SHEBANG then mret T2AllowedScript
                else if bool_decide (header = ELF_MAGIC) then mret (T0Blocked UnsupportedElf)
                else mret (T0Blocked UnknownFormat)
            end
        end
  end.

(** exec_policy.rs *)

Inductive ExecDecision : Type :=
| ExecAllow
| ExecBlock (r : BlockReason)
| ExecTrace (r : SuspiciousReason).

(** [scanner::classify_path] is the Mach-O scanner on macOS and the ELF boundary
    on Linux. *)
Definition check_exec_target (classify : option string -> SM BinaryTier) (path : option string) :
    SM ExecDecision :=
  tier ← classify path;
  mret (match tier with
        | T0Blocked reason => ExecBlock reason
        | T3SuspiciousUnknown reason => ExecTrace reason
        | T2AllowedScript | T2CleanNativeMachO => ExecAllow
        end).

End Scanner.

(** ** Reading *)

(** A read that succeeds. *)
Definition read_gives (f : Fd) (want : nat) (f1 : Fd) (got : bytes) : Prop :=
  (exists n, n <= want /\ got = take n (drop (fd_pos f) (fd_content f)) /\ (0 < want -> 0 < n)) /\
  fd_pos f1 = fd_pos f + length got /\ length got <= want.

Lemma raw_read_spec (f : Fd) (want : nat) buf f1 r :
  raw_read f want buf = (f1, r) ->
  fd_content f1 = fd_content f /\ fd_answer f1 = fd_answer f /\ fd_seek_ok f1 = fd_seek_ok f /\
  fd_errno f1 = fd_errno f /\ fd_reads f1 = S (fd_reads f) /\
  exists got, r = Some got /\
    match fd_answer f (fd_reads f) with
    | None => fd_pos f1 = fd_pos f /\ got = take (fd_errno f (fd_reads f)) buf
    | Some _ => read_gives f want f1 got
    end.
Proof.
  unfold raw_read, libc_read. destruct (fd_answer f (fd_reads f)) as [k|] eqn:E; intros [= <- <-]; cbn.
  - do 5 (split; [done|]). eexists. split; [done|]. split; [|split; [done|]].
    + exists (Nat.min want (Nat.max 1 k)). split; [lia|]. split; [done|lia].
    + rewrite length_take. lia.
  - do 5 (split; [done|]). by eexists.
Qed.

(** All reads of a descriptor succeed. *)
Definition reads_succeed (f : Fd) : Prop := forall i, fd_answer f i <> None.

Lemma raw_read_succeeds f want buf f1 r :
  reads_succeed f -> raw_read f want buf = (f1, r) ->
  exists got, r = Some got /\ read_gives f want f1 got /\ fd_content f1 = fd_content f /\ reads_succeed f1.
Proof.
  intros Hs Hr. destruct (raw_read_spec _ _ _ _ _ Hr) as (Hc & Ha & _ & _ & _ & got & -> & Hm).
  exists got. split; [done|]. unfold reads_succeed. rewrite Ha. destruct (fd_answer f (fd_reads f)) eqn:E; [done|].
  by apply Hs in E.
Qed.

Lemma slice_val data i j : i <= j -> j <= length data -> slice data i j = Val (take (j - i) (drop i data)).
Proof. intros. unfold slice. by rewrite bool_decide_eq_true_2. Qed.

Lemma slice_ok data i j : i <= j -> j <= length data -> exists l, slice data i j = Val l.
Proof. intros. eexists. by apply slice_val. Qed.

Definition is_u8 (b : N) : Prop := (b < 256)%N.

Lemma foldl_be_bound (l : bytes) (acc : N) :
  Forall is_u8 l ->
  (foldl (fun acc b => acc * 256 + b)%N acc l < (acc + 1) * 256 ^ N.of_nat (length l))%N.
Proof.
  revert acc. induction l as [|b l IH]; intros acc Hl; [cbn; lia|].
  inversion Hl as [|? ? Hb Hl']; subst. cbn [foldl length]. eapply N.lt_le_trans; [by apply IH|].
  rewrite Nat2N.inj_succ, N.pow_succ_r'. unfold is_u8 in Hb. rewrite N.mul_assoc.
  apply N.mul_le_mono_r. lia.
Qed.

Lemma of_be_bound l : Forall is_u8 l -> (of_be l < 256 ^ N.of_nat (length l))%N.
Proof. intros H. pose proof (foldl_be_bound l 0 H). unfold of_be. lia. Qed.

Lemma of_le_bound l : Forall is_u8 l -> (of_le l < 256 ^ N.of_nat (length l))%N.
Proof.
  intros H. unfold of_le. pose proof (of_be_bound (rev l)) as Hb. rewrite length_rev in Hb. apply Hb.
  by apply List.Forall_rev.
Qed.

Ltac word_bound lem op n :=
  intros Hd Hl; unfold op; rewrite slice_val by lia; cbn [mbind outcome_bind]; eexists; split; [reflexivity|];
  eapply N.lt_le_trans; [apply lem; by apply Forall_take, Forall_drop|];
  rewrite length_take, length_drop, Nat.min_l by lia;
  match goal with |- context [?o + n - ?o] => replace (o + n - o) with n by lia end; done.

Lemma u32_le_ok data off :
  Forall is_u8 data -> off + 4 <= length data ->
  exists v, u32_le data off = Val v /\ (v < 4294967296)%N.
Proof. word_bound of_le_bound u32_le 4. Qed.

Lemma u32_be_ok data off :
  Forall is_u8 data -> off + 4 <= length data ->
  exists v, u32_be data off = Val v /\ (v < 4294967296)%N.
Proof. word_bound of_be_bound u32_be 4. Qed.

Lemma u64_be_ok data off :
  Forall is_u8 data -> off + 8 <= length data ->
  exists v, u64_be data off = Val v /\ (v < U64_LIMIT)%N.
Proof. word_bound of_be_bound u64_be 8. Qed.

Lemma u64_le_ok data off :
  Forall is_u8 data -> off + 8 <= length data ->
  exists v, u64_le data off = Val v /\ (v < U64_LIMIT)%N.
Proof. word_bound of_le_bound u64_le 8. Qed.

Definition defined {A} (o : outcome A) : Prop := exists a, o = Val a.

Lemma defined_ret {A} (a : A) : defined (mret a).
Proof. by exists a. Qed.

Lemma defined_bind {A B} (o : outcome A) (k : A -> outcome B) :
  defined o -> (forall a, o = Val a -> defined (k a)) -> defined (a ← o; k a).
Proof. intros [a ->] Hk. cbn. by apply Hk. Qed.

Create HintDb macho.
#[export] Hint Resolve defined_ret : macho.

(** Reads the next word of a header whose bound is in the context. *)
Ltac word_with lem d o :=
  let v := fresh "v" in let E := fresh "E" in let B := fresh "B" in
  destruct (lem d o) as (v & E & B); [done|lia|rewrite E; cbn [mbind outcome_bind]].

Ltac word :=
  match goal with
  | |- context [@mbind outcome _ _ _ _ ?m] =>
      lazymatch m with
      | u32_le ?d ?o => word_with u32_le_ok d o
      | u32_be ?d ?o => word_with u32_be_ok d o
      | u64_le ?d ?o => word_with u64_le_ok d o
      | u64_be ?d ?o => word_with u64_be_ok d o
      end
  end.

(** The test for a short buffer: closes the branch that gives up. *)
Ltac short T :=
  match goal with
  | |- context [bool_decide (length ?d < ?n)] =>
      destruct (decide (length d < n)) as [T|T];
      [rewrite (bool_decide_eq_true_2 (length d < n) T); try (apply defined_ret)
      |rewrite (bool_decide_eq_false_2 (length d < n) T)]
  end.

Lemma code_directory_defined buf o :
  Forall is_u8 buf -> o + 44 <= length buf -> defined (code_directory buf o).
Proof.
  intros Hb Hl. unfold code_directory. do 2 word. unfold idx.
  destruct (lookup_lt_is_Some_2 buf (o + 36)) as [x Hx]; [lia|]. rewrite Hx.
  destruct (_ && _); cbn; eexists; done.
Qed.

Lemma blob_walk_defined buf count i : Forall is_u8 buf -> defined (blob_walk buf count i).
Proof.
  intros Hb. revert i. induction count as [|count IH]; intros i; [apply defined_ret|]. cbn [blob_walk].
  short T. word. short T'; [apply IH|]. word.
  destruct (bool_decide _); [|apply IH].
  destruct (code_directory_defined buf (N.to_nat v)) as [info ->]; [done|lia|]. by eexists.
Qed.

Lemma drop_u8 n (l : bytes) : Forall is_u8 l -> Forall is_u8 (drop n l).
Proof. apply Forall_drop. Qed.

(** Bytes, and error numbers that fit one. *)
Definition fd_wf (f : Fd) : Prop := Forall is_u8 (fd_content f) /\ (forall i, fd_errno f i < 256).

Lemma zeros_u8 n : Forall is_u8 (zeros n).
Proof. apply Forall_replicate. unfold is_u8. lia. Qed.

Lemma raw_read_wf f want buf f1 r :
  fd_wf f -> Forall is_u8 buf -> length buf <= want -> raw_read f want buf = (f1, r) ->
  fd_wf f1 /\ match r with Some got => Forall is_u8 got /\ length got <= want | None => True end.
Proof.
  intros [Hf He] Hb Hl Hr. destruct (raw_read_spec _ _ _ _ _ Hr) as (Hc & _ & _ & He1 & _ & got & -> & Hm).
  unfold fd_wf. rewrite Hc, He1. split; [done|]. destruct (fd_answer f (fd_reads f)) as [k|].
  - destruct Hm as ((n & _ & -> & _) & _ & Hle). split; [|done]. by apply Forall_take, Forall_drop.
  - destruct Hm as [_ ->]. split; [by apply Forall_take|]. rewrite length_take. lia.
Qed.

(** A read into a fresh buffer. *)
Lemma read_zeros_wf f want f1 r :
  fd_wf f -> raw_read f want (zeros want) = (f1, r) ->
  fd_wf f1 /\ match r with Some got => Forall is_u8 got /\ length got <= want | None => True end.
Proof. intros Hf. apply raw_read_wf; [done|apply zeros_u8|]. unfold zeros. by rewrite length_replicate. Qed.

Lemma seek_to_spec f o f1 :
  seek_to f o = Some f1 ->
  (o < OFF_T_LIMIT)%N /\ fd_content f1 = fd_content f /\ fd_pos f1 = N.to_nat o /\
  fd_answer f1 = fd_answer f /\ fd_reads f1 = fd_reads f /\ fd_seek_ok f1 = fd_seek_ok f /\
  fd_errno f1 = fd_errno f.
Proof.
  unfold seek_to. destruct (decide (o < OFF_T_LIMIT)%N) as [T|T];
    [rewrite bool_decide_eq_true_2 by done|by rewrite bool_decide_eq_false_2 by done].
  destruct (fd_seek_ok f o); [|done]. by intros [= <-].
Qed.

Lemma seek_to_wf f o f1 : fd_wf f -> seek_to f o = Some f1 -> fd_wf f1.
Proof. intros Hf H. apply seek_to_spec in H. unfold fd_wf. by destruct H as (_ & -> & _ & _ & _ & _ & ->). Qed.

Lemma read_code_signature_defined f o : fd_wf f -> defined (read_code_signature f o).
Proof.
  intros Hf. unfold read_code_signature. destruct (seek_to f o) as [f1|] eqn:Es; [|apply defined_ret].
  destruct (raw_read f1 _ _) as [f2 r] eqn:Er. cbn [snd].
  destruct (read_zeros_wf _ _ _ _ (seek_to_wf _ _ _ Hf Es) Er) as [_ Hr].
  destruct r as [buf|]; [|apply defined_ret]. destruct Hr as [Hb _].
  short T.
  word. destruct (negb _); [apply defined_ret|]. word. by apply blob_walk_defined.
Qed.

Lemma macho64_walk_defined data f base r ncmds pos :
  Forall is_u8 data -> fd_wf f -> (base < OFF_T_LIMIT)%N -> length data <= MAX_READ ->
  defined (macho64_walk data f base r ncmds pos).
Proof.
  intros Hd Hf Hb Hl. revert pos. induction ncmds as [|ncmds IH]; intros pos; [apply defined_ret|].
  cbn [macho64_walk].
  short T.
  do 2 word. destruct (bool_decide (_ < 8)%N); [apply defined_ret|].
  destruct (bool_decide (v = _)).
  - destruct (decide (length data < pos + 16)) as [T'|T'];
      [rewrite bool_decide_eq_true_2 by done; apply defined_ret|rewrite bool_decide_eq_false_2 by done].
    word. unfold add_u64. rewrite bool_decide_eq_true_2 by (unfold OFF_T_LIMIT, U64_LIMIT in *; lia).
    cbn [mbind outcome_bind]. destruct (read_code_signature_defined f (base + v1)) as [info ->]; [done|].
    cbn [mbind outcome_bind]. destruct info; apply defined_ret.
  - unfold add_u64, MAX_READ in *. rewrite bool_decide_eq_true_2 by (unfold U64_LIMIT in *; lia).
    cbn [mbind outcome_bind]. apply IH.
Qed.

Lemma check_macho64_defined data f base :
  Forall is_u8 data -> fd_wf f -> (base < OFF_T_LIMIT)%N -> length data <= MAX_READ ->
  defined (check_macho64 data f base).
Proof.
  intros Hd Hf Hb Hl. unfold check_macho64.
  short T.
  word. destruct (negb _); [apply defined_ret|]. do 2 word. by apply macho64_walk_defined.
Qed.

Lemma check_macho_at_offset_defined f o : fd_wf f -> defined (check_macho_at_offset f o).
Proof.
  intros Hf. unfold check_macho_at_offset. destruct (seek_to f o) as [f1|] eqn:Es; [|apply defined_ret].
  destruct (raw_read f1 _ _) as [f2 r] eqn:Er.
  destruct (read_zeros_wf _ _ _ _ (seek_to_wf _ _ _ Hf Es) Er) as [Hf2 Hr].
  apply seek_to_spec in Es as (Ho & _).
  destruct r as [buf|]; [|apply defined_ret]. destruct Hr as [Hbuf Hle].
  destruct (bool_decide _); [apply defined_ret|]. by apply check_macho64_defined.
Qed.

(** ** The parsers are total *)

Lemma parse_header_kind_defined data : Forall is_u8 data -> defined (parse_header_kind data).
Proof.
  intros Hd. unfold parse_header_kind. short T. destruct (starts_with data ELF_MAGIC); [apply defined_ret|].
  word. destruct (_ || _); [apply defined_ret|]. word.
  destruct (bool_decide _); [apply defined_ret|]. destruct (negb _); [apply defined_ret|].
  short T'. do 3 word. apply defined_ret.
Qed.

Lemma text_walk_defined data ncmds pos : Forall is_u8 data -> defined (text_walk data ncmds pos).
Proof.
  intros Hd. revert pos. induction ncmds as [|ncmds IH]; intros pos; [apply defined_ret|].
  cbn [text_walk]. short T. do 2 word.
  destruct (_ || _); [apply defined_ret|]. apply defined_bind.
  - destruct (_ && _); [|apply defined_ret].
    destruct (slice_ok data (pos + 8) (pos + 24)) as [l ->]; [lia|lia|]. cbn [mbind outcome_bind].
    destruct (bool_decide _); [|apply defined_ret]. do 2 word. apply defined_ret.
  - intros here _. destruct (IH (pos + N.to_nat v0)) as [r ->]. apply defined_ret.
Qed.

Lemma text_ranges_defined data : Forall is_u8 data -> defined (text_ranges data).
Proof.
  intros Hd. unfold text_ranges. apply defined_bind; [by apply parse_header_kind_defined|].
  intros k _. destruct k; try apply defined_ret. by apply text_walk_defined.
Qed.

(** ** Searching a range in chunks *)

(** A pattern occurs in a list of bytes. *)
Definition occurs (p data : bytes) : Prop := exists before after, data = before ++ p ++ after.

Lemma windows_occurs (p data : bytes) : p ∈ windows (length p) data <-> occurs p data.
Proof.
  unfold windows. rewrite list_elem_of_fmap. split.
  - intros (i & Hp & Hi). apply elem_of_seq in Hi.
    exists (take i data), (drop (length p) (drop i data)). rewrite Hp at 1.
    by rewrite take_drop, take_drop.
  - intros (before & after & ->). exists (length before). split.
    + by rewrite drop_app_length, take_app_length.
    + apply elem_of_seq. rewrite !length_app. lia.
Qed.

Lemma occurs_shorter (p data : bytes) : occurs p data -> length p <= length data.
Proof. intros (b & a & ->). rewrite !length_app. lia. Qed.

Lemma occurs_app_r p a b : occurs p b -> occurs p (a ++ b).
Proof. intros (x & y & ->). exists (a ++ x), y. by rewrite <- app_assoc. Qed.

Lemma occurs_app_l p a b : occurs p a -> occurs p (a ++ b).
Proof. intros (x & y & ->). exists x, (y ++ b). by rewrite <- !app_assoc. Qed.

(** What a search of the new chunk behind the last [k] bytes finds is what a search
    of everything finds, when nothing was found before. *)
Lemma occurs_tail (p done tail got : bytes) (k : nat) :
  length p <= S k -> length tail = k \/ done = [] ->
  ~ occurs p (done ++ tail) -> occurs p ((done ++ tail) ++ got) -> occurs p (tail ++ got).
Proof.
  intros Hp Ht Hno (x & y & Hxy).
  destruct (decide (length x < length done)) as [Hx|Hx].
  - destruct Hno. destruct Ht as [Ht| ->]; [|cbn in Hx; lia].
    assert (length x + length p <= length (done ++ tail)) as Hlen by (rewrite length_app; lia).
    exists x, (drop (length (x ++ p)) (done ++ tail)).
    assert (x ++ p = take (length (x ++ p)) (done ++ tail)) as Hxp.
    { rewrite <- (take_app_le (done ++ tail) got) by (rewrite length_app; lia).
      rewrite Hxy, app_assoc. by rewrite take_app_length. }
    rewrite app_assoc. rewrite Hxp at 1. by rewrite take_drop.
  - rewrite <- app_assoc in Hxy.
    assert (drop (length done) x ++ p ++ y = tail ++ got) as <-.
    { rewrite <- (drop_app_length done (tail ++ got)), Hxy.
      rewrite drop_app_le by lia. done. }
    by exists (drop (length done) x), y.
Qed.

Section Search.
Context `{ExecEnv}.

Lemma fat_walk_defined header f width offset_of nfat i :
  Forall is_u8 header -> fd_wf f -> 16 <= width ->
  (forall o, o + 8 <= length header -> defined (offset_of header o)) ->
  defined (fat_walk header f width offset_of nfat i).
Proof.
  intros Hh Hf Hw Ho. revert i. induction nfat as [|nfat IH]; intros i; [apply defined_ret|].
  cbn [fat_walk]. short T. word. destruct (Ho (8 + i * width + 8)) as [so ->]; [lia|].
  cbn [mbind outcome_bind]. destruct (bool_decide _); [by apply check_macho_at_offset_defined|apply IH].
Qed.

Lemma check_fd_defined f : fd_wf f -> defined (check_fd f).
Proof.
  intros Hf. unfold check_fd. destruct (raw_read f MAX_READ _) as [f1 r] eqn:Er.
  destruct (read_zeros_wf _ _ _ _ Hf Er) as [Hf1 Hr]. destruct r as [buf|]; [|apply defined_ret].
  destruct Hr as [Hb Hl]. short T. word.
  destruct (_ || _); [|destruct (_ || _)].
  - unfold check_fat32. short T'. word. apply fat_walk_defined; [done..|lia|].
    intros o Ho. destruct (u32_be_ok buf o) as (w & -> & _); [done|lia|by eexists].
  - unfold check_fat64. short T'. word. apply fat_walk_defined; [done..|lia|].
    intros o Ho. destruct (u64_be_ok buf o) as (w & -> & _); [done|lia|by eexists].
  - word. destruct (bool_decide _); [|apply defined_ret]. by apply check_macho64_defined.
Qed.

Definition has_syscall (data : bytes) : Prop :=
  exists p, p ∈ NATIVE_SYSCALL_PATTERNS native_arch /\ occurs p data.

Lemma contains_syscall_pattern_spec data : contains_syscall_pattern data = true <-> has_syscall data.
Proof.
  unfold contains_syscall_pattern, has_syscall. rewrite existsb_exists. setoid_rewrite existsb_exists.
  split.
  - intros (p & Hp & w & Hw & E). apply bool_decide_eq_true in E as ->. exists p.
    rewrite <- windows_occurs. split; by apply list_elem_of_In.
  - intros (p & Hp & Ho). exists p. split; [by apply list_elem_of_In|].
    exists p. rewrite bool_decide_eq_true_2 by done. split; [|done].
    by apply list_elem_of_In, windows_occurs.
Qed.

Lemma pattern_length p : p ∈ NATIVE_SYSCALL_PATTERNS native_arch -> 0 < length p <= 4.
Proof. destruct native_arch; cbn; set_unfold; intros; destruct_or?; subst; cbn; lia. Qed.

Lemma has_syscall_chunk (done tail got : bytes) :
  length tail = 3 \/ done = [] -> ~ has_syscall (done ++ tail) ->
  has_syscall (tail ++ got) <-> has_syscall ((done ++ tail) ++ got).
Proof.
  intros Ht Hno. split; intros (p & Hp & Ho); exists p; split; [done| |done|].
  - rewrite <- app_assoc. by apply occurs_app_r.
  - pose proof (pattern_length p Hp) as [_ Hl].
    eapply (occurs_tail p done tail got 3); [lia|done|intros Ho'; apply Hno; by exists p|done].
Qed.

(** The rest of a range after one more chunk. *)
Lemma take_chunk (l : bytes) (pos n : nat) (remaining : N) got :
  got = take n (drop pos l) -> n <= N.to_nat remaining ->
  take (N.to_nat remaining) (drop pos l)
  = got ++ take (N.to_nat (remaining - N.of_nat (length got))) (drop (pos + length got) l).
Proof.
  intros Hgot Hn. rewrite N2Nat.inj_sub, Nat2N.id.
  assert (length got <= n) as Hl by (rewrite Hgot, length_take; lia).
  rewrite <- drop_drop. rewrite <- (take_drop (length got) (drop pos l)) at 1.
  assert (take (length got) (drop pos l) = got) as Ht.
  { rewrite Hgot at 1. rewrite length_take. rewrite Hgot.
    destruct (decide (n <= length (drop pos l))).
    - by rewrite Nat.min_l.
    - rewrite Nat.min_r by lia. rewrite !take_ge by lia. done. }
  rewrite Ht, take_app_ge by lia. done.
Qed.

(** The bytes kept for the next chunk, and those let go. *)
Lemma keep_tail (done tail got : bytes) :
  length tail = 3 \/ done = [] ->
  let buf := tail ++ got in
  let cut := length buf - Nat.min (length buf) 3 in
  (length (drop cut buf) = 3 \/ done ++ take cut buf = []) /\
  (done ++ take cut buf) ++ drop cut buf = (done ++ tail) ++ got.
Proof.
  intros Ht buf cut. split.
  - destruct (decide (3 <= length buf)); [left; rewrite length_drop; unfold cut; lia|right].
    destruct Ht as [Ht| ->]; [unfold buf in *; rewrite length_app in *; lia|].
    unfold cut. rewrite Nat.min_l by lia. by rewrite Nat.sub_diag.
  - rewrite <- app_assoc, take_drop. unfold buf. by rewrite app_assoc.
Qed.

(** What a scan found when its reads succeed: [done ++ tail] was searched, [remaining]
    bytes are to come. *)
Definition scan_result (f : Fd) (seen : bytes) (remaining : N) (r : option bool) : Prop :=
  let whole := seen ++ take (N.to_nat remaining) (drop (fd_pos f) (fd_content f)) in
  match r with
  | Some true => has_syscall whole
  | Some false => ~ has_syscall whole /\ N.to_nat remaining <= length (fd_content f) - fd_pos f
  | None => length (fd_content f) - fd_pos f < N.to_nat remaining
  end.

(** The descriptor a computation leaves is that of the same file. *)
Definition same_file (f f' : Fd) : Prop :=
  fd_content f' = fd_content f /\ fd_answer f' = fd_answer f /\ fd_seek_ok f' = fd_seek_ok f /\
  fd_errno f' = fd_errno f.

Lemma same_file_trans f g h : same_file f g -> same_file g h -> same_file f h.
Proof. unfold same_file. intuition congruence. Qed.

Lemma raw_read_same f want buf f1 r : raw_read f want buf = (f1, r) -> same_file f f1.
Proof. intros Hr. by destruct (raw_read_spec _ _ _ _ _ Hr) as (? & ? & ? & ? & _). Qed.

Lemma scan_loop_total fuel f tail rest remaining :
  N.to_nat remaining <= fuel ->
  exists f' r, scan_loop fuel f tail rest remaining = Val (f', r) /\ same_file f f'.
Proof.
  revert f tail rest remaining. induction fuel as [|fuel IH]; intros f tail rest remaining Hf; cbn [scan_loop];
    (destruct (decide (remaining = 0%N)) as [->|Hr]; [by eexists _, _|]);
    rewrite bool_decide_eq_false_2 by done; [lia|].
  destruct (raw_read f _ rest) as [f1 r] eqn:Er. pose proof (raw_read_same _ _ _ _ _ Er) as Hs.
  destruct r as [[|g got]|]; [by eexists _, _| |by eexists _, _]. cbv zeta.
  destruct (contains_syscall_pattern _); [by eexists _, _|].
  edestruct IH as (f' & r & E & Hs'); [|rewrite E; exists f', r; split; [done|by eapply same_file_trans]].
  cbn [length]. lia.
Qed.

Lemma scan_loop_spec fuel f tail rest remaining seen :
  reads_succeed f -> N.to_nat remaining <= fuel ->
  (length tail = 3 \/ seen = []) -> ~ has_syscall (seen ++ tail) ->
  exists f' r, scan_loop fuel f tail rest remaining = Val (f', r) /\ scan_result f (seen ++ tail) remaining r.
Proof.
  revert f tail rest remaining seen. induction fuel as [|fuel IH]; intros f tail rest remaining seen Hsuc Hf Ht Hno;
    cbn [scan_loop]; (destruct (decide (remaining = 0%N)) as [->|Hr];
      [rewrite bool_decide_eq_true_2 by done; exists f, (Some false); split; [done|];
       unfold scan_result; rewrite app_nil_r; change (N.to_nat 0) with 0; split_and!; [done..|lia]|]);
    rewrite bool_decide_eq_false_2 by done; [lia|].
  destruct (raw_read f (N.to_nat (N.min remaining SCAN_CHUNK)) rest) as [f1 r] eqn:Er.
  destruct (raw_read_succeeds _ _ _ _ _ Hsuc Er) as (got & -> & ((n & Hn & Hgot & Hpos) & Hp1 & Hlen) & Hc & Hsuc1).
  assert (0 < n) as Hn0 by (apply Hpos; unfold SCAN_CHUNK; lia).
  assert (length got = Nat.min n (length (fd_content f) - fd_pos f)) as Hgl
    by (rewrite Hgot, length_take, length_drop; done).
  destruct got as [|g got'] eqn:Eg.
  { exists f1, None. split; [done|]. unfold scan_result. cbn in Hgl. lia. }
  assert (0 < length got) as Hg0 by (rewrite Eg; cbn; lia).
  rewrite <- Eg in *. clear Eg g got'.
  pose proof (take_chunk (fd_content f) (fd_pos f) n remaining got Hgot) as Hchunk.
  pose proof (has_syscall_chunk seen tail got Ht Hno) as Hiff.
  destruct (contains_syscall_pattern (tail ++ got)) eqn:Ec.
  { exists f1, (Some true). split; [done|]. unfold scan_result.
    rewrite Hchunk, app_assoc by lia. apply contains_syscall_pattern_spec, Hiff in Ec as (p & ? & ?).
    exists p. split; [done|]. by apply occurs_app_l. }
  assert (~ has_syscall (tail ++ got)) as Hc' by (rewrite <- contains_syscall_pattern_spec; by rewrite Ec).
  destruct (keep_tail seen tail got Ht) as [Hk Heq].
  edestruct (IH f1) as (f' & r & E & Hres);
    [exact Hsuc1| |exact Hk|rewrite Heq; by rewrite <- Hiff|exists f', r; split; [exact E|]].
  { lia. }
  rewrite Heq in Hres. unfold scan_result in *.
  rewrite Hc, Hp1, <- app_assoc, <- Hchunk in Hres by lia.
  destruct r as [[|]|]; [done|split; [apply Hres|lia]|lia].
Qed.

(** The bytes of a range of a file, as many as there are. *)
Definition file_range (content : bytes) (fileoff filesize : N) : bytes :=
  take (N.to_nat filesize) (drop (N.to_nat fileoff) content).

Definition range_in_file (content : bytes) (fileoff filesize : N) : Prop :=
  N.to_nat filesize <= length content - N.to_nat fileoff.

Lemma not_has_syscall_nil : ~ has_syscall [].
Proof.
  intros (p & Hp & Ho). apply occurs_shorter in Ho. cbn in Ho. pose proof (pattern_length p Hp). lia.
Qed.

(** What an answer [r] of the search of a range means. *)
Definition range_answer (f : Fd) (fileoff filesize : N) (r : option bool) : Prop :=
  match r with
  | Some true => has_syscall (file_range (fd_content f) fileoff filesize)
  | Some false => ~ has_syscall (file_range (fd_content f) fileoff filesize) /\
                  range_in_file (fd_content f) fileoff filesize
  | None => seek_to f fileoff = None \/ ~ range_in_file (fd_content f) fileoff filesize
  end.

Lemma seek_to_same f o f1 : seek_to f o = Some f1 -> same_file f f1.
Proof. intros (_ & ? & _ & ? & _ & ? & ?)%seek_to_spec. done. Qed.

Lemma scan_file_range_total (f : Fd) (fileoff filesize : N) :
  exists f' r, scan_file_range f fileoff filesize = Val (f', r) /\ same_file f f'.
Proof.
  unfold scan_file_range. destruct (bool_decide _); [by eexists _, _|].
  destruct (seek_to f fileoff) as [f1|] eqn:Es; [|by eexists _, _].
  destruct (scan_loop_total (N.to_nat filesize) f1 [] (zeros (N.to_nat SCAN_CHUNK + 3)) filesize)
    as (f' & r & E & Hs); [done|]. exists f', r. split; [exact E|].
  eapply same_file_trans; [by eapply seek_to_same|done].
Qed.

Lemma scan_file_range_spec (f : Fd) (fileoff filesize : N) :
  reads_succeed f ->
  exists f' r, scan_file_range f fileoff filesize = Val (f', r) /\ range_answer f fileoff filesize r /\ same_file f f'.
Proof.
  intros Hsuc. destruct (scan_file_range_total f fileoff filesize) as (f2 & r2 & E2 & Hsame).
  exists f2, r2. split; [done|]. split; [|done]. revert E2. clear Hsame.
  unfold scan_file_range, range_answer, file_range, range_in_file.
  destruct (decide (filesize = 0%N)) as [->|Hz].
  { rewrite bool_decide_eq_true_2 by done. intros [= <- <-].
    change (N.to_nat 0) with 0. split; [exact not_has_syscall_nil|lia]. }
  rewrite bool_decide_eq_false_2 by done. destruct (seek_to f fileoff) as [f1|] eqn:Es.
  2:{ intros [= <- <-]. by left. }
  apply seek_to_spec in Es as (_ & Hc & Hp & Ha & _).
  destruct (scan_loop_spec (N.to_nat filesize) f1 [] (zeros (N.to_nat SCAN_CHUNK + 3)) filesize []) as (f' & r & E & Hres);
    [by unfold reads_succeed; rewrite Ha|done|by right|exact not_has_syscall_nil|].
  rewrite E. intros [= -> ->]. unfold scan_result in Hres. rewrite Hc, Hp in Hres. cbn in Hres.
  destruct r2 as [[|]|]; [done..|]. right. lia.
Qed.

(** C24: on a file whose reads do not fail, the chunked search of a range that is in
    the file ends and answers what one search of the whole range answers, whatever
    the sizes of the reads and wherever an instruction crosses their borders. *)
Theorem scan_file_range_equiv (f : Fd) (fileoff filesize : N) :
  (forall i, fd_answer f i <> None) -> seek_to f fileoff <> None ->
  range_in_file (fd_content f) fileoff filesize ->
  exists f', scan_file_range f fileoff filesize
    = Val (f', Some (contains_syscall_pattern (file_range (fd_content f) fileoff filesize))).
Proof.
  intros Ha Hs Hin. destruct (scan_file_range_spec f fileoff filesize Ha) as (f' & r & E & Hr & _).
  exists f'. rewrite E. destruct r as [[|]|]; cbn [range_answer] in Hr.
  - apply contains_syscall_pattern_spec in Hr. by rewrite Hr.
  - destruct Hr as [Hr _]. rewrite <- contains_syscall_pattern_spec in Hr. apply not_true_is_false in Hr.
    by rewrite Hr.
  - by destruct Hr.
Qed.

(** The ranges of a file are all in it and free of syscall instructions. *)
Definition ranges_clean (content : bytes) (ranges : list (N * N)) : Prop :=
  Forall (fun r => ~ has_syscall (file_range content r.1 r.2) /\ range_in_file content r.1 r.2) ranges.

Lemma scan_ranges_total f ranges : defined (scan_ranges f ranges).
Proof.
  revert f. induction ranges as [|[o n] rest IH]; intros f; cbn [scan_ranges]; [apply defined_ret|].
  destruct (scan_file_range_total f o n) as (f' & r & -> & _). cbn [mbind outcome_bind].
  destruct r as [[|]|]; [apply defined_ret|apply IH|apply defined_ret].
Qed.

Lemma scan_ranges_clean f ranges :
  reads_succeed f -> scan_ranges f ranges = Val (Some Clean) -> ranges_clean (fd_content f) ranges.
Proof.
  revert f. induction ranges as [|[o n] rest IH]; intros f Hsuc; cbn [scan_ranges]; [by constructor|].
  destruct (scan_file_range_spec f o n Hsuc) as (f' & r & -> & Hr & Hc & Ha & _). cbn [mbind outcome_bind].
  destruct r as [[|]|]; cbn [range_answer] in Hr; [done| |done].
  intros E. constructor; [exact Hr|]. rewrite <- Hc. apply IH; [|done]. unfold reads_succeed. by rewrite Ha.
Qed.

(** ** The header of a file and the part of it that was read *)

Section Prefix.
Context (data content : bytes) (Hpre : data `prefix_of` content).

Lemma slice_prefix i j : j <= length data -> slice content i j = slice data i j.
Proof using Hpre.
  intros Hj. destruct Hpre as [l ->]. unfold slice. rewrite length_app.
  destruct (decide (i <= j)) as [T|T]; [|by rewrite !bool_decide_eq_false_2 by lia].
  rewrite !bool_decide_eq_true_2 by lia. rewrite drop_app_le by lia.
  by rewrite take_app_le by (rewrite length_drop; lia).
Qed.

Lemma u32_be_prefix o : o + 4 <= length data -> u32_be content o = u32_be data o.
Proof using Hpre. intros. unfold u32_be. by rewrite slice_prefix. Qed.

Lemma u32_le_prefix o : o + 4 <= length data -> u32_le content o = u32_le data o.
Proof using Hpre. intros. unfold u32_le. by rewrite slice_prefix. Qed.

Lemma u64_le_prefix o : o + 8 <= length data -> u64_le content o = u64_le data o.
Proof using Hpre. intros. unfold u64_le. by rewrite slice_prefix. Qed.

Lemma starts_with_prefix q : length q <= length data -> starts_with content q = starts_with data q.
Proof using Hpre. intros. destruct Hpre as [l ->]. unfold starts_with. by rewrite take_app_le. Qed.

Lemma parse_header_kind_prefix ct cs n :
  parse_header_kind data = Val (HkThin64 ct cs n) -> parse_header_kind content = Val (HkThin64 ct cs n).
Proof using Hpre.
  pose proof (prefix_length _ _ Hpre) as Hl. unfold parse_header_kind.
  destruct (decide (length data < 4)) as [T|T].
  { rewrite bool_decide_eq_true_2 by done. by destruct (starts_with data SHEBANG). }
  rewrite !bool_decide_eq_false_2 by lia. rewrite (starts_with_prefix ELF_MAGIC), (starts_with_prefix SHEBANG) by (cbn; lia).
  destruct (starts_with data ELF_MAGIC); [done|]. rewrite u32_be_prefix, (u32_le_prefix 0) by lia.
  destruct (u32_be data 0); [|done]. cbn [mbind outcome_bind]. destruct (_ || _); [done|].
  destruct (u32_le data 0); [|done]. cbn [mbind outcome_bind].
  destruct (bool_decide _); [done|]. destruct (negb _); [by destruct (starts_with data SHEBANG)|].
  destruct (decide (length data < 32)) as [T'|T']; [by rewrite bool_decide_eq_true_2 by done|].
  rewrite !bool_decide_eq_false_2 by lia. rewrite (u32_le_prefix 4), (u32_le_prefix 8), (u32_le_prefix 16) by lia. exact id.
Qed.

Lemma text_walk_prefix ncmds pos rs :
  text_walk data ncmds pos = Val (Some rs) -> text_walk content ncmds pos = Val (Some rs).
Proof using Hpre.
  pose proof (prefix_length _ _ Hpre) as Hl. revert pos rs.
  induction ncmds as [|ncmds IH]; intros pos rs; [done|]. cbn [text_walk].
  destruct (decide (length data < pos + 72)) as [T|T]; [by rewrite bool_decide_eq_true_2 by done|].
  rewrite !(bool_decide_eq_false_2 (_ < pos + 72)) by lia. rewrite !u32_le_prefix by lia.
  destruct (u32_le data pos); [|done]. cbn [mbind outcome_bind].
  destruct (u32_le data (pos + 4)) as [size|]; [|done]. cbn [mbind outcome_bind].
  destruct (decide (length data < pos + N.to_nat size)) as [T'|T'].
  { rewrite (bool_decide_eq_true_2 (length data < _)) by done. by rewrite orb_true_r. }
  rewrite !(bool_decide_eq_false_2 (_ < pos + N.to_nat size)) by lia.
  destruct (bool_decide (_ < 8)); [done|]. cbn [orb].
  rewrite !slice_prefix, !u64_le_prefix by lia.
  destruct (if _ : bool then _ else _) as [here|]; [|done]. cbn [mbind outcome_bind].
  destruct (text_walk data ncmds (pos + N.to_nat size)) as [[r|]|] eqn:E; [|done..].
  by rewrite (IH _ _ E).
Qed.

Lemma text_ranges_prefix rs : text_ranges data = Val (Some rs) -> text_ranges content = Val (Some rs).
Proof using Hpre.
  unfold text_ranges. destruct (parse_header_kind data) as [k|] eqn:Ek; [|done]. cbn [mbind outcome_bind].
  destruct k; try done. rewrite (parse_header_kind_prefix _ _ _ Ek). cbn [mbind outcome_bind].
  apply text_walk_prefix.
Qed.

End Prefix.

Lemma raw_read_prefix f want buf f1 got :
  reads_succeed f -> fd_pos f = 0 -> raw_read f want buf = (f1, Some got) -> got `prefix_of` fd_content f.
Proof.
  intros Hs Hp Hr. destruct (raw_read_succeeds _ _ _ _ _ Hs Hr) as (got' & [= <-] & ((n & _ & -> & _) & _) & _).
  rewrite Hp, drop_0. exists (drop n (fd_content f)). by rewrite take_drop.
Qed.

(** The text of a file: the ranges its load commands name are clean. *)
Definition clean_text (content : bytes) : Prop :=
  exists rs, text_ranges content = Val (Some rs) /\ ranges_clean content rs.

Lemma scan_fd_defined f : fd_wf f -> defined (scan_fd f).
Proof.
  intros Hf. unfold scan_fd. destruct (raw_read f MAX_HEADER_READ (zeros MAX_HEADER_READ)) as [f1 r] eqn:Er.
  destruct (read_zeros_wf _ _ _ _ Hf Er) as [_ Hr].
  destruct r as [header|]; [|apply defined_ret]. destruct Hr as [Hh _].
  destruct (bool_decide _); [apply defined_ret|]. apply defined_bind; [by apply text_ranges_defined|].
  intros [rs|] _; [apply scan_ranges_total|apply defined_ret].
Qed.

Lemma scan_fd_clean f :
  reads_succeed f -> fd_pos f = 0 -> scan_fd f = Val (Some Clean) -> clean_text (fd_content f).
Proof.
  intros Hs Hp. unfold scan_fd. destruct (raw_read f MAX_HEADER_READ (zeros MAX_HEADER_READ)) as [f1 r] eqn:Er.
  destruct (raw_read_succeeds _ _ _ _ _ Hs Er) as (header & -> & _ & Hc & Hs1).
  destruct (bool_decide _); [done|]. destruct (text_ranges header) as [[rs|]|] eqn:Ers; [|done..].
  cbn [mbind outcome_bind]. intros E. apply scan_ranges_clean in E; [|done]. rewrite Hc in E.
  exists rs. split; [|done]. apply (text_ranges_prefix header); [by eapply raw_read_prefix|done].
Qed.

(** The hash covers the whole file whatever the sizes of the reads. *)
Lemma hash_loop_spec fuel f buf fed :
  reads_succeed f -> fed = take (fd_pos f) (fd_content f) -> length (fd_content f) - fd_pos f < fuel ->
  hash_loop fuel f buf fed = Val (Some (scan_sha256 (fd_content f))).
Proof.
  revert f buf fed. induction fuel as [|fuel IH]; intros f buf fed Hs Hfed Hfuel; [lia|]. cbn [hash_loop].
  destruct (raw_read f (N.to_nat SCAN_CHUNK) buf) as [f1 r] eqn:Er.
  destruct (raw_read_succeeds _ _ _ _ _ Hs Er) as (got & -> & ((n & _ & Hgot & Hn) & Hp1 & _) & Hc & Hs1).
  assert (0 < n) as Hn0 by (apply Hn; unfold SCAN_CHUNK; lia).
  assert (length got = Nat.min n (length (fd_content f) - fd_pos f)) as Hgl
    by (rewrite Hgot, length_take, length_drop; done).
  assert (take n (drop (fd_pos f) (fd_content f)) = take (length got) (drop (fd_pos f) (fd_content f))) as Hn'.
  { rewrite Hgl. destruct (decide (n <= length (fd_content f) - fd_pos f)); [by rewrite Nat.min_l|].
    rewrite Nat.min_r by lia. by rewrite !take_ge by (rewrite length_drop; lia). }
  destruct got as [|g got'] eqn:Eg.
  { cbn. do 2 f_equal. rewrite Hfed. cbn in Hgl. by rewrite take_ge by lia. }
  assert (0 < length got) as Hg0 by (rewrite Eg; cbn; lia). rewrite <- Eg in *. clear Eg g got'.
  rewrite <- Hc. apply IH; [done| |rewrite Hc; lia].
  rewrite Hc, Hp1, Hfed, <- take_take_drop, <- Hn', <- Hgot. done.
Qed.

End Search.

(** ** Verdicts *)

Lemma sm_bind_val {A B} (m : SM A) (k : A -> SM B) st a st1 :
  m st = Val (a, st1) -> (m ≫= k) st = k a st1.
Proof. intros E. unfold mbind, sm_bind. by rewrite E. Qed.

Section Verdicts.
Context `{ExecEnv}.

(** A freshly opened descriptor is at its start and yields bytes, and error numbers fit a
    byte. *)
Definition env_wf : Prop := forall n p f, open_rdonly n p = Some f -> fd_wf f /\ fd_pos f = 0.

(** The files that can be opened can be read. *)
Definition env_reads : Prop := forall n p f, open_rdonly n p = Some f -> reads_succeed f.

(** The file behind a path does not change between the opens of a classification. *)
Definition stable_files : Prop := forall n m p f g,
  open_rdonly n p = Some f -> open_rdonly m p = Some g -> fd_content f = fd_content g.

(** What a cached clean verdict stands for. *)
Definition cache_ok (st : ScanState) : Prop := forall h,
  sc_cache st !! h = Some Clean -> exists c, scan_sha256 c = h /\ clean_text c.

(** No code signature or flag of the image makes the loader drop the library. *)
Definition keeps_dylib (f : Fd) : Prop :=
  exists i, check_fd f = Val i /\ forall x, i = Some x -> info_will_shed_dylib x = false.

(** After an open, the computation on the descriptor. *)
Lemma open_then {A} p st (k : option Fd -> SM A) :
  (open_file p ≫= k) st = k (open_rdonly (sc_opens st) p) (mkScanState (S (sc_opens st)) (sc_cache st)).
Proof. done. Qed.

Context (Hwf : env_wf).

Lemma will_shed_dylib_spec p st :
  exists r st1, will_shed_dylib (Some p) st = Val (r, st1) /\ sc_cache st1 = sc_cache st /\
    (r = None -> is_setuid (Some p) = false /\
       forall f, open_rdonly (sc_opens st) p = Some f -> keeps_dylib f).
Proof using Hwf.
  unfold will_shed_dylib. destruct (is_setuid (Some p)); [by eexists _, _|].
  destruct (open_rdonly (sc_opens st) p) as [f|] eqn:Eo.
  - destruct (check_fd_defined f (proj1 (Hwf _ _ _ Eo))) as [i Hi].
    erewrite sm_bind_val by (cbn [check_binary]; rewrite open_then, Eo; unfold lift; rewrite Hi; done).
    eexists _, _. split; [done|]. split; [done|]. intros Hn. split; [done|].
    intros f' [= <-]. exists i. split; [done|]. intros x ->. by destruct (info_will_shed_dylib x).
  - erewrite sm_bind_val by (cbn [check_binary]; rewrite open_then, Eo; done).
    eexists _, _. split; [done|]. split; [done|]. intros _. split; [done|]. intros f [=].
Qed.

Context (Hrd : env_reads).

Lemma hash_file_spec p st :
  exists h st1, hash_file p st = Val (h, st1) /\ sc_cache st1 = sc_cache st /\
    (forall x, h = Some x -> exists n f, open_rdonly n p = Some f /\ x = scan_sha256 (fd_content f)).
Proof using Hwf Hrd.
  unfold hash_file. rewrite open_then.
  destruct (open_rdonly (sc_opens st) p) as [f|] eqn:Eo; [|by eexists _, _].
  unfold lift. rewrite hash_loop_spec; [|by eapply Hrd|by rewrite (proj2 (Hwf _ _ _ Eo))|lia].
  eexists _, _. split; [done|]. split; [done|]. intros x [= <-]. by exists (sc_opens st), f.
Qed.

Lemma scan_path_spec p st :
  exists v st1, scan_path p st = Val (v, st1) /\ sc_cache st1 = sc_cache st /\
    (v = Some Clean -> exists n f, open_rdonly n p = Some f /\ clean_text (fd_content f)).
Proof using Hwf Hrd.
  unfold scan_path. rewrite open_then.
  destruct (open_rdonly (sc_opens st) p) as [f|] eqn:Eo; [|by eexists _, _].
  destruct (Hwf _ _ _ Eo) as [Hf Hp]. destruct (scan_fd_defined f Hf) as [v Hv].
  unfold lift. rewrite Hv. eexists _, _. split; [done|]. split; [done|]. intros ->.
  exists (sc_opens st), f. split; [done|]. apply scan_fd_clean; [by eapply Hrd|done|done].
Qed.

Lemma cached_or_scan_total p h st : exists v st1, cached_or_scan p h st = Val (v, st1).
Proof using Hwf Hrd.
  unfold cached_or_scan. destruct (sc_cache st !! h); [by eexists _, _|].
  destruct (scan_path_spec p st) as ([v|] & st1 & -> & _); by eexists _, _.
Qed.

Lemma cached_or_scan_sound p h st n f :
  stable_files -> cache_ok st -> open_rdonly n p = Some f -> h = scan_sha256 (fd_content f) ->
  exists v st1, cached_or_scan p h st = Val (v, st1) /\ cache_ok st1 /\
    (v = Some Clean -> exists c, scan_sha256 c = h /\ clean_text c).
Proof using Hwf Hrd.
  intros Hst Hok Ho Hh. unfold cached_or_scan. destruct (sc_cache st !! h) as [v|] eqn:Ec.
  { eexists _, _. split; [done|]. split; [done|]. intros [= ->]. by apply Hok. }
  destruct (scan_path_spec p st) as (v & st1 & -> & Hc & Hres).
  assert (v = Some Clean -> exists c, scan_sha256 c = h /\ clean_text c) as Hv.
  { intros Hv. destruct (Hres Hv) as (m & g & Hg & Hcl). exists (fd_content g). split; [|done].
    rewrite Hh. f_equal. by eapply Hst. }
  destruct v as [v|]; eexists _, _; (split; [done|]); (split; [|done]).
  - intros h'. cbn. destruct (decide (h' = h)) as [->|Hne].
    + rewrite lookup_insert_eq. intros [= ->]. by apply Hv.
    + rewrite lookup_insert_ne by done. rewrite Hc. apply Hok.
  - intros h'. rewrite Hc. apply Hok.
Qed.

Lemma classify_thin64_total p ct cs st : exists t st1, classify_thin64 p ct cs st = Val (t, st1).
Proof using Hwf Hrd.
  unfold classify_thin64. destruct (_ || _); [by eexists _, _|]. destruct (negb _); [by eexists _, _|].
  destruct (hash_file_spec p st) as (h & st1 & E & _). rewrite (sm_bind_val _ _ _ _ _ E).
  destruct h as [h|]; [|by eexists _, _].
  destruct (cached_or_scan_total p h st1) as (v & st2 & E2). rewrite (sm_bind_val _ _ _ _ _ E2). by eexists _, _.
Qed.

Lemma classify_thin64_sound p ct cs st :
  stable_files -> cache_ok st ->
  exists t st1, classify_thin64 p ct cs st = Val (t, st1) /\ cache_ok st1 /\ t <> T2AllowedScript /\
    (t = T2CleanNativeMachO ->
     ct = NATIVE_CPU_TYPE native_arch /\ is_supported_cpu_subtype ct cs = true /\
     exists n f c, open_rdonly n p = Some f /\ scan_sha256 c = scan_sha256 (fd_content f) /\ clean_text c).
Proof using Hwf Hrd.
  intros Hst Hok. unfold classify_thin64.
  destruct (_ || _) eqn:Ea; [by eexists _, _|]. destruct (negb (is_supported_cpu_subtype ct cs)) eqn:Es; [by eexists _, _|].
  destruct (hash_file_spec p st) as (h & st1 & E & Hc & Hh). rewrite (sm_bind_val _ _ _ _ _ E).
  assert (cache_ok st1) as Hok1 by (intros x; rewrite Hc; apply Hok).
  destruct h as [h|]; [|by eexists _, _].
  destruct (Hh h eq_refl) as (n & f & Ho & Hx).
  destruct (cached_or_scan_sound p h st1 n f Hst Hok1 Ho Hx) as (v & st2 & E2 & Hok2 & Hv).
  rewrite (sm_bind_val _ _ _ _ _ E2). eexists _, _. split; [done|]. split; [done|].
  split; [by destruct v as [[]|]|]. intros Ht. destruct v as [[|]|]; try done.
  destruct (Hv eq_refl) as (c & Hch & Hcl). bool_split. split; [done|]. split; [done|].
  exists n, f, c. by rewrite Hch.
Qed.

Lemma script_prefix (header content : bytes) :
  header `prefix_of` content -> parse_header_kind header = Val HkScript -> starts_with content SHEBANG = true.
Proof using.
  intros Hpre. unfold parse_header_kind. set (b := starts_with header SHEBANG).
  assert (b = true -> starts_with content SHEBANG = true) as Hb.
  { intros E. rewrite (starts_with_prefix header); [done|done|]. unfold b, starts_with in E.
    apply bool_decide_eq_true in E. rewrite <- E, length_take. lia. }
  destruct (bool_decide _); [by destruct b; auto|]. destruct (starts_with header ELF_MAGIC); [done|].
  destruct (u32_be header 0); [|done]. cbn [mbind outcome_bind]. destruct (_ || _); [done|].
  destruct (u32_le header 0); [|done]. cbn [mbind outcome_bind]. destruct (bool_decide _); [done|].
  destruct (negb _); [by destruct b; auto|]. destruct (bool_decide _); [done|].
  destruct (u32_le header 4); [|done]. destruct (u32_le header 8); [|done]. by destruct (u32_le header 16).
Qed.

(** Classifying an executable ends with a verdict for every path, every file content
    and all sizes of reads: no index or slice is out of bounds, no 64-bit sum
    overflows, and every loop over load commands, blobs, chunks and ranges terminates. *)
Theorem classify_path_total (path : option string) (st : ScanState) :
  exists tier st1, classify_path path st = Val (tier, st1).
Proof using Hwf Hrd.
  destruct path as [p|]; cbn [classify_path]; [|by eexists _, _].
  destruct (will_shed_dylib_spec p st) as (r & st1 & E & _). rewrite (sm_bind_val _ _ _ _ _ E).
  destruct r as [[|]|]; [by eexists _, _..|]. rewrite open_then.
  destruct (open_rdonly (sc_opens st1) p) as [f|] eqn:Eo; [|by eexists _, _].
  destruct (raw_read f MAX_HEADER_READ (zeros MAX_HEADER_READ)) as [f1 r] eqn:Er. cbn [snd].
  destruct r as [header|]; [|by eexists _, _].
  destruct (read_zeros_wf _ _ _ _ (proj1 (Hwf _ _ _ Eo)) Er) as [_ [Hh _]].
  destruct (parse_header_kind_defined header Hh) as [k Hk].
  erewrite sm_bind_val by (unfold lift; rewrite Hk; done).
  destruct k; try by eexists _, _. apply classify_thin64_total.
Qed.

(** The target is neither setuid nor setgid, its code-signing flags let the library
    load, and it is a script or a thin Mach-O image of the native architecture and a
    supported subtype for which a file of the same SHA-256 digest has every scanned
    [__TEXT] range inside the file and free of syscall instructions. *)
Definition allowed_target (p : string) (st : ScanState) : Prop :=
  is_setuid (Some p) = false /\
  (forall f, open_rdonly (sc_opens st) p = Some f -> keeps_dylib f) /\
  exists n f, open_rdonly n p = Some f /\
    (starts_with (fd_content f) SHEBANG = true \/
     exists cs ncmds c,
       parse_header_kind (fd_content f) = Val (HkThin64 (NATIVE_CPU_TYPE native_arch) cs ncmds) /\
       is_supported_cpu_subtype (NATIVE_CPU_TYPE native_arch) cs = true /\
       scan_sha256 c = scan_sha256 (fd_content f) /\ clean_text c).

Lemma check_exec_target_sound (path : option string) (st : ScanState) :
  stable_files -> cache_ok st ->
  exists d st1, check_exec_target classify_path path st = Val (d, st1) /\ cache_ok st1 /\
    (d = ExecAllow -> exists p, path = Some p /\ allowed_target p st).
Proof using Hwf Hrd.
  intros Hst Hok. unfold check_exec_target, classify_path.
  destruct path as [p|]; [|by eexists _, _].
  destruct (will_shed_dylib_spec p st) as (r & st1 & E & Hc & Hshed).
  assert (cache_ok st1) as Hok1 by (intros x; rewrite Hc; apply Hok).
  destruct r as [[|]|].
  1,2: erewrite sm_bind_val by (rewrite (sm_bind_val _ _ _ _ _ E); done); by eexists _, _.
  destruct (Hshed eq_refl) as [Hsu Hkeep].
  destruct (open_rdonly (sc_opens st1) p) as [f|] eqn:Eo.
  2: erewrite sm_bind_val by (rewrite (sm_bind_val _ _ _ _ _ E), open_then, Eo; done); by eexists _, _.
  destruct (raw_read f MAX_HEADER_READ (zeros MAX_HEADER_READ)) as [f1 r] eqn:Er.
  destruct (Hwf _ _ _ Eo) as [Hfw Hfp].
  destruct r as [header|].
  2: erewrite sm_bind_val by (rewrite (sm_bind_val _ _ _ _ _ E), open_then, Eo, Er; done); by eexists _, _.
  destruct (read_zeros_wf _ _ _ _ Hfw Er) as [_ [Hh _]].
  pose proof (raw_read_prefix _ _ _ _ _ (Hrd _ _ _ Eo) Hfp Er) as Hpre.
  destruct (parse_header_kind_defined header Hh) as [k Hk].
  destruct k.
  1-6: erewrite sm_bind_val by (rewrite (sm_bind_val _ _ _ _ _ E), open_then, Eo, Er; cbn [snd];
         erewrite sm_bind_val by (unfold lift; rewrite Hk; done); done);
       eexists _, _; (split; [done|]); (split; [done|]); try done.
  { intros _. exists p. split; [done|]. split; [done|]. split; [done|]. exists (sc_opens st1), f. split; [done|]. left.
    by eapply script_prefix. }
  destruct (classify_thin64_sound p cputype cpusubtype (mkScanState (S (sc_opens st1)) (sc_cache st1)) Hst Hok1)
    as (t & st2 & Et & Hok2 & Hns & Hcl).
  erewrite sm_bind_val by (rewrite (sm_bind_val _ _ _ _ _ E), open_then, Eo, Er; cbn [snd];
    erewrite sm_bind_val by (unfold lift; rewrite Hk; done); exact Et).
  eexists _, _. split; [done|]. split; [done|]. intros Hd. exists p. split; [done|]. split; [done|]. split; [done|].
  destruct t; try done. destruct (Hcl eq_refl) as (-> & Hsub & n & g & c & Hg & Hsha & Hct).
  exists (sc_opens st1), f. split; [done|]. right. exists cpusubtype, ncmds, c.
  split; [by eapply parse_header_kind_prefix|]. split; [done|]. split; [|done].
  rewrite Hsha. f_equal. by eapply Hst.
Qed.

End Verdicts.

(** ** Examples *)

Definition le32 (v : N) : bytes :=
  [N.land v 255; N.land (N.shiftr v 8) 255; N.land (N.shiftr v 16) 255; N.land (N.shiftr v 24) 255]%N.
Definition toy_header (ncmds : N) : bytes :=
  le32 MH_MAGIC_64 ++ le32 CPU_TYPE_ARM64 ++ le32 0 ++ le32 2 ++ le32 ncmds ++ le32 0 ++ le32 0 ++ le32 0.

(** A [__TEXT] segment at [fileoff]. *)
Definition toy_text (fileoff filesize : N) : bytes :=
  le32 LC_SEGMENT_64 ++ le32 72 ++ (TEXT_NAME ++ zeros 10) ++ zeros 16 ++
  (le32 fileoff ++ zeros 4) ++ (le32 filesize ++ zeros 4) ++ zeros 16.

Definition SVC : bytes := [1; 16; 0; 212]%N.

Definition toy_file (content : bytes) : Fd :=
  mkFd content 0 0 (fun _ => Some (N.to_nat 262144)) (fun _ => true) (fun _ => 5).

(** Every path is the same file, read in pieces of at most [k] bytes. *)
Definition toy_env (content : bytes) (k : nat) : ExecEnv := {|
  native_arch := Aarch64;
  open_rdonly := fun _ _ => Some (mkFd content 0 0 (fun _ => Some k) (fun _ => true) (fun _ => 5));
  stat_mode := fun _ => Some 33261%N;
  scan_sha256 := fun l => l;
|}.

Definition image_clean : bytes := toy_header 1 ++ toy_text 104 8 ++ zeros 8.
Definition image_syscall : bytes := toy_header 1 ++ toy_text 104 8 ++ zeros 2 ++ SVC ++ zeros 2.

(** The syscall instruction of the image lies across the reads of three bytes. *)
Lemma scan_file_range_equiv_witness :
  exists f', @scan_file_range (toy_env image_syscall 3)
    (mkFd image_syscall 0 0 (fun _ => Some 3) (fun _ => true) (fun _ => 5)) 104 8 = Val (f', Some true).
Proof.
  destruct (@scan_file_range_equiv (toy_env image_syscall 3)
              (mkFd image_syscall 0 0 (fun _ => Some 3) (fun _ => true) (fun _ => 5)) 104 8) as [f' E].
  - intros i. discriminate.
  - vm_compute. discriminate.
  - unfold range_in_file. apply (bool_decide_unpack _). vm_compute. exact I.
  - exists f'. rewrite E. vm_compute. reflexivity.
Defined.

Lemma toy_env_wf content k : Forall is_u8 content -> @env_wf (toy_env content k).
Proof. intros Hc n p f [= <-]. split; [split; [exact Hc|intros i; cbn; lia]|reflexivity]. Qed.

Lemma toy_env_reads content k : @env_reads (toy_env content k).
Proof. intros n p f [= <-] i. discriminate. Qed.

Lemma toy_env_stable content k : @stable_files (toy_env content k).
Proof. intros n m p f g [= <-] [= <-]. reflexivity. Qed.

Definition scan_start : ScanState := mkScanState 0 ∅.

Lemma scan_start_ok `{ExecEnv} : cache_ok scan_start.
Proof. intros h Hh. unfold scan_start in Hh. cbn in Hh. by rewrite lookup_empty in Hh. Qed.

Lemma image_clean_u8 : Forall is_u8 image_clean.
Proof. apply (bool_decide_unpack _). vm_compute. exact I. Qed.

Definition kept {A} (o : outcome (A * ScanState)) : option A :=
  match o with Val (a, _) => Some a | Panic => None end.

Lemma classify_path_total_witness :
  @classify_path (toy_env image_clean (N.to_nat 4096)) (Some "/bin/tool") scan_start <> Panic.
Proof.
  destruct (@classify_path_total (toy_env image_clean (N.to_nat 4096)) (toy_env_wf _ _ image_clean_u8)
              (toy_env_reads _ _) (Some "/bin/tool") scan_start) as (t & st1 & E).
  rewrite E. discriminate.
Defined.

(** A [__TEXT] segment that is the 513th load command of an image is not searched:
    its syscall instruction goes unseen and the image is classified clean. *)
Definition image_late_text : bytes :=
  toy_header 513 ++ concat (replicate 512 (le32 27 ++ le32 8)) ++
  toy_text 4200 4 ++ SVC.

Lemma late_text_segment_unscanned :
  kept (@classify_path (toy_env image_late_text (N.to_nat 8192)) (Some "/bin/tool") scan_start)
    = Some T2CleanNativeMachO /\
  @has_syscall (toy_env image_late_text (N.to_nat 8192)) (file_range image_late_text 4200 4).
Proof.
  split; [vm_compute; reflexivity|]. exists SVC. split; [left|]. exists [], []. vm_compute. reflexivity.
Qed.

(** The byte taken for the platform of a code directory is at offset 36: any
    directory of version 0x20400 or later with a non-zero byte there is reported as
    dropping the library, whatever its flags. *)
Lemma platform_byte_sheds buf o v b :
  u32_be buf (o + 8) = Val v -> (132096 <= v)%N -> buf !! (o + 36) = Some b -> (0 < b)%N ->
  forall info, code_directory buf o = Val info -> info_will_shed_dylib info = true.
Proof.
  intros Hv Hge Hb Hpos info. unfold code_directory. destruct (u32_be buf (o + 12)) as [fl|]; [|done].
  cbn [mbind outcome_bind]. rewrite Hv. cbn [mbind outcome_bind].
  pose proof (lookup_lt_Some _ _ _ Hb). rewrite !bool_decide_eq_true_2 by (done || lia). cbn [andb].
  unfold idx. rewrite Hb. cbn. intros [= <-]. unfold info_will_shed_dylib. cbn.
  by rewrite bool_decide_eq_true_2.
Qed.

(** ** Reads that fail *)

Lemma failing_read f want buf : fd_answer f (fd_reads f) = None ->
  (raw_read f want buf).2 = Some (take (fd_errno f (fd_reads f)) buf).
Proof. intros E. unfold raw_read, libc_read. by rewrite E. Qed.

(** The number of the error is taken for a count of bytes: when no read succeeds the
    digest is fed with what the buffer holds, and the loop never ends. *)
Lemma failing_reads_hash_forever `{ExecEnv} fuel f buf fed :
  (forall i, fd_answer f i = None /\ 0 < fd_errno f i) -> buf <> [] -> hash_loop fuel f buf fed = Panic.
Proof.
  revert f buf fed. induction fuel as [|fuel IH]; intros f buf fed Hf Hb; [done|]. cbn [hash_loop].
  destruct (raw_read f (N.to_nat SCAN_CHUNK) buf) as [f1 r] eqn:Er.
  destruct (raw_read_spec _ _ _ _ _ Er) as (_ & Ha & _ & He & _ & got & -> & Hm).
  destruct (Hf (fd_reads f)) as [Hn Hpos]. rewrite Hn in Hm. destruct Hm as [_ ->].
  destruct buf as [|b buf]; [done|]. destruct (fd_errno f (fd_reads f)) as [|e]; [lia|]. cbn [take].
  apply IH; [|done]. intros i. rewrite Ha, He. apply Hf.
Qed.

(** A range whose reads all fail is found clean, here with error 5 twice on a range of
    eight bytes that holds a syscall instruction. *)
Lemma failed_reads_scan_clean :
  exists f', @scan_file_range (toy_env image_syscall 3)
    (mkFd image_syscall 0 0 (fun _ => None) (fun _ => true) (fun _ => 5)) 104 8 = Val (f', Some false) /\
  @has_syscall (toy_env image_syscall 3) (file_range image_syscall 104 8).
Proof.
  eexists. split; [vm_compute; reflexivity|]. exists SVC. split; [left|]. exists (zeros 2), (zeros 2).
  vm_compute. reflexivity.
Qed.
