(* ===== verification/ImageFlags.v ===== *)
(** * What an image must not contain for the library to stay loaded

    A description of Mach-O images by offsets, independent of the parsers of [MachO]:
    where the load commands are, the text segments they name, the code signature and
    the flags of its code directory.  The parsers of [macho_flags.rs] and
    [scanner/macho.rs] are shown to find what is described. *)

From S2P Require Import Prelude RustStr MachO.

(** ** Words and load commands by their offsets *)

Definition word_le (data : bytes) (off len : nat) : N := of_le (take len (drop off data)).
Definition word_be (data : bytes) (off len : nat) : N := of_be (take len (drop off data)).

(** Each load command begins where the one before ends; its size is its second word. *)
Fixpoint command_pos (data : bytes) (start k : nat) : nat :=
  match k with
  | O => start
  | S k' => command_pos data (start + N.to_nat (word_le data (start + 4) 4)) k'
  end.

(** The [k]-th load command is a 64-bit segment (25) named [__TEXT]. *)
Definition text_segment (data : bytes) (k : nat) : Prop :=
  let pos := command_pos data 32 k in
  word_le data pos 4 = 25%N /\ (72 <= word_le data (pos + 4) 4)%N /\
  take 7 (drop (pos + 8) data) = [95; 95; 84; 69; 88; 84; 0]%N.

(** Every text segment among the first 512 load commands lies in the file, and no
    syscall instruction of the processor is in it. *)
Definition text_free_of_syscalls `{ExecEnv} (content : bytes) : Prop :=
  forall k, k < N.to_nat (word_le content 16 4) -> k < 512 -> text_segment content k ->
    let pos := command_pos content 32 k in
    let off := word_le content (pos + 40) 8 in
    let size := word_le content (pos + 48) 8 in
    (size = 0%N \/ N.to_nat off + N.to_nat size <= length content) /\
    ~ has_syscall (take (N.to_nat size) (drop (N.to_nat off) content)).

(** The part of a file that the check of its flags reads, and the part of a code
    signature. *)
Definition head_of (content : bytes) : bytes := take (N.to_nat 65536) content.
Definition signature_at (content : bytes) (off : N) : bytes :=
  take (N.to_nat 8192) (drop (N.to_nat off) content).

(** The first code-signature command (29) of the head is the [k]-th of at most 256, and
    the signature is at [off]. *)
Definition names_signature (content : bytes) (k : nat) (off : N) : Prop :=
  let head := head_of content in
  let pos := command_pos head 32 in
  k < N.to_nat (word_le content 16 4) /\ k < 256 /\
  pos k + 16 <= length head /\ word_le head (pos k) 4 = 29%N /\ off = word_le head (pos k + 8) 4 /\
  (forall j, j < k -> word_le head (pos j) 4 <> 29%N) /\
  (forall j, j <= k -> (8 <= word_le head (pos j + 4) 4)%N).

(** Where the [i]-th blob of a signature is; blobs that do not fit are no directory. *)
Definition blob_at (sig : bytes) (i : nat) : nat := N.to_nat (word_be sig (12 + i * 8 + 4) 4).
Definition is_directory (sig : bytes) (i : nat) : Prop :=
  blob_at sig i + 44 <= length sig /\ word_be sig (blob_at sig i) 4 = 0xfade0c02%N.

(** The flags of the first code directory of a signature, among at most 32 blobs. *)
Definition directory_flags (sig : bytes) (flags : N) : Prop :=
  12 <= length sig /\ word_be sig 0 4 = 0xfade0cc0%N /\
  exists i, i < N.to_nat (word_be sig 8 4) /\ i < 32 /\ 12 + i * 8 + 8 <= length sig /\
    is_directory sig i /\ (forall j, j < i -> ~ is_directory sig j) /\
    flags = word_be sig (blob_at sig i + 12) 4.

(** Neither the header nor the code directory asks the loader to drop the library: the
    restrict bit of the header, and the runtime and restrict bits of the directory. *)
Definition flags_keep_library (content : bytes) : Prop :=
  N.land (word_le content 24 4) 0x80 = 0%N /\
  forall k off flags, names_signature content k off -> directory_flags (signature_at content off) flags ->
    N.land flags 0x10000 = 0%N /\ N.land flags 0x800 = 0%N.

(** ** Reading words *)

Lemma u32_le_word data o : o + 4 <= length data -> u32_le data o = Val (word_le data o 4).
Proof. intros. unfold u32_le. rewrite slice_val by lia. cbn. by replace (o + 4 - o) with 4 by lia. Qed.

Lemma u32_be_word data o : o + 4 <= length data -> u32_be data o = Val (word_be data o 4).
Proof. intros. unfold u32_be. rewrite slice_val by lia. cbn. by replace (o + 4 - o) with 4 by lia. Qed.

Lemma u64_le_word data o : o + 8 <= length data -> u64_le data o = Val (word_le data o 8).
Proof. intros. unfold u64_le. rewrite slice_val by lia. cbn. by replace (o + 8 - o) with 8 by lia. Qed.

Lemma word_le_take (n : nat) data o l : o + l <= n -> word_le (take n data) o l = word_le data o l.
Proof. intros. unfold word_le. rewrite !take_drop_commute, take_take. do 3 f_equal. lia. Qed.

Lemma word_bound_le data o : Forall is_u8 data -> (word_le data o 4 < 4294967296)%N.
Proof.
  intros H. unfold word_le. eapply N.lt_le_trans; [apply of_le_bound; by apply Forall_take, Forall_drop|].
  change 4294967296%N with (256 ^ 4)%N. apply N.pow_le_mono_r; [done|]. rewrite length_take. lia.
Qed.

Lemma command_pos_mono data start k : start <= command_pos data start k.
Proof. revert start. induction k as [|k IH]; intros start; cbn [command_pos]; [lia|]. etrans; [|apply IH]. lia. Qed.

Lemma command_pos_le data start j k : j <= k -> command_pos data start j <= command_pos data start k.
Proof.
  revert start k. induction j as [|j IH]; intros start k Hk; [apply command_pos_mono|].
  destruct k as [|k]; [lia|]. cbn [command_pos]. apply IH. lia.
Qed.

(** ** The parsers find what is described *)

Lemma text_name_trim (l : bytes) : take 7 l = [95; 95; 84; 69; 88; 84; 0]%N -> nul_trim (take 16 l) = TEXT_NAME.
Proof.
  intros H. rewrite <- (take_drop 7 l), H. reflexivity.
Qed.

Lemma text_walk_finds data n start rs k :
  text_walk data n start = Val (Some rs) -> k < n ->
  let pos := command_pos data start k in
  word_le data pos 4 = 25%N -> (72 <= word_le data (pos + 4) 4)%N ->
  take 7 (drop (pos + 8) data) = [95; 95; 84; 69; 88; 84; 0]%N ->
  (word_le data (pos + 40) 8, word_le data (pos + 48) 8) ∈ rs.
Proof.
  revert start rs k. induction n as [|n IH]; intros start rs k Hw Hk pos Hcmd Hsize Hname; [lia|].
  cbn [text_walk] in Hw. destruct (decide (length data < start + 72)) as [T|T];
    [by rewrite bool_decide_eq_true_2 in Hw by done|rewrite bool_decide_eq_false_2 in Hw by done].
  rewrite !u32_le_word in Hw by lia. cbn [mbind outcome_bind] in Hw.
  destruct (bool_decide (_ < 8) || _); [done|].
  destruct (if _ : bool then _ else _) as [here|] eqn:Eh; [|done]. cbn [mbind outcome_bind] in Hw.
  destruct (text_walk data n _) as [[r|]|] eqn:Er; [|done..]. cbn in Hw. injection Hw as <-.
  destruct k as [|k].
  - cbn in pos. subst pos. rewrite Hcmd, !bool_decide_eq_true_2 in Eh by (done || lia). cbn [andb] in Eh.
    rewrite slice_val in Eh by lia. cbn [mbind outcome_bind] in Eh.
    replace (start + 24 - (start + 8)) with 16 in Eh by lia. rewrite (text_name_trim _ Hname) in Eh.
    rewrite bool_decide_eq_true_2, !u64_le_word in Eh by (done || lia). cbn in Eh. injection Eh as <-. by left.
  - apply elem_of_app. right. by apply (IH _ _ k Er); [lia|..].
Qed.

Lemma clean_text_free `{ExecEnv} content ct cs n :
  parse_header_kind content = Val (HkThin64 ct cs n) -> 32 <= length content ->
  n = N.to_nat (word_le content 16 4) -> clean_text content -> text_free_of_syscalls content.
Proof.
  intros Hk Hl Hn (rs & Hrs & Hc) k Hk1 Hk2 (Hcmd & Hsz & Hname) pos off size.
  unfold text_ranges in Hrs. rewrite Hk in Hrs. cbn [mbind outcome_bind] in Hrs.
  assert (k < Nat.min n 512) as Hkn by lia.
  pose proof (text_walk_finds _ _ _ _ k Hrs Hkn Hcmd Hsz Hname) as Hin.
  unfold ranges_clean in Hc. rewrite Forall_forall in Hc. destruct (Hc _ Hin) as [H1 H2]. cbn [fst snd] in H1, H2.
  split; [|exact H1]. unfold range_in_file in H2. destruct (decide (size = 0%N)) as [->|Hz]; [by left|right].
  assert (0 < N.to_nat size) by lia. unfold off, size, pos in *. lia.
Qed.

(** What a thin image's header is made of. *)
Lemma thin_header data ct cs n :
  parse_header_kind data = Val (HkThin64 ct cs n) ->
  32 <= length data /\ word_le data 0 4 = MH_MAGIC_64 /\ ct = word_le data 4 4 /\ n = N.to_nat (word_le data 16 4) /\
  (bool_decide (word_be data 0 4 = FAT_MAGIC) || bool_decide (word_be data 0 4 = FAT_CIGAM)) = false /\
  (bool_decide (word_be data 0 4 = FAT_MAGIC_64) || bool_decide (word_be data 0 4 = FAT_CIGAM_64)) = false.
Proof.
  unfold parse_header_kind. destruct (decide (length data < 4)) as [T|T].
  { rewrite bool_decide_eq_true_2 by done. by destruct (starts_with data SHEBANG). }
  rewrite bool_decide_eq_false_2 by done. destruct (starts_with data ELF_MAGIC); [done|].
  rewrite (u32_be_word data 0), (u32_le_word data 0) by lia. cbn [mbind outcome_bind].
  destruct (bool_decide (_ = FAT_MAGIC)); [done|]. destruct (bool_decide (_ = FAT_CIGAM)); [done|].
  destruct (bool_decide (_ = FAT_MAGIC_64)); [done|]. destruct (bool_decide (_ = FAT_CIGAM_64)); [done|]. cbn [orb].
  destruct (bool_decide (_ = MH_CIGAM_64)); [done|].
  destruct (negb _) eqn:E2; [by destruct (starts_with data SHEBANG)|].
  destruct (decide (length data < 32)) as [T'|T']; [by rewrite bool_decide_eq_true_2 by done|].
  rewrite bool_decide_eq_false_2, !u32_le_word by lia. cbn. intros [= <- <- <-].
  apply negb_false_iff, bool_decide_eq_true in E2. split_and!; (done || lia).
Qed.

(** The whole of a file's head is read, and every place can be reached. *)
Definition reads_in_full (f : Fd) : Prop :=
  (forall i, exists k, fd_answer f i = Some k /\ N.to_nat 65536 <= k) /\ (forall o, fd_seek_ok f o = true).

Lemma raw_read_full f want buf : reads_in_full f -> want <= N.to_nat 65536 ->
  exists f1, raw_read f want buf = (f1, Some (take want (drop (fd_pos f) (fd_content f)))) /\
    fd_content f1 = fd_content f /\ reads_in_full f1.
Proof.
  intros [Ha Hs] Hw. unfold raw_read, libc_read. destruct (Ha (fd_reads f)) as (k & -> & Hk).
  eexists. rewrite Nat.min_l by lia. by split.
Qed.

Lemma seek_to_full f o : reads_in_full f -> (o < OFF_T_LIMIT)%N ->
  exists f1, seek_to f o = Some f1 /\ fd_content f1 = fd_content f /\ fd_pos f1 = N.to_nat o /\ reads_in_full f1.
Proof.
  intros [Ha Hs] Ho. unfold seek_to. rewrite bool_decide_eq_true_2, Hs by done. by eexists.
Qed.

Lemma blob_walk_finds sig n s i :
  s <= i < s + n -> 12 + i * 8 + 8 <= length sig -> is_directory sig i ->
  (forall j, s <= j < i -> ~ is_directory sig j) ->
  exists p, blob_walk sig n s = Val (Some (mkCodeSignInfo (word_be sig (blob_at sig i + 12) 4) p)).
Proof.
  revert s. induction n as [|n IH]; intros s Hs Hl Hd Hno; [lia|]. cbn [blob_walk].
  rewrite bool_decide_eq_false_2, (u32_be_word sig (12 + s * 8 + 4)) by lia. cbn [mbind outcome_bind].
  fold (blob_at sig s). destruct (decide (s = i)) as [->|Hne].
  - destruct Hd as [Hd1 Hd2]. rewrite bool_decide_eq_false_2, u32_be_word by lia. cbn [mbind outcome_bind].
    rewrite Hd2, bool_decide_eq_true_2 by done. unfold code_directory. rewrite !u32_be_word by lia.
    cbn [mbind outcome_bind]. unfold idx. destruct (lookup_lt_is_Some_2 sig (blob_at sig i + 36)) as [x Hx]; [lia|].
    rewrite Hx. destruct (_ && _); cbn; by eexists.
  - assert (exists p, blob_walk sig n (S s) = Val (Some (mkCodeSignInfo (word_be sig (blob_at sig i + 12) 4) p))) as HI
      by (apply IH; [lia|done|done|intros j Hj; apply Hno; lia]).
    pose proof (Hno s ltac:(lia)) as Hs'. unfold is_directory in Hs'.
    destruct (decide (length sig < blob_at sig s + 44)) as [T|T]; [by rewrite bool_decide_eq_true_2|].
    rewrite bool_decide_eq_false_2, u32_be_word by lia. cbn [mbind outcome_bind].
    rewrite bool_decide_eq_false_2; [done|]. intros E. apply Hs'. split; [lia|exact E].
Qed.

Lemma signature_at_eq content off :
  take (N.to_nat 8192) (drop (N.to_nat off) content) = signature_at content off.
Proof. unfold signature_at. reflexivity. Qed.

Lemma read_code_signature_finds f off flags :
  reads_in_full f -> (off < OFF_T_LIMIT)%N -> directory_flags (signature_at (fd_content f) off) flags ->
  exists p, read_code_signature f off = Val (Some (mkCodeSignInfo flags p)).
Proof.
  intros Hf Ho (Hl & Hm & i & Hi & Hi' & Hil & Hd & Hno & ->). unfold read_code_signature.
  destruct (seek_to_full f off Hf Ho) as (f1 & -> & Hc & Hp & Hf1).
  destruct (raw_read_full f1 (N.to_nat 8192) (zeros (N.to_nat 8192)) Hf1) as (f2 & -> & _); [lia|]. cbn [snd].
  rewrite Hc, Hp, signature_at_eq. generalize dependent (signature_at (fd_content f) off). intros sig Hl Hm Hi Hil Hd Hno.
  rewrite bool_decide_eq_false_2, (u32_be_word sig 0) by lia. cbn [mbind outcome_bind].
  rewrite Hm, bool_decide_eq_true_2 by done. cbn [negb]. rewrite (u32_be_word sig 8) by lia. cbn [mbind outcome_bind].
  apply blob_walk_finds; [lia|done|done|]. intros j Hj. apply Hno. lia.
Qed.

(** The walk over the load commands comes to the first code signature. *)
Lemma macho64_walk_finds data f r n start k :
  length data <= N.to_nat 65536 ->
  let pos := command_pos data start in
  k < n -> pos k + 16 <= length data -> word_le data (pos k) 4 = 29%N ->
  (forall j, j < k -> word_le data (pos j) 4 <> 29%N) ->
  (forall j, j <= k -> (8 <= word_le data (pos j + 4) 4)%N) ->
  exists g : option CodeSignInfo -> option CodeSignInfo,
    macho64_walk data f 0 r n start
    = (info ← (abs ← add_u64 0 (word_le data (pos k + 8) 4); read_code_signature f abs); mret (g info)) /\
    (forall i, exists fl, g (Some i) = Some (mkCodeSignInfo fl (cs_platform i)) /\
       N.land (cs_flags i) fl = cs_flags i).
Proof.
  intros Hlen. revert start k. induction n as [|n IH]; intros start k pos Hk Hpos Hcmd Hno Hsz; [lia|].
  assert (start <= pos k) as Hge by apply command_pos_mono. cbn [macho64_walk].
  rewrite bool_decide_eq_false_2, !u32_le_word by lia. cbn [mbind outcome_bind].
  pose proof (Hsz 0 ltac:(lia)) as Hs0. change (pos 0) with start in Hs0. rewrite bool_decide_eq_false_2 by lia.
  destruct k as [|k].
  - change (pos 0) with start in *. rewrite Hcmd, bool_decide_eq_true_2, bool_decide_eq_false_2 by (done || lia).
    cbn [mbind outcome_bind].
    exists (fun info => match info with
      | Some i => Some (if r then mkCodeSignInfo (N.lor (cs_flags i) CS_RESTRICT) (cs_platform i) else i)
      | None => restricted_only r end). split.
    + destruct (add_u64 0 _); [|done]. cbn [mbind outcome_bind]. destruct (read_code_signature f a) as [[i|]|]; done.
    + intros i. exists (if r then N.lor (cs_flags i) CS_RESTRICT else cs_flags i). destruct r.
      * split; [done|]. apply N.bits_inj. intros b. rewrite N.land_spec, N.lor_spec. by destruct (N.testbit (cs_flags i) b).
      * split; [by destruct i|]. apply N.land_diag.
  - pose proof (Hno 0 ltac:(lia)) as Hc0. change (pos 0) with start in Hc0. rewrite bool_decide_eq_false_2 by done.
    assert (command_pos data (start + N.to_nat (word_le data (start + 4) 4)) k = pos (S k)) as Hp by done.
    pose proof (command_pos_mono data (start + N.to_nat (word_le data (start + 4) 4)) k) as Hm. rewrite Hp in Hm.
    unfold add_u64 at 1. rewrite bool_decide_eq_true_2 by (unfold U64_LIMIT; lia). cbn [mbind outcome_bind].
    replace (N.to_nat (N.of_nat start + word_le data (start + 4) 4))
      with (start + N.to_nat (word_le data (start + 4) 4)) by lia.
    apply (IH _ k); [lia|by rewrite Hp|by rewrite Hp|intros j Hj; apply (Hno (S j)); lia|intros j Hj; apply (Hsz (S j)); lia].
Qed.

Lemma testbits_or a m : testbits (N.lor a m) m = negb (bool_decide (m = 0%N)).
Proof.
  unfold testbits. assert (N.land (N.lor a m) m = m) as ->; [|done].
  apply N.bits_inj. intros b. rewrite N.land_spec, N.lor_spec. by destruct (N.testbit a b), (N.testbit m b).
Qed.

(** A header with the restrict bit always reports it. *)
Lemma macho64_walk_restricted data f base n pos i :
  macho64_walk data f base true n pos = Val i -> exists x, i = Some x /\ testbits (cs_flags x) CS_RESTRICT = true.
Proof.
  revert pos. induction n as [|n IH]; intros pos; cbn [macho64_walk]; [by intros [= <-]; eexists|].
  destruct (bool_decide _); [by intros [= <-]; eexists|].
  destruct (u32_le data pos) as [cmd|]; [|done]. destruct (u32_le data (pos + 4)) as [size|]; [|done].
  cbn [mbind outcome_bind]. destruct (bool_decide _); [by intros [= <-]; eexists|].
  destruct (bool_decide (cmd = _)).
  - destruct (bool_decide _); [by intros [= <-]; eexists|].
    destruct (u32_le data (pos + 8)) as [o|]; [|done]. cbn [mbind outcome_bind].
    destruct (add_u64 base o) as [a|]; [|done]. cbn [mbind outcome_bind].
    destruct (read_code_signature f a) as [[x|]|]; [|by intros [= <-]; eexists|done].
    intros [= <-]. eexists. split; [done|]. cbn. by rewrite testbits_or.
  - destruct (add_u64 _ _); [|done]. apply IH.
Qed.

Lemma keeps_bits x : info_will_shed_dylib x = false ->
  N.land (cs_flags x) 0x10000 = 0%N /\ N.land (cs_flags x) 0x800 = 0%N.
Proof.
  unfold info_will_shed_dylib, testbits. rewrite !orb_false_iff, !negb_false_iff, !bool_decide_eq_true.
  by intros ((_ & ?) & ?).
Qed.

Lemma head_of_eq content : take MAX_READ content = head_of content.
Proof. unfold head_of, MAX_READ. reflexivity. Qed.

Lemma head_words content o l : o + l <= N.to_nat 65536 -> word_le (head_of content) o l = word_le content o l.
Proof. apply word_le_take. Qed.

(** The check of a thin image comes down to the walk over its load commands. *)
Lemma check_fd_thin `{ExecEnv} f ct cs n :
  reads_in_full f -> fd_pos f = 0 -> parse_header_kind (fd_content f) = Val (HkThin64 ct cs n) ->
  exists f1, fd_content f1 = fd_content f /\ reads_in_full f1 /\
    check_fd f = macho64_walk (head_of (fd_content f)) f1 0 (testbits (word_le (fd_content f) 24 4) MH_RESTRICT)
                   (N.to_nat (N.min (word_le (fd_content f) 16 4) 256)) 32.
Proof.
  intros Hf Hp Hk. destruct (thin_header _ _ _ _ Hk) as (Hl & Hm & _ & _ & Hf1 & Hf2). unfold check_fd.
  destruct (raw_read_full f MAX_READ (zeros MAX_READ) Hf) as (f1 & -> & Hc & Hfull); [by unfold MAX_READ|].
  exists f1. split; [done|]. split; [done|]. rewrite Hp, drop_0, head_of_eq.
  assert (32 <= length (head_of (fd_content f))) as Hh by (unfold head_of; rewrite length_take; lia).
  assert (word_be (head_of (fd_content f)) 0 4 = word_be (fd_content f) 0 4) as Hb.
  { unfold word_be, head_of. rewrite !drop_0, take_take, Nat.min_l by lia. done. }
  pose proof (head_words (fd_content f) 0 4 ltac:(lia)) as H0.
  pose proof (head_words (fd_content f) 24 4 ltac:(lia)) as H24.
  pose proof (head_words (fd_content f) 16 4 ltac:(lia)) as H16.
  generalize dependent (head_of (fd_content f)). intros head Hh Hb H0 H24 H16.
  rewrite bool_decide_eq_false_2, u32_be_word by lia. cbn [mbind outcome_bind].
  rewrite Hb, Hf1, Hf2, u32_le_word, H0, Hm by lia. cbn [mbind outcome_bind].
  rewrite bool_decide_eq_true_2 by done. unfold check_macho64.
  rewrite bool_decide_eq_false_2, !u32_le_word, H0, H24, H16, Hm by lia. cbn [mbind outcome_bind].
  by rewrite bool_decide_eq_true_2.
Qed.

Lemma keeps_dylib_flags `{ExecEnv} f ct cs n :
  reads_in_full f -> fd_wf f -> fd_pos f = 0 -> parse_header_kind (fd_content f) = Val (HkThin64 ct cs n) ->
  keeps_dylib f -> flags_keep_library (fd_content f).
Proof.
  intros Hf [Hu8 _] Hp Hk (i & Hi & Hkeep).
  destruct (check_fd_thin f ct cs n Hf Hp Hk) as (f1 & Hc & Hf1 & E). rewrite E in Hi. split.
  - destruct (testbits (word_le (fd_content f) 24 4) MH_RESTRICT) eqn:Er.
    + destruct (macho64_walk_restricted _ _ _ _ _ _ Hi) as (x & -> & Hx).
      destruct (keeps_bits x (Hkeep _ eq_refl)) as [_ H2]. unfold testbits in Hx.
      change CS_RESTRICT with 0x800%N in Hx. rewrite H2 in Hx. done.
    + unfold testbits in Er. by apply negb_false_iff, bool_decide_eq_true in Er.
  - intros k off flags (H1 & H2 & H3 & H4 & -> & H6 & H7) Hd. set (head := head_of _) in *.
    destruct (macho64_walk_finds head f1 (testbits (word_le (fd_content f) 24 4) MH_RESTRICT)
      (N.to_nat (N.min (word_le (fd_content f) 16 4) 256)) 32 k) as (g & Hg & Hgi); [|lia|done..|].
    { unfold head, head_of. rewrite length_take. lia. }
    assert (word_le head (command_pos head 32 k + 8) 4 < 4294967296)%N as Hb
      by (apply word_bound_le; unfold head, head_of; by apply Forall_take).
    rewrite Hg in Hi. unfold add_u64 in Hi. rewrite bool_decide_eq_true_2 in Hi by (unfold U64_LIMIT; lia).
    cbn [mbind outcome_bind] in Hi. rewrite N.add_0_l in Hi.
    destruct (read_code_signature_finds f1 (word_le head (command_pos head 32 k + 8) 4) flags Hf1) as [p Er];
      [unfold OFF_T_LIMIT; lia|by rewrite Hc|].
    rewrite Er in Hi. cbn [mbind outcome_bind] in Hi. injection Hi as <-.
    destruct (Hgi (mkCodeSignInfo flags p)) as (fl & Hgf & Hland). cbn in Hland.
    destruct (keeps_bits _ (Hkeep _ Hgf)) as [K1 K2]. cbn in K1, K2.
    rewrite <- Hland, <- !N.land_assoc, K1, K2, N.land_0_r. done.
Qed.

(** ** Programs that may be started *)

(** Neither the set-user nor the set-group bit is set, and the file is a script, or an
    image for this processor whose text, or that of a file of the same digest, is free of
    syscall instructions, and whose flags keep the library when their check could open the
    file and read it in full.  The check is the first open of a classification. *)
Definition permitted_program `{ExecEnv} (p : string) (st : ScanState) : Prop :=
  (forall mode, stat_mode p = Some mode -> N.testbit mode 11 = false /\ N.testbit mode 10 = false) /\
  exists n f, open_rdonly n p = Some f /\
    let content := fd_content f in
    (take 2 content = [35; 33]%N \/
     word_le content 0 4 = 0xfeedfacf%N /\ word_le content 4 4 = NATIVE_CPU_TYPE native_arch /\
     (forall g, open_rdonly (sc_opens st) p = Some g -> reads_in_full g -> flags_keep_library content) /\
     exists c, scan_sha256 c = scan_sha256 content /\ text_free_of_syscalls c).

Lemma clear_bit a m k : N.land a m = 0%N -> N.testbit m k = true -> N.testbit a k = false.
Proof.
  intros Hz Hm. assert (N.testbit (N.land a m) k = false) as Hb by (by rewrite Hz, N.bits_0).
  rewrite N.land_spec, Hm, andb_true_r in Hb. done.
Qed.

Lemma clean_text_thin `{ExecEnv} c : clean_text c -> text_free_of_syscalls c.
Proof.
  intros (rs & Hrs & Hc). pose proof Hrs as Hrs'. unfold text_ranges in Hrs.
  destruct (parse_header_kind c) as [[]|] eqn:Ek; try done.
  destruct (thin_header _ _ _ _ Ek) as (Hl & _ & _ & Hn & _). eapply clean_text_free; [done..|]. by exists rs.
Qed.

Lemma allowed_target_permitted `{ExecEnv} p st :
  env_wf -> stable_files -> allowed_target p st -> permitted_program p st.
Proof.
  intros Hwf Hst (Hsu & Hkeep & n & f & Ho & Hf). split.
  { intros mode Hm. unfold is_setuid in Hsu. rewrite Hm in Hsu. unfold testbits in Hsu.
    apply negb_false_iff, bool_decide_eq_true in Hsu. by split; apply (clear_bit _ 3072). }
  exists n, f. split; [done|]. destruct Hf as [Hs|(cs & ncmds & c & Hk & _ & Hsha & Hct)].
  { left. by apply bool_decide_eq_true in Hs. }
  right. destruct (thin_header _ _ _ _ Hk) as (_ & Hm & Hcpu & _). split; [done|]. split; [done|]. split.
  - intros g Hg Hfull. rewrite (Hst _ _ _ _ _ Ho Hg) in Hk |- *. destruct (Hwf _ _ _ Hg).
    by eapply keeps_dylib_flags; [..|apply Hkeep].
  - exists c. split; [done|]. by apply clean_text_thin.
Qed.
