(* ===== verification/Calendar.v ===== *)
(** * Time stamps of the log

    [now_rfc3339] of [crates/guard-daemon/src/log_writer/jsonl_row.rs] and the stamp
    of [rotate] in [rotation.rs], as functions of the time since the epoch.  The
    year loop runs under fuel 400, the number of years in the part of a Gregorian
    cycle that is left to it; [civil_total] shows that it always ends before. *)

From S2P Require Import Prelude RustStr.

Local Open Scope N_scope.

Definition SECS_PER_DAY : N := 86400.
Definition DAYS_PER_400Y : N := 146097.
Definition SECS_PER_400Y : N := DAYS_PER_400Y * SECS_PER_DAY.

Definition is_leap (y : N) : bool :=
  bool_decide (y mod 4 = 0) && (negb (bool_decide (y mod 100 = 0)) || bool_decide (y mod 400 = 0)).

Definition year_days (y : N) : N := if is_leap y then 366 else 365.

Definition mdays (leap : bool) : list N :=
  [31; if leap then 29 else 28; 31; 30; 31; 30; 31; 31; 30; 31; 30; 31].

(** The loop over years, and the loop over months. *)
Fixpoint year_loop (fuel : nat) (days year : N) : option (N * N) :=
  match fuel with
  | O => None
  | S fuel' =>
      if bool_decide (days < year_days year) then Some (days, year)
      else year_loop fuel' (days - year_days year) (year + 1)
  end.

Fixpoint month_loop (lens : list N) (days month : N) : N * N :=
  match lens with
  | [] => (days, month)
  | md :: rest => if bool_decide (days < md) then (days, month) else month_loop rest (days - md) (month + 1)
  end.

Record Civil : Type := mkCivil {
  cv_year : N; cv_month : N; cv_day : N; cv_hh : N; cv_mm : N; cv_ss : N;
}.

(** Months and days count from one, as printed. *)
Definition civil (secs : N) : option Civil :=
  let n400 := secs / SECS_PER_400Y in
  let rem := secs mod SECS_PER_400Y in
  let day_secs := rem mod SECS_PER_DAY in
  match year_loop 400 (rem / SECS_PER_DAY) (1970 + n400 * 400) with
  | None => None
  | Some (days, year) =>
      let '(d, month) := month_loop (mdays (is_leap year)) days 0 in
      Some (mkCivil year (month + 1) (d + 1) (day_secs / 3600) (day_secs mod 3600 / 60) (day_secs mod 60))
  end.

Definition pad (w : nat) (n : N) : string := zero_pad w (pretty n).

Definition now_rfc3339 (secs millis : N) : option string :=
  match civil secs with
  | None => None
  | Some c => Some (pad 4 (cv_year c) +:+ "-" +:+ pad 2 (cv_month c) +:+ "-" +:+ pad 2 (cv_day c) +:+ "T" +:+
                    pad 2 (cv_hh c) +:+ ":" +:+ pad 2 (cv_mm c) +:+ ":" +:+ pad 2 (cv_ss c) +:+ "." +:+
                    pad 3 millis +:+ "Z")
  end.

Definition rotation_stamp (secs millis : N) : option string :=
  match civil secs with
  | None => None
  | Some c => Some (pad 4 (cv_year c) +:+ pad 2 (cv_month c) +:+ pad 2 (cv_day c) +:+ "T" +:+
                    pad 2 (cv_hh c) +:+ pad 2 (cv_mm c) +:+ pad 2 (cv_ss c) +:+ pad 3 millis)
  end.

(** ** A reference calendar: the days from the epoch to a date *)

Fixpoint sum_years (y : N) (n : nat) : N :=
  match n with O => 0 | S n' => year_days y + sum_years (y + 1) n' end.

Definition sum_N (l : list N) : N := foldr N.add 0 l.

Definition month_start (y m : N) : N := sum_N (take (N.to_nat (m - 1)) (mdays (is_leap y))).

Definition days_from_civil (y m d : N) : N :=
  sum_years 1970 (N.to_nat (y - 1970)) + month_start y m + (d - 1).

Definition valid_date (y m d : N) : Prop :=
  1970 <= y /\ 1 <= m <= 12 /\ exists len, mdays (is_leap y) !! N.to_nat (m - 1) = Some len /\ 1 <= d <= len.

Lemma is_leap_400 y k : is_leap (y + k * 400) = is_leap y.
Proof.
  assert ((y + k * 400) mod 4 = y mod 4) as E4
    by (replace (k * 400) with (k * 100 * 4) by lia; apply N.Div0.mod_add).
  assert ((y + k * 400) mod 100 = y mod 100) as E100
    by (replace (k * 400) with (k * 4 * 100) by lia; apply N.Div0.mod_add).
  assert ((y + k * 400) mod 400 = y mod 400) as E400 by apply N.Div0.mod_add.
  unfold is_leap. by rewrite E4, E100, E400.
Qed.

Lemma sum_years_400 n y k : sum_years (y + k * 400) n = sum_years y n.
Proof.
  revert y. induction n as [|n IH]; intros y; [done|]. cbn [sum_years]. unfold year_days.
  rewrite is_leap_400. rewrite <- (IH (y + 1)). do 2 f_equal. lia.
Qed.

Lemma sum_years_app n m y : sum_years y (n + m) = sum_years y n + sum_years (y + N.of_nat n) m.
Proof.
  revert y. induction n as [|n IH]; intros y.
  - by rewrite N.add_0_r.
  - cbn [sum_years Nat.add]. rewrite IH. replace (y + N.of_nat (S n)) with (y + 1 + N.of_nat n) by lia. lia.
Qed.

Lemma sum_cycle : sum_years 1970 400 = DAYS_PER_400Y.
Proof. vm_compute. reflexivity. Qed.

Lemma sum_cycles k : sum_years 1970 (N.to_nat (k * 400)) = k * DAYS_PER_400Y.
Proof.
  induction k as [|k IH] using N.peano_ind; [done|].
  replace (N.to_nat (N.succ k * 400)) with (N.to_nat (k * 400) + 400)%nat by lia.
  rewrite sum_years_app, IH. rewrite N2Nat.id, sum_years_400, sum_cycle. lia.
Qed.

Lemma year_loop_spec fuel days year :
  days < sum_years year fuel ->
  exists n, (n < fuel)%nat /\
    year_loop fuel days year = Some (days - sum_years year n, year + N.of_nat n) /\
    sum_years year n <= days /\ days - sum_years year n < year_days (year + N.of_nat n).
Proof.
  revert days year. induction fuel as [|fuel IH]; intros days year Hd; [cbn in Hd; lia|].
  cbn [year_loop sum_years] in *. destruct (decide (days < year_days year)) as [T|T].
  - rewrite bool_decide_eq_true_2 by done. exists 0%nat. cbn. rewrite N.sub_0_r, N.add_0_r. split_and!; [lia|done|lia|lia].
  - rewrite bool_decide_eq_false_2 by done.
    destruct (IH (days - year_days year) (year + 1)) as (n & Hn & -> & H1 & H2); [lia|].
    exists (S n). cbn [sum_years]. replace (year + N.of_nat (S n)) with (year + 1 + N.of_nat n) by lia.
    split_and!; [lia| |lia|]; [do 2 f_equal; lia|]. eapply N.le_lt_trans; [|exact H2]. lia.
Qed.

Lemma month_loop_spec lens days month :
  days < sum_N lens ->
  exists i len, lens !! i = Some len /\
    month_loop lens days month = (days - sum_N (take i lens), month + N.of_nat i) /\
    sum_N (take i lens) <= days /\ days - sum_N (take i lens) < len.
Proof.
  revert days month. induction lens as [|md lens IH]; intros days month Hd; [cbn in Hd; lia|].
  cbn [month_loop]. cbn in Hd. destruct (decide (days < md)) as [T|T].
  - rewrite bool_decide_eq_true_2 by done. exists 0%nat, md. cbn. rewrite N.sub_0_r, N.add_0_r. split_and!; [done..|lia|lia].
  - rewrite bool_decide_eq_false_2 by done.
    destruct (IH (days - md) (month + 1)) as (i & len & Hi & -> & H1 & H2); [unfold sum_N; lia|].
    exists (S i), len. split; [done|]. cbn [take]. unfold sum_N in *. cbn [foldr].
    split_and!; [f_equal; lia|lia|]. eapply N.le_lt_trans; [|exact H2]. lia.
Qed.

Lemma mdays_total leap : sum_N (mdays leap) = if leap then 366 else 365.
Proof. by destruct leap. Qed.

Lemma mdays_length leap : length (mdays leap) = 12%nat.
Proof. done. Qed.

Lemma day_secs_split s :
  s < SECS_PER_DAY ->
  s / 3600 < 24 /\ s mod 3600 / 60 < 60 /\ s mod 60 < 60 /\
  s / 3600 * 3600 + s mod 3600 / 60 * 60 + s mod 60 = s.
Proof.
  unfold SECS_PER_DAY. intros Hs.
  pose proof (N.div_mod s 3600 ltac:(lia)) as E1. pose proof (N.mod_lt s 3600 ltac:(lia)) as L1.
  pose proof (N.div_mod (s mod 3600) 60 ltac:(lia)) as E2. pose proof (N.mod_lt (s mod 3600) 60 ltac:(lia)) as L2.
  assert (s mod 3600 mod 60 = s mod 60) as E3.
  { pose proof (N.div_mod s 60 ltac:(lia)). pose proof (N.mod_lt s 60 ltac:(lia)).
    assert (s / 3600 * 60 <= s / 60) by (apply N.div_le_lower_bound; [lia|]; clear - E1; generalize dependent (s mod 3600); generalize (s / 3600); intros q r E1; lia).
    symmetry. apply (N.mod_unique (s mod 3600) 60 (s / 60 - s / 3600 * 60) (s mod 60)); lia. }
  rewrite E3 in *. split_and!; [apply N.Div0.div_lt_upper_bound; lia|apply N.Div0.div_lt_upper_bound; lia|lia|lia].
Qed.

(** The moment a civil time names, in seconds. *)
Definition secs_of (c : Civil) : N :=
  days_from_civil (cv_year c) (cv_month c) (cv_day c) * SECS_PER_DAY
  + cv_hh c * 3600 + cv_mm c * 60 + cv_ss c.

Definition valid_civil (c : Civil) : Prop :=
  valid_date (cv_year c) (cv_month c) (cv_day c) /\ cv_hh c < 24 /\ cv_mm c < 60 /\ cv_ss c < 60.

Lemma civil_spec (secs : N) : exists c, civil secs = Some c /\ valid_civil c /\ secs_of c = secs.
Proof.
  unfold civil. set (k := secs / SECS_PER_400Y). set (rem := secs mod SECS_PER_400Y).
  assert (secs = k * SECS_PER_400Y + rem /\ rem < SECS_PER_400Y) as [Hk Hrem].
  { unfold k, rem. pose proof (N.div_mod secs SECS_PER_400Y ltac:(done)).
    pose proof (N.mod_lt secs SECS_PER_400Y ltac:(done)). lia. }
  assert (rem = rem / SECS_PER_DAY * SECS_PER_DAY + rem mod SECS_PER_DAY /\ rem mod SECS_PER_DAY < SECS_PER_DAY)
    as [Hday Hlt].
  { pose proof (N.div_mod rem SECS_PER_DAY ltac:(done)). pose proof (N.mod_lt rem SECS_PER_DAY ltac:(done)). lia. }
  set (q := rem / SECS_PER_DAY) in *. set (s := rem mod SECS_PER_DAY) in *.
  assert (q < DAYS_PER_400Y) as Hq by (unfold SECS_PER_400Y, SECS_PER_DAY in *; lia).
  destruct (year_loop_spec 400 q (1970 + k * 400)) as (n & _ & -> & Hn & Hy).
  { by rewrite sum_years_400, sum_cycle. }
  set (y := 1970 + k * 400 + N.of_nat n) in *. rewrite sum_years_400 in *.
  destruct (month_loop_spec (mdays (is_leap y)) (q - sum_years 1970 n) 0) as (i & len & Hi & -> & Hs & Hd).
  { rewrite mdays_total. exact Hy. }
  pose proof (lookup_lt_Some _ _ _ Hi) as Hi12. rewrite mdays_length in Hi12.
  destruct (day_secs_split s Hlt) as (Hh & Hm & Hss & Hsum).
  eexists. split; [done|]. split.
  - split_and!; [|done..]. cbn. split_and!; [lia|lia|lia|]. exists len.
    replace (N.to_nat (0 + N.of_nat i + 1 - 1)) with i by lia. split; [done|lia].
  - unfold secs_of, days_from_civil, month_start. cbn.
    replace (N.to_nat (0 + N.of_nat i + 1 - 1)) with i by lia.
    replace (N.to_nat (y - 1970)) with (N.to_nat (k * 400) + n)%nat by lia.
    rewrite sum_years_app, sum_cycles, N2Nat.id, sum_years_400.
    replace (k * DAYS_PER_400Y + sum_years 1970 n + sum_N (take i (mdays (is_leap y)))
             + (q - sum_years 1970 n - sum_N (take i (mdays (is_leap y))) + 1 - 1))
      with (k * DAYS_PER_400Y + q) by lia.
    unfold SECS_PER_400Y in *. lia.
Qed.

(** ** Fixed-width decimals and the order of time stamps *)

Definition digit (d : N) : ascii := ascii_of_N (48 + d).

Fixpoint digits (w : nat) (n : N) (rest : string) : string :=
  match w with O => rest | S w' => digits w' (n / 10) (String (digit (n mod 10)) rest) end.

Lemma digit_compare a b : a < 10 -> b < 10 -> Ascii.compare (digit a) (digit b) = (a ?= b).
Proof.
  intros Ha Hb. unfold Ascii.compare, digit. rewrite !N_ascii_embedding by lia.
  destruct (N.compare_spec a b); [subst; by rewrite N.compare_refl|rewrite N.compare_lt_iff; lia|rewrite N.compare_gt_iff; lia].
Qed.

Definition lex (c d : comparison) : comparison := match c with Eq => d | Lt => Lt | Gt => Gt end.

Lemma compare_radix (a b c d r : N) :
  c < r -> d < r -> (a * r + c ?= b * r + d) = lex (a ?= b) (c ?= d).
Proof.
  intros Hc Hd. unfold lex. destruct (N.compare_spec a b) as [->|Hlt|Hgt].
  - destruct (N.compare_spec c d); [subst; by rewrite N.compare_refl|rewrite N.compare_lt_iff; lia|rewrite N.compare_gt_iff; lia].
  - apply N.compare_lt_iff. nia.
  - apply N.compare_gt_iff. nia.
Qed.

Lemma digits_compare w a b s t :
  a < 10 ^ N.of_nat w -> b < 10 ^ N.of_nat w ->
  String.compare (digits w a s) (digits w b t) = lex (a ?= b) (String.compare s t).
Proof.
  revert a b s t. induction w as [|w IH]; intros a b s t Ha Hb.
  { cbn in *. assert (a = 0) as -> by lia. assert (b = 0) as -> by lia. done. }
  rewrite Nat2N.inj_succ, N.pow_succ_r' in Ha, Hb. cbn [digits].
  rewrite IH by (apply N.Div0.div_lt_upper_bound; lia). cbn [String.compare].
  rewrite digit_compare by (apply N.mod_lt; lia).
  pose proof (N.div_mod a 10 ltac:(lia)) as Ea. pose proof (N.div_mod b 10 ltac:(lia)) as Eb.
  pose proof (N.mod_lt a 10 ltac:(lia)). pose proof (N.mod_lt b 10 ltac:(lia)).
  rewrite Ea at 3. rewrite Eb at 3. rewrite (N.mul_comm 10), (N.mul_comm 10 (b / 10)).
  rewrite compare_radix by lia. unfold lex. destruct (a / 10 ?= b / 10); [|done..]. by destruct (a mod 10 ?= b mod 10).
Qed.

Definition pads_ok (w bound : nat) : bool :=
  forallb (fun n => bool_decide (pad w (N.of_nat n) = digits w (N.of_nat n) "")) (seq 0 bound).

Lemma digits_app w n s : digits w n s = digits w n "" +:+ s.
Proof.
  revert n s. assert (forall w n s t, digits w n (s +:+ t) = digits w n s +:+ t) as H.
  { clear. induction w as [|w IH]; intros n s t; [done|]. cbn [digits]. rewrite <- IH. by rewrite <- app_cons_str. }
  intros n s. rewrite <- H. by rewrite app_nil_l_str.
Qed.

Lemma pads_ok_spec w bound : pads_ok w bound = true ->
  forall n s, n < N.of_nat bound -> pad w n +:+ s = digits w n s.
Proof.
  intros H n s Hn. unfold pads_ok in H. rewrite forallb_forall in H.
  specialize (H (N.to_nat n)). rewrite N2Nat.id in H.
  assert (pad w n = digits w n "") as ->; [|by rewrite <- digits_app].
  apply (bool_decide_eq_true_1 _), H. apply list_elem_of_In, elem_of_seq. lia.
Qed.

Lemma pad2 n s : n < 100 -> pad 2 n +:+ s = digits 2 n s.
Proof. intros. apply (pads_ok_spec 2 100); [vm_compute; reflexivity|lia]. Qed.
Lemma pad3 n s : n < 1000 -> pad 3 n +:+ s = digits 3 n s.
Proof. intros. apply (pads_ok_spec 3 1000); [vm_compute; reflexivity|lia]. Qed.
Lemma pad4 n s : n < 10000 -> pad 4 n +:+ s = digits 4 n s.
Proof. intros. apply (pads_ok_spec 4 (N.to_nat 10000)); [vm_compute; reflexivity|lia]. Qed.

Lemma sum_years_mono y n m : (n <= m)%nat -> sum_years y n <= sum_years y m.
Proof.
  intros Hnm. replace m with (n + (m - n))%nat by lia. rewrite sum_years_app. lia.
Qed.

Lemma sum_N_take_S l i len : l !! i = Some len -> sum_N (take (S i) l) = sum_N (take i l) + len.
Proof.
  intros Hi. rewrite (take_S_r _ _ _ Hi). generalize (take i l). intros k. unfold sum_N.
  induction k as [|x k IH]; cbn; lia.
Qed.

Lemma sum_N_take_mono l i j : (i <= j)%nat -> sum_N (take i l) <= sum_N (take j l).
Proof.
  intros Hij. revert i j Hij. induction l as [|x l IH]; intros [|i] [|j] Hij; cbn; try lia.
  specialize (IH i j ltac:(lia)). unfold sum_N in IH. lia.
Qed.

(** A date lies inside its year and its month. *)
Lemma date_in_month y m d :
  valid_date y m d -> month_start y m + (d - 1) < month_start y (m + 1) /\ month_start y (m + 1) <= year_days y.
Proof.
  intros (_ & Hm & len & Hl & Hd). unfold month_start.
  replace (N.to_nat (m + 1 - 1)) with (S (N.to_nat (m - 1))) by lia. rewrite (sum_N_take_S _ _ _ Hl).
  split; [lia|]. unfold year_days. rewrite <- mdays_total, <- (sum_N_take_S _ _ _ Hl).
  rewrite <- (take_ge (mdays (is_leap y)) 12) at 2 by done. apply sum_N_take_mono. lia.
Qed.

Lemma days_lt_year y m d y' :
  valid_date y m d -> y < y' -> days_from_civil y m d < sum_years 1970 (N.to_nat (y' - 1970)).
Proof.
  intros Hv Hy. destruct (date_in_month y m d Hv) as [H1 H2]. destruct Hv as (H0 & _).
  unfold days_from_civil. eapply N.lt_le_trans; [|apply (sum_years_mono _ (S (N.to_nat (y - 1970)))); lia].
  replace (S (N.to_nat (y - 1970))) with (N.to_nat (y - 1970) + 1)%nat by lia. rewrite sum_years_app. cbn [sum_years].
  replace (1970 + N.of_nat (N.to_nat (y - 1970))) with y by lia. lia.
Qed.

Lemma date_lt y m d y' m' d' :
  valid_date y m d -> valid_date y' m' d' ->
  y < y' \/ (y = y' /\ (m < m' \/ (m = m' /\ d < d'))) ->
  days_from_civil y m d < days_from_civil y' m' d'.
Proof.
  intros Hv Hv' [Hy|[-> [Hm|[-> Hd]]]].
  - pose proof (days_lt_year _ _ _ _ Hv Hy). unfold days_from_civil at 2. lia.
  - destruct (date_in_month _ _ _ Hv) as [H1 _]. unfold days_from_civil.
    assert (month_start y' (m + 1) <= month_start y' m') by (apply sum_N_take_mono; lia). lia.
  - unfold days_from_civil. destruct Hv as (_ & _ & len & _ & ?). lia.
Qed.

Lemma date_compare y m d y' m' d' :
  valid_date y m d -> valid_date y' m' d' ->
  (days_from_civil y m d ?= days_from_civil y' m' d') = lex (y ?= y') (lex (m ?= m') (d ?= d')).
Proof.
  intros Hv Hv'. unfold lex.
  destruct (N.compare_spec y y') as [->|Hy|Hy]; [|apply N.compare_lt_iff, date_lt; auto|apply N.compare_gt_iff, date_lt; auto].
  destruct (N.compare_spec m m') as [->|Hm|Hm]; [|apply N.compare_lt_iff, date_lt; auto|apply N.compare_gt_iff, date_lt; auto].
  destruct (N.compare_spec d d') as [->|Hd|Hd]; [apply N.compare_refl|apply N.compare_lt_iff, date_lt; auto|apply N.compare_gt_iff, date_lt; auto].
Qed.

(** Civil times, with milliseconds, by their fields from the year down. *)
Definition civil_compare (c c' : Civil) (ms ms' : N) : comparison :=
  lex (cv_year c ?= cv_year c') (lex (cv_month c ?= cv_month c') (lex (cv_day c ?= cv_day c')
  (lex (cv_hh c ?= cv_hh c') (lex (cv_mm c ?= cv_mm c') (lex (cv_ss c ?= cv_ss c') (ms ?= ms')))))).

Lemma lex_assoc a b c : lex (lex a b) c = lex a (lex b c).
Proof. by destruct a. Qed.

Lemma civil_compare_time c c' ms ms' :
  valid_civil c -> valid_civil c' -> ms < 1000 -> ms' < 1000 ->
  civil_compare c c' ms ms' = (secs_of c * 1000 + ms ?= secs_of c' * 1000 + ms').
Proof.
  intros (Hv & H1 & H2 & H3) (Hv' & H1' & H2' & H3') Hm Hm'. rewrite compare_radix by done.
  unfold secs_of, SECS_PER_DAY.
  replace (days_from_civil (cv_year c) (cv_month c) (cv_day c) * 86400 + cv_hh c * 3600 + cv_mm c * 60 + cv_ss c)
    with (((days_from_civil (cv_year c) (cv_month c) (cv_day c) * 24 + cv_hh c) * 60 + cv_mm c) * 60 + cv_ss c) by lia.
  replace (days_from_civil (cv_year c') (cv_month c') (cv_day c') * 86400 + cv_hh c' * 3600 + cv_mm c' * 60 + cv_ss c')
    with (((days_from_civil (cv_year c') (cv_month c') (cv_day c') * 24 + cv_hh c') * 60 + cv_mm c') * 60 + cv_ss c') by lia.
  rewrite !compare_radix by done. rewrite date_compare by done.
  unfold civil_compare. by rewrite !lex_assoc.
Qed.

Lemma lex_Eq a b : lex a b = Eq -> a = Eq /\ b = Eq.
Proof. by destruct a. Qed.

(** The conversion of a clock reading to a date and time of day always ends
    and is a bijection between the readings and the valid Gregorian dates and times
    from 1970 on: its result is valid and names the moment it came from, and every
    valid date and time is the conversion of the moment it names. *)
Theorem civil_round_trip :
  (forall secs, exists c, civil secs = Some c /\ valid_civil c /\ secs_of c = secs) /\
  (forall c, valid_civil c -> civil (secs_of c) = Some c).
Proof.
  split; [exact civil_spec|]. intros c Hc. destruct (civil_spec (secs_of c)) as (c' & E & Hc' & Hs).
  rewrite E. f_equal. pose proof (civil_compare_time c' c 0 0 Hc' Hc ltac:(done) ltac:(done)) as Hcmp.
  rewrite Hs, N.compare_refl in Hcmp. unfold civil_compare in Hcmp.
  repeat match type of Hcmp with lex _ _ = Eq => apply lex_Eq in Hcmp as [?%N.compare_eq Hcmp] end.
  destruct c, c'. cbn in *. by subst.
Qed.

Lemma civil_bounds c : valid_civil c -> cv_month c < 100 /\ cv_day c < 100 /\ cv_hh c < 100 /\ cv_mm c < 100 /\ cv_ss c < 100.
Proof.
  intros ((_ & Hm & len & Hl & Hd) & H1 & H2 & H3). split_and!; try lia.
  assert (len <= 31); [|lia]. apply list_elem_of_lookup_2 in Hl.
  assert (Forall (fun x => x <= 31) (mdays (is_leap (cv_year c)))) as Hall
    by (by destruct (is_leap _); apply (bool_decide_unpack _); vm_compute).
  rewrite Forall_forall in Hall. by apply Hall.
Qed.

Lemma compare_same_char a s t : String.compare (String a s) (String a t) = String.compare s t.
Proof. cbn. unfold Ascii.compare. by rewrite N.compare_refl. Qed.

Ltac pads :=
  rewrite ?app_cons_str, ?app_nil_l_str;
  rewrite ?pad4 by lia; rewrite ?pad3 by lia; rewrite ?pad2 by lia.

(** The first moment of the year ten thousand. *)
Definition YEAR_10000 : N := 253402300800.

Lemma year_bound c : valid_civil c -> secs_of c < YEAR_10000 -> cv_year c < 10000.
Proof.
  intros [Hv _] Hc. apply N.nle_gt. intros Hy. unfold secs_of, days_from_civil in Hc.
  assert (2932897 <= sum_years 1970 (N.to_nat (cv_year c - 1970))) as Hs.
  { transitivity (sum_years 1970 (N.to_nat 8030)); [vm_compute; discriminate|]. apply sum_years_mono. lia. }
  unfold SECS_PER_DAY, YEAR_10000 in Hc. lia.
Qed.

(** One field of two texts, and what comes after it. *)
Ltac field :=
  rewrite digits_compare by (cbn; lia);
  match goal with |- context [lex ?x _] => destruct x; [cbn [lex]|reflexivity|reflexivity] end;
  rewrite ?compare_same_char.

(** Within the four-digit years the printed time stamps sort like the moments
    they print: comparing the texts byte by byte gives the order of the clock
    readings to the millisecond, so equal texts come from equal readings. *)
Theorem rfc3339_sorts (s1 m1 s2 m2 : N) :
  m1 < 1000 -> m2 < 1000 -> s1 < YEAR_10000 -> s2 < YEAR_10000 ->
  exists t1 t2, now_rfc3339 s1 m1 = Some t1 /\ now_rfc3339 s2 m2 = Some t2 /\
    String.compare t1 t2 = (s1 * 1000 + m1 ?= s2 * 1000 + m2).
Proof.
  intros Hm1 Hm2 Hs1 Hs2.
  destruct (civil_spec s1) as (c1 & E1 & V1 & T1). destruct (civil_spec s2) as (c2 & E2 & V2 & T2).
  unfold now_rfc3339. rewrite E1, E2. eexists _, _. split; [done|]. split; [done|].
  destruct (civil_bounds c1 V1) as (? & ? & ? & ? & ?). destruct (civil_bounds c2 V2) as (? & ? & ? & ? & ?).
  pose proof (year_bound c1 V1 ltac:(lia)). pose proof (year_bound c2 V2 ltac:(lia)).
  rewrite <- T1, <- T2, <- civil_compare_time by done. unfold civil_compare.
  pads. do 7 field. reflexivity.
Qed.

Lemma rfc3339_sorts_witness :
  exists t1 t2, now_rfc3339 951782399 999 = Some t1 /\ now_rfc3339 951782400 0 = Some t2 /\
    t1 = "2000-02-28T23:59:59.999Z" /\ t2 = "2000-02-29T00:00:00.000Z" /\ String.compare t1 t2 = Lt.
Proof.
  destruct (rfc3339_sorts 951782399 999 951782400 0) as (t1 & t2 & E1 & E2 & E); [done..|].
  exists t1, t2. split; [exact E1|]. split; [exact E2|].
  assert (Some t1 = Some "2000-02-28T23:59:59.999Z") as H1 by (rewrite <- E1; vm_compute; reflexivity).
  assert (Some t2 = Some "2000-02-29T00:00:00.000Z") as H2 by (rewrite <- E2; vm_compute; reflexivity).
  split; [congruence|]. split; [congruence|]. rewrite E. reflexivity.
Defined.
