(* ===== verification/LogWriter.v ===== *)
(** * The log writer

    [crates/guard-daemon/src/log_writer/]: the rows of the log and their bounds
    ([jsonl_row.rs]), the package a process works for ([package_context.rs]), the
    advisories behind a denial ([enrichment.rs]), the bounded queue, the writer
    thread and its counters ([mod.rs]), and rotation with retention
    ([rotation.rs]).  The serialised form of a row, the compressor and the faults of
    file operations are the class [LogEnv]; the directory of the log is a map from
    file names to contents and modification times, which only the writer changes.
    Rotation and its detached compression are separate steps. *)

From S2P Require Import Prelude RustStr RustUtf8 Paths EnvFilter Policy ProcessTree Calendar.

(** ** jsonl_row.rs *)

Definition JSONL_SCHEMA_VERSION : N := 2.
Definition MAX_ARGV_BYTES : nat := 1024.
Definition MAX_ARGV_ELEMENTS : nat := 256.

Record ProcessCtxLog : Type := mkProcessCtxLog {
  pl_pid : N; pl_pidversion : N; pl_argv : list string; pl_cwd : string;
}.

Record RootCtxLog : Type := mkRootCtxLog {
  rl_audit_token : AuditToken; rl_argv : list string;
}.

Record PackageContext : Type := mkPackageContext {
  pc_ecosystem : string; pc_package : string; pc_version : string;
  pc_lifecycle : option string; pc_root_command : string;
}.

Record IntelMatch : Type := mkIntelMatch {
  im_feed : string; im_advisory_id : string; im_source : string;
  im_severity : option string; im_tag : option string; im_first_seen_ms : N;
}.

Record DecisionRow : Type := mkDecisionRow {
  dr_schema_version : N;
  dr_ts : option string;
  dr_verdict : string;
  dr_dest_host : string;
  dr_dest_port : N;
  dr_dest_ip : option string;
  dr_run_uuid : string;
  dr_source_kind : string;
  dr_source_locator : option string;
  dr_process : ProcessCtxLog;
  dr_parent : ProcessCtxLog;
  dr_root : RootCtxLog;
  dr_package_context : option PackageContext;
  dr_intel : option (list IntelMatch);
}.

Record GapRecord : Type := mkGapRecord {
  gr_schema_version : N;
  gr_ts : option string;
  gr_run_uuid : string;
  gr_gap_kind : string;
  gr_process : ProcessCtxLog;
  gr_binary_path : option string;
}.

Inductive JsonRow : Type :=
| RowBlock (d : DecisionRow)
| RowAllow (d : DecisionRow)
| RowGap (g : GapRecord).

Definition truncate_str (s : string) (max : nat) : string :=
  if bool_decide (String.length s <= max) then s else str_take (boundary_back s max) s.

Definition truncate_argv (argv : list string) : list string :=
  let original_len := length argv in
  let capped :=
    if bool_decide (MAX_ARGV_ELEMENTS < original_len)
    then take (MAX_ARGV_ELEMENTS - 1) argv ++
         ["..(truncated, " +:+ pretty (N.of_nat (original_len - (MAX_ARGV_ELEMENTS - 1))) +:+ " more args)"]
    else argv in
  (fun s => truncate_str s MAX_ARGV_BYTES) <$> capped.

(** ** package_context.rs *)

Definition truncate_root_command (s : string) : string := truncate_str s 256.

Definition env_get (env : list (string * string)) (key : string) : option string :=
  (list_find (fun kv => kv.1 = key) env) ≫= fun ikv => Some ikv.2.2.

Definition any_key (env : list (string * string)) (p : string -> bool) : bool :=
  existsb (fun kv => p kv.1) env.

(** The ecosystem, package, version and lifecycle an environment names. *)
Definition pm_signal (env : list (string * string)) : option (string * string * string * option string) :=
  let get := env_get env in
  if any_key env (fun k => starts_with k "npm_") then
    package ← get "npm_package_name";
    Some ("npm", package, default "" (get "npm_package_version"), get "npm_lifecycle_event")
  else if any_key env (fun k => starts_with k "CARGO_") then
    package ← get "CARGO_PKG_NAME";
    Some ("cargo", package, default "" (get "CARGO_PKG_VERSION"), None)
  else if any_key env (fun k => bool_decide (k = "BUNDLE_GEMFILE") || starts_with k "BUNDLE_") then
    Some ("bundle", default "Gemfile" (get "BUNDLE_GEMFILE"), "", None)
  else if any_key env (fun k => starts_with k "PIP_" || bool_decide (k = "VIRTUAL_ENV")) then
    Some ("pip", default "(unknown)" (get "VIRTUAL_ENV"), "", None)
  else if any_key env (fun k => is_pm_env_key k && starts_with k "GO") then Some ("go", "(go)", "", None)
  else if any_key env (fun k => starts_with k "MIX_") then Some ("mix", "(mix)", "", get "MIX_ENV")
  else if any_key env (fun k => starts_with k "HEX_") then Some ("hex", "(hex)", "", None)
  else if any_key env (fun k => starts_with k "COMPOSER_") then Some ("composer", "(composer)", "", None)
  else None.

Definition package_context_from_pm_env (env : list (string * string)) (root_command : string) :
    option PackageContext :=
  match pm_signal env with
  | None => None
  | Some (ecosystem, package, version, lifecycle) =>
      Some (mkPackageContext ecosystem package version lifecycle (truncate_root_command root_command))
  end.

(** The context a node's own environment gives. *)
Definition node_context (n : ProcessNode) (root_command : string) : option PackageContext :=
  env ← pm_env_snapshot n; package_context_from_pm_env env root_command.

(** The walk along parents; [budget] is how many more links it may follow. *)
Fixpoint infer_go (t : Tree) (budget : nat) (current : ProcessNode) (root_command : string) :
    option PackageContext :=
  match node_context current root_command with
  | Some ctx => Some ctx
  | None =>
      match parent_audit_token current with
      | None => None
      | Some parent =>
          match budget with
          | O => None
          | S budget' => next ← get_node t parent; infer_go t budget' next root_command
          end
      end
  end.

Definition infer_package_context (t : Tree) (tok : AuditToken) (root_command : string) : option PackageContext :=
  current ← get_node t tok; infer_go t 64 current root_command.

(** ** enrichment.rs *)

Fixpoint until_whitespace (s : string) : string :=
  match s with
  | EmptyString => EmptyString
  | String a s1 =>
      if ws1 a then EmptyString
      else match s1 with
      | EmptyString => String a EmptyString
      | String b s2 =>
          if ws2 a b then EmptyString
          else match s2 with
          | EmptyString => String a (until_whitespace s1)
          | String c _ => if ws3 a b c then EmptyString else String a (until_whitespace s1)
          end
      end
  end.

(** [reason.split_whitespace().next()]. *)
Definition extract_advisory_id (reason : string) : string :=
  let word := until_whitespace (trim_start reason) in
  if is_empty word then "unknown" else word.

Definition feed_tier (t : RuleTier) : option string :=
  match t with
  | ConfirmedDeny => Some "confirmed"
  | SuspectDeny => Some "suspect"
  | _ => None
  end.

Definition enrich_from_entries (host : string) (entries : list AllowlistEntry) : list IntelMatch :=
  omap (fun entry =>
    match feed_tier (e_tier entry) with
    | None => None
    | Some confidence =>
        if matches entry host
        then Some (mkIntelMatch "OSV" (extract_advisory_id (e_reason entry)) ("host:" +:+ confidence)
                     None (Some confidence) 0)
        else None
    end) entries.

(** ** mod.rs: the queue *)

Definition QUEUE_CAPACITY : nat := N.to_nat 4096.
Definition MAX_DEST_HOST_LEN : nat := 256.

Definition clamp_decision (d : DecisionRow) : DecisionRow :=
  mkDecisionRow (dr_schema_version d) (dr_ts d) (dr_verdict d) (truncate_str (dr_dest_host d) MAX_DEST_HOST_LEN)
    (dr_dest_port d) (dr_dest_ip d) (dr_run_uuid d) (dr_source_kind d) (dr_source_locator d) (dr_process d)
    (dr_parent d) (dr_root d) (dr_package_context d) (dr_intel d).

Definition clamp_row (row : JsonRow) : JsonRow :=
  match row with
  | RowBlock d => RowBlock (clamp_decision d)
  | RowAllow d => RowAllow (clamp_decision d)
  | RowGap g => RowGap g
  end.

(** ** The log directory *)

Record LFile : Type := mkLFile { lf_content : string; lf_mtime : N }.
Abbreviation LogDir := (gmap string LFile).

Class LogEnv : Type := {
  to_json : JsonRow -> string;
  gzip : string -> string;
}.

Definition file_size (content : string) : N := N.of_nat (String.length content).

(** What the operating system answers to one round of the writer. *)
Record Round : Type := mkRound {
  rd_secs : N; rd_millis : N;
  (** How many bytes a failing append writes; nothing when it succeeds. *)
  rd_append_cut : option nat;
  rd_rename_ok : bool;
  rd_reopen_ok : bool;
}.

Definition ROTATED_LOG_PREFIX : string := "stt-guard-".
Definition ROTATED_LOG_SUFFIX_GZ : string := ".log.gz".
Definition LOG_FILENAME : string := "stt-guard.log".
Definition SIZE_THRESHOLD : N := 16777216.
Definition MAX_ARCHIVES : nat := 7.
Definition MAX_TOTAL_BYTES : N := 268435456.

Record LogWriter : Type := mkLogWriter {
  w_queue : list JsonRow;
  w_connected : bool;
  w_blocks : N; w_allows : N; w_gaps : N;
  w_seq : N;
  w_dir : LogDir;
}.

(** [LogWriter::send]: a row is dropped when the queue is full or the thread is gone. *)
Definition send (w : LogWriter) (row : JsonRow) : LogWriter :=
  let row := clamp_row row in
  if negb (w_connected w) then w
  else if bool_decide (QUEUE_CAPACITY <= length (w_queue w)) then w
  else mkLogWriter (w_queue w ++ [row]) true (w_blocks w) (w_allows w) (w_gaps w) (w_seq w) (w_dir w).

Definition counters_snapshot (w : LogWriter) : N * N * N := (w_blocks w, w_allows w, w_gaps w).

Definition U64_WRAP : N := 18446744073709551616.
Definition fetch_add (n : N) : N := ((n + 1) mod U64_WRAP)%N.

Definition count_row (w : LogWriter) (row : JsonRow) : LogWriter :=
  match row with
  | RowBlock _ => mkLogWriter (w_queue w) (w_connected w) (fetch_add (w_blocks w)) (w_allows w) (w_gaps w) (w_seq w) (w_dir w)
  | RowAllow _ => mkLogWriter (w_queue w) (w_connected w) (w_blocks w) (fetch_add (w_allows w)) (w_gaps w) (w_seq w) (w_dir w)
  | RowGap _ => mkLogWriter (w_queue w) (w_connected w) (w_blocks w) (w_allows w) (fetch_add (w_gaps w)) (w_seq w) (w_dir w)
  end.

Definition set_dir (w : LogWriter) (d : LogDir) : LogWriter :=
  mkLogWriter (w_queue w) (w_connected w) (w_blocks w) (w_allows w) (w_gaps w) (w_seq w) d.

Definition LF_str : string := String LF EmptyString.

Section Rotation.
Context `{LogEnv}.

(** [jsonl_row::append] through the open handle. *)
Definition append (d : LogDir) (row : JsonRow) (now : N) (cut : option nat) : LogDir :=
  match d !! LOG_FILENAME with
  | None => d
  | Some f =>
      let line := to_json row +:+ LF_str in
      let put := match cut with None => line | Some k => str_take k line end in
      <[LOG_FILENAME := mkLFile (lf_content f +:+ put) now]> d
  end.

Definition should_rotate (d : LogDir) : bool :=
  match d !! LOG_FILENAME with
  | Some f => bool_decide (SIZE_THRESHOLD <= file_size (lf_content f))%N
  | None => false
  end.

Definition rotated_name (stamp : string) (seq : N) : string :=
  ROTATED_LOG_PREFIX +:+ stamp +:+ "-" +:+ pad 3 seq +:+ ".log".

(** The first free name among at most 64 bumps of the sequence number. *)
Fixpoint free_name (d : LogDir) (stamp : string) (seq : N) (bumps : nat) : string :=
  let name := rotated_name stamp seq in
  match bumps with
  | O => name
  | S bumps' => if bool_decide (is_Some (d !! name)) then free_name d stamp (seq + 1) bumps' else name
  end.

(** [rotate] up to the rename; the name of the rotated file is handed to the
    detached thread. *)
Definition rotate (w : LogWriter) (r : Round) : LogWriter * option string :=
  match rotation_stamp (rd_secs r) (rd_millis r) with
  | None => (w, None)
  | Some stamp =>
      let seq := (w_seq w mod 1000)%N in
      let w1 := mkLogWriter (w_queue w) (w_connected w) (w_blocks w) (w_allows w) (w_gaps w)
                  ((w_seq w + 1) mod 4294967296)%N (w_dir w) in
      match w_dir w !! LOG_FILENAME with
      | None => (w1, None)
      | Some f =>
          let name := free_name (w_dir w) stamp seq 64 in
          if rd_rename_ok r then (set_dir w1 (<[name := f]> (delete LOG_FILENAME (w_dir w))), Some name)
          else (w1, None)
      end
  end.

(** [open_active] creates the file if it is missing. *)
Definition open_active (d : LogDir) (now : N) : LogDir :=
  match d !! LOG_FILENAME with Some _ => d | None => <[LOG_FILENAME := mkLFile "" now]> d end.

(** One turn of the writer thread; the second result is a file to compress. *)
Definition writer_turn (w : LogWriter) (r : Round) : LogWriter * option string :=
  match w_queue w with
  | [] => (w, None)
  | row :: rest =>
      if negb (w_connected w) then (w, None)
      else
        let w1 := count_row (mkLogWriter rest true (w_blocks w) (w_allows w) (w_gaps w) (w_seq w) (w_dir w)) row in
        let w2 := set_dir w1 (append (w_dir w1) row (rd_secs r) (rd_append_cut r)) in
        if should_rotate (w_dir w2) then
          let '(w3, job) := rotate w2 r in
          if rd_reopen_ok r then (set_dir w3 (open_active (w_dir w3) (rd_secs r)), job)
          else (mkLogWriter [] false (w_blocks w3) (w_allows w3) (w_gaps w3) (w_seq w3) (w_dir w3), job)
        else (w2, None)
  end.

(** How the compression of a file ends: it is replaced by the archive, nothing is
    created, a part of the archive is left, or the file stays beside the archive. *)
Inductive GzEnd : Type := GzDone | GzRefused | GzPartial (written : string) | GzKept.

(** [gzip_in_place]: [create_new] refuses an archive that exists. *)
Definition gzip_in_place (d : LogDir) (name : string) (now : N) (e : GzEnd) : LogDir :=
  match d !! name with
  | None => d
  | Some f =>
      let gz := name +:+ ".gz" in
      if bool_decide (is_Some (d !! gz)) then d
      else match e with
           | GzDone => delete name (<[gz := mkLFile (gzip (lf_content f)) now]> d)
           | GzRefused => d
           | GzPartial c => <[gz := mkLFile c now]> d
           | GzKept => <[gz := mkLFile (gzip (lf_content f)) now]> d
           end
  end.

Definition is_archive (name : string) : bool :=
  starts_with name ROTATED_LOG_PREFIX && ends_with name ROTATED_LOG_SUFFIX_GZ.

Record Archive : Type := mkArchive { ar_name : string; ar_mtime : N; ar_size : N }.

(** The archives of a directory listing, oldest first; [sort_by_key] is stable. *)
Definition older (a b : Archive) : Prop := (ar_mtime a <= ar_mtime b)%N.
#[export] Instance older_dec a b : Decision (older a b).
Proof. unfold older. apply _. Defined.
#[export] Instance older_total : Total older.
Proof. intros x y. unfold older. lia. Qed.
#[export] Instance older_trans : Transitive older.
Proof. intros x y z. unfold older. lia. Qed.

Definition archives (d : LogDir) : list Archive :=
  merge_sort older
    ((fun nf => mkArchive nf.1 (lf_mtime nf.2) (file_size (lf_content nf.2)))
       <$> filter (fun nf => is_archive nf.1 = true) (map_to_list d)).

(** The two loops: what they remove, and what they keep. *)
Fixpoint count_cap (l : list Archive) : list Archive * list Archive :=
  match l with
  | [] => ([], [])
  | a :: rest =>
      if bool_decide (MAX_ARCHIVES < length l)
      then let '(gone, kept) := count_cap rest in (a :: gone, kept)
      else ([], l)
  end.

Definition total_size (l : list Archive) : N := foldr (fun a n => ar_size a + n)%N 0%N l.

Fixpoint size_cap (l : list Archive) (total : N) : list Archive * list Archive :=
  match l with
  | [] => ([], [])
  | a :: rest =>
      if bool_decide (MAX_TOTAL_BYTES < total)%N
      then let '(gone, kept) := size_cap rest (total - ar_size a)%N in (a :: gone, kept)
      else ([], l)
  end.

(** A failing [metadata] ends it before anything is removed; [removable] says which
    [remove_file] calls succeed.  The sum of the sizes fits 64 bits. *)
Definition enforce_retention (d : LogDir) (listed : bool) (removable : string -> bool) : LogDir :=
  if negb listed then d
  else
    let '(gone1, kept1) := count_cap (archives d) in
    let '(gone2, _) := size_cap kept1 (total_size kept1) in
    foldl (fun d a => if removable (ar_name a) then delete (ar_name a) d else d) d (gone1 ++ gone2).

End Rotation.

(** ** Truncation *)

Lemma truncate_str_spec (s : string) (max : nat) :
  utf8_valid s = true ->
  utf8_valid (truncate_str s max) = true /\ String.length (truncate_str s max) <= max /\
  (exists rest, s = truncate_str s max +:+ rest).
Proof.
  intros Hv. unfold truncate_str. destruct (decide (String.length s <= max)) as [T|T].
  - rewrite bool_decide_eq_true_2 by done. split; [done|]. split; [done|]. exists "". by rewrite app_nil_r_str.
  - rewrite bool_decide_eq_false_2 by done. destruct (boundary_back_spec s max) as (H1 & H2 & _).
    split; [by apply utf8_valid_take|]. split; [rewrite length_str_take; lia|].
    eexists. by rewrite str_take_drop.
Qed.

Lemma truncate_argv_bounds (argv : list string) :
  Forall (fun s => utf8_valid s = true) argv ->
  length (truncate_argv argv) <= MAX_ARGV_ELEMENTS /\
  Forall (fun s => utf8_valid s = true /\ String.length s <= MAX_ARGV_BYTES) (take 255 (truncate_argv argv)).
Proof.
  intros Hv. unfold truncate_argv. split.
  - rewrite length_fmap. destruct (decide (MAX_ARGV_ELEMENTS < length argv)) as [T|T].
    + rewrite bool_decide_eq_true_2 by done. rewrite length_app, length_take. cbn [length].
      unfold MAX_ARGV_ELEMENTS in *. lia.
    + rewrite bool_decide_eq_false_2 by done. lia.
  - rewrite <- fmap_take, Forall_fmap. apply Forall_forall. intros s Hs. cbn.
    assert (utf8_valid s = true) as Hu.
    { destruct (decide (MAX_ARGV_ELEMENTS < length argv)) as [T|T].
      - rewrite bool_decide_eq_true_2 in Hs by done. rewrite take_app_le in Hs by (rewrite length_take; unfold MAX_ARGV_ELEMENTS in *; lia).
        rewrite take_take in Hs. apply elem_of_take_1 in Hs. rewrite Forall_forall in Hv. by apply Hv.
      - rewrite bool_decide_eq_false_2 in Hs by done. apply elem_of_take_1 in Hs.
        rewrite Forall_forall in Hv. by apply Hv. }
    destruct (truncate_str_spec s MAX_ARGV_BYTES Hu) as (? & ? & _). done.
Qed.

(** ** The closest ancestor *)

(** A node and its ancestors, at most [budget] links up. *)
Fixpoint ancestors (t : Tree) (budget : nat) (n : ProcessNode) : list ProcessNode :=
  n :: match parent_audit_token n, budget with
       | Some p, S budget' =>
           match get_node t p with Some m => ancestors t budget' m | None => [] end
       | _, _ => []
       end.

Lemma infer_go_spec t budget n rc :
  infer_go t budget n rc = head (omap (fun m => node_context m rc) (ancestors t budget n)).
Proof.
  revert n. induction budget as [|budget IH]; intros n.
  - cbn [infer_go ancestors]. cbn. destruct (node_context n rc); [done|]. by destruct (parent_audit_token n).
  - cbn [infer_go ancestors]. cbn [omap list_omap]. destruct (node_context n rc); [done|].
    destruct (parent_audit_token n) as [p|]; [|done]. unfold mbind, option_bind.
    destruct (get_node t p); [apply IH|done].
Qed.

Lemma ancestors_length t budget n : length (ancestors t budget n) <= S budget.
Proof.
  revert n. induction budget as [|budget IH]; intros n; cbn [ancestors length].
  - destruct (parent_audit_token n); cbn; lia.
  - destruct (parent_audit_token n) as [p|]; [|cbn; lia]. destruct (get_node t p); [|cbn; lia].
    specialize (IH p0). lia.
Qed.

(** The package context of a process is that of the closest node that names
    one, itself or an ancestor, looking at no more than 65 nodes, so the walk ends
    also when parent links form a cycle. *)
Theorem infer_closest_ancestor (t : Tree) (tok : AuditToken) (rc : string) :
  infer_package_context t tok rc
    = (get_node t tok ≫= fun n => head (omap (fun m => node_context m rc) (ancestors t 64 n))) /\
  forall n, get_node t tok = Some n -> length (ancestors t 64 n) <= 65.
Proof.
  split.
  - unfold infer_package_context, mbind, option_bind. destruct (get_node t tok); [apply infer_go_spec|done].
  - intros n _. apply ancestors_length.
Qed.

(** ** Retention *)

Section Retention.
Context `{LogEnv}.

Definition arch_of (nf : string * LFile) : Archive :=
  mkArchive nf.1 (lf_mtime nf.2) (file_size (lf_content nf.2)).

Definition arch_list (d : LogDir) : list Archive :=
  arch_of <$> filter (fun nf => is_archive nf.1 = true) (map_to_list d).

Lemma archives_perm d : archives d ≡ₚ arch_list d.
Proof. unfold archives. by rewrite merge_sort_Permutation. Qed.

Lemma arch_list_elem d a :
  a ∈ arch_list d -> exists f, d !! ar_name a = Some f /\ is_archive (ar_name a) = true /\ a = arch_of (ar_name a, f).
Proof.
  unfold arch_list. rewrite list_elem_of_fmap. intros ([n f] & -> & Hn).
  apply list_elem_of_filter in Hn as [Ha Hn]. apply elem_of_map_to_list in Hn. by exists f.
Qed.

Lemma arch_list_delete d a :
  a ∈ arch_list d -> arch_list d ≡ₚ a :: arch_list (delete (ar_name a) d).
Proof.
  intros Ha. destruct (arch_list_elem d a Ha) as (f & Hf & Har & ->). cbn [ar_name arch_of] in *.
  unfold arch_list. rewrite <- (map_to_list_delete d _ _ Hf). rewrite filter_cons_True by done. done.
Qed.

Definition remove_all (d : LogDir) (gone : list Archive) : LogDir :=
  foldl (fun d a => delete (ar_name a) d) d gone.

Lemma remove_all_arch d gone kept :
  arch_list d ≡ₚ gone ++ kept -> arch_list (remove_all d gone) ≡ₚ kept.
Proof.
  revert d. induction gone as [|a gone IH]; intros d Hp; [done|]. cbn. apply IH.
  apply (Permutation_cons_inv (a := a)). rewrite <- arch_list_delete; [done|].
  rewrite Hp. left.
Qed.

Lemma remove_all_other d gone n :
  (forall a, a ∈ gone -> ar_name a <> n) -> remove_all d gone !! n = d !! n.
Proof.
  revert d. induction gone as [|a gone IH]; intros d Hn; [done|]. cbn. rewrite IH.
  - apply lookup_delete_ne. apply Hn. left.
  - intros b Hb. apply Hn. by right.
Qed.

Lemma count_cap_spec l : let '(gone, kept) := count_cap l in l = gone ++ kept /\ length kept <= MAX_ARCHIVES /\
  (length l <= MAX_ARCHIVES -> gone = []).
Proof.
  induction l as [|a l IH]; [cbn; unfold MAX_ARCHIVES; split_and!; [done|lia|done]|]. cbn [count_cap].
  destruct (decide (MAX_ARCHIVES < length (a :: l))) as [T|T].
  - rewrite bool_decide_eq_true_2 by done. destruct (count_cap l) as [gone kept]. destruct IH as (-> & H1 & _).
    split_and!; [done|done|]. intros. lia.
  - rewrite bool_decide_eq_false_2 by done. split_and!; [done|lia|done].
Qed.

Lemma size_cap_spec l : let '(gone, kept) := size_cap l (total_size l) in
  l = gone ++ kept /\ (total_size kept <= MAX_TOTAL_BYTES)%N /\
  ((total_size l <= MAX_TOTAL_BYTES)%N -> gone = []).
Proof.
  induction l as [|a l IH]; [cbn; split_and!; [done|done|done]|]. cbn [size_cap].
  destruct (decide (MAX_TOTAL_BYTES < total_size (a :: l))%N) as [T|T].
  - rewrite bool_decide_eq_true_2 by done.
    replace (total_size (a :: l) - ar_size a)%N with (total_size l) by (unfold total_size; cbn; lia).
    destruct (size_cap l (total_size l)) as [gone kept]. destruct IH as (-> & H1 & _).
    split_and!; [done|done|]. intros. lia.
  - rewrite bool_decide_eq_false_2 by done. split_and!; [done|lia|done].
Qed.

Lemma total_size_perm l k : l ≡ₚ k -> total_size l = total_size k.
Proof. induction 1; cbn in *; unfold total_size in *; cbn in *; lia. Qed.

(** C39: retention that can list and remove leaves at most seven archives of at most
    256 MiB together; it removes only archives, each no newer than any it keeps,
    and nothing at all when the limits already hold. *)
Theorem retention_bounds (d : LogDir) :
  let d' := enforce_retention d true (fun _ => true) in
  length (arch_list d') <= MAX_ARCHIVES /\ (total_size (arch_list d') <= MAX_TOTAL_BYTES)%N /\
  (forall n, is_archive n = false -> d' !! n = d !! n) /\
  (exists gone, arch_list d ≡ₚ gone ++ arch_list d' /\
     forall a b, a ∈ gone -> b ∈ arch_list d' -> older a b) /\
  (length (arch_list d) <= MAX_ARCHIVES -> (total_size (arch_list d) <= MAX_TOTAL_BYTES)%N -> d' = d).
Proof.
  unfold enforce_retention. cbn [negb].
  pose proof (count_cap_spec (archives d)) as Hc. destruct (count_cap (archives d)) as [gone1 kept1].
  destruct Hc as (Hl & Hn1 & Hc0).
  pose proof (size_cap_spec kept1) as Hs. destruct (size_cap kept1 (total_size kept1)) as [gone2 kept].
  destruct Hs as (Hk & Hn2 & Hs0). subst kept1. rewrite app_assoc in Hl.
  fold (remove_all d (gone1 ++ gone2)). set (gone := gone1 ++ gone2) in *.
  assert (arch_list d ≡ₚ gone ++ kept) as Hp by (rewrite <- archives_perm, Hl; done).
  pose proof (remove_all_arch d gone kept Hp) as Hkept.
  assert (forall a b, a ∈ gone -> b ∈ kept -> older a b) as Hold.
  { intros a b Ha Hb.
    assert (StronglySorted older (archives d)) as Hsort by apply (StronglySorted_merge_sort older).
    rewrite Hl in Hsort. by eapply (StronglySorted_app_1_elem_of older gone kept). }
  split; [rewrite Hkept; rewrite length_app in Hn1; lia|]. split; [by rewrite (total_size_perm _ _ Hkept)|].
  split; [|split].
  - intros n Hn. apply remove_all_other. intros a Ha <-.
    destruct (arch_list_elem d a) as (_ & _ & Ht & _); [rewrite Hp; apply elem_of_app; by left|]. congruence.
  - exists gone. split; [by rewrite Hkept|]. intros a b Ha Hb. apply Hold; [done|]. by rewrite Hkept in Hb.
  - intros H1 H2. rewrite <- archives_perm in H1. rewrite <- (total_size_perm _ _ (archives_perm d)) in H2.
    assert (gone1 = []) as -> by auto. cbn in *. subst gone. rewrite Hl in H2. by rewrite Hs0.
Qed.

End Retention.

(** ** Rotation finds a free name *)

Definition pads3 : list string := (fun i => pad 3 (N.of_nat i)) <$> seq 0 1064.

Lemma pads3_nodup : NoDup pads3.
Proof. apply (bool_decide_unpack _). vm_compute. exact I. Qed.

Lemma pad3_inj a b : (a < 1064)%N -> (b < 1064)%N -> pad 3 a = pad 3 b -> a = b.
Proof.
  intros Ha Hb E.
  assert (forall n, (n < 1064)%N -> pads3 !! N.to_nat n = Some (pad 3 n)) as Hl.
  { intros n Hn. unfold pads3. rewrite list_lookup_fmap, lookup_seq_lt by lia. cbn [fmap option_fmap option_map].
    by rewrite Nat.add_0_l, N2Nat.id. }
  pose proof (NoDup_lookup pads3 (N.to_nat a) (N.to_nat b) (pad 3 a) pads3_nodup (Hl a Ha)) as H.
  rewrite E in H. specialize (H (Hl b Hb)). lia.
Qed.

Lemma rotated_name_inj stamp a b :
  (a < 1064)%N -> (b < 1064)%N -> rotated_name stamp a = rotated_name stamp b -> a = b.
Proof.
  intros Ha Hb E. unfold rotated_name in E. do 3 apply app_inj_l_str in E. apply app_inj_r_str in E.
  by apply pad3_inj.
Qed.

Lemma free_name_spec d stamp seq bumps :
  d !! free_name d stamp seq bumps = None \/
  forall i, i <= bumps -> is_Some (d !! rotated_name stamp (seq + N.of_nat i)).
Proof.
  revert seq. induction bumps as [|bumps IH]; intros seq; cbn [free_name].
  - destruct (d !! rotated_name stamp seq) eqn:E; [|by left]. right. intros i Hi.
    assert (i = 0) as -> by lia. rewrite N.add_0_r, E. by eexists.
  - destruct (decide (is_Some (d !! rotated_name stamp seq))) as [T|T].
    + rewrite bool_decide_eq_true_2 by done. destruct (IH (seq + 1)%N) as [?|Hall]; [by left|]. right.
      intros [|i] Hi; [by rewrite N.add_0_r|]. specialize (Hall i ltac:(lia)).
      replace (seq + N.of_nat (S i))%N with (seq + 1 + N.of_nat i)%N by lia. done.
    + rewrite bool_decide_eq_false_2 by done. left. by apply eq_None_not_Some.
Qed.

(** 65 candidate names do not fit in a directory of 64 files. *)
Lemma free_name_free (d : LogDir) stamp seq :
  size d <= 64 -> (seq < 1000)%N -> d !! free_name d stamp seq 64 = None.
Proof.
  intros Hd Hseq. destruct (free_name_spec d stamp seq 64) as [?|Hall]; [done|]. exfalso.
  set (names := (fun i => rotated_name stamp (seq + N.of_nat i)) <$> List.seq 0 65).
  assert (NoDup names) as Hnd.
  { apply NoDup_fmap_2_strong; [|apply NoDup_seq]. intros i j Hi Hj E. apply elem_of_seq in Hi, Hj.
    apply rotated_name_inj in E; lia. }
  assert (list_to_set names ⊆ dom d) as Hsub.
  { intros n Hn. apply elem_of_list_to_set, list_elem_of_fmap in Hn as (i & -> & Hi). apply elem_of_seq in Hi.
    apply elem_of_dom, Hall. lia. }
  apply subseteq_size in Hsub. rewrite size_dom, size_list_to_set in Hsub by done.
  unfold names in Hsub. rewrite length_fmap, length_seq in Hsub. lia.
Qed.

(** ** The names of rotated files and of their archives *)

Definition archive_of (name : string) : string := name +:+ ".gz".

(** A name that a rotation gives. *)
Definition rotated_like (name : string) : Prop := exists stamp seq, name = rotated_name stamp seq.

Lemma app_tail_eq (a b x y : string) : a +:+ x = b +:+ y -> String.length x = String.length y -> x = y.
Proof.
  revert b. induction a as [|c a IH]; intros b E Hl.
  - destruct b as [|d b]; [done|]. rewrite app_nil_l_str in E. subst x. rewrite length_app_str in Hl. cbn [String.length] in Hl. lia.
  - destruct b as [|d b].
    + rewrite app_nil_l_str in E. subst y. rewrite length_app_str in Hl. cbn [String.length] in Hl. lia.
    + injection E as _ E. by apply (IH b).
Qed.

Lemma rotated_tail name : rotated_like name -> exists pre, name = pre +:+ "log".
Proof.
  intros (stamp & seq & ->). exists (ROTATED_LOG_PREFIX +:+ stamp +:+ "-" +:+ pad 3 seq +:+ ".").
  unfold rotated_name. by rewrite !app_assoc_str.
Qed.

Lemma rotated_not_archive n m : rotated_like n -> n <> archive_of m.
Proof. intros (pre & ->)%rotated_tail E. apply app_tail_eq in E; done. Qed.

Lemma rotated_not_active n : rotated_like n -> n <> LOG_FILENAME /\ archive_of n <> LOG_FILENAME.
Proof.
  intros (stamp & seq & ->). unfold archive_of, rotated_name, ROTATED_LOG_PREFIX, LOG_FILENAME.
  rewrite !app_assoc_str. by split; intros E; vm_compute in E.
Qed.

Lemma rotated_kept_by_retention n : rotated_like n -> is_archive n = false.
Proof.
  intros Hn. unfold is_archive. apply andb_false_iff. right. apply not_true_iff_false. rewrite ends_with_true.
  intros [l E]. apply (rotated_not_archive n (l +:+ ".log") Hn). rewrite E. unfold archive_of. by rewrite app_assoc_str.
Qed.

(** ** What is sent is what is written *)

Section Stream.
Context `{LogEnv}.

Definition content_of (d : LogDir) (n : string) : string :=
  match d !! n with Some f => lf_content f | None => "" end.

(** The lines of rows that were written in full. *)
Definition row_lines (rows : list JsonRow) : string :=
  foldr (fun row rest => to_json row +:+ LF_str +:+ rest) "" rows.

Definition row_host (row : JsonRow) : string :=
  match row with RowBlock d | RowAllow d => dr_dest_host d | RowGap _ => "" end.

Definition is_block (row : JsonRow) : bool := match row with RowBlock _ => true | _ => false end.
Definition is_allow (row : JsonRow) : bool := match row with RowAllow _ => true | _ => false end.
Definition is_gap (row : JsonRow) : bool := match row with RowGap _ => true | _ => false end.

Definition start : LogWriter := mkLogWriter [] true 0 0 0 0 (open_active ∅ 0).

(** How a text that was rotated away can be lost: its archive is removed by retention, or
    its file is overwritten by a rotation that finds no free name, in a directory of more
    than 64 files. *)
Inductive Loss : Type :=
| ArchiveRemoved (archive : string)
| Overwritten (name : string).

(** What has happened: the rows accepted and those turned away; those the thread took,
    each with what its append could write ([None] is all); those that were queued when
    the thread ended; the files rotated, in order; and what was lost of them. *)
Record History : Type := mkHistory {
  hi_accepted : list JsonRow;
  hi_refused : list JsonRow;
  hi_taken : list (JsonRow * option nat);
  hi_abandoned : list JsonRow;
  hi_rotated : list string;
  hi_lost : list Loss;
}.

Definition no_history : History := mkHistory [] [] [] [] [] [].

(** A row is accepted while the thread lives and fewer than 4096 rows are queued. *)
Definition after_send (w : LogWriter) (h : History) (row : JsonRow) : History :=
  if w_connected w && bool_decide (length (w_queue w) < N.to_nat 4096)
  then mkHistory (hi_accepted h ++ [clamp_row row]) (hi_refused h) (hi_taken h) (hi_abandoned h) (hi_rotated h) (hi_lost h)
  else mkHistory (hi_accepted h) (hi_refused h ++ [row]) (hi_taken h) (hi_abandoned h) (hi_rotated h) (hi_lost h).

Definition after_turn (w w' : LogWriter) (h : History) (row : JsonRow) (rest : list JsonRow) (r : Round) (job : option string) : History :=
  mkHistory (hi_accepted h) (hi_refused h) (hi_taken h ++ [(row, rd_append_cut r)])
    (hi_abandoned h ++ if w_connected w' then [] else rest) (hi_rotated h ++ option_list job)
    (hi_lost h ++ match job with
                  | Some n => if decide (is_Some (w_dir w !! n) /\ 64 < size (w_dir w)) then [Overwritten n] else []
                  | None => []
                  end).

Definition after_retention (d d' : LogDir) (h : History) : History :=
  mkHistory (hi_accepted h) (hi_refused h) (hi_taken h) (hi_abandoned h) (hi_rotated h)
    (hi_lost h ++ (ArchiveRemoved <$> elements (dom d ∖ dom d'))).

(** Senders, the writer thread, and the threads that compress rotated files and enforce
    the retention, interleaved; every operation on the disk may fail. *)
Inductive log_step : LogWriter * History -> LogWriter * History -> Prop :=
| ls_send w h row : log_step (w, h) (send w row, after_send w h row)
| ls_turn w h row rest r w' job :
    w_queue w = row :: rest -> w_connected w = true -> writer_turn w r = (w', job) ->
    log_step (w, h) (w', after_turn w w' h row rest r job)
| ls_gzip w h name now e :
    name ∈ hi_rotated h -> log_step (w, h) (set_dir w (gzip_in_place (w_dir w) name now e), h)
| ls_retention w h listed removable :
    let d' := enforce_retention (w_dir w) listed removable in
    log_step (w, h) (set_dir w d', after_retention (w_dir w) d' h).

(** The bytes a row adds to the log. *)
Definition piece_of (taken : JsonRow * option nat) : string :=
  let line := to_json taken.1 +:+ LF_str in
  match taken.2 with None => line | Some k => str_take k line end.

Definition concat_strings (l : list string) : string := foldr String.app "" l.

(** Where the text of a rotated file is. *)
Definition text_kept (d : LogDir) (lost : list Loss) (name text : string) : Prop :=
  (exists f, d !! name = Some f /\ lf_content f = text)
  \/ (exists f, d !! archive_of name = Some f /\ lf_content f = gzip text)
  \/ ArchiveRemoved (archive_of name) ∈ lost \/ Overwritten name ∈ lost.

Definition count (p : JsonRow -> bool) (rows : list JsonRow) : N := N.of_nat (length (List.filter p rows)).

Record log_inv (w : LogWriter) (h : History) : Prop := {
  (** No accepted row is lost, repeated or reordered on the way to the thread. *)
  li_order : hi_accepted h = (hi_taken h).*1 ++ hi_abandoned h ++ w_queue w;
  li_thread : if w_connected w then hi_abandoned h = [] /\ is_Some (w_dir w !! LOG_FILENAME) else w_queue w = [];
  li_bound : length (w_queue w) <= N.to_nat 4096;
  (** The texts of the rotated files, in the order of rotation, and of the active file
      are what the appends wrote, and each of these texts is still there or was lost in
      one of the two ways. *)
  li_text : exists texts, concat_strings texts +:+ content_of (w_dir w) LOG_FILENAME = concat_strings (piece_of <$> hi_taken h)
      /\ Forall2 (text_kept (w_dir w) (hi_lost h)) (hi_rotated h) texts;
  li_names : Forall rotated_like (hi_rotated h);
  li_hosts : Forall (fun row => String.length (row_host row) <= 256) (hi_accepted h);
  li_counts : let rows := (hi_taken h).*1 in
      (w_blocks w = count is_block rows mod 2 ^ 64 /\ w_allows w = count is_allow rows mod 2 ^ 64
       /\ w_gaps w = count is_gap rows mod 2 ^ 64)%N;
}.

Lemma concat_strings_app a b : concat_strings (a ++ b) = concat_strings a +:+ concat_strings b.
Proof.
  unfold concat_strings. induction a as [|x a IH]; [by rewrite app_nil_l_str|]. cbn [app foldr]. rewrite IH.
  by rewrite app_assoc_str.
Qed.

Lemma concat_strings_one x : concat_strings [x] = x.
Proof. unfold concat_strings. cbn [foldr]. by rewrite app_nil_r_str. Qed.

Lemma clamp_host row : String.length (row_host (clamp_row row)) <= 256.
Proof.
  assert (forall s, String.length (truncate_str s MAX_DEST_HOST_LEN) <= 256) as Ht.
  { intros s. unfold truncate_str. destruct (decide (String.length s <= MAX_DEST_HOST_LEN)) as [T|T].
    - by rewrite bool_decide_eq_true_2.
    - rewrite bool_decide_eq_false_2 by done. rewrite length_str_take.
      destruct (boundary_back_spec s MAX_DEST_HOST_LEN) as (H1 & _). unfold MAX_DEST_HOST_LEN in *. lia. }
  destruct row; cbn; [apply Ht|apply Ht|lia].
Qed.

Lemma count_snoc p out row :
  (count p (out ++ [row]) mod U64_WRAP)%N
    = if p row then fetch_add (count p out mod U64_WRAP) else (count p out mod U64_WRAP)%N.
Proof.
  unfold count, fetch_add. rewrite List.filter_app, length_app. cbn [List.filter].
  destruct (p row); cbn [length]; [|by rewrite Nat.add_0_r].
  rewrite N.Div0.add_mod_idemp_l. f_equal. lia.
Qed.

(** A change of the directory that keeps the rotated files and the archives. *)
Lemma preserved_change d d' lost lost' n text :
  (forall x, x ∈ lost -> x ∈ lost') ->
  (d' !! n = d !! n \/ d !! n = None \/ Overwritten n ∈ lost') ->
  (d' !! archive_of n = d !! archive_of n \/ ArchiveRemoved (archive_of n) ∈ lost') ->
  text_kept d lost n text -> text_kept d' lost' n text.
Proof.
  intros Hl Hn Ha. unfold text_kept.
  intros [(f & Hf & Hc)|[(f & Hf & Hc)|[Hlost|Hlost]]]; [| |right; right; left; auto|right; right; right; auto].
  - destruct Hn as [Hn|[Hn|Hn]]; [left; exists f; by rewrite Hn|congruence|by right; right; right].
  - destruct Ha as [Ha|Ha]; [right; left; exists f; by rewrite Ha|by right; right; left].
Qed.

Lemma append_spec d row now cut :
  is_Some (d !! LOG_FILENAME) ->
  let d' := append d row now cut in
  content_of d' LOG_FILENAME = content_of d LOG_FILENAME +:+ piece_of (row, cut) /\
  (forall n, n <> LOG_FILENAME -> d' !! n = d !! n) /\ is_Some (d' !! LOG_FILENAME).
Proof.
  intros [f Hf]. unfold append, content_of. rewrite Hf, lookup_insert_eq. cbn.
  split; [done|]. split; [intros n Hn; by rewrite lookup_insert_ne|by eexists].
Qed.

Lemma free_name_like d stamp seq bumps : rotated_like (free_name d stamp seq bumps).
Proof.
  revert seq. induction bumps as [|bumps IH]; intros seq; cbn [free_name]; [by exists stamp, seq|].
  destruct (bool_decide _); [apply IH|by exists stamp, seq].
Qed.

(** A rotation moves the active file to a name of its kind, or leaves the directory. *)
Lemma rotate_spec w r w' job :
  rotate w r = (w', job) ->
  w_queue w' = w_queue w /\ w_connected w' = w_connected w /\
  w_blocks w' = w_blocks w /\ w_allows w' = w_allows w /\ w_gaps w' = w_gaps w /\
  ((job = None /\ w_dir w' = w_dir w) \/
   exists name f, job = Some name /\ rotated_like name /\ w_dir w !! LOG_FILENAME = Some f /\
     w_dir w' = <[name := f]> (delete LOG_FILENAME (w_dir w))).
Proof.
  unfold rotate. destruct (rotation_stamp _ _) as [stamp|]; [|intros [= <- <-]; auto 10].
  destruct (w_dir w !! LOG_FILENAME) as [f|] eqn:Ef; [|intros [= <- <-]; auto 10].
  pose proof (free_name_like (w_dir w) stamp (w_seq w mod 1000)%N 64) as Hlike.
  generalize dependent (free_name (w_dir w) stamp (w_seq w mod 1000)%N 64). intros name Hlike.
  destruct (rd_rename_ok r); intros [= <- <-]; [|auto 10].
  do 5 (split; [done|]). right. by exists name, f.
Qed.

Lemma count_row_fields w row :
  w_queue (count_row w row) = w_queue w /\ w_connected (count_row w row) = w_connected w /\
  w_dir (count_row w row) = w_dir w /\
  w_blocks (count_row w row) = (if is_block row then fetch_add (w_blocks w) else w_blocks w) /\
  w_allows (count_row w row) = (if is_allow row then fetch_add (w_allows w) else w_allows w) /\
  w_gaps (count_row w row) = (if is_gap row then fetch_add (w_gaps w) else w_gaps w).
Proof. by destruct row. Qed.

(** What a turn of the writer does to the directory: the active file grows by what the
    append could write, and may then move. *)
Definition turn_dir (w w' : LogWriter) (piece : string) (job : option string) : Prop :=
  match job with
  | None => content_of (w_dir w') LOG_FILENAME = content_of (w_dir w) LOG_FILENAME +:+ piece
      /\ forall n, n <> LOG_FILENAME -> w_dir w' !! n = w_dir w !! n
  | Some name => rotated_like name /\ content_of (w_dir w') LOG_FILENAME = ""
      /\ (exists f, w_dir w' !! name = Some f /\ lf_content f = content_of (w_dir w) LOG_FILENAME +:+ piece)
      /\ forall n, n <> LOG_FILENAME -> n <> name -> w_dir w' !! n = w_dir w !! n
  end.

Lemma open_active_spec d now :
  is_Some (open_active d now !! LOG_FILENAME) /\ content_of (open_active d now) LOG_FILENAME = content_of d LOG_FILENAME
  /\ forall n, n <> LOG_FILENAME -> open_active d now !! n = d !! n.
Proof.
  unfold open_active, content_of. destruct (d !! LOG_FILENAME) as [f|] eqn:E; [rewrite E; by split; [eexists|]|].
  rewrite lookup_insert_eq. split; [by eexists|]. split; [done|]. intros n Hn. by rewrite lookup_insert_ne.
Qed.

Lemma writer_turn_spec w r row rest w' job :
  w_queue w = row :: rest -> w_connected w = true -> is_Some (w_dir w !! LOG_FILENAME) ->
  writer_turn w r = (w', job) ->
  (w_blocks w' = (if is_block row then fetch_add (w_blocks w) else w_blocks w) /\
   w_allows w' = (if is_allow row then fetch_add (w_allows w) else w_allows w) /\
   w_gaps w' = (if is_gap row then fetch_add (w_gaps w) else w_gaps w)) /\
  (if w_connected w' then w_queue w' = rest /\ is_Some (w_dir w' !! LOG_FILENAME) else w_queue w' = []) /\
  turn_dir w w' (piece_of (row, rd_append_cut r)) job.
Proof.
  intros Hq Hcon Hact. unfold writer_turn. rewrite Hq, Hcon. cbn [negb].
  set (w0 := mkLogWriter rest true (w_blocks w) (w_allows w) (w_gaps w) (w_seq w) (w_dir w)).
  destruct (count_row_fields w0 row) as (Q & Co & Di & Cb & Ca & Cg). cbn [w_queue w_connected w_dir w_blocks w_allows w_gaps w0] in *. rewrite Di.
  destruct (append_spec (w_dir w) row (rd_secs r) (rd_append_cut r) Hact) as (Hline & Hother & Hact2).
  set (d2 := append (w_dir w) row (rd_secs r) (rd_append_cut r)) in *.
  destruct (should_rotate _).
  2:{ intros [= <- <-]. unfold turn_dir. cbn [w_blocks w_allows w_gaps w_connected w_queue w_dir set_dir]. rewrite Q, Co. by split_and!. }
  destruct (rotate _ r) as [w3 job3] eqn:Er.
  apply rotate_spec in Er as (Q3 & Co3 & Cb3 & Ca3 & Cg3 & Hcase). cbn in Q3, Co3, Cb3, Ca3, Cg3, Hcase.
  assert (turn_dir w w3 (piece_of (row, rd_append_cut r)) job3) as Hturn.
  { unfold turn_dir. destruct Hcase as [[-> ->]|(name & f & -> & Hn & Hf & ->)]; [done|]. split; [done|].
    destruct (rotated_not_active name Hn) as [Hne _]. unfold content_of at 1.
    rewrite lookup_insert_ne, lookup_delete_eq by done. split; [done|]. split.
    - exists f. rewrite lookup_insert_eq. split; [done|]. rewrite <- Hline. unfold content_of. by rewrite Hf.
    - intros n H1 H2. rewrite lookup_insert_ne, lookup_delete_ne by done. by apply Hother. }
  destruct (rd_reopen_ok r); intros [= <- <-]; cbn [w_blocks w_allows w_gaps w_connected w_queue w_dir set_dir].
  - rewrite Q3, Co3, Cb3, Ca3, Cg3, Q, Co. split; [done|].
    destruct (open_active_spec (w_dir w3) (rd_secs r)) as (O1 & O2 & O3). split; [done|].
    unfold turn_dir in *. cbn [w_dir set_dir]. destruct job3 as [name|]; rewrite O2.
    + destruct Hturn as (Hn & Hc & (f & Hf & Hfc) & Hrest). destruct (rotated_not_active name Hn) as [Hne _].
      split_and!; [done|done|exists f; by rewrite O3|intros n H1 H2; rewrite O3 by done; by apply Hrest].
    + destruct Hturn as [Hc Hrest]. split; [done|]. intros n H1. rewrite O3 by done. by apply Hrest.
  - rewrite Cb3, Ca3, Cg3. by split_and!.
Qed.

Lemma foldl_remove_subset (removable : string -> bool) (gone : list Archive) (d : LogDir) n :
  let d' := foldl (fun d a => if removable (ar_name a) then delete (ar_name a) d else d) d gone in
  d' !! n = d !! n \/ (d' !! n = None /\ exists a, a ∈ gone /\ ar_name a = n).
Proof.
  revert d. induction gone as [|a gone IH]; intros d; [by left|]. cbn [foldl].
  destruct (IH (if removable (ar_name a) then delete (ar_name a) d else d)) as [E|(E & b & Hb & Hn)].
  - destruct (removable (ar_name a)); [|by left]. destruct (decide (ar_name a = n)) as [<-|Hne].
    + right. rewrite E, lookup_delete_eq. split; [done|]. exists a. split; [by left|done].
    + left. by rewrite E, lookup_delete_ne.
  - right. split; [done|]. exists b. split; [by right|done].
Qed.

(** Retention removes archives or nothing. *)
Lemma enforce_retention_subset d listed removable n :
  let d' := enforce_retention d listed removable in
  d' !! n = d !! n \/ (d' !! n = None /\ is_archive n = true).
Proof.
  cbv zeta. unfold enforce_retention. destruct listed; cbn [negb]; [|by left].
  pose proof (count_cap_spec (archives d)) as Hc. destruct (count_cap (archives d)) as [gone1 kept1]. destruct Hc as (Hl & _ & _).
  pose proof (size_cap_spec kept1) as Hs. destruct (size_cap kept1 (total_size kept1)) as [gone2 kept]. destruct Hs as (Hk & _ & _).
  destruct (foldl_remove_subset removable (gone1 ++ gone2) d n) as [?|(E & a & Ha & <-)]; [by left|right]. split; [done|].
  destruct (arch_list_elem d a) as (f & _ & Harch & _); [|done].
  rewrite <- archives_perm, Hl, Hk, app_assoc. apply elem_of_app. by left.
Qed.

Lemma retention_inv w h listed removable :
  let d' := enforce_retention (w_dir w) listed removable in
  log_inv w h -> log_inv (set_dir w d') (after_retention (w_dir w) d' h).
Proof.
  intros d' [I1 I2 I3 (texts & I4 & I5) I6 I7 I8].
  assert (d' !! LOG_FILENAME = w_dir w !! LOG_FILENAME) as Hact.
  { destruct (enforce_retention_subset (w_dir w) listed removable LOG_FILENAME) as [?|[_ ?]]; done. }
  constructor; cbn; try done; [by rewrite Hact|]. exists texts. split; [unfold content_of in *; by rewrite Hact|].
  rewrite Forall2_lookup in I5 |- *. intros i. specialize (I5 i). destruct (hi_rotated h !! i) as [n|] eqn:En; inversion I5; constructor.
  apply list_elem_of_lookup_2 in En. rewrite Forall_forall in I6. specialize (I6 n En).
  eapply preserved_change; [|left|..|done].
  - intros lo Hlo. apply elem_of_app. by left.
  - destruct (enforce_retention_subset (w_dir w) listed removable n) as [?|[_ Ha]]; [done|].
    by rewrite rotated_kept_by_retention in Ha.
  - destruct (enforce_retention_subset (w_dir w) listed removable (archive_of n)) as [?|[Hnone _]]; [by left|].
    destruct (w_dir w !! archive_of n) eqn:Ed; [right|by left]. apply elem_of_app. right. apply list_elem_of_fmap_2, elem_of_elements.
    apply elem_of_difference. split; [by apply elem_of_dom; eexists|by apply not_elem_of_dom].
Qed.

Lemma gzip_inv w h name now e :
  name ∈ hi_rotated h -> log_inv w h -> log_inv (set_dir w (gzip_in_place (w_dir w) name now e)) h.
Proof.
  intros Hin [I1 I2 I3 (texts & I4 & I5) I6 I7 I8]. pose proof I6 as I6'. rewrite Forall_forall in I6'.
  pose proof (I6' name Hin) as Hname. destruct (rotated_not_active name Hname) as [Hna Hga].
  set (d' := gzip_in_place _ _ _ _).
  assert (d' !! LOG_FILENAME = w_dir w !! LOG_FILENAME
    /\ forall n text, rotated_like n -> text_kept (w_dir w) (hi_lost h) n text -> text_kept d' (hi_lost h) n text) as [Hact Hpres].
  { unfold d', gzip_in_place. destruct (w_dir w !! name) as [f|] eqn:Ef; [|done].
    change (name +:+ ".gz") with (archive_of name).
    destruct (bool_decide_reflect (is_Some (w_dir w !! archive_of name))) as [Hsome|Hnone]; [done|].
    assert (forall n x, rotated_like n -> <[archive_of name := x]> (w_dir w) !! n = w_dir w !! n) as Hplain
      by (intros n x Hn; apply lookup_insert_ne; intros E; by apply (rotated_not_archive n name Hn)).
    assert (forall n x, archive_of n <> archive_of name ->
              <[archive_of name := x]> (w_dir w) !! archive_of n = w_dir w !! archive_of n) as Harch
      by (intros n x Hn; by apply lookup_insert_ne).
    assert (forall c n text, rotated_like n -> text_kept (w_dir w) (hi_lost h) n text ->
              text_kept (<[archive_of name := mkLFile c now]> (w_dir w)) (hi_lost h) n text) as Hins.
    { intros c n text Hn [Hp|[(g & Hg & Hc)|Hl]].
      - left. by rewrite Hplain.
      - right. left. exists g. split; [|done]. rewrite lookup_insert_ne; [done|]. intros E. apply Hnone. rewrite E. by eexists.
      - by right; right. }
    destruct e; [|done|..].
    - split; [rewrite lookup_delete_ne, lookup_insert_ne; done|]. intros n text Hn Hp.
      destruct (decide (n = name)) as [->|Hne].
      + destruct Hp as [(g & Hg & Hc)|[(g & Hg & Hc)|Hl]]; [|by destruct Hnone; eexists|by right; right].
        right. left. rewrite Ef in Hg. injection Hg as <-. exists (mkLFile (gzip (lf_content f)) now). split; [|cbn; by rewrite Hc].
        rewrite lookup_delete_ne by (by apply rotated_not_archive). by rewrite lookup_insert_eq.
      + specialize (Hins (gzip (lf_content f)) n text Hn Hp). unfold text_kept in *.
        rewrite !lookup_delete_ne; [done| |by intros ->]. intros E. by apply (rotated_not_archive name n Hname).
    - split; [by rewrite lookup_insert_ne|]. intros n text. apply Hins.
    - split; [by rewrite lookup_insert_ne|]. intros n text. apply Hins. }
  constructor; cbn; try done; [by rewrite Hact|]. exists texts. split; [unfold content_of in *; by rewrite Hact|].
  rewrite Forall2_lookup in I5 |- *. intros i. specialize (I5 i). destruct (hi_rotated h !! i) as [n|] eqn:En; inversion I5; constructor.
  apply Hpres; [|done]. apply I6'. by eapply list_elem_of_lookup_2.
Qed.

Lemma send_inv w h row : log_inv w h -> log_inv (send w row) (after_send w h row).
Proof.
  intros [I1 I2 I3 I4 I5 I6 I7]. unfold send, after_send, QUEUE_CAPACITY. destruct (w_connected w) eqn:Hc; cbn [negb andb].
  - destruct (decide (length (w_queue w) < N.to_nat 4096)) as [Hl|Hl].
    + rewrite bool_decide_eq_false_2, bool_decide_eq_true_2 by lia. constructor; cbn [hi_accepted hi_taken hi_abandoned hi_rotated hi_lost w_queue w_dir w_connected w_blocks w_allows w_gaps]; try done.
      * rewrite I1. by rewrite <- !app_assoc.
      * rewrite length_app. cbn. lia.
      * apply Forall_app. split; [done|]. apply Forall_singleton, clamp_host.
    + rewrite bool_decide_eq_true_2, bool_decide_eq_false_2 by lia. constructor; cbn; try done. by rewrite Hc.
  - constructor; cbn; try done. by rewrite Hc.
Qed.

(** A rotation overwrites a file only when all 65 names of its millisecond are taken, so
    never in a directory of 64 files. *)
Lemma nothing_overwritten (w : LogWriter) (r : Round) (row : JsonRow) (rest : list JsonRow) w' job :
  w_queue w = row :: rest -> w_connected w = true -> is_Some (w_dir w !! LOG_FILENAME) -> size (w_dir w) <= 64 ->
  writer_turn w r = (w', job) -> forall n, job = Some n -> w_dir w !! n = None.
Proof.
  intros Hq Hc [f0 Hf0] Hsz. unfold writer_turn. rewrite Hq, Hc. cbn [negb].
  destruct (count_row_fields (mkLogWriter rest true (w_blocks w) (w_allows w) (w_gaps w) (w_seq w) (w_dir w)) row)
    as (_ & _ & Di & _). rewrite Di. clear Di. cbn [w_dir]. set (w1 := count_row _ row). set (d2 := append _ row _ _).
  assert (size d2 <= 64 /\ forall n, n <> LOG_FILENAME -> d2 !! n = w_dir w !! n) as [Hd2 Hd].
  { unfold d2, append. rewrite Hf0. split; [|intros n Hn; by apply lookup_insert_ne].
    rewrite map_size_insert_Some; [done|by eexists]. }
  destruct (should_rotate _); [|intros [= <- <-]; done].
  destruct (rotate _ r) as [w3 job3] eqn:Er. intros E n Hj. assert (job3 = Some n) as -> by (destruct (rd_reopen_ok r); congruence).
  unfold rotate in Er. destruct (rotation_stamp _ _) as [stamp|]; [|done]. cbn [w_dir set_dir] in Er.
  destruct (d2 !! LOG_FILENAME) eqn:Ef; [|done]. destruct (rd_rename_ok r); [|done].
  assert (n = free_name d2 stamp (w_seq (set_dir w1 d2) mod 1000)%N 64) as -> by (injection Er as _ <-; done).
  assert (Hfree : d2 !! free_name d2 stamp (w_seq (set_dir w1 d2) mod 1000)%N 64 = None)
    by (apply free_name_free; [done|by apply N.mod_lt]).
  rewrite <- Hd; [done|]. intros E'. rewrite E' in Hfree. congruence.
Qed.

Lemma turn_inv w h row rest r w' job :
  w_queue w = row :: rest -> w_connected w = true -> writer_turn w r = (w', job) ->
  log_inv w h -> log_inv w' (after_turn w w' h row rest r job).
Proof.
  intros Hq Hc Ht [I1 I2 I3 (texts & I4 & I5) I6 I7 I8]. rewrite Hc in I2. destruct I2 as [I2 Hact].
  destruct (writer_turn_spec w r row rest w' job Hq Hc Hact Ht) as ((Cb & Ca & Cg) & Hth & Hd).
  constructor; cbn [hi_accepted hi_taken hi_abandoned hi_rotated hi_lost after_turn].
  - rewrite I1, I2, Hq, fmap_app, <- app_assoc. cbn. f_equal. destruct (w_connected w').
    + destruct Hth as [-> _]. done.
    + rewrite Hth. by rewrite app_nil_r.
  - rewrite I2. destruct (w_connected w'); [|done]. by destruct Hth.
  - rewrite Hq in I3. cbn in I3. destruct (w_connected w'); [destruct Hth as [-> _]|rewrite Hth; cbn]; lia.
  - destruct job as [name|]; cbn [option_list].
    + destruct Hd as (Hn & Hempty & (f & Hf & Hfc) & Hrest). exists (texts ++ [lf_content f]). split.
      * rewrite Hempty, app_nil_r_str, concat_strings_app, concat_strings_one, fmap_app, concat_strings_app, <- I4, Hfc.
        cbn [fmap list_fmap]. by rewrite concat_strings_one, app_assoc_str.
      * apply Forall2_app; [|constructor; [by left; exists f|done]].
        rewrite Forall2_lookup in I5 |- *. intros i. specialize (I5 i).
        destruct (hi_rotated h !! i) as [n|] eqn:En; inversion I5; constructor. apply list_elem_of_lookup_2 in En.
        rewrite Forall_forall in I6. specialize (I6 n En). destruct (rotated_not_active n I6) as [N1 N2].
        eapply preserved_change; [| | |done].
        -- intros lo Hlo. apply elem_of_app. by left.
        -- destruct (decide (n = name)) as [->|Hne]; [|left; by apply Hrest].
           destruct (w_dir w !! name) as [g|] eqn:Eg; [|by right; left].
           right. right. apply elem_of_app. right. rewrite decide_True; [by left|]. split; [by eexists|].
           apply not_le. intros Hsz. pose proof (nothing_overwritten w r row rest w' (Some name) Hq Hc Hact ltac:(lia) Ht name eq_refl).
           congruence.
        -- left. apply Hrest; [done|]. intros E. by apply (rotated_not_archive name n Hn).
    + destruct Hd as [Hcont Hrest]. exists texts. rewrite app_nil_r, app_nil_r. split.
      * rewrite Hcont, <- app_assoc_str, I4, fmap_app, concat_strings_app. cbn [fmap list_fmap]. by rewrite concat_strings_one.
      * rewrite Forall2_lookup in I5 |- *. intros i. specialize (I5 i).
        destruct (hi_rotated h !! i) as [n|] eqn:En; inversion I5; constructor. apply list_elem_of_lookup_2 in En.
        rewrite Forall_forall in I6. specialize (I6 n En). destruct (rotated_not_active n I6) as [N1 N2].
        eapply preserved_change; [done|left; by apply Hrest|left; by apply Hrest|done].
  - apply Forall_app. split; [done|]. destruct job as [name|]; [|constructor]. apply Forall_singleton. apply Hd.
  - done.
  - rewrite fmap_app. cbn. change (2 ^ 64)%N with U64_WRAP in *. destruct I8 as (B & A & G).
    rewrite !count_snoc, <- B, <- A, <- G. done.
Qed.

(** C17: the log holds what it was sent.  Whatever the interleaving of senders, the writer
    thread, compression and retention, and whichever operations of the disk fail, the rows
    accepted are, in order, those the thread took, those queued when it ended because the
    log could not be reopened, and those still queued, of which there are at most 4096.  The
    texts of the rotated files, in order, and of the active file are what the appends of
    the rows taken wrote, a whole line each unless the append failed part way.  Each rotated
    text is in its file, or compressed in its archive, or its archive was removed by
    retention, or, in a directory of more than 64 files, its file was overwritten by a later
    rotation to its name.  No host of an accepted row is longer than 256 bytes, and the
    counters count the rows of each kind that the thread took, written or not, modulo 2^64;
    rows turned away are not counted. *)
Theorem log_stream_faithful (w : LogWriter) (h : History) :
  rtc log_step (start, no_history) (w, h) -> log_inv w h.
Proof.
  assert (forall a b, rtc log_step a b -> log_inv a.1 a.2 -> log_inv b.1 b.2) as Hrun.
  { intros a b. induction 1 as [|a b c Hstep _ IH]; [done|]. intros Ha. apply IH.
    destruct Hstep; cbn [fst snd] in *; [by apply send_inv|by eapply turn_inv|by apply gzip_inv|by apply retention_inv]. }
  intros Hs. apply (Hrun _ _ Hs). constructor; [done|by split; [|eexists]|apply Nat.le_0_l|by exists []|constructor|constructor|done].
Qed.

End Stream.

(** ** Examples *)

Definition toy_log_env : LogEnv := {|
  to_json := fun row => match row with RowBlock d | RowAllow d => dr_dest_host d | RowGap g => gr_gap_kind g end;
  gzip := fun s => s;
|}.

Definition toy_row (kind : string) : JsonRow :=
  RowGap (mkGapRecord JSONL_SCHEMA_VERSION None "run" kind (mkProcessCtxLog 7 1 [] "") None).

Definition toy_round : Round := mkRound 951782400 5 None true true.

(** A writer whose log is at the size of a rotation, after the rows [kinds] were sent. *)
Definition toy_writer (kinds : list string) : LogWriter * History :=
  foldl (fun s k => (send s.1 (toy_row k), after_send s.1 s.2 (toy_row k))) (start, no_history) kinds.

(** Two rows sent, one of them written in part. *)
Definition toy_cut : Round := mkRound 951782400 5 (Some 3) true true.
Definition toy_taken : LogWriter := (@writer_turn toy_log_env (toy_writer ["first"; "second"]).1 toy_cut).1.

Lemma log_stream_faithful_witness :
  w_dir toy_taken !! LOG_FILENAME = Some (mkLFile "fir" 951782400) /\ w_queue toy_taken = [toy_row "second"]
  /\ w_gaps toy_taken = 1%N.
Proof.
  assert (rtc (@log_step toy_log_env) (start, no_history)
            (toy_taken, after_turn (toy_writer ["first"; "second"]).1 toy_taken (toy_writer ["first"; "second"]).2
                          (toy_row "first") [toy_row "second"] toy_cut None)) as Hrun.
  { eapply rtc_l; [apply (ls_send start no_history (toy_row "first"))|].
    eapply rtc_l; [apply ls_send with (row := toy_row "second")|].
    eapply rtc_l; [|apply rtc_refl]. apply ls_turn; vm_compute; reflexivity. }
  destruct (@log_stream_faithful toy_log_env _ _ Hrun) as [_ _ _ _ _ _ (_ & _ & Hg)].
  split; [vm_compute; reflexivity|]. split; [vm_compute; reflexivity|]. rewrite Hg. vm_compute. reflexivity.
Defined.
