(* ===== verification/Messages.v ===== *)
(** * Messages of process events

    The part of [crates/guard-ipc/src/messages.rs] that the exec, fork and
    file-write interposers and the daemon's event handlers exchange, with the
    constructors of the source.  Paths are byte strings.  The wire form of an audit
    token has the fields of [AuditToken]. *)

From S2P Require Import Prelude RustStr ProcessTree.

Definition SCHEMA_V1 : N := 1.
Definition SCHEMA_V2 : N := 2.
Definition SCHEMA_V3 : N := 3.
Definition SCHEMA_V4 : N := 4.
Definition SCHEMA_V5 : N := 5.

(** The two conversions copy the eight words. *)
Record AuditTokenWire : Type := mkWire { wire_val : AuditToken }.
Definition wire_of_token (t : AuditToken) : AuditTokenWire := mkWire t.
Definition token_of_wire (w : AuditTokenWire) : AuditToken := wire_val w.

Record RegisterRoot : Type := mkRegisterRoot {
  rg_schema_version : N;
  rg_audit_token : AuditTokenWire;
  rg_run_uuid : option string;
  rg_pm_env : list (string * string);
}.

Definition RegisterRoot_new (t : AuditToken) : RegisterRoot :=
  mkRegisterRoot SCHEMA_V1 (wire_of_token t) None [].
Definition RegisterRoot_new_for_run (t : AuditToken) (run_uuid : string) : RegisterRoot :=
  mkRegisterRoot SCHEMA_V1 (wire_of_token t) (Some run_uuid) [].
Definition RegisterRoot_new_for_run_with_pm_env (t : AuditToken) (run_uuid : string)
    (pm_env : list (string * string)) : RegisterRoot :=
  mkRegisterRoot SCHEMA_V1 (wire_of_token t) (Some run_uuid) pm_env.

(** [Reply] and the acknowledgements all have these two forms. *)
Inductive Ack : Type :=
| AckOk (schema_version : N)
| AckErr (schema_version : N) (message : string).

#[export] Instance Ack_eq_dec : EqDecision Ack.
Proof. solve_decision. Defined.

Definition Reply_ack : Ack := AckOk SCHEMA_V1.
Definition Reply_err (m : string) : Ack := AckErr SCHEMA_V1 m.
Definition Reply_schema (r : Ack) : N :=
  match r with AckOk v | AckErr v _ => v end.

Record ForkEvent : Type := mkForkEvent {
  fe_schema_version : N;
  fe_parent_audit_token : AuditTokenWire;
  fe_child_pid : Z;
  fe_child_pidversion : N;
}.

Definition ForkEvent_new (parent : AuditTokenWire) (child_pid : Z) (child_pidversion : N) : ForkEvent :=
  mkForkEvent SCHEMA_V2 parent child_pid child_pidversion.
Definition ForkAck_ok : Ack := AckOk SCHEMA_V2.
Definition ForkAck_err (m : string) : Ack := AckErr SCHEMA_V2 m.

Record ExecEvent : Type := mkExecEvent {
  ee_schema_version : N;
  ee_audit_token : AuditTokenWire;
  ee_target_path : string;
  ee_pm_env : list (string * string);
}.

Definition MAX_TARGET_PATH : nat := 1024.

Definition ExecEvent_new (t : AuditTokenWire) (target_path : string) : ExecEvent :=
  mkExecEvent SCHEMA_V2 t target_path [].
Definition ExecEvent_new_v3 (t : AuditTokenWire) (target_path : string) (pm_env : list (string * string)) :
    ExecEvent := mkExecEvent SCHEMA_V3 t target_path pm_env.
Definition ExecAck_ok : Ack := AckOk SCHEMA_V2.
Definition ExecAck_err (m : string) : Ack := AckErr SCHEMA_V2 m.

Record DylibLoaded : Type := mkDylibLoaded {
  dl_schema_version : N;
  dl_audit_token : AuditTokenWire;
}.

Definition DylibLoaded_new (t : AuditTokenWire) : DylibLoaded := mkDylibLoaded SCHEMA_V2 t.
Definition DylibLoadedAck_ok : Ack := AckOk SCHEMA_V2.
Definition DylibLoadedAck_err (m : string) : Ack := AckErr SCHEMA_V2 m.

Record EnvNotPropagatedGap : Type := mkEnvNotPropagatedGap {
  eg_schema_version : N;
  eg_parent_audit_token : AuditTokenWire;
  eg_child_binary_path : string;
  eg_detected_at_ms : N;
}.

Definition EnvNotPropagatedGap_new (parent : AuditTokenWire) (path : string) (ts_ms : N) : EnvNotPropagatedGap :=
  mkEnvNotPropagatedGap SCHEMA_V2 parent
    (if bool_decide (MAX_TARGET_PATH < String.length path) then str_take MAX_TARGET_PATH path else path) ts_ms.
Definition EnvNotPropagatedGapAck_ok : Ack := AckOk SCHEMA_V2.
Definition EnvNotPropagatedGapAck_err (m : string) : Ack := AckErr SCHEMA_V2 m.

Record GapInfo : Type := mkGapInfo {
  gi_run_uuid : string;
  gi_gap_kind : string;
  gi_binary_path : option string;
  gi_detected_at_ms : N;
}.

Record PromptChannelInit : Type := mkPromptChannelInit {
  ci_schema_version : N;
  ci_run_uuid : string;
}.

Definition PromptChannelInitAck_ok : Ack := AckOk SCHEMA_V3.
Definition PromptChannelInitAck_err (m : string) : Ack := AckErr SCHEMA_V3 m.

Record ExecBlocked : Type := mkExecBlocked {
  eb_schema_version : N;
  eb_audit_token : AuditTokenWire;
  eb_target_path : string;
  eb_reason : string;
  eb_blocked_at_ms : N;
}.

Definition ExecBlocked_new (t : AuditTokenWire) (target_path reason : string) (blocked_at_ms : N) : ExecBlocked :=
  let len := Nat.min (String.length target_path) MAX_TARGET_PATH in
  mkExecBlocked SCHEMA_V4 t (str_take len target_path) reason blocked_at_ms.
Definition ExecBlockedAck_ok : Ack := AckOk SCHEMA_V4.
Definition ExecBlockedAck_err (m : string) : Ack := AckErr SCHEMA_V4 m.

Record PersistenceWrite : Type := mkPersistenceWrite {
  pw_schema_version : N;
  pw_audit_token : AuditTokenWire;
  pw_target_path : string;
  pw_category : string;
  pw_detected_at_ms : N;
}.

Definition PersistenceWrite_new (t : AuditTokenWire) (target_path category : string) (detected_at_ms : N) :
    PersistenceWrite :=
  let len := Nat.min (String.length target_path) MAX_TARGET_PATH in
  mkPersistenceWrite SCHEMA_V4 t (str_take len target_path) category detected_at_ms.
Definition PersistenceWriteAck_ok : Ack := AckOk SCHEMA_V4.
Definition PersistenceWriteAck_err (m : string) : Ack := AckErr SCHEMA_V4 m.

(** Every path a constructor puts on the wire fits the receiver's limit. *)
Lemma constructors_cap_paths t path s ms :
  String.length (eg_child_binary_path (EnvNotPropagatedGap_new t path ms)) <= MAX_TARGET_PATH /\
  String.length (eb_target_path (ExecBlocked_new t path s ms)) <= MAX_TARGET_PATH /\
  String.length (pw_target_path (PersistenceWrite_new t path s ms)) <= MAX_TARGET_PATH.
Proof.
  cbn [eg_child_binary_path EnvNotPropagatedGap_new eb_target_path ExecBlocked_new pw_target_path PersistenceWrite_new].
  rewrite !length_str_take. split; [|lia].
  destruct (decide (MAX_TARGET_PATH < String.length path)) as [T|T];
    [rewrite bool_decide_eq_true_2 by done; rewrite length_str_take; lia
    |rewrite bool_decide_eq_false_2 by done; lia].
Qed.
