(* ===== verification/Events.v ===== *)
(** * Process events and the coverage-gap detector

    [crates/guard-daemon/src/gap_detector.rs] and the event handlers of
    [ipc_server.rs]: registration of a wrapped root, fork, exec, library-loaded and
    cleared-environment events, the forensic rows of denials, blocked execs and
    persistence writes, and the opening of a prompt channel.  Each handler is a
    function of the daemon state, the kernel-verified token of the peer, the decoded
    request (or the error of decoding it) and what the operating system answers
    while it runs.  A gap timer is a numbered thread that waits: [es_waiting] holds
    the threads that have been neither signalled nor disconnected, [es_pending] the
    sender kept for each token; a timer that fires is one step. *)

From S2P Require Import Prelude RustStr RustUtf8 EnvFilter Policy ProcessTree Prompt Frame.
From S2P Require Import Calendar LogWriter Messages.

(** What the operating system answers during one handler. *)
Class OsView : Type := {
  process_uid : Z -> option N;
  (** [kill(pid, 0)]: nothing, or an error number. *)
  kill_zero : Z -> option Z;
  kernel_pidversion : Z -> option N;
  is_hardened_runtime : Z -> bool;
  unix_ms_now : N;
  now_ts : option string;
}.

Definition EPERM : Z := 1.

(** ** State *)

Inductive TimeoutAction : Type := RecordOnly | KillProcess.

(** An armed timer: what it does when nobody cancels it. *)
Record Arm : Type := mkArm {
  am_token : AuditToken;
  am_gap : CoverageGap;
  am_ring : bool;
  am_log : bool;
  am_action : TimeoutAction;
}.

Record Events : Type := mkEvents {
  es_tree : Tree;
  es_pending : gmap AuditToken nat;
  es_waiting : gmap nat Arm;
  es_next : nat;
  es_ring : list GapInfo;
  es_writer : LogWriter;
  es_killed : list Z;
}.

Definition with_tree (e : Events) (t : Tree) : Events :=
  mkEvents t (es_pending e) (es_waiting e) (es_next e) (es_ring e) (es_writer e) (es_killed e).
Definition with_writer (e : Events) (w : LogWriter) : Events :=
  mkEvents (es_tree e) (es_pending e) (es_waiting e) (es_next e) (es_ring e) w (es_killed e).
Definition with_ring (e : Events) (r : list GapInfo) : Events :=
  mkEvents (es_tree e) (es_pending e) (es_waiting e) (es_next e) r (es_writer e) (es_killed e).
Definition with_killed (e : Events) (k : list Z) : Events :=
  mkEvents (es_tree e) (es_pending e) (es_waiting e) (es_next e) (es_ring e) (es_writer e) k.

(** ** gap_detector.rs *)

Definition GAP_TIMEOUT_MS : N := 500.

(** A new sender replaces the old one, whose thread is disconnected and exits. *)
Definition arm_inner (e : Events) (tok : AuditToken) (gap : CoverageGap) (ring log : bool)
    (action : TimeoutAction) : Events :=
  let waiting := match es_pending e !! tok with Some old => delete old (es_waiting e) | None => es_waiting e end in
  mkEvents (es_tree e) (<[tok := es_next e]> (es_pending e))
    (<[es_next e := mkArm tok gap ring log action]> waiting) (S (es_next e))
    (es_ring e) (es_writer e) (es_killed e).

Definition arm_with_forensics (e : Events) (tok : AuditToken) (gap : CoverageGap) (ring log : bool) : Events :=
  arm_inner e tok gap ring log RecordOnly.
Definition arm (e : Events) (tok : AuditToken) (gap : CoverageGap) : Events :=
  arm_with_forensics e tok gap false false.
Definition arm_enforced_with_forensics (e : Events) (tok : AuditToken) (gap : CoverageGap) (ring log : bool) :
    Events := arm_inner e tok gap ring log KillProcess.

Definition cancel (e : Events) (tok : AuditToken) : Events * bool :=
  match es_pending e !! tok with
  | Some id =>
      (mkEvents (es_tree e) (delete tok (es_pending e)) (delete id (es_waiting e)) (es_next e)
         (es_ring e) (es_writer e) (es_killed e), true)
  | None => (e, false)
  end.

Definition pending_count (e : Events) : nat := size (es_pending e).

Definition gap_kind (g : CoverageGap) : string :=
  match g with
  | ConfirmedHardened _ _ => "hardened-runtime"
  | UnknownInjectionFailure _ _ => "unknown-injection-failure"
  | EnvNotPropagated _ _ => "env-not-propagated"
  end.

Definition gap_binary (g : CoverageGap) : string :=
  match g with
  | ConfirmedHardened b _ | UnknownInjectionFailure b _ | EnvNotPropagated b _ => b
  end.

Definition some_path (b : string) : option string := if is_empty b then None else Some b.
Definition argv_of (b : string) : list string := if is_empty b then [] else [b].

(** [pid_t::try_from(val[5])], and positive. *)
Definition audit_token_pid (t : AuditToken) : option Z :=
  if bool_decide (val5 t <= 2147483647)%N
  then (if bool_decide (0 < val5 t)%N then Some (Z.of_N (val5 t)) else None) else None.

Section Handlers.
Context `{OsView}.

Definition pidversion_still_matches (pid : Z) (expected : N) : bool :=
  if bool_decide (expected = 0%N) then true
  else match kernel_pidversion pid with Some actual => bool_decide (actual = expected) | None => true end.

Definition kill_gap_process (e : Events) (tok : AuditToken) (gap : CoverageGap) : Events :=
  match gap with
  | EnvNotPropagated _ _ => e
  | _ =>
      match audit_token_pid tok with
      | None => e
      | Some pid =>
          if pidversion_still_matches pid (val7 tok) then with_killed e (es_killed e ++ [pid]) else e
      end
  end.

Definition timeout_apply (e : Events) (a : TimeoutAction) (tok : AuditToken) (gap : CoverageGap) : Events :=
  match a with RecordOnly => e | KillProcess => kill_gap_process e tok gap end.

(** The run of the node under a token, empty when there is none. *)
Definition run_uuid_of (t : Tree) (tok : AuditToken) : string :=
  match get_node t tok with Some n => node_run_uuid n | None => "" end.

Definition gap_row (run_uuid kind : string) (tok : AuditToken) (argv : list string) (path : option string) : JsonRow :=
  RowGap (mkGapRecord JSONL_SCHEMA_VERSION now_ts run_uuid kind
            (mkProcessCtxLog (val5 tok) (val7 tok) argv "") path).

(** The timer of thread [id] runs out.  Its sender stays in [es_pending]. *)
Definition fire (e : Events) (id : nat) : Events :=
  match es_waiting e !! id with
  | None => e
  | Some a =>
      let tok := am_token a in
      let gap := am_gap a in
      let e1 := mkEvents (set_coverage_gap (es_tree e) tok gap).1 (es_pending e) (delete id (es_waiting e))
                  (es_next e) (es_ring e) (es_writer e) (es_killed e) in
      let run_uuid := run_uuid_of (es_tree e1) tok in
      let path := some_path (gap_binary gap) in
      let e2 := if am_ring a
                then with_ring e1 (ring_push (es_ring e1) (mkGapInfo run_uuid (gap_kind gap) path unix_ms_now))
                else e1 in
      let e3 := if am_log a
                then with_writer e2 (send (es_writer e2)
                       (gap_row run_uuid (gap_kind gap) tok (argv_of (gap_binary gap)) path))
                else e2 in
      timeout_apply e3 (am_action a) tok gap
  end.

(** ** ipc_server.rs: registration *)

Definition pid_exists (pid : Z) : bool :=
  match kill_zero pid with None => true | Some errno => bool_decide (errno = EPERM) end.

Definition verify_wire_pid_matches_token (wire_pid : Z) (token : AuditToken) (wire_pidversion : N) : bool :=
  let uid_ok :=
    match process_uid wire_pid with
    | Some proc_uid =>
        bool_decide (val0 token = proc_uid) || bool_decide (val1 token = proc_uid)
        || bool_decide (val3 token = proc_uid)
    | None => pid_exists wire_pid
    end in
  if negb uid_ok then false
  else if negb (bool_decide (wire_pidversion = 0%N)) then
    match kernel_pidversion wire_pid with
    | Some actual => bool_decide (actual = wire_pidversion)
    | None => true
    end
  else true.

(** [pid_t::try_from(n).unwrap_or(-1)]. *)
Definition pid_of_u32 (n : N) : Z := if bool_decide (n <= 2147483647)%N then Z.of_N n else (-1)%Z.

(** The registration of a decoded message. *)
Definition register_root (e : Events) (peer : AuditToken) (msg : RegisterRoot) : Events * Ack :=
  let wire := token_of_wire (rg_audit_token msg) in
  let accept (tok : AuditToken) :=
    let run_uuid := default "" (rg_run_uuid msg) in
    let t1 := (insert_root (es_tree e) tok run_uuid "").1 in
    let t2 := match rg_run_uuid msg with Some u => bind_run_root t1 u tok | None => t1 end in
    let captured := extract_pm_env (rg_pm_env msg) in
    let t3 := match captured with [] => t2 | _ => set_pm_env_snapshot t2 tok captured end in
    (with_tree e t3, Reply_ack) in
  if bool_decide (val5 wire = val5 peer) then accept peer
  else if negb (verify_wire_pid_matches_token (pid_of_u32 (val5 wire)) peer (val7 wire))
  then (e, Reply_err ("WR-08: refusing wire pid " +:+ pretty (val5 wire)))
  else accept wire.

(** The untagged frame: three more length bytes, the limit, the body.  [None] is a
    stream closed without a reply. *)
Definition handle_legacy_register_root `{Cbor RegisterRoot} (e : Events) (peer : AuditToken)
    (first_length_byte : ascii) (rest : string) : Events * option Ack :=
  match read_exact rest 3 with
  | Err _ => (e, None)
  | Ok (three, r1) =>
      let body_len := from_be_bytes (String first_length_byte three) in
      if bool_decide (65536 < body_len)%N
      then (e, Some (Reply_err ("frame too large: " +:+ pretty body_len)))
      else match read_exact r1 (N.to_nat body_len) with
           | Err _ => (e, None)
           | Ok (body, _) =>
               match from_reader body with
               | Err m => (e, Some (Reply_err ("decode: " +:+ m)))
               | Ok msg => let '(e1, r) := register_root e peer msg in (e1, Some r)
               end
           end
  end.

(** ** ipc_server.rs: events of the tree *)

(** The token recorded for a forked child: pid and pidversion, zeros elsewhere.  The token
    the kernel presents for the child has its credentials and is another one:
    [forked_child_not_recognised]. *)
Definition child_token (ev : ForkEvent) : AuditToken :=
  mkToken 0 0 0 0 0 (if bool_decide (0 <= fe_child_pid ev)%Z then Z.to_N (fe_child_pid ev) else 0%N)
    0 (fe_child_pidversion ev).

Definition show_tree_error (err : TreeError) : string :=
  match err with ParentNotFound => "parent audit_token not in tree" | NodeNotFound => "audit_token not in tree" end.

Definition handle_fork_event (e : Events) (peer : AuditToken) (req : result ForkEvent string) : Events * Ack :=
  match req with
  | Err m => (e, ForkAck_err ("decode: " +:+ m))
  | Ok ev =>
      if negb (bool_decide (fe_schema_version ev = SCHEMA_V2))
      then (e, ForkAck_err ("schema_version " +:+ pretty (fe_schema_version ev) +:+ " != IPC_SCHEMA_V2"))
      else if negb (is_tracked (es_tree e) peer)
      then (e, ForkAck_err "untracked peer; ignoring fork event")
      else
        let child := child_token ev in
        match record_fork (es_tree e) peer child with
        | (t1, Err err) => (with_tree e t1, ForkAck_err ("record_fork: " +:+ show_tree_error err))
        | (t1, Ok _) =>
            let e1 := with_tree e t1 in
            (if is_hardened_runtime (fe_child_pid ev)
             then arm_enforced_with_forensics e1 child (ConfirmedHardened "" unix_ms_now) true true
             else e1, ForkAck_ok)
        end
  end.

Definition handle_exec_event (e : Events) (peer : AuditToken) (req : result ExecEvent string) : Events * Ack :=
  match req with
  | Err m => (e, ExecAck_err ("decode: " +:+ m))
  | Ok ev =>
      if negb (bool_decide (ee_schema_version ev = SCHEMA_V2) || bool_decide (ee_schema_version ev = SCHEMA_V3))
      then (e, ExecAck_err ("schema_version " +:+ pretty (ee_schema_version ev)
                            +:+ " not in [IPC_SCHEMA_V2, IPC_SCHEMA_V3]"))
      else if bool_decide (MAX_TARGET_PATH < String.length (ee_target_path ev))
      then (e, ExecAck_err ("target_path exceeds " +:+ pretty (N.of_nat MAX_TARGET_PATH) +:+ " bytes"))
      else if negb (is_tracked (es_tree e) peer)
      then (e, ExecAck_err "untracked peer; ignoring exec event")
      else
        let target_path := from_utf8_lossy (ee_target_path ev) in
        let t1 := (record_exec (es_tree e) peer target_path).1 in
        let captured := extract_pm_env (ee_pm_env ev) in
        let t2 := match captured with [] => t1 | _ => set_pm_env_snapshot t1 peer captured end in
        let e1 := with_tree e t2 in
        (if is_hardened_runtime (pid_of_u32 (val5 peer))
         then arm_enforced_with_forensics e1 peer (ConfirmedHardened target_path unix_ms_now) true true
         else e1, ExecAck_ok)
  end.

Definition handle_dylib_loaded (e : Events) (peer : AuditToken) (req : result DylibLoaded string) : Events * Ack :=
  match req with
  | Err m => (e, DylibLoadedAck_err ("decode: " +:+ m))
  | Ok ev =>
      if negb (bool_decide (dl_schema_version ev = SCHEMA_V2))
      then (e, DylibLoadedAck_err ("schema_version " +:+ pretty (dl_schema_version ev) +:+ " != IPC_SCHEMA_V2"))
      else if negb (is_tracked (es_tree e) peer)
      then (e, DylibLoadedAck_err "untracked peer; ignoring dylib_loaded event")
      else ((cancel e peer).1, DylibLoadedAck_ok)
  end.

Definition handle_env_not_propagated_frame (e : Events) (peer : AuditToken)
    (req : result EnvNotPropagatedGap string) : Events * Ack :=
  match req with
  | Err m => (e, EnvNotPropagatedGapAck_err ("decode: " +:+ m))
  | Ok ev =>
      if negb (bool_decide (eg_schema_version ev = SCHEMA_V2))
      then (e, EnvNotPropagatedGapAck_err ("schema_version " +:+ pretty (eg_schema_version ev) +:+ " != IPC_SCHEMA_V2"))
      else if negb (is_tracked (es_tree e) peer)
      then (e, EnvNotPropagatedGapAck_err "untracked peer; ignoring env-not-propagated gap")
      else
        let binary := from_utf8_lossy (eg_child_binary_path ev) in
        match set_coverage_gap (es_tree e) peer (EnvNotPropagated binary (eg_detected_at_ms ev)) with
        | (t1, Err _) => (with_tree e t1, EnvNotPropagatedGapAck_ok)
        | (t1, Ok _) =>
            let e1 := with_tree e t1 in
            let run_uuid := run_uuid_of t1 peer in
            let path := some_path binary in
            let e2 := with_ring e1 (ring_push (es_ring e1)
                        (mkGapInfo run_uuid "env-not-propagated" path (eg_detected_at_ms ev))) in
            (with_writer e2 (send (es_writer e2) (gap_row run_uuid "env-not-propagated" peer [] path)),
             EnvNotPropagatedGapAck_ok)
        end
  end.

(** ** ipc_server.rs: forensic rows *)

Definition argv_for_binary_path (b : string) : list string := if is_empty b then [] else [b].

Definition process_log_context (tok : AuditToken) (b : string) : ProcessCtxLog :=
  mkProcessCtxLog (val5 tok) (val7 tok) (argv_for_binary_path b) "".
Definition empty_process_log_context (tok : AuditToken) : ProcessCtxLog :=
  mkProcessCtxLog (val5 tok) (val7 tok) [] "".
Definition no_process : ProcessCtxLog := mkProcessCtxLog 0 0 [] "".
Definition zero_token : AuditToken := mkToken 0 0 0 0 0 0 0 0.

Definition deny_notify_parent_context (t : Tree) (n : ProcessNode) : ProcessCtxLog :=
  match parent_audit_token n ≫= get_node t with
  | Some p => process_log_context (audit_token p) (binary_path p)
  | None => no_process
  end.

Definition deny_notify_root_context (t : Tree) (n : ProcessNode) : RootCtxLog :=
  mkRootCtxLog (tracked_root n)
    (match get_node t (tracked_root n) with Some r => argv_for_binary_path (binary_path r) | None => [] end).

Record DenyNotifyLogContext : Type := mkDenyCtx {
  dc_run_uuid : string;
  dc_process : ProcessCtxLog;
  dc_parent : ProcessCtxLog;
  dc_root : RootCtxLog;
  dc_package_context : option PackageContext;
}.

Definition deny_notify_log_context (t : Tree) (sender : AuditToken) : DenyNotifyLogContext :=
  match get_node t sender with
  | None => mkDenyCtx "" (empty_process_log_context sender) no_process (mkRootCtxLog zero_token []) None
  | Some n =>
      let root := deny_notify_root_context t n in
      mkDenyCtx (node_run_uuid n) (process_log_context sender (binary_path n)) (deny_notify_parent_context t n) root
        (infer_package_context t sender (join " " (rl_argv root)))
  end.

(** A denial as it is reported: the fields of [DenyNotify] the handler reads. *)
Record DenyReport : Type := mkDenyReport {
  dn_schema : N;
  dn_token : AuditTokenWire;
  dn_host : option string;
  dn_port : N;
  dn_ip : option string;
  dn_surface : string;
  dn_kind : string;
}.

Definition enrich_deny_notify_decision (curated : result (list AllowlistEntry) string) (d : DecisionRow)
    (req : DenyReport) : DecisionRow :=
  if negb (bool_decide (dn_kind req = "confirmed-deny") || bool_decide (dn_kind req = "suspect-deny")) then d
  else match dn_host req with
  | None => d
  | Some host =>
      let entries := match curated with Ok c => c | Err _ => [] end in
      match enrich_from_entries host entries with
      | [] => d
      | intel => mkDecisionRow (dr_schema_version d) (dr_ts d) (dr_verdict d) (dr_dest_host d) (dr_dest_port d)
                   (dr_dest_ip d) (dr_run_uuid d) (dr_source_kind d) (dr_source_locator d) (dr_process d)
                   (dr_parent d) (dr_root d) (dr_package_context d) (Some intel)
      end
  end.

Definition handle_deny_notify_frame (e : Events) (curated : result (list AllowlistEntry) string)
    (req : result DenyReport string) : Events * Ack :=
  match req with
  | Err m => (e, AckErr SCHEMA_V4 ("decode: " +:+ m))
  | Ok ev =>
      if negb (bool_decide (dn_schema ev = SCHEMA_V4))
      then (e, AckErr SCHEMA_V4 ("schema_version " +:+ pretty (dn_schema ev) +:+ " != IPC_SCHEMA_V4"))
      else
        let ctx := deny_notify_log_context (es_tree e) (token_of_wire (dn_token ev)) in
        let d := mkDecisionRow JSONL_SCHEMA_VERSION now_ts "Deny" (default "" (dn_host ev)) (dn_port ev) (dn_ip ev)
                   (dc_run_uuid ctx) (if is_empty (dn_kind ev) then "hook_deny" else dn_kind ev)
                   (Some (dn_surface ev)) (dc_process ctx) (dc_parent ctx) (dc_root ctx) (dc_package_context ctx) None in
        (with_writer e (send (es_writer e) (RowBlock (enrich_deny_notify_decision curated d ev))), AckOk SCHEMA_V4)
  end.

(** The row shared by blocked execs and persistence writes. *)
Definition path_gap_row (t : Tree) (sender : AuditToken) (kind target_path : string) : JsonRow :=
  match get_node t sender with
  | Some n => gap_row (node_run_uuid n) kind sender (argv_of (binary_path n)) (Some target_path)
  | None => gap_row "" kind sender [] (Some target_path)
  end.

Definition handle_exec_blocked_frame (e : Events) (req : result ExecBlocked string) : Events * Ack :=
  match req with
  | Err m => (e, ExecBlockedAck_err ("decode: " +:+ m))
  | Ok ev =>
      if negb (bool_decide (eb_schema_version ev = SCHEMA_V4))
      then (e, ExecBlockedAck_err ("schema_version " +:+ pretty (eb_schema_version ev) +:+ " != IPC_SCHEMA_V4"))
      else (with_writer e (send (es_writer e)
              (path_gap_row (es_tree e) (token_of_wire (eb_audit_token ev)) "exec-blocked"
                 (from_utf8_lossy (eb_target_path ev)))), ExecBlockedAck_ok)
  end.

Definition handle_persistence_write_frame (e : Events) (req : result PersistenceWrite string) : Events * Ack :=
  match req with
  | Err m => (e, PersistenceWriteAck_err ("decode: " +:+ m))
  | Ok ev =>
      if negb (bool_decide (pw_schema_version ev = SCHEMA_V4))
      then (e, PersistenceWriteAck_err ("schema_version " +:+ pretty (pw_schema_version ev) +:+ " != IPC_SCHEMA_V4"))
      else (with_writer e (send (es_writer e)
              (path_gap_row (es_tree e) (token_of_wire (pw_audit_token ev)) "persistence-write"
                 (from_utf8_lossy (pw_target_path ev)))), PersistenceWriteAck_ok)
  end.

End Handlers.

(** ** ipc_server.rs: opening a prompt channel *)

Definition MAX_CONCURRENT_CHANNELS : nat := 64.

(** Whether the stream can be cloned and the thread spawned is the system's answer;
    the second result says whether the channel thread runs for the run. *)
Definition handle_prompt_channel_init_frame (t : Tree) (clone_error spawn_error : option string)
    (req : result PromptChannelInit string) : option string * Ack :=
  match req with
  | Err m => (None, PromptChannelInitAck_err ("decode: " +:+ m))
  | Ok init =>
      if negb (bool_decide (ci_schema_version init = SCHEMA_V3))
      then (None, PromptChannelInitAck_err ("schema_version " +:+ pretty (ci_schema_version init) +:+ " != V3"))
      else match get_run t (ci_run_uuid init) with
      | None => (None, PromptChannelInitAck_err ("unknown run_uuid " +:+ ci_run_uuid init))
      | Some _ =>
          if bool_decide (MAX_CONCURRENT_CHANNELS <= prompt_channels_len t)
          then (None, PromptChannelInitAck_err ("max concurrent channels reached ("
                        +:+ pretty (N.of_nat MAX_CONCURRENT_CHANNELS) +:+ ")"))
          else match clone_error with
          | Some err => (None, PromptChannelInitAck_err ("try_clone: " +:+ err))
          | None =>
              match spawn_error with
              | Some err => (None, PromptChannelInitAck_err ("spawn failed: " +:+ err))
              | None => (Some (ci_run_uuid init), PromptChannelInitAck_ok)
              end
          end
      end
  end.

(** ** The daemon as a transition system *)

(** A handler of any worker thread, or a timer, with any answers of the system. *)
Inductive ev_step : Events -> Events -> Prop :=
| ev_register (os : OsView) e peer msg : ev_step e (register_root e peer msg).1
| ev_fork (os : OsView) e peer req : ev_step e (handle_fork_event e peer req).1
| ev_exec (os : OsView) e peer req : ev_step e (handle_exec_event e peer req).1
| ev_loaded (os : OsView) e peer req : ev_step e (handle_dylib_loaded e peer req).1
| ev_env_gap (os : OsView) e peer req : ev_step e (handle_env_not_propagated_frame e peer req).1
| ev_deny (os : OsView) e curated req : ev_step e (handle_deny_notify_frame e curated req).1
| ev_blocked (os : OsView) e req : ev_step e (handle_exec_blocked_frame e req).1
| ev_persist (os : OsView) e req : ev_step e (handle_persistence_write_frame e req).1
| ev_fire (os : OsView) e id : ev_step e (fire e id).

(** What an event may do to the timers and the kill list. *)
Inductive timer_effect (e e' : Events) : Prop :=
| te_none : es_pending e' = es_pending e -> es_waiting e' = es_waiting e -> es_next e' = es_next e ->
    es_killed e' = es_killed e -> timer_effect e e'
| te_arm tok b ms : is_tracked (es_tree e') tok = true -> es_killed e' = es_killed e ->
    (let e2 := arm_enforced_with_forensics (with_tree e (es_tree e')) tok (ConfirmedHardened b ms) true true in
     es_pending e' = es_pending e2 /\ es_waiting e' = es_waiting e2 /\ es_next e' = es_next e2) ->
    timer_effect e e'
| te_cancel tok : is_tracked (es_tree e) tok = true -> e' = (cancel e tok).1 -> timer_effect e e'
| te_fire (os : OsView) id a : es_waiting e !! id = Some a -> es_pending e' = es_pending e ->
    es_waiting e' = delete id (es_waiting e) -> es_next e' = es_next e ->
    (es_killed e' = es_killed e \/
     exists pid, es_killed e' = es_killed e ++ [pid] /\ am_action a = KillProcess /\
       audit_token_pid (am_token a) = Some pid /\ pidversion_still_matches pid (val7 (am_token a)) = true) ->
    timer_effect e e'.

Lemma is_tracked_Some t tok : is_tracked t tok = true <-> is_Some (nodes t !! tok).
Proof. unfold is_tracked. destruct (nodes t !! tok) as [n|]; split; [by eexists|done|done|by intros []]. Qed.

Lemma record_fork_tracked t p c t1 u : record_fork t p c = (t1, Ok u) -> is_tracked t1 c = true.
Proof.
  unfold record_fork. destruct (nodes t !! p); intros [= <- <-]. apply is_tracked_Some. cbn.
  rewrite lookup_insert_eq. by eexists.
Qed.

(** The tree of an event is reached by the operations of the tree. *)
Lemma fork_tree `{OsView} e peer req : rtc tree_step (es_tree e) (es_tree (handle_fork_event e peer req).1).
Proof.
  unfold handle_fork_event. destruct req as [ev|]; [|done]. destruct (negb _); [done|]. destruct (negb _); [done|].
  pose proof (step_fork (es_tree e) peer (child_token ev)) as Hs.
  destruct (record_fork _ _ _) as [t1 [u|err]]; [|by apply rtc_once].
  by destruct (is_hardened_runtime _); apply rtc_once.
Qed.

Lemma capture_tree t tok captured :
  rtc tree_step t (match captured with [] => t | _ => set_pm_env_snapshot t tok captured end).
Proof. destruct captured; [done|]. apply rtc_once. constructor. Qed.

Lemma exec_tree `{OsView} e peer req : rtc tree_step (es_tree e) (es_tree (handle_exec_event e peer req).1).
Proof.
  unfold handle_exec_event. destruct req as [ev|]; [|done]. destruct (negb _); [done|].
  destruct (bool_decide _); [done|]. destruct (negb _); [done|].
  assert (rtc tree_step (es_tree e)
    (match extract_pm_env (ee_pm_env ev) with
     | [] => (record_exec (es_tree e) peer (from_utf8_lossy (ee_target_path ev))).1
     | _ => set_pm_env_snapshot (record_exec (es_tree e) peer (from_utf8_lossy (ee_target_path ev))).1 peer
              (extract_pm_env (ee_pm_env ev)) end)) as Hr.
  { eapply rtc_l; [apply step_exec|]. apply capture_tree. }
  by destruct (is_hardened_runtime _).
Qed.

Lemma register_tree `{OsView} e peer msg : rtc tree_step (es_tree e) (es_tree (register_root e peer msg).1).
Proof.
  unfold register_root. cbv zeta.
  assert (forall tok, rtc tree_step (es_tree e)
    (match extract_pm_env (rg_pm_env msg) with
     | [] => match rg_run_uuid msg with
             | Some u => bind_run_root (insert_root (es_tree e) tok (default "" (rg_run_uuid msg)) "").1 u tok
             | None => (insert_root (es_tree e) tok (default "" (rg_run_uuid msg)) "").1 end
     | _ => set_pm_env_snapshot (match rg_run_uuid msg with
             | Some u => bind_run_root (insert_root (es_tree e) tok (default "" (rg_run_uuid msg)) "").1 u tok
             | None => (insert_root (es_tree e) tok (default "" (rg_run_uuid msg)) "").1 end) tok
              (extract_pm_env (rg_pm_env msg)) end)) as Hr.
  { intros tok. eapply rtc_l; [apply (step_insert_root _ tok (default "" (rg_run_uuid msg)) "")|].
    destruct (rg_run_uuid msg) as [u|]; [|apply capture_tree].
    eapply rtc_l; [apply (step_bind_record _ u tok)|]. eapply rtc_l; [apply (step_bind_node _ u tok)|].
    apply capture_tree. }
  destruct (bool_decide _); [apply Hr|]. destruct (negb _); [done|]. apply Hr.
Qed.

Lemma env_gap_tree `{OsView} e peer req :
  rtc tree_step (es_tree e) (es_tree (handle_env_not_propagated_frame e peer req).1).
Proof.
  unfold handle_env_not_propagated_frame. destruct req as [ev|]; [|done].
  destruct (negb _); [done|]. destruct (negb _); [done|].
  pose proof (step_gap (es_tree e) peer (EnvNotPropagated (from_utf8_lossy (eg_child_binary_path ev)) (eg_detected_at_ms ev))) as Hs.
  by destruct (set_coverage_gap _ _ _) as [t1 [u|err]]; apply rtc_once.
Qed.

Lemma timeout_apply_fields `{OsView} e a tok gap :
  let e' := timeout_apply e a tok gap in
  es_tree e' = es_tree e /\ es_pending e' = es_pending e /\ es_waiting e' = es_waiting e /\ es_next e' = es_next e /\
  (es_killed e' = es_killed e \/
   exists pid, es_killed e' = es_killed e ++ [pid] /\ a = KillProcess /\ audit_token_pid tok = Some pid /\
     pidversion_still_matches pid (val7 tok) = true).
Proof.
  unfold timeout_apply. destruct a; cbn; [by auto 10|]. unfold kill_gap_process.
  destruct gap; [| |by auto 10]; (destruct (audit_token_pid tok) as [pid|]; [|by auto 10]);
    (destruct (pidversion_still_matches pid (val7 tok)) eqn:Hp; [|by auto 10]);
    cbn; split_and!; try done; right; by exists pid.
Qed.

Lemma fire_fields `{OsView} e id a :
  es_waiting e !! id = Some a ->
  es_tree (fire e id) = (set_coverage_gap (es_tree e) (am_token a) (am_gap a)).1 /\
  es_pending (fire e id) = es_pending e /\ es_waiting (fire e id) = delete id (es_waiting e) /\
  es_next (fire e id) = es_next e /\
  (es_killed (fire e id) = es_killed e \/
   exists pid, es_killed (fire e id) = es_killed e ++ [pid] /\ am_action a = KillProcess /\
     audit_token_pid (am_token a) = Some pid /\ pidversion_still_matches pid (val7 (am_token a)) = true).
Proof.
  intros Ha. unfold fire. rewrite Ha. cbv zeta.
  match goal with |- context [timeout_apply ?x ?y ?z ?g] => destruct (timeout_apply_fields x y z g) as (T & P & W & N & K) end.
  cbv zeta in T, P, W, N, K. rewrite T, P, W, N. destruct (am_ring a), (am_log a); cbn in *; done.
Qed.

Lemma ev_step_tree e e' : ev_step e e' -> rtc tree_step (es_tree e) (es_tree e').
Proof.
  intros [os e0 peer msg|os e0 peer req|os e0 peer req|os e0 peer req|os e0 peer req|os e0 cur req|os e0 req|os e0 req|os e0 id];
    [apply register_tree|apply fork_tree|apply exec_tree| |apply env_gap_tree| | | |].
  - unfold handle_dylib_loaded. destruct req as [ev|]; [|done]. destruct (negb _); [done|]. destruct (negb _); [done|].
    cbn. unfold cancel. by destruct (es_pending e0 !! peer).
  - unfold handle_deny_notify_frame. destruct req; [|done]. by destruct (negb _).
  - unfold handle_exec_blocked_frame. destruct req; [|done]. by destruct (negb _).
  - unfold handle_persistence_write_frame. destruct req; [|done]. by destruct (negb _).
  - destruct (es_waiting e0 !! id) as [a|] eqn:Ha; [|unfold fire; by rewrite Ha].
    destruct (fire_fields e0 id a Ha) as (-> & _). apply rtc_once. constructor.
Qed.

(** ** Timers *)

Lemma ev_step_effect e e' : ev_step e e' -> timer_effect e e'.
Proof.
  intros [os e0 peer msg|os e0 peer req|os e0 peer req|os e0 peer req|os e0 peer req|os e0 cur req|os e0 req|os e0 req|os e0 id].
  - apply te_none; unfold register_root; cbv zeta; destruct (bool_decide _); try done; by destruct (negb _).
  - unfold handle_fork_event. destruct req as [ev|]; [|by apply te_none]. destruct (negb _); [by apply te_none|].
    destruct (negb _); [by apply te_none|].
    destruct (record_fork _ _ _) as [t1 [u|err]] eqn:Er; [|by apply te_none].
    destruct (is_hardened_runtime _); [|by apply te_none].
    apply (te_arm _ _ (child_token ev) "" unix_ms_now); [|done..]. cbn. by eapply record_fork_tracked.
  - pose proof (exec_tree e0 peer req) as Ht. unfold handle_exec_event in *.
    destruct req as [ev|]; [|by apply te_none]. destruct (negb _); [by apply te_none|].
    destruct (bool_decide _); [by apply te_none|].
    destruct (is_tracked (es_tree e0) peer) eqn:Hp; cbn [negb] in *; [|by apply te_none].
    destruct (is_hardened_runtime _); [|by apply te_none].
    apply (te_arm _ _ peer (from_utf8_lossy (ee_target_path ev)) unix_ms_now); [|done..]. clear -Ht Hp. cbn in *. revert Ht Hp. generalize (es_tree e0).
    intros t. induction 1; [done|]. eauto using tree_step_tracked.
  - unfold handle_dylib_loaded. destruct req as [ev|]; [|by apply te_none]. destruct (negb _); [by apply te_none|].
    destruct (is_tracked (es_tree e0) peer) eqn:Hp; cbn [negb]; [|by apply te_none].
    by apply (te_cancel _ _ peer).
  - unfold handle_env_not_propagated_frame. apply te_none; (destruct req as [ev|]; [|done]);
      (destruct (negb _); [done|]); (destruct (negb _); [done|]);
      by destruct (set_coverage_gap _ _ _) as [t1 [u|err]].
  - unfold handle_deny_notify_frame. destruct req; [|by apply te_none]. by destruct (negb _); apply te_none.
  - unfold handle_exec_blocked_frame. destruct req; [|by apply te_none]. by destruct (negb _); apply te_none.
  - unfold handle_persistence_write_frame. destruct req; [|by apply te_none]. by destruct (negb _); apply te_none.
  - destruct (es_waiting e0 !! id) as [a|] eqn:Ha.
    + destruct (fire_fields e0 id a Ha) as (_ & P & W & N & K). by apply (te_fire _ _ os id a).
    + unfold fire. rewrite Ha. by apply te_none.
Qed.

(** A waiting timer is the one its token's sender belongs to, so there is at most
    one for a token; it watches a tracked process, is enforced and records a
    confirmed hardened runtime; numbers are never reused. *)
Record timer_inv (e : Events) : Prop := {
  ti_own : forall id a, es_waiting e !! id = Some a -> es_pending e !! am_token a = Some id;
  ti_tracked : forall id a, es_waiting e !! id = Some a -> is_tracked (es_tree e) (am_token a) = true;
  ti_kind : forall id a, es_waiting e !! id = Some a ->
    am_action a = KillProcess /\ exists b ms, am_gap a = ConfirmedHardened b ms;
  ti_fresh : forall id a, es_waiting e !! id = Some a -> id < es_next e;
}.

Lemma rtc_tracked t t' tok : rtc tree_step t t' -> is_tracked t tok = true -> is_tracked t' tok = true.
Proof. induction 1; eauto using tree_step_tracked. Qed.

Lemma cancel_waiting e tok id a :
  es_waiting (cancel e tok).1 !! id = Some a -> es_waiting e !! id = Some a.
Proof. unfold cancel. destruct (es_pending e !! tok); cbn; [|done]. by intros [_ ?]%lookup_delete_Some. Qed.

Lemma cancel_none e tok id a :
  timer_inv e -> es_waiting (cancel e tok).1 !! id = Some a -> am_token a <> tok.
Proof.
  intros Hinv Hw Heq. pose proof (ti_own e Hinv id a (cancel_waiting _ _ _ _ Hw)) as Hown. rewrite Heq in Hown.
  revert Hw. unfold cancel. rewrite Hown. cbn. by rewrite lookup_delete_eq.
Qed.

Lemma timer_step_inv e e' : ev_step e e' -> timer_inv e -> timer_inv e'.
Proof.
  intros Hs Hinv. pose proof (ev_step_tree e e' Hs) as Ht. destruct Hinv as [H1 H2 H3 H4].
  assert (forall tok, is_tracked (es_tree e) tok = true -> is_tracked (es_tree e') tok = true) as Hk
    by (intros tok; by apply rtc_tracked).
  destruct (ev_step_effect e e' Hs) as [P W N _|tok b ms Htr _ (P & W & N)|tok _ ->|os id a Ha P W N _].
  - split; rewrite ?P, ?W, ?N; eauto.
  - cbn in P, W, N. set (wt := match es_pending e !! tok with Some old => delete old (es_waiting e) | None => es_waiting e end) in *.
    assert (forall id a, wt !! id = Some a -> es_waiting e !! id = Some a /\ am_token a <> tok) as Hwt.
    { intros id a. unfold wt. destruct (es_pending e !! tok) as [old|] eqn:Eo.
      - intros [Hne Hl]%lookup_delete_Some. split; [done|]. intros E. apply H1 in Hl. rewrite E in Hl. congruence.
      - intros Hl. split; [done|]. intros E. apply H1 in Hl. rewrite E in Hl. congruence. }
    split; rewrite ?P, ?W, ?N; intros id a [[<- <-]|[Hne Hl]]%lookup_insert_Some; cbn;
      try (destruct (Hwt id a Hl) as [Hl' Hnt]).
    + by rewrite lookup_insert_eq.
    + rewrite lookup_insert_ne by done. eauto.
    + done.
    + eauto.
    + split; [done|]. by eexists _, _.
    + eauto.
    + lia.
    + apply H4 in Hl'. lia.
  - split; intros id a Hl; pose proof (cancel_waiting _ _ _ _ Hl) as Hl'; eauto.
    + pose proof (cancel_none e tok id a ltac:(by split) Hl) as Hne. unfold cancel.
      destruct (es_pending e !! tok); cbn; [|by apply H1]. rewrite lookup_delete_ne by done. by apply H1.
    + apply H4 in Hl'. unfold cancel. by destruct (es_pending e !! tok).
  - split; rewrite ?P, ?W, ?N; intros id' a' [Hne Hl]%lookup_delete_Some; eauto.
Qed.

(** A daemon that has just started. *)
Definition fresh (t : Tree) (w : LogWriter) : Events := mkEvents t ∅ ∅ 0 [] w [].

Definition reachable (e : Events) : Prop := exists w, rtc ev_step (fresh new_tree w) e.

Lemma fresh_timer_inv t w : timer_inv (fresh t w).
Proof. split; intros id a Hl; cbn in Hl; by rewrite lookup_empty in Hl. Qed.

Lemma rtc_timer_inv e e' : rtc ev_step e e' -> timer_inv e -> timer_inv e'.
Proof. induction 1; eauto using timer_step_inv. Qed.

Lemma reachable_timer_inv e : reachable e -> timer_inv e.
Proof. intros [w Hr]. eapply rtc_timer_inv; [exact Hr|]. apply fresh_timer_inv. Qed.

Lemma rtc_ev_tree e e' : rtc ev_step e e' -> rtc tree_step (es_tree e) (es_tree e').
Proof. induction 1 as [|e e1 e2 Hs _ IH]; [done|]. etrans; [by apply ev_step_tree|done]. Qed.

(** Through every interleaving of registrations, events and timers the process
    tree stays well formed, and every waiting gap timer is the only one of its
    token, watches a tracked process and is an enforced timer for a confirmed
    hardened runtime. *)
Theorem events_keep_invariants (e : Events) : reachable e -> tree_wf (es_tree e) /\ timer_inv e.
Proof.
  intros Hr. split; [|by apply reachable_timer_inv]. destruct Hr as [w Hr]. apply rtc_ev_tree in Hr. cbn in Hr.
  assert (tree_wf new_tree) as H0 by (constructor; intros *; simpl; by rewrite lookup_empty).
  revert H0. induction Hr; eauto using tree_step_wf.
Qed.

(** Only a timer kills. *)
Lemma ev_step_kills (e e' : Events) :
  ev_step e e' -> es_killed e' = es_killed e \/ exists (os : OsView) id, e' = fire e id /\ is_Some (es_waiting e !! id).
Proof.
  intros [os e0 peer msg|os e0 peer req|os e0 peer req|os e0 peer req|os e0 peer req|os e0 cur req|os e0 req|os e0 req|os e0 id].
  - left. unfold register_root. cbv zeta. destruct (bool_decide _); [done|]. by destruct (negb _).
  - left. unfold handle_fork_event. destruct req as [ev|]; [|done]. destruct (negb _); [done|]. destruct (negb _); [done|].
    destruct (record_fork _ _ _) as [t1 [u|err]]; [|done]. by destruct (is_hardened_runtime _).
  - left. unfold handle_exec_event. destruct req as [ev|]; [|done]. destruct (negb _); [done|]. destruct (bool_decide _); [done|].
    destruct (negb _); [done|]. by destruct (is_hardened_runtime _).
  - left. unfold handle_dylib_loaded. destruct req as [ev|]; [|done]. destruct (negb _); [done|]. destruct (negb _); [done|].
    cbn. unfold cancel. by destruct (es_pending e0 !! peer).
  - left. unfold handle_env_not_propagated_frame. destruct req as [ev|]; [|done]. destruct (negb _); [done|]. destruct (negb _); [done|].
    by destruct (set_coverage_gap _ _ _) as [t1 [u|err]].
  - left. unfold handle_deny_notify_frame. destruct req; [|done]. by destruct (negb _).
  - left. unfold handle_exec_blocked_frame. destruct req; [|done]. by destruct (negb _).
  - left. unfold handle_persistence_write_frame. destruct req; [|done]. by destruct (negb _).
  - destruct (es_waiting e0 !! id) as [a|] eqn:Ha; [right; exists os, id; by rewrite Ha|left; unfold fire; by rewrite Ha].
Qed.

(** The process under a token may be killed: it has a pid, and the version of its pid is the
    one of the token as far as both can be known. *)
Definition still_the_process `{OsView} (tok : AuditToken) : Prop :=
  (0 < val5 tok < 2 ^ 31)%N
  /\ (val7 tok = 0%N \/ kernel_pidversion (Z.of_N (val5 tok)) = None \/ kernel_pidversion (Z.of_N (val5 tok)) = Some (val7 tok)).

#[export] Instance still_the_process_dec `{OsView} (tok : AuditToken) : base.Decision (still_the_process tok).
Proof. unfold still_the_process. apply _. Defined.

Lemma kill_gap_process_exact `{OsView} (e : Events) (tok : AuditToken) (b : string) (ms : N) :
  es_killed (kill_gap_process e tok (ConfirmedHardened b ms))
  = es_killed e ++ (if decide (still_the_process tok) then [Z.of_N (val5 tok)] else []).
Proof.
  unfold kill_gap_process, audit_token_pid, pidversion_still_matches.
  destruct (decide (still_the_process tok)) as [Hd|Hd]; rewrite ?app_nil_r; unfold still_the_process in Hd.
  - destruct Hd as [Hp Hv]. rewrite !bool_decide_eq_true_2 by lia. case_bool_decide; [done|].
    destruct Hv as [?|[->| ->]]; [done|done|]. by rewrite bool_decide_eq_true_2.
  - case_bool_decide; [|done]. case_bool_decide; [|done]. case_bool_decide; [exfalso; apply Hd; split; [lia|by left]|].
    destruct (kernel_pidversion _) as [v|]; [|exfalso; apply Hd; split; [lia|by auto]].
    case_bool_decide as Hv; [|done]. subst v. exfalso. apply Hd. split; [lia|by auto].
Qed.

(** C37: the daemon kills a process only when the timer armed for it runs out.  No other
    step adds to the kill list.  A timer that waits is the one of its token, watches a
    tracked process of a confirmed hardened runtime and is an enforcing one; when it runs
    out it is gone, and the pid of its token is killed exactly if it is a pid and its
    version, where the token has one and the system can tell it, has not changed. *)
Theorem gap_kill_sound (e : Events) :
  reachable e ->
  (forall e', ev_step e e' -> es_killed e' = es_killed e \/ exists (os : OsView) id, e' = fire e id /\ is_Some (es_waiting e !! id))
  /\ forall (os : OsView) id, let e' := fire e id in
     match es_waiting e !! id with
     | None => e' = e
     | Some a =>
         es_pending e !! am_token a = Some id /\ is_tracked (es_tree e) (am_token a) = true
         /\ am_action a = KillProcess /\ (exists b ms, am_gap a = ConfirmedHardened b ms)
         /\ es_waiting e' = delete id (es_waiting e)
         /\ es_killed e' = es_killed e ++ (if decide (still_the_process (am_token a)) then [Z.of_N (val5 (am_token a))] else [])
     end.
Proof.
  intros Hr. pose proof (reachable_timer_inv e Hr) as Hinv. split.
  - intros e'. apply ev_step_kills.
  - intros os id. destruct (es_waiting e !! id) as [a|] eqn:Ha; [|cbn; unfold fire; by rewrite Ha].
    destruct (ti_kind e Hinv id a Ha) as [Hk (b & ms & Hg)]. destruct (fire_fields e id a Ha) as (_ & _ & W & _ & _).
    split; [by apply ti_own|]. split; [by eapply ti_tracked|]. split; [done|]. split; [by eauto|]. split; [exact W|].
    rewrite <- (kill_gap_process_exact e (am_token a) b ms). unfold fire. rewrite Ha, Hk, Hg. cbv zeta. cbn [timeout_apply].
    rewrite !kill_gap_process_exact. by destruct (am_ring a), (am_log a).
Qed.

(** A step that arms no timer for [tok]: anything but an exec event of [tok] itself
    and a fork event that names it as the child. *)
Inductive ev_quiet (tok : AuditToken) : Events -> Events -> Prop :=
| eq_register (os : OsView) e peer msg : ev_quiet tok e (register_root e peer msg).1
| eq_fork (os : OsView) e peer ev : child_token ev <> tok -> ev_quiet tok e (handle_fork_event e peer (Ok ev)).1
| eq_exec (os : OsView) e peer req : peer <> tok -> ev_quiet tok e (handle_exec_event e peer req).1
| eq_loaded (os : OsView) e peer req : ev_quiet tok e (handle_dylib_loaded e peer req).1
| eq_env_gap (os : OsView) e peer req : ev_quiet tok e (handle_env_not_propagated_frame e peer req).1
| eq_deny (os : OsView) e curated req : ev_quiet tok e (handle_deny_notify_frame e curated req).1
| eq_blocked (os : OsView) e req : ev_quiet tok e (handle_exec_blocked_frame e req).1
| eq_persist (os : OsView) e req : ev_quiet tok e (handle_persistence_write_frame e req).1
| eq_fire (os : OsView) e id : ev_quiet tok e (fire e id).

Definition no_timer (e : Events) (tok : AuditToken) : Prop :=
  forall id a, es_waiting e !! id = Some a -> am_token a <> tok.

Lemma arm_no_timer e tok t k g r l act :
  no_timer e tok -> k <> tok -> no_timer (arm_inner (with_tree e t) k g r l act) tok.
Proof.
  intros Hn Hk id a. cbn. intros [[<- <-]|[_ Hl]]%lookup_insert_Some; [done|].
  destruct (es_pending e !! k); [apply lookup_delete_Some in Hl as [_ Hl]|]; by eapply Hn.
Qed.

Lemma ev_quiet_no_timer tok e e' : ev_quiet tok e e' -> no_timer e tok -> no_timer e' tok.
Proof.
  assert (forall x y, es_waiting y = es_waiting x -> no_timer x tok -> no_timer y tok) as Hsame
    by (intros x y E Hx id a; rewrite E; apply Hx).
  intros [os e0 peer msg|os e0 peer ev Hc|os e0 peer req Hp|os e0 peer req|os e0 peer req|os e0 cur req|os e0 req|os e0 req|os e0 id] Hn.
  - apply (Hsame e0); [|done]. unfold register_root; cbv zeta; destruct (bool_decide _); try done; by destruct (negb _).
  - unfold handle_fork_event. destruct (negb _); [done|]. destruct (negb _); [done|].
    destruct (record_fork _ _ _) as [t1 [u|err]]; [|done].
    destruct (is_hardened_runtime _); [|done]. by apply arm_no_timer.
  - unfold handle_exec_event. destruct req as [ev|]; [|done]. destruct (negb _); [done|].
    destruct (bool_decide _); [done|]. destruct (negb _); [done|].
    destruct (is_hardened_runtime _); [|done]. by apply arm_no_timer.
  - unfold handle_dylib_loaded. destruct req as [ev|]; [|done]. destruct (negb _); [done|]. destruct (negb _); [done|].
    intros id a Hw. apply (Hn id). by eapply cancel_waiting.
  - unfold handle_env_not_propagated_frame. destruct req as [ev|]; [|done]. destruct (negb _); [done|].
    destruct (negb _); [done|]. by destruct (set_coverage_gap _ _ _) as [t1 [u|err]].
  - unfold handle_deny_notify_frame. destruct req; [|done]. by destruct (negb _).
  - unfold handle_exec_blocked_frame. destruct req; [|done]. by destruct (negb _).
  - unfold handle_persistence_write_frame. destruct req; [|done]. by destruct (negb _).
  - destruct (es_waiting e0 !! id) as [a|] eqn:Ha; [|unfold fire; by rewrite Ha].
    destruct (fire_fields e0 id a Ha) as (_ & _ & W & _). intros id' a'. rewrite W.
    intros [_ Hl]%lookup_delete_Some. by eapply Hn.
Qed.

Lemma rtc_quiet_no_timer tok e e' : rtc (ev_quiet tok) e e' -> no_timer e tok -> no_timer e' tok.
Proof. induction 1; eauto using ev_quiet_no_timer. Qed.

(** A library-loaded report that is acknowledged disarms the sender for good: no
    timer waits for its token, neither then nor after any further events and
    timeouts, until the process itself execs again or is reported as a new child. *)
Theorem dylib_loaded_disarms (e e' : Events) (peer : AuditToken) (ev : DylibLoaded) :
  reachable e -> handle_dylib_loaded e peer (Ok ev) = (e', DylibLoadedAck_ok) ->
  no_timer e' peer /\ forall e2, rtc (ev_quiet peer) e' e2 -> no_timer e2 peer.
Proof.
  intros Hr Hh. pose proof (reachable_timer_inv e Hr) as Hinv.
  assert (no_timer e' peer) as H0.
  { unfold handle_dylib_loaded in Hh. destruct (negb _); [done|]. destruct (negb _); [done|].
    injection Hh as <-. intros id a. by apply cancel_none. }
  split; [done|]. intros e2 Hq. by eapply rtc_quiet_no_timer.
Qed.

(** A peer outside the tracked tree changes nothing: whatever it sends as a
    fork, exec, library-loaded or cleared-environment event, the daemon's state
    stays as it was and the reply is an error. *)
Theorem untracked_peer_powerless (os : OsView) (e : Events) (peer : AuditToken)
    (fork : result ForkEvent string) (exec : result ExecEvent string) (loaded : result DylibLoaded string)
    (gap : result EnvNotPropagatedGap string) :
  is_tracked (es_tree e) peer = false ->
  let is_err r := exists m, r = AckErr SCHEMA_V2 m in
  ((handle_fork_event e peer fork).1 = e /\ is_err (handle_fork_event e peer fork).2) /\
  ((handle_exec_event e peer exec).1 = e /\ is_err (handle_exec_event e peer exec).2) /\
  ((handle_dylib_loaded e peer loaded).1 = e /\ is_err (handle_dylib_loaded e peer loaded).2) /\
  ((handle_env_not_propagated_frame e peer gap).1 = e /\ is_err (handle_env_not_propagated_frame e peer gap).2).
Proof.
  intros Hp is_err. unfold handle_fork_event, handle_exec_event, handle_dylib_loaded, handle_env_not_propagated_frame.
  rewrite !Hp. cbn [negb]. unfold is_err.
  split; [destruct fork as [ev|]; [destruct (negb _)|]; by eauto|].
  split; [destruct exec as [ev|]; [destruct (negb _); [|destruct (bool_decide _)]|]; by eauto|].
  split; [destruct loaded as [ev|]; [destruct (negb _)|]; by eauto|].
  destruct gap as [ev|]; [destruct (negb _)|]; by eauto.
Qed.

(** ** Registration *)

(** A registration either refuses and changes nothing, or tracks exactly one
    token as a root: the peer's own, or, for another pid, the token on the wire
    after that pid was found to belong to one of the peer's user ids (or, when its
    owner is unknown, to exist) and to still have the pidversion on the wire. *)
Theorem register_root_sound (os : OsView) (e e' : Events) (peer : AuditToken) (msg : RegisterRoot) (r : Ack) :
  register_root e peer msg = (e', r) ->
  let wire := token_of_wire (rg_audit_token msg) in
  (e' = e /\ exists m, r = Reply_err m) \/
  (r = Reply_ack /\ exists tok, is_tracked (es_tree e') tok = true /\
     (forall k, k <> tok -> is_tracked (es_tree e') k = is_tracked (es_tree e) k) /\
     ((tok = peer /\ val5 wire = val5 peer) \/
      (tok = wire /\ verify_wire_pid_matches_token (pid_of_u32 (val5 wire)) peer (val7 wire) = true))).
Proof.
  unfold register_root. cbv zeta.
  set (final := fun tok => match extract_pm_env (rg_pm_env msg) with
     | [] => match rg_run_uuid msg with
             | Some u => bind_run_root (insert_root (es_tree e) tok (default "" (rg_run_uuid msg)) "").1 u tok
             | None => (insert_root (es_tree e) tok (default "" (rg_run_uuid msg)) "").1 end
     | _ => set_pm_env_snapshot (match rg_run_uuid msg with
             | Some u => bind_run_root (insert_root (es_tree e) tok (default "" (rg_run_uuid msg)) "").1 u tok
             | None => (insert_root (es_tree e) tok (default "" (rg_run_uuid msg)) "").1 end) tok
              (extract_pm_env (rg_pm_env msg)) end).
  assert (forall t tok k f, is_tracked (update_node t tok f).1 k = is_tracked t k) as Hupd.
  { intros t tok k f. apply Bool.eq_iff_eq_true. rewrite !is_tracked_Some, update_node_nodes.
    destruct (decide (k = tok)) as [->|Hne]; [|by rewrite lookup_alter_ne].
    rewrite lookup_alter_eq. by rewrite fmap_is_Some. }
  assert (forall t u f k, is_tracked (update_run t u f) k = is_tracked t k) as Hrun
    by (intros; unfold is_tracked; by rewrite update_run_nodes).
  assert (forall tok k, is_tracked (final tok) k
            = is_tracked (insert_root (es_tree e) tok (default "" (rg_run_uuid msg)) "").1 k) as Hfin.
  { intros tok k. unfold final, bind_run_root, bind_root_node, bind_run_record, set_pm_env_snapshot.
    destruct (extract_pm_env (rg_pm_env msg)), (rg_run_uuid msg); rewrite ?Hupd, ?Hrun; done. }
  assert (forall tok, is_tracked (final tok) tok = true) as Hin.
  { intros tok. rewrite Hfin. apply is_tracked_Some. unfold insert_root.
    destruct (nodes (es_tree e) !! tok) as [n|] eqn:En; cbn; [rewrite En|rewrite lookup_insert_eq]; by eexists. }
  assert (forall tok k, k <> tok -> is_tracked (final tok) k = is_tracked (es_tree e) k) as Hout.
  { intros tok k Hk. rewrite Hfin. unfold insert_root, is_tracked.
    destruct (nodes (es_tree e) !! tok); cbn; [done|]. by rewrite lookup_insert_ne. }
  case_bool_decide as Hpid; [|destruct (verify_wire_pid_matches_token _ _ _) eqn:Hv; cbn [negb]]; intros [= <- <-].
  - right. split; [done|]. exists peer. split; [apply Hin|]. split; [intros k Hk; by apply Hout|]. by left.
  - right. split; [done|]. exists (token_of_wire (rg_audit_token msg)).
    split; [apply Hin|]. split; [intros k Hk; by apply Hout|]. by right.
  - left. split; [done|]. by eexists.
Qed.

(** ** Tokens of children and of reports *)

Lemma record_fork_other t p c k : k <> c -> is_tracked (record_fork t p c).1 k = is_tracked t k.
Proof.
  intros Hk. unfold record_fork, is_tracked. destruct (nodes t !! p); [|done]. cbn. by rewrite lookup_insert_ne.
Qed.

(** An acknowledged fork records the child under a token without credentials,
    so the child as the kernel presents it (the same pid and pidversion, but with an
    effective user id) is still untracked: its own fork and exec events are
    refused as those of an untracked peer, and its library-loaded report does not
    cancel the timer that was armed for it. *)
Theorem forked_child_not_recognised (os os' : OsView) (e e' : Events) (peer k : AuditToken) (ev : ForkEvent) :
  @handle_fork_event os e peer (Ok ev) = (e', ForkAck_ok) ->
  is_tracked (es_tree e) k = false -> val1 k <> 0%N ->
  val5 k = val5 (child_token ev) -> val7 k = val7 (child_token ev) ->
  is_tracked (es_tree e') (child_token ev) = true /\ is_tracked (es_tree e') k = false /\
  (forall p c v, @handle_fork_event os' e' k (Ok (ForkEvent_new p c v))
     = (e', ForkAck_err "untracked peer; ignoring fork event")) /\
  (forall t path, String.length path <= MAX_TARGET_PATH ->
     @handle_exec_event os' e' k (Ok (ExecEvent_new t path))
     = (e', ExecAck_err "untracked peer; ignoring exec event")) /\
  (forall t, handle_dylib_loaded e' k (Ok (DylibLoaded_new t))
     = (e', DylibLoadedAck_err "untracked peer; ignoring dylib_loaded event")).
Proof.
  intros Hf Hk Hcred _ _. unfold handle_fork_event in Hf. destruct (negb _); [done|]. destruct (negb _); [done|].
  assert (k <> child_token ev) as Hne by (intros ->; done).
  pose proof (record_fork_other (es_tree e) peer (child_token ev) k Hne) as Hother.
  destruct (record_fork _ _ _) as [t1 [u|err]] eqn:Er; [|done]. cbn in Hother.
  assert (es_tree e' = t1) as Ht by (injection Hf as <-; by destruct (is_hardened_runtime _)).
  rewrite Ht. split; [by eapply record_fork_tracked|]. split; [by rewrite Hother|].
  assert (is_tracked (es_tree e') k = false) as Hu by (by rewrite Ht, Hother).
  split; [|split].
  - intros p c v. unfold handle_fork_event. cbn. by rewrite Hu.
  - intros t path Hl. unfold handle_exec_event. cbn [ee_schema_version ee_target_path ExecEvent_new].
    rewrite (bool_decide_eq_false_2 (MAX_TARGET_PATH < _)) by lia. cbn. by rewrite Hu.
  - intros t. unfold handle_dylib_loaded. cbn. by rewrite Hu.
Qed.

(** Tokens in the tree come from the kernel, with a pidversion, or from fork
    events, without an audit session. *)
Definition recorded_token (k : AuditToken) : Prop := val7 k <> 0%N \/ val6 k = 0%N.

Lemma child_token_recorded ev : recorded_token (child_token ev).
Proof. by right. Qed.

(** The tokens on the reports of the library carry a pid and a parent pid, in the
    place of the audit session, and no pidversion: no recorded token equals one, so
    the rows of blocked execs, persistence writes and denials name no run. *)
Lemma report_token_not_found (e : Events) (sender : AuditToken) :
  (forall k n, nodes (es_tree e) !! k = Some n -> recorded_token k) ->
  val7 sender = 0%N -> val6 sender <> 0%N ->
  (forall (os : OsView) kind path, path_gap_row (es_tree e) sender kind path = gap_row "" kind sender [] (Some path)) /\
  dc_run_uuid (deny_notify_log_context (es_tree e) sender) = "".
Proof.
  intros Hrec H7 H6. assert (get_node (es_tree e) sender = None) as Hn.
  { unfold get_node. destruct (nodes (es_tree e) !! sender) as [n|] eqn:En; [|done].
    by destruct (Hrec _ _ En). }
  unfold path_gap_row, deny_notify_log_context. by rewrite Hn.
Qed.

(** Opening a prompt channel starts its thread, and says so, only for a run the
    daemon knows and while fewer than 64 channels are registered; in every other
    case no thread runs and the reply is an error. *)
Theorem prompt_channel_init_guarded (t : Tree) (clone_error spawn_error : option string)
    (req : result PromptChannelInit string) :
  let '(started, reply) := handle_prompt_channel_init_frame t clone_error spawn_error req in
  match started with
  | Some u => reply = PromptChannelInitAck_ok /\ is_Some (get_run t u) /\ prompt_channels_len t < MAX_CONCURRENT_CHANNELS
              /\ exists init, req = Ok init /\ ci_run_uuid init = u
  | None => exists m, reply = PromptChannelInitAck_err m
  end.
Proof.
  unfold handle_prompt_channel_init_frame. destruct req as [init|]; [|by eexists].
  destruct (negb _); [by eexists|]. destruct (get_run t (ci_run_uuid init)) as [r|] eqn:Er; [|by eexists].
  destruct (decide (MAX_CONCURRENT_CHANNELS <= prompt_channels_len t)) as [T|T];
    [rewrite bool_decide_eq_true_2 by done; by eexists|rewrite bool_decide_eq_false_2 by done].
  destruct clone_error; [by eexists|]. destruct spawn_error; [by eexists|].
  split; [done|]. split; [by eexists|]. split; [lia|]. by exists init.
Qed.

(** ** Examples *)

Definition toy_os (hardened : bool) : OsView := {|
  process_uid := fun _ => Some 501%N;
  kill_zero := fun _ => None;
  kernel_pidversion := fun _ => None;
  is_hardened_runtime := fun _ => hardened;
  unix_ms_now := 1000%N;
  now_ts := None;
|}.

Definition toy_w : LogWriter := mkLogWriter [] true 0 0 0 0 ∅.
Definition root_tok : AuditToken := mkToken 501 501 20 501 20 4242 100 7.
Definition cli_tok : AuditToken := mkToken 501 501 20 501 20 4000 100 3.

(** A root registered by the command line, and its hardened child. *)
Definition ev0 : Events := fresh new_tree toy_w.
Definition ev1 : Events :=
  (@register_root (toy_os true) ev0 cli_tok (RegisterRoot_new_for_run root_tok "run-1")).1.
Definition fork_msg : ForkEvent := ForkEvent_new (wire_of_token zero_token) 4243 9.
Definition ev2 : Events := (@handle_fork_event (toy_os true) ev1 root_tok (Ok fork_msg)).1.
Definition exec_msg : ExecEvent := ExecEvent_new (wire_of_token root_tok) "/usr/bin/node".
Definition ev3 : Events := (@handle_exec_event (toy_os true) ev2 root_tok (Ok exec_msg)).1.

Lemma reply_pair {A B} (x : A * B) (r : B) : x.2 = r -> x = (x.1, r).
Proof. destruct x. cbn. by intros ->. Qed.

Lemma ev3_reachable : reachable ev3.
Proof.
  exists toy_w. eapply rtc_l; [apply (@ev_register (toy_os true))|].
  eapply rtc_l; [apply (@ev_fork (toy_os true))|].
  eapply rtc_l; [apply (@ev_exec (toy_os true))|]. apply rtc_refl.
Qed.

Lemma events_keep_invariants_witness : tree_wf (es_tree ev3) /\ timer_inv ev3.
Proof. exact (events_keep_invariants ev3 ev3_reachable). Defined.

Lemma gap_kill_sound_witness :
  es_killed (@fire (toy_os true) ev3 0) = [4243%Z]
  /\ exists a, es_waiting ev3 !! 0 = Some a
     /\ es_killed (@fire (toy_os true) ev3 0)
        = es_killed ev3 ++ (if decide (@still_the_process (toy_os true) (am_token a)) then [Z.of_N (val5 (am_token a))] else []).
Proof.
  split; [vm_compute; reflexivity|].
  pose proof (proj2 (gap_kill_sound ev3 ev3_reachable) (toy_os true) 0) as H. cbv zeta in H.
  assert (is_Some (es_waiting ev3 !! 0)) as [a Ha] by (vm_compute; by eexists).
  rewrite Ha in H. exists a. split; [exact Ha|]. apply H.
Defined.

Lemma dylib_loaded_disarms_witness :
  no_timer (handle_dylib_loaded ev3 root_tok (Ok (DylibLoaded_new (wire_of_token root_tok)))).1 root_tok.
Proof.
  refine (proj1 (dylib_loaded_disarms ev3 _ root_tok (DylibLoaded_new (wire_of_token root_tok))
                   ev3_reachable _)).
  apply reply_pair. vm_compute. reflexivity.
Defined.

Lemma untracked_peer_powerless_witness :
  (@handle_fork_event (toy_os true) ev3 cli_tok (Ok fork_msg)).1 = ev3.
Proof.
  exact (proj1 (proj1 (untracked_peer_powerless (toy_os true) ev3 cli_tok (Ok fork_msg) (Err "") (Err "") (Err "")
                         ltac:(vm_compute; reflexivity)))).
Defined.

Lemma register_root_sound_witness : is_tracked (es_tree ev1) root_tok = true.
Proof.
  destruct (register_root_sound (toy_os true) ev0 ev1 cli_tok (RegisterRoot_new_for_run root_tok "run-1") Reply_ack)
    as [[_ [m E]]|(_ & tok & Ht & _ & [[_ E]|[-> _]])].
  - apply reply_pair. vm_compute. reflexivity.
  - discriminate E.
  - discriminate E.
  - exact Ht.
Defined.

(** The child of [ev2] as the kernel presents it. *)
Definition child_kernel_tok : AuditToken := mkToken 501 501 20 501 20 4243 100 9.

Lemma forked_child_not_recognised_witness :
  is_tracked (es_tree ev2) (child_token fork_msg) = true /\ is_tracked (es_tree ev2) child_kernel_tok = false.
Proof.
  destruct (forked_child_not_recognised (toy_os true) (toy_os true) ev1 ev2 root_tok child_kernel_tok fork_msg)
    as (H1 & H2 & _).
  - exact (reply_pair (@handle_fork_event (toy_os true) ev1 root_tok (Ok fork_msg)) ForkAck_ok
             ltac:(vm_compute; reflexivity)).
  - vm_compute. reflexivity.
  - discriminate.
  - reflexivity.
  - reflexivity.
  - split; [exact H1|exact H2].
Defined.
