(* ===== verification/HookExec.v ===== *)
(** * The exec, fork and spawn interposers

    [crates/guard-hook/src/replace_exec.rs], [replace_fork.rs] and the event round
    trips of [ipc_client.rs].  An entry point runs in a monad over the state of the
    library in one thread.  The process calls that reach the kernel or libc are
    recorded in a trace; their results, the daemon behind each connection and the
    audit tokens of other processes are the class [XEnv].  Of [fork] and [vfork] the
    environment gives the registers the kernel leaves in the process that runs; what
    the library makes of them is [raw_fork] and [raw_vfork] of [RawSyscall].  Errno
    values are Darwin's. *)

From S2P Require Import RawSyscall.
From S2P Require Import Prelude RustStr RustUtf8 Frame EnvFilter ProcessTree HookNet.
From S2P Require Import MachO ImageFlags Calendar LogWriter Messages Events.

(** ** State *)

Inductive XCall : Type :=
| XExecve (path : option string)
| XExecvp (path : option string)
| XExecv (path : option string)
| XSpawn (path : option string)
| XSpawnp (path : option string)
| XFork
| XVfork
| XKill (pid : Z)
| XOpen (dirfd : option Z) (path : option string) (oflag mode : Z)
| XWrite (fd : Z) (vectors : bool).

Record XHook : Type := mkX {
  x_in_hook : bool;
  x_socket : bool;
  x_log : list string;
  x_errno : Z;
  x_conns : nat;
  x_lookups : nat;
  x_scan : ScanState;
  x_trace : list XCall;
}.

Class XEnv : Type := {
  (** The daemon at the [n]-th connection, with the budget of each phase. *)
  x_peer : nat -> N -> Peer;
  (** Registers after the fork, and results of the other process calls, that are the
      [n]-th of the trace. *)
  x_fork_regs : nat -> Returned;
  x_spawn_result : nat -> Z * Z;
  x_exec_result : nat -> Z;
  x_open_result : nat -> Z;
  x_write_result : nat -> Z;
  (** Whether [getsockopt(SO_TYPE)] of a descriptor succeeds at the [n]-th probe. *)
  x_probe_socket : nat -> Z -> bool;
  (** The variable HOME at its first use. *)
  x_home : option string;
  x_macos_major : N;
  (** [audit_token_for_pid] at the [n]-th lookup. *)
  x_token_for_pid : nat -> Z -> option AuditToken;
  x_now_ms : nat -> N;
  x_getpid : Z;
  x_getppid : Z;
  x_environ : Envp;
  (** Whether a vfork child writes the parent's memory until it execs. *)
  x_vfork_shared : bool;
  (** [scanner::classify_path] of the platform. *)
  x_classify : option string -> SM BinaryTier;
  x_fork_cbor :: Cbor ForkEvent;
  x_exec_cbor :: Cbor ExecEvent;
  x_gap_cbor :: Cbor EnvNotPropagatedGap;
  x_blocked_cbor :: Cbor ExecBlocked;
  x_persist_cbor :: Cbor PersistenceWrite;
  x_loaded_cbor :: Cbor DylibLoaded;
  x_ack_cbor :: Cbor Ack;
}.

Definition XM (A : Type) : Type := XHook -> outcome (A * XHook).

#[export] Instance xm_ret : MRet XM := fun A a h => Val (a, h).
#[export] Instance xm_bind : MBind XM := fun A B f m h =>
  match m h with Val (a, h') => f a h' | Panic => Panic end.

Definition x_modify (f : XHook -> XHook) : XM unit := fun h => Val (tt, f h).
Definition x_gets {A} (f : XHook -> A) : XM A := fun h => Val (f h, h).

Definition x_with_in_hook (b : bool) (h : XHook) : XHook :=
  mkX b (x_socket h) (x_log h) (x_errno h) (x_conns h) (x_lookups h) (x_scan h) (x_trace h).
Definition x_with_log (l : list string) (h : XHook) : XHook :=
  mkX (x_in_hook h) (x_socket h) l (x_errno h) (x_conns h) (x_lookups h) (x_scan h) (x_trace h).
Definition x_with_errno (e : Z) (h : XHook) : XHook :=
  mkX (x_in_hook h) (x_socket h) (x_log h) e (x_conns h) (x_lookups h) (x_scan h) (x_trace h).
Definition x_with_conns (n : nat) (h : XHook) : XHook :=
  mkX (x_in_hook h) (x_socket h) (x_log h) (x_errno h) n (x_lookups h) (x_scan h) (x_trace h).
Definition x_with_lookups (n : nat) (h : XHook) : XHook :=
  mkX (x_in_hook h) (x_socket h) (x_log h) (x_errno h) (x_conns h) n (x_scan h) (x_trace h).
Definition x_with_scan (s : ScanState) (h : XHook) : XHook :=
  mkX (x_in_hook h) (x_socket h) (x_log h) (x_errno h) (x_conns h) (x_lookups h) s (x_trace h).
Definition x_with_trace (t : list XCall) (h : XHook) : XHook :=
  mkX (x_in_hook h) (x_socket h) (x_log h) (x_errno h) (x_conns h) (x_lookups h) (x_scan h) t.

Definition EACCES : Z := 13.
Definition EAGAIN : Z := 35.
Definition ENOTSUP : Z := 45.
Definition ENOSYS : Z := 78.
Definition IPC_TIMEOUT_MS : N := 250.

Definition TAG_FORK_EVENT : N := 3.
Definition TAG_EXEC_EVENT : N := 4.
Definition TAG_DYLIB_LOADED : N := 5.
Definition TAG_ENV_NOT_PROPAGATED : N := 8.
Definition TAG_EXEC_BLOCKED : N := 19.
Definition TAG_PERSISTENCE_WRITE : N := 20.

Section Exec.
Context `{XE : XEnv} `{EE : ExecEnv}.

Definition x_set_errno (e : Z) : XM unit := x_modify (x_with_errno e).

(** [LOG_RING.append]. *)
Definition x_log_append (msg : string) : XM unit :=
  x_modify (fun h =>
    let l := x_log h ++ [msg +:+ String LF ""] in
    x_with_log (if bool_decide (RING_CAPACITY < length l) then drop 1 l else l) h).

(** A call of the kernel or of libc; the result is that of its place in the trace. *)
Definition x_call {A} (c : XCall) (result : nat -> A) : XM A := fun h =>
  Val (result (length (x_trace h)), x_with_trace (x_trace h ++ [c]) h).

(** [InHookGuard::enter], and its drop at the end of the entry point. *)
Definition with_guard {A} (nested body : XM A) : XM A := fun h =>
  if x_in_hook h then nested h
  else match body (x_with_in_hook true h) with
       | Val (a, h') => Val (a, x_with_in_hook false h')
       | Panic => Panic
       end.

(** ** ipc_client.rs *)

Definition x_send {Req} `{Cbor Req} (tag : N) (msg : Req) (timeout_ms : N) : XM (result Ack IpcClientError) :=
  socket ← x_gets x_socket;
  if negb socket then mret (Err NotConfigured)
  else
    n ← x_gets x_conns;
    _ ← x_modify (x_with_conns (S n));
    mret (exchange (x_peer n (rw_budget timeout_ms)) tag msg).

(** What the senders make of the acknowledgement. *)
Definition ack_result (r : result Ack IpcClientError) : result unit IpcClientError :=
  match r with
  | Err e => Err e
  | Ok (AckOk _) => Ok tt
  | Ok (AckErr _ message) => Err (DaemonRejected message)
  end.

Definition send_fork_event_sync (parent : AuditTokenWire) (child_pid : Z) (child_pidversion timeout_ms : N) :
    XM (result unit IpcClientError) :=
  r ← x_send TAG_FORK_EVENT (mkForkEvent SCHEMA_V2 parent child_pid child_pidversion) timeout_ms;
  mret (ack_result r).

Definition send_exec_event_sync (t : AuditTokenWire) (target_path : string) (target_path_len : nat)
    (pm_env : list (string * string)) (timeout_ms : N) : XM (result unit IpcClientError) :=
  let len := Nat.min (Nat.min target_path_len (String.length target_path)) MAX_TARGET_PATH in
  let schema_version := match pm_env with [] => SCHEMA_V2 | _ => SCHEMA_V3 end in
  r ← x_send TAG_EXEC_EVENT (mkExecEvent schema_version t (str_take len target_path) pm_env) timeout_ms;
  mret (ack_result r).

Definition send_dylib_loaded_sync (t : AuditTokenWire) (timeout_ms : N) : XM (result unit IpcClientError) :=
  r ← x_send TAG_DYLIB_LOADED (mkDylibLoaded SCHEMA_V2 t) timeout_ms;
  mret (ack_result r).

Definition send_env_not_propagated_gap_sync (parent : AuditTokenWire) (child_binary_path : string)
    (detected_at_ms timeout_ms : N) : XM (result unit IpcClientError) :=
  let capped_len := Nat.min (String.length child_binary_path) MAX_TARGET_PATH in
  r ← x_send TAG_ENV_NOT_PROPAGATED
        (EnvNotPropagatedGap_new parent (str_take capped_len child_binary_path) detected_at_ms) timeout_ms;
  mret (ack_result r).

Definition send_exec_blocked (t : AuditTokenWire) (target_path reason : string) : XM unit :=
  n ← x_gets x_conns;
  _ ← x_send TAG_EXEC_BLOCKED (ExecBlocked_new t target_path reason (x_now_ms n)) 50;
  mret tt.

Definition send_persistence_write (t : AuditTokenWire) (target_path category : string) : XM unit :=
  n ← x_gets x_conns;
  _ ← x_send TAG_PERSISTENCE_WRITE (PersistenceWrite_new t target_path category (x_now_ms n)) 50;
  mret tt.

(** The bytes up to the first NUL, at most [room]. *)
Fixpoint copy_go (room : nat) (s : string) : string :=
  match room, s with
  | S room', String b s' => if bool_decide (byte_val b = 0%N) then "" else String b (copy_go room' s')
  | _, _ => ""
  end.

Definition copy_cstr_to_buf (p : option string) (buf_len : nat) : string :=
  match p with None => "" | Some s => copy_go buf_len s end.

(** ** Shared helpers of the two files *)

(** [u32::try_from(pid).unwrap_or(0)]. *)
Definition u32_of_pid (pid : Z) : N := if bool_decide (0 <= pid)%Z then Z.to_N pid else 0%N.

Definition current_audit_token_wire : AuditTokenWire :=
  mkWire (mkToken 0 0 0 0 0 (u32_of_pid x_getpid) (u32_of_pid x_getppid) 0).

Definition report_exec_blocked (path : option string) (reason : BlockReason) : XM unit :=
  send_exec_blocked current_audit_token_wire (copy_cstr_to_buf path 1024) (block_reason_str reason).

Definition block_exec_trace_required (path : option string) (reason : SuspiciousReason) : XM Z :=
  _ ← x_log_append ("[guard-hook] T3 fail-closed for exec-family call reason=" +:+ suspicious_reason_str reason
                    +:+ " path=" +:+ from_utf8_lossy (copy_cstr_to_buf path 1024));
  _ ← x_set_errno EACCES;
  mret (-1)%Z.

Definition report_trace_required (path : option string) (reason : SuspiciousReason) : XM unit :=
  x_log_append ("[guard-hook] T3 fail-closed reason=" +:+ suspicious_reason_str reason
                +:+ " path=" +:+ from_utf8_lossy (copy_cstr_to_buf path 1024)).

Definition report_exec (path : option string) (pm_env : list (string * string)) : XM unit :=
  let buf := copy_cstr_to_buf path 1024 in
  _ ← send_exec_event_sync current_audit_token_wire buf (String.length buf) pm_env IPC_TIMEOUT_MS;
  mret tt.

Definition check_target (path : option string) : XM ExecDecision := fun h =>
  match check_exec_target x_classify path (x_scan h) with
  | Val (d, s) => Val (d, x_with_scan s h)
  | Panic => Panic
  end.

(** ** replace_exec.rs *)

(** The body the three entry points share: they differ in the environment they
    record and in the call that follows. *)
Definition exec_body (path : option string) (pm_env : list (string * string)) (c : XCall) : XM Z :=
  d ← check_target path;
  match d with
  | ExecBlock reason =>
      _ ← report_exec_blocked path reason;
      _ ← x_set_errno EACCES;
      mret (-1)%Z
  | ExecTrace reason => block_exec_trace_required path reason
  | ExecAllow =>
      _ ← report_exec path pm_env;
      x_call c x_exec_result
  end.

Definition guard_execve (path : option string) (envp : Envp) : XM Z :=
  with_guard (x_call (XExecve path) x_exec_result)
    (exec_body path (extract_pm_env_from_envp envp) (XExecve path)).

Definition guard_execvp (path : option string) : XM Z :=
  with_guard (x_call (XExecvp path) x_exec_result)
    (exec_body path (extract_pm_env_from_environ x_environ) (XExecvp path)).

Definition guard_execv (path : option string) : XM Z :=
  with_guard (x_call (XExecv path) x_exec_result)
    (exec_body path (extract_pm_env_from_environ x_environ) (XExecv path)).

Definition guard_execl : XM Z := _ ← x_set_errno ENOSYS; mret (-1)%Z.
Definition guard_execlp : XM Z := _ ← x_set_errno ENOSYS; mret (-1)%Z.
Definition guard_execle : XM Z := _ ← x_set_errno ENOSYS; mret (-1)%Z.

(** ** replace_fork.rs *)

Definition is_untracked_peer (e : IpcClientError) : bool :=
  match e with DaemonRejected m => contains m "untracked peer" | _ => false end.

Definition child_pidversion (pid : Z) : XM N :=
  n ← x_gets x_lookups;
  _ ← x_modify (x_with_lookups (S n));
  mret (match x_token_for_pid n pid with Some t => val7 t | None => 0%N end).

(** [kill(pid, SIGKILL)]; the result is not looked at. *)
Definition x_kill (pid : Z) : XM unit := x_call (XKill pid) (fun _ => tt).

(** The parent's side of fork and vfork. *)
Definition fork_parent (pid : Z) : XM Z :=
  pv ← child_pidversion pid;
  r ← send_fork_event_sync current_audit_token_wire pid pv IPC_TIMEOUT_MS;
  match r with
  | Ok _ => mret pid
  | Err e =>
      if is_untracked_peer e then mret pid
      else
        _ ← x_kill pid;
        _ ← x_set_errno EAGAIN;
        mret (-1)%Z
  end.

Definition hook_raw_fork : XM Z := x_call XFork (fun n => call_result raw_fork (x_fork_regs n)).
Definition hook_raw_vfork : XM Z := x_call XVfork (fun n => call_result raw_vfork (x_fork_regs n)).

Definition guard_fork : XM Z :=
  with_guard hook_raw_fork
    (pid ← hook_raw_fork;
     if bool_decide (pid < 0)%Z then mret pid
     else if bool_decide (pid = 0)%Z then _ ← x_modify (x_with_in_hook false); mret 0%Z
     else fork_parent pid).

(** When the child shares the memory, what it did before its exec is done when the
    parent goes on: it has cleared the flag. *)
Definition guard_vfork : XM Z :=
  with_guard hook_raw_vfork
    (pid ← hook_raw_vfork;
     if bool_decide (pid < 0)%Z then mret pid
     else if bool_decide (pid = 0)%Z then _ ← x_modify (x_with_in_hook false); mret 0%Z
     else
       _ ← (if x_vfork_shared then x_modify (x_with_in_hook false) else mret tt);
       fork_parent pid).

(** After a spawn that succeeded: report the child, then its image. *)
Definition spawn_report (path : option string) (new_pid : Z) (envp : Envp) : XM Z :=
  pv ← child_pidversion new_pid;
  r ← send_fork_event_sync current_audit_token_wire new_pid pv IPC_TIMEOUT_MS;
  match r with
  | Ok _ =>
      let buf := copy_cstr_to_buf path 1024 in
      _ ← send_exec_event_sync current_audit_token_wire buf (String.length buf) (extract_pm_env_from_envp envp)
            IPC_TIMEOUT_MS;
      mret 0%Z
  | Err e =>
      if is_untracked_peer e then mret 0%Z
      else
        now_pv ← child_pidversion new_pid;
        _ ← (if negb (bool_decide (now_pv = 0%N)) && bool_decide (now_pv = pv) then x_kill new_pid else mret tt);
        mret EAGAIN
  end.

(** The two spawn entry points differ in the call only; [pid_out] says whether the
    caller gave a place for the pid. *)
Definition spawn_body (path : option string) (pid_out : bool) (envp : Envp) (c : XCall) : XM Z :=
  d ← check_target path;
  match d with
  | ExecBlock reason => _ ← report_exec_blocked path reason; mret EACCES
  | ExecTrace reason => _ ← report_trace_required path reason; mret ENOTSUP
  | ExecAllow =>
      _ ← (if should_emit_env_not_propagated_gap envp then
             n ← x_gets x_conns;
             _ ← send_env_not_propagated_gap_sync current_audit_token_wire (copy_cstr_to_buf path 1024)
                   (x_now_ms n) IPC_TIMEOUT_MS;
             mret tt
           else mret tt);
      rc ← x_call c x_spawn_result;
      if negb (bool_decide (rc.1 = 0)%Z) then mret rc.1
      else if negb pid_out then mret 0%Z
      else spawn_report path rc.2 envp
  end.

Definition guard_posix_spawn (path : option string) (pid_out : bool) (envp : Envp) : XM Z :=
  with_guard (rc ← x_call (XSpawn path) x_spawn_result; mret rc.1)
    (spawn_body path pid_out envp (XSpawn path)).

Definition guard_posix_spawnp (path : option string) (pid_out : bool) (envp : Envp) : XM Z :=
  with_guard (rc ← x_call (XSpawnp path) x_spawn_result; mret rc.1)
    (spawn_body path pid_out envp (XSpawnp path)).

End Exec.

(** ** One exchange with the daemon's fork handler *)

(** What the daemon answers to the bytes sent by a peer of token [tok] when they are
    a fork event; the worker has read the tag. *)
Definition fork_answer_bytes `{OsView} `{Cbor ForkEvent, Cbor Ack} (e : Events) (tok : AuditToken)
    (sent : string) : string :=
  match classify_frame sent with
  | Ok (Tagged Frame.ForkEvent, body) =>
      write_tagged Frame.ForkEvent
        (handle_fork_event e tok (map_err show_ipc_error (read_tagged_body body Frame.ForkEvent))).2
  | _ => ""
  end.

(** ** Total correctness of a body *)

Definition twp {A} (m : XM A) (Q : A -> XHook -> Prop) (h : XHook) : Prop :=
  exists a h', m h = Val (a, h') /\ Q a h'.

Lemma twp_ret {A} (a : A) (Q : A -> XHook -> Prop) h : Q a h -> twp (mret a) Q h.
Proof. by eexists _, _. Qed.

Lemma twp_bind {A B} (m : XM A) (f : A -> XM B) (Q : B -> XHook -> Prop) h :
  twp m (fun a h' => twp (f a) Q h') h -> twp (m ≫= f) Q h.
Proof.
  intros (a & h' & E & b & h'' & E' & HQ). exists b, h''. split; [|done].
  unfold mbind, xm_bind. by rewrite E.
Qed.

Lemma twp_gets {A} (g : XHook -> A) (Q : A -> XHook -> Prop) h : Q (g h) h -> twp (x_gets g) Q h.
Proof. by eexists _, _. Qed.

Lemma twp_modify (g : XHook -> XHook) (Q : unit -> XHook -> Prop) h : Q tt (g h) -> twp (x_modify g) Q h.
Proof. by eexists _, _. Qed.

Lemma twp_mono {A} (m : XM A) (P Q : A -> XHook -> Prop) h :
  twp m P h -> (forall a h', P a h' -> Q a h') -> twp m Q h.
Proof. intros (a & h' & E & HP) HPQ. exists a, h'. auto. Qed.

Lemma twp_call {A} (c : XCall) (r : nat -> A) (Q : A -> XHook -> Prop) h :
  Q (r (length (x_trace h))) (x_with_trace (x_trace h ++ [c]) h) -> twp (x_call c r) Q h.
Proof. by eexists _, _. Qed.

Lemma twp_guard {A} (nested body : XM A) (Q : A -> XHook -> Prop) h :
  x_in_hook h = false ->
  twp body (fun a h' => Q a (x_with_in_hook false h')) (x_with_in_hook true h) ->
  twp (with_guard nested body) Q h.
Proof.
  intros Hi (a & h' & E & HQ). exists a, (x_with_in_hook false h'). split; [|done].
  unfold with_guard. by rewrite Hi, E.
Qed.

(** [h'] differs from [h] at most by connections made and lookups done. *)
Definition quiet_change (h h' : XHook) : Prop :=
  x_with_lookups (x_lookups h) (x_with_conns (x_conns h) h') = h.

Lemma quiet_change_fields h h' : quiet_change h h' ->
  x_in_hook h' = x_in_hook h /\ x_socket h' = x_socket h /\ x_log h' = x_log h /\
  x_errno h' = x_errno h /\ x_scan h' = x_scan h /\ x_trace h' = x_trace h.
Proof. destruct h, h'. unfold quiet_change. cbn. intros [= -> -> -> -> -> ->]. done. Qed.

Section Laws.
Context `{XE : XEnv} `{EE : ExecEnv}.

(** The answer a message gets on the next connection of [h]. *)
Definition x_answer {Req} `{Cbor Req} (h : XHook) (tag : N) (msg : Req) (timeout_ms : N) :
    result Ack IpcClientError :=
  if x_socket h then exchange (x_peer (x_conns h) (rw_budget timeout_ms)) tag msg else Err NotConfigured.

Lemma x_send_twp {Req} `{Cbor Req} (tag : N) (msg : Req) t h :
  twp (x_send tag msg t) (fun r h' => r = x_answer h tag msg t /\ quiet_change h h') h.
Proof.
  unfold x_send, x_answer. apply twp_bind, twp_gets. destruct h as [? sk ? ? ? ? ? ?]. cbn. destruct sk; cbn.
  - apply twp_bind, twp_gets, twp_bind, twp_modify, twp_ret. done.
  - by apply twp_ret.
Qed.

Lemma quiet_refl h : quiet_change h h.
Proof. by destruct h. Qed.

Lemma quiet_trans h1 h2 h3 : quiet_change h1 h2 -> quiet_change h2 h3 -> quiet_change h1 h3.
Proof.
  destruct h1, h2, h3. unfold quiet_change. cbn. intros [= -> -> -> -> -> ->] [= -> -> -> -> -> ->]. done.
Qed.

(** A report that goes out and is forgotten. *)
Lemma send_quiet {Req A} `{Cbor Req} (tag : N) (msg : Req) t (f : result Ack IpcClientError -> A) h :
  twp (r ← x_send tag msg t; mret (f r)) (fun _ h' => quiet_change h h') h.
Proof.
  apply twp_bind. eapply twp_mono; [apply x_send_twp|]. cbn. intros r h' [_ Hq]. by apply twp_ret.
Qed.

Lemma report_exec_quiet path env h : twp (report_exec path env) (fun _ h' => quiet_change h h') h.
Proof.
  unfold report_exec, send_exec_event_sync. apply twp_bind.
  eapply twp_mono; [apply send_quiet|]. intros r h' Hq. by apply twp_ret.
Qed.

Lemma report_exec_blocked_quiet path reason h :
  twp (report_exec_blocked path reason) (fun _ h' => quiet_change h h') h.
Proof.
  unfold report_exec_blocked, send_exec_blocked. apply twp_bind, twp_gets. apply send_quiet.
Qed.

(** ** The entry points that start a program *)

Inductive XEntry : Type :=
| EExecve (path : option string) (envp : Envp)
| EExecvp (path : option string)
| EExecv (path : option string)
| ESpawn (path : option string) (pid_out : bool) (envp : Envp)
| ESpawnp (path : option string) (pid_out : bool) (envp : Envp).

Definition run_entry (e : XEntry) : XM Z :=
  match e with
  | EExecve p envp => guard_execve p envp
  | EExecvp p => guard_execvp p
  | EExecv p => guard_execv p
  | ESpawn p o envp => guard_posix_spawn p o envp
  | ESpawnp p o envp => guard_posix_spawnp p o envp
  end.

Definition entry_path (e : XEntry) : option string :=
  match e with EExecve p _ | EExecvp p | EExecv p | ESpawn p _ _ | ESpawnp p _ _ => p end.

Definition entry_call (e : XEntry) : XCall :=
  match e with
  | EExecve p _ => XExecve p | EExecvp p => XExecvp p | EExecv p => XExecv p
  | ESpawn p _ _ => XSpawn p | ESpawnp p _ _ => XSpawnp p
  end.

Definition is_spawn (e : XEntry) : bool := match e with ESpawn _ _ _ | ESpawnp _ _ _ => true | _ => false end.

(** What a refusal looks like to the caller. *)
Definition refused (e : XEntry) (spawn_code : Z) (rc : Z) (h h' : XHook) : Prop :=
  x_trace h' = x_trace h /\
  (if is_spawn e then rc = spawn_code /\ x_errno h' = x_errno h else rc = (-1)%Z /\ x_errno h' = EACCES).

(** What a started program looks like: the call, then at most one kill. *)
Definition started (e : XEntry) (h h' : XHook) : Prop :=
  exists kills, x_trace h' = x_trace h ++ entry_call e :: kills /\
    (is_spawn e = false -> kills = []) /\
    (forall c, c ∈ kills -> exists pid, c = XKill pid).

Definition entry_outcome (e : XEntry) (d : ExecDecision) (rc : Z) (h h' : XHook) : Prop :=
  match d with
  | ExecBlock _ => refused e EACCES rc h h'
  | ExecTrace _ => refused e ENOTSUP rc h h'
  | ExecAllow => started e h h'
  end.

Lemma check_target_twp path h d s :
  check_exec_target x_classify path (x_scan h) = Val (d, s) ->
  twp (check_target path) (fun d' h' => d' = d /\ h' = x_with_scan s h) h.
Proof. intros E. exists d, (x_with_scan s h). unfold check_target. by rewrite E. Qed.

Lemma exec_body_twp path env c h d s :
  check_exec_target x_classify path (x_scan h) = Val (d, s) ->
  twp (exec_body path env c) (fun rc h' => x_scan h' = s /\
    match d with
    | ExecAllow => x_trace h' = x_trace h ++ [c]
    | _ => rc = (-1)%Z /\ x_errno h' = EACCES /\ x_trace h' = x_trace h
    end) h.
Proof.
  intros E. unfold exec_body. apply twp_bind. eapply twp_mono; [by apply check_target_twp|].
  intros d' h1 [-> ->]. destruct d as [|reason|reason].
  - apply twp_bind. eapply twp_mono; [apply report_exec_quiet|]. cbn. intros _ h2 Hq.
    destruct (quiet_change_fields _ _ Hq) as (_ & _ & _ & _ & Es & Et).
    apply twp_call. rewrite Et. by destruct h.
  - apply twp_bind. eapply twp_mono; [apply report_exec_blocked_quiet|]. cbn. intros _ h2 Hq.
    destruct (quiet_change_fields _ _ Hq) as (_ & _ & _ & _ & Es & Et).
    unfold x_set_errno. apply twp_bind, twp_modify, twp_ret. cbn. rewrite Es, Et. by destruct h.
  - unfold block_exec_trace_required, x_log_append, x_set_errno.
    apply twp_bind, twp_modify, twp_bind, twp_modify, twp_ret. by destruct h.
Qed.

(** The pidversion that is read for [pid] next, and the daemon's word on it. *)
Definition seen_pidversion (h : XHook) (pid : Z) : N :=
  match x_token_for_pid (x_lookups h) pid with Some t => val7 t | None => 0%N end.

Definition fork_verdict (h : XHook) (pid : Z) : result unit IpcClientError :=
  ack_result (x_answer h TAG_FORK_EVENT
    (mkForkEvent SCHEMA_V2 current_audit_token_wire pid (seen_pidversion h pid)) IPC_TIMEOUT_MS).

(** The daemon has recorded the fork, or has disowned the parent. *)
Definition fork_accepted (r : result unit IpcClientError) : bool :=
  match r with Ok _ => true | Err e => is_untracked_peer e end.

Lemma child_pidversion_twp pid h :
  twp (child_pidversion pid)
    (fun pv h' => pv = seen_pidversion h pid /\ h' = x_with_lookups (S (x_lookups h)) h) h.
Proof. unfold child_pidversion. apply twp_bind, twp_gets, twp_bind, twp_modify, twp_ret. done. Qed.

Lemma send_fork_event_twp h pid :
  twp (send_fork_event_sync current_audit_token_wire pid (seen_pidversion h pid) IPC_TIMEOUT_MS)
    (fun r h' => r = fork_verdict h pid /\ quiet_change h h') (x_with_lookups (S (x_lookups h)) h).
Proof.
  unfold send_fork_event_sync. apply twp_bind. eapply twp_mono; [apply x_send_twp|].
  intros r h' [-> Hq]. apply twp_ret. split; [by destruct h|].
  eapply quiet_trans; [|done]. by destruct h.
Qed.

Lemma fork_parent_twp pid h :
  twp (fork_parent pid) (fun rc h' => x_in_hook h' = x_in_hook h /\
    if fork_accepted (fork_verdict h pid)
    then rc = pid /\ x_trace h' = x_trace h
    else rc = (-1)%Z /\ x_errno h' = EAGAIN /\ x_trace h' = x_trace h ++ [XKill pid]) h.
Proof.
  unfold fork_parent. apply twp_bind. eapply twp_mono; [apply child_pidversion_twp|]. intros pv h1 [-> ->].
  apply twp_bind. eapply twp_mono; [apply send_fork_event_twp|]. intros r h2 [-> Hq].
  destruct (quiet_change_fields _ _ Hq) as (Ei & _ & _ & _ & _ & Et).
  unfold fork_accepted. destruct (fork_verdict h pid) as [u|err]; [by apply twp_ret|].
  destruct (is_untracked_peer err); [by apply twp_ret|].
  unfold x_kill, x_set_errno. apply twp_bind, twp_call, twp_bind, twp_modify, twp_ret. cbn. by rewrite Ei, Et.
Qed.

(** After a spawn: refused reports give [EAGAIN], and the child is killed if its
    pidversion was known and is still the same. *)
Lemma spawn_report_twp path pid envp h :
  twp (spawn_report path pid envp) (fun rc h' =>
    x_errno h' = x_errno h /\ x_scan h' = x_scan h /\
    if fork_accepted (fork_verdict h pid)
    then rc = 0%Z /\ x_trace h' = x_trace h
    else rc = EAGAIN /\ exists n,
      x_trace h' = x_trace h ++
        (if bool_decide (seen_pidversion h pid <> 0%N /\
                         seen_pidversion (x_with_lookups n h) pid = seen_pidversion h pid)
         then [XKill pid] else [])) h.
Proof.
  unfold spawn_report. apply twp_bind. eapply twp_mono; [apply child_pidversion_twp|]. intros pv h1 [-> ->].
  apply twp_bind. eapply twp_mono; [apply send_fork_event_twp|]. intros r h2 [-> Hq].
  destruct (quiet_change_fields _ _ Hq) as (_ & _ & _ & Ee & Es & Et).
  unfold fork_accepted. destruct (fork_verdict h pid) as [u|err].
  - unfold send_exec_event_sync. apply twp_bind. eapply twp_mono; [apply send_quiet|]. cbn. intros _ h3 Hq3.
    pose proof (quiet_change_fields _ _ Hq3) as (_ & _ & _ & Ee3 & Es3 & Et3).
    apply twp_ret. split_and!; congruence.
  - destruct (is_untracked_peer err); [by apply twp_ret|].
    apply twp_bind. eapply twp_mono; [apply child_pidversion_twp|]. intros now h3 [-> ->].
    apply twp_bind.
    assert (bool_decide (seen_pidversion h pid <> 0%N /\ seen_pidversion h2 pid = seen_pidversion h pid)
            = negb (bool_decide (seen_pidversion h2 pid = 0%N))
              && bool_decide (seen_pidversion h2 pid = seen_pidversion h pid)) as Hb.
    { repeat case_bool_decide; try done; naive_solver congruence. }
    assert (forall t, t = x_trace h ++ (if negb (bool_decide (seen_pidversion h2 pid = 0%N))
              && bool_decide (seen_pidversion h2 pid = seen_pidversion h pid) then [XKill pid] else []) ->
            exists n, t = x_trace h ++
        (if bool_decide (seen_pidversion h pid <> 0%N /\
                         seen_pidversion (x_with_lookups n h) pid = seen_pidversion h pid)
         then [XKill pid] else [])) as Hn.
    { intros t ->. exists (x_lookups h2). by rewrite <- Hb. }
    destruct (_ && _).
    + unfold x_kill. apply twp_call, twp_ret. cbn. split_and!; try done. apply Hn. cbn. by rewrite Et.
    + apply twp_ret, twp_ret. cbn. split_and!; try done. apply Hn. cbn. by rewrite Et, app_nil_r.
Qed.

Lemma spawn_body_twp path out envp c h d s :
  check_exec_target x_classify path (x_scan h) = Val (d, s) ->
  twp (spawn_body path out envp c) (fun rc h' => x_scan h' = s /\
    match d with
    | ExecBlock _ => rc = EACCES /\ x_errno h' = x_errno h /\ x_trace h' = x_trace h
    | ExecTrace _ => rc = ENOTSUP /\ x_errno h' = x_errno h /\ x_trace h' = x_trace h
    | ExecAllow => exists kills, x_trace h' = x_trace h ++ c :: kills /\
                     (forall k, k ∈ kills -> exists pid, k = XKill pid)
    end) h.
Proof.
  intros E. unfold spawn_body. apply twp_bind. eapply twp_mono; [by apply check_target_twp|].
  intros d' h1 [-> ->]. destruct d as [|reason|reason].
  - apply twp_bind. apply (twp_mono _ (fun _ h' => quiet_change (x_with_scan s h) h')).
    { destruct (should_emit_env_not_propagated_gap envp); [|by apply twp_ret].
      apply twp_bind, twp_gets. unfold send_env_not_propagated_gap_sync. apply twp_bind.
      eapply twp_mono; [apply send_quiet|]. cbn. intros _ h2 Hq. by apply twp_ret. }
    intros _ h2 Hq. destruct (quiet_change_fields _ _ Hq) as (_ & _ & _ & _ & Es & Et).
    cbn in Es, Et. apply twp_bind, twp_call. rewrite Et.
    destruct (x_spawn_result (length (x_trace h))) as [rc pid]. cbn [fst snd].
    assert (forall k : XCall, k ∈ [] -> exists pid, k = XKill pid) as Hnil
      by (intros k Hk; by apply not_elem_of_nil in Hk).
    destruct (negb (bool_decide (rc = 0%Z))); [apply twp_ret; split; [by rewrite <- Es|by exists []]|].
    destruct out; cbn [negb]; [|apply twp_ret; split; [by rewrite <- Es|by exists []]].
    eapply twp_mono; [apply spawn_report_twp|]. cbn. intros rc' h3 (_ & Es3 & Hrc).
    split; [by rewrite Es3, <- Es|].
    destruct (fork_accepted _).
    + exists []. destruct Hrc as [_ ->]. done.
    + destruct Hrc as [_ [n ->]]. case_bool_decide.
      * exists [XKill pid]. rewrite <- app_assoc. split; [done|].
        intros k ->%list_elem_of_singleton. by exists pid.
      * exists []. rewrite <- app_assoc. done.
  - apply twp_bind. eapply twp_mono; [apply report_exec_blocked_quiet|]. cbn. intros _ h2 Hq.
    destruct (quiet_change_fields _ _ Hq) as (_ & _ & _ & Ee & Es & Et). apply twp_ret.
    rewrite Es, Et, Ee. by destruct h.
  - unfold report_trace_required, x_log_append. apply twp_bind, twp_modify, twp_ret. by destruct h.
Qed.

Lemma run_entry_spec (e : XEntry) (h : XHook) d s :
  x_in_hook h = false -> check_exec_target x_classify (entry_path e) (x_scan h) = Val (d, s) ->
  twp (run_entry e) (fun rc h' =>
    x_in_hook h' = false /\ x_scan h' = s /\ entry_outcome e d rc h h') h.
Proof.
  intros Hi E.
  assert (forall path env nested, entry_path e = path -> is_spawn e = false ->
    twp (with_guard nested (exec_body path env (entry_call e)))
      (fun rc h' => x_in_hook h' = false /\ x_scan h' = s /\ entry_outcome e d rc h h') h) as Hexec.
  { intros path env nested <- Hs. apply twp_guard; [done|].
    eapply twp_mono; [apply (exec_body_twp _ _ _ _ d s); by destruct h|].
    cbn. intros rc h' (Es & Hd). split; [done|]. split; [by destruct h'|].
    destruct d; unfold entry_outcome, refused, started; rewrite ?Hs.
    - exists []. split; [done|]. split; [done|]. intros c Hc. by apply not_elem_of_nil in Hc.
    - naive_solver.
    - naive_solver. }
  assert (forall path out envp nested, entry_path e = path -> is_spawn e = true ->
    twp (with_guard nested (spawn_body path out envp (entry_call e)))
      (fun rc h' => x_in_hook h' = false /\ x_scan h' = s /\ entry_outcome e d rc h h') h) as Hspawn.
  { intros path out envp nested <- Hs. apply twp_guard; [done|].
    eapply twp_mono; [apply (spawn_body_twp _ _ _ _ _ d s); by destruct h|].
    cbn. intros rc h' (Es & Hd). split; [done|]. split; [by destruct h'|].
    destruct d; unfold entry_outcome, refused, started; rewrite ?Hs; naive_solver. }
  destruct e; cbn [run_entry]; [apply Hexec|apply Hexec|apply Hexec|apply Hspawn|apply Hspawn]; done.
Qed.

End Laws.

(** ** fork and vfork return *)

Lemma saturated_pos bits v : (1 < bits)%Z -> (0 < saturated bits v <-> 0 < v)%Z.
Proof.
  intros Hb. assert (2 <= 2 ^ (bits - 1))%Z by (apply (Z.pow_le_mono_r 2 1); lia).
  unfold saturated, in_signed. repeat case_bool_decide; lia.
Qed.

Lemma saturated_in bits v : in_signed bits v -> saturated bits v = v.
Proof. intros H. unfold saturated. by rewrite bool_decide_eq_true_2. Qed.

(** What the wrappers take for the pid. *)
Definition fork_number `{XEnv} (h : XHook) : Z := call_result raw_fork (x_fork_regs (length (x_trace h))).

Lemma fork_number_value `{XEnv} h : fork_number h = saturated 32 (kr_ret (x_fork_regs (length (x_trace h)))).
Proof. done. Qed.

Lemma fork_returns `{XE : XEnv} (shared : bool) (h : XHook) :
  x_in_hook h = false ->
  let call := if shared then XVfork else XFork in
  let pid := fork_number h in
  twp (if shared then guard_vfork else guard_fork) (fun rc h' => x_in_hook h' = false /\
    if bool_decide (0 < pid)%Z then
      if fork_accepted (fork_verdict h pid)
      then rc = pid /\ x_trace h' = x_trace h ++ [call]
      else rc = (-1)%Z /\ x_errno h' = EAGAIN /\ x_trace h' = x_trace h ++ [call; XKill pid]
    else rc = pid /\ x_conns h' = x_conns h /\ x_trace h' = x_trace h ++ [call]) h.
Proof.
  intros Hi call pid.
  assert (forall b h1, h1 = x_with_in_hook b (x_with_trace (x_trace h ++ [call]) h) ->
    (0 < pid)%Z ->
    twp (fork_parent pid) (fun rc h' => x_in_hook (x_with_in_hook false h') = false /\
      if fork_accepted (fork_verdict h pid)
      then rc = pid /\ x_trace (x_with_in_hook false h') = x_trace h ++ [call]
      else rc = (-1)%Z /\ x_errno (x_with_in_hook false h') = EAGAIN /\
           x_trace (x_with_in_hook false h') = x_trace h ++ [call; XKill pid]) h1) as Hp.
  { intros b h1 -> _. eapply twp_mono; [apply fork_parent_twp|]. intros rc h2 (_ & HQ). split; [done|].
    cbn in HQ |- *. destruct (fork_accepted _); [done|]. destruct HQ as (-> & -> & ->).
    by rewrite <- app_assoc. }
  destruct shared; (apply twp_guard; [done|]); apply twp_bind; (apply twp_call; cbn [x_with_in_hook x_trace]);
    change (call_result _ _) with pid; (destruct (decide (pid < 0)%Z);
      [rewrite !bool_decide_eq_true_2, (bool_decide_eq_false_2 (0 < pid)%Z) by lia; by apply twp_ret|]);
    rewrite (bool_decide_eq_false_2 (pid < 0)%Z) by lia;
    (destruct (decide (pid = 0)%Z) as [E0|];
      [rewrite (bool_decide_eq_true_2 (pid = 0)%Z), (bool_decide_eq_false_2 (0 < pid)%Z) by lia;
       apply twp_bind, twp_modify, twp_ret; done|]);
    rewrite (bool_decide_eq_false_2 (pid = 0)%Z), (bool_decide_eq_true_2 (0 < pid)%Z) by lia.
  - apply twp_bind. destruct x_vfork_shared; [apply twp_modify|apply twp_ret]; eapply Hp; try lia; done.
  - eapply (Hp true); [done|lia].
Qed.

(** ** The library and the daemon together *)

Lemma byte_val_tag : byte_val (ascii_of_N TAG_FORK_EVENT) = TAG_FORK_EVENT.
Proof. reflexivity. Qed.

Lemma frame_u32 n : (n <= MAX_FRAME_BYTES)%N -> (n <= U32_MAX)%N.
Proof. unfold MAX_FRAME_BYTES, U32_MAX. lia. Qed.

Lemma write_frame_plain {T} `{Cbor T} (s b : string) (v : T) :
  into_writer v = Ok b -> (N.of_nat (String.length b) <= MAX_FRAME_BYTES)%N ->
  write_frame_with_limit (mkWriter s None) v MAX_FRAME_BYTES
  = Ok (mkWriter (s +:+ to_be_bytes (N.of_nat (String.length b)) +:+ b) None).
Proof.
  intros Eb Hb. unfold write_frame_with_limit. rewrite Eb. cbn [map_err]. cbv zeta.
  rewrite bool_decide_eq_false_2 by (by apply N.le_ngt). rewrite bool_decide_eq_true_2 by (by apply frame_u32).
  cbn [negb]. unfold write_all. cbn [w_fault written]. by rewrite app_assoc_str.
Qed.

Lemma fork_answer_frame `{OsView} (cf : Cbor Messages.ForkEvent) (ca : Cbor Ack) (d : Events) (tok : AuditToken)
    (ev : Messages.ForkEvent) (b c : string) :
  cbor_round_trips Messages.ForkEvent -> into_writer ev = Ok b ->
  (N.of_nat (String.length b) <= MAX_FRAME_BYTES)%N ->
  into_writer (handle_fork_event d tok (Ok ev)).2 = Ok c ->
  (N.of_nat (String.length c) <= MAX_FRAME_BYTES)%N ->
  fork_answer_bytes d tok (String (ascii_of_N TAG_FORK_EVENT) (to_be_bytes (N.of_nat (String.length b)) +:+ b))
  = String (ascii_of_N TAG_FORK_EVENT) (to_be_bytes (N.of_nat (String.length c)) +:+ c).
Proof.
  intros Hf Eb Hb Ec Hc. unfold fork_answer_bytes, classify_frame. rewrite byte_val_tag.
  change (from_byte TAG_FORK_EVENT) with (Some Frame.ForkEvent). cbv iota beta.
  unfold read_tagged_body. change (max_frame_bytes_for_tag Frame.ForkEvent) with MAX_FRAME_BYTES.
  rewrite <- (app_nil_r_str b) at 2.
  rewrite (read_frame_app ev b "" MAX_FRAME_BYTES Hf Eb Hb (frame_u32 _ Hb)). cbn [fst map_err].
  unfold write_tagged. change (max_frame_bytes_for_tag Frame.ForkEvent) with MAX_FRAME_BYTES.
  rewrite (write_frame_plain _ c _ Ec Hc). cbn [written]. by rewrite app_cons_str, app_nil_l_str.
Qed.

(** A fork event small enough for a frame reaches the handler, and its answer, small
    enough too, reaches the library. *)
Lemma fork_exchange `{OsView} (cf : Cbor Messages.ForkEvent) (ca : Cbor Ack) (p : Peer) (d : Events) (tok : AuditToken)
    (ev : Messages.ForkEvent) :
  cbor_round_trips Messages.ForkEvent -> cbor_round_trips Ack ->
  (exists b, into_writer ev = Ok b /\ (N.of_nat (String.length b) <= MAX_FRAME_BYTES)%N) ->
  (exists b, into_writer (handle_fork_event d tok (Ok ev)).2 = Ok b /\
             (N.of_nat (String.length b) <= MAX_FRAME_BYTES)%N) ->
  p_connect p = None -> p_tag_fault p = None -> p_frame_fault p = None ->
  p_answer p = fork_answer_bytes d tok ->
  exchange p TAG_FORK_EVENT ev = Ok (handle_fork_event d tok (Ok ev)).2.
Proof.
  intros Hf Ha (b & Eb & Hb) (c & Ec & Hc) Hp1 Hp2 Hp3 Hp4.
  unfold exchange. rewrite Hp1, Hp2, Hp3, Hp4. unfold write_frame. rewrite (write_frame_plain _ _ _ Eb Hb).
  unfold map_err at 1. cbn [written]. rewrite app_cons_str, app_nil_l_str.
  rewrite (fork_answer_frame cf ca d tok ev b c) by done. cbv beta iota. rewrite byte_val_tag.
  rewrite bool_decide_eq_true_2 by done. cbn [negb]. unfold read_frame.
  rewrite <- (app_nil_r_str c) at 2.
  by rewrite (read_frame_app _ c "" MAX_FRAME_BYTES Ha Ec Hc (frame_u32 _ Hc)).
Qed.

(** What a fork event of the library does to the daemon, and how it is answered. *)
Lemma fork_event_effect `{OsView} (d : Events) (tok : AuditToken) (ev : Messages.ForkEvent) :
  fe_schema_version ev = SCHEMA_V2 -> (0 < fe_child_pid ev)%Z ->
  let r := handle_fork_event d tok (Ok ev) in
  let new := mkToken 0 0 0 0 0 (Z.to_N (fe_child_pid ev)) 0 (fe_child_pidversion ev) in
  ((exists v, r.2 = AckOk v) \/ (exists v m, r.2 = AckErr v m /\ contains m "untracked peer" = true)) /\
  if is_tracked (es_tree d) tok
  then run_of (es_tree r.1) new = run_of (es_tree d) tok /\
       (forall t, t <> new -> nodes (es_tree r.1) !! t = nodes (es_tree d) !! t)
  else r.1 = d.
Proof.
  intros Hv Hpid r new. assert (child_token ev = new) as Hn.
  { unfold child_token, new. by rewrite bool_decide_eq_true_2 by lia. }
  subst r. unfold handle_fork_event. rewrite Hv, bool_decide_eq_true_2 by done. cbn [negb].
  destruct (is_tracked (es_tree d) tok) eqn:Ht; cbn [negb].
  - cbv zeta. rewrite Hn. pose proof (record_fork_run_of (es_tree d) tok new Ht) as Hr.
    assert (exists t1 u, record_fork (es_tree d) tok new = (t1, Ok u) /\
            forall t, t <> new -> nodes t1 !! t = nodes (es_tree d) !! t) as (t1 & u & E & Hc).
    { unfold record_fork, is_tracked in *. destruct (nodes (es_tree d) !! tok); [|done].
      eexists _, _. split; [done|]. intros t Hne. cbn. by rewrite lookup_insert_ne. }
    rewrite E in *. cbn [fst snd] in *. split.
    + left. by eexists.
    + destruct (is_hardened_runtime (fe_child_pid ev)); done.
  - split; [|done]. right. eexists _, _. split; [reflexivity|]. vm_compute. reflexivity.
Qed.

(** ** Properties *)



(** C12: library and daemon together.  When the daemon behind the connection answers, a
    fork never fails for the program: its parent side gets the pid.  If the daemon tracks
    the caller, the one change to its tree is an entry in the caller's run for the token
    that has the reported pid and pidversion and zeros elsewhere; every other token, and so
    the one the kernel presents for the child with its credentials, is in the tree exactly
    as before.  If the daemon does not track the caller, its state is unchanged. *)
Theorem fork_recorded_by_daemon (XE : XEnv) (OS : OsView) (h : XHook) (d : Events) (tok : AuditToken) :
  let pid := kr_ret (x_fork_regs (length (x_trace h))) in
  let ev := mkForkEvent SCHEMA_V2 current_audit_token_wire pid (seen_pidversion h pid) in
  let p := x_peer (x_conns h) (rw_budget IPC_TIMEOUT_MS) in
  let d' := (handle_fork_event d tok (Ok ev)).1 in
  let recorded := mkToken 0 0 0 0 0 (Z.to_N pid) 0 (seen_pidversion h pid) in
  x_in_hook h = false -> x_socket h = true -> (0 < pid < 2 ^ 31)%Z ->
  cbor_round_trips Messages.ForkEvent -> cbor_round_trips Ack ->
  (exists b, into_writer ev = Ok b /\ (N.of_nat (String.length b) <= MAX_FRAME_BYTES)%N) ->
  (exists b, into_writer (handle_fork_event d tok (Ok ev)).2 = Ok b /\
             (N.of_nat (String.length b) <= MAX_FRAME_BYTES)%N) ->
  p_connect p = None -> p_tag_fault p = None -> p_frame_fault p = None ->
  p_answer p = fork_answer_bytes d tok ->
  (exists h', guard_fork h = Val (pid, h') /\ x_trace h' = x_trace h ++ [XFork]) /\
  if is_tracked (es_tree d) tok
  then run_of (es_tree d') recorded = run_of (es_tree d) tok /\
       (forall t, t <> recorded -> nodes (es_tree d') !! t = nodes (es_tree d) !! t)
  else d' = d.
Proof.
  intros pid ev p d' recorded Hi Hs Hpid Hf Ha Hev Hack Hp1 Hp2 Hp3 Hp4.
  assert (fork_verdict h pid = ack_result (Ok (handle_fork_event d tok (Ok ev)).2)) as Hv.
  { unfold fork_verdict, x_answer. rewrite Hs. fold ev p. f_equal. by apply fork_exchange. }
  destruct (fork_event_effect d tok ev eq_refl) as [Hacc Heff]; [cbn; lia|]. split; [|exact Heff].
  destruct (fork_returns false h Hi) as (rc & h' & E & _ & HQ). rewrite fork_number_value in HQ. fold pid in HQ.
  rewrite saturated_in in HQ by (unfold in_signed; cbn; lia). rewrite bool_decide_eq_true_2 in HQ by lia.
  rewrite Hv in HQ. unfold fork_accepted in HQ.
  destruct Hacc as [(v & Hr)|(v & m & Hr & Hm)]; rewrite Hr in HQ; cbn in HQ; [|rewrite Hm in HQ];
    destruct HQ as [-> Ht]; by exists h'.
Qed.

(** ** Behaviour the findings name *)

(** Darwin tells a child by the second register and gives it the parent's pid as result:
    the wrapper in the child reports a fork of the parent's pid, and kills the parent when
    the report is refused.  A failed call, with the error number and the flag, is taken for
    a child of that number in the same way. *)
Lemma forked_child_takes_parent_path (XE : XEnv) (h : XHook) (ret second : Z) (carry : bool) :
  x_in_hook h = false -> x_fork_regs (length (x_trace h)) = mkReturned ret second carry -> (0 < ret < 2 ^ 31)%Z ->
  fork_accepted (fork_verdict h ret) = false ->
  exists h', guard_fork h = Val ((-1)%Z, h') /\ x_trace h' = x_trace h ++ [XFork; XKill ret].
Proof.
  intros Hi Hr Hret Hv. destruct (fork_returns false h Hi) as (rc & h' & E & _ & HQ).
  rewrite fork_number_value, Hr in HQ. cbn [kr_ret] in HQ. rewrite saturated_in in HQ by (unfold in_signed; cbn; lia).
  rewrite bool_decide_eq_true_2, Hv in HQ by lia. destruct HQ as (-> & _ & Ht). by exists h'.
Qed.

(** [execvp] of a name that is not a file of the current directory is refused,
    whatever the search path holds. *)
Lemma execvp_bare_name_refused (XE : XEnv) (EE : ExecEnv) (name : string) (h : XHook) :
  @x_classify XE = classify_path -> x_in_hook h = false -> is_setuid (Some name) = false ->
  (forall n, open_rdonly n name = None) ->
  exists h', guard_execvp (Some name) h = Val ((-1)%Z, h') /\ x_errno h' = EACCES /\ x_trace h' = x_trace h.
Proof.
  intros Hc Hi Hs Ho.
  assert (check_exec_target x_classify (Some name) (x_scan h)
          = Val (ExecBlock UnreadablePath, mkScanState (S (S (sc_opens (x_scan h)))) (sc_cache (x_scan h)))) as E.
  { rewrite Hc. unfold check_exec_target, classify_path, will_shed_dylib. rewrite Hs.
    unfold check_binary, open_file, mbind, sm_bind, mret, sm_ret. rewrite Ho. cbn. by rewrite Ho. }
  destruct (run_entry_spec (EExecvp (Some name)) h _ _ Hi E) as (rc & h' & Er & _ & _ & Ht & Hr & He).
  exists h'. by rewrite <- Hr.
Qed.

(** A spawn whose caller does not ask for the pid is never reported. *)
Lemma spawn_without_pid_unreported (XE : XEnv) (EE : ExecEnv) path envp h d s :
  x_in_hook h = false -> check_exec_target x_classify path (x_scan h) = Val (d, s) -> d = ExecAllow ->
  should_emit_env_not_propagated_gap envp = false ->
  exists rc h', guard_posix_spawn path false envp h = Val (rc, h') /\
    x_trace h' = x_trace h ++ [XSpawn path] /\ x_conns h' = x_conns h.
Proof.
  intros Hi E -> Hg.
  enough (twp (guard_posix_spawn path false envp)
    (fun _ h' => x_trace h' = x_trace h ++ [XSpawn path] /\ x_conns h' = x_conns h) h)
    as (rc & h' & Er & HQ) by (by exists rc, h').
  apply twp_guard; [done|]. unfold spawn_body. apply twp_bind.
  eapply twp_mono; [apply (check_target_twp _ _ ExecAllow s); by destruct h|]. intros d' h1 [-> ->].
  rewrite Hg. apply twp_bind, twp_ret, twp_bind, twp_call. cbn [negb].
  destruct (negb _); by apply twp_ret.
Qed.

(** ** Examples *)

#[export] Instance AuditTokenWire_eq_dec : EqDecision AuditTokenWire.
Proof. solve_decision. Defined.
#[export] Instance ForkEvent_eq_dec : EqDecision Messages.ForkEvent.
Proof. solve_decision. Defined.

Definition no_codec {T} : Cbor T := {| into_writer := fun _ => Err "none"; from_reader := fun _ => Err "none" |}.

Definition toy_fork_ev : Messages.ForkEvent :=
  mkForkEvent SCHEMA_V2 (mkWire (mkToken 0 0 0 0 0 4242 100 0)) 4243 9.

Definition toy_xenv : XEnv :=
  let cf := toy_only toy_fork_ev in
  let ca := toy_only ForkAck_ok in {|
  x_peer := fun _ _ => mkPeer None None None (@fork_answer_bytes (toy_os true) cf ca ev1 root_tok) (false, "eof");
  x_fork_regs := fun _ => mkReturned 4243 0 false;
  x_spawn_result := fun _ => (0%Z, 4243%Z);
  x_exec_result := fun _ => (-1)%Z;
  x_open_result := fun _ => 3%Z;
  x_write_result := fun _ => 1%Z;
  x_probe_socket := fun _ fd => bool_decide (fd = 5%Z);
  x_home := Some "/Users/dev";
  x_macos_major := 14%N;
  x_token_for_pid := fun _ _ => Some (mkToken 0 0 0 0 0 4243 4242 9);
  x_now_ms := fun _ => 1000%N;
  x_getpid := 4242%Z;
  x_getppid := 100%Z;
  x_environ := None;
  x_vfork_shared := true;
  x_classify := @classify_path (toy_env image_clean (N.to_nat 65536));
  x_fork_cbor := cf;
  x_exec_cbor := no_codec;
  x_gap_cbor := no_codec;
  x_blocked_cbor := no_codec;
  x_persist_cbor := no_codec;
  x_loaded_cbor := no_codec;
  x_ack_cbor := ca;
|}.

Definition toy_h : XHook := mkX false true [] 0 0 0 scan_start [].

Definition trace_of {A} (o : outcome (A * XHook)) : option (list XCall) :=
  match o with Val (_, h') => Some (x_trace h') | Panic => None end.



Lemma fork_recorded_by_daemon_witness :
  run_of (es_tree (@handle_fork_event (toy_os true) ev1 root_tok (Ok toy_fork_ev)).1) (mkToken 0 0 0 0 0 4243 0 9)
  = run_of (es_tree ev1) root_tok /\
  exists h', @guard_fork toy_xenv toy_h = Val (4243%Z, h').
Proof.
  destruct (fork_recorded_by_daemon toy_xenv (toy_os true) toy_h ev1 root_tok) as [(h' & Hf & _) He].
  1-2: reflexivity.
  1: by vm_compute.
  1-2: apply toy_only_round_trips.
  1-2: exists "p"; split; [vm_compute; reflexivity|vm_compute; discriminate].
  1-4: reflexivity.
  change (is_tracked (es_tree ev1) root_tok) with true in He. cbv iota in He.
  split; [exact (proj1 He)|by exists h'].
Defined.
