(* ===== verification/HookFiles.v ===== *)
(** * File opens, writes and descriptor classes

    [crates/guard-hook/src/persistence_paths.rs], [replace_open.rs], [fd_class.rs] and
    the write entry points of [replace_libc.rs].  The two bitmaps of descriptor
    classes are lists of 64-bit words, as in the code; a word outside the arrays is a
    panic. *)

From S2P Require Import Prelude RustStr Frame ProcessTree HookNet MachO Messages Events HookExec.

(** ** persistence_paths.rs *)

Definition starts_with_home_then (path home suffix : string) : bool :=
  if is_empty home then false
  else if negb (RustStr.starts_with path home) then false
  else RustStr.starts_with (str_drop (String.length home) path) suffix.

Definition classify_persistence_path_with_version (path home : string) (macos_major : N) : option string :=
  if starts_with_home_then path home "/Library/LaunchAgents/" then Some "launch-agent"
  else if RustStr.starts_with path "/Library/LaunchAgents/" then Some "launch-agent"
  else if RustStr.starts_with path "/Library/LaunchDaemons/" then Some "launch-daemon"
  else if bool_decide (13 <= macos_major)%N
          && starts_with_home_then path home
               "/Library/Application Support/com.apple.backgroundtaskmanagementagent/"
  then Some "login-item"
  else if bool_decide (macos_major < 13)%N
          && starts_with_home_then path home "/Library/Preferences/com.apple.loginitems.plist"
  then Some "login-item"
  else if RustStr.starts_with path "/usr/lib/cron/tabs/" || RustStr.starts_with path "/var/at/tabs/"
  then Some "crontab"
  else if RustStr.starts_with path "/etc/periodic/daily/" || RustStr.starts_with path "/etc/periodic/weekly/"
          || RustStr.starts_with path "/etc/periodic/monthly/" || RustStr.starts_with path "/usr/local/etc/periodic/"
  then Some "periodic-script"
  else if starts_with_home_then path home "/.bash_profile" || starts_with_home_then path home "/.bashrc"
          || starts_with_home_then path home "/.zshrc" || starts_with_home_then path home "/.zshenv"
          || starts_with_home_then path home "/.profile" || starts_with_home_then path home "/.zprofile"
  then Some "shell-profile"
  else None.

(** ** replace_open.rs *)

Definition O_ACCMODE : Z := 3.
Definition O_WRONLY : Z := 1.
Definition O_RDWR : Z := 2.
Definition O_CREAT : Z := 512.
Definition O_TRUNC : Z := 1024.

Definition is_write_flags (oflag : Z) : bool :=
  let accmode := Z.land oflag O_ACCMODE in
  bool_decide (accmode = O_WRONLY) || bool_decide (accmode = O_RDWR)
  || negb (bool_decide (Z.land oflag O_CREAT = 0%Z)) || negb (bool_decide (Z.land oflag O_TRUNC = 0%Z)).

Section Open.
Context `{XE : XEnv}.

Definition home_bytes : string := default "" x_home.

Definition classify_persistence_path (path home : string) : option string :=
  classify_persistence_path_with_version path home x_macos_major.

Definition maybe_report_persistence_write (path : option string) (oflag : Z) : XM unit :=
  if negb (is_write_flags oflag) then mret tt
  else
    socket ← x_gets x_socket;
    if negb socket then mret tt
    else
      let p := copy_cstr_to_buf path 1024 in
      if is_empty p then mret tt
      else match classify_persistence_path p home_bytes with
           | Some category => send_persistence_write current_audit_token_wire p category
           | None => mret tt
           end.

Definition guard_open (path : option string) (oflag mode : Z) : XM Z :=
  let call := x_call (XOpen None path oflag mode) x_open_result in
  with_guard call (_ ← maybe_report_persistence_write path oflag; call).

Definition guard_openat (dirfd : Z) (path : option string) (oflag mode : Z) : XM Z :=
  let call := x_call (XOpen (Some dirfd) path oflag mode) x_open_result in
  with_guard call
    (_ ← match path with
         | Some (String first _) =>
             if bool_decide (byte_val first = 47%N) then maybe_report_persistence_write path oflag else mret tt
         | _ => mret tt
         end;
     call).

End Open.

(** ** fd_class.rs *)

Definition MAX_FD : nat := 1024.
Definition BITMAP_WORDS : nat := 16.
Definition U64_MASK : N := 18446744073709551615.

Record FdBitmap : Type := mkBitmap { fb_is_socket : list N; fb_classified : list N }.

Definition FdBitmap_new : FdBitmap := mkBitmap (replicate BITMAP_WORDS 0%N) (replicate BITMAP_WORDS 0%N).

(** [(words[fd / 64] >> (fd % 64)) & 1 == 1]. *)
Definition test_word (words : list N) (fd : nat) : outcome bool :=
  w ← idx words (fd `div` 64);
  mret (bool_decide (N.land (N.shiftr w (N.of_nat (fd `mod` 64))) 1 = 1%N)).

(** [words[fd / 64] |= 1 << (fd % 64)] and [words[fd / 64] &= !(1 << (fd % 64))]. *)
Definition set_word (words : list N) (fd : nat) : outcome (list N) :=
  w ← idx words (fd `div` 64);
  mret (<[fd `div` 64 := N.lor w (N.shiftl 1 (N.of_nat (fd `mod` 64)))]> words).
Definition clear_word (words : list N) (fd : nat) : outcome (list N) :=
  w ← idx words (fd `div` 64);
  mret (<[fd `div` 64 := N.land w (N.lxor U64_MASK (N.shiftl 1 (N.of_nat (fd `mod` 64))))]> words).

Definition is_classified (b : FdBitmap) (fd : nat) : outcome bool := test_word (fb_classified b) fd.
Definition is_socket (b : FdBitmap) (fd : nat) : outcome bool := test_word (fb_is_socket b) fd.

Definition bitmap_set (b : FdBitmap) (fd : nat) (socket : bool) : outcome FdBitmap :=
  c ← set_word (fb_classified b) fd;
  s ← (if socket then set_word (fb_is_socket b) fd else clear_word (fb_is_socket b) fd);
  mret (mkBitmap s c).

Definition bitmap_invalidate (b : FdBitmap) (fd : nat) : outcome FdBitmap :=
  c ← clear_word (fb_classified b) fd;
  s ← clear_word (fb_is_socket b) fd;
  mret (mkBitmap s c).

(** [probe] is the answer of [classify_fd] when it is asked. *)
Definition probe_fd (b : FdBitmap) (probe : bool) (ufd : nat) : outcome (bool * FdBitmap) :=
  if bool_decide (ufd < MAX_FD) then b' ← bitmap_set b ufd probe; mret (probe, b')
  else mret (probe, b).

Definition is_connected_socket (b : FdBitmap) (probe : bool) (fd : Z) : outcome (bool * FdBitmap) :=
  if bool_decide (fd < 0)%Z then mret (false, b)
  else
    let ufd := Z.to_nat fd in
    result ← (if bool_decide (ufd < MAX_FD) then
                known ← is_classified b ufd;
                if (known : bool) then s ← is_socket b ufd; mret (Some s) else mret None
              else mret None);
    match (result : option bool) with
    | Some is_sock => mret (is_sock, b)
    | None => probe_fd b probe ufd
    end.

Definition invalidate_fd (b : FdBitmap) (fd : Z) : outcome FdBitmap :=
  if bool_decide (fd < 0)%Z then mret b
  else
    let ufd := Z.to_nat fd in
    if bool_decide (ufd < MAX_FD) then bitmap_invalidate b ufd else mret b.

(** [getsockopt] of the socket type: zero is success. *)
Definition classify_fd (ret : Z) : bool := bool_decide (ret = 0%Z).

(** ** replace_libc.rs: write and writev

    The bitmap belongs to the thread; the call is the same in both branches. *)
Definition guard_write `{XE : XEnv} (b : FdBitmap) (fd : Z) (vectors : bool) : XM (Z * FdBitmap) := fun h =>
  match is_connected_socket b (x_probe_socket (length (x_trace h)) fd) fd with
  | Val (sock, b') =>
      match (if negb sock then x_call (XWrite fd vectors) x_write_result h
             else x_call (XWrite fd vectors) x_write_result h) with
      | Val (r, h') => Val ((r, b'), h')
      | Panic => Panic
      end
  | Panic => Panic
  end.

(** ** Words *)

Definition word_ok (w : N) : Prop := forall j, (64 <= j)%N -> N.testbit w j = false.

Lemma land_one_testbit w i : bool_decide (N.land (N.shiftr w i) 1 = 1%N) = N.testbit w i.
Proof.
  rewrite N.testbit_eqb, <- N.shiftr_div_pow2.
  assert (N.land (N.shiftr w i) 1 = N.shiftr w i mod 2)%N as -> by exact (N.land_ones (N.shiftr w i) 1).
  destruct (N.eqb_spec (N.shiftr w i mod 2) 1); case_bool_decide; congruence.
Qed.

Lemma set_bit_testbit w i j : N.testbit (N.lor w (N.shiftl 1 i)) j = N.eqb i j || N.testbit w j.
Proof. apply N.setbit_eqb. Qed.

Lemma mask_testbit i j : (j < 64)%N -> N.testbit (N.lxor U64_MASK (N.shiftl 1 i)) j = negb (N.eqb i j).
Proof.
  intros Hj. rewrite N.lxor_spec. change U64_MASK with (N.ones 64). rewrite N.ones_spec_low by done.
  rewrite N.shiftl_1_l, N.pow2_bits_eqb. by destruct (N.eqb i j).
Qed.

Lemma clear_bit_testbit w i j : word_ok w ->
  N.testbit (N.land w (N.lxor U64_MASK (N.shiftl 1 i))) j = negb (N.eqb i j) && N.testbit w j.
Proof.
  intros Hw. rewrite N.land_spec. destruct (decide (j < 64)%N) as [Hj|Hj].
  - rewrite mask_testbit by done. apply andb_comm.
  - rewrite Hw by lia. by rewrite andb_false_r.
Qed.

Lemma set_bit_ok w i : (i < 64)%N -> word_ok w -> word_ok (N.lor w (N.shiftl 1 i)).
Proof.
  intros Hi Hw j Hj. rewrite set_bit_testbit, Hw by done.
  destruct (N.eqb_spec i j); [lia|done].
Qed.

Lemma clear_bit_ok w i : word_ok w -> word_ok (N.land w (N.lxor U64_MASK (N.shiftl 1 i))).
Proof. intros Hw j Hj. rewrite clear_bit_testbit, Hw by done. apply andb_false_r. Qed.

(** ** The bitmap as a partial map *)

Definition words_ok (words : list N) : Prop := length words = BITMAP_WORDS /\ Forall word_ok words.

(** Bit [fd] of an array of words. *)
Definition bit_of (words : list N) (fd : nat) : bool :=
  match words !! (fd `div` 64) with Some w => N.testbit w (N.of_nat (fd `mod` 64)) | None => false end.

Record bitmap_ok (b : FdBitmap) : Prop := {
  bo_socket : words_ok (fb_is_socket b);
  bo_classified : words_ok (fb_classified b);
}.

Definition fd_abs (b : FdBitmap) (fd : nat) : option bool :=
  if bit_of (fb_classified b) fd then Some (bit_of (fb_is_socket b) fd) else None.

Lemma fd_split fd : fd < MAX_FD -> fd `div` 64 < BITMAP_WORDS /\ (N.of_nat (fd `mod` 64) < 64)%N.
Proof.
  intros Hf. split.
  - apply Nat.Div0.div_lt_upper_bound. exact Hf.
  - pose proof (Nat.mod_upper_bound fd 64). lia.
Qed.

Lemma same_bit (fd fd' : nat) :
  fd `div` 64 = fd' `div` 64 -> N.of_nat (fd `mod` 64) = N.of_nat (fd' `mod` 64) -> fd = fd'.
Proof. intros Hd Hm. rewrite (Nat.div_mod_eq fd 64), (Nat.div_mod_eq fd' 64), Hd. lia. Qed.

(** Writing one bit of an array, by a function on its word. *)
Lemma word_write (words : list N) (fd : nat) (v : bool) (f : N -> N -> N) :
  words_ok words -> fd < MAX_FD ->
  (forall w i, word_ok w -> (i < 64)%N -> word_ok (f w i)) ->
  (forall w i j, word_ok w -> (j < 64)%N -> N.testbit (f w i) j = if N.eqb i j then v else N.testbit w j) ->
  exists words', (w ← idx words (fd `div` 64); mret (<[fd `div` 64 := f w (N.of_nat (fd `mod` 64))]> words))
                 = Val words' /\ words_ok words' /\
    forall fd', fd' < MAX_FD -> bit_of words' fd' = if decide (fd' = fd) then v else bit_of words fd'.
Proof.
  intros [Hl Hw] Hf Hok Hbit. destruct (fd_split fd Hf) as [Hi Hm].
  destruct (lookup_lt_is_Some_2 words (fd `div` 64)) as [w Ew]; [lia|].
  assert (word_ok w) as Hww by (by eapply Forall_lookup_1).
  unfold idx. rewrite Ew. eexists. split; [reflexivity|]. split.
  { split; [by rewrite length_insert|]. apply Forall_insert; auto. }
  intros fd' Hf'. destruct (fd_split fd' Hf') as [Hi' Hm']. unfold bit_of.
  destruct (decide (fd' `div` 64 = fd `div` 64)) as [E|E].
  - rewrite E, list_lookup_insert_eq, Ew by lia. rewrite Hbit by done.
    destruct (N.eqb_spec (N.of_nat (fd `mod` 64)) (N.of_nat (fd' `mod` 64))) as [Em|Em], (decide (fd' = fd)); subst; try done.
    by destruct n; apply same_bit.
  - rewrite list_lookup_insert_ne by done. rewrite decide_False; [done|congruence].
Qed.

Lemma set_word_spec words fd : words_ok words -> fd < MAX_FD ->
  exists words', set_word words fd = Val words' /\ words_ok words' /\
    forall fd', fd' < MAX_FD -> bit_of words' fd' = if decide (fd' = fd) then true else bit_of words fd'.
Proof.
  intros Hw Hf. apply (word_write words fd true (fun w i => N.lor w (N.shiftl 1 i))); try done.
  - intros w i Ho Hi. by apply set_bit_ok.
  - intros w i j _ _. rewrite set_bit_testbit. by destruct (N.eqb i j).
Qed.

Lemma clear_word_spec words fd : words_ok words -> fd < MAX_FD ->
  exists words', clear_word words fd = Val words' /\ words_ok words' /\
    forall fd', fd' < MAX_FD -> bit_of words' fd' = if decide (fd' = fd) then false else bit_of words fd'.
Proof.
  intros Hw Hf. apply (word_write words fd false (fun w i => N.land w (N.lxor U64_MASK (N.shiftl 1 i)))); try done.
  - intros w i Ho _. by apply clear_bit_ok.
  - intros w i j Ho _. rewrite clear_bit_testbit by done. by destruct (N.eqb i j).
Qed.

Lemma test_word_spec words fd : words_ok words -> fd < MAX_FD -> test_word words fd = Val (bit_of words fd).
Proof.
  intros [Hl _] Hf. destruct (fd_split fd Hf) as [Hi _]. unfold test_word, bit_of, idx.
  destruct (lookup_lt_is_Some_2 words (fd `div` 64)) as [w ->]; [lia|].
  cbn [mbind outcome_bind]. by rewrite land_one_testbit.
Qed.

Lemma bitmap_set_spec b fd s : bitmap_ok b -> fd < MAX_FD ->
  exists b', bitmap_set b fd s = Val b' /\ bitmap_ok b' /\
    forall fd', fd' < MAX_FD -> fd_abs b' fd' = if decide (fd' = fd) then Some s else fd_abs b fd'.
Proof.
  intros [Hs Hc] Hf. destruct (set_word_spec _ _ Hc Hf) as (c & Ec & Hc' & Bc).
  assert (exists ws, (if s then set_word (fb_is_socket b) fd else clear_word (fb_is_socket b) fd) = Val ws /\
    words_ok ws /\ forall fd', fd' < MAX_FD -> bit_of ws fd' = if decide (fd' = fd) then s else bit_of (fb_is_socket b) fd')
    as (ws & Es & Hs' & Bs) by (destruct s; [by apply set_word_spec|by apply clear_word_spec]).
  exists (mkBitmap ws c). unfold bitmap_set. rewrite Ec. cbn [mbind outcome_bind]. rewrite Es.
  split; [done|]. split; [done|]. intros fd' Hf'. unfold fd_abs. cbn. rewrite Bc, Bs by done.
  by destruct (decide (fd' = fd)).
Qed.

Lemma bitmap_invalidate_spec b fd : bitmap_ok b -> fd < MAX_FD ->
  exists b', bitmap_invalidate b fd = Val b' /\ bitmap_ok b' /\
    forall fd', fd' < MAX_FD -> fd_abs b' fd' = if decide (fd' = fd) then None else fd_abs b fd'.
Proof.
  intros [Hs Hc] Hf. destruct (clear_word_spec _ _ Hc Hf) as (c & Ec & Hc' & Bc).
  destruct (clear_word_spec _ _ Hs Hf) as (ws & Es & Hs' & Bs).
  exists (mkBitmap ws c). unfold bitmap_invalidate. rewrite Ec. cbn [mbind outcome_bind]. rewrite Es.
  split; [done|]. split; [done|]. intros fd' Hf'. unfold fd_abs. cbn. rewrite Bc, Bs by done.
  by destruct (decide (fd' = fd)).
Qed.

(** ** The memo the bitmap stands for *)

Inductive FdOp : Type := FdQuery (probe : bool) (fd : Z) | FdClose (fd : Z).

(** A partial map from small descriptors to classes; large ones are asked each time. *)
Definition memo_query (m : gmap nat bool) (probe : bool) (fd : Z) : bool * gmap nat bool :=
  if bool_decide (fd < 0)%Z then (false, m)
  else match m !! Z.to_nat fd with
       | Some s => (s, m)
       | None => (probe, if bool_decide (Z.to_nat fd < MAX_FD) then <[Z.to_nat fd := probe]> m else m)
       end.

Definition memo_close (m : gmap nat bool) (fd : Z) : gmap nat bool :=
  if bool_decide (fd < 0)%Z then m else delete (Z.to_nat fd) m.

Fixpoint memo_run (m : gmap nat bool) (ops : list FdOp) : list bool :=
  match ops with
  | [] => []
  | FdQuery probe fd :: ops' => let r := memo_query m probe fd in r.1 :: memo_run r.2 ops'
  | FdClose fd :: ops' => memo_run (memo_close m fd) ops'
  end.

Fixpoint fd_run (b : FdBitmap) (ops : list FdOp) : outcome (list bool * FdBitmap) :=
  match ops with
  | [] => mret ([], b)
  | FdQuery probe fd :: ops' =>
      r ← is_connected_socket b probe fd;
      rest ← fd_run r.2 ops';
      mret (r.1 :: rest.1, rest.2)
  | FdClose fd :: ops' => b' ← invalidate_fd b fd; fd_run b' ops'
  end.

Definition fd_rel (b : FdBitmap) (m : gmap nat bool) : Prop :=
  bitmap_ok b /\ (forall fd, fd < MAX_FD -> fd_abs b fd = m !! fd) /\ (forall fd, MAX_FD <= fd -> m !! fd = None).

Lemma fd_query_rel b m probe fd : fd_rel b m ->
  exists b', is_connected_socket b probe fd = Val ((memo_query m probe fd).1, b') /\ fd_rel b' (memo_query m probe fd).2.
Proof.
  intros (Hok & Hlow & Hhigh). unfold is_connected_socket, memo_query.
  destruct (decide (fd < 0)%Z); [rewrite bool_decide_eq_true_2 by done; by exists b|].
  rewrite bool_decide_eq_false_2 by done. destruct (decide (Z.to_nat fd < MAX_FD)) as [Hf|Hf].
  - rewrite bool_decide_eq_true_2 by done. unfold is_classified, is_socket.
    rewrite !test_word_spec by (done || apply Hok). cbn [mbind outcome_bind].
    specialize (Hlow _ Hf) as Hm. unfold fd_abs in Hm. rewrite <- Hm.
    destruct (bit_of (fb_classified b) (Z.to_nat fd)); cbn [mbind outcome_bind mret outcome_ret]; [by exists b|].
    unfold probe_fd. rewrite bool_decide_eq_true_2 by done.
    destruct (bitmap_set_spec b (Z.to_nat fd) probe Hok Hf) as (b' & -> & Hok' & Hb').
    exists b'. split; [done|]. split; [done|]. split.
    + intros fd' Hf'. rewrite Hb' by done. cbn [snd].
      destruct (decide (fd' = Z.to_nat fd)) as [->|]; [by rewrite lookup_insert_eq|].
      rewrite lookup_insert_ne by done. by apply Hlow.
    + intros fd' Hf'. cbn [snd]. rewrite lookup_insert_ne by lia. by apply Hhigh.
  - rewrite bool_decide_eq_false_2 by done. cbn [mbind outcome_bind mret outcome_ret].
    unfold probe_fd. rewrite bool_decide_eq_false_2 by done. rewrite Hhigh by lia. by exists b.
Qed.

Lemma fd_close_rel b m fd : fd_rel b m ->
  exists b', invalidate_fd b fd = Val b' /\ fd_rel b' (memo_close m fd).
Proof.
  intros (Hok & Hlow & Hhigh). unfold invalidate_fd, memo_close.
  destruct (decide (fd < 0)%Z); [rewrite bool_decide_eq_true_2 by done; by exists b|].
  rewrite bool_decide_eq_false_2 by done. destruct (decide (Z.to_nat fd < MAX_FD)) as [Hf|Hf].
  - rewrite bool_decide_eq_true_2 by done.
    destruct (bitmap_invalidate_spec b (Z.to_nat fd) Hok Hf) as (b' & -> & Hok' & Hb').
    exists b'. split; [done|]. split; [done|]. split.
    + intros fd' Hf'. rewrite Hb' by done.
      destruct (decide (fd' = Z.to_nat fd)) as [->|]; [by rewrite lookup_delete_eq|].
      rewrite lookup_delete_ne by done. by apply Hlow.
    + intros fd' Hf'. apply lookup_delete_None. right. by apply Hhigh.
  - rewrite bool_decide_eq_false_2 by done. exists b. split; [done|].
    rewrite delete_id by (apply Hhigh; lia). done.
Qed.

Lemma bitmap_new_rel : fd_rel FdBitmap_new ∅.
Proof.
  assert (words_ok (replicate BITMAP_WORDS 0%N)) as Hz.
  { split; [apply length_replicate|]. apply Forall_replicate. intros j _. apply N.bits_0. }
  split; [done|]. split; [|intros; apply lookup_empty].
  intros fd Hf. rewrite lookup_empty. unfold fd_abs, bit_of, FdBitmap_new. cbn [fb_classified].
  destruct (fd_split fd Hf) as [Hi _]. rewrite lookup_replicate_2 by done. by rewrite N.bits_0.
Qed.

(** ** Properties *)

(** On every sequence of queries and invalidations, negative and large
    descriptors included, the two bitmaps never index out of bounds, keep 64-bit
    words, and give the answers of a partial map from the descriptors below 1024 to
    their class. *)
Theorem fd_bitmap_refines_memo (ops : list FdOp) :
  exists b, fd_run FdBitmap_new ops = Val (memo_run ∅ ops, b) /\ bitmap_ok b.
Proof.
  assert (forall b m, fd_rel b m -> exists b', fd_run b ops = Val (memo_run m ops, b') /\ bitmap_ok b') as H.
  { induction ops as [|[probe fd|fd] ops IH]; intros b m Hr; cbn [fd_run memo_run].
    - exists b. split; [done|apply Hr].
    - destruct (fd_query_rel b m probe fd Hr) as (b1 & -> & Hr1). cbn [mbind outcome_bind fst snd].
      destruct (IH _ _ Hr1) as (b2 & -> & Hok). by exists b2.
    - destruct (fd_close_rel b m fd Hr) as (b1 & -> & Hr1). cbn [mbind outcome_bind]. by apply IH. }
  apply H, bitmap_new_rel.
Qed.

(** What an open of [path] would be reported as. *)
Definition persistence_report `{XEnv} (path : option string) (oflag : Z) (h : XHook) : option string :=
  let p := copy_cstr_to_buf path 1024 in
  if is_write_flags oflag && x_socket h && negb (is_empty p)
  then classify_persistence_path p home_bytes else None.

Lemma maybe_report_twp `{XEnv} path oflag h :
  twp (maybe_report_persistence_write path oflag) (fun _ h' =>
    quiet_change h h' /\
    x_conns h' = x_conns h + (if persistence_report path oflag h then 1 else 0)) h.
Proof.
  unfold maybe_report_persistence_write, persistence_report.
  assert (twp (mret tt) (fun _ h' => quiet_change h h' /\ x_conns h' = x_conns h + 0) h) as Hret.
  { apply twp_ret. split; [apply quiet_refl|lia]. }
  destruct (is_write_flags oflag); [|exact Hret]. cbn [negb andb].
  apply twp_bind, twp_gets. destruct (x_socket h) eqn:Es; [|exact Hret]. cbn [negb andb].
  destruct (is_empty _); [exact Hret|]. cbn [negb].
  destruct (classify_persistence_path _ _) as [cat|]; [|exact Hret].
  unfold send_persistence_write. apply twp_bind, twp_gets. apply twp_bind. unfold x_send.
  apply twp_bind, twp_gets. rewrite Es. cbn [negb].
  apply twp_bind, twp_gets, twp_bind, twp_modify, twp_ret, twp_ret.
  split; [by destruct h|]. cbn. lia.
Qed.

(** Outside the library open and openat always return the kernel's result for the
    same arguments, in exactly one call, and leave the error number alone; an open for
    writing of an absolute persistence path is reported once over a new connection,
    every other one silently. *)
Theorem open_transparent (XE : XEnv) (dirfd : option Z) (path : option string) (oflag mode : Z) (h : XHook) :
  x_in_hook h = false ->
  exists h', (match dirfd with None => guard_open path oflag mode | Some d => guard_openat d path oflag mode end) h
             = Val (x_open_result (length (x_trace h)), h') /\
    x_in_hook h' = false /\ x_errno h' = x_errno h /\
    x_trace h' = x_trace h ++ [XOpen dirfd path oflag mode] /\
    x_conns h' = x_conns h +
      (if dirfd then match path with
                     | Some p => if RustStr.starts_with p "/" then
                                   (if persistence_report path oflag h then 1 else 0) else 0
                     | None => 0
                     end
       else if persistence_report path oflag h then 1 else 0).
Proof.
  intros Hi.
  assert (forall (pre : XM unit) n, twp pre (fun _ h' => quiet_change (x_with_in_hook true h) h' /\
                      x_conns h' = x_conns h + n) (x_with_in_hook true h) ->
    twp (with_guard (x_call (XOpen dirfd path oflag mode) x_open_result)
           (_ ← pre; x_call (XOpen dirfd path oflag mode) x_open_result))
      (fun r h' => r = x_open_result (length (x_trace h)) /\ x_in_hook h' = false /\ x_errno h' = x_errno h /\
         x_trace h' = x_trace h ++ [XOpen dirfd path oflag mode] /\ x_conns h' = x_conns h + n) h) as Hcall.
  { intros pre n Hpre. apply twp_guard; [done|]. apply twp_bind. eapply twp_mono; [exact Hpre|].
    intros _ h1 [Hq Hn]. destruct (quiet_change_fields _ _ Hq) as (_ & _ & _ & Ee & _ & Et).
    apply twp_call. rewrite Et. cbn. rewrite Hn, Ee. done. }
  assert (forall p, twp (maybe_report_persistence_write p oflag) (fun _ h' =>
    quiet_change (x_with_in_hook true h) h' /\
    x_conns h' = x_conns h + (if persistence_report p oflag h then 1 else 0)) (x_with_in_hook true h)) as Hrep.
  { intros p. exact (maybe_report_twp p oflag (x_with_in_hook true h)). }
  assert (twp (mret tt : XM unit) (fun _ h' => quiet_change (x_with_in_hook true h) h' /\ x_conns h' = x_conns h + 0)
            (x_with_in_hook true h)) as Hret.
  { apply twp_ret. split; [apply quiet_refl|cbn; lia]. }
  assert (forall m n, twp m (fun r h' => r = x_open_result (length (x_trace h)) /\ x_in_hook h' = false /\
      x_errno h' = x_errno h /\ x_trace h' = x_trace h ++ [XOpen dirfd path oflag mode] /\
      x_conns h' = x_conns h + n) h ->
    exists h', m h = Val (x_open_result (length (x_trace h)), h') /\
      x_in_hook h' = false /\ x_errno h' = x_errno h /\
      x_trace h' = x_trace h ++ [XOpen dirfd path oflag mode] /\ x_conns h' = x_conns h + n) as Hout.
  { intros m n (r & h' & E & -> & HQ). by exists h'. }
  apply Hout. destruct dirfd as [d|]; [|by apply Hcall].
  apply Hcall. destruct path as [[|c s]|]; [exact Hret| |exact Hret].
  assert (RustStr.starts_with (String c s) "/" = bool_decide (byte_val c = 47%N)) as ->.
  { unfold RustStr.starts_with, byte_val. cbn [strip_prefix]. destruct (decide ("/"%char = c)) as [<-|Hn]; [reflexivity|].
    rewrite (bool_decide_eq_false_2 ("/"%char = c)) by done. apply eq_sym, bool_decide_eq_false_2.
    intros E. apply Hn. rewrite <- (ascii_N_embedding c), E. reflexivity. }
  destruct (bool_decide (byte_val c = 47%N)); [apply Hrep|exact Hret].
Qed.

(** Nothing in the library calls [invalidate_fd]: a descriptor first written to as a
    file keeps that class when its number is used again for a socket.  The writes
    themselves do not depend on it. *)
Lemma write_transparent (XE : XEnv) (b : FdBitmap) (fd : Z) (vectors : bool) (h : XHook) :
  bitmap_ok b ->
  exists b', guard_write b fd vectors h
             = Val ((x_write_result (length (x_trace h)), b'), x_with_trace (x_trace h ++ [XWrite fd vectors]) h) /\
    bitmap_ok b'.
Proof.
  intros Hok. unfold guard_write.
  assert (exists r b', is_connected_socket b (x_probe_socket (length (x_trace h)) fd) fd = Val (r, b') /\ bitmap_ok b')
    as (r & b' & -> & Hok').
  { unfold is_connected_socket, probe_fd. case_bool_decide; [by exists false, b|].
    case_bool_decide as Hf; [|by eexists _, b].
    unfold is_classified, is_socket. rewrite !test_word_spec by (done || apply Hok). cbn [mbind outcome_bind].
    destruct (bit_of _ _); cbn [mbind outcome_bind mret outcome_ret]; [by eexists _, b|].
    destruct (bitmap_set_spec b (Z.to_nat fd) (x_probe_socket (length (x_trace h)) fd) Hok Hf) as (b' & -> & Hok' & _).
    by eexists _, b'. }
  exists b'. by destruct r.
Qed.

Lemma stale_class_after_reuse :
  memo_run ∅ [FdQuery false 5; FdQuery true 5] = [false; false] /\
  memo_run ∅ [FdQuery false 5; FdClose 5; FdQuery true 5] = [false; true].
Proof. vm_compute. done. Qed.

Lemma open_transparent_witness :
  exists h', @guard_open toy_xenv (Some "/Users/dev/.zshrc") 1 0 toy_h = Val (3%Z, h') /\ x_conns h' = 1.
Proof.
  destruct (open_transparent toy_xenv None (Some "/Users/dev/.zshrc") 1 0 toy_h eq_refl)
    as (h' & E & _ & _ & _ & Hc).
  exists h'. split; [exact E|]. rewrite Hc. vm_compute. reflexivity.
Defined.
