(* ===== verification/HookNw.v ===== *)
(** * Network framework interposers

    [crates/guard-hook/src/replace_nw.rs]: the five shadow functions, the lazy
    binding of the originals and the verdict of [nw_connection_start].  Pointers are
    numbers, zero is null; a bound original is recorded by its name.  What the
    framework and the Objective-C runtime answer about an object is the class
    [NwEnv]. *)

From S2P Require Import Prelude RustStr Policy HookNet.

(** ** State *)

Inductive NwCall : Type :=
| NwCreate (endpoint parameters : N)
| NwStart (connection : N)
| NwCancel (connection : N)
| NwGetHostname (endpoint : N)
| NwCopyEndpoint (connection : N).

Record NwHook : Type := mkNw {
  nw_in_hook : bool;
  nw_fail_closed : bool;
  nw_allowlist : option (list AllowlistEntry);
  nw_log : list string;
  nw_init_done : bool;
  nw_available : bool;
  nw_bound : gset string;
  nw_class_bound : bool;
  nw_class_tries : nat;
  nw_trace : list NwCall;
}.

Class NwEnv : Type := {
  (** Whether the framework loads, and which of its symbols exist. *)
  nw_dlopen : bool;
  nw_dlsym : string -> bool;
  (** Whether the [n]-th lookup of [object_getClassName] succeeds. *)
  nw_class_sym : nat -> bool;
  nw_class_name : N -> option string;
  nw_endpoint_of : N -> N;
  nw_hostname_of : N -> option string;
  nw_created : N -> N -> N;
}.

Definition NM (A : Type) : Type := NwHook -> A * NwHook.
#[export] Instance nm_ret : MRet NM := fun A a h => (a, h).
#[export] Instance nm_bind : MBind NM := fun A B f m h => let '(a, h') := m h in f a h'.

Definition nw_gets {A} (f : NwHook -> A) : NM A := fun h => (f h, h).
Definition nw_modify (f : NwHook -> NwHook) : NM unit := fun h => (tt, f h).

Definition nw_set_in_hook (b : bool) (h : NwHook) : NwHook :=
  mkNw b (nw_fail_closed h) (nw_allowlist h) (nw_log h) (nw_init_done h) (nw_available h) (nw_bound h)
    (nw_class_bound h) (nw_class_tries h) (nw_trace h).
Definition nw_set_log (l : list string) (h : NwHook) : NwHook :=
  mkNw (nw_in_hook h) (nw_fail_closed h) (nw_allowlist h) l (nw_init_done h) (nw_available h) (nw_bound h)
    (nw_class_bound h) (nw_class_tries h) (nw_trace h).
Definition nw_set_init (done available : bool) (bound : gset string) (h : NwHook) : NwHook :=
  mkNw (nw_in_hook h) (nw_fail_closed h) (nw_allowlist h) (nw_log h) done available bound
    (nw_class_bound h) (nw_class_tries h) (nw_trace h).
Definition nw_set_class (bound : bool) (tries : nat) (h : NwHook) : NwHook :=
  mkNw (nw_in_hook h) (nw_fail_closed h) (nw_allowlist h) (nw_log h) (nw_init_done h) (nw_available h)
    (nw_bound h) bound tries (nw_trace h).
Definition nw_set_trace (t : list NwCall) (h : NwHook) : NwHook :=
  mkNw (nw_in_hook h) (nw_fail_closed h) (nw_allowlist h) (nw_log h) (nw_init_done h) (nw_available h)
    (nw_bound h) (nw_class_bound h) (nw_class_tries h) t.

Definition NW_SYMBOLS : list string :=
  ["nw_connection_create"; "nw_connection_create_with_endpoint"; "nw_connection_start"; "nw_connection_cancel";
   "nw_endpoint_get_hostname"; "nw_resolver_create"; "nw_resolver_resolve"; "nw_connection_copy_endpoint"].

Section Nw.
Context `{NwEnv}.

Definition nw_log_append (msg : string) : NM unit :=
  nw_modify (fun h =>
    let l := nw_log h ++ [msg +:+ String LF ""] in
    nw_set_log (if bool_decide (RING_CAPACITY < length l) then drop 1 l else l) h).

(** A call of an original through its slot; nothing happens when it is not bound. *)
Definition nw_real {A} (name : string) (c : NwCall) (result null : A) : NM A :=
  bound ← nw_gets nw_bound;
  if bool_decide (name ∈ bound) then
    _ ← nw_modify (fun h => nw_set_trace (nw_trace h ++ [c]) h);
    mret result
  else mret null.

(** The line logged for a symbol that is missing: 96 bytes at most. *)
Definition gap_line (name : string) : string :=
  let prefix := "[guard-hook] nw symbol gap: " in
  prefix +:+ str_take (Nat.min (String.length name) (96 - String.length prefix)) name.

Fixpoint bind_symbols (names : list string) : NM unit :=
  match names with
  | [] => mret tt
  | name :: rest =>
      _ ← (if nw_dlsym name
           then nw_modify (fun h => nw_set_init (nw_init_done h) (nw_available h) ({[name]} ∪ nw_bound h) h)
           else _ ← nw_modify (fun h => nw_set_init (nw_init_done h) (nw_available h) (nw_bound h ∖ {[name]}) h);
                nw_log_append (gap_line name));
      bind_symbols rest
  end.

Definition ensure_init : NM unit :=
  is_done ← nw_gets nw_init_done;
  if (is_done : bool) then mret tt
  else
    _ ← nw_modify (fun h => nw_set_init true (nw_available h) (nw_bound h) h);
    if negb nw_dlopen
    then nw_log_append "[guard-hook] dlopen(Network.framework) failed (D-20 — falling back to libc-only)"
    else
      _ ← nw_modify (fun h => nw_set_init (nw_init_done h) true (nw_bound h) h);
      bind_symbols NW_SYMBOLS.

(** Whether [object_getClassName] is at hand. *)
Definition resolve_object_get_class_name : NM bool :=
  bound ← nw_gets nw_class_bound;
  if (bound : bool) then mret true
  else
    n ← nw_gets nw_class_tries;
    _ ← nw_modify (nw_set_class (nw_class_sym n) (S n));
    mret (nw_class_sym n).

Definition get_hostname_from_endpoint (endpoint : N) : NM (option string) :=
  bound ← nw_gets nw_bound;
  if negb (bool_decide ("nw_endpoint_get_hostname" ∈ bound)) || bool_decide (endpoint = 0%N) then mret None
  else
    _ ← nw_modify (fun h => nw_set_trace (nw_trace h ++ [NwGetHostname endpoint]) h);
    mret (nw_hostname_of endpoint).

(** The bytes of a C string; none when there is no NUL among the first 256. *)
Definition copy_to_stack (p : option string) : option string :=
  match p with
  | None => None
  | Some s => if bool_decide (256 <= String.length s) then None else Some s
  end.

Definition do_cancel (connection : N) : NM unit :=
  bound ← nw_gets nw_bound;
  if bool_decide ("nw_connection_cancel" ∈ bound) && negb (bool_decide (connection = 0%N)) then
    _ ← nw_modify (fun h => nw_set_trace (nw_trace h ++ [NwCancel connection]) h);
    nw_log_append "[guard-hook] DENY nw_connection_start (cancelled)"
  else nw_log_append "[guard-hook] DENY nw_connection_start (cancel unavailable)".

Definition is_nw_object (ptr : N) : NM bool :=
  if bool_decide (ptr = 0%N) then mret false
  else
    ok ← resolve_object_get_class_name;
    mret (ok && match nw_class_name ptr with Some cls => starts_with cls "OS_nw_" | None => false end).

Definition extract_endpoint_hostname (connection : N) : NM (option string) :=
  if bool_decide (connection = 0%N) then mret None
  else
    bound ← nw_gets nw_bound;
    if negb (bool_decide ("nw_connection_copy_endpoint" ∈ bound)) then mret None
    else
      _ ← nw_modify (fun h => nw_set_trace (nw_trace h ++ [NwCopyEndpoint connection]) h);
      let endpoint := nw_endpoint_of connection in
      if bool_decide (endpoint = 0%N) then mret None
      else
        is_nw ← is_nw_object endpoint;
        if negb is_nw then mret None
        else
          p_host ← get_hostname_from_endpoint endpoint;
          mret (copy_to_stack p_host).

Definition decide_for_nw_connection (connection : N) : NM bool :=
  fail_closed ← nw_gets nw_fail_closed;
  if (fail_closed : bool) then mret false
  else
    host ← extract_endpoint_hostname connection;
    match host with
    | None => mret false
    | Some host_bytes =>
        allow ← nw_gets nw_allowlist;
        let '(verdict, source) := evaluate_policy host_bytes None true (default [] allow) in
        match verdict with
        | VDeny =>
            let host_str := if utf8_valid host_bytes then host_bytes else "<non-utf8>" in
            _ ← nw_log_append ("[guard-hook] DENY nw_connection_start " +:+ host_str +:+ " (" +:+ as_label source
                               +:+ ")");
            mret true
        | VAllow => mret false
        end
    end.

(** The body of the functions that only pass on: the flag is cleared after it, unless
    the call came from inside the library. *)
Definition nw_guarded {A} (nested body : NM A) : NM A :=
  _ ← ensure_init;
  was ← nw_gets nw_in_hook;
  _ ← nw_modify (nw_set_in_hook true);
  if (was : bool) then nested
  else a ← body; _ ← nw_modify (nw_set_in_hook false); mret a.

Definition nw_connection_create (endpoint parameters : N) : NM N :=
  let real := nw_real "nw_connection_create" (NwCreate endpoint parameters) (nw_created endpoint parameters) 0%N in
  nw_guarded real real.

Definition nw_connection_start (connection : N) : NM unit :=
  let real := nw_real "nw_connection_start" (NwStart connection) tt tt in
  nw_guarded real
    (is_nw ← is_nw_object connection;
     if negb is_nw then real
     else
       verdict_is_deny ← decide_for_nw_connection connection;
       if (verdict_is_deny : bool) then do_cancel connection else real).

Definition nw_connection_cancel (connection : N) : NM unit :=
  let real := nw_real "nw_connection_cancel" (NwCancel connection) tt tt in
  nw_guarded real real.

Definition nw_endpoint_get_hostname (endpoint : N) : NM (option string) :=
  let real := nw_real "nw_endpoint_get_hostname" (NwGetHostname endpoint) (nw_hostname_of endpoint) None in
  nw_guarded real real.

Definition nw_connection_copy_endpoint (connection : N) : NM N :=
  let real := nw_real "nw_connection_copy_endpoint" (NwCopyEndpoint connection) (nw_endpoint_of connection) 0%N in
  nw_guarded real real.

End Nw.

(** ** What a step leaves alone *)

(** [h'] differs from [h] at most in the log, the bindings and the class lookup. *)
Record nw_same (h h' : NwHook) : Prop := {
  ns_in_hook : nw_in_hook h' = nw_in_hook h;
  ns_fail_closed : nw_fail_closed h' = nw_fail_closed h;
  ns_allowlist : nw_allowlist h' = nw_allowlist h;
  ns_trace : nw_trace h' = nw_trace h;
}.

#[export] Instance nw_same_preorder : PreOrder nw_same.
Proof.
  split; [done|]. intros h1 h2 h3 [? ? ? ?] [? ? ? ?]. split; congruence.
Qed.

(** The calls that touch the network. *)
Definition nw_effect (c : NwCall) : bool := match c with NwCreate _ _ | NwStart _ | NwCancel _ => true | _ => false end.
Definition nw_effects (t : list NwCall) : list NwCall := filter (fun c => nw_effect c = true) t.

Lemma nw_effects_app t u : nw_effects (t ++ u) = nw_effects t ++ nw_effects u.
Proof. apply filter_app. Qed.

(** [h'] differs from [h] in what does not touch the network. *)
Record nw_quiet (h h' : NwHook) : Prop := {
  nq_in_hook : nw_in_hook h' = nw_in_hook h;
  nq_fail_closed : nw_fail_closed h' = nw_fail_closed h;
  nq_allowlist : nw_allowlist h' = nw_allowlist h;
  nq_bound : nw_bound h' = nw_bound h;
  nq_effects : nw_effects (nw_trace h') = nw_effects (nw_trace h);
}.

#[export] Instance nw_quiet_preorder : PreOrder nw_quiet.
Proof.
  split; [done|]. intros h1 h2 h3 [? ? ? ? ?] [? ? ? ? ?]. split; congruence.
Qed.

Section Laws.
Context `{NwEnv}.

Lemma bind_symbols_same names h : nw_same h (bind_symbols names h).2.
Proof.
  revert h. induction names as [|name names IH]; intros h; [done|]. cbn [bind_symbols].
  unfold mbind, nm_bind. destruct (nw_dlsym name); cbn; (etransitivity; [|apply IH]); by split.
Qed.

Lemma bind_symbols_done names h : nw_init_done (bind_symbols names h).2 = nw_init_done h.
Proof.
  revert h. induction names as [|name names IH]; intros h; [done|]. cbn [bind_symbols].
  unfold mbind, nm_bind. destruct (nw_dlsym name); cbn; by rewrite IH.
Qed.

#[local] Arguments bind_symbols : simpl never.

Lemma ensure_init_same h : nw_same h (ensure_init h).2.
Proof.
  unfold ensure_init, mbind, nm_bind. cbn. destruct (nw_init_done h); [done|].
  destruct nw_dlopen; cbn; [|by split].
  etransitivity; [|apply bind_symbols_same]. by split.
Qed.

Lemma ensure_init_once h : (ensure_init (ensure_init h).2).2 = (ensure_init h).2.
Proof.
  assert (nw_init_done (ensure_init h).2 = true) as Hd.
  { unfold ensure_init, mbind, nm_bind. cbn. destruct (nw_init_done h) eqn:E; [done|].
    destruct nw_dlopen; cbn; [|done]. by rewrite bind_symbols_done. }
  unfold ensure_init at 1. unfold mbind, nm_bind. cbn. by rewrite Hd.
Qed.

(** Whether a class name can be asked for, and is that of a framework object. *)
Definition class_ready (h : NwHook) : bool := nw_class_bound h || nw_class_sym (nw_class_tries h).
Definition os_nw (ptr : N) : bool :=
  negb (bool_decide (ptr = 0%N)) && match nw_class_name ptr with Some cls => starts_with cls "OS_nw_" | None => false end.

Lemma is_nw_object_spec ptr h :
  (is_nw_object ptr h).1 = class_ready h && os_nw ptr /\ nw_quiet h (is_nw_object ptr h).2 /\
  (class_ready h && os_nw ptr = true -> nw_class_bound (is_nw_object ptr h).2 = true).
Proof.
  unfold is_nw_object, os_nw, class_ready, resolve_object_get_class_name.
  case_bool_decide as Hp; [by rewrite andb_false_r|]. unfold mbind, nm_bind. cbn.
  destruct (nw_class_bound h) eqn:Eb; cbn; [done|].
  split; [done|]. split; [by split|]. by destruct (nw_class_sym _).
Qed.

(** The hostname the library can learn of a connection. *)
Definition nw_seen_host (bound : gset string) (connection : N) : option string :=
  let endpoint := nw_endpoint_of connection in
  if bool_decide ("nw_connection_copy_endpoint" ∈ bound) && os_nw endpoint
     && bool_decide ("nw_endpoint_get_hostname" ∈ bound)
  then copy_to_stack (nw_hostname_of endpoint) else None.

Lemma extract_spec c h : c <> 0%N -> nw_class_bound h = true ->
  (extract_endpoint_hostname c h).1 = nw_seen_host (nw_bound h) c /\
  nw_quiet h (extract_endpoint_hostname c h).2.
Proof.
  intros Hc Hb. unfold extract_endpoint_hostname, nw_seen_host. rewrite bool_decide_eq_false_2 by done.
  unfold mbind, nm_bind. cbn [nw_gets].
  case_bool_decide as Hcopy; cbn [negb andb]; [|done]. cbn [nw_modify].
  set (h1 := nw_set_trace _ h).
  assert (nw_quiet h h1) as Hq1.
  { split; try done. cbn. rewrite nw_effects_app. apply app_nil_r. }
  case_bool_decide as He.
  { unfold os_nw. rewrite (bool_decide_eq_true_2 _ He). cbn. by split. }
  destruct (is_nw_object_spec (nw_endpoint_of c) h1) as (Er & Hq2 & _).
  destruct (is_nw_object (nw_endpoint_of c) h1) as [ok h2]. cbn [fst snd] in *.
  assert (class_ready h1 = true) as Hr by (unfold class_ready; cbn; by rewrite Hb).
  rewrite Hr in Er. cbn in Er. subst ok.
  assert (nw_quiet h h2) as Hq by (by etransitivity).
  destruct (os_nw (nw_endpoint_of c)); cbn [negb]; [|by split].
  unfold get_hostname_from_endpoint, mbind, nm_bind. cbn [nw_gets].
  rewrite (nq_bound _ _ Hq). rewrite (bool_decide_eq_false_2 _ He), orb_false_r.
  case_bool_decide as Hget; cbn [negb]; [|by split].
  cbn [nw_modify mret nm_ret fst snd]. split; [done|]. etransitivity; [exact Hq|].
  split; try done. cbn. rewrite nw_effects_app. apply app_nil_r.
Qed.

(** The library's verdict on a connection, from what it can learn of it. *)
Definition nw_denied (h : NwHook) (c : N) : bool :=
  class_ready h && os_nw c && negb (nw_fail_closed h) &&
  match nw_seen_host (nw_bound h) c with
  | Some host => bool_decide ((evaluate_policy host None true (default [] (nw_allowlist h))).1 = VDeny)
  | None => false
  end.

Lemma nw_decide_spec c h : c <> 0%N -> nw_class_bound h = true ->
  (decide_for_nw_connection c h).1
  = negb (nw_fail_closed h) &&
    match nw_seen_host (nw_bound h) c with
    | Some host => bool_decide ((evaluate_policy host None true (default [] (nw_allowlist h))).1 = VDeny)
    | None => false
    end /\
  nw_quiet h (decide_for_nw_connection c h).2.
Proof.
  intros Hc Hb. unfold decide_for_nw_connection, mbind, nm_bind. cbn [nw_gets].
  destruct (nw_fail_closed h); [done|]. cbn [negb andb].
  destruct (extract_spec c h Hc Hb) as [Ee Hq].
  destruct (extract_endpoint_hostname c h) as [host h1]. cbn [fst snd] in *. subst host.
  destruct (nw_seen_host _ _) as [host|]; [|done]. rewrite (nq_allowlist _ _ Hq).
  destruct (evaluate_policy host None true _) as [[|] source]; cbn; [done|].
  split; [done|]. etransitivity; [exact Hq|]. by split.
Qed.

(** ** Properties *)


End Laws.

(** ** Examples *)

(** A framework with every symbol, where each connection goes to one host. *)
Definition toy_nw (host : string) : NwEnv := {|
  nw_dlopen := true;
  nw_dlsym := fun name => true;
  nw_class_sym := fun _ => true;
  nw_class_name := fun p => if bool_decide (p < 100)%N then Some "OS_nw_connection" else None;
  nw_endpoint_of := fun _ => 8%N;
  nw_hostname_of := fun _ => Some host;
  nw_created := fun _ _ => 7%N;
|}.

Definition toy_nw_start (nested : bool) : NwHook := mkNw nested false (Some []) [] false false ∅ false 0 [].


(** A hostname of 256 bytes or more is not looked at: the connection is started. *)
Lemma nw_long_hostname_passes `{NwEnv} (h : NwHook) (c : N) host :
  nw_hostname_of (nw_endpoint_of c) = Some host -> 256 <= String.length host -> nw_denied h c = false.
Proof.
  intros Hh Hl. unfold nw_denied, nw_seen_host. rewrite Hh. cbn [copy_to_stack].
  rewrite (bool_decide_eq_true_2 (256 <= String.length host)) by done.
  destruct (bool_decide ("nw_connection_copy_endpoint" ∈ _) && _ && _); apply andb_false_r.
Qed.
