(* ===== verification/Watcher.v ===== *)
(** * The persistence watcher of the daemon

    [crates/guard-daemon/src/persistence_watcher.rs]: the directories it opens, the
    scan that follows an event and the rows it sends.  One turn of the loop is one
    function of the tree, the event and the watcher's state.  The file system, the
    kernel's event queue and process lookups are the class [WatchEnv]; a scan is a map
    from file names to modification times, walked in an order the hash map chooses. *)

From S2P Require Import Prelude RustStr ProcessTree LogWriter HookFiles.

Class WatchEnv : Type := {
  we_home : option string;
  we_is_dir : string -> bool;
  (** The [n]-th open of a directory for events, and the [n]-th scan. *)
  we_open : nat -> string -> option Z;
  we_scan : nat -> string -> gmap string N;
  we_order : gmap string N -> list (string * N);
  (** [kill(pid, 0)] succeeds; the path of the executable of a process. *)
  we_alive : Z -> bool;
  we_process_path : Z -> option string;
  we_now : option string;
  (** Creating the queue, and registering all descriptors with it. *)
  we_queue : bool;
  we_add_many : list Z -> bool;
}.

Record WatchedDir : Type := mkWatched {
  wd_fd : Z;
  wd_path : string;
  wd_category : string;
  wd_baseline : gmap string N;
}.

Record Watcher : Type := mkWatcher {
  wt_watched : list WatchedDir;
  wt_fd_to_idx : gmap Z nat;
  wt_writer : LogWriter;
  wt_opens : nat;
  wt_scans : nat;
}.

Inductive WatchEvent : Type := WatchTimeout | WatchFds (fds : list Z) | WatchError.

Definition SHELL_PROFILES : list string :=
  [".bash_profile"; ".bashrc"; ".zshrc"; ".zshenv"; ".profile"; ".zprofile"].

Definition is_shell_profile (name : string) : bool := bool_decide (name ∈ SHELL_PROFILES).

Definition pid_t_from_u32 (pid : N) : option Z := if bool_decide (pid <= 2147483647)%N then Some (Z.of_N pid) else None.

Section Watch.
Context `{WatchEnv}.

(** The directory with its category, if it is one. *)
Definition if_dir (path category : string) : list (string * string) :=
  if we_is_dir path then [(path, category)] else [].

Definition persistence_dirs : list (string * string) :=
  match we_home with
  | Some home =>
      if_dir (path_join (path_join home "Library") "LaunchAgents") "launch-agent"
      ++ if_dir home "shell-profile"
      ++ if_dir (path_join (path_join (path_join home "Library") "Application Support")
                   "com.apple.backgroundtaskmanagementagent") "login-item"
  | None => []
  end
  ++ if_dir "/Library/LaunchAgents" "launch-agent"
  ++ if_dir "/Library/LaunchDaemons" "launch-daemon"
  ++ concat ((fun p => if_dir p "crontab") <$> ["/usr/lib/cron/tabs"; "/var/at/tabs"])
  ++ concat ((fun p => if_dir p "periodic-script") <$>
       ["/etc/periodic/daily"; "/etc/periodic/weekly"; "/etc/periodic/monthly"; "/usr/local/etc/periodic"]).

Definition persistence_dirs_with_create : list (string * string) :=
  match we_home with
  | Some home => [(path_join (path_join home "Library") "LaunchAgents", "launch-agent")]
  | None => []
  end.

(** The first tracked process that is alive. *)
Fixpoint attribute_from (pids : list (N * N)) : N * N * string :=
  match pids with
  | [] => (0%N, 0%N, "")
  | (pid, pidversion) :: rest =>
      match pid_t_from_u32 pid with
      | None => attribute_from rest
      | Some process_id =>
          if negb (we_alive process_id) then attribute_from rest
          else match we_process_path process_id with
               | Some binary => (pid, pidversion, binary)
               | None => (pid, pidversion, "")
               end
      end
  end.

Definition attribute_write (t : Tree) : N * N * string := attribute_from (list_tracked_pids t).

(** Whether a scanned file is reported. *)
Definition changed (w : WatchedDir) (file : string * N) : bool :=
  (negb (bool_decide (wd_category w = "shell-profile")) || is_shell_profile file.1)
  && match wd_baseline w !! file.1 with Some old => negb (bool_decide (file.2 <= old)%N) | None => true end.

Definition persistence_row (t : Tree) (w : WatchedDir) (run_uuid : string) (file : string * N) : JsonRow :=
  let '(pid, pidversion, binary) := attribute_write t in
  RowGap (mkGapRecord JSONL_SCHEMA_VERSION we_now run_uuid "persistence-write"
            (mkProcessCtxLog pid pidversion (if is_empty binary then [] else [binary]) "")
            (Some (path_join (wd_path w) file.1))).

Fixpoint emit_from (t : Tree) (lw : LogWriter) (w : WatchedDir) (run_uuid : string) (files : list (string * N)) :
    LogWriter :=
  match files with
  | [] => lw
  | file :: rest =>
      emit_from t (if changed w file then send lw (persistence_row t w run_uuid file) else lw) w run_uuid rest
  end.

Definition emit_persistence_gaps (t : Tree) (lw : LogWriter) (w : WatchedDir) (new_scan : gmap string N)
    (run_uuid : string) : LogWriter :=
  emit_from t lw w run_uuid (we_order new_scan).

Definition set_baseline (w : WatchedDir) (b : gmap string N) : WatchedDir :=
  mkWatched (wd_fd w) (wd_path w) (wd_category w) b.

(** [None] is an index out of bounds. *)
Fixpoint handle_persistence_events (t : Tree) (s : Watcher) (event_fds : list Z) (active_run_uuid : option string) :
    option Watcher :=
  match event_fds with
  | [] => Some s
  | fd :: rest =>
      match wt_fd_to_idx s !! fd with
      | None => handle_persistence_events t s rest active_run_uuid
      | Some idx =>
          match wt_watched s !! idx with
          | None => None
          | Some w =>
              let new_scan := we_scan (wt_scans s) (wd_path w) in
              let lw := match active_run_uuid with
                        | Some run_uuid => emit_persistence_gaps t (wt_writer s) w new_scan run_uuid
                        | None => wt_writer s
                        end in
              handle_persistence_events t
                (mkWatcher (<[idx := set_baseline w new_scan]> (wt_watched s)) (wt_fd_to_idx s) lw (wt_opens s)
                   (S (wt_scans s))) rest active_run_uuid
          end
      end
  end.

Definition open_watch (s : Watcher) (path category : string) : option WatchedDir * Watcher :=
  let s1 := mkWatcher (wt_watched s) (wt_fd_to_idx s) (wt_writer s) (S (wt_opens s)) (wt_scans s) in
  match we_open (wt_opens s) path with
  | None => (None, s1)
  | Some fd =>
      (Some (mkWatched fd path category (we_scan (wt_scans s) path)),
       mkWatcher (wt_watched s1) (wt_fd_to_idx s1) (wt_writer s1) (wt_opens s1) (S (wt_scans s1)))
  end.

(** Whether some indexed directory has this path; [None] is an index out of bounds. *)
Definition watches_path (s : Watcher) (path : string) : bool :=
  existsb (fun kv => match wt_watched s !! kv.2 with Some w => bool_decide (wd_path w = path) | None => false end)
    (map_to_list (wt_fd_to_idx s)).

Fixpoint add_watches (s : Watcher) (dirs : list (string * string)) : Watcher :=
  match dirs with
  | [] => s
  | (path, category) :: rest =>
      if watches_path s path then add_watches s rest
      else match open_watch s path category with
           | (None, s1) => add_watches s1 rest
           | (Some w, s1) =>
               add_watches (mkWatcher (wt_watched s1 ++ [w]) (<[wd_fd w := length (wt_watched s1)]> (wt_fd_to_idx s1))
                              (wt_writer s1) (wt_opens s1) (wt_scans s1)) rest
           end
  end.

Definition add_new_persistence_watches (s : Watcher) : Watcher := add_watches s persistence_dirs_with_create.

(** The directories that open, in order. *)
Fixpoint open_all (s : Watcher) (dirs : list (string * string)) : Watcher :=
  match dirs with
  | [] => s
  | (path, category) :: rest =>
      match open_watch s path category with
      | (None, s1) => open_all s1 rest
      | (Some w, s1) =>
          open_all (mkWatcher (wt_watched s1 ++ [w]) (wt_fd_to_idx s1) (wt_writer s1) (wt_opens s1) (wt_scans s1)) rest
      end
  end.

(** [enumerate] collected into a map: a later directory replaces an earlier one of the
    same descriptor. *)
Definition index_fds (l : list WatchedDir) : gmap Z nat :=
  foldl (fun m '(i, w) => <[wd_fd w := i]> m) ∅ (imap (fun i w => (i, w)) l).

(** [run_watcher] up to its loop: nothing when there is nothing to watch, an error
    when the directories cannot be registered. *)
Definition start_watcher (lw : LogWriter) : result (option Watcher) string :=
  let s0 := mkWatcher [] ∅ lw 0 0 in
  match persistence_dirs with
  | [] => Ok None
  | dirs =>
      if negb we_queue then Ok None
      else
        let s := open_all s0 dirs in
        match wt_watched s with
        | [] => Ok None
        | _ =>
            if negb (we_add_many (wd_fd <$> wt_watched s)) then Err "register"
            else Ok (Some (mkWatcher (wt_watched s) (index_fds (wt_watched s)) (wt_writer s) (wt_opens s) (wt_scans s)))
        end
  end.

(** One turn of the loop: whether it goes on, and the state; [None] is a panic. *)
Definition watcher_turn (t : Tree) (s : Watcher) (ev : WatchEvent) : option (bool * Watcher) :=
  match ev with
  | WatchError => Some (false, s)
  | WatchTimeout => Some (true, add_new_persistence_watches s)
  | WatchFds [] => Some (true, s)
  | WatchFds fds =>
      s' ← handle_persistence_events t s fds (rr_run_uuid <$> head (list_runs t));
      Some (true, s')
  end.

Fixpoint watcher_run (s : Watcher) (evs : list (Tree * WatchEvent)) : option Watcher :=
  match evs with
  | [] => Some s
  | (t, ev) :: rest =>
      match watcher_turn t s ev with
      | Some (true, s') => watcher_run s' rest
      | Some (false, s') => Some s'
      | None => None
      end
  end.

End Watch.

(** ** The index of descriptors *)

(** Every indexed descriptor is that of a directory in the table. *)
Definition index_ok (s : Watcher) : Prop :=
  forall fd idx, wt_fd_to_idx s !! fd = Some idx -> exists w, wt_watched s !! idx = Some w /\ wd_fd w = fd.

Section Laws.
Context `{WatchEnv}.

Lemma emit_from_rows t lw w u files :
  emit_from t lw w u files = foldl send lw (persistence_row t w u <$> filter (fun f => changed w f = true) files).
Proof.
  revert lw. induction files as [|f files IH]; intros lw; [done|]. cbn [emit_from]. rewrite IH.
  destruct (changed w f) eqn:E.
  - by rewrite filter_cons_True.
  - by rewrite filter_cons_False by congruence.
Qed.

(** A file that is in the baseline with the same time is not reported. *)
Lemma changed_same w name mtime : wd_baseline w !! name = Some mtime -> changed w (name, mtime) = false.
Proof. intros E. unfold changed. cbn. rewrite E, (bool_decide_eq_true_2 (mtime <= mtime)%N) by lia. apply andb_false_r. Qed.

Lemma list_filter_none {A} (f : A -> bool) (l : list A) :
  (forall x, x ∈ l -> f x = false) -> filter (fun x => f x = true) l = [].
Proof.
  induction l as [|x l IH]; intros Hf; [done|]. rewrite filter_cons_False.
  - apply IH. intros y Hy. apply Hf. by right.
  - rewrite Hf; [done|]. by left.
Qed.

Lemma length_filter_map (P : string * N -> Prop) `{!forall x, Decision (P x)} (m : gmap string N) :
  length (filter P (map_to_list m)) = size (filter P m).
Proof.
  rewrite map_filter_alt. symmetry. apply map_size_list_to_map.
  eapply sublist_NoDup; [apply (NoDup_fst_map_to_list m)|]. apply fmap_sublist, sublist_filter.
Qed.

Lemma open_watch_keeps s path cat :
  wt_watched (open_watch s path cat).2 = wt_watched s /\
  wt_fd_to_idx (open_watch s path cat).2 = wt_fd_to_idx s /\
  wt_writer (open_watch s path cat).2 = wt_writer s.
Proof. unfold open_watch. by destruct (we_open _ _). Qed.

(** Events rescan a directory in place: descriptors stay where they are. *)
Lemma handle_events_ok t u fds s : index_ok s ->
  exists s', handle_persistence_events t s fds u = Some s' /\ index_ok s' /\ wt_fd_to_idx s' = wt_fd_to_idx s.
Proof.
  revert s. induction fds as [|fd fds IH]; intros s Hok; [by exists s|]. cbn [handle_persistence_events].
  destruct (wt_fd_to_idx s !! fd) as [idx|] eqn:Ei; [|by apply IH].
  destruct (Hok fd idx Ei) as (w & Ew & Hw). rewrite Ew. cbv zeta.
  match goal with |- exists s', handle_persistence_events t ?s1 fds u = _ /\ _ => destruct (IH s1) as (s' & E & Hs' & Hm) end.
  - intros fd' idx' Ei'. cbn in *. destruct (Hok _ _ Ei') as (w' & Ew' & Hw').
    destruct (decide (idx' = idx)) as [->|Hne].
    + exists (set_baseline w (we_scan (wt_scans s) (wd_path w))).
      rewrite list_lookup_insert_eq by (by eapply lookup_lt_Some). split; [done|]. cbn. congruence.
    + exists w'. by rewrite list_lookup_insert_ne.
  - by exists s'.
Qed.

Lemma add_watches_ok dirs s : index_ok s -> index_ok (add_watches s dirs).
Proof.
  revert s. induction dirs as [|[path cat] dirs IH]; intros s Hok; [done|]. cbn [add_watches].
  destruct (watches_path s path); [by apply IH|].
  destruct (open_watch_keeps s path cat) as (Ew & Ef & _).
  destruct (open_watch s path cat) as [[w|] s1]; cbn in Ew, Ef; apply IH; intros fd idx; cbn; rewrite Ef, Ew.
  - intros [[<- <-]|[Hne Hi]]%lookup_insert_Some.
    + exists w. by rewrite list_lookup_middle.
    + destruct (Hok _ _ Hi) as (w' & Hw' & Hfd). exists w'. split; [|done].
      by apply lookup_app_l_Some.
  - apply Hok.
Qed.

Lemma index_fds_ok (l : list WatchedDir) fd idx :
  index_fds l !! fd = Some idx -> exists w, l !! idx = Some w /\ wd_fd w = fd.
Proof.
  unfold index_fds. induction l as [|w l IH] using rev_ind; [cbn; by rewrite lookup_empty|].
  rewrite imap_app, foldl_app. cbn [imap foldl]. intros [[<- <-]|[_ Hi]]%lookup_insert_Some.
  - exists w. rewrite lookup_app_r by lia. split; [|done]. by replace (length l + 0 - length l) with 0 by lia.
  - destruct (IH Hi) as (w' & Hw & Hfd). exists w'. split; [|done]. by apply lookup_app_l_Some.
Qed.

Lemma start_watcher_ok lw s : start_watcher lw = Ok (Some s) -> index_ok s.
Proof.
  unfold start_watcher. destruct persistence_dirs; [done|]. destruct we_queue; [|done]. cbn [negb].
  destruct (wt_watched (open_all _ _)) eqn:E; [done|]. destruct (we_add_many _); [|done]. intros [= <-].
  intros fd idx. cbn [wt_fd_to_idx wt_watched]. apply index_fds_ok.
Qed.

(** ** Properties *)

(** Once the watcher has started it never indexes out of bounds, whatever events
    arrive in whatever order and whatever directories are added meanwhile, and its
    index keeps pointing at the directory of each descriptor. *)
Theorem watcher_never_faults (lw : LogWriter) (s : Watcher) (evs : list (Tree * WatchEvent)) :
  start_watcher lw = Ok (Some s) -> exists s', watcher_run s evs = Some s' /\ index_ok s'.
Proof.
  intros Hs%start_watcher_ok. revert s Hs.
  induction evs as [|[t ev] evs IH]; intros s Hok; [by exists s|]. cbn [watcher_run].
  destruct ev as [|fds|]; cbn [watcher_turn].
  - apply IH. by apply add_watches_ok.
  - destruct fds as [|fd fds]; [by apply IH|].
    destruct (handle_events_ok t (rr_run_uuid <$> head (list_runs t)) (fd :: fds) s Hok) as (s' & -> & Hok' & _).
    cbn. by apply IH.
  - by exists s.
Qed.

(** While a run is active an event of a watched directory sends exactly one row,
    in the run's name, for each file that is new or newer than at the last scan (for
    the home directory, each shell profile), and takes the scan as the new baseline,
    so a second event that finds the same files sends nothing. *)
Theorem persistence_write_reported (t : Tree) (s : Watcher) (fd : Z) (idx : nat) (w : WatchedDir) (u : string) :
  wt_fd_to_idx s !! fd = Some idx -> wt_watched s !! idx = Some w ->
  rr_run_uuid <$> head (list_runs t) = Some u ->
  (forall m, we_order m ≡ₚ map_to_list m) ->
  let scan := we_scan (wt_scans s) (wd_path w) in
  let rows := persistence_row t w u <$> filter (fun f => changed w f = true) (we_order scan) in
  exists s', watcher_turn t s (WatchFds [fd]) = Some (true, s') /\
    wt_writer s' = foldl send (wt_writer s) rows /\
    length rows = size (filter (fun f => changed w f = true) scan) /\
    (we_scan (wt_scans s') (wd_path w) = scan ->
     exists s'', watcher_turn t s' (WatchFds [fd]) = Some (true, s'') /\ wt_writer s'' = wt_writer s').
Proof.
  intros Hi Hw Hu Ho scan rows. cbn [watcher_turn].
  rewrite Hu. cbn [handle_persistence_events]. rewrite Hi, Hw. cbv zeta. fold scan. eexists.
  split; [reflexivity|]. cbn [wt_writer wt_scans wt_fd_to_idx wt_watched].
  unfold emit_persistence_gaps. rewrite emit_from_rows. split; [done|]. split.
  { unfold rows. rewrite length_fmap, <- length_filter_map. by rewrite (Ho scan). }
  intros Hsame. cbn [handle_persistence_events wt_fd_to_idx wt_watched].
  rewrite Hi, list_lookup_insert_eq by (by eapply lookup_lt_Some). cbv zeta. eexists.
  split; [reflexivity|]. cbn [wt_writer wt_scans wd_path set_baseline].
  unfold emit_persistence_gaps. rewrite emit_from_rows, Hsame.
  rewrite (list_filter_none (changed (set_baseline w scan)) (we_order scan)); [done|].
  intros [name mtime] Hin. rewrite (Ho scan) in Hin. apply elem_of_map_to_list in Hin.
  rewrite changed_same; done.
Qed.

End Laws.

(** ** The table of the library and the directories of the watcher *)

Lemma ends_with_app (s t p : string) : String.length p <= String.length t -> ends_with (s +:+ t) p = ends_with t p.
Proof.
  intros Hl. induction s as [|a s IH]; [by rewrite app_nil_l_str|]. rewrite app_cons_str. cbn [ends_with].
  rewrite IH. rewrite bool_decide_eq_false_2; [done|]. intros E. apply (f_equal String.length) in E.
  cbn in E. rewrite length_app_str in E. lia.
Qed.

Lemma path_join_plain (a b : string) :
  a <> "" -> ends_with a "/" = false -> path_is_absolute b = false -> path_join a b = a +:+ "/" +:+ b.
Proof. intros Ha He Hb. unfold path_join. rewrite Hb, He. by destruct a. Qed.

Lemma starts_with_home_then_inv path home suffix :
  starts_with_home_then path home suffix = true -> exists r, path = home +:+ suffix +:+ r.
Proof.
  unfold starts_with_home_then. destruct (is_empty home); [done|].
  destruct (starts_with path home) eqn:E; [|done]. cbn [negb].
  apply starts_with_true in E as [r ->]. rewrite str_drop_app. intros [q ->]%starts_with_true. by exists q.
Qed.

Section Cover.
Context `{WatchEnv} (home : string).
Context (Hhome : we_home = Some home) (Hne : home <> "") (Hend : ends_with home "/" = false).
Context (Hdirs : forall d, we_is_dir d = true).

Lemma home_library : path_join home "Library" = home +:+ "/Library".
Proof using Hne Hend. rewrite path_join_plain by done. done. Qed.

Lemma under_library (name : string) :
  path_is_absolute name = false -> path_join (home +:+ "/Library") name = home +:+ "/Library/" +:+ name.
Proof.
  intros Hn. rewrite path_join_plain; [by rewrite app_assoc_str| |by rewrite ends_with_app by (cbn; lia)|done].
  intros E%(f_equal String.length). rewrite length_app_str in E. cbn in E. lia.
Qed.

Lemma persistence_dirs_all :
  persistence_dirs =
    [(home +:+ "/Library/LaunchAgents", "launch-agent"); (home, "shell-profile");
     (home +:+ "/Library/Application Support/com.apple.backgroundtaskmanagementagent", "login-item");
     ("/Library/LaunchAgents", "launch-agent"); ("/Library/LaunchDaemons", "launch-daemon");
     ("/usr/lib/cron/tabs", "crontab"); ("/var/at/tabs", "crontab");
     ("/etc/periodic/daily", "periodic-script"); ("/etc/periodic/weekly", "periodic-script");
     ("/etc/periodic/monthly", "periodic-script"); ("/usr/local/etc/periodic", "periodic-script")].
Proof using Hhome Hne Hend Hdirs.
  unfold persistence_dirs, if_dir. rewrite Hhome, !Hdirs. cbn [fmap list_fmap]. rewrite !Hdirs.
  rewrite home_library, !under_library by done.
  rewrite (path_join_plain (home +:+ "/Library/" +:+ "Application Support")); [|..|done].
  - rewrite !app_assoc_str. reflexivity.
  - by destruct home.
  - change ("/Library/" +:+ "Application Support") with "/Library/Application Support".
    by rewrite ends_with_app by (cbn; lia).
Qed.

(** On macOS 13 and later every path the library classifies as a persistence path
    lies below a directory the watcher opens, under the same category, when those
    directories exist. *)
Theorem library_paths_watched (path c : string) (macos_major : N) :
  (13 <= macos_major)%N -> classify_persistence_path_with_version path home macos_major = Some c ->
  exists d, (d, c) ∈ persistence_dirs /\ exists r, path = d +:+ "/" +:+ r.
Proof using Hhome Hne Hend Hdirs.
  intros Hm. rewrite persistence_dirs_all. unfold classify_persistence_path_with_version.
  rewrite (bool_decide_eq_true_2 (13 <= macos_major)%N), (bool_decide_eq_false_2 (macos_major < 13)%N) by lia.
  cbn [andb].
  assert (forall suf b d r, path = home +:+ suf +:+ r -> home +:+ suf = b +:+ d +:+ "/" ->
            exists r, path = (b +:+ d) +:+ "/" +:+ r) as Hh.
  { intros suf b d r -> E. exists r. rewrite <- app_assoc_str, E. by rewrite !app_assoc_str. }
  assert (forall suf rest, starts_with_home_then path home suf = true -> suf = "/" +:+ rest ->
            exists r, path = home +:+ "/" +:+ r) as Hp.
  { intros suf rest E ->. apply starts_with_home_then_inv in E as [r ->]. exists (rest +:+ r). by rewrite app_assoc_str. }
  assert (forall suf d, starts_with path suf = true -> suf = d +:+ "/" -> exists r, path = d +:+ "/" +:+ r) as Hs.
  { intros suf d E ->. apply starts_with_true in E as [r ->]. exists r. by rewrite app_assoc_str. }
  destruct (starts_with_home_then path home "/Library/LaunchAgents/") eqn:E1.
  { intros [= <-]. exists (home +:+ "/Library/LaunchAgents"). split; [by apply (list_elem_of_lookup_2 _ 0)|]. apply starts_with_home_then_inv in E1 as [r ->]. exists r.
    by rewrite !app_assoc_str. }
  destruct (starts_with path "/Library/LaunchAgents/") eqn:E2.
  { intros [= <-]. exists "/Library/LaunchAgents". split; [by apply (list_elem_of_lookup_2 _ 3)|]. by eapply Hs. }
  destruct (starts_with path "/Library/LaunchDaemons/") eqn:E3.
  { intros [= <-]. exists "/Library/LaunchDaemons". split; [by apply (list_elem_of_lookup_2 _ 4)|]. by eapply Hs. }
  destruct (starts_with_home_then path home
    "/Library/Application Support/com.apple.backgroundtaskmanagementagent/") eqn:E4.
  { intros [= <-]. exists (home +:+ "/Library/Application Support/com.apple.backgroundtaskmanagementagent").
    split; [by apply (list_elem_of_lookup_2 _ 2)|]. apply starts_with_home_then_inv in E4 as [r ->]. exists r.
    by rewrite !app_assoc_str. }
  match goal with |- (if ?b then _ else _) = _ -> _ => destruct b eqn:E5 end.
  { intros [= <-]. apply orb_true_iff in E5 as [E5|E5].
    - exists "/usr/lib/cron/tabs". split; [by apply (list_elem_of_lookup_2 _ 5)|]. by eapply Hs.
    - exists "/var/at/tabs". split; [by apply (list_elem_of_lookup_2 _ 6)|]. by eapply Hs. }
  match goal with |- (if ?b then _ else _) = _ -> _ => destruct b eqn:E6 end.
  { intros [= <-]. repeat (apply orb_true_iff in E6 as [E6|E6]).
    - exists "/etc/periodic/daily". split; [by apply (list_elem_of_lookup_2 _ 7)|]. by eapply Hs.
    - exists "/etc/periodic/weekly". split; [by apply (list_elem_of_lookup_2 _ 8)|]. by eapply Hs.
    - exists "/etc/periodic/monthly". split; [by apply (list_elem_of_lookup_2 _ 9)|]. by eapply Hs.
    - exists "/usr/local/etc/periodic". split; [by apply (list_elem_of_lookup_2 _ 10)|]. by eapply Hs. }
  match goal with |- (if ?b then _ else _) = _ -> _ => destruct b eqn:E7 end; [|done]. intros [= <-]. exists home. split; [by apply (list_elem_of_lookup_2 _ 1)|].
  repeat (apply orb_true_iff in E7 as [E7|E7]); (eapply Hp; [exact E7|reflexivity]).
Qed.

End Cover.

(** ** Behaviour the findings name *)

(** What a directory holds when it is first watched is its baseline: a file written
    before is not reported by a later event, unless it is modified again. *)
Lemma file_before_watch_unreported `{WatchEnv} (s : Watcher) (path category : string) (w : WatchedDir)
    (name : string) (mtime : N) :
  (open_watch s path category).1 = Some w ->
  we_scan (wt_scans s) path !! name = Some mtime -> changed w (name, mtime) = false.
Proof.
  unfold open_watch. destruct (we_open _ _); [|done]. intros [= <-] Hn. by apply changed_same.
Qed.

(** Before macOS 13 the library knows the login items file, in a directory that is not
    watched. *)
Lemma old_login_items_unwatched `{WatchEnv} :
  we_home = Some "/Users/dev" -> (forall d, we_is_dir d = true) ->
  let path := "/Users/dev/Library/Preferences/com.apple.loginitems.plist" in
  classify_persistence_path_with_version path "/Users/dev" 12 = Some "login-item" /\
  forall d, (d, "login-item") ∈ persistence_dirs -> starts_with path (d +:+ "/") = false.
Proof.
  intros Hh Hd path. split; [vm_compute; reflexivity|]. intros d.
  rewrite (persistence_dirs_all "/Users/dev") by done. intros Hin.
  set_unfold in Hin. destruct Hin as [E|[E|[E|[E|[E|[E|[E|[E|[E|[E|[E|[]]]]]]]]]]]];
    pose proof (f_equal snd E) as E2; cbn in E2; try discriminate E2.
  apply (f_equal fst) in E. cbn in E. subst d. vm_compute. reflexivity.
Qed.

(** ** Examples *)

Definition toy_watch : WatchEnv := {|
  we_home := Some "/Users/dev";
  we_is_dir := fun _ => true;
  we_open := fun n _ => Some (Z.of_nat n + 10)%Z;
  we_scan := fun n _ => if bool_decide (n < 11) then {[ ".zshrc" := 5%N ]}
                        else {[ ".zshrc" := 9%N; ".npmrc" := 9%N ]};
  we_order := map_to_list;
  we_alive := fun _ => true;
  we_process_path := fun _ => Some "/usr/bin/node";
  we_now := None;
  we_queue := true;
  we_add_many := fun _ => true;
|}.

Definition toy_lw : LogWriter := mkLogWriter [] true 0 0 0 0 ∅.

Definition toy_watching : Watcher :=
  match @start_watcher toy_watch toy_lw with Ok (Some s) => s | _ => mkWatcher [] ∅ toy_lw 0 0 end.

Definition toy_run_tree : Tree :=
  insert_run (insert_root new_tree tok_a "run-1" "/bin/sh").1 (mkRun "run-1" tok_a "" "" true false).

Lemma watcher_never_faults_witness :
  exists s', @watcher_run toy_watch toy_watching [(toy_run_tree, WatchFds [11; 99]%Z); (toy_run_tree, WatchTimeout)]
             = Some s' /\ length (w_queue (wt_writer s')) = 1.
Proof.
  destruct (@watcher_never_faults toy_watch toy_lw toy_watching
              [(toy_run_tree, WatchFds [11; 99]%Z); (toy_run_tree, WatchTimeout)]) as (s' & E & _).
  - vm_compute. reflexivity.
  - exists s'. split; [exact E|].
    assert (option_map (fun s => length (w_queue (wt_writer s)))
      (@watcher_run toy_watch toy_watching [(toy_run_tree, WatchFds [11; 99]%Z); (toy_run_tree, WatchTimeout)])
      = Some 1) as Hq by (vm_compute; reflexivity).
    rewrite E in Hq. injection Hq as Hq. exact Hq.
Defined.

Lemma persistence_write_reported_witness :
  exists s', @watcher_turn toy_watch toy_run_tree toy_watching (WatchFds [11%Z]) = Some (true, s') /\
    length (w_queue (wt_writer s')) = 1.
Proof.
  destruct (@persistence_write_reported toy_watch toy_run_tree toy_watching 11 1
              (mkWatched 11 "/Users/dev" "shell-profile" {[ ".zshrc" := 5%N ]}) "run-1") as (s' & E & Hw & _ & _).
  - vm_compute. reflexivity.
  - vm_compute. reflexivity.
  - vm_compute. reflexivity.
  - intros m. reflexivity.
  - exists s'. split; [exact E|]. rewrite Hw. vm_compute. reflexivity.
Defined.

Lemma library_paths_watched_witness :
  exists d, (d, "shell-profile") ∈ @persistence_dirs toy_watch /\ exists r, "/Users/dev/.zshrc" = d +:+ "/" +:+ r.
Proof.
  apply (@library_paths_watched toy_watch "/Users/dev" eq_refl ltac:(discriminate) eq_refl (fun _ => eq_refl)
           "/Users/dev/.zshrc" "shell-profile" 14).
  - vm_compute. discriminate.
  - vm_compute. reflexivity.
Defined.
