(* ===== verification/Admin.v ===== *)
(** * Status, baseline and install-artifact handlers

    [crates/guard-daemon/src/handlers/status.rs], [baseline_commit.rs],
    [read_install_artifacts.rs], [delete_install_artifacts.rs] and
    [install_artifacts.rs].  The table of artifacts is a list in the order of its
    rowids with one row per kind and path; statements may fail as class [SqlEngine]
    says. *)

From S2P Require Import Prelude RustStr ProcessTree RuleStore Prompt LogWriter Messages Events.

(** ** messages.rs *)

(** The two constructors the replies share. *)
Inductive Rep (A : Type) : Type :=
| RepOk (schema_version : N) (value : A)
| RepErr (schema_version : N) (message : string).
Arguments RepOk {A} _ _.
Arguments RepErr {A} _ _.

Inductive DaemonStateKind : Type := Degraded | Operational.

#[export] Instance DaemonStateKind_eq_dec : EqDecision DaemonStateKind.
Proof. solve_decision. Defined.

Record TrackedRootInfo : Type := mkRootInfo {
  ti_run_uuid : string;
  ti_audit_token : AuditTokenWire;
  ti_argv : list string;
  ti_started_at_ms : N;
}.

Record StatusCounters : Type := mkStatusCounters {
  sc_rules_user : Z;
  sc_blocks_today : N;
  sc_allows_today : N;
  sc_gaps_today : N;
}.

Record InstallArtifact : Type := mkArtifact {
  ia_artifact_kind : string;
  ia_target_path : string;
  ia_installed_at_ms : N;
  ia_content_hash : option string;
  ia_guard_version : string;
}.

Record InstallInfo : Type := mkInstallInfo {
  ii_version : string;
  ii_installed_at_ms : N;
  ii_artifacts : list InstallArtifact;
}.

Record SigningInfo : Type := mkSigningInfo {
  si_configured : bool;
  si_status : string;
  si_signer_kind : option string;
  si_fingerprint : option string;
  si_trust_root_path : option string;
  si_trust_root_ok : bool;
  si_reason : option string;
  si_action : option string;
}.

Record StatusOk : Type := mkStatusOk {
  so_daemon_state : DaemonStateKind;
  so_tracked_roots : list TrackedRootInfo;
  so_recent_gaps : list GapInfo;
  so_counters : StatusCounters;
  so_install_info : option InstallInfo;
  so_signing_info : option SigningInfo;
}.

Definition StatusReply : Type := Rep StatusOk.
Definition ReadInstallArtifactsReply : Type := Rep (list InstallArtifact).
Definition BaselineCommitReply : Type := Rep (list ProposedRule).
Definition DeleteInstallArtifactsReply : Type := Rep N.
(** The process id and the seconds since the start. *)
Definition PingReply : Type := Rep (N * N).

(** ** install_artifacts.rs *)

(** A row as stored; the time is a signed column. *)
Record ArtifactRow : Type := mkArtifactRow {
  ar_artifact_kind : string;
  ar_target_path : string;
  ar_content_hash : option string;
  ar_installed_at : Z;
  ar_guard_version : string;
}.

Abbreviation Artifacts := (list ArtifactRow).

Definition installed_at_ms_from_sql (installed_at : Z) : result N RuleStoreError :=
  if bool_decide (0 <= installed_at)%Z then Ok (Z.to_N installed_at)
  else Err (Sql ("Integer " +:+ pretty installed_at +:+ " out of range at index 3")).

Definition artifact_of_row (r : ArtifactRow) : result InstallArtifact RuleStoreError :=
  let? ms := installed_at_ms_from_sql (ar_installed_at r) in
  Ok (mkArtifact (ar_artifact_kind r) (ar_target_path r) ms (ar_content_hash r) (ar_guard_version r)).

Definition same_key (kind path : string) (r : ArtifactRow) : bool :=
  bool_decide (ar_artifact_kind r = kind) && bool_decide (ar_target_path r = path).

Definition installed_le (a b : ArtifactRow) : Prop := (ar_installed_at a <= ar_installed_at b)%Z.

#[export] Instance installed_le_dec a b : Decision (installed_le a b).
Proof. unfold installed_le. apply _. Defined.

Section Store.
Context `{SqlEngine}.

(** [ORDER BY installed_at ASC]; rows of one time stay in the order of the table. *)
Definition list_all (t : Artifacts) : result (list InstallArtifact) RuleStoreError :=
  let? _ := stmt "select install_artifacts" in
  collect_results (artifact_of_row <$> merge_sort installed_le t).

(** A replaced row is deleted and inserted again at the end. *)
Definition artifact_insert (t : Artifacts) (kind path : string) (hash : option string) (version : string) (now : Z) :
    Artifacts * result unit RuleStoreError :=
  match stmt "insert install_artifacts" with
  | Err e => (t, Err e)
  | Ok _ => (filter (fun r => same_key kind path r = false) t ++ [mkArtifactRow kind path hash now version], Ok tt)
  end.

Definition artifact_delete (t : Artifacts) (kind path : string) : Artifacts * result nat RuleStoreError :=
  match stmt "delete install_artifact" with
  | Err e => (t, Err e)
  | Ok _ => (filter (fun r => same_key kind path r = false) t, Ok (length (filter (fun r => same_key kind path r = true) t)))
  end.

Definition delete_by_kind (t : Artifacts) (kind : string) : Artifacts * result nat RuleStoreError :=
  match stmt ("delete install_artifacts " +:+ kind) with
  | Err e => (t, Err e)
  | Ok _ => (filter (fun r => ar_artifact_kind r <> kind) t, Ok (length (filter (fun r => ar_artifact_kind r = kind) t)))
  end.

Definition delete_all (t : Artifacts) : Artifacts * result nat RuleStoreError :=
  match stmt "delete all install_artifacts" with
  | Err e => (t, Err e)
  | Ok _ => ([], Ok (length t))
  end.

(** ** Handlers *)

Definition handle_read_install_artifacts (t : Artifacts) : ReadInstallArtifactsReply :=
  match list_all t with
  | Ok artifacts => RepOk SCHEMA_V3 artifacts
  | Err e => RepErr SCHEMA_V3 ("install_artifacts read: " +:+ show_store_error e)
  end.

Definition U64_MAX : N := 18446744073709551615.
Definition saturating_add (a b : N) : N := N.min (a + b) U64_MAX.

Fixpoint delete_kinds (t : Artifacts) (kinds : list string) (total : N) : Artifacts * DeleteInstallArtifactsReply :=
  match kinds with
  | [] => (t, RepOk SCHEMA_V3 total)
  | kind :: rest =>
      match delete_by_kind t kind with
      | (t', Ok n) => delete_kinds t' rest (saturating_add total (N.of_nat n))
      | (t', Err e) => (t', RepErr SCHEMA_V3 ("delete_by_kind(" +:+ kind +:+ "): " +:+ show_store_error e))
      end
  end.

Definition handle_delete_install_artifacts (t : Artifacts) (kinds : list string) :
    Artifacts * DeleteInstallArtifactsReply := delete_kinds t kinds 0.

End Store.

Definition handle_baseline_commit (t : Tree) (staging : Staging) (run_uuid : string) : Staging * BaselineCommitReply :=
  match get_run t run_uuid with
  | None => (staging, RepErr SCHEMA_V3 ("no run record for " +:+ run_uuid))
  | Some _ =>
      let '(staging', proposed) := staging_take staging run_uuid in
      (staging', RepOk SCHEMA_V3 (default [] proposed))
  end.

Definition ONE_DAY_MS : N := 86400000.

(** Subtraction on [N] is the saturating one. *)
Definition compute_daemon_state (recent_gaps : list GapInfo) (snapshot_failed : bool) (now_ms : N) : DaemonStateKind :=
  let recent_gap_within_24h :=
    existsb (fun g => bool_decide (now_ms - gi_detected_at_ms g < ONE_DAY_MS)%N) recent_gaps in
  if recent_gap_within_24h || snapshot_failed then Degraded else Operational.

Definition signing_info (s : RuleSigningStatus) : SigningInfo :=
  mkSigningInfo (ss_configured s) (ss_status s) (ss_signer_kind s) (ss_fingerprint s) (ss_trust_root_path s)
    (ss_trust_root_ok s) (ss_reason s) (ss_action s).

(** [version] is that of the build. *)
Definition handle_status `{SqlEngine, TrustFs} (t : Tree) (recent_gaps : list GapInfo) (w : LogWriter) (st : RuleStore)
    (artifacts : Artifacts) (snapshot_failed : bool) (version : string) (now_ms : N) : StatusReply :=
  let tracked_roots :=
    (fun run => mkRootInfo (rr_run_uuid run) (wire_of_token (rr_tracked_root run)) [] 0) <$> list_runs t in
  let '(blocks, allows, gaps) := counters_snapshot w in
  let counters := mkStatusCounters (match count_user_rules st with Ok n => n | Err _ => 0%Z end) blocks allows gaps in
  let install_info :=
    match list_all artifacts with
    | Ok ((a :: rest) as l) =>
        Some (mkInstallInfo version (foldr N.min (ia_installed_at_ms a) (ia_installed_at_ms <$> rest)) l)
    | _ => None
    end in
  let signing_status := rule_signing_status st in
  let signing_problem := negb (ss_configured signing_status) in
  let daemon_state := compute_daemon_state recent_gaps (snapshot_failed || signing_problem) now_ms in
  RepOk SCHEMA_V3 (mkStatusOk daemon_state tracked_roots recent_gaps counters install_info
                     (Some (signing_info signing_status))).

(** ** Properties *)

Lemma list_filter_all {A} (P : A -> Prop) `{!forall x, Decision (P x)} (l : list A) :
  (forall x, x ∈ l -> P x) -> filter P l = l.
Proof.
  induction l as [|x l IH]; intros Hl; [done|]. rewrite filter_cons_True by (apply Hl; by left).
  f_equal. apply IH. intros y Hy. apply Hl. by right.
Qed.

Lemma filter_split_length {A} (P : A -> Prop) `{!forall x, Decision (P x)} (l : list A) :
  length (filter (fun x => ~ P x) l) + length (filter P l) = length l.
Proof.
  induction l as [|x l IH]; [done|]. destruct (decide (P x)).
  - rewrite filter_cons_False by naive_solver. rewrite filter_cons_True by done. cbn. lia.
  - rewrite filter_cons_True by done. rewrite filter_cons_False by done. cbn. lia.
Qed.

Lemma delete_kinds_spec `{SqlEngine} (t : Artifacts) (kinds : list string) (total : N) t' n :
  (total <= U64_MAX)%N -> delete_kinds t kinds total = (t', RepOk SCHEMA_V3 n) ->
  t' = filter (fun r => ar_artifact_kind r ∉ kinds) t /\
  n = N.min (total + N.of_nat (length t - length t')) U64_MAX.
Proof.
  revert t total. induction kinds as [|kind kinds IH]; intros t total Ht; cbn [delete_kinds].
  - intros [= <- <-]. split; [|lia]. symmetry. apply list_filter_all. intros r _. apply not_elem_of_nil.
  - unfold delete_by_kind. destruct (stmt _); [|done]. intros E.
    apply IH in E as [-> ->]; [|unfold saturating_add; lia]. split.
    + rewrite list_filter_filter. apply list_filter_iff. intros r. rewrite not_elem_of_cons. naive_solver.
    + pose proof (filter_split_length (fun r => ar_artifact_kind r = kind) t) as Hl. unfold saturating_add.
      set (l1 := filter (fun r => ar_artifact_kind r <> kind) t) in *.
      assert (length (filter (fun r => ar_artifact_kind r ∉ kinds) l1) <= length l1) by apply length_filter.
      lia.
Qed.

(** Deleting artifacts by kind, when it succeeds, leaves exactly the rows of other
    kinds, in order, and reports how many rows went, however often a kind is named; a
    statement that fails stops the request with an error, and what was deleted before
    stays deleted. *)
Theorem delete_install_artifacts_correct `{SqlEngine} (t : Artifacts) (kinds : list string) :
  match handle_delete_install_artifacts t kinds with
  | (t', RepOk v n) =>
      v = SCHEMA_V3 /\ t' = filter (fun r => ar_artifact_kind r ∉ kinds) t /\
      n = N.min (N.of_nat (length t - length t')) U64_MAX
  | (t', RepErr _ m) =>
      exists done kind rest, kinds = done ++ kind :: rest /\
        t' = filter (fun r => ar_artifact_kind r ∉ done) t
  end.
Proof.
  unfold handle_delete_install_artifacts. destruct (delete_kinds t kinds 0) as [t' [v n|v m]] eqn:E.
  - assert (v = SCHEMA_V3) as ->.
    { revert E. generalize 0%N at 1. revert t. induction kinds as [|k ks IH]; intros t total; cbn [delete_kinds].
      - by intros [= _ <- _].
      - unfold delete_by_kind. destruct (stmt _); [apply IH|done]. }
    split; [done|]. apply delete_kinds_spec in E as [-> ->]; [done|unfold U64_MAX; lia].
  - revert E. generalize 0%N. enough (forall l t1 total, t1 = filter (fun r => ar_artifact_kind r ∉ l) t ->
      delete_kinds t1 kinds total = (t', RepErr v m) ->
      exists done kind rest, l ++ kinds = done ++ kind :: rest /\ t' = filter (fun r => ar_artifact_kind r ∉ done) t) as H1.
    { intros total E. apply (H1 [] t total); [|done]. symmetry. apply list_filter_all. intros r _. apply not_elem_of_nil. }
    induction kinds as [|k ks IH]; intros l t1 total ->; cbn [delete_kinds]; [done|].
    unfold delete_by_kind. destruct (stmt _) as [u|err].
    + assert (filter (fun r => ar_artifact_kind r <> k) (filter (fun r => ar_artifact_kind r ∉ l) t)
              = filter (fun r => ar_artifact_kind r ∉ l ++ [k]) t) as Hf.
      { rewrite list_filter_filter. apply list_filter_iff. intros r.
        rewrite not_elem_of_app, not_elem_of_cons. pose proof (not_elem_of_nil (ar_artifact_kind r)). naive_solver. }
      intros E. destruct (IH (l ++ [k]) _ _ Hf E) as (d & k' & r & Hl & Ht).
      exists d, k', r. rewrite <- Hl, <- app_assoc. done.
    + intros [= <- _ _]. exists l, k, ks. done.
Qed.

(** The daemon calls itself degraded exactly when a gap of the last day is on
    record, the last publication failed or no signer is set up; the counters and the
    roots are those of the log writer and of the tree's runs. *)
Theorem status_reflects_state `{SqlEngine, TrustFs} (t : Tree) (gaps : list GapInfo) (w : LogWriter) (st : RuleStore)
    (artifacts : Artifacts) (failed : bool) (version : string) (now_ms : N) :
  exists ok, handle_status t gaps w st artifacts failed version now_ms = RepOk SCHEMA_V3 ok /\
    (so_daemon_state ok = Degraded <->
       (exists g, g ∈ gaps /\ (now_ms < gi_detected_at_ms g + ONE_DAY_MS)%N) \/ failed = true \/
       ss_configured (rule_signing_status st) = false) /\
    so_recent_gaps ok = gaps /\
    (sc_blocks_today (so_counters ok), sc_allows_today (so_counters ok), sc_gaps_today (so_counters ok))
      = counters_snapshot w /\
    ti_run_uuid <$> so_tracked_roots ok = rr_run_uuid <$> list_runs t.
Proof.
  unfold handle_status. destruct (counters_snapshot w) as [[b a] g] eqn:Ec. eexists. split; [reflexivity|].
  cbn [so_daemon_state so_recent_gaps so_counters so_tracked_roots sc_blocks_today sc_allows_today sc_gaps_today].
  split; [|split; [done|split; [done|by rewrite <- list_fmap_compose]]].
  unfold compute_daemon_state.
  assert (existsb (fun g => bool_decide (now_ms - gi_detected_at_ms g < ONE_DAY_MS)%N) gaps = true <->
          exists g, g ∈ gaps /\ (now_ms < gi_detected_at_ms g + ONE_DAY_MS)%N) as Hg.
  { rewrite existsb_exists. setoid_rewrite <- list_elem_of_In. setoid_rewrite bool_decide_eq_true.
    unfold ONE_DAY_MS. split; intros (x & Hx & Hlt); exists x; (split; [done|lia]). }
  rewrite <- Hg. destruct (existsb _ gaps), failed, (ss_configured (rule_signing_status st)); cbn; naive_solver.
Qed.
