(* ===== verification/SnapshotGc.v ===== *)
(** * Collecting the snapshots of finished runs

    [crates/guard-daemon/src/snapshot_gc.rs]: one sweep of the directory of runs.
    The names of a sweep are those the system listed when the directory was opened;
    the removal of a run's files is [Publish.gc_run]. *)

From S2P Require Import Prelude RustStr Paths Signature ProcessTree Publish Events.

Definition GC_INTERVAL_SECS : N := 30.
Definition ESRCH : Z := 3.

(** [rsplitn(2)] on the dot: what is before the last one, and what is after it. *)
Definition rsplit_dot (name : string) : option string * string :=
  match rev (split_on "." name) with
  | after :: ((_ :: _) as before) => (Some (join "." (rev before)), after)
  | _ => (None, name)
  end.

(** [Path::file_stem] and [Path::extension] of a name. *)
Definition file_stem_ext (name : string) : string * option string :=
  if bool_decide (name = "..") then (name, None)
  else match rsplit_dot name with
  | (Some before, after) => if is_empty before then (name, None) else (before, Some after)
  | (None, _) => (name, None)
  end.

(** The run an entry of the directory stands for: [None] is an entry that is skipped. *)
Definition run_of_entry (name : string) : option string :=
  match file_stem_ext name with
  | (stem, Some ext) =>
      if negb (bool_decide (ext = "cbor")) then None
      else if negb (utf8_valid stem) then None
      else if starts_with stem "." then None
      else Some stem
  | (_, None) => None
  end.

Section Sweep.
Context `{OsView, PubEnv}.

(** [pid_t::try_from(..).ok()]; then [kill(pid, 0)]. *)
Definition should_gc (record : option RunRecord) : bool :=
  match record with
  | None => true
  | Some rec =>
      let pid := val5 (rr_tracked_root rec) in
      if bool_decide (2147483647 < pid)%N || bool_decide (pid = 0)%N then false
      else
        let alive := match kill_zero (Z.of_N pid) with
                     | None => true
                     | Some err => negb (bool_decide (err = ESRCH))
                     end in
        negb alive
  end.

Definition gc_entry (state_dir : string) (s : Tree * Files) (name : string) : Tree * Files :=
  match run_of_entry name with
  | None => s
  | Some run_uuid =>
      if should_gc (get_run s.1 run_uuid)
      then ((remove_run s.1 run_uuid).1, (gc_run state_dir run_uuid s.2).1)
      else s
  end.

(** [None] is a directory that cannot be read. *)
Definition gc_sweep (state_dir : string) (entries : option (list string)) (s : Tree * Files) : Tree * Files :=
  match entries with
  | None => s
  | Some names => foldl (gc_entry state_dir) s names
  end.

End Sweep.

(** ** Lemmas *)

Lemma rsplit_dot_app (a b : string) : no_char "." b = true -> rsplit_dot (a +:+ "." +:+ b) = (Some a, b).
Proof.
  intros Hb. unfold rsplit_dot. change ("." +:+ b) with (String "." b).
  rewrite split_on_app_gen, (split_on_no_char _ b), rev_app_distr by done.
  destruct (rev (split_on "." a)) as [|x l] eqn:Hr; apply (f_equal (@rev _)) in Hr; rewrite rev_involutive in Hr.
  { by destruct (split_on_nonempty "." a). }
  assert (a = join "." (split_on "." a)) as Ea by (by rewrite split_on_join). rewrite Hr in Ea. simpl in *. by rewrite <- Ea.
Qed.

Lemma join_snoc (sep : string) (l : list string) (x : string) :
  l <> [] -> join sep (l ++ [x]) = join sep l +:+ sep +:+ x.
Proof.
  induction l as [|y l IH]; intros Hne; [done|]. destruct l as [|z l]; [done|].
  change ((y :: z :: l) ++ [x]) with (y :: ((z :: l) ++ [x])).
  change (join sep (y :: (z :: l) ++ [x])) with (y +:+ sep +:+ join sep ((z :: l) ++ [x])).
  rewrite IH by done. change (join sep (y :: z :: l)) with (y +:+ sep +:+ join sep (z :: l)).
  by rewrite !app_assoc_str.
Qed.

Lemma rsplit_dot_Some (name a b : string) : rsplit_dot name = (Some a, b) -> name = a +:+ "." +:+ b.
Proof.
  unfold rsplit_dot. intros Hr. rewrite <- (split_on_join "." name).
  destruct (rev (split_on "." name)) as [|x [|y l]] eqn:E; [done..|].
  injection Hr as <- <-.
  apply (f_equal (@rev _)) in E. rewrite rev_involutive in E. rewrite E. cbn [rev].
  apply join_snoc. by destruct (rev l).
Qed.

(** The entry of a run is its snapshot file. *)
Lemma run_of_entry_Some (name u : string) :
  run_of_entry name = Some u -> name = u +:+ ".cbor" /\ u <> "" /\ starts_with u "." = false.
Proof.
  unfold run_of_entry, file_stem_ext. case_bool_decide; [done|].
  destruct (rsplit_dot name) as [[b|] a] eqn:E; [|done]. apply rsplit_dot_Some in E.
  destruct (is_empty b) eqn:Eb; [done|]. case_bool_decide as Ea; [|done]. cbn [negb].
  destruct (utf8_valid b); [|done]. cbn [negb]. destruct (starts_with b ".") eqn:Es; [done|].
  intros [= <-]. subst a. split_and!; [done| |done]. by intros ->.
Qed.

Lemma run_of_entry_snapshot (u : string) :
  u <> "" -> starts_with u "." = false -> utf8_valid u = true -> run_of_entry (u +:+ ".cbor") = Some u.
Proof.
  intros Hne Hd Hu. unfold run_of_entry, file_stem_ext.
  change ".cbor" with ("." +:+ "cbor"). rewrite bool_decide_eq_false_2.
  2: { intros E. destruct u as [|x u]; [done|]. rewrite app_cons_str in E. injection E as -> E.
       unfold starts_with in Hd. cbn in Hd. done. }
  rewrite rsplit_dot_app by done. destruct u as [|x u]; [done|]. cbn [is_empty].
  rewrite bool_decide_eq_true_2 by done. cbn [negb]. by rewrite Hu, Hd.
Qed.

Section Facts.
Context `{OsView, PubEnv}.

Lemma gc_run_other (d u p : string) (f : Files) :
  p <> run_snapshot_path d u -> p <> run_manifest_path d u -> (gc_run d u f).1 !! p = f !! p.
Proof.
  intros Hs Hm. unfold gc_run. rewrite fm_bind_eq. unfold ignore. cbn.
  rewrite (remove_file_only _ _ p Hm). by apply remove_file_only.
Qed.

Lemma remove_file_gone (p : string) (f : Files) :
  fs_fault "remove" p = None -> (remove_file p f).1 !! p = None.
Proof.
  intros Hf. unfold remove_file, attempt. rewrite Hf.
  destruct (f !! p) eqn:E; cbn; [by rewrite lookup_delete_eq|done].
Qed.

Lemma gc_run_gone (d u : string) (f : Files) :
  u <> "" -> relative u -> (forall p, fs_fault "remove" p = None) ->
  (gc_run d u f).1 !! run_snapshot_path d u = None /\ (gc_run d u f).1 !! run_manifest_path d u = None.
Proof.
  intros Hu Ru Hf. destruct (run_artifact_paths_distinct d u u Hu Hu Ru Ru) as (_ & _ & H1 & _).
  unfold gc_run. rewrite fm_bind_eq. unfold ignore. cbn. split; [|by apply remove_file_gone].
  rewrite (remove_file_only _ _ _ H1). by apply remove_file_gone.
Qed.

(** What a step does to the run [u]. *)
Lemma gc_entry_run (d u name : string) (s : Tree * Files) :
  u <> "" -> relative u -> (forall v, run_of_entry name = Some v -> relative v) ->
  let s' := gc_entry d s name in
  (run_of_entry name = Some u /\ should_gc (get_run s.1 u) = true
     /\ s' = ((remove_run s.1 u).1, (gc_run d u s.2).1))
  \/ ((run_of_entry name = Some u -> should_gc (get_run s.1 u) = false)
      /\ get_run s'.1 u = get_run s.1 u
      /\ s'.2 !! run_snapshot_path d u = s.2 !! run_snapshot_path d u
      /\ s'.2 !! run_manifest_path d u = s.2 !! run_manifest_path d u).
Proof.
  intros Hu Ru Hv. cbn. unfold gc_entry. destruct (run_of_entry name) as [v|] eqn:E; [|by right].
  destruct (decide (v = u)) as [->|Hne].
  - destruct (should_gc (get_run s.1 u)) eqn:Eg; [by left|]. by right.
  - right. split; [by intros [= ->]|]. destruct (should_gc (get_run s.1 v)); [|done]. cbn.
    pose proof (Hv v eq_refl) as Rv. apply run_of_entry_Some in E as (_ & Hnv & _).
    destruct (run_artifact_paths_distinct d u v Hu Hnv Ru Rv) as (H1 & H2 & H3 & _).
    destruct (run_artifact_paths_distinct d v u Hnv Hu Rv Ru) as (_ & _ & H4 & _).
    split; [unfold get_run; cbn; by rewrite lookup_delete_ne|].
    split; apply gc_run_other; [intros E%H1|exact H3|by apply not_eq_sym|intros E%H2]; congruence.
Qed.

(** A name of a directory entry that [run_of_entry] turns into a run. *)
Definition entry_name (name : string) : Prop := no_char "/" name = true.

Lemma entry_relative (name u : string) : entry_name name -> run_of_entry name = Some u -> relative u.
Proof.
  intros Hn (-> & Hne & _)%run_of_entry_Some. destruct u as [|x u]; [done|].
  unfold entry_name in Hn. rewrite app_cons_str in Hn. apply no_char_cons in Hn as [Hx _].
  unfold relative, path_is_absolute, starts_with. cbn. by rewrite bool_decide_eq_false_2.
Qed.

Definition entry_gone (d u : string) (s : Tree * Files) : Prop :=
  get_run s.1 u = None
  /\ ((forall p, fs_fault "remove" p = None) ->
      s.2 !! run_snapshot_path d u = None /\ s.2 !! run_manifest_path d u = None).

Lemma gc_collect_gone (d u : string) (s : Tree * Files) :
  u <> "" -> relative u -> entry_gone d u ((remove_run s.1 u).1, (gc_run d u s.2).1).
Proof.
  intros Hu Ru. split; [unfold get_run; cbn; by rewrite lookup_delete_eq|]. intros Hf. by apply gc_run_gone.
Qed.

Lemma foldl_gc_keeps (d u : string) (names : list string) (s : Tree * Files) :
  Forall entry_name names -> u <> "" -> relative u ->
  should_gc (get_run s.1 u) = false \/ Some u ∉ (run_of_entry <$> names) ->
  let s' := foldl (gc_entry d) s names in
  get_run s'.1 u = get_run s.1 u
  /\ s'.2 !! run_snapshot_path d u = s.2 !! run_snapshot_path d u
  /\ s'.2 !! run_manifest_path d u = s.2 !! run_manifest_path d u.
Proof.
  intros Hn Hu Ru. revert s. induction Hn as [|name names Hname _ IH]; intros s Hk; [done|]. cbn.
  destruct (gc_entry_run d u name s Hu Ru (fun v => entry_relative name v Hname)) as
    [(E & Eg & _)|(_ & E1 & E2 & E3)].
  - exfalso. destruct Hk as [Hk|Hk]; [congruence|]. rewrite fmap_cons, E in Hk. set_solver.
  - cbn in E1, E2, E3. destruct (IH (gc_entry d s name)) as (I1 & I2 & I3).
    { rewrite E1. destruct Hk as [Hk|Hk]; [by left|right]. rewrite fmap_cons in Hk. set_solver. }
    by rewrite I1, I2, I3.
Qed.

Lemma foldl_gc_gone (d u : string) (names : list string) (s : Tree * Files) :
  Forall entry_name names -> u <> "" -> relative u -> entry_gone d u s ->
  entry_gone d u (foldl (gc_entry d) s names).
Proof.
  intros Hn Hu Ru. revert s. induction Hn as [|name names Hname _ IH]; intros s Hg; [done|]. cbn. apply IH.
  destruct (gc_entry_run d u name s Hu Ru (fun v => entry_relative name v Hname)) as
    [(_ & _ & ->)|(_ & E1 & E2 & E3)]; [by apply gc_collect_gone|].
  destruct Hg as [Hg1 Hg2]. split; [by rewrite E1|]. intros Hf. rewrite E2, E3. by apply Hg2.
Qed.

Lemma foldl_gc_collects (d u : string) (names : list string) (s : Tree * Files) :
  Forall entry_name names -> u <> "" -> relative u -> should_gc (get_run s.1 u) = true ->
  Some u ∈ (run_of_entry <$> names) -> entry_gone d u (foldl (gc_entry d) s names).
Proof.
  intros Hn Hu Ru. revert s. induction Hn as [|name names Hname Hns IH]; intros s Hg Hin; [by apply not_elem_of_nil in Hin|].
  cbn. destruct (gc_entry_run d u name s Hu Ru (fun v => entry_relative name v Hname)) as
    [(_ & _ & ->)|(E & E1 & _)].
  - apply foldl_gc_gone; [done..|]. by apply gc_collect_gone.
  - apply IH; [by rewrite E1|]. rewrite fmap_cons in Hin. apply elem_of_cons in Hin as [Hin|Hin]; [|done].
    rewrite E in Hg by done. done.
Qed.

End Facts.

(** Nothing records the run, or the system says its root process does not exist. *)
Definition run_finished `{OsView} (record : option RunRecord) : Prop :=
  match record with
  | None => True
  | Some rec =>
      let pid := val5 (rr_tracked_root rec) in
      (0 < pid <= 2147483647)%N /\ kill_zero (Z.of_N pid) = Some ESRCH
  end.

Lemma should_gc_spec `{OsView} (record : option RunRecord) : should_gc record = true <-> run_finished record.
Proof.
  unfold should_gc, run_finished. destruct record as [rec|]; [|done]. cbv zeta.
  set (pid := val5 (rr_tracked_root rec)). destruct (bool_decide _ || bool_decide _) eqn:E.
  - apply orb_true_iff in E as [E%bool_decide_eq_true|E%bool_decide_eq_true]; (split; [done|lia]).
  - apply orb_false_iff in E as [E1%bool_decide_eq_false E2%bool_decide_eq_false].
    destruct (kill_zero (Z.of_N pid)) as [err|]; [|naive_solver].
    rewrite negb_true_iff, negb_false_iff, bool_decide_eq_true. naive_solver lia.
Qed.

(** ** Properties *)

(** A sweep is exact for every run of the directory.  A run is collected when
    nothing records it or when the process at its root is gone; a run that is not
    yet bound to a process, or whose process may be alive (it can be signalled, or the
    error says anything but that there is no such process), keeps its record, its snapshot and
    its manifest.  A collected run has no record, and no files when they can be
    removed. *)
Theorem gc_sweep_exact `{OsView, PubEnv} (d u : string) (names : list string) (s s' : Tree * Files) :
  Forall entry_name names -> u <> "" -> relative u -> gc_sweep d (Some names) s = s' ->
  (~ run_finished (get_run s.1 u) \/ Some u ∉ (run_of_entry <$> names) ->
     get_run s'.1 u = get_run s.1 u
     /\ s'.2 !! run_snapshot_path d u = s.2 !! run_snapshot_path d u
     /\ s'.2 !! run_manifest_path d u = s.2 !! run_manifest_path d u)
  /\ (run_finished (get_run s.1 u) -> Some u ∈ (run_of_entry <$> names) ->
      get_run s'.1 u = None
      /\ ((forall p, fs_fault "remove" p = None) ->
          s'.2 !! run_snapshot_path d u = None /\ s'.2 !! run_manifest_path d u = None)).
Proof.
  intros Hn Hu Ru <-. cbn. split.
  - intros Hkeep. apply foldl_gc_keeps; [done..|]. destruct Hkeep as [Hk|Hk]; [left|by right].
    rewrite <- should_gc_spec in Hk. by apply not_true_is_false.
  - intros Hgc%should_gc_spec Hin. by apply foldl_gc_collects.
Qed.

(** The answers of a system where process 4242 is gone and 4243 alive. *)
Definition gc_os : OsView := {|
  process_uid _ := None;
  kill_zero pid := if bool_decide (pid = 4242)%Z then Some ESRCH else None;
  kernel_pidversion _ := None;
  is_hardened_runtime _ := false;
  Events.unix_ms_now := 0;
  now_ts := None;
|}.

Definition gc_rec (u : string) (pid : N) : RunRecord :=
  mkRun u (mkToken 0 0 0 0 0 pid 0 1) "" "" false false.

Definition gc_before : Tree * Files :=
  (insert_run (insert_run (insert_run new_tree (gc_rec "dead" 4242)) (gc_rec "live" 4243)) (gc_rec "new" 0),
   {[ "/s/runs/dead.cbor" := "1"; "/s/runs/live.cbor" := "2"; "/s/runs/new.cbor" := "3"; "/s/runs/lost.cbor" := "4" ]}).

Definition gc_names : list string := [".x.cbor.tmp"; "lost.cbor"; "live.cbor"; "new.cbor"; "dead.cbor"; "dead.manifest"].

Definition gc_after : Tree * Files := @gc_sweep gc_os toy_pub "/s" (Some gc_names) gc_before.

Lemma gc_sweep_exact_witness :
  gc_after.2 !! "/s/runs/live.cbor" = Some "2" /\ gc_after.2 !! "/s/runs/new.cbor" = Some "3"
  /\ get_run gc_after.1 "dead" = None /\ gc_after.2 !! "/s/runs/lost.cbor" = None.
Proof.
  pose proof (fun u => @gc_sweep_exact gc_os toy_pub "/s" u gc_names gc_before gc_after
    ltac:(repeat (apply Forall_cons; split; [done|]); apply Forall_nil; done)) as H.
  split_and!.
  - apply (proj1 (H "live" ltac:(done) ltac:(done) eq_refl)). left. intros [_ Hk]. vm_compute in Hk. done.
  - apply (proj1 (H "new" ltac:(done) ltac:(done) eq_refl)). left. intros [[Hk _] _]. vm_compute in Hk. done.
  - apply (proj2 (H "dead" ltac:(done) ltac:(done) eq_refl)); [by split|by_decide].
  - apply (proj2 (H "lost" ltac:(done) ltac:(done) eq_refl)); [done|by_decide|done].
Defined.

(** Between the publication of a snapshot and the record of its run, a sweep takes the
    new files for orphans: the run is recorded, and acknowledged, without files. *)
Lemma sweep_between_publish_and_record :
  let published := publish_run_inner (H := toy_pub) (H0 := toy_crypto) "/s" "bytes" "run-1" None ∅ in
  let swept := @gc_sweep gc_os toy_pub "/s" (Some ["run-1.cbor"; "run-1.manifest"]) (new_tree, published.1) in
  let recorded := record_run swept.1 "/s" "run-1" "/s/runs/run-1.cbor" false false in
  is_ok published.2 = true /\ is_Some (get_run recorded "run-1")
  /\ swept.2 !! "/s/runs/run-1.cbor" = None /\ swept.2 !! "/s/runs/run-1.manifest" = None.
Proof. vm_compute. split_and!; [done|by eexists|done|done]. Qed.
