(* ===== verification/Server.v ===== *)
(** * The daemon's connections

    [crates/guard-daemon/src/ipc_server.rs] ([IpcServer::handle], the authentication of
    a peer, the dispatch of a frame and the frame handlers not in [Events]),
    [codesign.rs] and [peer_auth.rs].  The whole state of the daemon is one record;
    each handler works on the view of it that its own file models.  A connection is
    what the kernel says of the peer and the bytes it sends; the answer is the bytes
    written back, or a worker that waits for a prompt. *)

From S2P Require Import Prelude RustStr Policy TrustedSigners Signature Snapshot RuleStore ProcessTree Frame Handlers.
From S2P Require Import Prompt HookNet Lockfile Publish Resolve LogWriter Messages Events Admin SnapshotGc.

(** ** The state, and the views of it *)

Record Server : Type := mkServer {
  sv_events : Events;
  sv_staging : Staging;
  sv_dedup : Dedup;
  sv_deferred : Deferred;
  sv_queues : gmap nat (list PromptRequest);
  sv_store : RuleStore;
  sv_policy : RuleSignaturePolicy;
  sv_decisions : list LogRow;
  sv_curated : list AllowlistEntry;
  sv_state_dir : string;
  sv_prepared : gmap string PendingSnapshotInput;
  sv_files : Files;
  sv_artifacts : Artifacts;
  sv_publish_failed : bool;
  sv_started_ms : Z;
}.

Definition put_events (s : Server) (e : Events) : Server :=
  mkServer e (sv_staging s) (sv_dedup s) (sv_deferred s) (sv_queues s) (sv_store s) (sv_policy s) (sv_decisions s)
    (sv_curated s) (sv_state_dir s) (sv_prepared s) (sv_files s) (sv_artifacts s) (sv_publish_failed s) (sv_started_ms s).

(** The part the resolver and the prompt channels use. *)
Definition as_daemon (s : Server) : Daemon :=
  mkDaemon (es_tree (sv_events s)) (sv_staging s) (sv_dedup s) (sv_deferred s) (sv_queues s) (sv_store s)
    (sv_policy s) (sv_decisions s).
Definition put_daemon (s : Server) (d : Daemon) : Server :=
  mkServer (Events.with_tree (sv_events s) (d_tree d)) (d_staging d) (d_dedup d) (d_deferred d) (d_queues d) (d_store d)
    (d_policy d) (d_log d) (sv_curated s) (sv_state_dir s) (sv_prepared s) (sv_files s) (sv_artifacts s)
    (sv_publish_failed s) (sv_started_ms s).

(** The part the preparation and publication of snapshots use. *)
Definition as_prep (s : Server) : PrepState :=
  mkPrep (sv_curated s) (sv_store s) (sv_state_dir s) (sv_policy s) (es_tree (sv_events s)) (sv_prepared s) (sv_files s).
Definition put_prep (s : Server) (p : PrepState) : Server :=
  mkServer (Events.with_tree (sv_events s) (pp_process_tree p)) (sv_staging s) (sv_dedup s) (sv_deferred s) (sv_queues s)
    (pp_rule_store p) (pp_policy p) (sv_decisions s) (pp_curated p) (pp_state_dir p) (pp_pending p) (pp_files p)
    (sv_artifacts s) (sv_publish_failed s) (sv_started_ms s).

Definition put_store (s : Server) (st : RuleStore) : Server :=
  mkServer (sv_events s) (sv_staging s) (sv_dedup s) (sv_deferred s) (sv_queues s) st (sv_policy s) (sv_decisions s)
    (sv_curated s) (sv_state_dir s) (sv_prepared s) (sv_files s) (sv_artifacts s) (sv_publish_failed s) (sv_started_ms s).
Definition put_staging (s : Server) (g : Staging) : Server :=
  mkServer (sv_events s) g (sv_dedup s) (sv_deferred s) (sv_queues s) (sv_store s) (sv_policy s) (sv_decisions s)
    (sv_curated s) (sv_state_dir s) (sv_prepared s) (sv_files s) (sv_artifacts s) (sv_publish_failed s) (sv_started_ms s).
Definition put_artifacts (s : Server) (a : Artifacts) : Server :=
  mkServer (sv_events s) (sv_staging s) (sv_dedup s) (sv_deferred s) (sv_queues s) (sv_store s) (sv_policy s)
    (sv_decisions s) (sv_curated s) (sv_state_dir s) (sv_prepared s) (sv_files s) a (sv_publish_failed s) (sv_started_ms s).

(** ** messages.rs: requests whose schema version is checked here *)

(** A message whose other fields are those of its record. *)
Record Versioned (A : Type) : Type := mkVersioned { vn_schema_version : N; vn_message : A }.
Arguments mkVersioned {A} _ _.
Arguments vn_schema_version {A} _.
Arguments vn_message {A} _.

Record PrepareSnapshotReq : Type := mkPrepareReq {
  pq_schema_version : N;
  pq_cwd : string;
  pq_is_tty : bool;
  pq_baseline_mode : bool;
}.

Definition InsertUserRuleReply : Type := Rep Z.
Definition ListRulesReply : Type := Rep (list WireRuleRow).
Definition DisableCuratedRuleReply : Type := Rep unit.
Definition EnableCuratedRuleReply : Type := Rep bool.

Definition rep_of {A} (schema : N) (r : result A string) : Rep A :=
  match r with Ok a => RepOk schema a | Err m => RepErr schema m end.

(** ** codesign.rs and peer_auth.rs *)

Inductive CodesignVerdict : Type :=
| CsValid | CsInvalid (status : Z) | CsLookupFailed (status : Z) | CsCfError (msg : string) | CsUnsupported.

Definition should_accept_peer (v : CodesignVerdict) : bool :=
  match v with CsValid | CsLookupFailed _ => true | CsInvalid _ | CsCfError _ | CsUnsupported => false end.

Record Conn : Type := mkConn {
  cn_identity : result ProcessIdentity string;
  cn_codesign : AuditToken -> CodesignVerdict;
  cn_bytes : string;
}.

Inductive Served : Type :=
| Wrote (bytes : string)
| Waiting (run_uuid prompt_id : string) (chan : nat) (req : ResolveMsg)
| PromptThread (run_uuid bytes : string)
| Panicked.

Class ServerEnv : Type := {
  sv_os :: OsView;
  sv_resolve :: ResolveEnv;
  sv_pub :: PubEnv;
  sv_lock :: LockEnv;
  sv_sql :: SqlEngine;
  sv_fs :: TrustFs;
  (** Faults of cloning the stream and of starting the thread of a prompt channel. *)
  sv_clone_error : option string;
  sv_spawn_error : option string;
  sv_build_version : string;
  sv_process_id : N;
  (** The deny rules that enrich a report. *)
  sv_intel : result (list AllowlistEntry) string;
}.

Class ServerCodec : Type := {
  sc_register :: Cbor RegisterRoot; sc_ack :: Cbor Ack;
  sc_fork :: Cbor Messages.ForkEvent; sc_exec :: Cbor Messages.ExecEvent; sc_loaded :: Cbor Messages.DylibLoaded;
  sc_env_gap :: Cbor Messages.EnvNotPropagatedGap; sc_blocked :: Cbor Messages.ExecBlocked;
  sc_persist :: Cbor Messages.PersistenceWrite; sc_deny :: Cbor DenyReport;
  sc_channel :: Cbor Messages.PromptChannelInit;
  sc_resolve :: Cbor ResolveMsg; sc_resolve_reply :: Cbor ResolveReply;
  sc_prepare :: Cbor PrepareSnapshotReq; sc_publish :: Cbor PublishSignedSnapshot;
  sc_snapshot_reply :: Cbor SnapshotReply; sc_inputs_reply :: Cbor SnapshotInputsReply;
  sc_empty :: Cbor (Versioned unit); sc_run :: Cbor (Versioned string); sc_list :: Cbor (Versioned bool);
  sc_kinds :: Cbor (Versioned (list string));
  sc_insert :: Cbor (Versioned InsertUserRule); sc_disable :: Cbor (Versioned DisableCuratedRule);
  sc_enable :: Cbor (Versioned EnableCuratedRule);
  sc_status_reply :: Cbor StatusReply; sc_insert_reply :: Cbor InsertUserRuleReply;
  sc_artifacts_reply :: Cbor ReadInstallArtifactsReply; sc_baseline_reply :: Cbor BaselineCommitReply;
  sc_rules_reply :: Cbor ListRulesReply; sc_delete_reply :: Cbor DeleteInstallArtifactsReply;
  sc_ping_reply :: Cbor PingReply; sc_disable_reply :: Cbor DisableCuratedRuleReply;
  sc_enable_reply :: Cbor EnableCuratedRuleReply;
}.

Section Serve.
Context `{SE : ServerEnv} `{SC : ServerCodec} `{CR : Crypto}.

(** [write_frame] of an untagged reply. *)
Definition write_legacy_err (msg : string) : string :=
  match write_frame (mkWriter "" None) (Reply_err msg) with Ok w => written w | Err _ => "" end.

Definition write_legacy (r : Ack) : string :=
  match write_frame (mkWriter "" None) r with Ok w => written w | Err _ => "" end.

(** The token of the peer, or the error that is written to it. *)
Definition authenticate_verified_peer (c : Conn) : result AuditToken string :=
  match cn_identity c with
  | Err e => Err ("peer auth: " +:+ e)
  | Ok id =>
      match as_policy_key id with
      | None => Err "peer not Verified"
      | Some peer_token =>
          if negb (should_accept_peer (cn_codesign c peer_token)) then Err "codesign verification failed"
          else Ok peer_token
      end
  end.

Definition classify_peer_frame (bytes : string) : result (FrameKind * string) string :=
  match classify_frame bytes with
  | Ok k => Ok k
  | Err (DispatchIo _) => Err ""
  | Err (UnknownTag b) =>
      Err (write_legacy_err ("classify: unknown message tag: 0x" +:+ hex_lower (String (ascii_of_N b) "")))
  end.
(** ** Frames of requests and events *)

Definition decode_with {T} `{Cbor T} (tag : MessageTag) (rest : string) : result T string :=
  map_err show_ipc_error (read_tagged_body rest tag).

(** The shape of a request handler: an undecodable body is answered with an error. *)
Definition answer {Req R} `{Cbor Req} `{Cbor R} (tag : MessageTag) (rest : string) (err : string -> R)
    (s : Server) (k : Req -> Server * R) : Server * Served :=
  match decode_with tag rest with
  | Err m => (s, Wrote (write_tagged tag (err ("decode: " +:+ m))))
  | Ok req => let '(s1, r) := k req in (s1, Wrote (write_tagged tag r))
  end.

(** The check of the schema version that precedes the work. *)
Definition versioned {A R} (accepted : list N) (refusal : N -> string) (err : string -> R) (s : Server)
    (k : A -> Server * R) (req : Versioned A) : Server * R :=
  if bool_decide (vn_schema_version req ∈ accepted) then k (vn_message req)
  else (s, err (refusal (vn_schema_version req))).

Definition not_v3 (v : N) : string := "schema_version " +:+ pretty v +:+ " != IPC_SCHEMA_V3".
Definition not_supported_for (what : string) (v : N) : string :=
  "schema_version " +:+ pretty v +:+ " not supported for " +:+ what.

Definition event_frame {Req} `{Cbor Req} (tag : MessageTag) (rest : string) (s : Server)
    (h : Events -> result Req string -> Events * Ack) : Server * Served :=
  let '(e, a) := h (sv_events s) (decode_with tag rest) in (put_events s e, Wrote (write_tagged tag a)).

Definition handle_status_frame (s : Server) (rest : string) : Server * Served :=
  answer Status rest (RepErr SCHEMA_V3) s
    (versioned [SCHEMA_V3] not_v3 (RepErr SCHEMA_V3) s (fun _ : unit =>
       (s, handle_status (es_tree (sv_events s)) (es_ring (sv_events s)) (es_writer (sv_events s)) (sv_store s)
             (sv_artifacts s) (sv_publish_failed s) sv_build_version Events.unix_ms_now))).

Definition handle_insert_user_rule_frame (s : Server) (rest : string) : Server * Served :=
  answer Frame.InsertUserRule rest (RepErr SCHEMA_V5) s
    (versioned [SCHEMA_V3; SCHEMA_V5] (not_supported_for "InsertUserRule") (RepErr SCHEMA_V5) s
       (fun req : InsertUserRule =>
          let '(st, r) := handle_insert_user_rule req (sv_store s) (sv_policy s) in
          (put_store s st, rep_of SCHEMA_V5 r))).

Definition handle_read_install_artifacts_frame (s : Server) (rest : string) : Server * Served :=
  answer ReadInstallArtifacts rest (RepErr SCHEMA_V3) s
    (versioned [SCHEMA_V3] not_v3 (RepErr SCHEMA_V3) s
       (fun _ : unit => (s, handle_read_install_artifacts (sv_artifacts s)))).

Definition handle_baseline_commit_frame (s : Server) (rest : string) : Server * Served :=
  answer BaselineCommit rest (RepErr SCHEMA_V3) s
    (versioned [SCHEMA_V3] not_v3 (RepErr SCHEMA_V3) s (fun run_uuid : string =>
       let '(g, r) := handle_baseline_commit (es_tree (sv_events s)) (sv_staging s) run_uuid in
       (put_staging s g, r))).

Definition handle_list_rules_frame (s : Server) (rest : string) : Server * Served :=
  answer ListRules rest (RepErr SCHEMA_V3) s
    (versioned [SCHEMA_V3] not_v3 (RepErr SCHEMA_V3) s (fun include_builtins : bool =>
       (s, rep_of SCHEMA_V3 (handle_list_rules include_builtins (sv_store s) (sv_curated s))))).

Definition handle_delete_install_artifacts_frame (s : Server) (rest : string) : Server * Served :=
  answer DeleteInstallArtifacts rest (RepErr SCHEMA_V3) s
    (versioned [SCHEMA_V3] not_v3 (RepErr SCHEMA_V3) s (fun kinds : list string =>
       let '(a, r) := handle_delete_install_artifacts (sv_artifacts s) kinds in (put_artifacts s a, r))).

(** [now] is a reading of the monotonic clock, in milliseconds.  The version of the
    request is not checked. *)
Definition handle_ping_frame (s : Server) (now : Z) (rest : string) : Server * Served :=
  answer Ping rest (RepErr SCHEMA_V4) s (fun _ : Versioned unit =>
    (s, RepOk SCHEMA_V4 (sv_process_id, Z.to_N ((now - sv_started_ms s) / 1000)))).

Definition unix_now : Z := (Z.of_N Events.unix_ms_now / 1000)%Z.

Definition handle_disable_curated_rule_frame (s : Server) (rest : string) : Server * Served :=
  answer Frame.DisableCuratedRule rest (RepErr SCHEMA_V3) s
    (versioned [SCHEMA_V3; SCHEMA_V5] (not_supported_for "DisableCuratedRule") (RepErr SCHEMA_V3) s
       (fun req : DisableCuratedRule =>
          let '(st, r) := handle_disable_curated_rule req (sv_store s) unix_now (sv_curated s) (sv_policy s) in
          (put_store s st, rep_of SCHEMA_V3 r))).

Definition handle_enable_curated_rule_frame (s : Server) (rest : string) : Server * Served :=
  answer Frame.EnableCuratedRule rest (RepErr SCHEMA_V3) s
    (versioned [SCHEMA_V3; SCHEMA_V5] (not_supported_for "EnableCuratedRule") (RepErr SCHEMA_V3) s
       (fun req : EnableCuratedRule =>
          let '(st, r) := handle_enable_curated_rule req (sv_store s) (sv_policy s) in
          (put_store s st, rep_of SCHEMA_V3 r))).

Definition handle_prepare_snapshot_frame (s : Server) (rest : string) : Server * Served :=
  answer PrepareSnapshot rest SnapErr s (fun req : PrepareSnapshotReq =>
    if bool_decide (pq_schema_version req ∈ [SCHEMA_V2; SCHEMA_V3])
    then (s, handle_prepare_snapshot_v4_full)
    else (s, SnapErr ("schema_version " +:+ pretty (pq_schema_version req)
                      +:+ " not in [IPC_SCHEMA_V2, IPC_SCHEMA_V3]"))).

Definition handle_prepare_snapshot_inputs_frame (s : Server) (now : Z) (rest : string) : Server * Served :=
  answer PrepareSnapshotInputs rest InputsErr s (fun req : PrepareSnapshotReq =>
    if bool_decide (pq_schema_version req ∈ [SCHEMA_V2; SCHEMA_V3; SCHEMA_V5]) then
      let '(p, r) := handle_prepare_snapshot_inputs_full (as_prep s) now (pq_cwd req) (pq_is_tty req)
                       (pq_baseline_mode req) in
      (put_prep s p, r)
    else (s, InputsErr ("schema_version " +:+ pretty (pq_schema_version req)
                        +:+ " not in [IPC_SCHEMA_V2, IPC_SCHEMA_V3, IPC_SCHEMA_V5]"))).

Definition handle_publish_signed_snapshot_frame (s : Server) (now : Z) (rest : string) : Server * Served :=
  answer Frame.PublishSignedSnapshot rest SnapErr s (fun req : PublishSignedSnapshot =>
    let '(p, r) := handle_publish_signed_snapshot_full (as_prep s) now req in (put_prep s p, r)).

(** A parked request leaves its worker waiting on the channel of the prompt. *)
Definition serve_resolve (s : Server) (now : Z) (peer : AuditToken) (rest : string) : Server * Served :=
  match decode_with (T := ResolveMsg) Frame.Resolve rest with
  | Err m => (s, Wrote (write_tagged Frame.Resolve (ReplyErr ("decode: " +:+ m))))
  | Ok req =>
      let '(d, o) := Resolve.handle_resolve_frame (as_daemon s) now peer req in
      (put_daemon s d,
       match o with
       | Replied r => Wrote (write_tagged Frame.Resolve r)
       | Closed => Wrote ""
       | Parked prompt_id chan =>
           Waiting (match prompt_eligible_run (as_daemon s) peer with Some (u, _) => u | None => "" end)
             prompt_id chan req
       end)
  end.

Definition serve_prompt_channel_init (s : Server) (rest : string) : Server * Served :=
  let '(thread, a) := handle_prompt_channel_init_frame (es_tree (sv_events s)) sv_clone_error sv_spawn_error
                        (decode_with Frame.PromptChannelInit rest) in
  let bytes := write_tagged Frame.PromptChannelInit a in
  (s, match thread with Some u => PromptThread u bytes | None => Wrote bytes end).

Definition serve_legacy (s : Server) (peer : AuditToken) (rest : string) : Server * Served :=
  let '(e, a) := handle_legacy_register_root (sv_events s) peer (ascii_of_N 0) rest in
  (put_events s e, Wrote (match a with Some r => write_legacy r | None => "" end)).

Definition dispatch_peer_frame (kind : FrameKind) (rest : string) (peer : AuditToken) (now : Z) (s : Server) :
    Server * Served :=
  match kind with
  | LegacyUntagged _ => serve_legacy s peer rest
  | Tagged Frame.ForkEvent =>
      event_frame Frame.ForkEvent rest s (fun e => handle_fork_event e peer)
  | Tagged Frame.ExecEvent =>
      event_frame Frame.ExecEvent rest s (fun e => handle_exec_event e peer)
  | Tagged Frame.DylibLoaded =>
      event_frame Frame.DylibLoaded rest s (fun e => handle_dylib_loaded e peer)
  | Tagged Frame.PrepareSnapshot => handle_prepare_snapshot_frame s rest
  | Tagged Frame.Resolve => serve_resolve s now peer rest
  | Tagged Frame.EnvNotPropagatedGap =>
      event_frame Frame.EnvNotPropagatedGap rest s (fun e => handle_env_not_propagated_frame e peer)
  | Tagged Frame.Status => handle_status_frame s rest
  | Tagged Frame.InsertUserRule => handle_insert_user_rule_frame s rest
  | Tagged Frame.ReadInstallArtifacts => handle_read_install_artifacts_frame s rest
  | Tagged Frame.BaselineCommit => handle_baseline_commit_frame s rest
  | Tagged Frame.PromptChannelInit => (s, Panicked)
  | Tagged Frame.ListRules => handle_list_rules_frame s rest
  | Tagged Frame.DeleteInstallArtifacts => handle_delete_install_artifacts_frame s rest
  | Tagged Frame.DenyNotify =>
      event_frame Frame.DenyNotify rest s (fun e => handle_deny_notify_frame e sv_intel)
  | Tagged Frame.ExecBlocked => event_frame Frame.ExecBlocked rest s handle_exec_blocked_frame
  | Tagged Frame.PersistenceWrite => event_frame Frame.PersistenceWrite rest s handle_persistence_write_frame
  | Tagged Frame.Ping => handle_ping_frame s now rest
  | Tagged Frame.DisableCuratedRule => handle_disable_curated_rule_frame s rest
  | Tagged Frame.EnableCuratedRule => handle_enable_curated_rule_frame s rest
  | Tagged Frame.PrepareSnapshotInputs => handle_prepare_snapshot_inputs_frame s now rest
  | Tagged Frame.PublishSignedSnapshot => handle_publish_signed_snapshot_frame s now rest
  end.

(** [IpcServer::handle]. *)
Definition handle (s : Server) (now : Z) (c : Conn) : Server * Served :=
  match authenticate_verified_peer c with
  | Err m => (s, Wrote (write_legacy_err m))
  | Ok peer_token =>
      match classify_peer_frame (cn_bytes c) with
      | Err bytes => (s, Wrote bytes)
      | Ok (Tagged Frame.PromptChannelInit, rest) => serve_prompt_channel_init s rest
      | Ok (kind, rest) => dispatch_peer_frame kind rest peer_token now s
      end
  end.

End Serve.

(** ** The daemon as a transition system *)

(** What may happen to the store of rules: a rule with its attestation, or an
    authorized change of a built-in rule. *)
Inductive store_effect `{SqlEngine, TrustFs, Crypto} (policy : RuleSignaturePolicy) (st : RuleStore) : RuleStore -> Prop :=
| se_none : store_effect policy st st
| se_signed p sg :
    verify_rule_signature p sg policy = Ok tt ->
    is_trusted_rule_signer st (sig_public_key_sha256 sg) (sig_signer_kind sg) = Ok true ->
    store_effect policy st (apply_op st (OpInsertSigned p sg))
| se_disable now pattern reason created_at sg :
    authorized st policy ACTION_DISABLE_CURATED_RULE pattern reason created_at sg ->
    store_effect policy st (apply_op st (OpDisable now pattern reason))
| se_enable pattern created_at sg :
    authorized st policy ACTION_ENABLE_CURATED_RULE pattern "" created_at sg ->
    store_effect policy st (apply_op st (OpEnable pattern)).

Section StoreEffects.
Context `{SqlEngine, TrustFs, Crypto}.

Lemma insert_user_rule_effect (req : InsertUserRule) (st : RuleStore) (policy : RuleSignaturePolicy) :
  store_effect policy st (handle_insert_user_rule req st policy).1.
Proof.
  unfold handle_insert_user_rule. repeat case_match; simplify_eq/=; try apply se_none.
  match goal with
  | H : insert_signed_user_rule st ?p ?sg = (?st', _) |- _ =>
      assert (st' = apply_op st (OpInsertSigned p sg)) as -> by (by cbn; rewrite H)
  end.
  apply se_signed; [|done]. by match goal with H : verify_rule_signature _ _ _ = Ok ?u |- _ => destruct u end.
Qed.

Lemma disable_curated_rule_effect (req : DisableCuratedRule) (st : RuleStore) (now : Z) (curated : list AllowlistEntry)
    (policy : RuleSignaturePolicy) :
  store_effect policy st (handle_disable_curated_rule req st now curated policy).1.
Proof.
  unfold handle_disable_curated_rule. destruct (blank _); [apply se_none|]. destruct (blank _); [apply se_none|].
  destruct (negb _); [apply se_none|].
  destruct (authorize_management_action _ _ _ _ _ _ _) as [[]|] eqn:Ha; [|apply se_none].
  apply authorize_ok in Ha. destruct (disable_curated_rule _ _ _ _) as [st' r] eqn:E.
  pose proof (se_disable policy st now (dc_pattern req) (dc_reason req) _ _ Ha) as Hs. cbn in Hs. by rewrite E in Hs.
Qed.

Lemma enable_curated_rule_effect (req : EnableCuratedRule) (st : RuleStore) (policy : RuleSignaturePolicy) :
  store_effect policy st (handle_enable_curated_rule req st policy).1.
Proof.
  unfold handle_enable_curated_rule. destruct (blank _); [apply se_none|].
  destruct (authorize_management_action _ _ _ _ _ _ _) as [[]|] eqn:Ha; [|apply se_none].
  apply authorize_ok in Ha. destruct (enable_curated_rule _ _) as [st' r] eqn:E.
  pose proof (se_enable policy st (ec_pattern req) _ _ Ha) as Hs. cbn in Hs. by rewrite E in Hs.
Qed.

(** An answer to a prompt stores at most the rule it carries. *)
Lemma dispatch_response_effect (d : Daemon) (run_uuid : string) (resp : PromptResponse) :
  store_effect (d_policy d) (d_store d) (d_store (dispatch_response d run_uuid resp)).
Proof.
  unfold dispatch_response, take_prompt_response_entry.
  destruct (take_full_if_owned _ _ _) as [t r].
  set (e := match r with Ok _ => _ | Err _ => _ end).
  assert (forall d1 h p, d_store d1 = d_store d -> d_policy d1 = d_policy d ->
    store_effect (d_policy d) (d_store d) (d_store (verdict_for_prompt_response d1 run_uuid resp h p).1)) as Hv.
  { intros d1 h p Es Ep. unfold verdict_for_prompt_response, allow_always_machine_verdict.
    destruct (ps_verdict resp); cbn; rewrite <- ?Es, <- ?Ep; try apply se_none.
    destruct (ps_signed_rule resp) as [rule|]; [|apply se_none].
    destruct (ps_rule_pattern resp) as [pat|]; [|apply se_none].
    destruct (_ || _); [apply se_none|].
    pose proof (insert_user_rule_effect rule (d_store d1) (d_policy d1)) as Hi.
    by destruct (handle_insert_user_rule _ _ _) as [st []]. }
  set (h := match e with Some _ => _ | None => "" end). set (p := match e with Some _ => _ | None => 0%N end).
  specialize (Hv (upd_deferred d t) h p eq_refl eq_refl).
  destruct (verdict_for_prompt_response _ _ _ _ _) as [d2 v]. by destruct e.
Qed.

End StoreEffects.

(** ** handlers/prompt_channel.rs: the thread of a channel *)

(** [run] up to its loop: a queue of its own, and its sender in the tree.  [chan] is fresh. *)
Definition open_channel (d : Daemon) (run_uuid : string) (chan : nat) : Daemon :=
  mkDaemon (set_prompt_channel (d_tree d) run_uuid chan) (d_staging d) (d_dedup d) (d_deferred d)
    (<[chan := []]> (d_queues d)) (d_store d) (d_policy d) (d_log d).

(** The stream cannot be cloned, or the reader cannot be started. *)
Definition abandon_channel (d : Daemon) (run_uuid : string) (chan : nat) : Daemon :=
  mkDaemon (take_prompt_channel (d_tree d) run_uuid).1 (d_staging d) (d_dedup d) (d_deferred d)
    (delete chan (d_queues d)) (d_store d) (d_policy d) (d_log d).

(** The reader's last act. *)
Definition reader_exit (d : Daemon) (run_uuid : string) : Daemon :=
  mkDaemon (take_prompt_channel (d_tree d) run_uuid).1 (d_staging d) (d_dedup d) (d_deferred d)
    (d_queues d) (d_store d) (d_policy d) (d_log d).

(** The loop takes the next request of its queue. *)
Definition take_request (d : Daemon) (chan : nat) : Daemon * option PromptRequest :=
  match d_queues d !! chan with
  | Some (r :: q) => (upd_queues d (<[chan := q]> (d_queues d)), Some r)
  | _ => (d, None)
  end.

Definition dedup_tick (d : Daemon) (now : Z) : Daemon := upd_dedup d (gc_expired (d_dedup d) now).

Definition sweep (s : Server) `{OsView, PubEnv} (entries : option (list string)) : Server :=
  let '(t, f) := gc_sweep (sv_state_dir s) entries (es_tree (sv_events s), sv_files s) in
  put_prep s (with_files (Publish.with_tree (as_prep s) t) f).

(** Whatever the system answers, in whatever order the threads act. *)
Inductive server_step `{ServerCodec, Crypto} : Server -> Server -> Prop :=
| ss_connection (SE : ServerEnv) s now c : free_rowid_unused -> server_step s (handle s now c).1
| ss_timer (os : OsView) s id : server_step s (put_events s (fire (sv_events s) id))
| ss_resume (SE : ServerEnv) s req u id chan timed d o :
    finish_prompt (as_daemon s) req u id chan timed = Some (d, o) -> server_step s (put_daemon s d)
| ss_open s u chan : sv_queues s !! chan = None -> server_step s (put_daemon s (open_channel (as_daemon s) u chan))
| ss_abandon s u chan : server_step s (put_daemon s (abandon_channel (as_daemon s) u chan))
| ss_reader s u : server_step s (put_daemon s (reader_exit (as_daemon s) u))
| ss_take s chan : server_step s (put_daemon s (take_request (as_daemon s) chan).1)
| ss_response (SE : ServerEnv) s u resp :
    free_rowid_unused -> server_step s (put_daemon s (dispatch_response (as_daemon s) u resp))
| ss_cancel s u id : server_step s (put_daemon s (dispatch_cancel (as_daemon s) u id))
| ss_tick s now : server_step s (put_daemon s (dedup_tick (as_daemon s) now))
| ss_cleanup s u chan : server_step s (put_daemon s (channel_cleanup (as_daemon s) u chan))
| ss_sweep (os : OsView) (pub : PubEnv) s entries : server_step s (sweep s entries).

(** ** Lemmas: what a step may change *)

Definition queues_bounded (q : gmap nat (list PromptRequest)) : Prop :=
  forall c l, q !! c = Some l -> length l <= PROMPT_QUEUE.

Record effect `{SqlEngine, TrustFs, Crypto} (s s' : Server) : Prop := {
  ef_events : ev_step (sv_events s) (sv_events s')
    \/ exists t, rtc tree_step (es_tree (sv_events s)) t /\ sv_events s' = Events.with_tree (sv_events s) t;
  ef_store : store_effect (sv_policy s) (sv_store s) (sv_store s');
  ef_config : sv_policy s' = sv_policy s /\ sv_curated s' = sv_curated s /\ sv_state_dir s' = sv_state_dir s;
  ef_queues : queues_bounded (sv_queues s) -> queues_bounded (sv_queues s');
}.

Lemma queues_insert (q : gmap nat (list PromptRequest)) (c : nat) (l : list PromptRequest) :
  length l <= PROMPT_QUEUE -> queues_bounded q -> queues_bounded (<[c := l]> q).
Proof. intros Hl Hq k l' [[<- <-]|[_ Hk]]%lookup_insert_Some; [done|]. by eapply Hq. Qed.

Lemma queues_delete (q : gmap nat (list PromptRequest)) (c : nat) : queues_bounded q -> queues_bounded (delete c q).
Proof. intros Hq k l [_ Hk]%lookup_delete_Some. by eapply Hq. Qed.

Lemma with_tree_same (e : Events) : Events.with_tree e (es_tree e) = e.
Proof. by destruct e. Qed.

Section Effects.
Context `{SqlEngine, TrustFs, Crypto}.

Lemma effect_refl (s : Server) : effect s s.
Proof.
  split; [right|apply se_none|done|done]. exists (es_tree (sv_events s)). by rewrite with_tree_same.
Qed.

Lemma effect_events (s : Server) (e : Events) : ev_step (sv_events s) e -> effect s (put_events s e).
Proof. intros He. split; [by left|apply se_none|done|done]. Qed.

Lemma effect_put_store (s : Server) (st : RuleStore) :
  store_effect (sv_policy s) (sv_store s) st -> effect s (put_store s st).
Proof. intros He. destruct (effect_refl s) as [E1 _ E3 E4]. by split. Qed.

Lemma effect_put_staging (s : Server) (g : Staging) : effect s (put_staging s g).
Proof. destruct (effect_refl s) as [E1 E2 E3 E4]. by split. Qed.

Lemma effect_put_artifacts (s : Server) (a : Artifacts) : effect s (put_artifacts s a).
Proof. destruct (effect_refl s) as [E1 E2 E3 E4]. by split. Qed.

Lemma effect_put_daemon (s : Server) (d : Daemon) :
  rtc tree_step (es_tree (sv_events s)) (d_tree d) -> store_effect (sv_policy s) (sv_store s) (d_store d) ->
  d_policy d = sv_policy s -> (queues_bounded (sv_queues s) -> queues_bounded (d_queues d)) ->
  effect s (put_daemon s d).
Proof. intros Ht Hs Hp Hq. split; cbn; [right; by eexists|done|done|done]. Qed.

Lemma effect_put_prep (s : Server) (p : PrepState) :
  rtc tree_step (es_tree (sv_events s)) (pp_process_tree p) -> pp_rule_store p = sv_store s ->
  pp_policy p = sv_policy s -> pp_curated p = sv_curated s -> pp_state_dir p = sv_state_dir s ->
  effect s (put_prep s p).
Proof.
  intros Ht Hs Hp Hc Hd. split; cbn; [right; by eexists| |done|done]. rewrite Hs. apply se_none.
Qed.

Lemma effect_answer {Req R} `{Cbor Req} `{Cbor R} (tag : MessageTag) (rest : string) (err : string -> R) (s : Server)
    (k : Req -> Server * R) :
  (forall req, effect s (k req).1) -> effect s (answer tag rest err s k).1.
Proof.
  intros Hk. unfold answer. destruct (decode_with tag rest) as [req|]; [|apply effect_refl].
  specialize (Hk req). by destruct (k req).
Qed.

Lemma effect_versioned {A R} (accepted : list N) (refusal : N -> string) (err : string -> R) (s : Server)
    (k : A -> Server * R) (req : Versioned A) :
  (forall a, effect s (k a).1) -> effect s (versioned accepted refusal err s k req).1.
Proof. intros Hk. unfold versioned. case_bool_decide; [apply Hk|apply effect_refl]. Qed.

Lemma effect_event_frame `{ServerCodec} {Req} `{Cbor Req} (tag : MessageTag) (rest : string) (s : Server)
    (h : Events -> result Req string -> Events * Ack) :
  (forall req, ev_step (sv_events s) (h (sv_events s) req).1) -> effect s (event_frame tag rest s h).1.
Proof.
  intros Hh. unfold event_frame. specialize (Hh (decode_with tag rest)).
  destruct (h (sv_events s) _) as [e a]. by apply effect_events.
Qed.

Definition same_core (d d' : Daemon) : Prop :=
  d_tree d' = d_tree d /\ d_store d' = d_store d /\ d_policy d' = d_policy d
  /\ (queues_bounded (d_queues d) -> queues_bounded (d_queues d')).

Lemma effect_same_core (s : Server) (d : Daemon) : same_core (as_daemon s) d -> effect s (put_daemon s d).
Proof.
  intros (Ht & Hs & Hp & Hq). cbn in *. apply effect_put_daemon; [by rewrite Ht|rewrite Hs; apply se_none|done|done].
Qed.

Lemma try_send_core (d d' : Daemon) (chan : nat) (r : PromptRequest) :
  try_send d chan r = Some d' -> same_core d d'.
Proof.
  unfold try_send. destruct (d_queues d !! chan) as [q|] eqn:E; [|done]. case_bool_decide as Hl; [done|].
  intros [= <-]. split_and!; [done..|]. cbn. intros Hq. apply queues_insert; [|done]. rewrite length_app. cbn. lia.
Qed.

Lemma send_prompted_core `{ResolveEnv} (d : Daemon) (now : Z) (peer : AuditToken) (req : ResolveMsg) (u : string)
    (src : SourceKind) : same_core d (send_prompted_resolve d now peer req u src).1.
Proof.
  unfold send_prompted_resolve. destruct (next_prompt_id _) as [t1 id]. destruct (coalesce_with_now _ _ _ _ _ _) as [g out].
  destruct (new_channel t1) as [t2 chan]. destruct (get_prompt_channel _ u); [|done].
  destruct (try_send _ _ _) as [d2|] eqn:E; [|done]. by apply try_send_core in E.
Qed.

Lemma try_handle_core `{ResolveEnv} (d d1 : Daemon) (now : Z) (peer : AuditToken) (req : ResolveMsg) (o : Outcome) :
  try_handle_prompted_resolve d now peer req = Some (d1, o) -> same_core d d1.
Proof.
  unfold try_handle_prompted_resolve. destruct (prompt_eligible_run d peer) as [[u b]|]; [|done].
  match goal with |- context [let '(_, _) := ?m in _] => destruct m as [[] src] end; [by intros [= <- _]|].
  assert (forall r, prompt_policy_blocks_without_prompt d req u src = Some r -> same_core d r.1) as Hb.
  { unfold prompt_policy_blocks_without_prompt. by destruct src; intros r [= <-]. }
  destruct (prompt_policy_blocks_without_prompt d req u src) as [r|].
  { intros [= ->]. by apply (Hb (d1, o)). }
  destruct (b && _); [by intros [= <- _]|].
  intros [= E]. pose proof (send_prompted_core d now peer req u src) as Hs. by rewrite E in Hs.
Qed.

Lemma resolve_frame_core `{ResolveEnv} (d : Daemon) (now : Z) (peer : AuditToken) (req : ResolveMsg) :
  same_core d (Resolve.handle_resolve_frame d now peer req).1.
Proof.
  unfold Resolve.handle_resolve_frame. destruct (negb _); [done|].
  destruct (try_handle_prompted_resolve d now peer req) as [[d1 o]|] eqn:E; [by eapply try_handle_core|].
  assert (same_core d (resolve_policy_deny d peer req).1) as Hp.
  { unfold resolve_policy_deny. destruct (run_of_peer d peer) as [run|]; [|done].
    destruct (load_run_entries _) as [es|]; [|done]. destruct (evaluate_policy _ _ _ _) as [[] src]; [done|].
    by destruct (rr_baseline_mode run && _). }
  destruct (resolve_policy_deny d peer req) as [d1 [p|]]; exact Hp.
Qed.

Lemma publish_effect `{PubEnv, SnapshotCodec} (s : Server) (now : Z) (req : PublishSignedSnapshot) :
  effect s (put_prep s (handle_publish_signed_snapshot_full (as_prep s) now req).1).
Proof.
  unfold handle_publish_signed_snapshot_full. destruct (negb _); [by apply effect_put_prep|].
  destruct (pp_pending _ !! _) as [pending|]; [|by apply effect_put_prep].
  destruct (check_signed_snapshot _ _ _); [|by apply effect_put_prep].
  destruct (publish_run_signed_bytes _ _ _ _ _) as [f [pub|]]; apply effect_put_prep; try done. cbn.
  unfold record_run. eapply rtc_l; [apply step_insert_run|]. eapply rtc_l; [apply step_tty|].
  eapply rtc_l; [apply step_baseline|]. apply rtc_refl.
Qed.

Lemma prepare_inputs_effect `{PubEnv, LockEnv, SnapshotCodec} (s : Server) (now : Z) (cwd : string) (tty baseline : bool) :
  effect s (put_prep s (handle_prepare_snapshot_inputs_full (as_prep s) now cwd tty baseline).1).
Proof.
  unfold handle_prepare_snapshot_inputs_full.
  destruct (collect_snapshot_build_input _ _ _ _ _ _) as [c|]; by apply effect_put_prep.
Qed.

Lemma sweep_effect `{OsView, PubEnv} (s : Server) (entries : option (list string)) : effect s (sweep s entries).
Proof.
  unfold sweep. destruct (gc_sweep _ _ _) as [t f] eqn:E. apply effect_put_prep; try done. cbn.
  assert (forall names s0, rtc tree_step s0.1 (foldl (gc_entry (sv_state_dir s)) s0 names).1) as Hf.
  { induction names as [|n names IH]; intros s0; [done|]. cbn. etrans; [|apply IH]. unfold gc_entry.
    destruct (run_of_entry n); [|done]. destruct (should_gc _); [|done]. apply rtc_once. apply step_remove_run. }
  unfold gc_sweep in E. destruct entries as [names|]; [|by injection E as <- _].
  specialize (Hf names (es_tree (sv_events s), sv_files s)). by rewrite E in Hf.
Qed.

End Effects.

Lemma legacy_effect `{ServerCodec, Crypto, ServerEnv} (s : Server) (peer : AuditToken) (rest : string) :
  effect s (serve_legacy s peer rest).1.
Proof.
  assert (effect s (put_events s (sv_events s))) as Hr by (destruct s; apply effect_refl).
  unfold serve_legacy, handle_legacy_register_root.
  destruct (read_exact rest 3) as [[three r1]|]; [|done]. destruct (bool_decide _); [done|].
  destruct (read_exact r1 _) as [[body r2]|]; [|done]. destruct (from_reader body) as [msg|]; [|done].
  pose proof (ev_register sv_os (sv_events s) peer msg) as He.
  destruct (register_root (sv_events s) peer msg) as [e a]. by apply effect_events.
Qed.

Lemma serve_resolve_effect `{ServerCodec, Crypto, ServerEnv} (s : Server) (now : Z) (peer : AuditToken) (rest : string) :
  effect s (serve_resolve s now peer rest).1.
Proof.
  unfold serve_resolve. destruct (decode_with _ _) as [req|]; [|apply effect_refl].
  pose proof (resolve_frame_core (as_daemon s) now peer req) as Hc.
  destruct (Resolve.handle_resolve_frame _ _ _ _) as [d o]. by apply effect_same_core.
Qed.

(** Every frame that is dispatched. *)
Lemma dispatch_effect `{ServerCodec, Crypto, ServerEnv} (kind : FrameKind) (rest : string) (peer : AuditToken) (now : Z) (s : Server) :
  effect s (dispatch_peer_frame kind rest peer now s).1.
Proof.
  assert (forall (A : Type) (x : A), effect s (s, x).1) as Hs by (intros; apply effect_refl).
  destruct kind as [b|[]]; cbn [dispatch_peer_frame].
  - apply legacy_effect.
  - apply effect_answer. intros req. destruct (bool_decide _); apply Hs.
  - apply effect_event_frame. intros req. exact (ev_fork sv_os (sv_events s) peer req).
  - apply effect_event_frame. intros req. exact (ev_exec sv_os (sv_events s) peer req).
  - apply effect_event_frame. intros req. exact (ev_loaded sv_os (sv_events s) peer req).
  - apply serve_resolve_effect.
  - apply effect_event_frame. intros req. exact (ev_env_gap sv_os (sv_events s) peer req).
  - apply effect_answer. intros req. apply effect_versioned. intros a. apply Hs.
  - apply Hs.
  - apply effect_answer. intros req. apply effect_versioned. intros a.
    pose proof (insert_user_rule_effect a (sv_store s) (sv_policy s)) as He.
    destruct (handle_insert_user_rule _ _ _). by apply effect_put_store.
  - apply effect_answer. intros req. apply effect_versioned. intros a. apply Hs.
  - apply effect_answer. intros req. apply effect_versioned. intros a.
    destruct (handle_baseline_commit _ _ _). apply effect_put_staging.
  - apply effect_answer. intros req. apply effect_versioned. intros a. apply Hs.
  - apply effect_answer. intros req. apply effect_versioned. intros a.
    destruct (handle_delete_install_artifacts _ _). apply effect_put_artifacts.
  - apply effect_event_frame. intros req. exact (ev_deny sv_os (sv_events s) sv_intel req).
  - apply effect_event_frame. intros req. exact (ev_blocked sv_os (sv_events s) req).
  - apply effect_event_frame. intros req. exact (ev_persist sv_os (sv_events s) req).
  - apply effect_answer. intros req. apply Hs.
  - apply effect_answer. intros req. apply effect_versioned. intros a.
    pose proof (disable_curated_rule_effect a (sv_store s) unix_now (sv_curated s) (sv_policy s)) as He.
    destruct (handle_disable_curated_rule _ _ _ _ _). by apply effect_put_store.
  - apply effect_answer. intros req. apply effect_versioned. intros a.
    pose proof (enable_curated_rule_effect a (sv_store s) (sv_policy s)) as He.
    destruct (handle_enable_curated_rule _ _ _). by apply effect_put_store.
  - apply effect_answer. intros req. destruct (bool_decide _); [|apply Hs].
    pose proof (prepare_inputs_effect s now (pq_cwd req) (pq_is_tty req) (pq_baseline_mode req)) as He.
    by destruct (handle_prepare_snapshot_inputs_full _ _ _ _ _).
  - apply effect_answer. intros req. pose proof (publish_effect s now req) as He.
    by destruct (handle_publish_signed_snapshot_full _ _ _).
Qed.

(** A connection. *)
Lemma handle_effect `{ServerCodec, Crypto, ServerEnv} (s : Server) (now : Z) (c : Conn) : effect s (handle s now c).1.
Proof.
  unfold handle. destruct (authenticate_verified_peer c) as [peer|]; [|apply effect_refl].
  destruct (classify_peer_frame (cn_bytes c)) as [[kind rest]|]; [|apply effect_refl].
  assert (effect s (serve_prompt_channel_init s rest).1) as Hpc.
  { unfold serve_prompt_channel_init. destruct (handle_prompt_channel_init_frame _ _ _ _). apply effect_refl. }
  destruct kind as [b|[]]; try exact Hpc; apply dispatch_effect.
Qed.

Lemma finish_prompt_core `{ResolveEnv} (d d' : Daemon) (req : ResolveMsg) (u id : string) (chan : nat) (timed : bool)
    (o : Outcome) : finish_prompt d req u id chan timed = Some (d', o) -> same_core d d'.
Proof.
  unfold finish_prompt. destruct (chans _ !! chan) as [[[[]|] alive]|]; try (by intros [= <- _]).
  destruct (timed || negb alive); [|done]. by intros [= <- _].
Qed.

Lemma dispatch_response_core `{SqlEngine, TrustFs, Crypto} (d : Daemon) (u : string) (resp : PromptResponse) :
  let d' := dispatch_response d u resp in
  d_tree d' = d_tree d /\ d_policy d' = d_policy d /\ d_queues d' = d_queues d.
Proof.
  cbn. unfold dispatch_response, take_prompt_response_entry. destruct (take_full_if_owned _ _ _) as [t r].
  set (e := match r with Ok _ => _ | Err _ => _ end).
  set (h := match e with Some _ => _ | None => "" end). set (p := match e with Some _ => _ | None => 0%N end).
  assert (forall d1, let d2 := (verdict_for_prompt_response d1 u resp h p).1 in
    d_tree d2 = d_tree d1 /\ d_policy d2 = d_policy d1 /\ d_queues d2 = d_queues d1) as Hv.
  { intros d1. unfold verdict_for_prompt_response, allow_always_machine_verdict. destruct (ps_verdict resp); try done.
    destruct (ps_signed_rule resp) as [rule|]; [|done]. destruct (ps_rule_pattern resp) as [pat|]; [|done].
    destruct (_ || _); [done|]. by destruct (handle_insert_user_rule _ _ _) as [st []]. }
  specialize (Hv (upd_deferred d t)). destruct (verdict_for_prompt_response _ _ _ _ _) as [d2 v]. by destruct e.
Qed.

Lemma server_step_effect `{ServerCodec, Crypto} (s s' : Server) : server_step s s' ->
  exists (sq : SqlEngine) (fs : TrustFs), free_rowid_unused /\ effect s s'.
Proof.
  assert (forall x x', @effect toy_sql toy_fs _ x x' ->
    exists (sq : SqlEngine) (fs : TrustFs), free_rowid_unused /\ effect x x') as Htoy.
  { intros x x' He. exists toy_sql, toy_fs. split; [exact toy_rowids|exact He]. }
  intros [SE x now c Hf|os x id|SE x req u id chan timed d o Hp|x u chan Hc|x u chan|x u|x chan|SE x u resp Hf|x u id|x now
         |x u chan|os pub x entries].
  - exists sv_sql, sv_fs. split; [done|]. apply handle_effect.
  - apply Htoy, effect_events, ev_fire.
  - apply Htoy, effect_same_core. by eapply finish_prompt_core.
  - apply Htoy, effect_put_daemon; cbn; [apply rtc_once, step_channel|apply se_none|done|].
    intros Hq. apply queues_insert; [cbn; lia|done].
  - apply Htoy, effect_put_daemon; cbn; [apply rtc_once, step_take_channel|apply se_none|done|apply queues_delete].
  - apply Htoy, effect_put_daemon; cbn; [apply rtc_once, step_take_channel|apply se_none|done|done].
  - apply Htoy, effect_same_core. unfold take_request. cbn.
    destruct (sv_queues x !! chan) as [[|r q]|] eqn:E; try done. split_and!; [done..|]. cbn. intros Hq.
    apply queues_insert; [|done]. apply Hq in E. cbn in E. lia.
  - exists sv_sql, sv_fs. split; [done|].
    destruct (dispatch_response_core (as_daemon x) u resp) as (Ht & Hp & Hq). cbn in *.
    apply effect_put_daemon; [by rewrite Ht|exact (dispatch_response_effect (as_daemon x) u resp)|done|by rewrite Hq].
  - apply Htoy, effect_same_core. unfold dispatch_cancel. destruct (take_full_if_owned _ _ _) as [t [[e|]|]]; done.
  - by apply Htoy, effect_same_core.
  - apply Htoy. unfold channel_cleanup. destruct (drain_for_run _ _) as [t drained].
    apply effect_put_daemon; cbn; [apply rtc_once, step_take_channel|apply se_none|done|apply queues_delete].
  - apply Htoy, sweep_effect.
Qed.

Lemma ring_push_bounded {A} (ring : list A) (gap : A) : length ring <= CAPACITY -> length (ring_push ring gap) <= CAPACITY.
Proof.
  unfold ring_push. intros Hl. rewrite length_app. change (length [gap]) with 1. unfold CAPACITY in *.
  case_bool_decide; [|lia]. rewrite length_tl. lia.
Qed.

Lemma ev_step_ring (e e' : Events) : ev_step e e' ->
  length (es_ring e) <= CAPACITY -> length (es_ring e') <= CAPACITY.
Proof.
  intros Hs Hl.
  destruct Hs as [os e peer msg|os e peer req|os e peer req|os e peer req|os e peer req|os e cur req|os e req|os e req|os e id].
  - unfold register_root. repeat case_match; simplify_eq/=; done.
  - unfold handle_fork_event. repeat case_match; simplify_eq/=; done.
  - unfold handle_exec_event. repeat case_match; simplify_eq/=; done.
  - unfold handle_dylib_loaded, cancel. repeat case_match; simplify_eq/=; done.
  - unfold handle_env_not_propagated_frame. repeat case_match; simplify_eq/=; try done; by apply ring_push_bounded.
  - unfold handle_deny_notify_frame. repeat case_match; simplify_eq/=; done.
  - unfold handle_exec_blocked_frame. repeat case_match; simplify_eq/=; done.
  - unfold handle_persistence_write_frame. repeat case_match; simplify_eq/=; done.
  - destruct (es_waiting e !! id) as [a|] eqn:Ha; [|unfold fire; by rewrite Ha].
    unfold fire, timeout_apply, kill_gap_process. rewrite Ha.
    destruct (am_ring a), (am_log a); repeat case_match; cbn; try done; by apply ring_push_bounded.
Qed.

Lemma timer_inv_tree (e : Events) (t : Tree) :
  (forall tok, is_tracked (es_tree e) tok = true -> is_tracked t tok = true) -> timer_inv e ->
  timer_inv (Events.with_tree e t).
Proof. intros Ht [H1 H2 H3 H4]. split; cbn; eauto. Qed.

(** A store to which only [store_effect] happens. *)
Lemma store_effect_inv `{SqlEngine, TrustFs, Crypto} (policy : RuleSignaturePolicy) (st st' : RuleStore) :
  free_rowid_unused -> store_effect policy st st' -> store_inv st -> store_inv st'.
Proof. intros Hf [] Hi; [done|by apply apply_op_inv..]. Qed.

Lemma store_effect_keeps `{SqlEngine, TrustFs, Crypto} (policy : RuleSignaturePolicy) (st st' : RuleStore) :
  store_effect policy st st' ->
  trusted_rule_signers (db st') = trusted_rule_signers (db st)
  /\ trusted_signers_manifest_path st' = trusted_signers_manifest_path st
  /\ (all_signed st -> all_signed st').
Proof.
  intros []; [done|..]; (split_and!; [..|intros; apply apply_op_all_signed; [by intros []|done]]); cbn.
  - unfold insert_signed_user_rule. destruct (insert_signed_tx _ _ _) as [[id d]|] eqn:Hi; [|done].
    by apply insert_signed_tx_ok in Hi as (_ & _ & _ & ->).
  - unfold insert_signed_user_rule. by destruct (insert_signed_tx _ _ _) as [[id d]|].
  - unfold disable_curated_rule. by destruct (stmt _).
  - unfold disable_curated_rule. by destruct (stmt _).
  - unfold enable_curated_rule. by destruct (stmt _).
  - unfold enable_curated_rule. by destruct (stmt _).
Qed.

(** ** The invariant *)

Record server_inv (s : Server) : Prop := {
  si_tree : tree_wf (es_tree (sv_events s));
  si_timers : timer_inv (sv_events s);
  si_store : store_inv (sv_store s);
  si_ring : length (es_ring (sv_events s)) <= CAPACITY;
  si_queues : queues_bounded (sv_queues s);
}.

Lemma rtc_tree_wf (t t' : Tree) : rtc tree_step t t' -> tree_wf t -> tree_wf t'.
Proof. induction 1; eauto using tree_step_wf. Qed.

Lemma server_step_inv `{ServerCodec, Crypto} (s s' : Server) : server_step s s' -> server_inv s -> server_inv s'.
Proof.
  intros (sq & fs & Hf & [He Hs Hc Hq])%server_step_effect [I1 I2 I3 I4 I5].
  assert (tree_wf (es_tree (sv_events s')) /\ timer_inv (sv_events s') /\ length (es_ring (sv_events s')) <= CAPACITY)
    as (J1 & J2 & J3).
  { destruct He as [He|(t & Ht & ->)].
    - split_and!; [|by eapply timer_step_inv|by eapply ev_step_ring]. eapply rtc_tree_wf; [|exact I1].
      by apply ev_step_tree.
    - split_and!; [by eapply rtc_tree_wf|apply timer_inv_tree; [|done]|done]. intros tok. by apply rtc_tracked. }
  split; [done|done|by eapply store_effect_inv|done|by apply Hq].
Qed.

(** A rule whose signature verifies, by a key that is enrolled. *)
Definition attested `{Crypto} (policy : RuleSignaturePolicy) (signers : gmap string SignerRow) (row : RuleRow) : Prop :=
  exists p sg signer,
    verify_rule_signature p sg policy = Ok tt
    /\ signers !! sig_public_key_sha256 sg = Some signer /\ t_signer_kind signer = sig_signer_kind sg
    /\ row = mkRuleRow (rp_kind p) (rp_match_type p) (rp_pattern p) (rp_reason p) (rp_created_at_unix_ms p).

Lemma trusted_enrolled `{SqlEngine, TrustFs} (st : RuleStore) (sha kind : string) :
  is_trusted_rule_signer st sha kind = Ok true ->
  exists row, trusted_rule_signers (db st) !! sha = Some row /\ t_signer_kind row = kind.
Proof.
  unfold is_trusted_rule_signer, count_signers. destruct (stmt _); [|done]. cbn.
  destruct (trusted_rule_signers (db st) !! sha) as [row|]; [|done].
  destruct (decide (t_signer_kind row = kind)) as [Hk|Hk]; [intros _; by exists row|].
  by rewrite (bool_decide_eq_false_2 (t_signer_kind row = kind)).
Qed.

Lemma store_effect_rules `{SqlEngine, TrustFs, Crypto} (policy : RuleSignaturePolicy) (st st' : RuleStore) (id : Z)
    (row : RuleRow) :
  store_effect policy st st' -> rules (db st') !! id = Some row ->
  rules (db st) !! id = Some row \/ attested policy (trusted_rule_signers (db st)) row.
Proof.
  intros [|p sg Hv Ht|now pat rs cr sg _|pat cr sg _]; [by left|..]; cbn.
  - unfold insert_signed_user_rule. destruct (insert_signed_tx _ _ _) as [[i d]|] eqn:Hi; [|by left].
    apply insert_signed_tx_ok in Hi as (_ & _ & _ & ->). cbn.
    intros [[<- <-]|[_ Hl]]%lookup_insert_Some; [right|by left].
    apply trusted_enrolled in Ht as (signer & Hs & Hk). by exists p, sg, signer.
  - unfold disable_curated_rule. destruct (stmt _); by left.
  - unfold enable_curated_rule. destruct (stmt _); by left.
Qed.

Lemma write_tagged_head {T} `{Cbor T} (tag : MessageTag) (msg : T) :
  exists b, write_tagged tag msg = String (ascii_of_N (as_byte tag)) b.
Proof.
  unfold write_tagged. destruct (write_frame_with_limit _ _ _) as [w|] eqn:E; [|by exists ""].
  apply write_frame_ok in E as (b & _ & _ & _ & ->). cbn. rewrite app_cons_str. eauto.
Qed.

(** How a connection that asked for [t] may be left. *)
Definition reply_fits (t : MessageTag) (o : Served) : Prop :=
  match o with
  | Wrote b => (exists b', b = String (ascii_of_N (as_byte t)) b') \/ (t = Frame.Resolve /\ b = "")
  | Waiting _ _ _ _ => t = Frame.Resolve
  | PromptThread _ b => t = Frame.PromptChannelInit /\ exists b', b = String (ascii_of_N (as_byte t)) b'
  | Panicked => False
  end.

Lemma answer_fits {Req R} `{Cbor Req} `{Cbor R} (tag : MessageTag) (rest : string) (err : string -> R) (s : Server)
    (k : Req -> Server * R) : reply_fits tag (answer tag rest err s k).2.
Proof.
  unfold answer. destruct (decode_with tag rest) as [req|]; [destruct (k req)|]; left; apply write_tagged_head.
Qed.

Lemma event_frame_fits `{ServerCodec} {Req} `{Cbor Req} (tag : MessageTag) (rest : string) (s : Server)
    (h : Events -> result Req string -> Events * Ack) : reply_fits tag (event_frame tag rest s h).2.
Proof. unfold event_frame. destruct (h _ _). left. apply write_tagged_head. Qed.

Lemma dispatch_fits `{ServerCodec, Crypto, ServerEnv} (t : MessageTag) (rest : string) (peer : AuditToken) (now : Z) (s : Server) :
  t <> Frame.PromptChannelInit -> reply_fits t (dispatch_peer_frame (Tagged t) rest peer now s).2.
Proof.
  intros Ht. destruct t; try done; cbn [dispatch_peer_frame]; try apply answer_fits; try apply event_frame_fits.
  unfold serve_resolve. destruct (decode_with _ _) as [req|]; [|left; apply write_tagged_head].
  destruct (Resolve.handle_resolve_frame _ _ _ _) as [d []]; cbn; [left; apply write_tagged_head|by right|done].
Qed.

(** ** Properties *)

(** C35: what a connection can do.  The state changes only for a peer the kernel has
    identified with an audit token and whose code signature was not found bad; any other peer
    gets one untagged error and nothing else happens.  An accepted request is
    answered under its own tag (a resolve request may instead wait for a prompt, or be
    closed without an answer), and the worker never reaches the arm the dispatch
    declares unreachable. *)
Theorem connection_outcome `{ServerCodec, Crypto, ServerEnv} (s : Server) (now : Z) (c : Conn) :
  (handle s now c).2 <> Panicked
  /\ (match authenticate_verified_peer c with
      | Err m => handle s now c = (s, Wrote (write_legacy_err m))
      | Ok tok =>
          (exists id, cn_identity c = Ok id /\ as_policy_key id = Some tok)
          /\ (cn_codesign c tok = CsValid \/ exists status, cn_codesign c tok = CsLookupFailed status)
          /\ (cn_bytes c = "" -> handle s now c = (s, Wrote ""))
          /\ (forall t rest, cn_bytes c = String (ascii_of_N (as_byte t)) rest -> reply_fits t (handle s now c).2)
      end).
Proof.
  assert (forall t rest tok, authenticate_verified_peer c = Ok tok -> cn_bytes c = String (ascii_of_N (as_byte t)) rest ->
    reply_fits t (handle s now c).2) as Hfit.
  { intros t rest tok Ha Hb. unfold handle, classify_peer_frame. rewrite Ha, Hb.
    assert (classify_frame (String (ascii_of_N (as_byte t)) rest) = Ok (Tagged t, rest)) as -> by (by destruct t).
    destruct (decide (t = Frame.PromptChannelInit)) as [->|Ht].
    - unfold serve_prompt_channel_init. destruct (handle_prompt_channel_init_frame _ _ _ _) as [[u|] a]; cbn;
        [split; [done|]|left]; apply write_tagged_head.
    - pose proof (dispatch_fits t rest tok now s Ht) as Hf. by destruct t. }
  split.
  - destruct (authenticate_verified_peer c) as [tok|] eqn:Ha; [|unfold handle; by rewrite Ha].
    intros Hp. destruct (classify_frame (cn_bytes c)) as [[[b|t] rest]|e] eqn:Hc; unfold handle, classify_peer_frame in Hp;
      rewrite Ha, Hc in Hp; try (by destruct e).
    + cbn in Hp. unfold serve_legacy in Hp. by destruct (handle_legacy_register_root _ _ _ _).
    + assert (cn_bytes c = String (ascii_of_N (as_byte t)) rest) as Hb.
      { destruct (cn_bytes c) as [|a r]; [done|]. cbn in Hc. destruct (from_byte (byte_val a)) as [t'|] eqn:Et; [|by case_bool_decide].
        injection Hc as -> ->. apply from_byte_Some in Et as [_ Et]. rewrite Et. f_equal.
        symmetry. apply ascii_N_embedding. }
      specialize (Hfit t rest tok eq_refl Hb). unfold handle, classify_peer_frame in Hfit. rewrite Ha, Hc in Hfit.
      rewrite Hp in Hfit. done.
  - destruct (authenticate_verified_peer c) as [tok|m] eqn:Ha; [|unfold handle; by rewrite Ha].
    revert Ha. unfold authenticate_verified_peer. destruct (cn_identity c) as [id|] eqn:Ei; [|done].
    destruct (as_policy_key id) as [k|] eqn:Ek; [|done]. destruct (should_accept_peer _) eqn:Es; [|done].
    intros [= <-]. split_and!; [by exists id| | |].
    + destruct (cn_codesign c k); try done; [by left|right; by eexists].
    + intros Hb. unfold handle, authenticate_verified_peer. rewrite Ei, Ek, Es, Hb. done.
    + intros t rest Hb. by apply (Hfit t rest k).
Qed.

(** One step: the configuration and the signers stay, and a rule is an old one or attested. *)
Lemma server_step_rules `{ServerCodec, Crypto} (s s' : Server) :
  server_step s s' ->
  sv_policy s' = sv_policy s /\ sv_curated s' = sv_curated s
  /\ trusted_rule_signers (db (sv_store s')) = trusted_rule_signers (db (sv_store s))
  /\ trusted_signers_manifest_path (sv_store s') = trusted_signers_manifest_path (sv_store s)
  /\ (forall id row, rules (db (sv_store s')) !! id = Some row ->
        rules (db (sv_store s)) !! id = Some row
        \/ attested (sv_policy s) (trusted_rule_signers (db (sv_store s))) row)
  /\ (all_signed (sv_store s) -> all_signed (sv_store s')).
Proof.
  intros (sq & fs & _ & [_ He (Hp & Hc & _) _])%server_step_effect. destruct (store_effect_keeps _ _ _ He) as (E1 & E2 & E3).
  split_and!; [done..| |done]. intros id row Hl. by apply (store_effect_rules _ _ _ _ _ He) in Hl.
Qed.

(** C2: no sequence of connections, prompt answers, timers and collections gives the
    user's key away.  The signature policy, the built-in rules, the enrolled signers and
    the pinned manifest are those the daemon started with, and every rule
    of the store was there at the start or carries a signature over itself by
    a signer enrolled at the start; a store without unsigned rules stays so. *)
Theorem rules_need_enrolled_signer `{ServerCodec, Crypto} (s s' : Server) :
  rtc server_step s s' ->
  sv_policy s' = sv_policy s /\ sv_curated s' = sv_curated s
  /\ trusted_rule_signers (db (sv_store s')) = trusted_rule_signers (db (sv_store s))
  /\ trusted_signers_manifest_path (sv_store s') = trusted_signers_manifest_path (sv_store s)
  /\ (forall id row, rules (db (sv_store s')) !! id = Some row ->
        rules (db (sv_store s)) !! id = Some row
        \/ attested (sv_policy s) (trusted_rule_signers (db (sv_store s))) row)
  /\ (all_signed (sv_store s) -> all_signed (sv_store s')).
Proof.
  induction 1 as [s|s s1 s2 Hs _ (I1 & I2 & I3 & I4 & I5 & I6)]; [by eauto 10|].
  apply server_step_rules in Hs as (Hp & Hc & E1 & E2 & E3 & E4).
  split_and!; [congruence..| |by auto]. intros id row [Hl|Hl]%I5; [by apply E3|right; by rewrite Hp, E1 in Hl].
Qed.

(** C19: the whole daemon keeps its invariants through every interleaving of
    connections, timers, prompts and collections: the process tree is well formed,
    the gap timers watch tracked processes, one for a token, the constraints of the
    rule database hold, the ring of gaps has at most a hundred and no prompt queue
    more than sixty-four entries. *)
Theorem daemon_invariant `{ServerCodec, Crypto} (s s' : Server) :
  rtc server_step s s' -> server_inv s -> server_inv s'.
Proof. induction 1; eauto using server_step_inv. Qed.

(** A run that opens a second channel loses it: the first thread, whose requests no
    longer have a sender, ends and takes the new channel out of the tree. *)
Lemma reopened_channel_torn_down (d : Daemon) (u : string) (c1 c2 : nat) :
  let d2 := open_channel (open_channel d u c1) u c2 in
  get_prompt_channel (d_tree d2) u = Some c2 /\ get_prompt_channel (d_tree (channel_cleanup d2 u c1)) u = None
  /\ (c1 <> c2 -> d_queues (channel_cleanup d2 u c1) !! c2 = Some []).
Proof.
  cbn. unfold channel_cleanup. destruct (drain_for_run _ _) as [t drained]. unfold get_prompt_channel. cbn.
  split_and!; [by rewrite lookup_insert_eq|by rewrite lookup_delete_eq|].
  intros Hne. by rewrite lookup_delete_ne, lookup_insert_eq by done.
Qed.

(** The end of a run's prompt channel discards what a learning run has recorded: a
    commit that comes after it, as the command line sends it, gets an empty list. *)
Lemma learned_rules_lost (d : Daemon) (u : string) (chan : nat) (run : RunRecord) :
  get_run (d_tree d) u = Some run ->
  let d' := channel_cleanup d u chan in
  (handle_baseline_commit (d_tree d') (d_staging d') u).2 = RepOk SCHEMA_V3 [].
Proof.
  intros Hr. cbn. unfold channel_cleanup. destruct (drain_for_run _ _) as [t drained]. cbn.
  unfold handle_baseline_commit, get_run, take_prompt_channel in *. cbn. rewrite Hr.
  unfold staging_take. cbn. by rewrite lookup_delete_eq.
Qed.

(** The limit on channels is checked before the thread that opens one has run: two
    requests that meet sixty-three channels are both accepted. *)
Lemma channel_cap_race (d : Daemon) (u v : string) (c1 c2 : nat) (ru rv : RunRecord) :
  prompt_channels_len (d_tree d) = 63 -> u <> v ->
  prompt_channels (d_tree d) !! u = None -> prompt_channels (d_tree d) !! v = None ->
  get_run (d_tree d) u = Some ru -> get_run (d_tree d) v = Some rv ->
  let init r := handle_prompt_channel_init_frame (d_tree d) None None (Ok (Messages.mkPromptChannelInit SCHEMA_V3 r)) in
  (init u).1 = Some u /\ (init v).1 = Some v
  /\ prompt_channels_len (d_tree (open_channel (open_channel d u c1) v c2)) = S MAX_CONCURRENT_CHANNELS.
Proof.
  intros Hn Hne Hu Hv Hru Hrv init. unfold init, handle_prompt_channel_init_frame.
  cbn [Messages.ci_schema_version Messages.ci_run_uuid]. rewrite Hru, Hrv, Hn. split_and!; [done|done|]. unfold prompt_channels_len in *. cbn.
  rewrite map_size_insert_None by (by rewrite lookup_insert_ne). rewrite map_size_insert_None by done. by rewrite Hn.
Qed.

(** ** A concrete daemon *)

Definition toy_cbor {A} (message : option A) : Cbor A :=
  {| into_writer _ := Ok "r"; from_reader _ := ok_or message "unexpected" |}.

Definition toy_server_codec : ServerCodec := {|
  sc_register := toy_cbor None; sc_ack := toy_cbor None;
  sc_fork := toy_cbor None; sc_exec := toy_cbor None; sc_loaded := toy_cbor None;
  sc_env_gap := toy_cbor None; sc_blocked := toy_cbor None;
  sc_persist := toy_cbor None; sc_deny := toy_cbor None;
  sc_channel := toy_cbor None;
  sc_resolve := toy_cbor None; sc_resolve_reply := toy_cbor None;
  sc_prepare := toy_cbor None; sc_publish := toy_cbor None;
  sc_snapshot_reply := toy_cbor None; sc_inputs_reply := toy_cbor None;
  sc_empty := toy_cbor (Some (mkVersioned 3 tt)); sc_run := toy_cbor None; sc_list := toy_cbor None;
  sc_kinds := toy_cbor None;
  sc_insert := toy_cbor (Some (mkVersioned 3 toy_insert)); sc_disable := toy_cbor None;
  sc_enable := toy_cbor None;
  sc_status_reply := toy_cbor None; sc_insert_reply := toy_cbor None;
  sc_artifacts_reply := toy_cbor None; sc_baseline_reply := toy_cbor None;
  sc_rules_reply := toy_cbor None; sc_delete_reply := toy_cbor None;
  sc_ping_reply := toy_cbor None; sc_disable_reply := toy_cbor None;
  sc_enable_reply := toy_cbor None;
|}.

Definition toy_server_env : ServerEnv := {|
  sv_os := toy_os true; sv_resolve := toy_resolver; sv_pub := toy_pub; sv_lock := toy_lock;
  sv_sql := toy_sql; sv_fs := toy_fs;
  sv_clone_error := None; sv_spawn_error := None; sv_build_version := "0.0.0"; sv_process_id := 77;
  sv_intel := Ok [];
|}.

(** A daemon that has just started, with one signer enrolled. *)
Definition toy_boot : Server :=
  mkServer (fresh new_tree toy_w) ∅ ∅ new_deferred ∅ toy_store Production [] [] "/s" ∅ ∅ [] false 0.

Definition toy_conn : Conn := mkConn (Ok (Verified root_tok)) (fun _ => CsValid)
  (String (ascii_of_N 11) (to_be_bytes 1 +:+ "m")).

Definition toy_served : Server * Served := @handle toy_server_env toy_server_codec toy_crypto toy_boot 1000 toy_conn.

Lemma toy_server_step : @server_step toy_server_codec toy_crypto toy_boot toy_served.1.
Proof. apply (@ss_connection toy_server_codec toy_crypto toy_server_env). exact toy_rowids. Qed.

Lemma toy_boot_inv : server_inv toy_boot.
Proof.
  split; cbn.
  - constructor; intros *; cbn; by rewrite lookup_empty.
  - apply fresh_timer_inv.
  - constructor; intros *; cbn; by rewrite lookup_empty.
  - unfold CAPACITY. lia.
  - intros c l Hl. by rewrite lookup_empty in Hl.
Qed.

Lemma rules_need_enrolled_signer_witness :
  toy_served.2 = Wrote (String (ascii_of_N 11) (to_be_bytes 1 +:+ "r"))
  /\ exists row, rules (db (sv_store toy_served.1)) !! 1%Z = Some row
      /\ @attested toy_crypto Production (trusted_rule_signers (db toy_store)) row.
Proof.
  split; [vm_compute; reflexivity|].
  destruct (@rules_need_enrolled_signer toy_server_codec toy_crypto toy_boot toy_served.1 (rtc_once _ _ toy_server_step))
    as (_ & _ & _ & _ & Hr & _).
  assert (exists row, rules (db (sv_store toy_served.1)) !! 1%Z = Some row) as [row Hrow] by (vm_compute; by eexists).
  exists row. split; [exact Hrow|]. destruct (Hr 1%Z row Hrow) as [Ho|Ha]; [by vm_compute in Ho|exact Ha].
Defined.

Lemma daemon_invariant_witness : server_inv toy_served.1.
Proof.
  apply (@daemon_invariant toy_server_codec toy_crypto toy_boot); [|exact toy_boot_inv].
  apply rtc_once. exact toy_server_step.
Defined.
