(* ===== verification/Watchdog.v ===== *)
(** * The watchdog

    [crates/guard-watchdog/src/main.rs]: the ping, the escalation against a daemon
    that does not answer, the record of restarts and the loop.  A turn of the loop
    takes what the outside answers in it: the liveness, the ready file, the clocks
    and the outcome of the signals.  The sleeps have no effect on the state. *)

From S2P Require Import Prelude RustStr ProcessTree Frame Messages Admin Server.
From S2P Require Import Signature RuleStore Events.

Definition TAG_PING : N := 21.
Definition KILL_THRESHOLD : N := 2.
Definition SIGTERM : Z := 15.
Definition SIGKILL : Z := 9.
Definition U32_MOD : N := 4294967296.

(** ** The ready file *)

(** [content] is that of the file, when it can be read as text. *)
Definition read_daemon_pid (content : option string) : option N :=
  c ← content; pid_str ← first_word c;
  match parse_u32 pid_str with Ok pid => Some pid | Err _ => None end.

(** ** The record of restarts *)

Record WatchdogState : Type := mkWatchdogState {
  restart_count : N;
  last_restart_reason : option string;
  last_restart_epoch : option N;
  last_restart_latency_ms : option N;
}.

(** [load]: an unreadable file counts as none. *)
Definition load_state `{Cbor WatchdogState} (file : option string) : WatchdogState :=
  match file with
  | Some bytes =>
      match from_reader bytes with Ok s => s | Err _ => mkWatchdogState 0 None None None end
  | None => mkWatchdogState 0 None None None
  end.

(** ** The ping *)

Inductive LivenessState : Type :=
| Alive (pid uptime_secs : N)
| Unreachable.

#[export] Instance LivenessState_eq_dec : EqDecision LivenessState.
Proof. solve_decision. Defined.

(** What is at the socket: nothing, or a stream that may refuse the bytes written to
    it and answers them. *)
Record Peer : Type := mkPeer {
  pe_write_fault : option string;
  pe_answer : string -> string;
}.

Definition Ping_new : Versioned unit := mkVersioned SCHEMA_V4 tt.

Definition ping_daemon `{Cbor (Versioned unit), Cbor PingReply} (peer : option Peer) : LivenessState :=
  match peer with
  | None => Unreachable
  | Some p =>
      match write_all (mkWriter "" (pe_write_fault p)) (String (ascii_of_N TAG_PING) "") with
      | Err _ => Unreachable
      | Ok w =>
          match write_frame w Ping_new with
          | Err _ => Unreachable
          | Ok w' =>
              match pe_answer p (written w') with
              | EmptyString => Unreachable
              | String tag_back rest =>
                  if negb (bool_decide (byte_val tag_back = TAG_PING)) then Unreachable
                  else match (read_frame rest).1 with
                  | Ok (RepOk _ (pid, uptime_secs)) => Alive pid uptime_secs
                  | Ok (RepErr _ _) | Err _ => Unreachable
                  end
              end
          end
      end
  end.

(** ** Escalation *)

(** A call of [kill]. *)
Record KillCall : Type := mkKill { kc_pid : Z; kc_signal : Z }.

(** Whether SIGTERM could be sent, and whether the process is there after the grace. *)
Definition kill_escalation (pid : N) (term_ok alive_after : bool) : list KillCall :=
  if bool_decide (2147483647 < pid)%N then []
  else
    let raw_pid := Z.of_N pid in
    mkKill raw_pid SIGTERM
      :: if negb term_ok then []
         else mkKill raw_pid 0 :: if alive_after then [mkKill raw_pid SIGKILL] else [].

(** ** The loop *)

Record Turn : Type := mkTurn {
  tn_liveness : LivenessState;
  tn_ready : option string;
  tn_now_ms : N;
  tn_epoch : N;
  tn_term_ok : bool;
  tn_alive_after : bool;
}.

Record Watchdog : Type := mkWatchdog {
  wd_misses : N;
  wd_last : LivenessState;
  wd_last_known_pid : option N;
  wd_state : WatchdogState;
  wd_kill_at : option N;
  wd_calls : list KillCall;
  wd_saved : list WatchdogState;
}.

Definition watchdog_start (ready : option string) (st : WatchdogState) : Watchdog :=
  mkWatchdog 0 Unreachable (read_daemon_pid ready) st None [] [].

Definition recovered (s : Watchdog) (t : Turn) : WatchdogState :=
  mkWatchdogState ((restart_count (wd_state s) + 1) mod U32_MOD) (Some "watchdog-detected-outage") (Some (tn_epoch t))
    (match wd_kill_at s with
     | Some at_ms => Some (tn_now_ms t - at_ms)%N
     | None => last_restart_latency_ms (wd_state s)
     end).

Definition escalate (s : Watchdog) (t : Turn) (misses : N) : Watchdog :=
  match match read_daemon_pid (tn_ready t) with Some pid => Some pid | None => wd_last_known_pid s end with
  | Some pid =>
      mkWatchdog misses Unreachable (wd_last_known_pid s) (wd_state s) (Some (tn_now_ms t))
        (wd_calls s ++ kill_escalation pid (tn_term_ok t) (tn_alive_after t)) (wd_saved s)
  | None =>
      mkWatchdog misses Unreachable (wd_last_known_pid s) (wd_state s) (wd_kill_at s) (wd_calls s) (wd_saved s)
  end.

Definition watchdog_turn (s : Watchdog) (t : Turn) : Watchdog :=
  match tn_liveness t with
  | Alive pid uptime_secs =>
      if bool_decide (wd_last s = Unreachable) then
        let st := recovered s t in
        mkWatchdog 0 (Alive pid uptime_secs) (Some pid) st None (wd_calls s) (wd_saved s ++ [st])
      else mkWatchdog 0 (Alive pid uptime_secs) (Some pid) (wd_state s) (wd_kill_at s) (wd_calls s) (wd_saved s)
  | Unreachable =>
      let misses := ((wd_misses s + 1) mod U32_MOD)%N in
      if bool_decide (misses = KILL_THRESHOLD) then escalate s t misses
      else mkWatchdog misses Unreachable (wd_last_known_pid s) (wd_state s) (wd_kill_at s) (wd_calls s) (wd_saved s)
  end.

Definition watchdog_run (s : Watchdog) (ts : list Turn) : Watchdog := foldl watchdog_turn s ts.

(** ** The history of an observation *)

Definition down (t : Turn) : Prop := tn_liveness t = Unreachable.

(** How many turns the outage has lasted, and the last pid the daemon gave. *)
Definition outage (ts : list Turn) : N :=
  foldl (fun n t => match tn_liveness t with Alive _ _ => 0 | Unreachable => n + 1 end)%N 0%N ts.
Definition answered_pid (start : option N) (ts : list Turn) : option N :=
  foldl (fun p t => match tn_liveness t with Alive pid _ => Some pid | Unreachable => p end) start ts.

(** How often the daemon answered after a turn in which it did not, the start
    counting as one. *)
Fixpoint answers_after_silence (last_down : bool) (ts : list Turn) : N :=
  match ts with
  | [] => 0
  | t :: rest =>
      match tn_liveness t with
      | Alive _ _ => (if last_down then 1 else 0) + answers_after_silence false rest
      | Unreachable => answers_after_silence true rest
      end
  end%N.

(** ** Lemmas *)

Lemma outage_bound (ts : list Turn) : (outage ts <= N.of_nat (length ts))%N.
Proof.
  unfold outage. enough (forall n, (foldl (fun n t => match tn_liveness t with Alive _ _ => 0 | Unreachable => n + 1 end) n ts
    <= n + N.of_nat (length ts))%N) as H by apply (H 0%N).
  induction ts as [|t ts IH]; intros n; cbn [foldl length]; [lia|].
  specialize (IH (match tn_liveness t with Alive _ _ => 0 | Unreachable => n + 1 end)%N). destruct (tn_liveness t); lia.
Qed.

Lemma outage_snoc (ts : list Turn) (t : Turn) :
  outage (ts ++ [t]) = match tn_liveness t with Alive _ _ => 0 | Unreachable => outage ts + 1 end%N.
Proof. unfold outage. by rewrite foldl_app. Qed.

Lemma watchdog_run_snoc (s : Watchdog) (ts : list Turn) (t : Turn) :
  watchdog_run s (ts ++ [t]) = watchdog_turn (watchdog_run s ts) t.
Proof. unfold watchdog_run. by rewrite foldl_app. Qed.

Lemma escalate_fields (s : Watchdog) (t : Turn) (misses : N) :
  let s' := escalate s t misses in
  wd_misses s' = misses /\ wd_last s' = Unreachable /\ wd_last_known_pid s' = wd_last_known_pid s
  /\ wd_state s' = wd_state s /\ wd_saved s' = wd_saved s.
Proof. unfold escalate. by destruct (match read_daemon_pid _ with Some _ => _ | None => _ end). Qed.

(** The state of the loop is a function of what was observed. *)
Lemma watchdog_history (ready : option string) (st : WatchdogState) (ts : list Turn) :
  (N.of_nat (length ts) < U32_MOD)%N ->
  let s := watchdog_run (watchdog_start ready st) ts in
  wd_misses s = outage ts /\ wd_last_known_pid s = answered_pid (read_daemon_pid ready) ts
  /\ (wd_last s = Unreachable <-> ts = [] \/ exists t, last ts = Some t /\ down t).
Proof.
  induction ts as [|t ts IH] using rev_ind; intros Hl; [by split_and!; [..|split; [by left|]]|].
  rewrite length_app in Hl. change (length [t]) with 1 in Hl. destruct IH as (I1 & I2 & _); [lia|]. cbv zeta in *.
  rewrite watchdog_run_snoc, outage_snoc. set (s := watchdog_run _ ts) in *.
  unfold answered_pid in *. rewrite foldl_app. cbn [foldl]. rewrite last_snoc.
  assert (forall x : LivenessState, (x = Unreachable <-> ts ++ [t] = [] \/ exists t', Some t = Some t' /\ down t')
            <-> (x = Unreachable <-> down t)) as Hlast.
  { intros x. split; intros Hx; rewrite Hx; split; [..|intros [H|(t' & [= <-] & H)]; [by destruct ts|done]];
      [intros [H|(t' & [= <-] & H)]; [by destruct ts|done]|right; by exists t|right; by exists t]. }
  rewrite Hlast. unfold watchdog_turn, down. destruct (tn_liveness t) as [pid up|] eqn:El.
  - case_bool_decide; cbn; by rewrite ?I2.
  - pose proof (outage_bound ts). rewrite I1. rewrite N.mod_small by lia.
    case_bool_decide; [|cbn; by rewrite ?I2].
    destruct (escalate_fields s t (outage ts + 1)) as (E1 & E2 & E3 & _). by rewrite E1, E2, E3, I2.
Qed.

Lemma restart_count_turn (s : Watchdog) (t : Turn) :
  restart_count (wd_state (watchdog_turn s t))
  = match tn_liveness t with
    | Alive _ _ => if bool_decide (wd_last s = Unreachable) then ((restart_count (wd_state s) + 1) mod U32_MOD)%N
                   else restart_count (wd_state s)
    | Unreachable => restart_count (wd_state s)
    end
  /\ (wd_last (watchdog_turn s t) = Unreachable <-> down t)
  /\ wd_saved (watchdog_turn s t)
     = wd_saved s ++ match tn_liveness t with
                     | Alive _ _ => if bool_decide (wd_last s = Unreachable) then [wd_state (watchdog_turn s t)] else []
                     | Unreachable => []
                     end.
Proof.
  unfold watchdog_turn, down. destruct (tn_liveness t); [case_bool_decide; by rewrite ?app_nil_r|].
  case_bool_decide; [|by rewrite app_nil_r]. destruct (escalate_fields s t ((wd_misses s + 1) mod U32_MOD)) as (_ & -> & _ & -> & ->).
  by rewrite app_nil_r.
Qed.

Lemma restart_count_run (ts : list Turn) (s : Watchdog) :
  (restart_count (wd_state s) < U32_MOD)%N ->
  restart_count (wd_state (watchdog_run s ts))
  = ((restart_count (wd_state s) + answers_after_silence (bool_decide (wd_last s = Unreachable)) ts) mod U32_MOD)%N.
Proof.
  revert s. induction ts as [|t ts IH]; intros s Hs; cbn; [rewrite N.add_0_r; by rewrite N.mod_small|].
  destruct (restart_count_turn s t) as (Hc & Hl & _). unfold watchdog_run in IH. rewrite IH; rewrite Hc.
  - rewrite (bool_decide_ext _ _ Hl). unfold down. destruct (tn_liveness t); [|done].
    rewrite (bool_decide_eq_false_2 (Alive _ _ = _)) by done.
    case_bool_decide; [rewrite N.Div0.add_mod_idemp_l; f_equal; lia|f_equal; lia].
  - destruct (tn_liveness t); [case_bool_decide|]; [apply N.mod_lt; done|done..].
Qed.

(** ** Properties *)

(** What the watchdog makes of a daemon that answers pings. *)
Section Pings.
Context `{SE : ServerEnv, SC : ServerCodec, CR : Crypto}.

(** The stream of a daemon in state [s], for a client of this identity. *)
Definition daemon_peer (s : Server) (now : Z) (id : result ProcessIdentity string) (cs : AuditToken -> CodesignVerdict) : Peer :=
  mkPeer None (fun bytes => match (handle s now (mkConn id cs bytes)).2 with
                            | Wrote b | PromptThread _ b => b
                            | Waiting _ _ _ _ | Panicked => ""
                            end).

(** The frame of a value whose encoding fits. *)
Lemma write_frame_fits {T} `{Cbor T} (pre b : string) (v : T) :
  into_writer v = Ok b -> (N.of_nat (String.length b) <= MAX_FRAME_BYTES)%N ->
  write_frame (mkWriter pre None) v = Ok (mkWriter (pre +:+ to_be_bytes (N.of_nat (String.length b)) +:+ b) None).
Proof.
  intros Hb Hm. unfold write_frame, write_frame_with_limit. rewrite Hb. cbn.
  rewrite bool_decide_eq_false_2 by lia. rewrite bool_decide_eq_true_2 by (unfold MAX_FRAME_BYTES, U32_MAX in *; lia).
  cbn. by rewrite app_assoc_str.
Qed.

Lemma read_frame_fits {T} `{Cbor T} (b : string) (v : T) :
  cbor_round_trips T -> into_writer v = Ok b -> (N.of_nat (String.length b) <= MAX_FRAME_BYTES)%N ->
  read_frame (to_be_bytes (N.of_nat (String.length b)) +:+ b) = (Ok v, "").
Proof.
  intros Hrt Hb Hm. rewrite <- (app_nil_r_str (to_be_bytes _ +:+ b)), app_assoc_str.
  apply read_frame_app; [done..|]. unfold MAX_FRAME_BYTES, U32_MAX in *; lia.
Qed.

(** An error written to a peer that was refused does not start with a tag. *)
Lemma legacy_err_head (m : string) :
  write_legacy_err m = "" \/ exists b, write_legacy_err m = String (ascii_of_N 0) b.
Proof.
  unfold write_legacy_err. destruct (write_frame _ _) as [w|] eqn:E; [right|by left].
  apply write_frame_ok in E as (b & _ & Hm & _ & ->). cbn [written]. rewrite app_nil_l_str.
  unfold to_be_bytes. rewrite app_cons_str. exists (String (ascii_of_N (N.shiftr (N.of_nat (String.length b)) 16 mod 256))
    (String (ascii_of_N (N.shiftr (N.of_nat (String.length b)) 8 mod 256)) (String (ascii_of_N (N.of_nat (String.length b) mod 256)) "")) +:+ b).
  do 2 f_equal. rewrite N.shiftr_div_pow2. unfold MAX_FRAME_BYTES in Hm. change (2 ^ 24)%N with 16777216%N.
  by rewrite N.div_small by lia.
Qed.

(** The watchdog and the daemon agree on the ping.  A watchdog the daemon
    identifies reads back the process id of the daemon and its uptime in whole
    seconds; one the daemon refuses counts a miss although the daemon serves.  The
    state of the daemon does not change. *)
Theorem ping_alive_when_served (s : Server) (now : Z) (id : result ProcessIdentity string)
    (cs : AuditToken -> CodesignVerdict) (request reply : string) :
  let up := Z.to_N ((now - sv_started_ms s) / 1000) in
  cbor_round_trips (Versioned unit) -> cbor_round_trips PingReply ->
  into_writer Ping_new = Ok request -> (N.of_nat (String.length request) <= MAX_FRAME_BYTES)%N ->
  into_writer (RepOk SCHEMA_V4 (sv_process_id, up) : PingReply) = Ok reply ->
  (N.of_nat (String.length reply) <= MAX_FRAME_BYTES)%N ->
  ping_daemon (Some (daemon_peer s now id cs))
  = match authenticate_verified_peer (mkConn id cs "") with Ok _ => Alive sv_process_id up | Err _ => Unreachable end
  /\ forall sent, (handle s now (mkConn id cs (String (ascii_of_N TAG_PING) sent))).1 = s.
Proof.
  intros up Hrt Hrt' Hq Hql Hr Hrl. split.
  - unfold ping_daemon, daemon_peer. cbn [pe_write_fault pe_answer write_all w_fault]. rewrite app_nil_l_str.
    rewrite (write_frame_fits _ _ _ Hq Hql). cbn [written]. rewrite app_cons_str, app_nil_l_str.
    unfold handle. change (authenticate_verified_peer (mkConn id cs _)) with (authenticate_verified_peer (mkConn id cs "")).
    destruct (authenticate_verified_peer (mkConn id cs "")) as [tok|m].
    + cbn [cn_bytes]. change (classify_peer_frame (String (ascii_of_N TAG_PING) ?rest)) with (Ok (E := string) (Tagged Ping, rest)).
      cbn [dispatch_peer_frame]. unfold handle_ping_frame, answer, decode_with, read_tagged_body. change (max_frame_bytes_for_tag Ping) with MAX_FRAME_BYTES.
      pose proof (read_frame_fits _ _ Hrt Hq Hql) as Hread. unfold read_frame in Hread. rewrite Hread. cbn [fst map_err snd].
      fold up. unfold write_tagged. change (max_frame_bytes_for_tag Ping) with MAX_FRAME_BYTES.
      pose proof (write_frame_fits (String (ascii_of_N (as_byte Ping)) "") _ _ Hr Hrl) as Hwrite.
      unfold write_frame, PingReply in *. rewrite Hwrite. cbn [written]. rewrite app_cons_str, app_nil_l_str.
      change (byte_val (ascii_of_N (as_byte Ping))) with 21%N. cbn. by rewrite (read_frame_fits _ _ Hrt' Hr Hrl).
    + cbn. by destruct (legacy_err_head m) as [->|[b ->]].
  - intros sent. unfold handle. destruct (authenticate_verified_peer _); [|done]. cbn [cn_bytes].
    change (classify_peer_frame (String (ascii_of_N TAG_PING) sent)) with (Ok (E := string) (Tagged Ping, sent)).
    cbn [dispatch_peer_frame]. unfold handle_ping_frame, answer.
    by destruct (decode_with (T := Versioned unit) Ping sent).
Qed.

End Pings.

(** The watchdog signals a daemon exactly at the second missed ping of an
    outage, once however long the outage lasts, and signals the process of the ready
    file or else the last one that answered.  The count of restarts is the number of
    answers that followed a silence, start-up included, and is saved at each. *)
Theorem watchdog_escalates_once (ready : option string) (st : WatchdogState) (pre : list Turn) (t : Turn) :
  (N.of_nat (length (pre ++ [t])) < U32_MOD)%N -> (restart_count st < U32_MOD)%N ->
  let s := watchdog_run (watchdog_start ready st) pre in
  let s' := watchdog_run (watchdog_start ready st) (pre ++ [t]) in
  wd_calls s'
  = wd_calls s
    ++ (if bool_decide (outage (pre ++ [t]) = 2%N) then
          match match read_daemon_pid (tn_ready t) with
                | Some p => Some p
                | None => answered_pid (read_daemon_pid ready) pre
                end with
          | Some pid => kill_escalation pid (tn_term_ok t) (tn_alive_after t)
          | None => []
          end
        else [])
  /\ restart_count (wd_state s') = ((restart_count st + answers_after_silence true (pre ++ [t])) mod U32_MOD)%N
  /\ (wd_saved s' <> wd_saved s -> wd_saved s' = wd_saved s ++ [wd_state s'] /\ ~ down t).
Proof.
  intros Hl Hst s s'. rewrite length_app in Hl. change (length [t]) with 1 in Hl.
  destruct (watchdog_history ready st pre) as (H1 & H2 & _); [lia|]. fold s in H1, H2. split_and!.
  - unfold s'. rewrite watchdog_run_snoc, outage_snoc. fold s. unfold watchdog_turn.
    destruct (tn_liveness t) eqn:El; [rewrite app_nil_r; by case_bool_decide|].
    pose proof (outage_bound pre). rewrite H1, N.mod_small by lia. unfold KILL_THRESHOLD.
    case_bool_decide; [|by rewrite app_nil_r]. unfold escalate. rewrite H2.
    destruct (match read_daemon_pid _ with Some _ => _ | None => _ end); [done|by rewrite app_nil_r].
  - unfold s'. by rewrite restart_count_run.
  - unfold s'. rewrite watchdog_run_snoc. fold s. destruct (restart_count_turn s t) as (_ & _ & Hs). rewrite Hs.
    unfold down. destruct (tn_liveness t); [case_bool_decide|]; rewrite ?app_nil_r; [|done..]. by split.
Qed.

(** The first answer after start-up counts as a restart although nothing failed, and
    a daemon that comes back but never answers is not signalled again. *)
Lemma first_contact_counts (ready : option string) (st : WatchdogState) (pid up : N) (t : Turn) :
  tn_liveness t = Alive pid up -> (restart_count st + 1 < U32_MOD)%N ->
  restart_count (wd_state (watchdog_run (watchdog_start ready st) [t])) = (restart_count st + 1)%N
  /\ last_restart_reason (wd_state (watchdog_run (watchdog_start ready st) [t])) = Some "watchdog-detected-outage".
Proof. intros Ht Hc. cbn. unfold watchdog_turn. rewrite Ht. split; [by apply N.mod_small|done]. Qed.

(** ** A concrete outage *)

Definition toy_turn (l : LivenessState) : Turn := mkTurn l (Some "412 1700000000") 5000 1700000000 true true.

Lemma watchdog_escalates_once_witness :
  wd_calls (watchdog_run (watchdog_start None (mkWatchdogState 0 None None None))
    [toy_turn (Alive 412 9); toy_turn Unreachable; toy_turn Unreachable; toy_turn Unreachable])
  = [mkKill 412 SIGTERM; mkKill 412 0; mkKill 412 SIGKILL].
Proof.
  destruct (watchdog_escalates_once None (mkWatchdogState 0 None None None)
    [toy_turn (Alive 412 9); toy_turn Unreachable; toy_turn Unreachable] (toy_turn Unreachable)) as (Hc & _); [done..|].
  etransitivity; [exact Hc|]. vm_compute; reflexivity.
Defined.

#[local] Instance versioned_eq_dec : EqDecision (Versioned unit).
Proof. solve_decision. Defined.
#[local] Instance ping_reply_eq_dec : EqDecision PingReply.
Proof. intros [] []; unfold Decision; repeat decide equality. Defined.

Definition toy_ping_codec : ServerCodec := {|
  sc_register := toy_cbor None; sc_ack := toy_cbor None;
  sc_fork := toy_cbor None; sc_exec := toy_cbor None; sc_loaded := toy_cbor None;
  sc_env_gap := toy_cbor None; sc_blocked := toy_cbor None;
  sc_persist := toy_cbor None; sc_deny := toy_cbor None;
  sc_channel := toy_cbor None;
  sc_resolve := toy_cbor None; sc_resolve_reply := toy_cbor None;
  sc_prepare := toy_cbor None; sc_publish := toy_cbor None;
  sc_snapshot_reply := toy_cbor None; sc_inputs_reply := toy_cbor None;
  sc_empty := toy_only Ping_new; sc_run := toy_cbor None; sc_list := toy_cbor None;
  sc_kinds := toy_cbor None;
  sc_insert := toy_cbor None; sc_disable := toy_cbor None;
  sc_enable := toy_cbor None;
  sc_status_reply := toy_cbor None; sc_insert_reply := toy_cbor None;
  sc_artifacts_reply := toy_cbor None; sc_baseline_reply := toy_cbor None;
  sc_rules_reply := toy_cbor None; sc_delete_reply := toy_cbor None;
  sc_ping_reply := toy_only (RepOk 4 (77, 9)%N); sc_disable_reply := toy_cbor None;
  sc_enable_reply := toy_cbor None;
|}.

Lemma ping_alive_when_served_witness :
  @ping_daemon (@sc_empty toy_ping_codec) (@sc_ping_reply toy_ping_codec)
    (Some (@daemon_peer toy_server_env toy_ping_codec toy_crypto toy_boot 9500 (Ok (Verified root_tok)) (fun _ => CsValid)))
  = Alive 77 9.
Proof.
  destruct (@ping_alive_when_served toy_server_env toy_ping_codec toy_crypto toy_boot 9500 (Ok (Verified root_tok))
    (fun _ => CsValid) "p" "p" (toy_only_round_trips _) (toy_only_round_trips _)) as [H _]; [by vm_compute..|].
  etransitivity; [exact H|]. vm_compute; reflexivity.
Defined.
