(* ===== verification/HardwareSigning.v ===== *)
(** * Signing with the keychain of the user

    [crates/guard-cli/src/hardware_signing.rs], [rule_signing.rs] and the errors of
    the command line, in the production build for macOS.  Security.framework is the
    class [SecurityFramework]; the state of the process is its effective identity and
    the signing key each user keeps in their keychain under the tag of the guard.
    Allocations of Core Foundation objects succeed. *)

From S2P Require Import Prelude RustStr TrustedSigners Signature RuleStore.

(** ** lib.rs *)

Inductive CliError : Type :=
| DaemonUnreachable (msg : string)
| DylibNotFound (msg : string)
| CliIo (msg : string)
| CliIpc (msg : string)
| CliOther (msg : string).

#[export] Instance CliError_eq_dec : EqDecision CliError.
Proof. solve_decision. Defined.

Definition show_cli_error (e : CliError) : string :=
  match e with
  | DaemonUnreachable m => "daemon not running or socket inaccessible: " +:+ m
  | DylibNotFound m => "dylib not found: " +:+ m
  | CliIo m => "io: " +:+ m
  | CliIpc m => "ipc: " +:+ m
  | CliOther m => m
  end.

(** ** Security.framework *)

(** A [CFError]: its code, and its description when there is one that is UTF-8. *)
Record CfError : Type := mkCfError {
  cf_code : Z;
  cf_text : option (option string);
}.

Class SecurityFramework : Type := {
  SecKey : Type;
  (** The status of a call that fails, by the name of the call. *)
  sec_status : string -> option Z;
  SecKeyCreateRandomKey : result SecKey (option CfError);
  SecKeyIsAlgorithmSupported : SecKey -> bool;
  SecKeyCreateSignature : SecKey -> string -> result string (option CfError);
  SecKeyCopyPublicKey : SecKey -> bool;
  SecKeyCopyExternalRepresentation : SecKey -> result string (option CfError);
  (** The error of [seteuid] or [setegid], by the name of the call and its argument. *)
  set_id_error : string -> N -> option string;
  cli_var : string -> option string;
}.

Inductive KeychainFailureKind : Type :=
| AuthenticationDenied | InteractionUnavailable | MissingEntitlementOrSession
| SecurityFrameworkUnavailable | OtherFailure.

#[export] Instance KeychainFailureKind_eq_dec : EqDecision KeychainFailureKind.
Proof. solve_decision. Defined.

Definition classify_os_status (status : Z) : KeychainFailureKind :=
  match status with
  | (-25293)%Z | (-128)%Z => AuthenticationDenied
  | (-25308)%Z => InteractionUnavailable
  | (-34018)%Z => MissingEntitlementOrSession
  | (-25291)%Z => SecurityFrameworkUnavailable
  | _ => OtherFailure
  end.

Definition describe_os_status (status : Z) : string :=
  match classify_os_status status with
  | AuthenticationDenied => "user authentication was cancelled or denied (OSStatus " +:+ pretty status +:+ ")"
  | InteractionUnavailable =>
      "keychain interaction is not available in this session (OSStatus " +:+ pretty status +:+ ")"
  | MissingEntitlementOrSession =>
      "keychain access is missing a required entitlement or session binding (OSStatus "
      +:+ pretty status +:+ ")"
  | SecurityFrameworkUnavailable =>
      "Security.framework or the keychain is unavailable in this session (OSStatus " +:+ pretty status +:+ ")"
  | OtherFailure => "Security.framework returned OSStatus " +:+ pretty status
  end.

Definition security_status_error (action : string) (status : Z) : CliError :=
  CliOther (action +:+ " failed: " +:+ describe_os_status status).

Definition cf_description (e : CfError) : string :=
  match cf_text e with
  | None => "Core Foundation did not provide error details"
  | Some None => "Core Foundation error details were not UTF-8"
  | Some (Some text) => text
  end.

(** The code fits an [i32]. *)
Definition actionable_cf_error_description (e : CfError) : option string :=
  if bool_decide (-2147483648 <= cf_code e <= 2147483647)%Z
     && negb (bool_decide (classify_os_status (cf_code e) = OtherFailure))
  then Some (describe_os_status (cf_code e)) else None.

Definition cf_error_or_message (action : string) (error : option CfError) : CliError :=
  CliOther
    match error with
    | None => action +:+ " failed"
    | Some e =>
        match actionable_cf_error_description e with
        | Some description => action +:+ " failed: " +:+ description +:+ "; " +:+ cf_description e
        | None => action +:+ " failed: " +:+ cf_description e
        end
    end.

Definition ERR_SEC_SUCCESS : Z := 0.
Definition ERR_SEC_ITEM_NOT_FOUND : Z := -25300.

(** ** The process *)

Record Proc `{SecurityFramework} : Type := mkProc {
  p_euid : N;
  p_egid : N;
  p_keychains : gmap N SecKey;
}.

Record KeychainEnrollment : Type := mkKeychainEnrollment {
  ke_public_key_x963 : string;
  ke_created : bool;
}.

Record KeychainSignature : Type := mkKeychainSignature {
  ks_public_key_x963 : string;
  ks_signature_der : string;
}.

Inductive SigningInteraction : Type := WithPrompt | WithoutPrompt.

Record HardwareSignerEnrollment : Type := mkEnrollment {
  he_signer_kind : string;
  he_public_key_x963 : string;
  he_public_key_sha256 : string;
  he_label : string;
  he_created : bool;
}.

Section Keychain.
Context `{SF : SecurityFramework}.

Definition with_ids (p : Proc) (uid gid : N) : Proc := mkProc _ uid gid (p_keychains p).

(** The items of the current user with the tag of the guard: at most one key. *)
Definition SecItemDelete (p : Proc) : Proc * Z :=
  match sec_status "SecItemDelete" with
  | Some status => (p, status)
  | None =>
      match p_keychains p !! p_euid p with
      | Some _ => (mkProc _ (p_euid p) (p_egid p) (delete (p_euid p) (p_keychains p)), ERR_SEC_SUCCESS)
      | None => (p, ERR_SEC_ITEM_NOT_FOUND)
      end
  end.

Definition SecItemCopyMatching (interaction : SigningInteraction) (p : Proc) : result SecKey Z :=
  match sec_status (match interaction with
                    | WithPrompt => "SecItemCopyMatching"
                    | WithoutPrompt => "SecItemCopyMatching, no interface"
                    end) with
  | Some status => Err status
  | None => ok_or (p_keychains p !! p_euid p) ERR_SEC_ITEM_NOT_FOUND
  end.

Definition delete_key : SM Proc CliError bool := fun p =>
  let '(p', status) := SecItemDelete p in
  if bool_decide (status = ERR_SEC_SUCCESS) then (p', Ok true)
  else if bool_decide (status = ERR_SEC_ITEM_NOT_FOUND) then (p', Ok false)
  else (p', Err (security_status_error "delete macOS Keychain signing key" status)).

(** The key is permanent: it is kept in the keychain. *)
Definition create_private_key : SM Proc CliError SecKey := fun p =>
  match sec_status "SecAccessCreate" with
  | Some status =>
      (p, Err (security_status_error "create macOS Keychain signing key access policy" status))
  | None =>
      match SecKeyCreateRandomKey with
      | Err error => (p, Err (cf_error_or_message "create macOS Keychain signing key" error))
      | Ok key => (mkProc _ (p_euid p) (p_egid p) (<[p_euid p := key]> (p_keychains p)), Ok key)
      end
  end.

Definition export_public_key_x963 (private_key : SecKey) : result string CliError :=
  if negb (SecKeyCopyPublicKey private_key) then Err (CliOther "macOS Keychain key has no public key")
  else map_err (cf_error_or_message "export macOS Keychain public key")
         (SecKeyCopyExternalRepresentation private_key).

Definition find_private_key (interaction : SigningInteraction) (p : Proc) : result (option SecKey) CliError :=
  match SecItemCopyMatching interaction p with
  | Ok item => Ok (Some item)
  | Err status =>
      if bool_decide (status = ERR_SEC_ITEM_NOT_FOUND) then Ok None
      else Err (security_status_error "look up macOS Keychain signing key" status)
  end.

Definition sign_payload (payload : string) (interaction : SigningInteraction) (p : Proc)
  : result KeychainSignature CliError :=
  let? found := find_private_key interaction p in
  let? key := ok_or found (CliOther
    "OS-backed signing key unavailable; run the installer to enroll macOS Keychain signing") in
  if negb (SecKeyIsAlgorithmSupported key)
    then Err (CliOther "macOS Keychain key does not support ECDSA P-256 SHA-256 signing")
  else
    let? signature := map_err (cf_error_or_message "macOS Keychain signing")
                        (SecKeyCreateSignature key payload) in
    let? public_key := export_public_key_x963 key in
    Ok (mkKeychainSignature public_key signature).

(** ** The identity the key is enrolled under *)

Record InitUserIdentityGuard : Type := mkGuard {
  restore_uid : option N;
  restore_gid : option N;
}.

Definition sudo_id (name : string) : result N CliError :=
  let? text := ok_or (cli_var name) (CliOther
    "Keychain enrollment requires SUDO_UID/SUDO_GID from the target install user") in
  map_err (fun e => CliOther (name +:+ " contains an invalid uid/gid: " +:+ e)) (parse_u32 text).

Definition set_effective_uid (uid : N) (action : string) : SM Proc CliError unit := fun p =>
  match set_id_error "seteuid" uid with
  | Some e => (p, Err (CliOther (action +:+ " failed: " +:+ e)))
  | None => (with_ids p uid (p_egid p), Ok tt)
  end.

Definition set_effective_gid (gid : N) (action : string) : SM Proc CliError unit := fun p =>
  match set_id_error "setegid" gid with
  | Some e => (p, Err (CliOther (action +:+ " failed: " +:+ e)))
  | None => (with_ids p (p_euid p) gid, Ok tt)
  end.

Definition enter : SM Proc CliError InitUserIdentityGuard :=
  p ← sm_get;
  if negb (bool_decide (p_euid p = 0%N)) then mret (mkGuard None None)
  else
    target_user_id ← sm_lift (sudo_id "SUDO_UID");
    target_group_id ← sm_lift (sudo_id "SUDO_GID");
    if bool_decide (target_user_id = 0%N)
      then sm_lift (Err (CliOther "Keychain enrollment requires running the system install via sudo from the target user; refusing to enroll a root-owned signing key"))
    else
      set_effective_gid target_group_id "switch to sudo user's group for Keychain enrollment" ;;
      set_effective_uid target_user_id "switch to sudo user for Keychain enrollment" ;;
      mret (mkGuard (Some (p_euid p)) (Some (p_egid p))).

(** [restore], which forgets the guard first: nothing runs after a failure. *)
Definition restore (g : InitUserIdentityGuard) : SM Proc CliError unit :=
  match restore_uid g with
  | Some uid => set_effective_uid uid "restore root user after Keychain enrollment"
  | None => mret tt
  end ;;
  match restore_gid g with
  | Some gid => set_effective_gid gid "restore root group after Keychain enrollment"
  | None => mret tt
  end.

(** [Drop]: failures are ignored. *)
Definition drop_guard (g : InitUserIdentityGuard) (p : Proc) : Proc :=
  let p1 := match restore_uid g with Some uid => (set_effective_uid uid "" p).1 | None => p end in
  match restore_gid g with Some gid => (set_effective_gid gid "" p1).1 | None => p1 end.

(** A body under the guard: an early return drops it. *)
Definition under {A} (identity_guard : InitUserIdentityGuard) (body : SM Proc CliError A) : SM Proc CliError A :=
  fun p => match body p with
           | (p', Err e) => (drop_guard identity_guard p', Err e)
           | (p', Ok a) => (restore identity_guard ;; mret a) p'
           end.

Definition guarded {A} (body : SM Proc CliError A) : SM Proc CliError A :=
  identity_guard ← enter; under identity_guard body.

Definition enroll_key_for_init : SM Proc CliError KeychainEnrollment :=
  guarded (old_key_existed ← delete_key;
           key ← create_private_key;
           public ← sm_lift (export_public_key_x963 key);
           mret (mkKeychainEnrollment public (negb old_key_existed))).

Definition delete_key_for_init : SM Proc CliError unit := guarded (delete_key ;; mret tt).

(** ** Enrollment and signing *)

Definition unavailable_error : CliError :=
  CliOther "OS-backed signing key unavailable; software-only rule signing is unsupported".

Definition hardware_signer_disabled : bool :=
  match cli_var "STT_GUARD_DISABLE_HARDWARE_SIGNER" with Some _ => true | None => false end.

Definition init_user_label (p : Proc) : string :=
  match cli_var "SUDO_USER" with
  | Some user =>
      if bool_decide (p_euid p = 0%N) && negb (bool_decide (user = "root"))
      then "macOS Keychain (" +:+ user +:+ ")" else "macOS Keychain"
  | None => "macOS Keychain"
  end.

Context `{Crypto}.

Definition enroll_keychain_signer_for_init : SM Proc CliError HardwareSignerEnrollment :=
  if hardware_signer_disabled then sm_lift (Err unavailable_error)
  else
    enrollment ← enroll_key_for_init;
    p ← sm_get;
    mret (mkEnrollment SIGNER_KIND_MACOS_KEYCHAIN (ke_public_key_x963 enrollment)
            (sha256_hex (ke_public_key_x963 enrollment)) (init_user_label p) (ke_created enrollment)).

Definition delete_keychain_signer_for_init : SM Proc CliError unit := delete_key_for_init.

(** The detached signature the three signers build. *)
Definition keychain_signature (signed : KeychainSignature) (payload_bytes : string) (created_at : Z)
  : RuleSignatureV1 :=
  mkSignature RULE_SIGNATURE_SCHEME_ECDSA_P256_SHA256 SIGNER_KIND_MACOS_KEYCHAIN
    (ks_public_key_x963 signed) (sha256_hex (ks_public_key_x963 signed)) (ks_signature_der signed)
    (sha256_hex payload_bytes) created_at.

Definition sign_rule_payload (payload : RuleSignaturePayloadV1) (p : Proc) : result RuleSignatureV1 CliError :=
  if hardware_signer_disabled then Err unavailable_error
  else
    let? payload_bytes := map_err (fun e => CliOther ("canonical rule payload encode failed: "
                            +:+ show_signature_error e)) (canonical_rule_payload_bytes payload) in
    let? signed_payload := sign_payload payload_bytes WithPrompt p in
    Ok (keychain_signature signed_payload payload_bytes (rp_created_at_unix_ms payload)).

Definition sign_snapshot_payload (payload : SnapshotSignaturePayloadV1) (p : Proc)
  : result SnapshotSignatureV1 CliError :=
  if hardware_signer_disabled then Err unavailable_error
  else
    let? payload_bytes := map_err (fun e => CliOther ("canonical snapshot payload encode failed: "
                            +:+ show_signature_error e)) (canonical_snapshot_payload_bytes payload) in
    let? signed_payload := map_err (fun e => CliOther
        ("snapshot signing requires repaired macOS Keychain access; run `sudo stt-guard install-system -y`: "
         +:+ show_cli_error e)) (sign_payload payload_bytes WithoutPrompt p) in
    Ok (keychain_signature signed_payload payload_bytes (sp_generated_at_unix_ms payload)).

Definition sign_management_action_payload (payload : ManagementActionPayloadV1) (p : Proc)
  : result RuleSignatureV1 CliError :=
  if hardware_signer_disabled then Err unavailable_error
  else
    let? payload_bytes := map_err (fun e => CliOther ("canonical management-action payload encode failed: "
                            +:+ show_signature_error e)) (canonical_management_action_payload_bytes payload) in
    let? signed_payload := sign_payload payload_bytes WithPrompt p in
    Ok (keychain_signature signed_payload payload_bytes (mp_created_at_unix_ms payload)).

End Keychain.

(** ** Lemmas *)

(** What the framework documents of a P-256 key: the DER signature it makes over a
    message verifies under the exported X9.63 public half. *)
Definition keychain_signs `{SecurityFramework, Crypto} : Prop :=
  forall key bytes der pub,
    SecKeyCreateSignature key bytes = Ok der -> SecKeyCopyExternalRepresentation key = Ok pub ->
    exists k g, from_sec1_bytes pub = Some k /\ from_der der = Some g /\ ecdsa_verify k bytes g = true.

Section KeychainFacts.
Context `{SF : SecurityFramework, CR : Crypto}.

Lemma sign_payload_ok (payload : string) (i : SigningInteraction) (p : Proc) (s : KeychainSignature) :
  sign_payload payload i p = Ok s ->
  exists key, p_keychains p !! p_euid p = Some key
    /\ export_public_key_x963 key = Ok (ks_public_key_x963 s)
    /\ SecKeyCreateSignature key payload = Ok (ks_signature_der s).
Proof.
  unfold sign_payload, find_private_key, SecItemCopyMatching. intros Hs.
  destruct (sec_status _); [by case_bool_decide|].
  destruct (p_keychains p !! p_euid p) as [key|]; [|done]. simpl in Hs.
  destruct (SecKeyIsAlgorithmSupported key); [|done]. simpl in Hs.
  destruct (SecKeyCreateSignature key payload) as [der|] eqn:Hd; [|done]. simpl in Hs.
  destruct (export_public_key_x963 key) as [pub|] eqn:Hp; [|done]. injection Hs as <-. by exists key.
Qed.

Lemma export_ok (key : SecKey) (pub : string) :
  export_public_key_x963 key = Ok pub -> SecKeyCopyExternalRepresentation key = Ok pub.
Proof.
  unfold export_public_key_x963. destruct (SecKeyCopyPublicKey key); [|done]. simpl.
  by destruct (SecKeyCopyExternalRepresentation key); simpl; intros [= ->].
Qed.

(** The signature belongs to the key in the keychain of the current user. *)
Definition signed_by_user (p : Proc) (s : RuleSignatureV1) : Prop :=
  exists key, p_keychains p !! p_euid p = Some key
    /\ export_public_key_x963 key = Ok (sig_public_key_x963 s)
    /\ sig_signer_kind s = SIGNER_KIND_MACOS_KEYCHAIN
    /\ sig_public_key_sha256 s = sha256_hex (sig_public_key_x963 s).

Lemma keychain_signature_authentic (law : keychain_signs) (payload_bytes : string) (i : SigningInteraction)
    (p : Proc) (ks : KeychainSignature) (created_at : Z) (policy : RuleSignaturePolicy) :
  sign_payload payload_bytes i p = Ok ks ->
  Authentic payload_bytes (keychain_signature ks payload_bytes created_at) policy
  /\ signed_by_user p (keychain_signature ks payload_bytes created_at).
Proof.
  intros (key & Hk & Hp & Hs)%sign_payload_ok. split; [|by exists key].
  constructor; try done; [by destruct policy|]. by apply (law key); [|apply export_ok].
Qed.

End KeychainFacts.

(** *** The identity guard *)

Section Guard.
Context `{SF : SecurityFramework}.

(** The user whose keychain an enrollment works on: the user themselves, or under
    [sudo] the user who called it, never root. *)
Definition enrolling_user (p : Proc) (u : N) : Prop :=
  u <> 0%N /\ (p_euid p = u \/ (p_euid p = 0%N /\ sudo_id "SUDO_UID" = Ok u)).

(** How [enter] ends: a guard that remembers the identity it left, or an error. *)
Lemma enter_cases (p p1 : Proc) (r : result InitUserIdentityGuard CliError) :
  enter p = (p1, r) ->
  p_keychains p1 = p_keychains p
  /\ match r with
     | Ok g => enrolling_user p (p_euid p1)
               /\ ((p1 = p /\ g = mkGuard None None) \/ g = mkGuard (Some (p_euid p)) (Some (p_egid p)))
     | Err _ => (forall c i, set_id_error c i = None) -> p1 = p
     end.
Proof.
  unfold enter. rewrite sm_bind_eq. cbn [sm_get]. case_bool_decide as He; cbn [negb].
  2: { intros [= <- <-]. split; [done|]. split; [|by left]. split; [done|by left]. }
  rewrite sm_bind_eq. unfold sm_lift at 1. destruct (sudo_id "SUDO_UID") as [uid|] eqn:Hu; [|by intros [= <- <-]].
  rewrite sm_bind_eq. unfold sm_lift at 1. destruct (sudo_id "SUDO_GID") as [gid|] eqn:Hg; [|by intros [= <- <-]].
  case_bool_decide as H0; [by intros [= <- <-]|].
  rewrite sm_bind_eq. unfold set_effective_gid. destruct (set_id_error "setegid" gid) eqn:Eg; [by intros [= <- <-]|].
  rewrite sm_bind_eq. unfold set_effective_uid. destruct (set_id_error "seteuid" uid) eqn:Eu.
  - intros [= <- <-]. split; [done|]. intros Hno. by rewrite Hno in Eu.
  - intros [= <- <-]. split; [done|]. split; [|by right]. split; [done|by right].
Qed.

Lemma restore_cases (p p1 p2 : Proc) (g : InitUserIdentityGuard) (r : result unit CliError) :
  restore g p1 = (p2, r) ->
  (g = mkGuard None None /\ p_euid p1 = p_euid p /\ p_egid p1 = p_egid p) \/ g = mkGuard (Some (p_euid p)) (Some (p_egid p)) ->
  p_keychains p2 = p_keychains p1
  /\ (r = Ok tt \/ (forall c i, set_id_error c i = None) -> p_euid p2 = p_euid p /\ p_egid p2 = p_egid p).
Proof.
  unfold restore. intros Hr [[-> [Hu Hg]]| ->]; [injection Hr as <- <-; done|].
  cbn in Hr. rewrite sm_bind_eq in Hr. unfold set_effective_uid in Hr. destruct (set_id_error "seteuid" _) eqn:Eu.
  { injection Hr as <- <-. split; [done|]. intros [|Hno]; [done|]. by rewrite Hno in Eu. }
  unfold set_effective_gid in Hr. destruct (set_id_error "setegid" _) eqn:Eg; injection Hr as <- <-; [|done].
  split; [done|]. intros [|Hno]; [done|]. by rewrite Hno in Eg.
Qed.

Lemma drop_guard_cases (p p1 : Proc) (g : InitUserIdentityGuard) :
  (g = mkGuard None None /\ p_euid p1 = p_euid p /\ p_egid p1 = p_egid p) \/ g = mkGuard (Some (p_euid p)) (Some (p_egid p)) ->
  p_keychains (drop_guard g p1) = p_keychains p1
  /\ ((forall c i, set_id_error c i = None) ->
      p_euid (drop_guard g p1) = p_euid p /\ p_egid (drop_guard g p1) = p_egid p).
Proof.
  intros [[-> [Hu Hg]]| ->]; [done|]. unfold drop_guard, set_effective_uid, set_effective_gid. cbn.
  split; [by repeat destruct (set_id_error _ _)|]. intros Hno. by rewrite !Hno.
Qed.

(** A body that works on the keychain of the current user only and leaves its
    identity, run under the guard. *)
Lemma guarded_spec {A} (body : SM Proc CliError A) (p p' : Proc) (r : result A CliError) :
  (forall q, p_euid (body q).1 = p_euid q /\ p_egid (body q).1 = p_egid q
             /\ forall u, u <> p_euid q -> p_keychains (body q).1 !! u = p_keychains q !! u) ->
  guarded body p = (p', r) ->
  (forall u, p_keychains p' !! u <> p_keychains p !! u -> enrolling_user p u)
  /\ ((forall c i, set_id_error c i = None) -> p_euid p' = p_euid p /\ p_egid p' = p_egid p)
  /\ (forall a, r = Ok a -> p_euid p' = p_euid p /\ p_egid p' = p_egid p
        /\ exists q q', p_keychains q = p_keychains p /\ enrolling_user p (p_euid q) /\ body q = (q', Ok a)
             /\ p_keychains p' = p_keychains q').
Proof.
  intros Hb. unfold guarded. rewrite sm_bind_eq. destruct (enter p) as [p1 [g|e]] eqn:He;
    apply enter_cases in He as (Hk1 & Hg).
  2: { intros [= <- <-]. split_and!; [intros u; by rewrite Hk1|intros Hno; by rewrite (Hg Hno)|done]. }
  destruct Hg as (Hu & Hg). unfold under. specialize (Hb p1). destruct (body p1) as [p2 rb] eqn:E. cbn in Hb.
  destruct Hb as (Heu & Hegid & Hkc).
  assert ((g = mkGuard None None /\ p_euid p2 = p_euid p /\ p_egid p2 = p_egid p)
          \/ g = mkGuard (Some (p_euid p)) (Some (p_egid p))) as Hg2.
  { destruct Hg as [[Hp ->]| ->]; [left|by right]. subst p1. done. }
  assert (forall u, p_keychains p2 !! u <> p_keychains p !! u -> enrolling_user p u) as Hconf.
  { intros u Hne. destruct (decide (u = p_euid p1)) as [->|Hn]; [done|]. by rewrite Hkc, Hk1 in Hne by done. }
  destruct rb as [a|e].
  - rewrite sm_bind_eq. destruct (restore g p2) as [p3 rr] eqn:Er. destruct (restore_cases p _ _ _ _ Er Hg2) as (Hk3 & Hid).
    destruct rr as [[]|e']; intros [= <- <-]; (split_and!; [by rewrite Hk3|by auto|]); [|done].
    intros a' [= <-]. destruct (Hid (or_introl eq_refl)) as [? ?]. split_and!; [done..|].
    exists p1, p2. by rewrite Hk1, Hk3.
  - intros [= <- <-]. destruct (drop_guard_cases p p2 g Hg2) as (Hk3 & Hid). split_and!; [by rewrite Hk3|by auto|done].
Qed.

Lemma delete_key_cases (p p' : Proc) (r : result bool CliError) :
  delete_key p = (p', r) ->
  p_euid p' = p_euid p /\ p_egid p' = p_egid p
  /\ (forall u, u <> p_euid p -> p_keychains p' !! u = p_keychains p !! u)
  /\ (sec_status "SecItemDelete" = None -> exists b, r = Ok b /\ (b = true <-> is_Some (p_keychains p !! p_euid p))).
Proof.
  unfold delete_key, SecItemDelete. destruct (sec_status "SecItemDelete").
  - intros Hd. assert (p' = p) as ->; [|done]. by repeat case_bool_decide; injection Hd.
  - destruct (p_keychains p !! p_euid p) eqn:E; cbn; intros [= <- <-]; cbn; split_and!; try done.
    + intros u Hu. by rewrite lookup_delete_ne.
    + intros _. exists true. split; [done|]. split; [by eexists|done].
    + intros _. exists false. split; [done|]. split; [done|by intros []].
Qed.

Lemma create_key_cases (p p' : Proc) (r : result SecKey CliError) :
  create_private_key p = (p', r) ->
  p_euid p' = p_euid p /\ p_egid p' = p_egid p
  /\ (forall u, u <> p_euid p -> p_keychains p' !! u = p_keychains p !! u)
  /\ (forall key, r = Ok key -> p_keychains p' !! p_euid p = Some key).
Proof.
  unfold create_private_key. destruct (sec_status _); [by intros [= <- <-]|].
  destruct SecKeyCreateRandomKey; intros [= <- <-]; [|done]. cbn. split_and!; [done..| |].
  - intros u Hu. by rewrite lookup_insert_ne.
  - intros key [= <-]. by rewrite lookup_insert_eq.
Qed.

End Guard.

Lemma enrollment_spec `{SecurityFramework, Crypto} (p p' : Proc) (r : result HardwareSignerEnrollment CliError) :
  enroll_keychain_signer_for_init p = (p', r) ->
  (forall u, p_keychains p' !! u <> p_keychains p !! u -> enrolling_user p u)
  /\ ((forall c i, set_id_error c i = None) -> p_euid p' = p_euid p /\ p_egid p' = p_egid p)
  /\ (forall e, r = Ok e ->
        p_euid p' = p_euid p /\ p_egid p' = p_egid p
        /\ he_public_key_sha256 e = sha256_hex (he_public_key_x963 e)
        /\ exists u key, enrolling_user p u /\ p_keychains p' !! u = Some key
             /\ export_public_key_x963 key = Ok (he_public_key_x963 e)
             /\ (sec_status "SecItemDelete" = None -> he_created e = bool_decide (p_keychains p !! u = None))).
Proof.
  unfold enroll_keychain_signer_for_init. destruct hardware_signer_disabled; [by intros [= <- <-]|].
  rewrite sm_bind_eq. destruct (enroll_key_for_init p) as [p1 r1] eqn:E. unfold enroll_key_for_init in E.
  assert (p' = p1 -> (forall e, r = Ok e -> exists ke, r1 = Ok ke
      /\ he_public_key_x963 e = ke_public_key_x963 ke /\ he_created e = ke_created ke
      /\ he_public_key_sha256 e = sha256_hex (he_public_key_x963 e)) ->
    (forall u, p_keychains p' !! u <> p_keychains p !! u -> enrolling_user p u)
    /\ ((forall c i, set_id_error c i = None) -> p_euid p' = p_euid p /\ p_egid p' = p_egid p)
    /\ (forall e, r = Ok e -> p_euid p' = p_euid p /\ p_egid p' = p_egid p
        /\ he_public_key_sha256 e = sha256_hex (he_public_key_x963 e)
        /\ exists u key, enrolling_user p u /\ p_keychains p' !! u = Some key
             /\ export_public_key_x963 key = Ok (he_public_key_x963 e)
             /\ (sec_status "SecItemDelete" = None -> he_created e = bool_decide (p_keychains p !! u = None)))) as Hgo.
  2: { destruct r1; intros [= <- <-]; apply Hgo; try done. intros e [= <-]. by eexists. }
  intros -> Hr. apply guarded_spec in E as (H1 & H2 & H3).
  2: { intros q. rewrite sm_bind_eq. destruct (delete_key q) as [q1 [old|]] eqn:Ed;
         apply delete_key_cases in Ed as (Hu & Hg & Hk & _); [|done].
       rewrite sm_bind_eq. destruct (create_private_key q1) as [q2 [key|]] eqn:Ec;
         apply create_key_cases in Ec as (Hu2 & Hg2 & Hk2 & _); cycle 1.
       { cbn. rewrite Hu2, Hg2, Hu, Hg. split_and!; [done..|]. intros u Hne. rewrite Hk2 by (by rewrite Hu). by apply Hk. }
       rewrite sm_bind_eq. unfold sm_lift.
       assert (p_euid q2 = p_euid q /\ p_egid q2 = p_egid q
               /\ forall u, u <> p_euid q -> p_keychains q2 !! u = p_keychains q !! u)
         by (rewrite Hu2, Hg2, Hu, Hg; split_and!; [done..|]; intros u Hne; rewrite Hk2 by (by rewrite Hu); by apply Hk).
       by destruct (export_public_key_x963 key). }
  split_and!; [done..|]. intros e He. destruct (Hr e He) as (ke & Hke & Hpub & Hcr & Hsha).
  destruct (H3 ke Hke) as (? & ? & q & q' & Hq & Hen & Hb & Hq'). split_and!; [done..|].
  apply sm_bind_ok in Hb as (q1 & old & Ed & Hb). apply sm_bind_ok in Hb as (q2 & key & Ec & Hb).
  apply sm_bind_ok in Hb as (q3 & pub & Ep & Hb). injection Ep as <- Ep. injection Hb as <- Hb.
  apply delete_key_cases in Ed as (Hu & _ & _ & Hold). apply create_key_cases in Ec as (_ & _ & _ & Hnew).
  exists (p_euid q), key. split; [done|]. rewrite Hq', <- Hu. split; [by apply Hnew|]. rewrite Hpub, <- Hb. split; [done|].
  intros Hst. destruct (Hold Hst) as (b & [= <-] & Hiff). rewrite Hcr, <- Hb, <- Hq, Hu. cbn.
  case_bool_decide as Hn.
  - rewrite Hn in Hiff. destruct old; [|done]. by destruct Hiff as [[] _].
  - destruct old; [done|]. apply not_eq_None_Some, Hiff in Hn. done.
Qed.

(** What an enrollment says of itself. *)
Lemma enrollment_fields `{SecurityFramework, Crypto} (p p' : Proc) (e : HardwareSignerEnrollment) :
  enroll_keychain_signer_for_init p = (p', Ok e) ->
  he_signer_kind e = SIGNER_KIND_MACOS_KEYCHAIN /\ (p_euid p' <> 0%N -> he_label e = "macOS Keychain").
Proof.
  unfold enroll_keychain_signer_for_init. destruct hardware_signer_disabled; [done|].
  rewrite sm_bind_ok. intros (p1 & ke & _ & E). rewrite sm_bind_ok in E. destruct E as (p2 & p3 & [= <- <-] & [= <- <-]).
  split; [done|]. intros Hne. unfold he_label, init_user_label. destruct (cli_var "SUDO_USER"); [|done].
  by rewrite bool_decide_eq_false_2.
Qed.

(** *** What is signed is verified *)

Section SignedVerified.
Context `{SF : SecurityFramework, CR : Crypto} (law : keychain_signs).

Lemma sign_rule_verified (p : Proc) (payload : RuleSignaturePayloadV1) (s : RuleSignatureV1) (policy : RuleSignaturePolicy) :
  rp_schema_version payload = RULE_SIGNATURE_PAYLOAD_SCHEMA_V1 -> sign_rule_payload payload p = Ok s ->
  verify_rule_signature payload s policy = Ok tt /\ signed_by_user p s
  /\ sig_created_at_unix_ms s = rp_created_at_unix_ms payload.
Proof using law.
  intros Hv. unfold sign_rule_payload, verify_rule_signature. destruct hardware_signer_disabled; [done|].
  destruct (canonical_rule_payload_bytes _) as [b|]; [|done]. simpl.
  destruct (sign_payload b WithPrompt p) as [ks|] eqn:E; [|done]. intros [= <-].
  apply (keychain_signature_authentic law _ _ _ _ (rp_created_at_unix_ms payload) policy) in E as [Ha Hu].
  split; [|by split]. apply verify_payload_ok. split; [done|]. by exists b.
Qed.

Lemma sign_snapshot_verified (p : Proc) (payload : SnapshotSignaturePayloadV1) (s : RuleSignatureV1)
    (policy : RuleSignaturePolicy) :
  sp_schema_version payload = SNAPSHOT_SIGNATURE_PAYLOAD_SCHEMA_V1 -> sign_snapshot_payload payload p = Ok s ->
  verify_snapshot_signature payload s policy = Ok tt /\ signed_by_user p s
  /\ sig_created_at_unix_ms s = sp_generated_at_unix_ms payload.
Proof using law.
  intros Hv. unfold sign_snapshot_payload, verify_snapshot_signature. destruct hardware_signer_disabled; [done|].
  destruct (canonical_snapshot_payload_bytes _) as [b|]; [|done]. simpl.
  destruct (sign_payload b WithoutPrompt p) as [ks|] eqn:E; [|done]. intros [= <-].
  apply (keychain_signature_authentic law _ _ _ _ (sp_generated_at_unix_ms payload) policy) in E as [Ha Hu].
  split; [|by split]. apply verify_payload_ok. split; [done|]. by exists b.
Qed.

Lemma sign_management_verified (p : Proc) (payload : ManagementActionPayloadV1) (s : RuleSignatureV1)
    (policy : RuleSignaturePolicy) :
  mp_schema_version payload = MANAGEMENT_ACTION_PAYLOAD_SCHEMA_V1 -> sign_management_action_payload payload p = Ok s ->
  verify_management_action_signature payload s policy = Ok tt /\ signed_by_user p s
  /\ sig_created_at_unix_ms s = mp_created_at_unix_ms payload.
Proof using law.
  intros Hv. unfold sign_management_action_payload, verify_management_action_signature.
  destruct hardware_signer_disabled; [done|].
  destruct (canonical_management_action_payload_bytes _) as [b|]; [|done]. simpl.
  destruct (sign_payload b WithPrompt p) as [ks|] eqn:E; [|done]. intros [= <-].
  apply (keychain_signature_authentic law _ _ _ _ (mp_created_at_unix_ms payload) policy) in E as [Ha Hu].
  split; [|by split]. apply verify_payload_ok. split; [done|]. by exists b.
Qed.

End SignedVerified.

(** ** Properties *)

(** Whatever the command line signs, the daemon and the hook verify: a rule, a
    snapshot and a management action signed with the keychain pass the verification
    of every policy, the signature is by the key of the current user, and it carries
    the time of its payload. *)
Theorem signed_then_verified `{SecurityFramework, Crypto} (law : keychain_signs) (p : Proc)
    (s : RuleSignatureV1) (policy : RuleSignaturePolicy) :
  (forall kind match_type pattern reason created_at origin run_uuid,
     let payload := new_rule_payload kind match_type pattern reason created_at origin run_uuid in
     sign_rule_payload payload p = Ok s ->
     verify_rule_signature payload s policy = Ok tt /\ signed_by_user p s /\ sig_created_at_unix_ms s = created_at)
  /\ (forall run_uuid sha generated_at,
     let payload := new_snapshot_payload run_uuid sha generated_at in
     sign_snapshot_payload payload p = Ok s ->
     verify_snapshot_signature payload s policy = Ok tt /\ signed_by_user p s /\ sig_created_at_unix_ms s = generated_at)
  /\ (forall action pattern reason created_at,
     let payload := new_management_payload action pattern reason created_at in
     sign_management_action_payload payload p = Ok s ->
     verify_management_action_signature payload s policy = Ok tt /\ signed_by_user p s
     /\ sig_created_at_unix_ms s = created_at).
Proof.
  split_and!; intros * Hs; [eapply sign_rule_verified in Hs|eapply sign_snapshot_verified in Hs
    |eapply sign_management_verified in Hs]; try done; destruct Hs as (? & ? & ?); by split_and!.
Qed.

(** Enrolling touches the keychain of one user only, never that of root: the
    caller, or under [sudo] the user who called it.  A successful enrollment restores
    the identity it started with, leaves the key it reports in that user's keychain
    and reports whether a key was replaced; a failed one restores the identity unless
    a system call that switches it fails. *)
Theorem enrollment_confined `{SecurityFramework, Crypto} (p p' : Proc) (r : result HardwareSignerEnrollment CliError) :
  enroll_keychain_signer_for_init p = (p', r) ->
  (forall u, p_keychains p' !! u <> p_keychains p !! u -> enrolling_user p u)
  /\ ((forall c i, set_id_error c i = None) -> p_euid p' = p_euid p /\ p_egid p' = p_egid p)
  /\ (forall e, r = Ok e ->
        p_euid p' = p_euid p /\ p_egid p' = p_egid p
        /\ he_public_key_sha256 e = sha256_hex (he_public_key_x963 e)
        /\ exists u key, enrolling_user p u /\ p_keychains p' !! u = Some key
             /\ export_public_key_x963 key = Ok (he_public_key_x963 e)
             /\ (sec_status "SecItemDelete" = None -> he_created e = bool_decide (p_keychains p !! u = None))).
Proof. apply enrollment_spec. Qed.

(** A failure to take the identity of the user leaves the process in their group. *)
Lemma enter_failure_keeps_group `{SecurityFramework} (p : Proc) (uid gid : N) (e : string) :
  p_euid p = 0%N -> sudo_id "SUDO_UID" = Ok uid -> sudo_id "SUDO_GID" = Ok gid -> uid <> 0%N ->
  set_id_error "setegid" gid = None -> set_id_error "seteuid" uid = Some e ->
  (enroll_key_for_init p).1 = with_ids p 0 gid.
Proof.
  intros He Hu Hg Hn E1 E2. unfold enroll_key_for_init, guarded. rewrite sm_bind_eq. unfold enter.
  rewrite sm_bind_eq. cbn [sm_get]. rewrite He. cbn [bool_decide negb].
  rewrite bool_decide_eq_true_2 by done. cbn [negb]. rewrite sm_bind_eq. unfold sm_lift at 1. rewrite Hu.
  rewrite sm_bind_eq. unfold sm_lift at 1. rewrite Hg. rewrite bool_decide_eq_false_2 by done.
  rewrite sm_bind_eq. unfold set_effective_gid. rewrite E1. rewrite sm_bind_eq. unfold set_effective_uid. rewrite E2.
  cbn. by rewrite He.
Qed.

(** ** A concrete keychain: a key is its own public half *)

Definition toy_keychain (new_key : string) (var : string -> option string) : SecurityFramework := {|
  SecKey := string;
  sec_status _ := None;
  SecKeyCreateRandomKey := Ok new_key;
  SecKeyIsAlgorithmSupported _ := true;
  SecKeyCreateSignature key payload := Ok (key +:+ payload);
  SecKeyCopyPublicKey _ := true;
  SecKeyCopyExternalRepresentation key := if is_empty key then Err None else Ok key;
  set_id_error _ _ := None;
  cli_var := var;
|}.

Lemma toy_keychain_signs (k : string) (var : string -> option string) : @keychain_signs (toy_keychain k var) toy_crypto.
Proof.
  intros key bytes der pub [= <-]. cbn. destruct key as [|a key]; [done|]. intros [= <-].
  exists (String a key), (String a key +:+ bytes). cbn. rewrite app_cons_str. split_and!; [done..|].
  by apply bool_decide_eq_true_2.
Qed.

(** A user of uid 501 with the key K, and the installer that user called by [sudo]. *)
Definition toy_user (key : string) : @Proc (toy_keychain "N" (fun _ => None)) :=
  mkProc _ 501 20 {[ 501%N := key ]}.

Definition sudo_vars (name : string) : option string :=
  if bool_decide (name = "SUDO_UID") then Some "501" else if bool_decide (name = "SUDO_GID") then Some "20" else None.

Definition toy_root (key : string) : @Proc (toy_keychain "N" sudo_vars) := mkProc _ 0 0 {[ 501%N := key ]}.

Lemma signed_then_verified_witness :
  let s := toy_sign SIGNER_KIND_MACOS_KEYCHAIN "K" (unwrap_or (@canonical_rule_payload_bytes toy_crypto toy_payload) "") 1 in
  @verify_rule_signature toy_crypto toy_payload s Production = Ok tt.
Proof.
  intros s. destruct (@signed_then_verified (toy_keychain "N" (fun _ => None)) toy_crypto (toy_keychain_signs _ _) (toy_user "K") s Production)
    as [Hr _]. destruct (Hr "allow" "exact" "user.example" "mine" 1%Z "baseline" None) as [Hv _]; [|exact Hv].
  vm_compute; reflexivity.
Defined.

Lemma enrollment_confined_witness :
  let r := @enroll_keychain_signer_for_init (toy_keychain "N" sudo_vars) toy_crypto (toy_root "K") in
  r.2 = Ok (mkEnrollment SIGNER_KIND_MACOS_KEYCHAIN "N" (hex_lower "N") "macOS Keychain" false)
  /\ p_euid r.1 = 0%N /\ p_egid r.1 = 0%N.
Proof.
  split; [vm_compute; reflexivity|].
  destruct (@enrollment_confined (toy_keychain "N" sudo_vars) toy_crypto (toy_root "K") _ _ (surjective_pairing _)) as (_ & Hi & _).
  apply Hi. done.
Defined.
