(* ===== verification/CliClient.v ===== *)
(** * Requests of the command line

    [crates/guard-cli/src/ipc_client.rs] with the constructors of its messages.  A
    request is one connection.  The state is the daemon on the other side and a tick
    that counts the connections; [CliEnv] says what the socket, the clocks, the user and
    the other clients of the daemon do at each tick.  A stream may stop taking bytes,
    and may lose the end of a reply, at any byte. *)

From S2P Require Import Prelude RustStr Policy TrustedSigners Signature Snapshot RuleStore ProcessTree Frame Handlers Paths.
From S2P Require Import Prompt HookNet Publish Resolve Messages Events Admin Server Watchdog HardwareSigning.

(** ** The tags, as the client has them *)

Definition TAG_STATUS : N := 9.
Definition TAG_PROMPT_CHANNEL_INIT : N := 10.
Definition TAG_INSERT_USER_RULE : N := 11.
Definition TAG_READ_INSTALL_ARTIFACTS : N := 12.
Definition TAG_LIST_RULES : N := 14.
Definition TAG_BASELINE_COMMIT : N := 13.
Definition TAG_DELETE_INSTALL_ARTIFACTS : N := 17.
Definition TAG_DISABLE_CURATED_RULE : N := 22.
Definition TAG_ENABLE_CURATED_RULE : N := 23.
Definition TAG_PREPARE_SNAPSHOT_INPUTS : N := 24.
Definition TAG_PUBLISH_SIGNED_SNAPSHOT : N := 25.

Definition cli_max_frame_bytes_for_tag (tag : N) : N :=
  if bool_decide (tag = TAG_PREPARE_SNAPSHOT_INPUTS) || bool_decide (tag = TAG_PUBLISH_SIGNED_SNAPSHOT)
  then MAX_SNAPSHOT_FRAME_BYTES else MAX_FRAME_BYTES.

(** ** messages.rs: the requests *)

Definition PrepareSnapshot_new (cwd : string) : PrepareSnapshotReq := mkPrepareReq SCHEMA_V2 cwd false false.
Definition PrepareSnapshot_new_v3 (cwd : string) (is_tty baseline_mode : bool) : PrepareSnapshotReq :=
  mkPrepareReq SCHEMA_V3 cwd is_tty baseline_mode.
Definition PublishSignedSnapshot_new (run_uuid snapshot_bytes : string) (signature : SnapshotSignatureV1)
    (is_tty baseline_mode : bool) : PublishSignedSnapshot :=
  mkPublishSigned IPC_SCHEMA_V5 run_uuid snapshot_bytes signature is_tty baseline_mode.
Definition Status_new : Versioned unit := mkVersioned SCHEMA_V3 tt.
Definition ReadInstallArtifacts_new : Versioned unit := mkVersioned SCHEMA_V3 tt.
Definition ListRules_new (include_builtins : bool) : Versioned bool := mkVersioned SCHEMA_V3 include_builtins.
Definition DeleteInstallArtifacts_new (kinds : list string) : Versioned (list string) := mkVersioned SCHEMA_V3 kinds.
Definition BaselineCommit_new (run_uuid : string) : Versioned string := mkVersioned SCHEMA_V3 run_uuid.
Definition DisableCuratedRule_new_signed (pattern reason : string) (created_at : Z) (s : RuleSignatureV1)
  : Versioned DisableCuratedRule := mkVersioned SCHEMA_V5 (mkDisableCuratedRule pattern reason created_at (Some s)).
Definition EnableCuratedRule_new_signed (pattern : string) (created_at : Z) (s : RuleSignatureV1)
  : Versioned EnableCuratedRule := mkVersioned SCHEMA_V5 (mkEnableCuratedRule pattern created_at (Some s)).

(** ** The client and what it meets *)

Record Client : Type := mkClient {
  cl_tick : nat;
  cl_server : Server;
}.

Class CliEnv : Type := {
  ce_sock : string;
  ce_connect_error : nat -> option string;
  (** The number of bytes the stream takes before its error. *)
  ce_send_limit : nat -> option (nat * string);
  (** The number of bytes of the reply that arrive. *)
  ce_reply_limit : nat -> option nat;
  (** The system of the daemon, and its monotonic clock. *)
  ce_daemon : nat -> ServerEnv;
  ce_daemon_clock : nat -> Z;
  (** What else happened to the daemon before the connection. *)
  ce_others : nat -> Server -> Server;
  (** What the daemon learns of the client. *)
  ce_identity : result ProcessIdentity string;
  ce_codesign : AuditToken -> CodesignVerdict;
  (** Touch ID or the password, for a reason. *)
  ce_authenticates : nat -> string -> bool;
  ce_unix_ms_now : nat -> Z;
}.

Section Client.
Context `{CE : CliEnv, SC : ServerCodec, CR : Crypto}.

Definition unreachable {A} (m : string) : result A CliError := Err (DaemonUnreachable m).
Definition other {A} (m : string) : SM Client CliError A := sm_lift (Err (CliOther m)).

Definition now_ms : SM Client CliError Z := fun c => (c, Ok (ce_unix_ms_now (cl_tick c))).
Definition authenticate (reason : string) : SM Client CliError bool := fun c =>
  (c, Ok (ce_authenticates (cl_tick c) reason)).

(** The bytes that leave, of the tag and of the frame. *)
Definition transmit {Req} `{Cbor Req} (label : string) (limit : option (nat * string)) (tag : N) (req : Req)
  : string * result unit CliError :=
  let head := String (ascii_of_N tag) "" in
  let cut bytes (r : result unit CliError) :=
    match limit with
    | Some (n, e) =>
        if bool_decide (n < String.length bytes)
        then (str_take n bytes,
              unreachable ((if bool_decide (n = 0) then "tag write: " +:+ e else label +:+ show_ipc_error (Io e))))
        else (bytes, r)
    | None => (bytes, r)
    end in
  match write_frame_with_limit (mkWriter head None) req (cli_max_frame_bytes_for_tag tag) with
  | Ok w => cut (written w) (Ok tt)
  | Err e => cut head (unreachable (label +:+ show_ipc_error e))
  end.

Definition receive {R} `{Cbor R} (mismatch label : string) (tag : N) (bytes : string) : result R CliError :=
  match bytes with
  | EmptyString => unreachable "read tag echo: failed to fill whole buffer"
  | String tag_back rest =>
      if negb (bool_decide (byte_val tag_back = tag))
      then unreachable (mismatch +:+ hex_lower (String tag_back ""))
      else map_err (fun e => DaemonUnreachable (label +:+ show_ipc_error e))
             (read_frame_with_limit rest (cli_max_frame_bytes_for_tag tag)).1
  end.

(** What the daemon writes back. *)
Definition reply_bytes (sv : Served) : string :=
  match sv with Wrote b | PromptThread _ b => b | Waiting _ _ _ _ | Panicked => "" end.

(** A connection that sends these bytes. *)
Definition connection (t : nat) (s : Server) (sent : string) : Server * string :=
  let '(s', sv) := @handle (ce_daemon t) SC CR s (ce_daemon_clock t) (mkConn ce_identity ce_codesign sent) in
  (s', match ce_reply_limit t with Some n => str_take n (reply_bytes sv) | None => reply_bytes sv end).

Definition connect_refusal (t : nat) : option CliError :=
  (fun e => DaemonUnreachable ("connect(" +:+ ce_sock +:+ "): " +:+ e)) <$> ce_connect_error t.

Definition send_tagged_request {Req R} `{Cbor Req, Cbor R} (tag : N) (req : Req) : SM Client CliError R := fun c =>
  let t := cl_tick c in
  let s := ce_others t (cl_server c) in
  match connect_refusal t with
  | Some e => (mkClient (S t) s, Err e)
  | None =>
      let '(sent, w) := transmit "write frame: " (ce_send_limit t) tag req in
      let '(s', bytes) := connection t s sent in
      (mkClient (S t) s',
       let? _ := w in
       receive ("tag mismatch: sent 0x" +:+ hex_lower (String (ascii_of_N tag) "") +:+ ", got 0x") "read reply: " tag bytes)
  end.

(** The reply of a request, or its message under the name of the request. *)
Definition expect {A} (name : string) (r : Rep A) : SM Client CliError A :=
  match r with RepOk _ a => mret a | RepErr _ m => other (name +:+ ": " +:+ m) end.

(** ** The requests *)

(** A connection that is closed at once. *)
Definition probe_daemon_alive : SM Client CliError unit := fun c =>
  let t := cl_tick c in
  let s := ce_others t (cl_server c) in
  match connect_refusal t with
  | Some e => (mkClient (S t) s, Err e)
  | None => (mkClient (S t) (connection t s "").1, Ok tt)
  end.

(** One connection with the untagged frame: [CliError::Ipc] wraps the errors of the frame. *)
Definition send_register_root (msg : RegisterRoot) : SM Client CliError unit := fun c =>
  let t := cl_tick c in
  let s := ce_others t (cl_server c) in
  match connect_refusal t with
  | Some e => (mkClient (S t) s, Err e)
  | None =>
      match write_frame (mkWriter "" None) msg with
      | Err e => (mkClient (S t) (connection t s "").1, Err (CliIpc (show_ipc_error e)))
      | Ok w =>
          let cut := match ce_send_limit t with
                     | Some (n, e) => if bool_decide (n < String.length (written w)) then Some (n, e) else None
                     | None => None
                     end in
          let '(s', bytes) := connection t s (match cut with Some (n, _) => str_take n (written w) | None => written w end) in
          (mkClient (S t) s',
           match cut with
           | Some (_, e) => Err (CliIpc (show_ipc_error (Io e)))
           | None =>
               match (read_frame bytes).1 with
               | Ok (AckOk _) => Ok tt
               | Ok (AckErr _ message) => unreachable ("daemon: " +:+ message)
               | Err e => Err (CliIpc (show_ipc_error e))
               end
           end)
      end
  end.

Definition register_root_with_daemon (token : AuditToken) : SM Client CliError unit :=
  send_register_root (RegisterRoot_new token).
Definition register_root_for_run_with_daemon (token : AuditToken) (run_uuid : string) : SM Client CliError unit :=
  send_register_root (RegisterRoot_new_for_run token run_uuid).
Definition register_root_for_run_with_pm_env_with_daemon (token : AuditToken) (run_uuid : string)
    (pm_env : list (string * string)) : SM Client CliError unit :=
  send_register_root (RegisterRoot_new_for_run_with_pm_env token run_uuid pm_env).

Context `{SF : SecurityFramework, SnapshotCodec}.

Record PrepareSnapshotOutcome : Type := mkPrepareOutcome {
  po_manifest_path : string;
  po_run_uuid : string;
}.

(** [cwd] is the directory as [display] shows it, the text that travels. *)
Definition prepare_snapshot_v3 (p : Proc) (cwd : string) (is_tty learn_mode : bool)
  : SM Client CliError PrepareSnapshotOutcome :=
  inputs_reply ← send_tagged_request TAG_PREPARE_SNAPSHOT_INPUTS (PrepareSnapshot_new_v3 cwd is_tty learn_mode);
  match inputs_reply with
  | InputsErr message => other ("PrepareSnapshotInputs: " +:+ message)
  | InputsOk input is_tty baseline_mode =>
      snapshot_bytes ← sm_lift (map_err (fun e => CliOther ("build snapshot: " +:+ show_snapshot_error e))
                                  (build_snapshot_bytes input));
      let payload := new_snapshot_payload (bi_run_uuid input) (sha256_hex snapshot_bytes) (bi_generated_at_unix_ms input) in
      signature ← sm_lift (sign_snapshot_payload payload p);
      reply ← send_tagged_request TAG_PUBLISH_SIGNED_SNAPSHOT
                (PublishSignedSnapshot_new (bi_run_uuid input) snapshot_bytes signature is_tty baseline_mode);
      match reply with
      | SnapOk manifest_path run_uuid => mret (mkPrepareOutcome manifest_path run_uuid)
      | SnapErr message => other ("PublishSignedSnapshot: " +:+ message)
      end
  end.

Definition prepare_snapshot (p : Proc) (cwd : string) : SM Client CliError (string * string) :=
  outcome ← prepare_snapshot_v3 p cwd false false;
  mret (po_manifest_path outcome, po_run_uuid outcome).

Definition status_request : SM Client CliError StatusReply := send_tagged_request TAG_STATUS Status_new.

Definition require_authentication (reason : string) : SM Client CliError unit :=
  ok ← authenticate reason;
  if (ok : bool) then mret tt else other "biometric authentication required to modify rules".

Definition insert_user_rule_request_with_origin (p : Proc) (kind match_type pattern reason origin : string)
    (run_uuid : option string) : SM Client CliError Z :=
  require_authentication ("create " +:+ kind +:+ " rule for " +:+ pattern) ;;
  created_at ← now_ms;
  signature ← sm_lift (sign_rule_payload
                (new_rule_payload kind match_type pattern reason created_at origin run_uuid) p);
  reply ← send_tagged_request TAG_INSERT_USER_RULE
            (mkVersioned SCHEMA_V5 (mkInsertUserRule kind match_type pattern reason created_at origin run_uuid (Some signature)));
  expect "InsertUserRule" (reply : InsertUserRuleReply).

Definition insert_user_rule_request (p : Proc) (kind match_type pattern reason : string) : SM Client CliError Z :=
  insert_user_rule_request_with_origin p kind match_type pattern reason "manual" None.

Definition read_install_artifacts_request : SM Client CliError (list InstallArtifact) :=
  reply ← send_tagged_request TAG_READ_INSTALL_ARTIFACTS ReadInstallArtifacts_new;
  expect "ReadInstallArtifacts" (reply : ReadInstallArtifactsReply).

Definition delete_install_artifacts_request (kinds : list string) : SM Client CliError N :=
  reply ← send_tagged_request TAG_DELETE_INSTALL_ARTIFACTS (DeleteInstallArtifacts_new kinds);
  expect "DeleteInstallArtifacts" (reply : DeleteInstallArtifactsReply).

Definition list_rules_request (include_builtins : bool) : SM Client CliError (list WireRuleRow) :=
  reply ← send_tagged_request TAG_LIST_RULES (ListRules_new include_builtins);
  expect "ListRules" (reply : ListRulesReply).

Definition disable_curated_rule_request (p : Proc) (pattern reason : string) : SM Client CliError unit :=
  require_authentication ("disable curated rule for " +:+ pattern) ;;
  created_at ← now_ms;
  signature ← sm_lift (sign_management_action_payload
                (new_management_payload ACTION_DISABLE_CURATED_RULE pattern reason created_at) p);
  reply ← send_tagged_request TAG_DISABLE_CURATED_RULE (DisableCuratedRule_new_signed pattern reason created_at signature);
  expect "DisableCuratedRule" (reply : DisableCuratedRuleReply).

Definition enable_curated_rule_request (p : Proc) (pattern : string) : SM Client CliError bool :=
  require_authentication ("re-enable curated rule for " +:+ pattern) ;;
  created_at ← now_ms;
  signature ← sm_lift (sign_management_action_payload
                (new_management_payload ACTION_ENABLE_CURATED_RULE pattern "" created_at) p);
  reply ← send_tagged_request TAG_ENABLE_CURATED_RULE (EnableCuratedRule_new_signed pattern created_at signature);
  expect "EnableCuratedRule" (reply : EnableCuratedRuleReply).

Definition baseline_commit_request (run_uuid : string) : SM Client CliError (list ProposedRule) :=
  reply ← send_tagged_request TAG_BASELINE_COMMIT (BaselineCommit_new run_uuid);
  expect "BaselineCommit" (reply : BaselineCommitReply).

End Client.

(** ** The two sides agree *)

(** The tags and the limits are those of the daemon. *)
Lemma client_tags_agree :
  Forall (fun '(t, tag) => from_byte t = Some tag /\ cli_max_frame_bytes_for_tag t = max_frame_bytes_for_tag tag)
    [(TAG_STATUS, Status); (TAG_PROMPT_CHANNEL_INIT, Frame.PromptChannelInit); (TAG_INSERT_USER_RULE, Frame.InsertUserRule);
     (TAG_READ_INSTALL_ARTIFACTS, ReadInstallArtifacts); (TAG_LIST_RULES, ListRules); (TAG_BASELINE_COMMIT, BaselineCommit);
     (TAG_DELETE_INSTALL_ARTIFACTS, DeleteInstallArtifacts); (TAG_DISABLE_CURATED_RULE, Frame.DisableCuratedRule);
     (TAG_ENABLE_CURATED_RULE, Frame.EnableCuratedRule); (TAG_PREPARE_SNAPSHOT_INPUTS, PrepareSnapshotInputs);
     (TAG_PUBLISH_SIGNED_SNAPSHOT, Frame.PublishSignedSnapshot)].
Proof. repeat (constructor; [by split|]). constructor. Qed.

(** What the daemon promises a client under a tag: a body it can decode is worked on,
    in the state it is in, and answered. *)
Class Service `{ServerCodec, Crypto} (tag : MessageTag) (Req R : Type) `{Cbor Req, Cbor R} : Type := {
  refuse : string -> R;
  work : ServerEnv -> Server -> Z -> Req -> Server * R;
  service_frame : tag <> Frame.PromptChannelInit
    /\ cli_max_frame_bytes_for_tag (as_byte tag) = max_frame_bytes_for_tag tag
    /\ (max_frame_bytes_for_tag tag <= U32_MAX)%N;
  service_dispatch : forall (SE : ServerEnv) s now peer rest,
    dispatch_peer_frame (Tagged tag) rest peer now s = answer tag rest refuse s (work SE s now);
}.
Arguments refuse {_ _} tag {_ _ _ _ _}.
Arguments work {_ _} tag {_ _ _ _ _}.

(** *** Bytes *)

Lemma str_take_plus (a b : string) (n : nat) :
  String.length a <= n -> str_take n (a +:+ b) = a +:+ str_take (n - String.length a) b.
Proof.
  revert n. induction a as [|x a IH]; intros n Hn; [by rewrite Nat.sub_0_r|].
  destruct n as [|n]; [simpl in Hn; lia|]. rewrite !app_cons_str. simpl. f_equal. apply IH. simpl in Hn. lia.
Qed.

(** The bytes of a frame. *)
Definition frame_of (b : string) : string := to_be_bytes (N.of_nat (String.length b)) +:+ b.

Lemma length_frame_of (b : string) : String.length (frame_of b) = FRAME_LENGTH_BYTES + String.length b.
Proof. unfold frame_of. by rewrite length_app_str, length_to_be_bytes. Qed.

Section Bytes.
Context {T : Type} `{Cbor T}.

(** A frame cut short is not read. *)
Lemma read_frame_cut (b : string) (n : nat) (max : N) :
  (N.of_nat (String.length b) <= U32_MAX)%N -> n < String.length (frame_of b) ->
  exists e, (read_frame_with_limit (T := T) (str_take n (frame_of b)) max).1 = Err e.
Proof.
  intros Hb Hn. pose proof (length_frame_of b) as Hw.
  assert (Hl : String.length (str_take n (frame_of b)) = n) by (rewrite length_str_take; lia).
  unfold read_frame_with_limit. destruct (decide (n < FRAME_LENGTH_BYTES)) as [Hs|Hs].
  { unfold read_exact at 1. rewrite Hl, bool_decide_eq_true_2 by done. by eexists. }
  unfold frame_of. rewrite str_take_plus by (rewrite length_to_be_bytes; lia).
  pose proof (read_exact_app (to_be_bytes (N.of_nat (String.length b)))) as Hr. rewrite length_to_be_bytes in *.
  rewrite Hr, from_to_be_bytes by done. case_bool_decide; [by eexists|].
  unfold read_exact. rewrite Nat2N.id, length_str_take.
  rewrite bool_decide_eq_true_2 by lia. by eexists.
Qed.

Lemma read_frame_whole (v : T) (b : string) (max : N) : cbor_round_trips T -> into_writer v = Ok b ->
  (N.of_nat (String.length b) <= max)%N -> (max <= U32_MAX)%N -> (read_frame_with_limit (frame_of b) max).1 = Ok v.
Proof.
  intros Hrt Hb Hm Hu. rewrite <- (app_nil_r_str (frame_of b)). unfold frame_of. rewrite app_assoc_str.
  by rewrite (read_frame_app v) by (done || lia).
Qed.

Lemma read_frame_empty (max : N) : (read_frame_with_limit (T := T) "" max).1 = Err (Io "failed to fill whole buffer").
Proof. done. Qed.

Lemma byte_tag (tag : MessageTag) : byte_val (ascii_of_N (as_byte tag)) = as_byte tag.
Proof. apply byte_val_ascii_of_N. destruct tag; simpl; lia. Qed.

(** What leaves of a request, whatever the stream does: all of it, or nothing a reader
    accepts. *)
Lemma transmit_cases (label : string) (limit : option (nat * string)) (tag : MessageTag) (req : T) (sent : string) (w : result unit CliError) :
  (cli_max_frame_bytes_for_tag (as_byte tag) <= U32_MAX)%N -> transmit label limit (as_byte tag) req = (sent, w) ->
  (w = Ok tt /\ exists b, into_writer req = Ok b
     /\ (N.of_nat (String.length b) <= cli_max_frame_bytes_for_tag (as_byte tag))%N
     /\ sent = String (ascii_of_N (as_byte tag)) (frame_of b))
  \/ ((exists e, w = unreachable e)
      /\ (sent = "" \/ exists rest, sent = String (ascii_of_N (as_byte tag)) rest
            /\ forall max, exists e, (read_frame_with_limit (T := T) rest max).1 = Err e)).
Proof.
  intros Hu. unfold transmit. set (max := cli_max_frame_bytes_for_tag (as_byte tag)) in *.
  destruct (write_frame_with_limit _ req max) as [w1|e] eqn:Ew.
  - apply write_frame_ok in Ew as (b & Hb & Hm & Hl & ->). cbn [written].
    rewrite app_cons_str, app_nil_l_str. fold (frame_of b). destruct limit as [[n e]|]; [|intros [= <- <-]; left; eauto].
    destruct (decide (n < String.length (String (ascii_of_N (as_byte tag)) (frame_of b)))) as [Hn|Hn];
      [rewrite bool_decide_eq_true_2 by done|rewrite bool_decide_eq_false_2 by done];
      intros [= <- <-]; [right|left; eauto]. split; [by eexists|].
    destruct n as [|n]; [by left|right]. exists (str_take n (frame_of b)). split; [done|].
    intros m. apply read_frame_cut; [done|]. change (String.length (String _ ?x)) with (S (String.length x)) in Hn. lia.
  - destruct limit as [[n e']|].
    + destruct n as [|n]; intros [= <- <-]; right; (split; [by eexists|]); [by left|].
      right. exists "". split; [done|]. intros m. by eexists.
    + intros [= <- <-]. right. split; [by eexists|]. right. exists "". split; [done|]. intros m. by eexists.
Qed.

(** A reply of which something is lost is not read, and one that is read is the reply. *)
Lemma receive_cases (mismatch label : string) (tag : MessageTag) (r : T) (limit : option nat) :
  cbor_round_trips T -> cli_max_frame_bytes_for_tag (as_byte tag) = max_frame_bytes_for_tag tag ->
  (max_frame_bytes_for_tag tag <= U32_MAX)%N ->
  let bytes := match limit with Some n => str_take n (write_tagged tag r) | None => write_tagged tag r end in
  receive mismatch label (as_byte tag) bytes = Ok r \/ exists e, receive (R := T) mismatch label (as_byte tag) bytes = unreachable e.
Proof.
  intros Hrt Hmax Hu. unfold write_tagged.
  destruct (write_frame_with_limit _ r (max_frame_bytes_for_tag tag)) as [w|e] eqn:Ew.
  - apply write_frame_ok in Ew as (b & Hb & Hm & Hl & ->). cbn [written].
    rewrite app_cons_str, app_nil_l_str. fold (frame_of b).
    assert (Hfull : receive mismatch label (as_byte tag) (String (ascii_of_N (as_byte tag)) (frame_of b)) = Ok r).
    { unfold receive. rewrite byte_tag, bool_decide_eq_true_2 by done. cbn [negb]. rewrite Hmax.
      by rewrite (read_frame_whole r). }
    destruct limit as [n|]; [|by left]. destruct (decide (n < S (String.length (frame_of b)))) as [Hn|Hn].
    + right. destruct n as [|n]; [by eexists|]. cbn [str_take]. unfold receive.
      rewrite byte_tag, bool_decide_eq_true_2 by done. cbn [negb].
      destruct (read_frame_cut b n (cli_max_frame_bytes_for_tag (as_byte tag))) as [e ->]; [done|lia|by eexists].
    + left. rewrite str_take_ge; [done|]. change (String.length (String _ ?x)) with (S (String.length x)). lia.
  - right. destruct limit as [[|n]|]; [by eexists|..]; cbn [str_take]; rewrite ?str_take_ge by (simpl; lia);
      unfold receive; rewrite byte_tag, bool_decide_eq_true_2 by done; by eexists.
Qed.

End Bytes.

(** *** One exchange *)

Lemma tag_nonzero (tag : MessageTag) : byte_val (ascii_of_N 0) <> as_byte tag.
Proof. by destruct tag. Qed.

Lemma handle_tagged `{SE : ServerEnv, SC : ServerCodec, CR : Crypto} (tag : MessageTag) (s : Server) (now : Z)
    (id : result ProcessIdentity string) (cs : AuditToken -> CodesignVerdict) (rest : string) :
  tag <> Frame.PromptChannelInit ->
  handle s now (mkConn id cs (String (ascii_of_N (as_byte tag)) rest))
  = match authenticate_verified_peer (mkConn id cs "") with
    | Ok peer => dispatch_peer_frame (Tagged tag) rest peer now s
    | Err m => (s, Wrote (write_legacy_err m))
    end.
Proof.
  intros Hne. unfold handle. change (authenticate_verified_peer (mkConn id cs _)) with (authenticate_verified_peer (mkConn id cs "")).
  destruct (authenticate_verified_peer (mkConn id cs "")); [|done]. cbn [cn_bytes].
  assert (classify_peer_frame (String (ascii_of_N (as_byte tag)) rest) = Ok (Tagged tag, rest)) as -> by by destruct tag.
  by destruct tag.
Qed.

Section Exchange.
Context `{CE : CliEnv, SC : ServerCodec, CR : Crypto}.
Context (tag : MessageTag) {Req R : Type} `{Cbor Req, Cbor R} `{SV : !Service tag Req R}.

(** The reply to a refused peer, or to bytes that are no frame. *)
Lemma receive_foreign (mismatch label : string) (bytes : string) (limit : option nat) :
  (bytes = "" \/ exists b, bytes = String (ascii_of_N 0) b) ->
  exists e, receive (R := R) mismatch label (as_byte tag) (match limit with Some n => str_take n bytes | None => bytes end) = unreachable e.
Proof using Type.
  intros Hb. assert (forall b, exists e, receive (R := R) mismatch label (as_byte tag) (String (ascii_of_N 0) b) = unreachable e) as Hz.
  { intros b. unfold receive. rewrite (bool_decide_eq_false_2 _ (tag_nonzero tag)). by eexists. }
  destruct Hb as [->|[b ->]]; destruct limit as [[|n]|]; try (by eexists); try apply Hz. 
Qed.

(** Bytes without a whole body change nothing. *)
Lemma connection_unread (t : nat) (s : Server) (sent : string) :
  sent = "" \/ (exists rest, sent = String (ascii_of_N (as_byte tag)) rest
     /\ forall max, exists e, (read_frame_with_limit (T := Req) rest max).1 = Err e) ->
  (connection t s sent).1 = s.
Proof using SV.
  intros Hs. unfold connection. destruct (handle s _ _) as [s' sv] eqn:E. cbn.
  destruct Hs as [->|(rest & -> & Hr)].
  - unfold handle in E. destruct (authenticate_verified_peer _); by injection E.
  - destruct service_frame as (Hne & _). rewrite handle_tagged in E by done.
    destruct (authenticate_verified_peer _); [|by injection E]. rewrite service_dispatch in E.
    unfold answer, decode_with, read_tagged_body in E.
    destruct (Hr (max_frame_bytes_for_tag tag)) as [e He]. rewrite He in E. by injection E.
Qed.

(** A whole body is worked on, unless the peer is refused. *)
Lemma connection_read (t : nat) (s : Server) (req : Req) (b : string) :
  cbor_round_trips Req -> into_writer req = Ok b -> (N.of_nat (String.length b) <= max_frame_bytes_for_tag tag)%N ->
  let bytes := (connection t s (String (ascii_of_N (as_byte tag)) (frame_of b))) in
  let '(s', r) := work tag (ce_daemon t) s (ce_daemon_clock t) req in
  match @authenticate_verified_peer (mkConn ce_identity ce_codesign "") with
  | Ok _ => bytes = (s', match ce_reply_limit t with Some n => str_take n (write_tagged tag r) | None => write_tagged tag r end)
  | Err _ => bytes.1 = s /\ forall mismatch label, exists e, receive (R := R) mismatch label (as_byte tag) bytes.2 = unreachable e
  end.
Proof using SV.
  intros Hrt Hb Hm. destruct (work tag _ s _ req) as [s' r] eqn:Ew. cbv zeta. unfold connection.
  destruct service_frame as (Hne & _ & Hu). rewrite handle_tagged by done.
  destruct (authenticate_verified_peer _) as [peer|m].
  - rewrite service_dispatch. unfold answer, decode_with, read_tagged_body.
    rewrite (read_frame_whole req) by done. cbn. by rewrite Ew.
  - cbn. split; [done|]. intros mismatch label. apply receive_foreign. apply legacy_err_head.
Qed.

(** A request is worked on at most once.  An answer that arrives is the answer to it;
    an error says that the daemon could not be reached. *)
Lemma request_cases (c c' : Client) (req : Req) (r : result R CliError) :
  cbor_round_trips Req -> cbor_round_trips R ->
  send_tagged_request (as_byte tag) req c = (c', r) ->
  let s := ce_others (cl_tick c) (cl_server c) in
  let served := work tag (ce_daemon (cl_tick c)) s (ce_daemon_clock (cl_tick c)) req in
  cl_tick c' = S (cl_tick c)
  /\ ((cl_server c' = s /\ exists e, r = unreachable e)
      \/ (cl_server c' = served.1 /\ (r = Ok served.2 \/ exists e, r = unreachable e))).
Proof using SV.
  intros Hrt Hrt'. cbv zeta. set (t := cl_tick c). set (s := ce_others t (cl_server c)).
  unfold send_tagged_request, connect_refusal. fold t s. destruct (ce_connect_error t) as [e|]; cbn [fmap option_fmap option_map].
  { intros [= <- <-]. cbn. split; [done|]. left. split; [done|]. by eexists. }
  destruct service_frame as (_ & Hmax & Hu).
  destruct (transmit _ _ _ req) as [sent w] eqn:Et. apply transmit_cases in Et; [|by rewrite Hmax].
  destruct (connection t s sent) as [s' bytes] eqn:Ec. intros [= <- <-]. cbn [cl_tick cl_server]. split; [done|].
  destruct Et as [(-> & b & Hb & Hm & ->)|([e ->] & Hs)].
  - rewrite Hmax in Hm. pose proof (connection_read t s req b Hrt Hb Hm) as Hc. rewrite Ec in Hc.
    destruct (work tag (ce_daemon t) s (ce_daemon_clock t) req) as [s1 r1] eqn:Ew. cbv zeta in Hc.
    destruct (authenticate_verified_peer _); [|left; by destruct Hc as [<- Hc]].
    injection Hc as -> ->. right. split; [done|]. by apply receive_cases.
  - left. pose proof (connection_unread t s sent Hs) as Hc. rewrite Ec in Hc. split; [done|]. by eexists.
Qed.

(** When nothing fails, the answer arrives. *)
Definition works_at (t : nat) : Prop :=
  ce_connect_error t = None /\ ce_send_limit t = None /\ ce_reply_limit t = None
  /\ is_ok (@authenticate_verified_peer (mkConn ce_identity ce_codesign "")) = true.

Definition fits {T} `{Cbor T} (max : N) (v : T) : Prop :=
  exists b, into_writer v = Ok b /\ (N.of_nat (String.length b) <= max)%N.

Lemma transmit_fits (label : string) (req : Req) : fits (cli_max_frame_bytes_for_tag (as_byte tag)) req ->
  exists b, into_writer req = Ok b /\ (N.of_nat (String.length b) <= cli_max_frame_bytes_for_tag (as_byte tag))%N
    /\ transmit label None (as_byte tag) req = (String (ascii_of_N (as_byte tag)) (frame_of b), Ok tt).
Proof using SV.
  intros (b & Hb & Hm). exists b. split; [done|]. split; [done|]. unfold transmit, write_frame_with_limit. rewrite Hb. cbn.
  destruct service_frame as (_ & Hmax & Hu).
  rewrite bool_decide_eq_false_2 by lia. rewrite bool_decide_eq_true_2 by (rewrite Hmax in Hm; lia). cbn.
  by rewrite app_assoc_str, app_cons_str, app_nil_l_str.
Qed.

Lemma request_served (c : Client) (req : Req) :
  cbor_round_trips Req -> cbor_round_trips R -> works_at (cl_tick c) ->
  fits (max_frame_bytes_for_tag tag) req ->
  let s := ce_others (cl_tick c) (cl_server c) in
  let served := work tag (ce_daemon (cl_tick c)) s (ce_daemon_clock (cl_tick c)) req in
  fits (max_frame_bytes_for_tag tag) served.2 ->
  send_tagged_request (as_byte tag) req c = (mkClient (S (cl_tick c)) served.1, Ok served.2).
Proof using SV.
  intros Hrt Hrt' (Hc & Hs & Hl & Ha) Hf. cbv zeta. set (t := cl_tick c) in *. set (s := ce_others t (cl_server c)).
  intros (rb & Hrb & Hrm). destruct service_frame as (_ & Hmax & Hu).
  unfold send_tagged_request, connect_refusal. fold t s. set (mismatch := "tag mismatch: sent 0x" +:+ _). rewrite Hc, Hs. cbn [fmap option_fmap option_map].
  destruct (transmit_fits "write frame: " req) as (b & Hb & Hm & ->); [by rewrite Hmax|]. rewrite Hmax in Hm.
  pose proof (connection_read t s req b Hrt Hb Hm) as Hcon.
  destruct (work tag (ce_daemon t) s (ce_daemon_clock t) req) as [s1 r1]. cbv zeta in Hcon.
  destruct (authenticate_verified_peer _); [|done]. rewrite Hcon, Hl. cbn. f_equal.
  unfold write_tagged, write_frame_with_limit. cbn in Hrb, Hrm. rewrite Hrb. cbn.
  rewrite bool_decide_eq_false_2 by lia. rewrite bool_decide_eq_true_2 by lia. cbn.
  rewrite app_assoc_str, app_cons_str, app_nil_l_str. fold (frame_of rb).
  unfold receive. rewrite byte_tag, bool_decide_eq_true_2 by done. cbn [negb]. rewrite Hmax.
  by rewrite (read_frame_whole r1).
Qed.

End Exchange.

(** ** What the daemon does with each request *)

Section Services.
Context `{SC : ServerCodec, CR : Crypto}.

#[export] Instance prepare_service : Service PrepareSnapshotInputs PrepareSnapshotReq SnapshotInputsReply.
Proof.
  refine {|
    refuse := InputsErr;
    work SE s now req :=
      if bool_decide (pq_schema_version req ∈ [SCHEMA_V2; SCHEMA_V3; SCHEMA_V5]) then
        let '(p, r) := handle_prepare_snapshot_inputs_full (as_prep s) now (pq_cwd req) (pq_is_tty req) (pq_baseline_mode req) in
        (put_prep s p, r)
      else (s, InputsErr ("schema_version " +:+ pretty (pq_schema_version req)
                          +:+ " not in [IPC_SCHEMA_V2, IPC_SCHEMA_V3, IPC_SCHEMA_V5]"));
  |}; [by repeat split|done].
Defined.

#[export] Instance publish_service : Service Frame.PublishSignedSnapshot PublishSignedSnapshot SnapshotReply.
Proof.
  refine {|
    refuse := SnapErr;
    work SE s now req := let '(p, r) := handle_publish_signed_snapshot_full (as_prep s) now req in (put_prep s p, r);
  |}; [by repeat split|done].
Defined.

#[export] Instance insert_service : Service Frame.InsertUserRule (Versioned InsertUserRule) InsertUserRuleReply.
Proof.
  refine {|
    refuse := RepErr SCHEMA_V5;
    work SE s now :=
      versioned [SCHEMA_V3; SCHEMA_V5] (not_supported_for "InsertUserRule") (RepErr SCHEMA_V5) s
        (fun req : InsertUserRule =>
           let '(st, r) := handle_insert_user_rule req (sv_store s) (sv_policy s) in (put_store s st, rep_of SCHEMA_V5 r));
  |}; [by repeat split|done].
Defined.

#[export] Instance disable_service : Service Frame.DisableCuratedRule (Versioned DisableCuratedRule) DisableCuratedRuleReply.
Proof.
  refine {|
    refuse := RepErr SCHEMA_V3;
    work SE s now :=
      versioned [SCHEMA_V3; SCHEMA_V5] (not_supported_for "DisableCuratedRule") (RepErr SCHEMA_V3) s
        (fun req : DisableCuratedRule =>
           let '(st, r) := handle_disable_curated_rule req (sv_store s) unix_now (sv_curated s) (sv_policy s) in
           (put_store s st, rep_of SCHEMA_V3 r));
  |}; [by repeat split|done].
Defined.

#[export] Instance enable_service : Service Frame.EnableCuratedRule (Versioned EnableCuratedRule) EnableCuratedRuleReply.
Proof.
  refine {|
    refuse := RepErr SCHEMA_V3;
    work SE s now :=
      versioned [SCHEMA_V3; SCHEMA_V5] (not_supported_for "EnableCuratedRule") (RepErr SCHEMA_V3) s
        (fun req : EnableCuratedRule =>
           let '(st, r) := handle_enable_curated_rule req (sv_store s) (sv_policy s) in
           (put_store s st, rep_of SCHEMA_V3 r));
  |}; [by repeat split|done].
Defined.

#[export] Instance baseline_service : Service BaselineCommit (Versioned string) BaselineCommitReply.
Proof.
  refine {|
    refuse := RepErr SCHEMA_V3;
    work SE s now :=
      versioned [SCHEMA_V3] not_v3 (RepErr SCHEMA_V3) s (fun run_uuid : string =>
        let '(g, r) := handle_baseline_commit (es_tree (sv_events s)) (sv_staging s) run_uuid in (put_staging s g, r));
  |}; [by repeat split|done].
Defined.

End Services.

(** ** Properties *)

Section Requests.
Context `{CE : CliEnv, SC : ServerCodec, CR : Crypto, SF : SecurityFramework}.

(** The daemon a request finds. *)
Definition found (c : Client) : Server := ce_others (cl_tick c) (cl_server c).

(** An error that leaves open what the daemon did. *)
Definition lost (e : CliError) : Prop := exists m, e = DaemonUnreachable m.

(** Nothing is sent without the user. *)
Lemma require_authentication_cases (reason : string) (c : Client) :
  require_authentication reason c
  = (c, if ce_authenticates (cl_tick c) reason then Ok tt
        else Err (CliOther "biometric authentication required to modify rules")).
Proof using Type. unfold require_authentication, authenticate. rewrite sm_bind_eq. by destruct (ce_authenticates _ _). Qed.

(** The pipeline of a signed request: authentication, clock, signature, one exchange. *)
Lemma signed_request_cases {A} (tag : MessageTag) {Req} `{Cbor Req, Cbor (Rep A), !Service tag Req (Rep A)}
    (reason name : string) (sign : Z -> result RuleSignatureV1 CliError) (mk : Z -> RuleSignatureV1 -> Req)
    (c c' : Client) (r : result A CliError) :
  cbor_round_trips Req -> cbor_round_trips (Rep A) ->
  (require_authentication reason ;;
   created_at ← now_ms;
   signature ← sm_lift (sign created_at);
   reply ← send_tagged_request (as_byte tag) (mk created_at signature);
   expect name (reply : Rep A)) c = (c', r) ->
  let t := cl_tick c in let now := ce_unix_ms_now t in
  (c' = c /\ (exists e, r = Err e) /\ (ce_authenticates t reason = false \/ exists e, sign now = Err e /\ r = Err e))
  \/ exists sg, ce_authenticates t reason = true /\ sign now = Ok sg
       /\ let served := work tag (ce_daemon t) (found c) (ce_daemon_clock t) (mk now sg) in
          (cl_server c' = found c /\ exists e, r = Err e /\ lost e)
          \/ (cl_server c' = served.1
              /\ ((exists e, r = Err e /\ lost e) \/ r = (expect name served.2 c').2)).
Proof using Type.
  intros Hrt Hrt'. rewrite sm_bind_eq, require_authentication_cases. destruct (ce_authenticates _ _) eqn:Ea; [|intros [= <- <-]; left; eauto 6].
  rewrite sm_bind_eq. unfold now_ms at 1. rewrite sm_bind_eq. unfold sm_lift at 1.
  destruct (sign _) as [sg|e] eqn:Es; [|intros [= <- <-]; left; split_and!; eauto 6]. rewrite sm_bind_eq.
  destruct (send_tagged_request _ _ c) as [c1 r1] eqn:E. destruct (request_cases tag c c1 _ r1 Hrt Hrt' E) as [_ E'].
  intros Hk. right. exists sg. split; [done|]. split; [done|]. cbv zeta. fold (found c) in E'.
  destruct E' as [[Hs [e ->]]|[Hs [->|[e ->]]]].
  - left. injection Hk as <- <-. split; [done|]. eexists. split; [done|]. by eexists.
  - right. unfold expect in *. destruct (work _ _ _ _ _).2; injection Hk as <- <-; eauto.
  - right. injection Hk as <- <-. split; [done|]. left. eexists. split; [done|]. by eexists.
Qed.

End Requests.

(** *** Rules *)

Section Rules.
Context `{CE : CliEnv, SC : ServerCodec, CR : Crypto, SF : SecurityFramework}.

(** The fields the daemon accepts. *)
Definition valid_fields (req : InsertUserRule) : bool :=
  bool_decide (iu_kind req ∈ ["allow"; "deny"]) && bool_decide (iu_match_type req ∈ ["exact"; "suffix"; "ip"])
  && negb (blank (iu_reason req)) && negb (blank (iu_pattern req)) && negb (bool_decide (iu_created_at_unix_ms req <= 0)%Z)
  && negb (blank (iu_origin req)).

(** A rule with a good signature is stored exactly when its fields are valid, its signer
    is trusted and the store takes it. *)
Lemma insert_accepted_iff `{SQL : SqlEngine, FS : TrustFs} (req : InsertUserRule) (st : RuleStore) (policy : RuleSignaturePolicy)
    (s : RuleSignatureV1) :
  iu_signature req = Some s -> verify_rule_signature (insert_payload req) s policy = Ok tt ->
  is_ok (handle_insert_user_rule req st policy).2 = true
  <-> valid_fields req = true /\ is_trusted_rule_signer st (sig_public_key_sha256 s) (sig_signer_kind s) = Ok true
      /\ is_ok (insert_signed_user_rule st (insert_payload req) s).2 = true.
Proof using Type.
  intros Hs Hv. unfold handle_insert_user_rule, valid_fields. rewrite Hs, Hv.
  destruct (bool_decide (iu_kind req ∈ _)); cbn [negb andb snd is_ok]; [|naive_solver].
  destruct (bool_decide (iu_match_type req ∈ _)); cbn [negb andb snd is_ok]; [|naive_solver].
  destruct (blank (iu_reason req)); cbn [negb andb snd is_ok]; [naive_solver|].
  destruct (blank (iu_pattern req)); cbn [negb andb snd is_ok]; [naive_solver|].
  destruct (bool_decide (iu_created_at_unix_ms req <= 0)%Z); cbn [negb andb snd is_ok]; [naive_solver|].
  destruct (blank (iu_origin req)); cbn [negb andb snd is_ok]; [naive_solver|].
  destruct (is_trusted_rule_signer _ _ _) as [[]|]; cbn [snd is_ok]; [|naive_solver..].
  destruct (insert_signed_user_rule _ _ _) as [st' [id|e]]; cbn; naive_solver.
Qed.

Context (law : keychain_signs).
Context (Hrt : cbor_round_trips (Versioned InsertUserRule)) (Hrt' : cbor_round_trips InsertUserRuleReply).

Lemma insert_request_spec (p : Proc) (kind match_type pattern reason origin : string) (run_uuid : option string)
    (c c' : Client) (r : result Z CliError) :
  insert_user_rule_request_with_origin p kind match_type pattern reason origin run_uuid c = (c', r) ->
  let t := cl_tick c in let now := ce_unix_ms_now t in let s := found c in
  let payload := new_rule_payload kind match_type pattern reason now origin run_uuid in
  let request sg := mkInsertUserRule kind match_type pattern reason now origin run_uuid (Some sg) in
  let asked := ce_authenticates t ("create " +:+ kind +:+ " rule for " +:+ pattern) in
  match r with
  | Ok id =>
      asked = true /\ exists sg, sign_rule_payload payload p = Ok sg /\ signed_by_user p sg
        /\ rules (db (sv_store (cl_server c'))) !! id = Some (mkRuleRow kind match_type pattern reason now)
        /\ rule_signatures (db (sv_store (cl_server c'))) !! id = Some (mkSigRow sg origin run_uuid now)
        /\ delete id (rules (db (sv_store (cl_server c')))) = delete id (rules (db (sv_store s)))
        /\ curated_overrides (db (sv_store (cl_server c'))) = curated_overrides (db (sv_store s))
  | Err e =>
      lost e
      \/ (c' = c /\ (asked = false \/ sign_rule_payload payload p = Err e))
      \/ (sv_store (cl_server c') = sv_store s /\ asked = true
          /\ exists sg, sign_rule_payload payload p = Ok sg
             /\ ~ (valid_fields (request sg) = true
                   /\ @is_trusted_rule_signer (@sv_sql (ce_daemon t)) (@sv_fs (ce_daemon t)) (sv_store s)
                        (sig_public_key_sha256 sg) (sig_signer_kind sg) = Ok true
                   /\ is_ok (@insert_signed_user_rule (@sv_sql (ce_daemon t)) (sv_store s) payload sg).2 = true))
  end.
Proof using law Hrt Hrt'.
  intros E. cbv zeta. unfold insert_user_rule_request_with_origin in E.
  apply (signed_request_cases Frame.InsertUserRule _ "InsertUserRule"
           (fun now => sign_rule_payload (new_rule_payload kind match_type pattern reason now origin run_uuid) p)
           (fun now sg => mkVersioned SCHEMA_V5 (mkInsertUserRule kind match_type pattern reason now origin run_uuid (Some sg))))
    in E; [|done..]. cbv zeta in E.
  destruct E as [(-> & [e ->] & Hw)|(sg & Ha & Hs & E)]; [naive_solver|].
  pose proof Hs as Hv. apply (sign_rule_verified law _ _ _ (sv_policy (found c))) in Hv as (Hv & Hu & _); [|done].
  destruct E as [(_ & e & -> & He)|(Hc & E)]; [by left|]. destruct E as [(e & -> & He)|E]; [by left|].
  cbn [work insert_service] in Hc, E. unfold versioned in Hc, E. cbn [vn_schema_version vn_message] in Hc, E.
  rewrite bool_decide_eq_true_2 in Hc by (apply list_elem_of_further, list_elem_of_here).
  rewrite bool_decide_eq_true_2 in E by (apply list_elem_of_further, list_elem_of_here).
  pose proof (insert_accepted_iff (SQL := @sv_sql (ce_daemon (cl_tick c))) (FS := @sv_fs (ce_daemon (cl_tick c)))
                (mkInsertUserRule kind match_type pattern reason (ce_unix_ms_now (cl_tick c)) origin run_uuid (Some sg))
                (sv_store (found c)) (sv_policy (found c)) sg eq_refl Hv) as Hi.
  destruct (handle_insert_user_rule _ _ _) as [st r1] eqn:Eh in Hc, E, Hi.
  apply insert_handler_attested in Eh. cbn in Hc, E, Hi. rewrite Hc. cbn [put_store sv_store].
  destruct r1 as [id|m]; cbn in E; subst r.
  - destruct Eh as (sg' & [= <-] & _ & _ & _ & _ & _ & _ & H1 & H2 & H3 & H4). split; [done|]. by exists sg.
  - right. right. split; [done|]. split; [done|]. exists sg. split; [done|]. by intros ?%Hi.
Qed.

(** When nothing fails on the way, a rule with valid fields by a trusted user is stored. *)
Lemma valid_rule_stored (p : Proc) (kind match_type pattern reason origin : string) (run_uuid : option string)
    (c : Client) (sg : RuleSignatureV1) :
  let t := cl_tick c in let now := ce_unix_ms_now t in
  let payload := new_rule_payload kind match_type pattern reason now origin run_uuid in
  let request := mkInsertUserRule kind match_type pattern reason now origin run_uuid (Some sg) in
  works_at t -> ce_authenticates t ("create " +:+ kind +:+ " rule for " +:+ pattern) = true ->
  sign_rule_payload payload p = Ok sg -> valid_fields request = true ->
  @is_trusted_rule_signer (@sv_sql (ce_daemon t)) (@sv_fs (ce_daemon t)) (sv_store (found c))
    (sig_public_key_sha256 sg) (sig_signer_kind sg) = Ok true ->
  is_ok (@insert_signed_user_rule (@sv_sql (ce_daemon t)) (sv_store (found c)) payload sg).2 = true ->
  fits (max_frame_bytes_for_tag Frame.InsertUserRule) (mkVersioned SCHEMA_V5 request) ->
  (forall id : Z, fits (max_frame_bytes_for_tag Frame.InsertUserRule) (RepOk SCHEMA_V5 id)) ->
  is_ok (insert_user_rule_request_with_origin p kind match_type pattern reason origin run_uuid c).2 = true.
Proof using law Hrt Hrt'.
  cbv zeta. intros Hw Ha Hs Hv Ht Hi Hf Hf'. unfold insert_user_rule_request_with_origin.
  rewrite sm_bind_eq, require_authentication_cases, Ha, sm_bind_eq. unfold now_ms at 1. rewrite sm_bind_eq.
  unfold sm_lift at 1. rewrite Hs, sm_bind_eq.
  pose proof (request_served Frame.InsertUserRule c _ Hrt Hrt' Hw Hf) as Hsend. cbv zeta in Hsend. fold (found c) in Hsend.
  cbn [work insert_service] in Hsend. unfold versioned in Hsend. cbn [vn_schema_version vn_message] in Hsend.
  rewrite bool_decide_eq_true_2 in Hsend by (apply list_elem_of_further, list_elem_of_here).
  pose proof Hs as Hver. apply (sign_rule_verified law _ _ _ (sv_policy (found c))) in Hver as (Hver & _); [|done].
  pose proof (proj2 (insert_accepted_iff (SQL := @sv_sql (ce_daemon (cl_tick c))) (FS := @sv_fs (ce_daemon (cl_tick c)))
    (mkInsertUserRule kind match_type pattern reason (ce_unix_ms_now (cl_tick c)) origin run_uuid (Some sg))
    (sv_store (found c)) (sv_policy (found c)) sg eq_refl Hver) (conj Hv (conj Ht Hi))) as Hok.
  destruct (handle_insert_user_rule _ _ _) as [st [id|m]]; [|done]. cbn in Hsend. unfold TAG_INSERT_USER_RULE. by rewrite Hsend by apply Hf'.
Qed.

End Rules.

(** *** Runs *)

(** The identifier of a run is a plain name. *)
Lemma new_run_uuid_plain `{PubEnv} (u : string) : new_run_uuid = Ok u -> u <> "" /\ relative u.
Proof.
  unfold new_run_uuid. destruct getrandom as [buf|]; [|done]. intros [= <-].
  assert (Hd : forall n, hex_digit n <> "/"%char).
  { intros n. unfold hex_digit. destruct (nth_in_or_default (N.to_nat n) HEX "0"%char) as [Hin| ->]; [|done].
    assert (HF : Forall (fun c => c <> "/"%char) HEX) by by_decide. rewrite Forall_forall in HF.
    apply HF. by apply list_elem_of_In. }
  destruct (take 4 _) as [|b bs]; [done|]. cbn [hex_bytes hex_byte hex_lower]. rewrite !app_cons_str.
  split; [done|]. unfold relative, path_is_absolute, starts_with. simpl.
  rewrite bool_decide_eq_false_2; [done|]. intros E. by apply (Hd (N.shiftr (byte_val (ascii_of_N b)) 4)).
Qed.

Section Checked.
Context `{SqlEngine, TrustFs, Crypto, SnapshotCodec}.

(** What is built decodes. *)
Lemma build_snapshot_bytes_decode (input : SnapshotBuildInput) (bytes : string) :
  codec_round_trips -> build_snapshot_bytes input = Ok bytes -> decode bytes = Ok (build_snapshot input).
Proof.
  intros Hcodec Hb. unfold build_snapshot_bytes, encode in Hb.
  destruct (cbor_encode_snapshot _) as [b|] eqn:Ec; [|done]. injection Hb as ->.
  unfold decode. by rewrite (Hcodec _ _ Ec).
Qed.

(** A snapshot built from the prepared inputs and signed well passes every check but
    that of the trust in its signer. *)
Lemma signed_snapshot_checked (st : PrepState) (pending : PendingSnapshotInput) (req : PublishSignedSnapshot) :
  codec_round_trips -> build_snapshot_bytes (pi_input pending) = Ok (pr_snapshot_bytes req) ->
  pr_is_tty req = pi_is_tty pending -> pr_baseline_mode req = pi_baseline_mode pending ->
  pr_run_uuid req = bi_run_uuid (pi_input pending) ->
  verify_snapshot_signature (new_snapshot_payload (pr_run_uuid req) (sha256_hex (pr_snapshot_bytes req))
    (bi_generated_at_unix_ms (pi_input pending))) (pr_signature req) (pp_policy st) = Ok tt ->
  check_signed_snapshot st pending req
  = match is_trusted_rule_signer (pp_rule_store st) (sig_public_key_sha256 (pr_signature req))
            (sig_signer_kind (pr_signature req)) with
    | Ok true => Ok tt
    | Ok false => Err "snapshot signer is not trusted"
    | Err e => Err ("snapshot signer trust check failed: " +:+ show_store_error e)
    end.
Proof.
  intros Hcodec Hb Ht Hbm Hu Hv. unfold check_signed_snapshot. rewrite Ht, Hbm, !bool_decide_eq_true_2 by done. simpl.
  rewrite Hb. simpl. rewrite bool_decide_eq_true_2 by done. simpl.
  rewrite (build_snapshot_bytes_decode _ _ Hcodec Hb). simpl. rewrite Hu, bool_decide_eq_true_2 by done. simpl. rewrite <- Hu, Hv. simpl.
  by destruct (is_trusted_rule_signer _ _ _) as [[]|].
Qed.

End Checked.

Lemma as_put_prep (s : Server) (p : PrepState) : as_prep (put_prep s p) = p.
Proof. by destruct p. Qed.

Section Runs.
Context `{CE : CliEnv, SC : ServerCodec, CR : Crypto, SF : SecurityFramework, SNC : SnapshotCodec}.
Context (law : keychain_signs) (Hcodec : codec_round_trips)
  (Hlib : forall t, @resolve_codec (@sv_resolve (ce_daemon t)) = SNC)
  (H1 : cbor_round_trips PrepareSnapshotReq) (H2 : cbor_round_trips SnapshotInputsReply)
  (H3 : cbor_round_trips PublishSignedSnapshot) (H4 : cbor_round_trips SnapshotReply).

(** The daemon of a tick trusts the signer of a signature. *)
Definition trusted_at (t : nat) (st : RuleStore) (sg : RuleSignatureV1) : Prop :=
  @is_trusted_rule_signer (@sv_sql (ce_daemon t)) (@sv_fs (ce_daemon t)) st (sig_public_key_sha256 sg) (sig_signer_kind sg)
  = Ok true.

(** The run is in place: the files, the record, and whose signature they carry. *)
Definition run_published (p : Proc) (s s' : Server) (input : SnapshotBuildInput) (is_tty learn : bool) : Prop :=
  let d := sv_state_dir s in let u := bi_run_uuid input in
  exists bytes sg, build_snapshot_bytes input = Ok bytes /\ signed_by_user p sg
    /\ sign_snapshot_payload (new_snapshot_payload u (sha256_hex bytes) (bi_generated_at_unix_ms input)) p = Ok sg
    /\ sv_files s' !! run_snapshot_path d u = Some bytes
    /\ sv_files s' !! run_manifest_path d u = Some (run_manifest_body d u bytes (Some sg))
    /\ get_run (es_tree (sv_events s')) u
       = Some (mkRun u (mkToken 0 0 0 0 0 0 0 0) (run_snapshot_path d u) (run_manifest_path d u) is_tty learn).

(** The second half: the signed snapshot of inputs the daemon has just prepared. *)
Lemma publish_prepared (p : Proc) (t : nat) (now now' : Z) (s s' : Server) (input : SnapshotBuildInput) (is_tty learn : bool)
    (bytes : string) (sg : SnapshotSignatureV1) (reply : SnapshotReply) :
  pp_pending (as_prep s) !! bi_run_uuid input = Some (mkPending input is_tty learn now) ->
  (now' - now < PENDING_SNAPSHOT_INPUT_TTL)%Z -> bi_run_uuid input <> "" -> relative (bi_run_uuid input) ->
  build_snapshot_bytes input = Ok bytes ->
  sign_snapshot_payload (new_snapshot_payload (bi_run_uuid input) (sha256_hex bytes) (bi_generated_at_unix_ms input)) p = Ok sg ->
  work Frame.PublishSignedSnapshot (ce_daemon t) s now'
    (PublishSignedSnapshot_new (bi_run_uuid input) bytes sg is_tty learn) = (s', reply) ->
  match reply with
  | SnapOk manifest u => u = bi_run_uuid input /\ manifest = run_manifest_path (sv_state_dir s) u
                         /\ run_published p s s' input is_tty learn
  | SnapErr m => ~ trusted_at t (sv_store s) sg \/ exists fault, m = "publish signed snapshot: " +:+ fault
  end.
Proof using law Hcodec Hlib.
  intros Hp Httl Hne Hrel Hb Hs. cbn [work publish_service].
  destruct (handle_publish_signed_snapshot_full _ _ _) as [st' r] eqn:E. intros [= <- <-].
  pose proof Hs as Hv. apply (sign_snapshot_verified law _ _ _ (sv_policy s)) in Hv as (Hv & Hu & _); [|done].
  pose proof E as Hspec. apply publish_signed_spec in Hspec; [|done..].
  destruct r as [manifest u|m].
  - destruct Hspec as (_ & _ & -> & -> & _ & _ & _ & Hf1 & Hf2 & Hrun). split; [done|]. split; [done|].
    exists bytes, sg. by split_and!.
  - clear Hspec. unfold handle_publish_signed_snapshot_full in E. cbn [pr_schema_version PublishSignedSnapshot_new] in E.
    rewrite bool_decide_eq_true_2 in E by done. cbn [negb pr_run_uuid] in E.
    unfold prune_pending_snapshot_inputs at 1 in E. cbn [pp_pending with_pending] in E.
    rewrite (proj2 (map_lookup_filter_Some _ _ _ _)) in E by (split; [exact Hp|done]).
    rewrite signed_snapshot_checked in E; [|try done..].
    + cbn [pp_rule_store with_pending as_prep pr_signature] in E. unfold trusted_at.
      destruct (is_trusted_rule_signer _ _ _) as [[]|]; [|left; by intros [=]..].
      right. destruct (publish_run_signed_bytes _ _ _ _ _) as [f [pub|fault]]; [done|]. injection E as _ <-. eauto.
    + by rewrite Hlib.
    + by rewrite Hlib.
Qed.

End Runs.

Section Prepared.
Context `{CE : CliEnv, SC : ServerCodec, CR : Crypto, SF : SecurityFramework, SNC : SnapshotCodec}.

Definition prepare_request (cwd : string) (is_tty learn : bool) (t : nat) (s : Server) : Server * SnapshotInputsReply :=
  work PrepareSnapshotInputs (ce_daemon t) s (ce_daemon_clock t) (PrepareSnapshot_new_v3 cwd is_tty learn).

(** The working directory is accepted, the rules of the store verify and there is randomness. *)
Definition preparable (t : nat) (s : Server) (cwd : string) : Prop :=
  is_ok (validate_cwd cwd) = true
  /\ is_ok (@all_verified_user_rules (@sv_sql (ce_daemon t)) (@sv_fs (ce_daemon t)) _ (sv_store s) (sv_policy s)) = true
  /\ is_ok (@new_run_uuid (@sv_pub (ce_daemon t))) = true.

(** The inputs of a run: the rules in force, and a pending entry under a fresh name. *)
Definition inputs_of (t : nat) (s s1 : Server) (cwd : string) (is_tty learn : bool) (input : SnapshotBuildInput) : Prop :=
  @new_run_uuid (@sv_pub (ce_daemon t)) = Ok (bi_run_uuid input)
  /\ bi_curated_entries input = sv_curated s
  /\ @all_verified_user_rules (@sv_sql (ce_daemon t)) (@sv_fs (ce_daemon t)) _ (sv_store s) (sv_policy s)
     = Ok (bi_verified_user_entries input)
  /\ sv_prepared s1 !! bi_run_uuid input = Some (mkPending input is_tty learn (ce_daemon_clock t)).

Lemma prepare_request_cases (cwd : string) (is_tty learn : bool) (t : nat) (s s1 : Server) (reply : SnapshotInputsReply) :
  prepare_request cwd is_tty learn t s = (s1, reply) ->
  sv_files s1 = sv_files s
  /\ match reply with
     | InputsOk input tty b => tty = is_tty /\ b = learn /\ preparable t s cwd /\ inputs_of t s s1 cwd is_tty learn input
     | InputsErr _ => ~ preparable t s cwd
     end.
Proof using Type.
  unfold prepare_request. cbn [work prepare_service pq_schema_version PrepareSnapshot_new_v3].
  rewrite bool_decide_eq_true_2 by (apply list_elem_of_further, list_elem_of_here).
  unfold handle_prepare_snapshot_inputs_full, collect_snapshot_build_input, preparable, inputs_of. cbn.
  destruct new_run_uuid as [u|e]; cbn; [|intros [= <- <-]; split; [done|by intros (_ & _ & ?)]].
  destruct (validate_cwd cwd) as [n|e]; cbn; [|intros [= <- <-]; split; [done|by intros (? & _ & _)]].
  destruct (all_verified_user_rules _ _) as [us|e]; cbn; [|intros [= <- <-]; split; [done|by intros (_ & ? & _)]].
  intros [= <- <-]. cbn. split_and!; try done. apply lookup_insert_eq.
Qed.

Context (law : keychain_signs) (Hcodec : codec_round_trips)
  (Hlib : forall t, @resolve_codec (@sv_resolve (ce_daemon t)) = SNC)
  (H1 : cbor_round_trips PrepareSnapshotReq) (H2 : cbor_round_trips SnapshotInputsReply)
  (H3 : cbor_round_trips PublishSignedSnapshot) (H4 : cbor_round_trips SnapshotReply).

Lemma prepare_run_spec (p : Proc) (cwd : string) (is_tty learn : bool) (c c' : Client)
    (r : result PrepareSnapshotOutcome CliError) :
  let t := cl_tick c in
  let s := found c in
  let s1 := (prepare_request cwd is_tty learn t s).1 in
  let s2 := ce_others (S t) s1 in
  (forall u v, sv_prepared s1 !! u = Some v -> sv_prepared s2 !! u = Some v) ->
  (ce_daemon_clock (S t) - ce_daemon_clock t < PENDING_SNAPSHOT_INPUT_TTL)%Z ->
  prepare_snapshot_v3 p cwd is_tty learn c = (c', r) ->
  match r with
  | Ok out => exists input, inputs_of t s s1 cwd is_tty learn input
      /\ po_run_uuid out = bi_run_uuid input
      /\ po_manifest_path out = run_manifest_path (sv_state_dir s2) (bi_run_uuid input)
      /\ run_published p s2 (cl_server c') input is_tty learn
  | Err e =>
      lost e
      \/ (~ preparable t s cwd /\ sv_files (cl_server c') = sv_files s)
      \/ exists input, inputs_of t s s1 cwd is_tty learn input
         /\ ((exists m, build_snapshot_bytes input = Err m)
             \/ exists bytes, build_snapshot_bytes input = Ok bytes
                /\ let payload := new_snapshot_payload (bi_run_uuid input) (sha256_hex bytes) (bi_generated_at_unix_ms input) in
                   sign_snapshot_payload payload p = Err e
                   \/ exists sg, sign_snapshot_payload payload p = Ok sg
                      /\ (~ trusted_at (S t) (sv_store s2) sg
                          \/ exists fault, e = CliOther ("PublishSignedSnapshot: " +:+ ("publish signed snapshot: " +:+ fault))))
  end.
Proof using law Hcodec Hlib H1 H2 H3 H4.
  intros t s s1 s2 Hothers Httl. unfold prepare_snapshot_v3. rewrite sm_bind_eq.
  destruct (send_tagged_request TAG_PREPARE_SNAPSHOT_INPUTS _ c) as [c1 r1] eqn:E1.
  destruct (request_cases PrepareSnapshotInputs c c1 _ r1 H1 H2 E1) as [Ht Hc1]. cbv zeta in Hc1.
  change (work PrepareSnapshotInputs _ _ _ _) with (prepare_request cwd is_tty learn t s) in Hc1. fold t in Ht.
  destruct Hc1 as [[_ [m ->]]|[Hs1 [->|[m ->]]]]; [intros [= <- <-]; left; by eexists| |intros [= <- <-]; left; by eexists].
  pose proof (prepare_request_cases cwd is_tty learn t s _ _ (surjective_pairing _)) as [Hfiles Hreply]. fold s1 in Hs1, Hfiles, Hreply.
  destruct (prepare_request cwd is_tty learn t s).2 as [input tty b|m];
    [|intros [= <- <-]; right; left; by rewrite Hs1, Hfiles].
  destruct Hreply as (-> & -> & Hpre & Hin). cbn [snd]. rewrite sm_bind_eq. unfold sm_lift at 1.
  destruct (build_snapshot_bytes input) as [bytes|e] eqn:Hb; [|intros [= <- <-]; right; right; eauto 6].
  cbn [map_err]. rewrite sm_bind_eq. unfold sm_lift at 1.
  destruct (sign_snapshot_payload _ p) as [sg|e] eqn:Hsg; [|intros [= <- <-]; right; right; exists input; eauto 7].
  rewrite sm_bind_eq.
  destruct (send_tagged_request TAG_PUBLISH_SIGNED_SNAPSHOT _ c1) as [c2 r2] eqn:E2.
  destruct (request_cases Frame.PublishSignedSnapshot c1 c2 _ r2 H3 H4 E2) as [_ Hc2]. cbv zeta in Hc2.
  rewrite Ht, Hs1 in Hc2. fold s2 in Hc2.
  destruct Hc2 as [[_ [m ->]]|[Hs2 [->|[m ->]]]]; [intros [= <- <-]; left; by eexists| |intros [= <- <-]; left; by eexists].
  pose proof Hin as (Huuid & _ & _ & Hpend). destruct (new_run_uuid_plain _ Huuid) as [Hne Hrel].
  pose proof (publish_prepared law Hcodec Hlib p (S t) (ce_daemon_clock t) (ce_daemon_clock (S t)) s2 _ input is_tty learn bytes sg _
    (Hothers _ _ Hpend) Httl Hne Hrel Hb Hsg (surjective_pairing _)) as Hpub.
  rewrite <- Hs2 in Hpub.
  destruct (work Frame.PublishSignedSnapshot _ s2 _ _).2 as [manifest u|m]; intros [= <- <-].
  - destruct Hpub as (-> & -> & Hpub). by exists input.
  - right. right. exists input. split; [done|]. right. exists bytes. split; [done|]. right. exists sg. split; [done|].
    destruct Hpub as [?|[fault ->]]; [by left|right; by exists fault].
Qed.

End Prepared.

(** ** The commands *)

(** C21: a rule request says to the user what the daemon did.  When it returns an
    identifier the user authenticated, the rule was signed with the user's own key for
    exactly the fields asked for, and the daemon's store holds that rule and that signature
    under that identifier, its other rules and its overrides untouched.  When it returns an
    error, either the daemon could not be reached; or nothing was sent, the user having
    declined or the key having failed; or the store is unchanged and the fields, the signer
    or the database were at fault. *)
Theorem rule_request_faithful `{CE : CliEnv, SC : ServerCodec, CR : Crypto, SF : SecurityFramework}
    (law : keychain_signs) (Hrt : cbor_round_trips (Versioned InsertUserRule)) (Hrt' : cbor_round_trips InsertUserRuleReply)
    (p : Proc) (kind match_type pattern reason origin : string) (run_uuid : option string)
    (c c' : Client) (r : result Z CliError) :
  insert_user_rule_request_with_origin p kind match_type pattern reason origin run_uuid c = (c', r) ->
  let t := cl_tick c in let now := ce_unix_ms_now t in let s := found c in
  let payload := new_rule_payload kind match_type pattern reason now origin run_uuid in
  let request sg := mkInsertUserRule kind match_type pattern reason now origin run_uuid (Some sg) in
  let asked := ce_authenticates t ("create " +:+ kind +:+ " rule for " +:+ pattern) in
  match r with
  | Ok id =>
      asked = true /\ exists sg, sign_rule_payload payload p = Ok sg /\ signed_by_user p sg
        /\ rules (db (sv_store (cl_server c'))) !! id = Some (mkRuleRow kind match_type pattern reason now)
        /\ rule_signatures (db (sv_store (cl_server c'))) !! id = Some (mkSigRow sg origin run_uuid now)
        /\ delete id (rules (db (sv_store (cl_server c')))) = delete id (rules (db (sv_store s)))
        /\ curated_overrides (db (sv_store (cl_server c'))) = curated_overrides (db (sv_store s))
  | Err e =>
      lost e
      \/ (c' = c /\ (asked = false \/ sign_rule_payload payload p = Err e))
      \/ (sv_store (cl_server c') = sv_store s /\ asked = true
          /\ exists sg, sign_rule_payload payload p = Ok sg
             /\ ~ (valid_fields (request sg) = true
                   /\ @is_trusted_rule_signer (@sv_sql (ce_daemon t)) (@sv_fs (ce_daemon t)) (sv_store s)
                        (sig_public_key_sha256 sg) (sig_signer_kind sg) = Ok true
                   /\ is_ok (@insert_signed_user_rule (@sv_sql (ce_daemon t)) (sv_store s) payload sg).2 = true))
  end.
Proof. apply (insert_request_spec law Hrt Hrt'). Qed.

(** A stored rule with its signature is among the verified ones. *)
Lemma stored_rule_verified `{SqlEngine, TrustFs, Crypto} (st : RuleStore) (policy : RuleSignaturePolicy)
    (out : list AllowlistEntry) (id : Z) (row : RuleRow) (sg : SigRow) :
  all_verified_user_rules st policy = Ok out ->
  rules (db st) !! id = Some row -> rule_signatures (db st) !! id = Some sg ->
  exists e, e ∈ out /\ RuleVerified st policy row sg e.
Proof.
  intros [_ Hall]%all_verified_ok Hr Hs.
  assert ((row, sg) ∈ joined_rows (db st)) as Hin.
  { unfold joined_rows. apply list_elem_of_omap. exists (id, row). split; [by apply elem_of_rows_by_id|]. by rewrite Hs. }
  apply list_elem_of_lookup in Hin as [i Hi]. destruct (Forall2_lookup_l _ _ _ _ _ Hall Hi) as (e & He & Hv).
  exists e. split; [by eapply list_elem_of_lookup_2|by apply verify_user_rule_row_ok].
Qed.

(** C16: a run prepared from the command line is in place, or the error says why.  On
    success the run has a fresh name, its inputs are the rules the daemon has in force,
    and under its name lie the snapshot of exactly these inputs, a manifest with the
    user's signature of it and the record of the run.  Otherwise the daemon could not be
    reached; or it could not prepare inputs, and wrote nothing; or the snapshot could not
    be built or signed; or the user's key is not trusted, or a file could not be written:
    no check of the daemon refuses what its own inputs give. *)
Theorem prepared_run_in_place `{CE : CliEnv, SC : ServerCodec, CR : Crypto, SF : SecurityFramework, SNC : SnapshotCodec}
    (law : keychain_signs) (Hcodec : codec_round_trips)
    (Hlib : forall t, @resolve_codec (@sv_resolve (ce_daemon t)) = SNC)
    (H1 : cbor_round_trips PrepareSnapshotReq) (H2 : cbor_round_trips SnapshotInputsReply)
    (H3 : cbor_round_trips PublishSignedSnapshot) (H4 : cbor_round_trips SnapshotReply)
    (p : Proc) (cwd : string) (is_tty learn : bool) (c c' : Client) (r : result PrepareSnapshotOutcome CliError) :
  let t := cl_tick c in
  let s := found c in
  let s1 := (prepare_request cwd is_tty learn t s).1 in
  let s2 := ce_others (S t) s1 in
  (forall u v, sv_prepared s1 !! u = Some v -> sv_prepared s2 !! u = Some v) ->
  (ce_daemon_clock (S t) - ce_daemon_clock t < PENDING_SNAPSHOT_INPUT_TTL)%Z ->
  prepare_snapshot_v3 p cwd is_tty learn c = (c', r) ->
  match r with
  | Ok out => exists input, inputs_of t s s1 cwd is_tty learn input
      /\ po_run_uuid out = bi_run_uuid input
      /\ po_manifest_path out = run_manifest_path (sv_state_dir s2) (bi_run_uuid input)
      /\ run_published p s2 (cl_server c') input is_tty learn
  | Err e =>
      lost e
      \/ (~ preparable t s cwd /\ sv_files (cl_server c') = sv_files s)
      \/ exists input, inputs_of t s s1 cwd is_tty learn input
         /\ ((exists m, build_snapshot_bytes input = Err m)
             \/ exists bytes, build_snapshot_bytes input = Ok bytes
                /\ let payload := new_snapshot_payload (bi_run_uuid input) (sha256_hex bytes) (bi_generated_at_unix_ms input) in
                   sign_snapshot_payload payload p = Err e
                   \/ exists sg, sign_snapshot_payload payload p = Ok sg
                      /\ (~ trusted_at (S t) (sv_store s2) sg
                          \/ exists fault, e = CliOther ("PublishSignedSnapshot: " +:+ ("publish signed snapshot: " +:+ fault))))
  end.
Proof. apply (prepare_run_spec law Hcodec Hlib H1 H2 H3 H4). Qed.

(** C8: a rule added from the command line reaches the next run.  After a rule request
    that returned an identifier, a run that is prepared while the daemon still holds the
    rule has a snapshot file that decodes to entries one of which is the rule: its pattern,
    its reason, the kind and match type it was asked with, in the tier of the user. *)
Theorem added_rule_reaches_next_run
    `{CE : CliEnv, SC : ServerCodec, CR : Crypto, SF : SecurityFramework, SNC : SnapshotCodec}
    (law : keychain_signs) (Hcodec : codec_round_trips)
    (Hlib : forall t, @resolve_codec (@sv_resolve (ce_daemon t)) = SNC)
    (H1 : cbor_round_trips PrepareSnapshotReq) (H2 : cbor_round_trips SnapshotInputsReply)
    (H3 : cbor_round_trips PublishSignedSnapshot) (H4 : cbor_round_trips SnapshotReply)
    (H5 : cbor_round_trips (Versioned InsertUserRule)) (H6 : cbor_round_trips InsertUserRuleReply)
    (p : Proc) (kind match_type pattern reason origin : string) (run_uuid : option string) (id : Z)
    (cwd : string) (is_tty learn : bool) (c c1 c2 : Client) (out : PrepareSnapshotOutcome) :
  insert_user_rule_request_with_origin p kind match_type pattern reason origin run_uuid c = (c1, Ok id) ->
  prepare_snapshot_v3 p cwd is_tty learn c1 = (c2, Ok out) ->
  let t := cl_tick c1 in
  let kept (s s' : Server) :=
    rules (db (sv_store s')) !! id = rules (db (sv_store s)) !! id
    /\ rule_signatures (db (sv_store s')) !! id = rule_signatures (db (sv_store s)) !! id in
  kept (cl_server c1) (found c1) ->
  let s1 := (prepare_request cwd is_tty learn t (found c1)).1 in
  let s2 := ce_others (S t) s1 in
  (forall u v, sv_prepared s1 !! u = Some v -> sv_prepared s2 !! u = Some v) ->
  (ce_daemon_clock (S t) - ce_daemon_clock t < PENDING_SNAPSHOT_INPUT_TTL)%Z ->
  exists bytes snap e,
    sv_files (cl_server c2) !! run_snapshot_path (sv_state_dir s2) (po_run_uuid out) = Some bytes
    /\ decode bytes = Ok snap /\ e ∈ entries snap
    /\ e_pattern e = pattern /\ e_reason e = reason /\ e_tier e = user_tier (e_kind e)
    /\ parse_rule_kind kind = Ok (e_kind e) /\ parse_match_type match_type = Ok (e_match_type e).
Proof.
  intros Hins Hprep t kept [Hk1 Hk2] s1 s2 Hothers Httl.
  apply (insert_request_spec law H5 H6) in Hins as (_ & sg & _ & _ & Hrow & Hsig & _).
  apply (prepare_run_spec law Hcodec Hlib H1 H2 H3 H4) in Hprep as (input & (_ & _ & Hver & _) & Hu & _ & Hpub); [|done..].
  destruct (stored_rule_verified _ _ _ _ _ _ Hver (eq_trans Hk1 Hrow) (eq_trans Hk2 Hsig)) as (e & Hin & Hrv).
  destruct Hpub as (bytes & sg' & Hb & _ & _ & Hf & _). exists bytes, (build_snapshot input), e.
  rewrite Hu. split; [done|]. destruct Hrv as [_ _ _ Hkind Hmt [Hpat Hrea] Htier]. cbn in Hkind, Hmt, Hpat, Hrea.
  split; [|split; [apply build_snapshot_elem; right; by left|by split_and!]].
  by apply build_snapshot_bytes_decode.
Qed.

(** ** A concrete exchange *)

#[local] Instance prepare_req_eq_dec : EqDecision PrepareSnapshotReq.
Proof. solve_decision. Defined.
#[local] Instance input_eq_dec : EqDecision SnapshotBuildInput.
Proof. solve_decision. Defined.
#[local] Instance inputs_reply_eq_dec : EqDecision SnapshotInputsReply.
Proof. solve_decision. Defined.
#[local] Instance snapshot_reply_eq_dec : EqDecision SnapshotReply.
Proof. solve_decision. Defined.
#[local] Instance publish_req_eq_dec : EqDecision PublishSignedSnapshot.
Proof. solve_decision. Defined.
#[local] Instance insert_eq_dec : EqDecision InsertUserRule.
Proof. solve_decision. Defined.
#[local] Instance insert_req_eq_dec : EqDecision (Versioned InsertUserRule).
Proof. solve_decision. Defined.
#[local] Instance insert_reply_eq_dec : EqDecision InsertUserRuleReply.
Proof. intros [] []; unfold base.Decision; repeat decide equality. Defined.

#[local] Existing Instance toy_crypto.

Definition toy_only_snapshot (v : Snapshot) : SnapshotCodec := {|
  cbor_encode_snapshot s := if bool_decide (s = v) then Ok "run" else Err "unexpected";
  cbor_decode_snapshot _ := Ok v;
|}.

Lemma toy_only_snapshot_round_trips (v : Snapshot) : @codec_round_trips (toy_only_snapshot v).
Proof. intros s b. cbn. case_bool_decide; [by subst|done]. Qed.


(** A daemon that trusts the user's key of the keychain. *)
Definition toy_cli_fs : TrustFs := {|
  symlink_metadata := @symlink_metadata toy_fs;
  read_to_string p :=
    if bool_decide (p = trusted_rule_signers_path)
    then Ok (sha256_hex "K" +:+ String TAB (SIGNER_KIND_MACOS_KEYCHAIN +:+ String TAB (hex_lower "K" +:+ String LF "")))
    else Err "ENOENT";
|}.

Definition toy_cli_boot : Server :=
  put_store toy_boot
    (mkStore (mkDb ∅ ∅ {[ sha256_hex "K" := mkSignerRow SIGNER_KIND_MACOS_KEYCHAIN "K" 0 "installer" ]} ∅)
       (Some trusted_rule_signers_path)).

Definition toy_cli_daemon (k : SnapshotCodec) : ServerEnv := {|
  sv_os := toy_os true;
  sv_resolve := {| to_socket_addrs := @to_socket_addrs toy_resolver; fs_read := @fs_read toy_resolver; resolve_codec := k; AF_INET6 := 30 |};
  sv_pub := toy_pub; sv_lock := toy_lock; sv_sql := toy_sql; sv_fs := toy_cli_fs;
  sv_clone_error := None; sv_spawn_error := None; sv_build_version := "0.0.0"; sv_process_id := 77;
  sv_intel := Ok [];
|}.

Definition toy_cli_env (k : SnapshotCodec) (yes : bool) : CliEnv := {|
  ce_sock := "/s/guard.sock"; ce_connect_error _ := None; ce_send_limit _ := None; ce_reply_limit _ := None;
  ce_daemon _ := toy_cli_daemon k; ce_daemon_clock t := Z.of_nat t; ce_others _ s := s;
  ce_identity := Ok (Verified root_tok); ce_codesign _ := CsValid;
  ce_authenticates _ _ := yes; ce_unix_ms_now _ := 7%Z;
|}.

Definition toy_signer : Proc := toy_user "K".

(** The messages: a rule, and a run under it. *)
Definition toy_rule_sig : RuleSignatureV1 :=
  unwrap_or (@sign_rule_payload (toy_keychain "N" (fun _ => None)) toy_crypto
    (new_rule_payload "deny" "exact" "bad.example" "no" 7 "manual" None) toy_signer) toy_sig.
Definition toy_rule_req : Versioned InsertUserRule :=
  mkVersioned SCHEMA_V5 (mkInsertUserRule "deny" "exact" "bad.example" "no" 7 "manual" None (Some toy_rule_sig)).
Definition toy_rule_done : Server * InsertUserRuleReply :=
  @work toy_server_codec toy_crypto Frame.InsertUserRule _ _ _ _ insert_service (toy_cli_daemon toy_codec) toy_cli_boot 0 toy_rule_req.

Definition toy_inputs_req : PrepareSnapshotReq := PrepareSnapshot_new_v3 "/home/me/project" false false.
Definition toy_inputs_done : Server * SnapshotInputsReply :=
  @work toy_server_codec toy_crypto PrepareSnapshotInputs _ _ _ _ prepare_service (toy_cli_daemon toy_codec) toy_rule_done.1 1 toy_inputs_req.
Definition toy_run_input : SnapshotBuildInput :=
  match toy_inputs_done.2 with InputsOk i _ _ => i | InputsErr _ => sample_input end.

Definition toy_run_codec : SnapshotCodec := toy_only_snapshot (build_snapshot toy_run_input).

Definition toy_run_sig : SnapshotSignatureV1 :=
  unwrap_or (@sign_snapshot_payload (toy_keychain "N" (fun _ => None)) toy_crypto
    (new_snapshot_payload (bi_run_uuid toy_run_input) (sha256_hex "run") 0) toy_signer) toy_sig.
Definition toy_run_req : PublishSignedSnapshot :=
  PublishSignedSnapshot_new (bi_run_uuid toy_run_input) "run" toy_run_sig false false.
Definition toy_run_done : Server * SnapshotReply :=
  @work toy_server_codec toy_crypto Frame.PublishSignedSnapshot _ _ _ _ publish_service (toy_cli_daemon toy_run_codec) toy_inputs_done.1 2 toy_run_req.

Definition toy_cli_codec : ServerCodec := {|
  sc_register := toy_cbor None; sc_ack := toy_cbor None;
  sc_fork := toy_cbor None; sc_exec := toy_cbor None; sc_loaded := toy_cbor None;
  sc_env_gap := toy_cbor None; sc_blocked := toy_cbor None;
  sc_persist := toy_cbor None; sc_deny := toy_cbor None;
  sc_channel := toy_cbor None;
  sc_resolve := toy_cbor None; sc_resolve_reply := toy_cbor None;
  sc_prepare := toy_only toy_inputs_req; sc_publish := toy_only toy_run_req;
  sc_snapshot_reply := toy_only toy_run_done.2; sc_inputs_reply := toy_only toy_inputs_done.2;
  sc_empty := toy_cbor None; sc_run := toy_cbor None; sc_list := toy_cbor None;
  sc_kinds := toy_cbor None;
  sc_insert := toy_only toy_rule_req; sc_disable := toy_cbor None;
  sc_enable := toy_cbor None;
  sc_status_reply := toy_cbor None; sc_insert_reply := toy_only toy_rule_done.2;
  sc_artifacts_reply := toy_cbor None; sc_baseline_reply := toy_cbor None;
  sc_rules_reply := toy_cbor None; sc_delete_reply := toy_cbor None;
  sc_ping_reply := toy_cbor None; sc_disable_reply := toy_cbor None;
  sc_enable_reply := toy_cbor None;
|}.

Definition toy_add (yes : bool) : Client * result Z CliError :=
  @insert_user_rule_request_with_origin (toy_cli_env toy_run_codec yes) toy_cli_codec toy_crypto (toy_keychain "N" (fun _ => None)) toy_signer
    "deny" "exact" "bad.example" "no" "manual" None (mkClient 0 toy_cli_boot).
Definition toy_run : Client * result PrepareSnapshotOutcome CliError :=
  @prepare_snapshot_v3 (toy_cli_env toy_run_codec true) toy_cli_codec toy_crypto (toy_keychain "N" (fun _ => None)) toy_run_codec toy_signer
    "/home/me/project" false false (toy_add true).1.

Example toy_add_declined : toy_add false = (mkClient 0 toy_cli_boot, Err (CliOther "biometric authentication required to modify rules")).
Proof. reflexivity. Qed.
Example toy_add_done : (toy_add true).2 = Ok 1%Z.
Proof. vm_compute. reflexivity. Qed.
Example toy_run_ok : toy_run.2 = Ok (mkPrepareOutcome "/s/runs/00010203-0405-4607-8809-0a0b0c0d0e0f.manifest" "00010203-0405-4607-8809-0a0b0c0d0e0f").
Proof. vm_compute. reflexivity. Qed.

Lemma rule_request_faithful_witness :
  exists c id sg, toy_add true = (c, Ok id)
  /\ rule_signatures (db (sv_store (cl_server c))) !! id = Some (mkSigRow sg "manual" None 7)
  /\ signed_by_user toy_signer sg.
Proof.
  assert (E : toy_add true = ((toy_add true).1, Ok 1%Z)) by (apply pair_snd; vm_compute; reflexivity).
  destruct (@rule_request_faithful (toy_cli_env toy_run_codec true) toy_cli_codec toy_crypto _ (toy_keychain_signs _ _)
    (toy_only_round_trips _) (toy_only_round_trips _) _ _ _ _ _ _ _ _ _ _ E) as (_ & sg & _ & Hu & _ & Hs & _).
  exists (toy_add true).1, 1%Z, sg. by split_and!.
Defined.

Lemma prepared_run_in_place_witness :
  exists c out, toy_run = (c, Ok out)
  /\ sv_files (cl_server c) !! "/s/runs/00010203-0405-4607-8809-0a0b0c0d0e0f.cbor" = Some "run".
Proof.
  set (out := mkPrepareOutcome "/s/runs/00010203-0405-4607-8809-0a0b0c0d0e0f.manifest" "00010203-0405-4607-8809-0a0b0c0d0e0f").
  assert (E : toy_run = (toy_run.1, Ok out)) by (apply pair_snd; vm_compute; reflexivity).
  exists toy_run.1, out. split; [exact E|].
  destruct (@prepared_run_in_place (toy_cli_env toy_run_codec true) toy_cli_codec toy_crypto _ toy_run_codec (toy_keychain_signs _ _)
    (toy_only_snapshot_round_trips _) (fun _ => eq_refl) (toy_only_round_trips _) (toy_only_round_trips _)
    (toy_only_round_trips _) (toy_only_round_trips _) toy_signer "/home/me/project" false false (toy_add true).1 toy_run.1 (Ok out)
    (fun u v H => H) eq_refl E) as (input & _ & Hu & _ & bytes & sg & Hb & _ & _ & Hf & _).
  vm_compute; reflexivity.
Defined.

Lemma added_rule_reaches_next_run_witness :
  exists e, e ∈ entries (build_snapshot toy_run_input) /\ e_pattern e = "bad.example" /\ e_kind e = Deny /\ e_tier e = UserDeny.
Proof.
  set (out := mkPrepareOutcome "/s/runs/00010203-0405-4607-8809-0a0b0c0d0e0f.manifest" "00010203-0405-4607-8809-0a0b0c0d0e0f").
  assert (E : toy_run = (toy_run.1, Ok out)) by (apply pair_snd; vm_compute; reflexivity).
  assert (E1 : toy_add true = ((toy_add true).1, Ok 1%Z)) by (apply pair_snd; vm_compute; reflexivity).
  destruct (@added_rule_reaches_next_run (toy_cli_env toy_run_codec true) toy_cli_codec toy_crypto _ toy_run_codec (toy_keychain_signs _ _)
    (toy_only_snapshot_round_trips _) (fun _ => eq_refl) (toy_only_round_trips _) (toy_only_round_trips _)
    (toy_only_round_trips _) (toy_only_round_trips _) (toy_only_round_trips _) (toy_only_round_trips _)
    toy_signer "deny" "exact" "bad.example" "no" "manual" None 1%Z "/home/me/project" false false
    (mkClient 0 toy_cli_boot) (toy_add true).1 toy_run.1 out E1 E (conj eq_refl eq_refl) (fun u v H => H) eq_refl)
    as (bytes & snap & e & _ & Hd & He & Hp & _ & Ht & Hk & _).
  injection Hd as <-. injection Hk as Hk. rewrite <- Hk in Ht.
  exact (ex_intro _ e (conj He (conj Hp (conj (eq_sym Hk) Ht)))).
Defined.
