(* ===== verification/CliPrompt.v ===== *)
(** * Prompts on the terminal

    [crates/guard-cli/src/prompt_render.rs], [prompt_channel.rs] and
    [sigint_handler.rs]: how a prompt of the daemon is shown and answered, the channel
    the answers go through, and what an interrupt does to the prompts that are open.
    The terminal is [Terminal]: the lines it will be given, without end.  The two threads
    that share the channel are a transition system. *)

From S2P Require Import Prelude RustStr Policy Signature Snapshot RuleStore ProcessTree Frame Handlers Prompt.
From S2P Require Import Messages LogWriter Events Admin Resolve Server Watchdog HardwareSigning CliClient.

(** ** messages.rs: a prompt as it travels *)

Record PromptMessage : Type := mkPromptMessage {
  pm_request : PromptRequest;
  pm_source_locator : option string;
  pm_package_context : option PackageContext;
  pm_cwd : string;
  pm_intel : option (list IntelMatch);
}.

(** The daemon's side, [resolve_prompt_request]. *)
Definition prompt_message (d : Daemon) (peer : AuditToken) (req : ResolveMsg) (prompt_id : string) (source : SourceKind)
    (package_context : option PackageContext) (entries : list AllowlistEntry) : PromptMessage :=
  let intel := enrich_from_entries (rq_host req) entries in
  mkPromptMessage (resolve_prompt_request d peer req prompt_id source) None package_context ""
    (match intel with [] => None | _ => Some intel end).

Inductive ClientChannelFrame : Type :=
| FrResponse (resp : PromptResponse)
| FrCancel (prompt_id : string).

(** ** prompt_render.rs *)

Definition ESC : ascii := ascii_of_nat 27.
Definition colour (code text : string) : string := String ESC ("[" +:+ code +:+ "m" +:+ text +:+ String ESC "[0m").
Definition writeln (s : string) : string := s +:+ String LF "".
Definition concat_str (l : list string) : string := foldr String.app "" l.

Definition intel_line (m : IntelMatch) : string :=
  if bool_decide (default "unknown" (im_tag m) = "suspect")
  then "  " +:+ colour "33" ("WARNING: suspicious host (" +:+ im_advisory_id m
                             +:+ ") — not yet confirmed malicious, approval at own risk")
  else "  " +:+ colour "31" ("BLOCKED: known malicious host (" +:+ im_advisory_id m +:+ ") — advisory: " +:+ im_feed m).

Definition package_line (pkg : PackageContext) : string :=
  "    package: " +:+ pc_ecosystem pkg +:+ " " +:+ pc_package pkg +:+ "@" +:+ pc_version pkg
  +:+ " (" +:+ default "-" (pc_lifecycle pkg)
  +:+ (if is_empty (pc_root_command pkg) then "" else ", " +:+ pc_root_command pkg) +:+ ")".

Definition render_prompt (m : PromptMessage) : string :=
  let req := pm_request m in
  writeln ""
  +:+ writeln ("  Stentorian Guard: outbound to " +:+ pq_dest_host req +:+ ":" +:+ pretty (pq_dest_port req)
               +:+ " (source: " +:+ pq_source_kind req +:+ ")")
  +:+ from_option (fun loc => writeln ("    locator: " +:+ loc)) "" (pm_source_locator m)
  +:+ concat_str ((fun i => writeln (intel_line i)) <$> default [] (pm_intel m))
  +:+ from_option (fun pkg => writeln (package_line pkg)) "" (pm_package_context m)
  +:+ writeln ("  process: pid=" +:+ pretty (pq_pid req) +:+ " argv0=" +:+ pq_argv0 req +:+ " cwd=" +:+ pm_cwd m)
  +:+ (if bool_decide (pq_suggested_rules req = []) then ""
       else writeln "  suggested:"
            +:+ concat_str (imap (fun i r => writeln ("    [" +:+ pretty (S i) +:+ "] " +:+ sr_match_type r +:+ " " +:+ sr_pattern r))
                  (take 3 (pq_suggested_rules req))))
  +:+ writeln "  Choose: [1]once  [2]always  [3]deny  [?]help".

(** What [read_line] returns, call after call: at the end of the input, the empty line
    for ever. *)
Class Terminal : Type := {
  read_line : nat -> result string string;
  (** The duplication of the socket of a channel. *)
  try_clone_error : nat -> option string;
}.

Record Tty : Type := mkTty {
  tt_next : nat;
  tt_out : string;
}.

Inductive Choice : Type := Chosen (v : PromptVerdict) | Say (text : string).

Definition parse_choice (line : string) : Choice :=
  let choice := trim line in
  if bool_decide (choice = "1") then Chosen AllowOnce
  else if bool_decide (choice = "2") then Chosen AllowAlwaysMachine
  else if bool_decide (choice = "3") then Chosen PromptDeny
  else if bool_decide (choice = "?") then
    Say (writeln "  [1] allow this connection once (requires Touch ID / password)"
         +:+ writeln "  [2] allow always — write to SQLite rules (requires Touch ID / password)"
         +:+ writeln "  [3] deny — connection blocked, logged")
  else Say (writeln "  invalid choice; pick 1/2/3 or ?").

Section Render.
Context `{TY : Terminal, CE : CliEnv, CR : Crypto, SF : SecurityFramework}.

(** [None] when [fuel] lines do not settle it. *)
Fixpoint read_prompt_verdict (fuel : nat) (tt : Tty) : option (Tty * result PromptVerdict CliError) :=
  match fuel with
  | O => None
  | S fuel =>
      let next := S (tt_next tt) in
      match read_line (tt_next tt) with
      | Err e => Some (mkTty next (tt_out tt), Err (CliOther ("stdin: " +:+ e)))
      | Ok line =>
          match parse_choice line with
          | Chosen v => Some (mkTty next (tt_out tt), Ok v)
          | Say text => read_prompt_verdict fuel (mkTty next (tt_out tt +:+ text))
          end
      end
  end.

Definition allow_choice_authentication_reason (req : PromptRequest) : string := "approve outbound to " +:+ pq_dest_host req.

(** [t] is the instant, for the clock and for Touch ID. *)
Definition authenticate_allow_choice (t : nat) (req : PromptRequest) (verdict : PromptVerdict) (out : string)
  : string * PromptVerdict :=
  match verdict with
  | AllowOnce | AllowAlwaysMachine =>
      if ce_authenticates t (allow_choice_authentication_reason req) then (out, verdict)
      else (out +:+ writeln "  authentication failed — treating as deny", PromptDeny)
  | PromptDeny => (out, verdict)
  end.

Definition rule_pattern_for_verdict (req : PromptRequest) (verdict : PromptVerdict) : option RulePattern :=
  match verdict with
  | AllowAlwaysMachine => (fun r => mkRulePattern (sr_match_type r) (sr_pattern r)) <$> head (pq_suggested_rules req)
  | _ => None
  end.

Definition prompt_reason (run_uuid : string) : string := "user-approved via prompt run " +:+ run_uuid.

Definition signed_rule_for_verdict (p : Proc) (t : nat) (run_uuid : string) (verdict : PromptVerdict)
    (rule_pattern : option RulePattern) : result (option InsertUserRule) CliError :=
  match verdict, rule_pattern with
  | AllowAlwaysMachine, Some pat =>
      let created_at_unix_ms := ce_unix_ms_now t in
      let reason := prompt_reason run_uuid in
      let payload := new_rule_payload "allow" (rpt_match_type pat) (rpt_pattern pat) reason created_at_unix_ms "prompt"
                       (Some run_uuid) in
      let? signature := sign_rule_payload payload p in
      Ok (Some (mkInsertUserRule "allow" (rpt_match_type pat) (rpt_pattern pat) reason created_at_unix_ms "prompt"
                  (Some run_uuid) (Some signature)))
  | _, _ => Ok None
  end.

Definition render_and_choose (fuel : nat) (p : Proc) (t : nat) (m : PromptMessage) (run_uuid : string) (tt : Tty)
  : option (Tty * result PromptResponse CliError) :=
  let req := pm_request m in
  match read_prompt_verdict fuel (mkTty (tt_next tt) (tt_out tt +:+ render_prompt m)) with
  | None => None
  | Some (tt1, Err e) => Some (tt1, Err e)
  | Some (tt1, Ok verdict) =>
      let '(out, verdict) := authenticate_allow_choice t req verdict (tt_out tt1) in
      let rule_pattern := rule_pattern_for_verdict req verdict in
      Some (mkTty (tt_next tt1) out,
            let? signed_rule := signed_rule_for_verdict p t run_uuid verdict rule_pattern in
            Ok (mkPromptResponse (pq_prompt_id req) verdict rule_pattern signed_rule))
  end.

(** The body of [render_loop] (run_orchestrator.rs): a failure cancels. *)
Definition answer_prompt (fuel : nat) (p : Proc) (t : nat) (m : PromptMessage) (run_uuid : string) (tt : Tty)
  : option (Tty * ClientChannelFrame) :=
  match render_and_choose fuel p t m run_uuid tt with
  | None => None
  | Some (tt1, Ok resp) => Some (tt1, FrResponse resp)
  | Some (tt1, Err _) => Some (tt1, FrCancel (pq_prompt_id (pm_request m)))
  end.

End Render.

(** The daemon's end of the channel. *)
Definition dispatch_frame `{SqlEngine, TrustFs, Crypto} (d : Daemon) (run_uuid : string) (f : ClientChannelFrame) : Daemon :=
  match f with
  | FrResponse resp => dispatch_response d run_uuid resp
  | FrCancel prompt_id => dispatch_cancel d run_uuid prompt_id
  end.

(** ** When a prompt is settled *)

Section Settled.
Context `{TY : Terminal, CE : CliEnv, CR : Crypto, SF : SecurityFramework}.

(** The line ends the reading. *)
Definition decisive (n : nat) : bool :=
  match read_line n with
  | Err _ => true
  | Ok line => match parse_choice line with Chosen _ => true | Say _ => false end
  end.

Lemma read_decisive (fuel : nat) (tt : Tty) :
  decisive (tt_next tt) = true -> exists r, read_prompt_verdict (S fuel) tt = Some r.
Proof using Type.
  unfold decisive. simpl. destruct (read_line _) as [line|e]; [|by eexists].
  destruct (parse_choice line); [by eexists|done].
Qed.

Lemma read_indecisive (fuel : nat) (tt : Tty) :
  decisive (tt_next tt) = false -> exists out, read_prompt_verdict (S fuel) tt = read_prompt_verdict fuel (mkTty (S (tt_next tt)) out).
Proof using Type.
  unfold decisive. simpl. destruct (read_line _) as [line|e]; [|done].
  destruct (parse_choice line); [done|by eexists].
Qed.

(** The reading ends exactly when some line settles it, and it takes that many lines. *)
Lemma read_returns_iff (fuel : nat) (tt : Tty) :
  (exists r, read_prompt_verdict fuel tt = Some r) <-> exists k, k < fuel /\ decisive (tt_next tt + k) = true.
Proof using Type.
  revert tt. induction fuel as [|fuel IH]; intros tt.
  { split; [intros [r Hr]; done|intros (k & Hk & _); lia]. }
  destruct (decisive (tt_next tt)) eqn:Hd.
  - split; intros _; [exists 0; rewrite Nat.add_0_r; split; [lia|done]|by apply read_decisive].
  - destruct (read_indecisive fuel tt Hd) as [out ->]. rewrite IH. cbn [tt_next]. split.
    + intros (k & Hk & Hd'). exists (S k). split; [lia|]. by rewrite <- Nat.add_succ_comm.
    + intros ([|k] & Hk & Hd'); [by rewrite Nat.add_0_r, Hd in Hd'|]. exists k. split; [lia|]. by rewrite Nat.add_succ_comm.
Qed.

(** When the input has ended the prompt is asked for ever. *)
Lemma closed_input_never_settles (fuel : nat) (p : Proc) (t : nat) (m : PromptMessage) (run_uuid : string) (tt : Tty) :
  (forall n, tt_next tt <= n -> read_line n = Ok "") -> answer_prompt fuel p t m run_uuid tt = None.
Proof using Type.
  intros Hin. unfold answer_prompt, render_and_choose.
  destruct (read_prompt_verdict fuel _) as [r|] eqn:Hr; [|done].
  destruct (proj1 (read_returns_iff fuel _) (ex_intro _ r Hr)) as (k & _ & Hd). unfold decisive in Hd. cbn [tt_next] in Hd.
  rewrite Hin in Hd by lia. done.
Qed.

(** The keys of the prompt, as [render_prompt] shows them. *)
Definition key_of (v : PromptVerdict) : string :=
  match v with AllowOnce => "1" | AllowAlwaysMachine => "2" | PromptDeny => "3" end.

(** The verdict of the user, before Touch ID: among the next [fuel] lines one is its key
    but for blanks around, and those before it are the key of no verdict. *)
Definition said (fuel : nat) (tt : Tty) (v : PromptVerdict) : Prop :=
  exists k, k < fuel
  /\ (exists line, read_line (tt_next tt + k) = Ok line /\ trim line = key_of v)
  /\ forall j, j < k -> exists line, read_line (tt_next tt + j) = Ok line /\ forall w, trim line <> key_of w.

Lemma parse_choice_key (line : string) (v : PromptVerdict) : parse_choice line = Chosen v <-> trim line = key_of v.
Proof using Type.
  unfold parse_choice. cbv zeta. split.
  - repeat (case_bool_decide; [intros [= <-]; done|]). done.
  - intros ->. by destruct v.
Qed.

Lemma parse_choice_other (line : string) : (exists text, parse_choice line = Say text) <-> forall w, trim line <> key_of w.
Proof using Type.
  split.
  - intros [text Ht] w Hw%parse_choice_key. congruence.
  - intros Hno. destruct (parse_choice line) as [v|text] eqn:E; [|by exists text]. by apply parse_choice_key, Hno in E.
Qed.

Lemma said_reads (fuel : nat) (tt : Tty) (v : PromptVerdict) :
  said fuel tt v <-> exists tt', read_prompt_verdict fuel tt = Some (tt', Ok v).
Proof using Type.
  unfold said. revert tt. induction fuel as [|fuel IH]; intros tt; cbn [read_prompt_verdict].
  { split; [intros (k & Hk & _); lia|by intros [tt' ?]]. }
  destruct (read_line (tt_next tt)) as [line|e] eqn:El.
  2:{ split; [|by intros [tt' ?]]. intros ([|k] & _ & (line & Hl & _) & Hj); [by rewrite Nat.add_0_r, El in Hl|].
      destruct (Hj 0 ltac:(lia)) as (line' & Hl' & _). by rewrite Nat.add_0_r, El in Hl'. }
  destruct (parse_choice line) as [w|text] eqn:Ec.
  - pose proof (proj1 (parse_choice_key line w) Ec) as Hw. split.
    + intros ([|k] & _ & (line' & Hl & Hk) & Hj).
      * rewrite Nat.add_0_r, El in Hl. injection Hl as <-. rewrite Hw in Hk. eexists. do 2 f_equal. by destruct w, v.
      * destruct (Hj 0 ltac:(lia)) as (line2 & Hl2 & Hno). rewrite Nat.add_0_r, El in Hl2. injection Hl2 as <-.
        by destruct (Hno w).
    + intros [tt' [= _ <-]]. exists 0. rewrite Nat.add_0_r. split; [lia|]. split; [by exists line|]. intros j Hj. lia.
  - pose proof (proj1 (parse_choice_other line) (ex_intro _ text Ec)) as Hno. rewrite <- IH. cbn [tt_next]. split.
    + intros ([|k] & Hk & (line' & Hl & Hkey) & Hj).
      * rewrite Nat.add_0_r, El in Hl. injection Hl as <-. by destruct (Hno v).
      * exists k. split; [lia|]. rewrite Nat.add_succ_comm. split; [by exists line'|].
        intros j Hj'. rewrite Nat.add_succ_comm. apply Hj. lia.
    + intros (k & Hk & Hline & Hj). exists (S k). split; [lia|]. rewrite <- Nat.add_succ_comm. split; [done|].
      intros [|j] Hj'; [rewrite Nat.add_0_r; by exists line|]. rewrite <- Nat.add_succ_comm. apply Hj. lia.
Qed.

Lemma said_det (fuel : nat) (tt : Tty) (v w : PromptVerdict) : said fuel tt v -> said fuel tt w -> v = w.
Proof using Type. intros [a Hv]%said_reads [b Hw]%said_reads. congruence. Qed.

(** Reading and Touch ID decide the answer. *)
Lemma answer_prompt_cases (fuel : nat) (p : Proc) (t : nat) (m : PromptMessage) (run_uuid : string) (tt tt' : Tty)
    (f : ClientChannelFrame) :
  answer_prompt fuel p t m run_uuid tt = Some (tt', f) ->
  let req := pm_request m in
  let ok := ce_authenticates t (allow_choice_authentication_reason req) in
  let signed := signed_rule_for_verdict p t run_uuid AllowAlwaysMachine (rule_pattern_for_verdict req AllowAlwaysMachine) in
  (f = FrCancel (pq_prompt_id req) /\ forall v, said fuel tt v -> v = AllowAlwaysMachine /\ exists e, signed = Err e)
  \/ (exists v, said fuel tt v /\ (v = PromptDeny \/ ok = false)
      /\ f = FrResponse (mkPromptResponse (pq_prompt_id req) PromptDeny None None))
  \/ (said fuel tt AllowOnce /\ ok = true /\ f = FrResponse (mkPromptResponse (pq_prompt_id req) AllowOnce None None))
  \/ (said fuel tt AllowAlwaysMachine /\ ok = true /\ exists r, signed = Ok r
      /\ f = FrResponse (mkPromptResponse (pq_prompt_id req) AllowAlwaysMachine
                           (rule_pattern_for_verdict req AllowAlwaysMachine) r)).
Proof using Type.
  assert (forall v, said fuel tt v <-> exists tt1,
    read_prompt_verdict fuel (mkTty (tt_next tt) (tt_out tt +:+ render_prompt m)) = Some (tt1, Ok v)) as Hsaid
    by (intros v; apply (said_reads fuel (mkTty (tt_next tt) (tt_out tt +:+ render_prompt m)))).
  cbv zeta. setoid_rewrite Hsaid. clear Hsaid. unfold answer_prompt, render_and_choose.
  destruct (read_prompt_verdict _ _) as [[tt1 [v|e]]|]; [|intros [= <- <-]; left; split; [done|by intros v [? [=]]]|done].
  intros H. cbv zeta. unfold authenticate_allow_choice in H.
  destruct v; [| |injection H as <- <-; right; left; eauto 6];
    (destruct (ce_authenticates _ _); [|injection H as <- <-; right; left; eauto 6]).
  - injection H as <- <-. right. right. left. eauto.
  - destruct (signed_rule_for_verdict _ _ _ _ _) as [r|e] eqn:Es; injection H as <- <-.
    + right. right. right. split; [by eexists|]. split; [done|]. by exists r.
    + left. split; [done|]. intros v [tt2 [= _ <-]]. split; [done|]. by exists e.
Qed.

End Settled.

(** ** From the key pressed to the waiting connection *)

Section EndToEnd.
Context `{TY : Terminal, CE : CliEnv, CR : Crypto, SF : SecurityFramework, SQL : SqlEngine, FS : TrustFs}.
Context (law : keychain_signs).

(** Cancelling a prompt denies it and changes no rule. *)
Lemma cancel_denies (d : Daemon) (run_uuid id : string) (e : DeferredEntry) :
  deferred_wf (d_deferred d) -> pending (d_deferred d) !! id = Some e -> de_run_uuid e = run_uuid ->
  let d' := dispatch_cancel d run_uuid id in
  pending (d_deferred d') !! id = None /\ chans (d_deferred d') !! de_sender e = Some (mkChan (Some VDeny) false)
  /\ d_store d' = d_store d.
Proof using Type.
  intros Hwf He Hrun. unfold dispatch_cancel, take_full_if_owned. rewrite He, bool_decide_eq_true_2 by done.
  unfold take_full. rewrite He. simpl. rewrite lookup_delete_eq, !lookup_alter_eq, (dw_chan _ Hwf _ _ He). done.
Qed.

(** A response to a parked prompt: what is delivered, and the store. *)
Lemma response_delivers (d : Daemon) (run_uuid : string) (resp : PromptResponse) (e : DeferredEntry) :
  deferred_wf (d_deferred d) -> pending (d_deferred d) !! ps_prompt_id resp = Some e -> de_run_uuid e = run_uuid ->
  let d1 := upd_deferred d (set_pending (d_deferred d) (delete (ps_prompt_id resp) (pending (d_deferred d)))) in
  let v := verdict_for_prompt_response d1 run_uuid resp (de_host e) (de_port e) in
  let d' := dispatch_response d run_uuid resp in
  pending (d_deferred d') !! ps_prompt_id resp = None
  /\ chans (d_deferred d') !! de_sender e = Some (mkChan (Some v.2) false) /\ d_store d' = d_store v.1.
Proof using Type.
  intros Hwf He Hrun. unfold dispatch_response, take_prompt_response_entry, take_full_if_owned.
  rewrite He, bool_decide_eq_true_2 by done. unfold take_full. rewrite He.
  destruct (verdict_for_prompt_response _ _ _ _ _) as [d2 v] eqn:Hv.
  apply verdict_same_prompts in Hv as [Hd2 _]. cbn in *. rewrite Hd2. cbn.
  rewrite lookup_delete_eq, !lookup_alter_eq, (dw_chan _ Hwf _ _ He). done.
Qed.

(** The rule of an answer for always, and that the daemon takes it. *)
Definition always_rule (t : nat) (run_uuid : string) (pat : RulePattern) (sg : RuleSignatureV1) : InsertUserRule :=
  mkInsertUserRule "allow" (rpt_match_type pat) (rpt_pattern pat) (prompt_reason run_uuid) (ce_unix_ms_now t) "prompt"
    (Some run_uuid) (Some sg).

Definition takes (d : Daemon) (rule : InsertUserRule) (sg : RuleSignatureV1) : Prop :=
  valid_fields rule = true
  /\ is_trusted_rule_signer (d_store d) (sig_public_key_sha256 sg) (sig_signer_kind sg) = Ok true
  /\ is_ok (insert_signed_user_rule (d_store d) (insert_payload rule) sg).2 = true.

Lemma signed_rule_always (p : Proc) (t : nat) (run_uuid : string) (o : option RulePattern) (r : option InsertUserRule) :
  signed_rule_for_verdict p t run_uuid AllowAlwaysMachine o = Ok r ->
  (o = None /\ r = None)
  \/ exists pat sg, o = Some pat /\ r = Some (always_rule t run_uuid pat sg)
     /\ sign_rule_payload (insert_payload (always_rule t run_uuid pat sg)) p = Ok sg.
Proof using Type.
  unfold signed_rule_for_verdict. destruct o as [pat|]; [|intros [= <-]; by left].
  destruct (sign_rule_payload _ p) as [sg|e] eqn:Es; [|done]. intros [= <-]. right. by exists pat, sg.
Qed.

(** A signed rule for always is accepted exactly when the daemon takes it. *)
Lemma always_verdict (p : Proc) (d : Daemon) (t : nat) (run_uuid host : string) (port : N) (pat : RulePattern)
    (sg : RuleSignatureV1) :
  let rule := always_rule t run_uuid pat sg in
  sign_rule_payload (insert_payload rule) p = Ok sg ->
  let v := allow_always_machine_verdict d run_uuid host port (Some rule) (Some pat) in
  match v.2 with
  | VAllow => takes d rule sg /\ signed_by_user p sg
      /\ exists id, rules (db (d_store v.1)) !! id = Some (mkRuleRow "allow" (rpt_match_type pat) (rpt_pattern pat) (prompt_reason run_uuid) (ce_unix_ms_now t))
         /\ rule_signatures (db (d_store v.1)) !! id = Some (mkSigRow sg "prompt" (Some run_uuid) (ce_unix_ms_now t))
         /\ delete id (rules (db (d_store v.1))) = delete id (rules (db (d_store d)))
  | VDeny => ~ takes d rule sg /\ d_store v.1 = d_store d
  end.
Proof using law.
  intros rule Hs. unfold allow_always_machine_verdict. cbn [iu_kind iu_match_type iu_pattern iu_run_uuid rule always_rule].
  rewrite !bool_decide_eq_true_2 by done. cbn [negb orb].
  pose proof Hs as Hv. apply (sign_rule_verified law _ _ _ (d_policy d)) in Hv as (Hv & Hu & _); [|done].
  pose proof (insert_accepted_iff rule (d_store d) (d_policy d) sg eq_refl Hv) as Hi. fold (takes d rule sg) in Hi.
  destruct (handle_insert_user_rule _ _ _) as [st [id|m]] eqn:Eh; cbn.
  - apply insert_handler_attested in Eh as (sg' & [= <-] & _ & _ & _ & _ & _ & _ & H1 & H2 & H3 & _).
    split; [by apply Hi|]. split; [done|]. by exists id.
  - apply insert_handler_attested in Eh. split; [|done]. by intros ?%Hi.
Qed.

(** What the user said and Touch ID confirmed. *)
Definition approved (fuel t : nat) (m : PromptMessage) (tt : Tty) (v : PromptVerdict) : Prop :=
  said fuel tt v /\ ce_authenticates t (allow_choice_authentication_reason (pm_request m)) = true.

Lemma prompt_answer_spec (fuel : nat) (p : Proc) (t : nat) (m : PromptMessage) (run_uuid : string) (tt tt' : Tty)
    (f : ClientChannelFrame) (d : Daemon) (e : DeferredEntry) :
  answer_prompt fuel p t m run_uuid tt = Some (tt', f) ->
  deferred_wf (d_deferred d) -> pending (d_deferred d) !! pq_prompt_id (pm_request m) = Some e -> de_run_uuid e = run_uuid ->
  let d' := dispatch_frame d run_uuid f in
  let now := ce_unix_ms_now t in
  pending (d_deferred d') !! pq_prompt_id (pm_request m) = None
  /\ exists v, chans (d_deferred d') !! de_sender e = Some (mkChan (Some v) false)
     /\ match v with
        | VAllow =>
            (approved fuel t m tt AllowOnce /\ d_store d' = d_store d)
            \/ (approved fuel t m tt AllowAlwaysMachine
                /\ exists r sg id, head (pq_suggested_rules (pm_request m)) = Some r /\ signed_by_user p sg
                   /\ rules (db (d_store d')) !! id = Some (mkRuleRow "allow" (sr_match_type r) (sr_pattern r) (prompt_reason run_uuid) now)
                   /\ rule_signatures (db (d_store d')) !! id = Some (mkSigRow sg "prompt" (Some run_uuid) now)
                   /\ delete id (rules (db (d_store d'))) = delete id (rules (db (d_store d))))
        | VDeny =>
            d_store d' = d_store d /\ ~ approved fuel t m tt AllowOnce
            /\ (approved fuel t m tt AllowAlwaysMachine ->
                forall pat sg, rule_pattern_for_verdict (pm_request m) AllowAlwaysMachine = Some pat ->
                  sign_rule_payload (insert_payload (always_rule t run_uuid pat sg)) p = Ok sg ->
                  ~ takes d (always_rule t run_uuid pat sg) sg)
        end.
Proof using law.
  intros Ha Hwf He Hrun. cbv zeta.
  assert (Hdet : forall v w, said fuel tt v -> said fuel tt w -> v = w) by apply said_det.
  apply answer_prompt_cases in Ha as [[-> Hno]|[(v & Hsaid & Hwhy & ->)|[(Hsaid & Hok & ->)|(Hsaid & Hok & r & Hr & ->)]]]; cbn [dispatch_frame].
  - destruct (cancel_denies d run_uuid _ e Hwf He Hrun) as (H1 & H2 & H3). split; [done|]. exists VDeny. split; [done|].
    split; [done|]. split; [by intros [[? _]%Hno _]|]. intros [[_ [x Hx]]%Hno _] pat sg Hp Hs.
    rewrite Hp in Hx. unfold signed_rule_for_verdict in Hx. unfold insert_payload, always_rule in Hs. cbn in Hs. by rewrite Hs in Hx.
  - destruct (response_delivers d run_uuid (mkPromptResponse _ PromptDeny None None) e Hwf He Hrun) as (H1 & H2 & H3).
    split; [done|]. exists VDeny. split; [done|]. split; [done|].
    assert (Hnot : forall w, w <> PromptDeny -> ~ approved fuel t m tt w).
    { intros w Hw [Hs Ht]. rewrite (Hdet _ _ Hs Hsaid) in Hw. destruct Hwhy as [->| Hf]; [done|congruence]. }
    split; [by apply Hnot|]. intros H. by apply Hnot in H.
  - destruct (response_delivers d run_uuid (mkPromptResponse _ AllowOnce None None) e Hwf He Hrun) as (H1 & H2 & H3).
    split; [done|]. exists VAllow. split; [done|]. left. by split.
  - destruct (response_delivers d run_uuid (mkPromptResponse _ AllowAlwaysMachine (rule_pattern_for_verdict (pm_request m) AllowAlwaysMachine) r)
                e Hwf He Hrun) as (H1 & H2 & H3). split; [done|]. cbn [verdict_for_prompt_response ps_verdict ps_signed_rule ps_rule_pattern] in H2, H3.
    apply signed_rule_always in Hr as [[Hp ->]|(pat & sg & Hp & -> & Hs)].
    + exists VDeny. rewrite Hp in *. split; [done|]. split; [done|]. split; [|by intros _ pat sg [=]].
      intros [Hs _]. by specialize (Hdet _ _ Hs Hsaid).
    + rewrite Hp in *.
      pose proof (always_verdict p (upd_deferred d (set_pending (d_deferred d) (delete (pq_prompt_id (pm_request m)) (pending (d_deferred d)))))
                    t run_uuid (de_host e) (de_port e) pat sg Hs) as Hw. cbv zeta in Hw.
      cbn [ps_prompt_id] in H2, H3. destruct (allow_always_machine_verdict _ _ _ _ _ _) as [d2 v]. cbn [fst snd] in *.
      exists v. split; [done|]. rewrite H3. destruct v.
      * right. split; [done|]. destruct Hw as (_ & Hu & id & Hr1 & Hr2 & Hr3).
        unfold rule_pattern_for_verdict in Hp. destruct (head (pq_suggested_rules (pm_request m))) as [r|]; [|done].
        injection Hp as <-. by exists r, sg, id.
      * destruct Hw as [Hn ->]. split; [done|]. split; [intros [Hs' _]; by specialize (Hdet _ _ Hs' Hsaid)|].
        intros _ pat' sg' [= <-] Hs'. assert (sg' = sg) as -> by (unfold always_rule, insert_payload in Hs, Hs'; cbn in *; congruence). done.
Qed.

End EndToEnd.

(** ** prompt_channel.rs: opening the channel *)

Section Open.
Context `{TY : Terminal, CE : CliEnv, SC : ServerCodec, CR : Crypto}.

(** One connection, which stays open; its two halves share the socket. *)
Definition open (run_uuid : string) : SM Client CliError unit := fun c =>
  let t := cl_tick c in
  let s := ce_others t (cl_server c) in
  match connect_refusal t with
  | Some e => (mkClient (S t) s, Err e)
  | None =>
      let '(sent, w) := transmit "write init: " (ce_send_limit t) TAG_PROMPT_CHANNEL_INIT (mkPromptChannelInit SCHEMA_V3 run_uuid) in
      let '(s', bytes) := connection t s sent in
      (mkClient (S t) s',
       let? _ := w in
       let? ack := receive "tag mismatch: got 0x" "read ack: " TAG_PROMPT_CHANNEL_INIT bytes in
       match ack with
       | AckOk _ => from_option (fun e => Err (DaemonUnreachable ("try_clone: " +:+ e))) (Ok tt) (try_clone_error t)
       | AckErr _ message => Err (CliOther ("PromptChannelInit Err: " +:+ message))
       end)
  end.

(** What the daemon makes of the request. *)
Definition opening (t : nat) (s : Server) (run_uuid : string) : option string * Ack :=
  handle_prompt_channel_init_frame (es_tree (sv_events s)) (@sv_clone_error (ce_daemon t)) (@sv_spawn_error (ce_daemon t))
    (Ok (mkPromptChannelInit SCHEMA_V3 run_uuid)).

(** A channel that opens is one whose thread the daemon has started for that run. *)
Lemma open_started (run_uuid : string) (c c' : Client) :
  cbor_round_trips PromptChannelInit -> cbor_round_trips Ack -> open run_uuid c = (c', Ok tt) ->
  cl_server c' = found c /\ opening (cl_tick c) (found c) run_uuid = (Some run_uuid, PromptChannelInitAck_ok).
Proof using Type.
  intros Hrt Hrt'. unfold open, opening, found. set (t := cl_tick c). set (s := ce_others t (cl_server c)).
  destruct (connect_refusal t); [done|].
  destruct (transmit _ _ _ _) as [sent w] eqn:Et. destruct (connection t s sent) as [s' bytes] eqn:Ec.
  pose proof (transmit_cases "write init: " (ce_send_limit t) Frame.PromptChannelInit (mkPromptChannelInit SCHEMA_V3 run_uuid) sent w
    ltac:(by vm_compute) Et) as [(-> & b & Hb & Hm & ->)|([e ->] & _)];
    [|intros H; cbn in H; congruence].
  unfold connection, handle in Ec. change (authenticate_verified_peer (mkConn _ _ _)) with (authenticate_verified_peer (mkConn ce_identity ce_codesign "")) in Ec.
  destruct (authenticate_verified_peer _) as [peer|m].
  - cbn [cn_bytes] in Ec.
    assert (classify_peer_frame (String (ascii_of_N (as_byte Frame.PromptChannelInit)) (frame_of b)) = Ok (Tagged Frame.PromptChannelInit, frame_of b))
      as Hcl by done.
    rewrite Hcl in Ec. unfold serve_prompt_channel_init, decode_with, read_tagged_body in Ec.
    rewrite (read_frame_whole (mkPromptChannelInit SCHEMA_V3 run_uuid) b) in Ec by done. cbn [map_err] in Ec.
    pose proof (prompt_channel_init_guarded (es_tree (sv_events s)) (@sv_clone_error (ce_daemon t)) (@sv_spawn_error (ce_daemon t))
                  (Ok (mkPromptChannelInit SCHEMA_V3 run_uuid))) as Hg.
    destruct (handle_prompt_channel_init_frame _ _ _ _) as [th a].
    pose proof (receive_cases "tag mismatch: got 0x" "read ack: " Frame.PromptChannelInit a (ce_reply_limit t) Hrt' eq_refl ltac:(by vm_compute)) as Hrec.
    cbv zeta in Hrec. destruct th as [u|]; cbn [reply_bytes] in Ec; injection Ec as <- <-; intros [= <- Hres]; (split; [done|]);
      (destruct Hrec as [Hrec|[e Hrec]]; cbn [as_byte] in Hrec; fold TAG_PROMPT_CHANNEL_INIT in Hrec; rewrite Hrec in Hres; [|done]).
    + destruct Hg as (-> & _ & _ & init & [= <-] & <-). done.
    + destruct Hg as [m ->]. done.
  - injection Ec as <- <-. intros [= <- Hres].
    destruct (receive_foreign (R := Ack) Frame.PromptChannelInit "tag mismatch: got 0x" "read ack: " (write_legacy_err m) (ce_reply_limit t))
      as [e He]; [apply legacy_err_head|]. cbn [as_byte] in He. fold TAG_PROMPT_CHANNEL_INIT in He. cbn [reply_bytes] in Hres.
    by rewrite He in Hres.
Qed.

End Open.

(** ** prompt_channel.rs and sigint_handler.rs: the threads that share the channel

    The render thread reads prompts without a lock, records each in the registry of
    prompts in flight, asks the user, and answers under the lock of the channel.  The
    interrupt thread copies the registry, then takes the lock and cancels what it copied.
    The main thread waits for the child, closes the channel, sets the stop flag, shuts the
    socket down and joins the render thread.  Each step below is one critical section or
    one call; [answer] and [cancel] write first and forget the identifier afterwards. *)

Definition frame_id (f : ClientChannelFrame) : string :=
  match f with FrResponse resp => ps_prompt_id resp | FrCancel id => id end.
Definition msg_id (m : PromptMessage) : string := pq_prompt_id (pm_request m).

Inductive RenderPc : Type :=
| RCheck                                   (* at the head of the loop *)
| RBlocked                                 (* in [next_prompt] *)
| RRead (m : PromptMessage)                (* read, not recorded *)
| RChoosing (m : PromptMessage)            (* in [render_and_choose] *)
| RAnswer (f : ClientChannelFrame)         (* waiting for the lock *)
| RSent (id : string)                      (* written, not forgotten, holding the lock *)
| REnd.

Inductive SigPc : Type :=
| SWait
| SSnap (snap : list string)               (* copied, waiting for the lock *)
| SCancel (snap todo : list string)        (* holding the lock *)
| SSent (snap : list string) (id : string) (todo : list string)
| SKill (snap : list string) (had_channel : bool)
| SDone (snap : list string) (had_channel : bool).

Inductive MainPc : Type := MWait | MClosed | MStopped | MShut.

Record Threads : Type := mkThreads {
  th_wire : list PromptMessage;            (* on the socket, unread *)
  th_seen : list PromptMessage;            (* recorded so far *)
  th_inflight : gset string;               (* [InflightPrompts] *)
  th_channel : bool;                       (* [SharedChannel] holds the writer *)
  th_sent : list ClientChannelFrame;       (* written, oldest first *)
  th_lost : list ClientChannelFrame;       (* their writes failed *)
  th_tty : Tty;
  th_render : RenderPc;
  th_sig : SigPc;
  th_main : MainPc;
  th_hungup : bool;                        (* behind [th_wire] the socket ends, or fails *)
}.

Definition set_render (s : Threads) (r : RenderPc) : Threads :=
  mkThreads (th_wire s) (th_seen s) (th_inflight s) (th_channel s) (th_sent s) (th_lost s) (th_tty s) r (th_sig s) (th_main s) (th_hungup s).
Definition set_sig (s : Threads) (g : SigPc) : Threads :=
  mkThreads (th_wire s) (th_seen s) (th_inflight s) (th_channel s) (th_sent s) (th_lost s) (th_tty s) (th_render s) g (th_main s) (th_hungup s).
Definition set_main (s : Threads) (c : bool) (k : MainPc) : Threads :=
  mkThreads (th_wire s) (th_seen s) (th_inflight s) c (th_sent s) (th_lost s) (th_tty s) (th_render s) (th_sig s) k (th_hungup s).
Definition set_wire (s : Threads) (w : list PromptMessage) : Threads :=
  mkThreads w (th_seen s) (th_inflight s) (th_channel s) (th_sent s) (th_lost s) (th_tty s) (th_render s) (th_sig s) (th_main s) (th_hungup s).
Definition set_tty (s : Threads) (tt : Tty) : Threads :=
  mkThreads (th_wire s) (th_seen s) (th_inflight s) (th_channel s) (th_sent s) (th_lost s) tt (th_render s) (th_sig s) (th_main s) (th_hungup s).

Definition record (s : Threads) (m : PromptMessage) : Threads :=
  mkThreads (th_wire s) (th_seen s ++ [m]) ({[ msg_id m ]} ∪ th_inflight s) (th_channel s) (th_sent s) (th_lost s) (th_tty s)
    (th_render s) (th_sig s) (th_main s) (th_hungup s).
Definition forget_id (s : Threads) (id : string) : Threads :=
  mkThreads (th_wire s) (th_seen s) (th_inflight s ∖ {[ id ]}) (th_channel s) (th_sent s) (th_lost s) (th_tty s)
    (th_render s) (th_sig s) (th_main s) (th_hungup s).
(** [write_frame] on the writer. *)
Definition write_out (s : Threads) (works : bool) (f : ClientChannelFrame) : Threads :=
  mkThreads (th_wire s) (th_seen s) (th_inflight s) (th_channel s)
    (if works then th_sent s ++ [f] else th_sent s) (if works then th_lost s else th_lost s ++ [f]) (th_tty s)
    (th_render s) (th_sig s) (th_main s) (th_hungup s).

(** The daemon hangs up, or what it sends next is no prompt. *)
Definition hang_up (s : Threads) : Threads :=
  mkThreads (th_wire s) (th_seen s) (th_inflight s) (th_channel s) (th_sent s) (th_lost s) (th_tty s)
    (th_render s) (th_sig s) (th_main s) true.

(** What wakes a reader that waits on the socket: the end of the stream, or the shutdown. *)
Definition read_ends (s : Threads) : Prop := th_main s = MShut \/ (th_wire s = [] /\ th_hungup s = true).

Definition channel_free (s : Threads) : Prop :=
  match th_render s, th_sig s with
  | RSent _, _ | _, SCancel _ _ | _, SSent _ _ _ => False
  | _, _ => True
  end.
Definition stop_flag (s : Threads) : bool := match th_main s with MStopped | MShut => true | MWait | MClosed => false end.

Section Threads.
Context `{TY : Terminal, CE : CliEnv, CR : Crypto, SF : SecurityFramework}.
Context (p : Proc) (run_uuid : string).

Inductive thread_step : Threads -> Threads -> Prop :=
(** [render_loop] *)
| ts_go s : th_render s = RCheck -> stop_flag s = false -> thread_step s (set_render s RBlocked)
| ts_stop s : th_render s = RCheck -> stop_flag s = true -> thread_step s (set_render s REnd)
| ts_read s m w : th_render s = RBlocked -> th_wire s = m :: w -> thread_step s (set_render (set_wire s w) (RRead m))
| ts_eof s : th_render s = RBlocked -> read_ends s -> thread_step s (set_render s REnd)
| ts_record s m : th_render s = RRead m -> thread_step s (set_render (record s m) (RChoosing m))
| ts_choose s m fuel t tt f : th_render s = RChoosing m -> answer_prompt fuel p t m run_uuid (th_tty s) = Some (tt, f) ->
    thread_step s (set_render (set_tty s tt) (RAnswer f))
| ts_answer s f works : th_render s = RAnswer f -> channel_free s -> th_channel s = true ->
    thread_step s (set_render (write_out s works f) (RSent (frame_id f)))
| ts_drop s f : th_render s = RAnswer f -> channel_free s -> th_channel s = false -> thread_step s (set_render s RCheck)
| ts_forget s id : th_render s = RSent id -> thread_step s (set_render (forget_id s id) RCheck)
(** [handle_sigint] *)
| ts_sigint s : th_sig s = SWait -> thread_step s (set_sig s (SSnap (elements (th_inflight s))))
| ts_lock s snap : th_sig s = SSnap snap -> channel_free s ->
    thread_step s (set_sig s (if th_channel s then SCancel snap snap else SKill snap false))
| ts_cancel s snap id todo works : th_sig s = SCancel snap (id :: todo) ->
    thread_step s (set_sig (write_out s works (FrCancel id)) (SSent snap id todo))
| ts_cancelled s snap id todo : th_sig s = SSent snap id todo ->
    thread_step s (set_sig (forget_id s id) (SCancel snap todo))
| ts_unlock s snap : th_sig s = SCancel snap [] -> thread_step s (set_sig s (SKill snap true))
| ts_kill s snap had : th_sig s = SKill snap had -> thread_step s (set_sig s (SDone snap had))
(** [run], once the child is gone *)
| ts_close s : th_main s = MWait -> channel_free s -> thread_step s (set_main s false MClosed)
| ts_set_stop s : th_main s = MClosed -> thread_step s (set_main s (th_channel s) MStopped)
| ts_shutdown s : th_main s = MStopped -> thread_step s (set_main s (th_channel s) MShut).

(** A step of a thread, a prompt of the daemon, or the end of its side. *)
Definition sys_step (s s' : Threads) : Prop :=
  thread_step s s' \/ (th_hungup s = false /\ exists m, s' = set_wire s (th_wire s ++ [m])) \/ s' = hang_up s.

(** The channel has just been opened. *)
Definition opened (tt : Tty) : Threads := mkThreads [] [] ∅ true [] [] tt RCheck SWait MWait false.

(** The frame is what the user's answer to the prompt gives. *)
Definition answered (m : PromptMessage) (f : ClientChannelFrame) : Prop :=
  exists fuel t tt tt', answer_prompt fuel p t m run_uuid tt = Some (tt', f).

Lemma answered_id (m : PromptMessage) (f : ClientChannelFrame) : answered m f -> frame_id f = msg_id m.
Proof using Type.
  intros (fuel & t & tt & tt' & H). apply answer_prompt_cases in H.
  by destruct H as [[-> _]|[(v & _ & _ & ->)|[(_ & _ & ->)|(_ & _ & r & _ & ->)]]].
Qed.

(** The frames that were written or lost, and the prompts they are about. *)
Definition frames (s : Threads) : list ClientChannelFrame := th_sent s ++ th_lost s.
Definition settled (s : Threads) (id : string) : Prop := id ∈ frame_id <$> frames s.
Definition seen_ids (s : Threads) : list string := msg_id <$> th_seen s.

(** The cancelling of [snap] has [todo] left. *)
Definition cancelling (s : Threads) (snap todo : list string) : Prop :=
  (forall id, id ∈ todo -> id ∈ seen_ids s) /\ forall id, id ∈ snap -> id ∈ todo \/ settled s id.

Definition sig_ok (s : Threads) (g : SigPc) : Prop :=
  match g with
  | SSnap snap => forall id, id ∈ snap -> id ∈ seen_ids s
  | SCancel snap todo => cancelling s snap todo
  | SSent snap id todo => settled s id /\ cancelling s snap todo
  | SKill snap had | SDone snap had => had = true -> forall id, id ∈ snap -> settled s id
  | SWait => True
  end.

Record threads_ok (s : Threads) : Prop := {
  to_known : forall id, settled s id -> id ∈ seen_ids s;
  to_honest : forall resp, FrResponse resp ∈ frames s -> exists m, m ∈ th_seen s /\ answered m (FrResponse resp);
  to_kept : forall id, id ∈ seen_ids s -> id ∈ th_inflight s \/ settled s id;
  to_inflight : forall id, id ∈ th_inflight s -> id ∈ seen_ids s;
  to_render : match th_render s with
    | RChoosing m => m ∈ th_seen s
    | RAnswer f => exists m, m ∈ th_seen s /\ answered m f
    | RSent id => settled s id
    | _ => True
    end;
  to_sig : sig_ok s (th_sig s);
}.

Lemma opened_ok (tt : Tty) : threads_ok (opened tt).
Proof using Type. constructor; cbn; try done; try (intros *; by rewrite ?elem_of_nil, ?elem_of_empty). Qed.

Lemma settled_write (s : Threads) (works : bool) (f : ClientChannelFrame) (id : string) :
  settled (write_out s works f) id <-> settled s id \/ id = frame_id f.
Proof using Type. unfold settled, frames, write_out. destruct works; cbn; rewrite !fmap_app, !elem_of_app; cbn; rewrite list_elem_of_singleton; tauto. Qed.

Lemma frames_write (s : Threads) (works : bool) (f g : ClientChannelFrame) :
  g ∈ frames (write_out s works f) <-> g ∈ frames s \/ g = f.
Proof using Type. unfold frames, write_out. destruct works; cbn; rewrite !elem_of_app, list_elem_of_singleton; tauto. Qed.

Lemma seen_record (s : Threads) (m : PromptMessage) (id : string) :
  id ∈ seen_ids (record s m) <-> id ∈ seen_ids s \/ id = msg_id m.
Proof using Type. unfold seen_ids, record. cbn. rewrite fmap_app, elem_of_app. cbn. by rewrite list_elem_of_singleton. Qed.

(** What the interrupt thread relies on only grows. *)
Definition grows (s s' : Threads) : Prop :=
  (forall id, id ∈ seen_ids s -> id ∈ seen_ids s') /\ forall id, settled s id -> settled s' id.

Lemma grows_write (s : Threads) (works : bool) (f : ClientChannelFrame) : grows s (write_out s works f).
Proof using Type. split; [done|]. intros id Hs. apply settled_write. by left. Qed.
Lemma grows_record (s : Threads) (m : PromptMessage) : grows s (record s m).
Proof using Type. split; [|done]. intros id Hs. apply seen_record. by left. Qed.

Lemma sig_ok_grows (s s' : Threads) (g : SigPc) : grows s s' -> sig_ok s g -> sig_ok s' g.
Proof using Type. intros [Hs Ht]. destruct g; cbn; unfold cancelling; naive_solver. Qed.

Lemma ok_set_render (s : Threads) (r : RenderPc) : threads_ok s ->
  match r with
  | RChoosing m => m ∈ th_seen s
  | RAnswer f => exists m, m ∈ th_seen s /\ answered m f
  | RSent id => settled s id
  | _ => True
  end -> threads_ok (set_render s r).
Proof using Type. intros [] Hr. by constructor. Qed.

Lemma ok_set_wire (s : Threads) (w : list PromptMessage) : threads_ok s -> threads_ok (set_wire s w).
Proof using Type. intros []. by constructor. Qed.
Lemma ok_hang_up (s : Threads) : threads_ok s -> threads_ok (hang_up s).
Proof using Type. intros []. by constructor. Qed.
Lemma ok_set_tty (s : Threads) (tt : Tty) : threads_ok s -> threads_ok (set_tty s tt).
Proof using Type. intros []. by constructor. Qed.
Lemma ok_set_main (s : Threads) (c : bool) (k : MainPc) : threads_ok s -> threads_ok (set_main s c k).
Proof using Type. intros []. by constructor. Qed.

Lemma ok_set_sig (s : Threads) (g : SigPc) : threads_ok s -> sig_ok s g -> threads_ok (set_sig s g).
Proof using Type. intros [] Hg. by constructor. Qed.

Lemma ok_write (s : Threads) (works : bool) (f : ClientChannelFrame) :
  frame_id f ∈ seen_ids s -> (forall resp, f = FrResponse resp -> exists m, m ∈ th_seen s /\ answered m f) ->
  threads_ok s -> threads_ok (write_out s works f).
Proof using Type.
  intros Hid Hf [H1 H2 H3 H4 H5 H6]. constructor; cbn.
  - intros id [Hs| ->]%settled_write; [by apply H1|done].
  - intros resp [Hs|E]%frames_write; [by apply H2|]. destruct (Hf resp (eq_sym E)) as (m & Hm & Ha). exists m. by rewrite E.
  - intros id [Hi|Hs]%H3; [by left|right; apply settled_write; by left].
  - done.
  - destruct (th_render s); try done. apply settled_write. by left.
  - apply (sig_ok_grows s (write_out s works f) (th_sig s)); [apply grows_write|done].
Qed.

Lemma ok_forget (s : Threads) (id : string) : settled s id -> threads_ok s -> threads_ok (forget_id s id).
Proof using Type.
  intros Hid [H1 H2 H3 H4 H5 H6]. constructor; cbn; try done.
  - intros i Hi. destruct (decide (i = id)) as [->|Hne]; [by right|]. destruct (H3 i Hi) as [Hin|Hs]; [left|by right]. set_solver.
  - intros i Hi. apply H4. set_solver.
Qed.

Lemma ok_record (s : Threads) (m : PromptMessage) : threads_ok s -> threads_ok (record s m).
Proof using Type.
  intros [H1 H2 H3 H4 H5 H6]. constructor; cbn.
  - intros id Hs. apply seen_record. left. by apply H1.
  - intros resp Hr. destruct (H2 resp Hr) as (x & Hx & Ha). exists x. split; [|done]. apply elem_of_app. by left.
  - intros id [Hi| ->]%seen_record; [|left; set_solver]. destruct (H3 id Hi) as [Hin|Hs]; [left; set_solver|by right].
  - intros id Hi. apply seen_record. apply elem_of_union in Hi as [->%elem_of_singleton|Hi]; [by right|left; by apply H4].
  - destruct (th_render s); try done; [apply elem_of_app; by left|].
    destruct H5 as (x & Hx & Ha). exists x. split; [apply elem_of_app; by left|done].
  - apply (sig_ok_grows s (record s m) (th_sig s)); [apply grows_record|done].
Qed.

Lemma thread_step_ok (s s' : Threads) : thread_step s s' -> threads_ok s -> threads_ok s'.
Proof using Type.
  intros Hstep Hok. pose proof Hok as [H1 H2 H3 H4 H5 H6].
  destruct Hstep as [s Hr Hst|s Hr Hst|s m w Hr Hw|s Hr Hend|s m Hr|s m fuel t tt f Hr Ha|s f works Hr Hfree Hc|s f Hr Hfree Hc|s id Hr
    |s Hg|s snap Hg Hfree|s snap id todo works Hg|s snap id todo Hg|s snap Hg|s snap had Hg|s Hm Hfree|s Hm|s Hm];
    rewrite ?Hr in H5; rewrite ?Hg in H6; auto using ok_set_render, ok_set_wire, ok_set_main.
  - apply ok_set_render; [by apply ok_record|]. cbn. apply elem_of_app. right. by apply list_elem_of_singleton.
  - apply ok_set_render; [by apply ok_set_tty|]. exists m. split; [done|]. by exists fuel, t, (th_tty s), tt.
  - destruct H5 as (m & Hm & Ha). apply ok_set_render; [apply ok_write|]; try done.
    + rewrite (answered_id _ _ Ha). unfold seen_ids. by apply list_elem_of_fmap_2.
    + intros resp ->. by exists m.
    + apply settled_write. by right.
  - by apply ok_set_render; [apply ok_forget|].
  - apply ok_set_sig; [done|]. intros id Hid%elem_of_elements. by apply H4.
  - apply ok_set_sig; [done|]. destruct (th_channel s); cbn; [|done]. split; [done|]. by left.
  - destruct H6 as [Ht Hs]. apply ok_set_sig; [apply ok_write; [apply Ht, list_elem_of_here|done|done]|].
    split; [apply settled_write; by right|]. split; [intros i Hi; by apply Ht, list_elem_of_further|].
    intros i Hi. destruct (Hs i Hi) as [[->|Hin]%elem_of_cons|Hst]; [right|by left|right]; apply settled_write; [by right|by left].
  - destruct H6 as [Hid Hc]. apply ok_set_sig; [by apply ok_forget|done].
  - apply ok_set_sig; [done|]. cbn. intros _ id Hin. destruct H6 as [_ Hs]. by destruct (Hs id Hin) as [?%elem_of_nil|].
  - by apply ok_set_sig.
Qed.

Lemma reachable_ok (tt : Tty) (s : Threads) : rtc sys_step (opened tt) s -> threads_ok s.
Proof using Type.
  intros H. assert (forall a b, sys_step a b -> threads_ok a -> threads_ok b) as Hstep.
  { intros a b [Hs|[[_ [m ->]]| ->]] Ha; [by eapply thread_step_ok|by apply ok_set_wire|by apply ok_hang_up]. }
  assert (Ho := opened_ok tt). induction H; eauto.
Qed.

(** *** The end of a run *)

Definition render_rank (r : RenderPc) : nat :=
  match r with RBlocked => 6 | RRead _ => 5 | RChoosing _ => 4 | RAnswer _ => 3 | RSent _ => 2 | RCheck => 1 | REnd => 0 end.
Definition sig_rank (g : SigPc) : nat :=
  match g with
  | SWait => 0 | SSnap snap => 2 * length snap + 3
  | SCancel _ todo => 2 * length todo + 2 | SSent _ _ todo => 2 * length todo + 3
  | SKill _ _ => 1 | SDone _ _ => 0
  end.
Definition main_rank (k : MainPc) : nat := match k with MWait => 3 | MClosed => 2 | MStopped => 1 | MShut => 0 end.
Definition waiting (g : SigPc) : nat := match g with SWait => 1 | _ => 0 end.
Definition rank (s : Threads) : nat := render_rank (th_render s) + sig_rank (th_sig s) + main_rank (th_main s).

(** Every step of a thread after the stop flag is set uses something up. *)
Lemma stopped_step (s s' : Threads) : thread_step s s' -> stop_flag s = true ->
  stop_flag s' = true
  /\ (waiting (th_sig s') < waiting (th_sig s) \/ (waiting (th_sig s') = waiting (th_sig s) /\ rank s' < rank s)).
Proof using Type.
  intros Hstep Hstop. unfold rank.
  destruct Hstep as [s Hr Hst|s Hr Hst|s m w Hr Hw|s Hr Hend|s m Hr|s m fuel t tt f Hr Ha|s f works Hr Hfree Hc|s f Hr Hfree Hc|s id Hr
    |s Hg|s snap Hg Hfree|s snap id todo works Hg|s snap id todo Hg|s snap Hg|s snap had Hg|s Hm Hfree|s Hm|s Hm];
    try congruence; unfold stop_flag in *; cbn; rewrite ?Hr, ?Hg, ?Hm in *; cbn; split; try done; try (right; split; [done|lia]); try (left; lia).
  - right. destruct (th_channel s); cbn; split; done || lia.
Qed.

Lemma stopped_acc (s : Threads) : stop_flag s = true -> Acc (fun a b => thread_step b a) s.
Proof using Type.
  remember (waiting (th_sig s)) as w eqn:Hw. remember (rank s) as n eqn:Hn. revert n s Hw Hn.
  induction w as [w IHw] using lt_wf_ind. intros n. induction n as [n IHn] using lt_wf_ind. intros s -> -> Hstop.
  constructor. intros s' Hstep. destruct (stopped_step s s' Hstep Hstop) as [Hs' [Hlt|[He Hlt]]].
  - by eapply (IHw _ Hlt).
  - by apply (IHn _ Hlt).
Qed.

(** After the stop flag, a thread that cannot go on has ended, or asks a question no line
    will settle: a reader is woken by the shutdown. *)
Lemma stuck_render (s : Threads) : stop_flag s = true -> (forall s', ~ thread_step s s') ->
  th_render s = REnd \/ exists m, th_render s = RChoosing m
    /\ forall fuel t, answer_prompt fuel p t m run_uuid (th_tty s) = None.
Proof using Type.
  intros Hst Hno. destruct (th_render s) as [| |m|m|f|id|] eqn:Hr; [exfalso..| |exfalso|exfalso|by left].
  - by eapply Hno, ts_stop.
  - unfold stop_flag in Hst. destruct (th_main s) eqn:Hm; [done|done|by eapply Hno, ts_shutdown|].
    eapply Hno, ts_eof; [done|by left].
  - by eapply Hno, ts_record.
  - right. exists m. split; [done|]. intros fuel t. destruct (answer_prompt _ _ _ _ _ _) as [[tt f]|] eqn:Ha; [|done].
    exfalso. by eapply Hno, ts_choose.
  - destruct (th_sig s) as [|snap|snap [|id todo]|snap id todo|snap had|snap had] eqn:Hg;
      try (assert (channel_free s) as Hfree by (unfold channel_free; by rewrite Hr, Hg);
           destruct (th_channel s) eqn:Hc; [by eapply Hno, (ts_answer s f true)|by eapply Hno, ts_drop]).
    + by eapply Hno, ts_unlock.
    + by eapply Hno, (ts_cancel s snap id todo true).
    + by eapply Hno, ts_cancelled.
  - by eapply Hno, ts_forget.
Qed.

(** While the input has ended, the render thread stays with its prompt. *)
Lemma closed_input_step (s s' : Threads) (m : PromptMessage) :
  (forall n, tt_next (th_tty s) <= n -> read_line n = Ok "") -> th_render s = RChoosing m -> sys_step s s' ->
  th_render s' = RChoosing m /\ th_tty s' = th_tty s.
Proof using Type.
  intros Hin Hr [Hstep|[[_ [x ->]]| ->]]; [|done|done].
  destruct Hstep as [s Hr' Hst|s Hr' Hst|s m' w Hr' Hw|s Hr' Hend|s m' Hr'|s m' fuel t tt f Hr' Ha|s f works Hr' Hfree Hc|s f Hr' Hfree Hc|s id Hr'
    | | | | | | | | |]; try congruence; try done.
  rewrite Hr in Hr'. injection Hr' as <-. by rewrite closed_input_never_settles in Ha.
Qed.

End Threads.

(** ** The frames at the daemon *)

Section Dispatched.
Context `{SQL : SqlEngine, FS : TrustFs, CR : Crypto}.

Definition dispatch_all (d : Daemon) (run_uuid : string) (l : list ClientChannelFrame) : Daemon :=
  foldl (fun d f => dispatch_frame d run_uuid f) d l.

(** The answer of a frame allows. *)
Definition frame_allows (f : ClientChannelFrame) : Prop :=
  match f with FrResponse resp => ps_verdict resp <> PromptDeny | FrCancel _ => False end.

Lemma alter_twice (t : gmap nat Chan) (c : nat) (v : Verdict) :
  alter chan_drop c (alter (chan_send v) c t) = alter (fun x => chan_drop (chan_send v x)) c t.
Proof using Type.
  apply map_eq. intros i. destruct (decide (i = c)) as [->|Hne]; [|by rewrite !lookup_alter_ne by done].
  rewrite !lookup_alter_eq. by destruct (t !! c).
Qed.

(** A frame settles the prompt it names if the run owns it, and touches no other. *)
Lemma dispatch_frame_effect (d : Daemon) (run_uuid : string) (f : ClientChannelFrame) :
  let t := d_deferred d in let t' := d_deferred (dispatch_frame d run_uuid f) in
  next_chan t' = next_chan t
  /\ ((pending t' = pending t /\ chans t' = chans t /\ forall e, pending t !! frame_id f = Some e -> de_run_uuid e <> run_uuid)
  \/ exists e v, pending t !! frame_id f = Some e /\ de_run_uuid e = run_uuid
     /\ pending t' = delete (frame_id f) (pending t)
     /\ chans t' = alter (fun c => chan_drop (chan_send v c)) (de_sender e) (chans t)
     /\ (v = VAllow -> frame_allows f)).
Proof using Type.
  destruct f as [resp|id]; cbn [dispatch_frame frame_id].
  - unfold dispatch_response, take_prompt_response_entry, take_full_if_owned.
    destruct (pending (d_deferred d) !! ps_prompt_id resp) as [e|] eqn:He; [case_bool_decide as Hrun|].
    + unfold take_full. rewrite He. destruct (verdict_for_prompt_response _ _ _ _ _) as [d2 v] eqn:Hv.
      pose proof (verdict_same_prompts _ _ _ _ _ _ _ Hv) as [Hd2 _]. cbn in *. rewrite Hd2. cbn. split; [done|].
      right. exists e, v. rewrite alter_twice. split_and!; try done. intros -> Hp. unfold verdict_for_prompt_response in Hv. by rewrite Hp in Hv.
    + destruct (verdict_for_prompt_response _ _ _ _ _) as [d2 v] eqn:Hv.
      pose proof (verdict_same_prompts _ _ _ _ _ _ _ Hv) as [Hd2 _]. cbn in *. rewrite Hd2. split; [done|]. left. split_and!; try done.
      by intros ? [= <-].
    + destruct (verdict_for_prompt_response _ _ _ _ _) as [d2 v] eqn:Hv.
      pose proof (verdict_same_prompts _ _ _ _ _ _ _ Hv) as [Hd2 _]. cbn in *. rewrite Hd2. split; [done|]. left. by split_and!.
  - unfold dispatch_cancel, take_full_if_owned.
    destruct (pending (d_deferred d) !! id) as [e|] eqn:He; [case_bool_decide as Hrun|].
    + unfold take_full. rewrite He. cbn. split; [done|]. right. exists e, VDeny. by rewrite alter_twice.
    + split; [done|]. left. split_and!; try done. by intros ? [= <-].
    + cbn. split; [done|]. left. by split_and!.
Qed.

Lemma dispatch_frame_wf (d : Daemon) (run_uuid : string) (f : ClientChannelFrame) :
  deferred_wf (d_deferred d) -> deferred_wf (d_deferred (dispatch_frame d run_uuid f)).
Proof using Type.
  intros [W1 W2 W3].
  destruct (dispatch_frame_effect d run_uuid f) as [E0 [(E1 & E2 & _)|(e & v & He & _ & E1 & E2 & _)]];
    constructor; rewrite ?E0, ?E1, ?E2; try done.
  - intros i x [Hne Hx]%lookup_delete_Some. rewrite lookup_alter_ne; [by eapply W1|].
    intros Heq. apply Hne. by apply (W2 _ _ _ _ He Hx).
  - intros i j x y [_ Hx]%lookup_delete_Some [_ Hy]%lookup_delete_Some. by apply W2.
  - intros c. rewrite lookup_alter_is_Some. apply W3.
Qed.

(** A waiter that has been told stays told. *)
Definition told (t : Deferred) (id : string) (c : nat) (v : Verdict) : Prop :=
  pending t !! id = None /\ chans t !! c = Some (mkChan (Some v) false) /\ forall i x, pending t !! i = Some x -> de_sender x <> c.

Lemma told_stays (d : Daemon) (run_uuid id : string) (c : nat) (v : Verdict) (l : list ClientChannelFrame) :
  told (d_deferred d) id c v -> told (d_deferred (dispatch_all d run_uuid l)) id c v.
Proof using Type.
  revert d. induction l as [|f l IH]; intros d Ht; [done|]. apply IH. destruct Ht as (Hp & Hc & Hx).
  destruct (dispatch_frame_effect d run_uuid f) as [_ [(E1 & E2 & _)|(e & w & He & _ & E1 & E2 & _)]]; unfold told; rewrite E1, E2; [done|].
  split_and!.
  - apply lookup_delete_None. by right.
  - rewrite lookup_alter_ne; [done|]. by apply (Hx _ _ He).
  - intros i x [_ Hi]%lookup_delete_Some. by apply (Hx i).
Qed.

(** The first frame that names a prompt of the run settles it. *)
Lemma dispatch_all_settles (d : Daemon) (run_uuid id : string) (e : DeferredEntry) (l : list ClientChannelFrame) :
  deferred_wf (d_deferred d) -> pending (d_deferred d) !! id = Some e -> de_run_uuid e = run_uuid ->
  id ∈ frame_id <$> l ->
  exists v, told (d_deferred (dispatch_all d run_uuid l)) id (de_sender e) v
    /\ (v = VAllow -> exists f, f ∈ l /\ frame_id f = id /\ frame_allows f).
Proof using Type.
  intros Hwf He Hrun. revert d Hwf He. induction l as [|f l IH]; intros d Hwf He Hin; [by apply elem_of_nil in Hin|].
  cbn [dispatch_all foldl]. fold (dispatch_all (dispatch_frame d run_uuid f) run_uuid l).
  pose proof (dispatch_frame_wf d run_uuid f Hwf) as Hwf'.
  assert (Hlater : pending (d_deferred (dispatch_frame d run_uuid f)) !! id = Some e -> id ∈ frame_id <$> l ->
    exists v, told (d_deferred (dispatch_all (dispatch_frame d run_uuid f) run_uuid l)) id (de_sender e) v
      /\ (v = VAllow -> exists g, g ∈ f :: l /\ frame_id g = id /\ frame_allows g)).
  { intros He' Hin'. destruct (IH _ Hwf' He' Hin') as (v & Ht & Ha). exists v. split; [done|].
    intros Hv. destruct (Ha Hv) as (g & Hg & ?). exists g. split; [by apply list_elem_of_further|done]. }
  cbn in Hin. apply elem_of_cons in Hin.
  destruct (dispatch_frame_effect d run_uuid f) as [_ [(E1 & E2 & Hno)|(e1 & v & He1 & Hr1 & E1 & E2 & Hv)]].
  - destruct Hin as [->|Hin]; [by apply Hno in He|]. apply Hlater; [by rewrite E1|done].
  - destruct (decide (frame_id f = id)) as [<-|Hne]; [clear Hlater|].
    + rewrite He in He1. injection He1 as <-. exists v. split.
      * apply told_stays. unfold told. rewrite E1, E2. split_and!.
        -- apply lookup_delete_eq.
        -- by rewrite lookup_alter_eq, (dw_chan _ Hwf _ _ He).
        -- intros i x [Hi Hx]%lookup_delete_Some Heq. apply Hi. by apply (dw_inj _ Hwf (frame_id f) i e x).
      * intros Hva. exists f. split; [apply list_elem_of_here|]. split; [done|by apply Hv].
    + apply Hlater; [by rewrite E1, lookup_delete_ne|]. by destruct Hin as [Hin|Hin].
Qed.

End Dispatched.

(** ** Properties *)

(** C14: the wrapped process gets what the user said, and the rules too.  When a prompt the
    daemon has parked for the run is shown and settled, its connection is told Allow only
    if the first of the lines typed that is a key of the prompt is 1 or 2 and the user
    confirmed it by Touch ID or password: for 1, once, with the rules as they were; for 2,
    always, with exactly one rule added, an allow of the first rule the prompt suggested,
    signed by the user's own key.  It is told Deny, with the rules as they were, only if the
    user did not confirm an allow, or confirmed one for always whose rule could not be
    signed or taken; a confirmed 1 is never denied. *)
Theorem prompt_answer_end_to_end
    `{TY : Terminal, CE : CliEnv, CR : Crypto, SF : SecurityFramework, SQL : SqlEngine, FS : TrustFs} (law : keychain_signs)
    (fuel : nat) (p : Proc) (t : nat) (m : PromptMessage) (run_uuid : string) (tt tt' : Tty)
    (f : ClientChannelFrame) (d : Daemon) (e : DeferredEntry) :
  answer_prompt fuel p t m run_uuid tt = Some (tt', f) ->
  deferred_wf (d_deferred d) -> pending (d_deferred d) !! pq_prompt_id (pm_request m) = Some e -> de_run_uuid e = run_uuid ->
  let d' := dispatch_frame d run_uuid f in
  let now := ce_unix_ms_now t in
  pending (d_deferred d') !! pq_prompt_id (pm_request m) = None
  /\ exists v, chans (d_deferred d') !! de_sender e = Some (mkChan (Some v) false)
     /\ match v with
        | VAllow =>
            (approved fuel t m tt AllowOnce /\ d_store d' = d_store d)
            \/ (approved fuel t m tt AllowAlwaysMachine
                /\ exists r sg id, head (pq_suggested_rules (pm_request m)) = Some r /\ signed_by_user p sg
                   /\ rules (db (d_store d')) !! id = Some (mkRuleRow "allow" (sr_match_type r) (sr_pattern r) (prompt_reason run_uuid) now)
                   /\ rule_signatures (db (d_store d')) !! id = Some (mkSigRow sg "prompt" (Some run_uuid) now)
                   /\ delete id (rules (db (d_store d'))) = delete id (rules (db (d_store d))))
        | VDeny =>
            d_store d' = d_store d /\ ~ approved fuel t m tt AllowOnce
            /\ (approved fuel t m tt AllowAlwaysMachine ->
                forall pat sg, rule_pattern_for_verdict (pm_request m) AllowAlwaysMachine = Some pat ->
                  sign_rule_payload (insert_payload (always_rule t run_uuid pat sg)) p = Ok sg ->
                  ~ takes d (always_rule t run_uuid pat sg) sg)
        end.
Proof. apply (prompt_answer_spec law). Qed.

(** An answer that allows was approved. *)
Lemma allowing_answer_approved `{TY : Terminal, CE : CliEnv, CR : Crypto, SF : SecurityFramework}
    (fuel : nat) (p : Proc) (t : nat) (m : PromptMessage) (run_uuid : string) (tt tt' : Tty) (f : ClientChannelFrame) :
  answer_prompt fuel p t m run_uuid tt = Some (tt', f) -> frame_allows f ->
  approved fuel t m tt AllowOnce \/ approved fuel t m tt AllowAlwaysMachine.
Proof.
  intros Ha Hf. apply answer_prompt_cases in Ha as [[-> _]|[(v & _ & _ & ->)|[(Hs & Hok & ->)|(Hs & Hok & r & _ & ->)]]]; try done.
  - by left.
  - by right.
Qed.

(** C22: an interrupt leaves no recorded prompt waiting.  Whatever the render thread, the
    interrupt thread, the main thread and the daemon do and in whatever order, every frame
    written is about a prompt that was read, and is its cancel or what the user's answer to
    it gives.  Once the interrupt has been handled with the channel still open, and if every
    frame could be written, the daemon that processes the frames has told every prompt that
    was in flight at the interrupt, once; and a connection it told Allow is one for which
    the user approved an allow of that very prompt.  A channel closed before the interrupt
    has its lock, or a write that fails, leaves prompts to the daemon. *)
Theorem interrupt_settles_prompts
    `{TY : Terminal, CE : CliEnv, CR : Crypto, SF : SecurityFramework, SQL : SqlEngine, FS : TrustFs}
    (p : Proc) (run_uuid : string) (tt : Tty) (s : Threads) :
  rtc (sys_step p run_uuid) (opened tt) s ->
  (forall f, f ∈ th_sent s -> exists m, m ∈ th_seen s
     /\ (f = FrCancel (msg_id m) \/ exists fuel t tt1 tt2, answer_prompt fuel p t m run_uuid tt1 = Some (tt2, f)))
  /\ forall (snap : list string) (d : Daemon) (id : string) (e : DeferredEntry),
     th_sig s = SDone snap true -> th_lost s = [] -> id ∈ snap ->
     deferred_wf (d_deferred d) -> pending (d_deferred d) !! id = Some e -> de_run_uuid e = run_uuid ->
     let d' := dispatch_all d run_uuid (th_sent s) in
     exists v, told (d_deferred d') id (de_sender e) v
       /\ (v = VAllow -> exists fuel t m tt1, m ∈ th_seen s /\ msg_id m = id
             /\ (approved fuel t m tt1 AllowOnce \/ approved fuel t m tt1 AllowAlwaysMachine)).
Proof.
  intros Hs. apply reachable_ok in Hs as [Hknown Honest _ _ _ Hsig]. split.
  - intros f Hf. assert (f ∈ frames s) as Hfr by (apply elem_of_app; by left). destruct f as [resp|id].
    + destruct (Honest resp Hfr) as (m & Hm & Ha). exists m. split; [done|by right].
    + assert (settled s id) as Hst by (unfold settled; by apply (list_elem_of_fmap_2 frame_id _ (FrCancel id))).
      apply Hknown in Hst. unfold seen_ids in Hst. apply list_elem_of_fmap in Hst as (m & -> & Hm). exists m. split; [done|by left].
  - intros snap d id e Hg Hl Hid Hwf He Hrun. rewrite Hg in Hsig.
    assert (frames s = th_sent s) as Hfr by (unfold frames; by rewrite Hl, app_nil_r).
    specialize (Hsig eq_refl id Hid). unfold settled in Hsig. rewrite Hfr in Hsig, Honest.
    destruct (dispatch_all_settles d run_uuid id e (th_sent s) Hwf He Hrun Hsig) as (v & Ht & Ha).
    exists v. split; [done|]. intros Hv. destruct (Ha Hv) as (f & Hf & Hfid & Hal). destruct f as [resp|]; [|done].
    destruct (Honest resp Hf) as (m & Hm & Hans). pose proof (answered_id _ _ _ _ Hans) as Hmid.
    destruct Hans as (fuel & t & tt1 & tt' & Hans). exists fuel, t, m, tt1. split; [done|]. split; [by rewrite <- Hfid|].
    by eapply allowing_answer_approved.
Qed.


(** Before the shutdown a reader of an idle socket stays where it is, also when the child
    is gone and the flag is set. *)
Lemma idle_reader_waits `{TY : Terminal, CE : CliEnv, CR : Crypto, SF : SecurityFramework}
    (p : Proc) (run_uuid : string) (s s' : Threads) :
  th_render s = RBlocked -> th_wire s = [] -> th_hungup s = false -> thread_step p run_uuid s s' -> th_main s <> MShut ->
  th_render s' = RBlocked.
Proof.
  intros Hr Hw Hh Hstep Hm. destruct Hstep; try congruence; try done.
  match goal with H : read_ends _ |- _ => destruct H as [?|[_ ?]]; congruence end.
Qed.

(** A prompt that is being asked when the input ends is asked for ever, so [run] never
    returns although the child is gone. *)
Lemma closed_input_blocks_run `{TY : Terminal, CE : CliEnv, CR : Crypto, SF : SecurityFramework}
    (p : Proc) (run_uuid : string) (s s' : Threads) (m : PromptMessage) :
  (forall n, tt_next (th_tty s) <= n -> read_line n = Ok "") -> th_render s = RChoosing m ->
  rtc (sys_step p run_uuid) s s' -> th_render s' = RChoosing m.
Proof.
  intros Hin Hr H. induction H as [|s s1 s' Hstep _ IH]; [done|].
  destruct (closed_input_step p run_uuid s s1 m Hin Hr Hstep) as [Hr1 Ht]. apply IH; [by rewrite Ht|done].
Qed.

(** The thread of the interrupt handles one interrupt: what it copied then is all it
    ever cancels. *)
Lemma one_interrupt `{TY : Terminal, CE : CliEnv, CR : Crypto, SF : SecurityFramework}
    (p : Proc) (run_uuid : string) (s s' : Threads) (snap : list string) (had : bool) :
  th_sig s = SDone snap had -> rtc (sys_step p run_uuid) s s' -> th_sig s' = SDone snap had.
Proof.
  intros Hg H. induction H as [|s s1 s' Hstep _ IH]; [done|]. apply IH.
  destruct Hstep as [Hstep|[[_ [x ->]]| ->]]; [|done|done]. destruct Hstep; try congruence; by cbn.
Qed.

(** ** Examples *)

#[local] Existing Instance toy_crypto.

(** A terminal that is given some lines and then ends. *)
Definition toy_terminal (lines : list string) : Terminal := {|
  read_line n := Ok (match lines !! n with Some l => l +:+ String LF "" | None => "" end);
  try_clone_error _ := None;
|}.

Definition toy_request (host argv0 : string) : PromptRequest :=
  mkPromptRequest "p-00000000" host 443 "no-match" 4242 7 argv0 (generate_suggested_rules host).
Definition toy_prompt : PromptMessage := mkPromptMessage (toy_request "a.example" "/bin/sh") None None "" None.

(** The prompt is parked, and the daemon trusts the user's key. *)
Definition toy_parked : Daemon :=
  mkDaemon (toy_tree true false (Some 0)) ∅ ∅ sample_table {[0 := []]} (sv_store toy_cli_boot) Production [].
Definition toy_entry_a : DeferredEntry := mkDeferred "run-a" "a.example" 443 0.

Definition toy_answer (lines : list string) (yes : bool) : option (Tty * ClientChannelFrame) :=
  @answer_prompt (toy_terminal lines) (toy_cli_env toy_codec yes) toy_crypto (toy_keychain "N" (fun _ => None)) 9 toy_signer 0
    toy_prompt "run-a" (mkTty 0 "").
Definition toy_frame (lines : list string) (yes : bool) : ClientChannelFrame :=
  match toy_answer lines yes with Some (_, f) => f | None => FrCancel "" end.
Definition toy_told (lines : list string) (yes : bool) : Daemon :=
  @dispatch_frame toy_sql toy_cli_fs toy_crypto toy_parked "run-a" (toy_frame lines yes).

Example answers :
  (fun '(l, yes) => chans (d_deferred (toy_told l yes)) !! 0)
    <$> [(["?"; "yes"; "1"], true); (["2"], true); (["2"], false); (["3"], true)]
  = (fun v => Some (mkChan (Some v) false)) <$> [VAllow; VAllow; VDeny; VDeny].
Proof. vm_compute. reflexivity. Qed.

(** [x] is part of [s]. *)
Definition shown (s x : string) : Prop := exists before after, s = before +:+ x +:+ after.

Lemma shown_l (a b x : string) : shown a x -> shown (a +:+ b) x.
Proof. intros (u & v & ->). exists u, (v +:+ b). by rewrite !app_assoc_str. Qed.
Lemma shown_r (a b x : string) : shown b x -> shown (a +:+ b) x.
Proof. intros (u & v & ->). exists (a +:+ u), v. by rewrite !app_assoc_str. Qed.
Lemma shown_here (x y : string) : shown (x +:+ y) x.
Proof. by exists "", y. Qed.

(** The version of the package, which the wrapped process chooses, is shown as it is: one
    with line feeds in it draws whatever prompt it likes. *)
Lemma package_version_shown_raw (m : PromptMessage) (pkg : PackageContext) :
  pm_package_context m = Some pkg -> shown (render_prompt m) (pc_version pkg).
Proof.
  intros Hp. unfold render_prompt. rewrite Hp. cbn [from_option].
  do 4 apply shown_r. apply shown_l. unfold writeln, package_line. apply shown_l. do 5 apply shown_r. apply shown_here.
Qed.

Example prompt_can_be_forged :
  exists m, pq_dest_host (pm_request m) = "evil.example" /\ shown (render_prompt m) (render_prompt toy_prompt).
Proof.
  set (pkg := mkPackageContext "npm" "left-pad" (render_prompt toy_prompt) None "").
  exists (mkPromptMessage (toy_request "evil.example" "/bin/sh") None (Some pkg) "" None).
  split; [done|]. by apply (package_version_shown_raw _ pkg).
Qed.

Lemma prompt_answer_end_to_end_witness :
  exists (id : Z) sg, rules (db (d_store (toy_told ["2"] true))) !! id = Some (mkRuleRow "allow" "exact" "a.example" (prompt_reason "run-a") 7)
  /\ signed_by_user toy_signer sg
  /\ rule_signatures (db (d_store (toy_told ["2"] true))) !! id = Some (mkSigRow sg "prompt" (Some "run-a") 7).
Proof.
  assert (E : toy_answer ["2"] true = Some (default (mkTty 0 "") (fst <$> toy_answer ["2"] true), toy_frame ["2"] true)) by (vm_compute; reflexivity).
  destruct (@prompt_answer_end_to_end (toy_terminal ["2"]) (toy_cli_env toy_codec true) toy_crypto _ toy_sql toy_cli_fs (toy_keychain_signs _ _)
    9 toy_signer 0 toy_prompt "run-a" (mkTty 0 "") _ _ toy_parked toy_entry_a E sample_table_wf) as (_ & v & Hv & Hspec);
    [vm_compute; reflexivity|reflexivity|].
  assert (Hal : chans (d_deferred (toy_told ["2"] true)) !! 0 = Some (mkChan (Some VAllow) false)) by (vm_compute; reflexivity).
  assert (v = VAllow) as -> by (injection (eq_trans (eq_sym Hal) Hv) as H; exact (eq_sym H)).
  assert (Hst : is_Some (rules (db (d_store (toy_told ["2"] true))) !! 1%Z)) by (vm_compute; by eexists).
  destruct Hspec as [[_ E0]|(_ & r & sg & id & Hr & Hu & H1 & H2 & _)].
  - exfalso. change (d_store (toy_told ["2"] true) = d_store toy_parked) in E0. rewrite E0 in Hst. by destruct Hst.
  - exists id, sg. assert (r = mkSuggested "exact" "a.example") as -> by (vm_compute in Hr; injection Hr as <-; reflexivity).
    split; [exact H1|]. split; [exact Hu|exact H2].
Defined.

(** An interrupt while the prompt is asked. *)
Lemma toy_interrupted_run : exists s snap,
  rtc (@sys_step (toy_terminal []) (toy_cli_env toy_codec true) toy_crypto (toy_keychain "N" (fun _ => None)) toy_signer "run-a")
    (opened (mkTty 0 "")) s
  /\ th_sig s = SDone snap true /\ th_lost s = [] /\ th_render s = RChoosing toy_prompt /\ "p-00000000" ∈ snap.
Proof.
  eexists _, ["p-00000000"]. split.
  - eapply rtc_l; [right; left; split; [done|by exists toy_prompt]|].
    eapply rtc_l; [left; by apply ts_go|].
    eapply rtc_l; [left; by eapply ts_read|].
    eapply rtc_l; [left; by eapply ts_record|].
    eapply rtc_l; [left; by eapply ts_sigint|]. cbn [th_inflight].
    eapply rtc_l; [left; by eapply ts_lock|].
    eapply rtc_l; [left; eapply (ts_cancel _ _ _ _ "p-00000000" [] true); reflexivity|].
    eapply rtc_l; [left; by eapply ts_cancelled|].
    eapply rtc_l; [left; by eapply ts_unlock|].
    eapply rtc_l; [left; by eapply ts_kill|]. apply rtc_refl.
  - split_and!; [reflexivity..|]. apply list_elem_of_here.
Qed.

Lemma interrupt_settles_prompts_witness :
  exists l v, told (d_deferred (@dispatch_all toy_sql toy_cli_fs toy_crypto toy_parked "run-a" l)) "p-00000000" 0 v.
Proof.
  destruct toy_interrupted_run as (s & snap & Hs & Hg & Hl & _ & Hin).
  destruct (@interrupt_settles_prompts (toy_terminal []) (toy_cli_env toy_codec true) toy_crypto _ toy_sql toy_cli_fs
    toy_signer "run-a" (mkTty 0 "") s Hs) as [_ Hspec].
  destruct (Hspec snap toy_parked "p-00000000" toy_entry_a Hg Hl Hin sample_table_wf) as (v & Ht & _);
    [vm_compute; reflexivity|reflexivity|]. by exists (th_sent s), v.
Defined.

(** A run whose child ends while the render thread waits for a prompt. *)
Definition toy_stopped : Threads := mkThreads [] [] ∅ false [] [] (mkTty 0 "") RBlocked SWait MStopped false.

