(* ===== verification/InstallHealth.v ===== *)
(** * Health of an installation

    [crates/guard-cli/src/install/health.rs] on both platforms.  What the checks read
    is the class [HealthView]: the metadata of a path without following a link, the
    content of a file and the output of a program.  The [Debug] quoting of texts with
    special characters is not reproduced. *)

From S2P Require Import Prelude RustStr RustUtf8 Paths.

(** ** Files with their metadata *)

Record PathMetadata : Type := mkPathMetadata {
  pm_uid : N;
  pm_gid : N;
  pm_mode : N;
}.

Inductive Node : Type :=
| NFile (content : string) (m : PathMetadata)
| NDir (m : PathMetadata)
| NLink (target : string) (m : PathMetadata)
| NSpecial (m : PathMetadata).

#[export] Instance PathMetadata_eq_dec : EqDecision PathMetadata.
Proof. solve_decision. Defined.
#[export] Instance Node_eq_dec : EqDecision Node.
Proof. solve_decision. Defined.

Definition node_meta (n : Node) : PathMetadata :=
  match n with NFile _ m | NDir m | NLink _ m | NSpecial m => m end.

(** The output of a program that could be started. *)
Record Output : Type := mkOutput {
  ou_success : bool;
  ou_stdout : string;
  ou_stderr : string;
}.

Class HealthView : Type := {
  hv_stat : string -> result Node string;
  hv_read : string -> result string string;
  hv_run : string -> list string -> result Output string;
}.

(** ** paths.rs *)

Definition DAEMON_BIN : string := "stt-guard-daemon".
Definition INSTALLED_BINARIES : list string := ["stt-guard"; DAEMON_BIN; "stt-guard-watchdog"].
Definition HOOK_DYLIB (os : Os) : string :=
  match os with MacOs => "stt-guard-hook.dylib" | Linux => "stt-guard-hook.so" end.
Definition SYSTEM_HOOK_PATH (os : Os) : string := SYSTEM_BIN_DIR +:+ "/" +:+ HOOK_DYLIB os.
Definition PLIST_LABEL : string := "io.stentorian.guard.daemon".
Definition PLIST_PATH : string := "/Library/LaunchDaemons/io.stentorian.guard.daemon.plist".
Definition SERVICE_USER : string := "_stt_guard".
Definition SERVICE_USER_REALNAME : string := "Stentorian Guard Daemon".
Definition SYSTEMD_DAEMON_UNIT_PATH : string := "/etc/systemd/system/stt-guard-daemon.service".

(** ** health.rs *)

Definition ROOT_UID : N := 0.
Definition ROOT_GROUP_GID : N := 0.
Definition SERVICE_USER_HOME (os : Os) : string :=
  match os with MacOs => "/var/empty" | Linux => SYSTEM_STATE_DIR Linux end.
Definition SERVICE_USER_SHELL (os : Os) : string :=
  match os with MacOs => "/usr/bin/false" | Linux => "/usr/sbin/nologin" end.

Definition lf : string := String LF "".
Definition dq : string := String (ascii_of_nat 34) "".
Definition debug_str (s : string) : string := dq +:+ s +:+ dq.

(** The problems found so far, in order. *)
Definition InstallHealth : Type := list string.

Definition is_healthy (h : InstallHealth) : bool := match h with [] => true | _ => false end.

Definition push (h : InstallHealth) (problem : string) : InstallHealth := h ++ [problem].

Definition error_message (h : InstallHealth) : string :=
  if is_healthy h then "Stentorian Guard install is healthy"
  else foldl (fun msg problem => msg +:+ lf +:+ "  - " +:+ problem)
    ("Stentorian Guard hardened install is missing, corrupted, or incorrectly set up." +:+ lf
     +:+ "Refusing to continue because this can silently weaken protection." +:+ lf
     +:+ "Run the installer, or run stt-guard update from an existing install." +:+ lf +:+ lf
     +:+ "Problems:") h.

Inductive ExpectedKind : Type := EkDirectory | EkRegularFile.

Definition is_special_file_type (n : Node) : bool := match n with NSpecial _ => true | _ => false end.

Definition check_metadata (h : InstallHealth) (path : string) (metadata : Node) (expected_kind : ExpectedKind)
    (expected_owner_uid expected_group_gid expected_mode : N) : InstallHealth :=
  match metadata with
  | NLink _ _ => push h (path +:+ " must not be a symlink")
  | _ =>
      if is_special_file_type metadata then push h (path +:+ " must not be a special file")
      else
        let h1 := match expected_kind, metadata with
                  | EkDirectory, NDir _ | EkRegularFile, NFile _ _ => h
                  | EkDirectory, _ => push h (path +:+ " must be a directory")
                  | EkRegularFile, _ => push h (path +:+ " must be a regular file")
                  end in
        let m := node_meta metadata in
        let h2 := if bool_decide (pm_uid m = expected_owner_uid) then h1
                  else push h1 (path +:+ " owner uid is " +:+ pretty (pm_uid m) +:+ ", expected "
                                +:+ pretty expected_owner_uid) in
        let h3 := if bool_decide (pm_gid m = expected_group_gid) then h2
                  else push h2 (path +:+ " group gid is " +:+ pretty (pm_gid m) +:+ ", expected "
                                +:+ pretty expected_group_gid) in
        let mode := N.land (pm_mode m) 4095 in
        if bool_decide (mode = expected_mode) then h3
        else push h3 (path +:+ " mode is " +:+ zero_pad 4 (octal mode) +:+ ", expected "
                      +:+ zero_pad 4 (octal expected_mode))
  end.

Section Health.
Context `{HealthView}.

Definition check_path (h : InstallHealth) (path : string) (expected_kind : ExpectedKind)
    (expected_owner_uid expected_group_gid expected_mode : N) : InstallHealth :=
  match hv_stat path with
  | Ok metadata =>
      check_metadata h path metadata expected_kind expected_owner_uid expected_group_gid expected_mode
  | Err err => push h (path +:+ " missing or unreadable: " +:+ err)
  end.

Definition check_path_exists_only (h : InstallHealth) (path : string) : InstallHealth :=
  match hv_stat path with
  | Ok _ => h
  | Err err => push h (path +:+ " missing or unreadable: " +:+ err)
  end.

Definition numeric_id (program : string) (args : list string) (description : string) (h : InstallHealth)
  : InstallHealth * option N :=
  match hv_run program args with
  | Err err => (push h (description +:+ ": cannot execute " +:+ program +:+ ": " +:+ err), None)
  | Ok output =>
      if negb (ou_success output)
        then (push h (description +:+ ": " +:+ trim (from_utf8_lossy (ou_stderr output))), None)
      else
        let stdout := trim (from_utf8_lossy (ou_stdout output)) in
        match parse_u32 stdout with
        | Ok id => (h, Some id)
        | Err err => (push h (description +:+ ": malformed id " +:+ debug_str stdout +:+ ": " +:+ err), None)
        end
  end.

Definition cache_field_values (record key : string) : list string :=
  filter (fun line => is_empty line = false)
    (trim <$> omap (fun line => strip_prefix (key +:+ ":") line) (lines record)).

Definition require_cache_field (h : InstallHealth) (record key value : string) : InstallHealth :=
  if existsb (fun actual => bool_decide (actual = value)) (cache_field_values record key) then h
  else push h ("service user " +:+ key +:+ " does not match expected " +:+ debug_str value).

Definition require_passwd_field (h : InstallHealth) (key actual expected : string) : InstallHealth :=
  if negb (bool_decide (actual = expected))
  then push h ("service user " +:+ key +:+ " does not match expected " +:+ debug_str expected) else h.

Definition check_getent_passwd_record (h : InstallHealth) (record : string) (uid gid : N) : InstallHealth :=
  match lines record with
  | [] => push h "service user record invalid: getent returned no passwd row"
  | line :: _ =>
      match split_on ":" line with
      | [name; _; fuid; fgid; gecos; dir; shell] =>
          let h1 := require_passwd_field h "name" name SERVICE_USER in
          let h2 := require_passwd_field h1 "uid" fuid (pretty uid) in
          let h3 := require_passwd_field h2 "gid" fgid (pretty gid) in
          let h4 := require_passwd_field h3 "gecos" gecos SERVICE_USER_REALNAME in
          let h5 := require_passwd_field h4 "dir" dir (SERVICE_USER_HOME Linux) in
          require_passwd_field h5 "shell" shell (SERVICE_USER_SHELL Linux)
      | _ => push h "service user record invalid: malformed passwd row"
      end
  end.

Definition check_cache_record (h : InstallHealth) (record : string) (uid gid : N) : InstallHealth :=
  let h1 := require_cache_field h record "uid" (pretty uid) in
  let h2 := require_cache_field h1 record "gid" (pretty gid) in
  let h3 := require_cache_field h2 record "dir" (SERVICE_USER_HOME MacOs) in
  let h4 := require_cache_field h3 record "shell" (SERVICE_USER_SHELL MacOs) in
  require_cache_field h4 record "gecos" SERVICE_USER_REALNAME.

(** The directory cache on macOS, the user database on Linux. *)
Definition check_service_user_record (os : Os) (h : InstallHealth) (uid gid : N) : InstallHealth :=
  let '(program, args) := match os with
    | MacOs => ("dscacheutil", ["-q"; "user"; "-a"; "name"; SERVICE_USER])
    | Linux => ("getent", ["passwd"; SERVICE_USER])
    end in
  match hv_run program args with
  | Err err => push h ("service user record invalid: cannot execute " +:+ program +:+ ": " +:+ err)
  | Ok output =>
      if negb (ou_success output)
        then push h ("service user record invalid: " +:+ trim (from_utf8_lossy (ou_stderr output)))
      else
        let record := from_utf8_lossy (ou_stdout output) in
        match os with
        | MacOs => check_cache_record h record uid gid
        | Linux => check_getent_passwd_record h record uid gid
        end
  end.

Definition check_service_identity (os : Os) (h : InstallHealth) : InstallHealth * option (N * N) :=
  let '(h1, uid) := numeric_id "id" ["-u"; SERVICE_USER] "service user uid" h in
  match uid with
  | None => (h1, None)
  | Some uid =>
      let '(h2, gid) := numeric_id "id" ["-g"; SERVICE_USER] "service user gid" h1 in
      match gid with
      | None => (h2, None)
      | Some gid => (check_service_user_record os h2 uid gid, Some (uid, gid))
      end
  end.

(** The production build adds no environment variables. *)
Definition expected_launchdaemon_plist : string :=
  "<?xml version=" +:+ dq +:+ "1.0" +:+ dq +:+ " encoding=" +:+ dq +:+ "UTF-8" +:+ dq +:+ "?>" +:+ lf
  +:+ "<!DOCTYPE plist PUBLIC " +:+ dq +:+ "-//Apple//DTD PLIST 1.0//EN" +:+ dq +:+ " " +:+ dq
  +:+ "http://www.apple.com/DTDs/PropertyList-1.0.dtd" +:+ dq +:+ ">" +:+ lf
  +:+ "<plist version=" +:+ dq +:+ "1.0" +:+ dq +:+ ">" +:+ lf
  +:+ "<dict>" +:+ lf
  +:+ "    <key>Label</key>" +:+ lf
  +:+ "    <string>" +:+ PLIST_LABEL +:+ "</string>" +:+ lf
  +:+ "    <key>ProgramArguments</key>" +:+ lf
  +:+ "    <array>" +:+ lf
  +:+ "        <string>" +:+ SYSTEM_BIN_DIR +:+ "/stt-guard-daemon</string>" +:+ lf
  +:+ "        <string>serve</string>" +:+ lf
  +:+ "        <string>--state-dir</string>" +:+ lf
  +:+ "        <string>" +:+ SYSTEM_STATE_DIR MacOs +:+ "</string>" +:+ lf
  +:+ "    </array>" +:+ lf
  +:+ "    <key>UserName</key>" +:+ lf
  +:+ "    <string>" +:+ SERVICE_USER +:+ "</string>" +:+ lf
  +:+ "    <key>RunAtLoad</key>" +:+ lf
  +:+ "    <true/>" +:+ lf
  +:+ "    <key>KeepAlive</key>" +:+ lf
  +:+ "    <true/>" +:+ lf
  +:+ "    <key>StandardOutPath</key>" +:+ lf
  +:+ "    <string>" +:+ SYSTEM_LOG_DIR +:+ "/daemon.out.log</string>" +:+ lf
  +:+ "    <key>StandardErrorPath</key>" +:+ lf
  +:+ "    <string>" +:+ SYSTEM_LOG_DIR +:+ "/daemon.err.log</string>" +:+ lf
  +:+ "</dict>" +:+ lf
  +:+ "</plist>" +:+ lf.

Definition expected_systemd_daemon_unit : string :=
  foldr (fun line rest => line +:+ lf +:+ rest) ""
    ["[Unit]"; "Description=Stentorian Guard daemon"; "Documentation=https://github.com/stentorian-io/guard";
     "After=network-online.target"; "Wants=network-online.target"; ""; "[Service]"; "Type=simple";
     "User=" +:+ SERVICE_USER; "Group=" +:+ SERVICE_USER;
     "ExecStart=" +:+ SYSTEM_BIN_DIR +:+ "/" +:+ DAEMON_BIN +:+ " serve --state-dir " +:+ SYSTEM_STATE_DIR Linux;
     "Restart=always"; "RestartSec=1s"; "NoNewPrivileges=true"; "PrivateTmp=true"; "ProtectHome=true";
     "ProtectSystem=strict"; "ReadWritePaths=" +:+ SYSTEM_STATE_DIR Linux +:+ " " +:+ SYSTEM_LOG_DIR;
     "RestrictSUIDSGID=true"; "LockPersonality=true"; "CapabilityBoundingSet="; "SystemCallArchitectures=native";
     ""; "[Install]"; "WantedBy=multi-user.target"].

(** [check_plist_content] and the content half of [check_systemd_unit]. *)
Definition check_content (h : InstallHealth) (path expected what : string) : InstallHealth :=
  match hv_read path with
  | Ok content =>
      if bool_decide (content = expected) then h
      else push h (path +:+ " content differs from expected " +:+ what +:+ " definition")
  | Err err => push h (path +:+ " unreadable: " +:+ err)
  end.

Definition check_service_manager (os : Os) (h : InstallHealth) : InstallHealth :=
  match os with
  | MacOs =>
      let h1 := check_path h PLIST_PATH EkRegularFile ROOT_UID ROOT_GROUP_GID 420 in
      check_content h1 PLIST_PATH expected_launchdaemon_plist "LaunchDaemon"
  | Linux =>
      let h1 := check_path h SYSTEMD_DAEMON_UNIT_PATH EkRegularFile ROOT_UID ROOT_GROUP_GID 420 in
      check_content h1 SYSTEMD_DAEMON_UNIT_PATH expected_systemd_daemon_unit "systemd unit"
  end.

(** Modes 0755, 0644 and 0711 in decimal. *)
Definition check_installation (os : Os) : InstallHealth :=
  let '(h, service_ids) := check_service_identity os [] in
  let h := check_path h SYSTEM_BIN_DIR EkDirectory ROOT_UID ROOT_GROUP_GID 493 in
  let h := foldl (fun h binary =>
             check_path h (path_join SYSTEM_BIN_DIR binary) EkRegularFile ROOT_UID ROOT_GROUP_GID 493)
             h INSTALLED_BINARIES in
  let h := check_path h (SYSTEM_HOOK_PATH os) EkRegularFile ROOT_UID ROOT_GROUP_GID 420 in
  let h := check_path h trusted_rule_signers_path EkRegularFile ROOT_UID ROOT_GROUP_GID 420 in
  let h := match service_ids with
           | Some (uid, gid) =>
               let h := check_path h (SYSTEM_STATE_DIR os) EkDirectory uid gid 457 in
               check_path h SYSTEM_LOG_DIR EkDirectory uid gid 457
           | None =>
               let h := check_path_exists_only h (SYSTEM_STATE_DIR os) in
               check_path_exists_only h SYSTEM_LOG_DIR
           end in
  check_service_manager os h.

End Health.

(** ** Lemmas: a check adds no problem exactly when what it checks holds *)

Lemma push_nil (h : InstallHealth) (p : string) : push h p = [] <-> False.
Proof. unfold push. destruct h; naive_solver. Qed.

Lemma push_ne (h : InstallHealth) (p : string) : push h p <> [].
Proof. unfold push. by destruct h. Qed.

Lemma if_push_nil (b : bool) (h : InstallHealth) (p : string) : (if b then h else push h p) = [] <-> b = true /\ h = [].
Proof. destruct b; [naive_solver|]. rewrite push_nil. naive_solver. Qed.

Definition kind_ok (k : ExpectedKind) (n : Node) : Prop :=
  match k, n with EkDirectory, NDir _ | EkRegularFile, NFile _ _ => True | _, _ => False end.

(** A node of the kind, owner and permission bits expected. *)
Definition node_ok (n : Node) (k : ExpectedKind) (uid gid mode : N) : Prop :=
  kind_ok k n /\ pm_uid (node_meta n) = uid /\ pm_gid (node_meta n) = gid
  /\ N.land (pm_mode (node_meta n)) 4095 = mode.

Lemma check_metadata_nil (h : InstallHealth) (path : string) (n : Node) (k : ExpectedKind) (uid gid mode : N) :
  check_metadata h path n k uid gid mode = [] <-> h = [] /\ node_ok n k uid gid mode.
Proof.
  unfold node_ok. destruct n as [c m|m|t m|m]; cbn [check_metadata is_special_file_type node_meta].
  1,2: rewrite !if_push_nil, !bool_decide_eq_true; destruct k; rewrite ?push_nil; cbn; naive_solver.
  1,2: rewrite push_nil; destruct k; cbn; naive_solver.
Qed.

Section HealthFacts.
Context `{HealthView}.

Definition path_ok (path : string) (k : ExpectedKind) (uid gid mode : N) : Prop :=
  exists n, hv_stat path = Ok n /\ node_ok n k uid gid mode.

Lemma check_path_nil (h : InstallHealth) (path : string) (k : ExpectedKind) (uid gid mode : N) :
  check_path h path k uid gid mode = [] <-> h = [] /\ path_ok path k uid gid mode.
Proof.
  unfold check_path, path_ok. destruct (hv_stat path) as [n|e].
  - rewrite check_metadata_nil. naive_solver.
  - rewrite push_nil. naive_solver.
Qed.

Lemma check_paths_nil (ps : list string) (h : InstallHealth) (k : ExpectedKind) (uid gid mode : N) :
  foldl (fun h p => check_path h (path_join SYSTEM_BIN_DIR p) k uid gid mode) h ps = []
  <-> h = [] /\ Forall (fun p => path_ok (path_join SYSTEM_BIN_DIR p) k uid gid mode) ps.
Proof.
  revert h. induction ps as [|p ps IH]; intros h; cbn [foldl]; [by rewrite Forall_nil; naive_solver|].
  rewrite IH, check_path_nil, Forall_cons. naive_solver.
Qed.

Definition content_ok (path expected : string) : Prop := hv_read path = Ok expected.

Lemma check_content_nil (h : InstallHealth) (path expected what : string) :
  check_content h path expected what = [] <-> h = [] /\ content_ok path expected.
Proof.
  unfold check_content, content_ok. destruct (hv_read path) as [c|e]; [|rewrite push_nil; naive_solver].
  rewrite if_push_nil, bool_decide_eq_true. naive_solver.
Qed.

(** The identifier a program prints. *)
Definition prints_id (program : string) (args : list string) (id : N) : Prop :=
  exists o, hv_run program args = Ok o /\ ou_success o = true
    /\ parse_u32 (trim (from_utf8_lossy (ou_stdout o))) = Ok id.

Lemma numeric_id_cases (program d : string) (args : list string) (h : InstallHealth) :
  match numeric_id program args d h with
  | (h', Some id) => h' = h /\ prints_id program args id
  | (h', None) => h' <> [] /\ forall id, ~ prints_id program args id
  end.
Proof.
  unfold numeric_id, prints_id. destruct (hv_run program args) as [o|e] eqn:E.
  2: { split; [apply push_ne|]. by intros id (o & ? & _). }
  destruct (ou_success o) eqn:Es; cbn [negb].
  2: { split; [apply push_ne|]. intros id (o' & [= <-] & ? & _). congruence. }
  destruct (parse_u32 _) eqn:Ep; [naive_solver|].
  split; [apply push_ne|]. intros id (o' & [= <-] & _ & ?). congruence.
Qed.

(** What the directory cache must say of a field. *)
Definition cache_says (record key value : string) : Prop := value ∈ cache_field_values record key.

Lemma require_cache_field_nil (h : InstallHealth) (record key value : string) :
  require_cache_field h record key value = [] <-> h = [] /\ cache_says record key value.
Proof.
  unfold require_cache_field, cache_says. rewrite if_push_nil, existsb_exists. setoid_rewrite bool_decide_eq_true.
  setoid_rewrite <- list_elem_of_In. naive_solver.
Qed.

Lemma require_passwd_field_nil (h : InstallHealth) (key actual expected : string) :
  require_passwd_field h key actual expected = [] <-> h = [] /\ actual = expected.
Proof. unfold require_passwd_field. case_bool_decide; cbn [negb]; rewrite ?push_nil; naive_solver. Qed.

(** The record of the service user, as the tool of the platform prints it. *)
Definition record_ok (os : Os) (uid gid : N) : Prop :=
  match os with
  | MacOs =>
      exists o, hv_run "dscacheutil" ["-q"; "user"; "-a"; "name"; SERVICE_USER] = Ok o /\ ou_success o = true
        /\ let record := from_utf8_lossy (ou_stdout o) in
           cache_says record "uid" (pretty uid) /\ cache_says record "gid" (pretty gid)
           /\ cache_says record "dir" "/var/empty" /\ cache_says record "shell" "/usr/bin/false"
           /\ cache_says record "gecos" SERVICE_USER_REALNAME
  | Linux =>
      exists o line rest password, hv_run "getent" ["passwd"; SERVICE_USER] = Ok o /\ ou_success o = true
        /\ lines (from_utf8_lossy (ou_stdout o)) = line :: rest
        /\ split_on ":" line = [SERVICE_USER; password; pretty uid; pretty gid; SERVICE_USER_REALNAME;
                                SYSTEM_STATE_DIR Linux; "/usr/sbin/nologin"]
  end.

Lemma check_service_user_record_nil (os : Os) (h : InstallHealth) (uid gid : N) :
  check_service_user_record os h uid gid = [] <-> h = [] /\ record_ok os uid gid.
Proof.
  unfold check_service_user_record, record_ok. destruct os; cbv beta iota zeta.
  - destruct (hv_run _ _) as [o|e]; [|rewrite push_nil; split; [done|by intros (_ & o & ? & _)]].
    destruct (ou_success o) eqn:Es; cbn [negb].
    2: { rewrite push_nil. split; [done|]. intros (_ & o' & [= <-] & ? & _). congruence. }
    unfold check_cache_record. rewrite !require_cache_field_nil. split.
    + intros (((((-> & ?) & ?) & ?) & ?) & ?). split; [done|]. by exists o.
    + intros (-> & o' & [= <-] & _ & ? & ? & ? & ? & ?). done.
  - destruct (hv_run _ _) as [o|e]; [|rewrite push_nil; split; [done|by intros (_ & o & ? & ? & ? & ? & _)]].
    destruct (ou_success o) eqn:Es; cbn [negb].
    2: { rewrite push_nil. split; [done|]. intros (_ & o' & ? & ? & ? & [= <-] & ? & _). congruence. }
    unfold check_getent_passwd_record. destruct (lines _) as [|line rest] eqn:El.
    { rewrite push_nil. split; [done|]. intros (_ & o' & ? & ? & ? & [= <-] & _ & ? & _). congruence. }
    assert (forall l, (forall a, l <> [SERVICE_USER; a; pretty uid; pretty gid; SERVICE_USER_REALNAME;
                          SYSTEM_STATE_DIR Linux; "/usr/sbin/nologin"]) -> split_on ":" line = l ->
              False <-> h = [] /\ exists o0 line0 rest0 password, @Ok Output string o = Ok o0 /\ ou_success o0 = true
                /\ lines (from_utf8_lossy (ou_stdout o0)) = line0 :: rest0
                /\ split_on ":" line0 = [SERVICE_USER; password; pretty uid; pretty gid; SERVICE_USER_REALNAME;
                     SYSTEM_STATE_DIR Linux; "/usr/sbin/nologin"]) as Hbad.
    { intros l Hl Hs. split; [done|]. intros (_ & o' & l' & r' & a & [= <-] & _ & Hl' & Hf). rewrite El in Hl'.
      injection Hl' as <- <-. rewrite Hs in Hf. by apply (Hl a). }
    destruct (split_on ":" line) as [|a [|b [|c [|d [|e [|f [|g [|]]]]]]]] eqn:Ef; rewrite ?push_nil;
      try (by apply Hbad with (2 := eq_refl)).
    rewrite !require_passwd_field_nil. split.
    + intros ((((((-> & ->) & ->) & ->) & ->) & ->) & ->). split; [done|]. by exists o, line, rest, b.
    + intros (-> & o' & l' & r' & p & [= <-] & _ & Hl & Hf). rewrite El in Hl. injection Hl as <- <-. rewrite Ef in Hf.
      by injection Hf as -> -> -> -> -> -> ->.
Qed.

Lemma check_service_identity_cases (os : Os) :
  match check_service_identity os [] with
  | (h, Some (uid, gid)) =>
      prints_id "id" ["-u"; SERVICE_USER] uid /\ prints_id "id" ["-g"; SERVICE_USER] gid
      /\ (h = [] <-> record_ok os uid gid)
  | (h, None) => h <> [] /\ forall uid gid, ~ (prints_id "id" ["-u"; SERVICE_USER] uid
                                               /\ prints_id "id" ["-g"; SERVICE_USER] gid)
  end.
Proof.
  unfold check_service_identity.
  pose proof (numeric_id_cases "id" "service user uid" ["-u"; SERVICE_USER] []) as H1.
  destruct (numeric_id "id" ["-u"; SERVICE_USER] _ _) as [h1 [uid|]].
  2: { destruct H1 as [Hn H1]. split; [done|]. intros u g [Hu _]. by apply (H1 u). }
  destruct H1 as [-> H1]. pose proof (numeric_id_cases "id" "service user gid" ["-g"; SERVICE_USER] []) as H2.
  destruct (numeric_id "id" ["-g"; SERVICE_USER] _ _) as [h2 [gid|]].
  2: { destruct H2 as [Hn H2]. split; [done|]. intros u g [_ Hg]. by apply (H2 g). }
  destruct H2 as [-> H2]. split_and!; [done..|]. rewrite check_service_user_record_nil. naive_solver.
Qed.

Lemma prints_id_fun (program : string) (args : list string) (a b : N) :
  prints_id program args a -> prints_id program args b -> a = b.
Proof. intros (o & E & _ & Ha) (o' & E' & _ & Hb). rewrite E in E'. injection E' as <-. congruence. Qed.

End HealthFacts.

Lemma check_installation_spec `{HealthView} (os : Os) :
  is_healthy (check_installation os) = true <->
  exists uid gid,
    (prints_id "id" ["-u"; SERVICE_USER] uid /\ prints_id "id" ["-g"; SERVICE_USER] gid /\ record_ok os uid gid)
    /\ path_ok SYSTEM_BIN_DIR EkDirectory 0 0 493
    /\ Forall (fun b => path_ok (path_join SYSTEM_BIN_DIR b) EkRegularFile 0 0 493) INSTALLED_BINARIES
    /\ path_ok (SYSTEM_HOOK_PATH os) EkRegularFile 0 0 420
    /\ path_ok trusted_rule_signers_path EkRegularFile 0 0 420
    /\ path_ok (SYSTEM_STATE_DIR os) EkDirectory uid gid 457 /\ path_ok SYSTEM_LOG_DIR EkDirectory uid gid 457
    /\ match os with
       | MacOs => path_ok PLIST_PATH EkRegularFile 0 0 420 /\ content_ok PLIST_PATH expected_launchdaemon_plist
       | Linux => path_ok SYSTEMD_DAEMON_UNIT_PATH EkRegularFile 0 0 420
                  /\ content_ok SYSTEMD_DAEMON_UNIT_PATH expected_systemd_daemon_unit
       end.
Proof.
  assert (forall h, is_healthy h = true <-> h = []) as Hh by (intros []; naive_solver). rewrite Hh.
  unfold check_installation. pose proof (check_service_identity_cases os) as Hid.
  destruct (check_service_identity os []) as [h0 [[uid gid]|]]; cbv beta iota.
  - destruct Hid as (Hu & Hg & Hr). unfold check_service_manager, ROOT_UID, ROOT_GROUP_GID.
    assert (forall P : N -> N -> Prop, (exists u g, (prints_id "id" ["-u"; SERVICE_USER] u
        /\ prints_id "id" ["-g"; SERVICE_USER] g /\ record_ok os u g) /\ P u g) <-> record_ok os uid gid /\ P uid gid) as ->.
    { intros P. split; [|naive_solver]. intros (u & g & (Hu' & Hg' & Hr') & HP).
      rewrite <- (prints_id_fun _ _ _ _ Hu' Hu), <- (prints_id_fun _ _ _ _ Hg' Hg). done. }
    destruct os; rewrite check_content_nil, !check_path_nil, check_paths_nil, check_path_nil, Hr; naive_solver.
  - destruct Hid as (Hne & Hno). split; [|intros (u & g & (? & ? & _) & _); exfalso; by apply (Hno u g)].
    intros Hnil. exfalso. apply Hne. unfold check_service_manager, check_path_exists_only in Hnil.
    destruct os; rewrite check_content_nil, check_path_nil in Hnil; destruct Hnil as [[Hnil _] _];
      repeat (destruct (hv_stat _); [|by apply push_nil in Hnil]);
      by rewrite !check_path_nil, check_paths_nil, check_path_nil in Hnil; destruct Hnil as [[[[? _] _] _] _].
Qed.

(** ** Properties *)

(** An installation is reported healthy exactly when the service user exists with
    the locked-down record, every installed file and directory is of the right kind
    with the exact owner and permission bits and is no symbolic link, and the service
    definition has the expected text; one deviation is enough to refuse. *)
Theorem check_installation_iff `{HealthView} (os : Os) :
  is_healthy (check_installation os) = true <->
  exists uid gid,
    (prints_id "id" ["-u"; SERVICE_USER] uid /\ prints_id "id" ["-g"; SERVICE_USER] gid /\ record_ok os uid gid)
    /\ path_ok SYSTEM_BIN_DIR EkDirectory 0 0 493
    /\ Forall (fun b => path_ok (path_join SYSTEM_BIN_DIR b) EkRegularFile 0 0 493) INSTALLED_BINARIES
    /\ path_ok (SYSTEM_HOOK_PATH os) EkRegularFile 0 0 420
    /\ path_ok trusted_rule_signers_path EkRegularFile 0 0 420
    /\ path_ok (SYSTEM_STATE_DIR os) EkDirectory uid gid 457 /\ path_ok SYSTEM_LOG_DIR EkDirectory uid gid 457
    /\ match os with
       | MacOs => path_ok PLIST_PATH EkRegularFile 0 0 420 /\ content_ok PLIST_PATH expected_launchdaemon_plist
       | Linux => path_ok SYSTEMD_DAEMON_UNIT_PATH EkRegularFile 0 0 420
                  /\ content_ok SYSTEMD_DAEMON_UNIT_PATH expected_systemd_daemon_unit
       end.
Proof. apply check_installation_spec. Qed.
