(* ===== verification/InstallSys.v ===== *)
(** * The system an installer works on

    What [install/system.rs] uses of the operating system: a file system with
    metadata, the record of the service user, the service manager and the programs that
    change them.  Every call takes a tick and may fail as class [InstallEnv] says;
    paths are looked up as text, so parent directories are no symbolic links.  A
    program that reports a failure has changed nothing, except a recursive [chown],
    which may have reached some of its paths. *)

From S2P Require Import Prelude RustStr RustUtf8 Paths InstallHealth.

Abbreviation Fs := (gmap string Node).

(** ** Programs *)

Inductive Owner : Type :=
| RootWheel
| ServiceOwner (gid : N)
| Numeric (uid gid : N).

Inductive Cmd : Type :=
| Chown (recursive : bool) (owner : Owner) (path : string)
| Chmod (mode : N) (path : string)
| LaunchctlBootstrap | LaunchctlBootout | LaunchctlPrint
| DsclReadUser | DsclReadAttr (attr : string) | DsclCreateUser | DsclCreateAttr (attr value : string)
| DsclDeleteAttr (attr : string) | DsclDeleteUser | DsclSearchUid (uid : N)
| IdGroup.

Definition show_owner_spec (o : Owner) : string :=
  match o with
  | RootWheel => "root:wheel"
  | ServiceOwner gid => SERVICE_USER +:+ ":" +:+ pretty gid
  | Numeric uid gid => pretty uid +:+ ":" +:+ pretty gid
  end.

Definition user_record : string := "/Users/" +:+ SERVICE_USER.

(** The program and its arguments. *)
Definition argv (c : Cmd) : string * list string :=
  match c with
  | Chown false o p => ("chown", [show_owner_spec o; p])
  | Chown true o p => ("chown", ["-R"; show_owner_spec o; p])
  | Chmod m p => ("chmod", [octal m; p])
  | LaunchctlBootstrap => ("launchctl", ["bootstrap"; "system"; PLIST_PATH])
  | LaunchctlBootout => ("launchctl", ["bootout"; "system/" +:+ PLIST_LABEL])
  | LaunchctlPrint => ("launchctl", ["print"; "system/" +:+ PLIST_LABEL])
  | DsclReadUser => ("dscl", ["."; "-read"; user_record])
  | DsclReadAttr a => ("dscl", ["."; "-read"; user_record; a])
  | DsclCreateUser => ("dscl", ["."; "-create"; user_record])
  | DsclCreateAttr a v => ("dscl", ["."; "-create"; user_record; a; v])
  | DsclDeleteAttr a => ("dscl", ["."; "-delete"; user_record; a])
  | DsclDeleteUser => ("dscl", ["."; "-delete"; user_record])
  | DsclSearchUid u => ("dscl", ["."; "-search"; "/Users"; "UniqueID"; pretty u])
  | IdGroup => ("id", ["-g"; SERVICE_USER])
  end.

(** ** The state *)

Record Sys : Type := mkSys {
  sy_fs : Fs;
  (** The attributes of the service user, when the record exists. *)
  sy_user : option (gmap string string);
  sy_loaded : bool;
  sy_tick : nat;
}.

Inductive CmdFault : Type := NotStarted (msg : string) | Exited (stderr : string).

Class InstallEnv : Type := {
  (** The error of a call, by its tick, name and path. *)
  io_fault : nat -> string -> string -> option string;
  (** How much of a file a failed write has written, if anything. *)
  io_prefix : nat -> option nat;
  cmd_fault : nat -> Cmd -> option CmdFault;
  chown_reached : nat -> string -> bool;
  cmd_stdout : Cmd -> Sys -> string;
  cmd_stderr : Cmd -> string;
  (** Owner and group of new files and directories. *)
  new_owner : N * N;
}.

Section Sys.
Context `{IS : InstallEnv}.

Definition next (s : Sys) : Sys := mkSys (sy_fs s) (sy_user s) (sy_loaded s) (S (sy_tick s)).
Definition with_fs (s : Sys) (f : Fs) : Sys := mkSys f (sy_user s) (sy_loaded s) (sy_tick s).
Definition with_user (s : Sys) (u : option (gmap string string)) : Sys := mkSys (sy_fs s) u (sy_loaded s) (sy_tick s).
Definition with_loaded (s : Sys) (b : bool) : Sys := mkSys (sy_fs s) (sy_user s) b (sy_tick s).

(** ** Paths *)

(** Following links, at most 32 times. *)
Fixpoint resolve_go (fuel : nat) (f : Fs) (p : string) : string :=
  match f !! p with
  | Some (NLink target _) => match fuel with S fuel' => resolve_go fuel' f target | O => p end
  | _ => p
  end.
Definition resolve (f : Fs) (p : string) : string := resolve_go 32 f p.

Definition below (dir p : string) : bool := starts_with p (dir +:+ "/").

Fixpoint ancestors_go (fuel : nat) (p : string) : list string :=
  match fuel with
  | O => []
  | S fuel' => match path_parent p with Some d => ancestors_go fuel' d ++ [d] | None => [] end
  end.
(** The directories above a path, outermost first. *)
Definition ancestors (p : string) : list string := ancestors_go (String.length p) p.

Definition is_dir (n : option Node) : bool := match n with Some (NDir _) => true | _ => false end.
Definition parent_exists (f : Fs) (p : string) : bool :=
  match path_parent p with Some d => is_dir (f !! resolve f d) | None => false end.

Definition new_meta (mode : N) : PathMetadata := mkPathMetadata new_owner.1 new_owner.2 mode.

(** ** Calls on the file system *)

Definition update_fs (g : Fs -> Fs) : SM Sys string unit := fun s => (with_fs s (g (sy_fs s)), Ok tt).

Definition call {A} (name path : string) (m : Fs -> result (Fs * A) string) : SM Sys string A := fun s =>
  let s1 := next s in
  match io_fault (sy_tick s) name path with
  | Some e => (s1, Err e)
  | None => match m (sy_fs s) with Ok (f, a) => (with_fs s1 f, Ok a) | Err e => (s1, Err e) end
  end.

(** [symlink_metadata]; [None] when nothing is there. *)
Definition lstat (path : string) : SM Sys string (option Node) := call "lstat" path (fun f => Ok (f, f !! path)).

(** [Path::exists], which takes any failure for absence. *)
Definition exists_path {E} (path : string) : SM Sys E bool := fun s =>
  (next s, Ok match io_fault (sy_tick s) "stat" path with
              | Some _ => false
              | None => match sy_fs s !! resolve (sy_fs s) path with
                        | Some (NLink _ _) | None => false
                        | Some _ => true
                        end
              end).

Definition not_found : string := "No such file or directory".

(** The file system with [content] at [path], created with [mode] when it is new. *)
Definition put (f : Fs) (path content : string) (mode : N) : result Fs string :=
  let q := resolve f path in
  match f !! q with
  | Some (NFile _ m) => Ok (<[q := NFile content m]> f)
  | Some (NDir _) => Err "Is a directory"
  | Some (NLink _ _) => Err "Too many levels of symbolic links"
  | Some (NSpecial _) => Err "Operation not supported"
  | None => if parent_exists f q then Ok (<[q := NFile content (new_meta mode)]> f) else Err not_found
  end.

Definition set_meta (n : Node) (m : PathMetadata) : Node :=
  match n with NFile c _ => NFile c m | NDir _ => NDir m | NLink t _ => NLink t m | NSpecial _ => NSpecial m end.

Definition set_mode (mode : N) (n : Node) : Node :=
  set_meta n (mkPathMetadata (pm_uid (node_meta n)) (pm_gid (node_meta n)) mode).

Definition set_owner (uid gid : N) (n : Node) : Node :=
  set_meta n (mkPathMetadata uid gid (pm_mode (node_meta n))).

(** A write, of which a failure may leave a part. *)
Definition write (name path content : string) (mode : N) : SM Sys string unit := fun s =>
  let s1 := next s in
  match io_fault (sy_tick s) name path with
  | Some e =>
      (match io_prefix (sy_tick s) with
       | Some n => match put (sy_fs s) path (str_take n content) mode with Ok f => with_fs s1 f | Err _ => s1 end
       | None => s1
       end, Err e)
  | None =>
      match put (sy_fs s) path content mode with Ok f => (with_fs s1 f, Ok tt) | Err e => (s1, Err e) end
  end.

(** [fs::write]. *)
Definition write_file (path content : string) : SM Sys string unit := write "write" path content 420.

(** [fs::copy]: the content, and the permission bits.  A copy of a file to itself
    truncates it, as the documentation of the call warns. *)
Definition copy (src dst : string) : SM Sys string unit := fun s =>
  match sy_fs s !! resolve (sy_fs s) src with
  | Some (NFile content m) =>
      let copied := if bool_decide (resolve (sy_fs s) src = resolve (sy_fs s) dst) then "" else content in
      match write "copy" dst copied (pm_mode m) s with
      | (s1, Ok _) =>
          (with_fs s1 (alter (set_mode (pm_mode m)) (resolve (sy_fs s1) dst) (sy_fs s1)), Ok tt)
      | (s1, Err e) => (s1, Err e)
      end
  | Some _ => (next s, Err "the source path is neither a regular file nor a symlink to a regular file")
  | None => (next s, Err not_found)
  end.

Definition remove_file (path : string) : SM Sys string unit :=
  call "unlink" path (fun f =>
    match f !! path with
    | Some (NDir _) => Err "Operation not permitted"
    | Some _ => Ok (delete path f, tt)
    | None => Err not_found
    end).

(** [OpenOptions::create_new] with a mode. *)
Definition create_new (path : string) (mode : N) : SM Sys string unit :=
  call "create" path (fun f =>
    match f !! path with
    | Some _ => Err "File exists"
    | None => if parent_exists f path then Ok (<[path := NFile "" (new_meta mode)]> f, tt) else Err not_found
    end).

Definition create_dir (path : string) : SM Sys string unit :=
  call "mkdir" path (fun f =>
    match f !! path with
    | Some _ => Err "File exists"
    | None => if parent_exists f path then Ok (<[path := NDir (new_meta 493)]> f, tt) else Err not_found
    end).

(** [create_dir_all]: the missing directories from the outermost in. *)
Fixpoint make_dirs (ds : list string) (f : Fs) : result Fs string :=
  match ds with
  | [] => Ok f
  | d :: ds' =>
      match f !! resolve f d with
      | Some (NDir _) => make_dirs ds' f
      | Some _ => Err "Not a directory"
      | None => if bool_decide (f !! d = None) then make_dirs ds' (<[d := NDir (new_meta 493)]> f)
                else Err "File exists"
      end
  end.

Definition create_dir_all (path : string) : SM Sys string unit :=
  call "mkdir -p" path (fun f =>
    match make_dirs (ancestors path ++ [path]) f with Ok f' => Ok (f', tt) | Err e => Err e end).

(** [remove_dir]; [false] when nothing is there. *)
Definition remove_dir (path : string) : SM Sys string bool :=
  call "rmdir" path (fun f =>
    match f !! path with
    | Some (NDir _) =>
        if bool_decide (filter (fun kv => below path kv.1 = true) f = ∅) then Ok (delete path f, true)
        else Err "Directory not empty"
    | Some _ => Err "Not a directory"
    | None => Ok (f, false)
    end).

Definition remove_dir_all (path : string) : SM Sys string unit :=
  call "rm -r" path (fun f =>
    match f !! path with
    | Some _ => Ok (filter (fun kv => (bool_decide (kv.1 = path) || below path kv.1) = false) f, tt)
    | None => Err not_found
    end).

(** ** Running programs *)

Definition service_uid (s : Sys) : option N :=
  u ← sy_user s; text ← u !! "UniqueID"; match parse_u32 text with Ok n => Some n | Err _ => None end.

Definition owner_ids (s : Sys) (o : Owner) : option (N * N) :=
  match o with
  | RootWheel => Some (0, 0)%N
  | ServiceOwner gid => (fun uid => (uid, gid)) <$> service_uid s
  | Numeric uid gid => Some (uid, gid)
  end.

(** A change of ownership of a tree that does not follow links. *)
Definition chown_tree (reached : string -> bool) (uid gid : N) (dir : string) (f : Fs) : Fs :=
  map_imap (fun p n => Some (if (bool_decide (p = dir) || below dir p) && reached p then set_owner uid gid n else n)) f.

(** What a program that succeeds does; [None] when it reports a failure. *)
Definition cmd_effect (c : Cmd) (s : Sys) : option Sys :=
  match c with
  | Chown false o p =>
      '(uid, gid) ← owner_ids s o;
      n ← sy_fs s !! resolve (sy_fs s) p;
      Some (with_fs s (<[resolve (sy_fs s) p := set_owner uid gid n]> (sy_fs s)))
  | Chown true o p =>
      '(uid, gid) ← owner_ids s o;
      _ ← sy_fs s !! p;
      Some (with_fs s (chown_tree (fun _ => true) uid gid p (sy_fs s)))
  | Chmod mode p =>
      n ← sy_fs s !! resolve (sy_fs s) p;
      Some (with_fs s (<[resolve (sy_fs s) p := set_mode mode n]> (sy_fs s)))
  | LaunchctlBootstrap =>
      if sy_loaded s then None
      else match sy_fs s !! resolve (sy_fs s) PLIST_PATH with
           | Some (NFile _ _) => Some (with_loaded s true)
           | _ => None
           end
  | LaunchctlBootout => if sy_loaded s then Some (with_loaded s false) else None
  | LaunchctlPrint => if sy_loaded s then Some s else None
  | DsclReadUser | DsclReadAttr _ | IdGroup => match sy_user s with Some _ => Some s | None => None end
  | DsclCreateUser => Some (with_user s (Some (default ∅ (sy_user s))))
  | DsclCreateAttr a v => Some (with_user s (Some (<[a := v]> (default ∅ (sy_user s)))))
  | DsclDeleteAttr a => u ← sy_user s; Some (with_user s (Some (delete a u)))
  | DsclDeleteUser => match sy_user s with Some _ => Some (with_user s None) | None => None end
  | DsclSearchUid _ => Some s
  end.

(** What a failed program may have done. *)
Definition cmd_residue (c : Cmd) (s : Sys) : Sys :=
  match c with
  | Chown true o p =>
      match owner_ids s o with
      | Some (uid, gid) => with_fs s (chown_tree (chown_reached (sy_tick s)) uid gid p (sy_fs s))
      | None => s
      end
  | _ => s
  end.

(** [Command::output]. *)
Definition exec_cmd (c : Cmd) : SM Sys string Output := fun s =>
  let s1 := next s in
  match cmd_fault (sy_tick s) c with
  | Some (NotStarted e) => (s1, Err e)
  | Some (Exited stderr) => (cmd_residue c s1, Ok (mkOutput false "" stderr))
  | None =>
      match cmd_effect c s1 with
      | Some s2 => (s2, Ok (mkOutput true (cmd_stdout c s1) ""))
      | None => (s1, Ok (mkOutput false "" (cmd_stderr c)))
      end
  end.

End Sys.

(** ** Lemmas *)

(** Absent, or a file; absent, or a directory. *)
Definition plain_file (n : option Node) : Prop := match n with None | Some (NFile _ _) => True | _ => False end.
Definition plain_dir (n : option Node) : Prop := match n with None | Some (NDir _) => True | _ => False end.

Section SysFacts.
Context `{IS : InstallEnv}.

(** A path that is no link stands for itself. *)
Lemma resolve_plain (f : Fs) (p : string) : plain_file (f !! p) \/ plain_dir (f !! p) -> resolve f p = p.
Proof. unfold resolve. simpl. destruct (f !! p) as [[]|]; naive_solver. Qed.

Lemma resolve_not_link (f : Fs) (p : string) : (forall t m, f !! p <> Some (NLink t m)) -> resolve f p = p.
Proof.
  intros Hn. unfold resolve. simpl. destruct (f !! p) as [[| |t m|]|]; try done. by destruct (Hn t m).
Qed.

Lemma put_file (f f' : Fs) (p content : string) (mode : N) :
  plain_file (f !! p) -> put f p content mode = Ok f' ->
  (forall q, q <> p -> f' !! q = f !! q) /\ exists m, f' !! p = Some (NFile content m).
Proof.
  intros Hp. unfold put. rewrite resolve_plain by auto.
  destruct (f !! p) as [[]|] eqn:E; try done; try (case_match; [|done]); intros [= <-];
    (split; [intros; by rewrite lookup_insert_ne|rewrite lookup_insert_eq; eauto]).
Qed.

Lemma call_ok {A} (name path : string) (m : Fs -> result (Fs * A) string) (s s' : Sys) (a : A) :
  call name path m s = (s', Ok a) -> exists f, m (sy_fs s) = Ok (f, a) /\ s' = with_fs (next s) f.
Proof. unfold call. case_match; [done|]. destruct (m (sy_fs s)) as [[f b]|]; [|done]. intros [= <- ->]. eauto. Qed.

Lemma write_ok (name p content : string) (mode : N) (s s' : Sys) (u : unit) :
  write name p content mode s = (s', Ok u) -> plain_file (sy_fs s !! p) ->
  (exists m, sy_fs s' !! p = Some (NFile content m)) /\ sy_user s' = sy_user s
  /\ forall q, q <> p -> sy_fs s' !! q = sy_fs s !! q.
Proof.
  unfold write. destruct (io_fault _ _ _); [done|]. destruct (put _ _ _ _) as [f|] eqn:E; [|done].
  intros [= <-] Hp. destruct (put_file _ _ _ _ _ Hp E). by split_and!.
Qed.

End SysFacts.
