(* ===== verification/Install.v ===== *)
(** * The system installer

    [crates/guard-cli/src/install/system.rs] on macOS, in the production build.  An
    installation works on the system and on its transaction, the stack of the actions
    that undo what was done; the messages it prints are left out, and so are the
    failpoints, which this build does not have.  [install_as_root] is the privileged
    half of [run_install], [run_install_with_privilege_escalation] the half of the
    user. *)

From S2P Require Import Prelude RustStr RustUtf8 TrustedSigners Signature Paths RuleStore.
From S2P Require Import HardwareSigning InstallHealth InstallSys.

Definition STATE_DIR : string := SYSTEM_STATE_DIR MacOs.
Definition LOG_DIR : string := SYSTEM_LOG_DIR.
Definition BIN_DIR : string := SYSTEM_BIN_DIR.
Definition DYLIB : string := HOOK_DYLIB MacOs.
Definition CARGO_HOOK_DYLIB : string := "libguard_hook.dylib".

(** ** The transaction *)

Inductive RollbackAction : Type :=
| RemoveFileIfCreated (path : string)
| RestoreFile (path backup : string) (metadata : PathMetadata)
| RemoveDirectoryIfCreated (path : string)
| RestoreMetadata (path : string) (metadata : PathMetadata)
| BootoutLaunchDaemon
| BootstrapLaunchDaemon
| RemoveServiceUser.

(** The last action pushed comes first. *)
Record InstallTransaction : Type := mkTransaction {
  rollback_actions : list RollbackAction;
  backup_dir : string;
  pre_existing_guard_state : bool;
}.

Record Inst : Type := mkInst {
  is_sys : Sys;
  is_tx : InstallTransaction;
}.

(** The environment of the installer: its executable, the fresh name of its backup
    directory, the decoder of enrollments and the files of the database. *)
Class InstallerEnv : Type := {
  ie_sys :: InstallEnv;
  current_exe : result string string;
  rollback_dir : string;
  json_enrollment : string -> result HardwareSignerEnrollment string;
  (** The tables a store reads from the content of its three files, and the files it
      writes. *)
  sqlite_tables : option string -> option string -> option string -> Db;
  sqlite_files : nat -> Db -> string * string * string;
}.

Section Installer.
Context `{IE : InstallerEnv}.

(** Calls on the system, with their errors named. *)
Definition run_on {A} (m : SM Sys CliError A) : SM Inst CliError A := fun s =>
  let '(sys, r) := m (is_sys s) in (mkInst sys (is_tx s), r).

Definition named {A E} (m : SM Sys E A) (name : E -> string) : SM Sys CliError A := fun s =>
  let '(s1, r) := m s in (s1, map_err (fun e => CliOther (name e)) r).

Definition io {A} (m : SM Sys string A) (name : string -> string) : SM Inst CliError A := run_on (named m name).

(** A call whose error is dropped. *)
Definition attempt {A} (m : SM Sys string A) : SM Sys CliError (option A) := fun s =>
  let '(s1, r) := m s in (s1, Ok match r with Ok a => Some a | Err _ => None end).

Definition fail {A} (msg : string) : SM Inst CliError A := sm_lift (Err (CliOther msg)).

Definition push_action (a : RollbackAction) : SM Inst CliError unit := fun s =>
  (mkInst (is_sys s) (mkTransaction (a :: rollback_actions (is_tx s)) (backup_dir (is_tx s))
                        (pre_existing_guard_state (is_tx s))), Ok tt).

Definition run_cmd (c : Cmd) (description : string) : SM Sys CliError unit := fun s =>
  match exec_cmd c s with
  | (s1, Err e) => (s1, Err (CliOther (description +:+ ": " +:+ e)))
  | (s1, Ok output) =>
      if negb (ou_success output)
      then (s1, Err (CliOther (description +:+ " failed: " +:+ from_utf8_lossy (ou_stderr output))))
      else (s1, Ok tt)
  end.

(** ** Recording *)

Definition from_metadata (n : Node) : PathMetadata :=
  mkPathMetadata (pm_uid (node_meta n)) (pm_gid (node_meta n)) (N.land (pm_mode (node_meta n)) 4095).

Definition record_directory_created (path : string) : SM Inst CliError unit :=
  metadata ← io (lstat path) (fun e => "inspect " +:+ path +:+ " before install: " +:+ e);
  match metadata with
  | Some (NLink _ _) => fail ("refusing to use symlinked install directory " +:+ path)
  | Some (NDir _) => mret tt
  | Some _ => fail ("install directory path is not a directory: " +:+ path)
  | None => push_action (RemoveDirectoryIfCreated path)
  end.

Definition record_path_metadata (path : string) : SM Inst CliError unit :=
  metadata ← io (lstat path) (fun e => "inspect " +:+ path +:+ " metadata before install: " +:+ e);
  match metadata with
  | Some n => push_action (RestoreMetadata path (from_metadata n))
  | None => mret tt
  end.

Definition next_backup_path (t : InstallTransaction) : string :=
  path_join (backup_dir t) ("backup-" +:+ pretty (N.of_nat (length (rollback_actions t)))).

Definition record_file_replacement (path : string) : SM Inst CliError unit :=
  metadata ← io (lstat path) (fun e => "inspect " +:+ path +:+ " before replacement: " +:+ e);
  match metadata with
  | Some (NLink _ _) => fail ("refusing to replace symlinked install file " +:+ path)
  | Some (NFile content m) =>
      s ← sm_get;
      let backup := next_backup_path (is_tx s) in
      io (copy path backup) (fun e => "backup " +:+ path +:+ " -> " +:+ backup +:+ ": " +:+ e) ;;
      push_action (RestoreFile path backup (from_metadata (NFile content m)))
  | Some _ => fail ("install file path is not a regular file: " +:+ path)
  | None => push_action (RemoveFileIfCreated path)
  end.

Definition sqlite_sidecar_paths (db_path : string) : list string := [db_path +:+ "-wal"; db_path +:+ "-shm"].

Definition record_sqlite_replacement (db_path : string) : SM Inst CliError unit :=
  record_file_replacement db_path ;;
  mapM record_file_replacement (sqlite_sidecar_paths db_path) ;;
  mret tt.

Definition record_service_user (created : bool) : SM Inst CliError unit :=
  s ← sm_get;
  if created && negb (pre_existing_guard_state (is_tx s)) then push_action RemoveServiceUser else mret tt.

(** ** The service user *)

Definition dscl_attribute_values (output attr : string) : list string :=
  match lines output with
  | [] => []
  | first_line :: others =>
      match strip_prefix (attr +:+ ":") first_line with
      | None => []
      | Some rest =>
          let inline := trim rest in
          if negb (is_empty inline) then [inline]
          else filter (fun line => is_empty line = false) (trim <$> others)
      end
  end.

Definition service_record_attr_matches (attr expected : string) : SM Sys CliError bool := fun s =>
  match exec_cmd (DsclReadAttr attr) s with
  | (s1, Err e) => (s1, Err (CliOther ("read " +:+ user_record +:+ " " +:+ attr +:+ ": " +:+ e)))
  | (s1, Ok output) =>
      (s1, Ok (ou_success output
               && existsb (fun value => bool_decide (value = expected))
                    (dscl_attribute_values (from_utf8_lossy (ou_stdout output)) attr)))
  end.

Definition ignore_cmd (c : Cmd) : SM Sys CliError unit := attempt (exec_cmd c) ;; mret tt.

Definition ensure_record_attr (attr expected description : string) : SM Sys CliError unit :=
  matches ← service_record_attr_matches attr expected;
  if (matches : bool) then mret tt
  else ignore_cmd (DsclDeleteAttr attr) ;; run_cmd (DsclCreateAttr attr expected) description.

Definition set_service_user_attributes (gid : N) : SM Sys CliError unit :=
  ensure_record_attr "UserShell" "/usr/bin/false" "set shell" ;;
  ensure_record_attr "RealName" SERVICE_USER_REALNAME "set realname" ;;
  ensure_record_attr "PrimaryGroupID" (pretty gid) "set gid" ;;
  ensure_record_attr "NFSHomeDirectory" "/var/empty" "set home".

Definition service_gid : SM Sys CliError N := fun s =>
  match exec_cmd IdGroup s with
  | (s1, Err e) => (s1, Err (CliOther ("read " +:+ SERVICE_USER +:+ " gid: " +:+ e)))
  | (s1, Ok output) =>
      if negb (ou_success output)
      then (s1, Err (CliOther ("read " +:+ SERVICE_USER +:+ " gid failed: "
                               +:+ trim (from_utf8_lossy (ou_stderr output)))))
      else
        let stdout := trim (from_utf8_lossy (ou_stdout output)) in
        (s1, map_err (fun e => CliOther ("read " +:+ SERVICE_USER +:+ " gid returned malformed value "
                                         +:+ debug_str stdout +:+ ": " +:+ e)) (parse_u32 stdout))
  end.

(** The first of these identifiers nobody has. *)
Fixpoint first_available (uids : list N) : SM Sys CliError N := fun s =>
  match uids with
  | [] => (s, Err (CliOther "no available UID in range 400-499 for service user"))
  | uid :: rest =>
      match exec_cmd (DsclSearchUid uid) s with
      | (s1, Err e) => (s1, Err (CliOther ("dscl uid search: " +:+ e)))
      | (s1, Ok check) =>
          if blank (from_utf8_lossy (ou_stdout check)) then (s1, Ok uid) else first_available rest s1
      end
  end.

Definition find_available_uid : SM Sys CliError N := first_available (N.of_nat <$> seq 400 100).

Record ServiceUserInstall : Type := mkServiceUser {
  su_gid : N;
  su_created : bool;
}.

Definition service_user_exists : SM Sys CliError bool := fun s =>
  match exec_cmd DsclReadUser s with
  | (s1, Err e) => (s1, Err (CliOther ("dscl check: " +:+ e)))
  | (s1, Ok check) => (s1, Ok (ou_success check))
  end.

Definition create_service_user : SM Sys CliError ServiceUserInstall :=
  exists_already ← service_user_exists;
  if (exists_already : bool) then
    gid ← service_gid;
    set_service_user_attributes gid ;;
    mret (mkServiceUser gid false)
  else
    uid ← find_available_uid;
    run_cmd DsclCreateUser "create user record" ;;
    run_cmd (DsclCreateAttr "UniqueID" (pretty uid)) "set uid" ;;
    run_cmd (DsclCreateAttr "PrimaryGroupID" (pretty uid)) "set gid" ;;
    set_service_user_attributes uid ;;
    mret (mkServiceUser uid true).

(** ** The steps *)

Definition source_bin_dir : result string CliError :=
  let? exe := map_err (fun e => CliOther ("current_exe: " +:+ e)) current_exe in
  ok_or (path_parent exe) (CliOther "cannot determine source binary directory").

Definition hook_dylib_source_path (source_dir : string) : SM Inst CliError string :=
  let first := path_join source_dir DYLIB in
  let second := path_join source_dir CARGO_HOOK_DYLIB in
  here ← run_on (exists_path first);
  if (here : bool) then mret first
  else
    there ← run_on (exists_path second);
    if (there : bool) then mret second
    else fail ("source hook library not found: expected " +:+ DYLIB +:+ " or " +:+ CARGO_HOOK_DYLIB
               +:+ " in " +:+ source_dir).

Definition copy_installed (src dst : string) : SM Inst CliError unit :=
  record_file_replacement dst ;;
  io (copy src dst) (fun e => "copy " +:+ src +:+ " -> " +:+ dst +:+ ": " +:+ e).

Definition copy_binary (source_dir bin_name : string) : SM Inst CliError unit :=
  let src := path_join source_dir bin_name in
  found ← run_on (exists_path src);
  if negb found then fail ("source binary not found: " +:+ src)
  else copy_installed src (path_join BIN_DIR bin_name).

(** Ownership root:wheel, and a mode. *)
Definition own_by_root (path what : string) (mode : N) : SM Inst CliError unit :=
  run_on (run_cmd (Chown false RootWheel path) ("set " +:+ what +:+ " ownership")) ;;
  run_on (run_cmd (Chmod mode path) ("set " +:+ what +:+ " permissions")).

Definition own_bin_dir : SM Inst CliError unit :=
  run_on (run_cmd (Chown false RootWheel BIN_DIR) "set binary ownership") ;;
  run_on (run_cmd (Chmod 493 BIN_DIR) "set binary dir permissions").

Definition record_directory (path : string) : SM Inst CliError unit :=
  record_directory_created path ;;
  record_path_metadata path ;;
  io (create_dir_all path) (fun e => "create " +:+ path +:+ ": " +:+ e).

Definition dylib_dst : string := path_join BIN_DIR DYLIB.

Definition deploy_binaries : SM Inst CliError unit :=
  record_directory BIN_DIR ;;
  source_dir ← sm_lift source_bin_dir;
  mapM (copy_binary source_dir) INSTALLED_BINARIES ;;
  dylib_src ← hook_dylib_source_path source_dir;
  copy_installed dylib_src dylib_dst ;;
  own_bin_dir ;;
  mapM (fun b => own_by_root (path_join BIN_DIR b) "binary" 493) INSTALLED_BINARIES ;;
  there ← run_on (exists_path dylib_dst);
  if (there : bool) then own_by_root dylib_dst "dylib" 420 else mret tt.

Definition service_directory (path what : string) (service_gid : N) : SM Inst CliError unit :=
  record_directory path ;;
  run_on (run_cmd (Chown false (ServiceOwner service_gid) path) ("set " +:+ what +:+ " dir ownership")) ;;
  run_on (run_cmd (Chmod 457 path) ("set " +:+ what +:+ " dir permissions")).

Definition create_directories (service_gid : N) : SM Inst CliError unit :=
  service_directory STATE_DIR "state" service_gid ;;
  service_directory LOG_DIR "log" service_gid.

(** [enrollment_path] is the variable the unprivileged half hands over. *)
Definition enroll_hardware_signer_for_install (enrollment_path : option string)
  : SM Inst CliError HardwareSignerEnrollment :=
  match enrollment_path with
  | None => fail "run install-system without sudo so signer enrollment can happen before privilege escalation"
  | Some path =>
      s ← sm_get;
      match sy_fs (is_sys s) !! resolve (sy_fs (is_sys s)) path with
      | Some (NFile content _) =>
          sm_lift (map_err (fun e => CliOther ("decode Keychain enrollment: " +:+ e)) (json_enrollment content))
      | _ => fail ("read Keychain enrollment " +:+ path +:+ ": unreadable")
      end
  end.

(** [label.replace(['\t', '\n'], space)]. *)
Fixpoint one_line (s : string) : string :=
  match s with
  | EmptyString => EmptyString
  | String a s' => String (if bool_decide (a = TAB) || bool_decide (a = LF) then " "%char else a) (one_line s')
  end.

Definition tab : string := String TAB "".

Definition trusted_signer_manifest (enrollment : HardwareSignerEnrollment) : string :=
  "# stt-guard trusted OS-backed rule signers v1" +:+ lf
  +:+ he_public_key_sha256 enrollment +:+ tab +:+ he_signer_kind enrollment +:+ tab
  +:+ hex_lower (he_public_key_x963 enrollment) +:+ tab +:+ one_line (he_label enrollment) +:+ lf.

Definition write_trusted_signer_manifest (enrollment : HardwareSignerEnrollment) : SM Inst CliError unit :=
  let path := trusted_rule_signers_path in
  record_file_replacement path ;;
  meta ← run_on (attempt (lstat path));
  match mjoin meta with
  | Some (NDir _) => fail ("trusted signer manifest path is a directory: " +:+ path)
  | Some _ => io (remove_file path) (fun e => "remove existing " +:+ path +:+ ": " +:+ e)
  | None => mret tt
  end ;;
  io (create_new path 420) (fun e => "create " +:+ path +:+ ": " +:+ e) ;;
  io (write "write" path (trusted_signer_manifest enrollment) 420) (fun e => "write " +:+ path +:+ ": " +:+ e) ;;
  own_by_root path "trusted signer manifest" 420.

Context `{SqlEngine}.

Definition db_files : list string := db_path STATE_DIR :: sqlite_sidecar_paths (db_path STATE_DIR).

(** The store opened on its files, a statement run, and the files as the engine leaves
    them; the file of the database is given mode 0600. *)
Definition write_db (d : Db) : SM Sys string unit :=
  s ← sm_get;
  let '(main, wal, shm) := sqlite_files (sy_tick s) d in
  write_file (db_path STATE_DIR) main ;;
  update_fs (alter (set_mode 384) (db_path STATE_DIR)) ;;
  write_file (db_path STATE_DIR +:+ "-wal") wal ;;
  write_file (db_path STATE_DIR +:+ "-shm") shm.

Definition file_content (f : Fs) (p : string) : option string :=
  match f !! p with Some (NFile content _) => Some content | _ => None end.

Definition stored_tables (f : Fs) : Db :=
  sqlite_tables (file_content f (db_path STATE_DIR)) (file_content f (db_path STATE_DIR +:+ "-wal"))
    (file_content f (db_path STATE_DIR +:+ "-shm")).

Definition register_in_store (now : Z) (enrollment : HardwareSignerEnrollment) : SM Inst CliError unit :=
  s ← sm_get;
  let d := stored_tables (sy_fs (is_sys s)) in
  match open MacOs (db_path STATE_DIR) d with
  | Err e =>
      run_on (attempt (write_db d)) ;;
      fail ("open rule store for signer enrollment: " +:+ show_store_error e)
  | Ok store =>
      let '(store', r) := register_trusted_rule_signer_key store now (he_public_key_sha256 enrollment)
                            (he_signer_kind enrollment) (he_public_key_x963 enrollment) (he_label enrollment) in
      io (write_db (db store')) (fun e => "register trusted rule signer: " +:+ e) ;;
      sm_lift (map_err (fun e => CliOther ("register trusted rule signer: " +:+ show_store_error e)) r)
  end.

Definition register_rule_signer (now : Z) (enrollment : HardwareSignerEnrollment) (service_gid : N)
  : SM Inst CliError unit :=
  write_trusted_signer_manifest enrollment ;;
  record_sqlite_replacement (db_path STATE_DIR) ;;
  register_in_store now enrollment ;;
  run_on (run_cmd (Chown true (ServiceOwner service_gid) STATE_DIR) "set state dir ownership after signer enrollment").

Definition install_launchdaemon : SM Inst CliError unit :=
  record_file_replacement PLIST_PATH ;;
  io (write_file PLIST_PATH expected_launchdaemon_plist) (fun e => "write " +:+ PLIST_PATH +:+ ": " +:+ e) ;;
  own_by_root PLIST_PATH "plist" 420.

Definition start_daemon : SM Inst CliError unit :=
  run_on (ignore_cmd LaunchctlBootout) ;;
  run_on (run_cmd LaunchctlBootstrap "bootstrap LaunchDaemon") ;;
  push_action BootoutLaunchDaemon.

Definition install_steps (now : Z) (enrollment_path : option string) : SM Inst CliError unit :=
  service_user ← run_on create_service_user;
  record_service_user (su_created service_user) ;;
  deploy_binaries ;;
  create_directories (su_gid service_user) ;;
  enrollment ← enroll_hardware_signer_for_install enrollment_path;
  register_rule_signer now enrollment (su_gid service_user) ;;
  install_launchdaemon ;;
  start_daemon.

(** ** Beginning and ending a transaction *)

Definition launchdaemon_loaded {E} : SM Sys E bool := fun s =>
  match exec_cmd LaunchctlPrint s with
  | (s1, Ok output) => (s1, Ok (ou_success output))
  | (s1, Err _) => (s1, Ok false)
  end.

Fixpoint any_exists {E} (paths : list string) : SM Sys E bool :=
  match paths with
  | [] => mret false
  | path :: rest => here ← exists_path path; if (here : bool) then mret true else any_exists rest
  end.

Definition new_transaction : SM Sys CliError InstallTransaction :=
  stale ← exists_path rollback_dir;
  (if (stale : bool) then named (remove_dir_all rollback_dir) (fun e => "remove stale " +:+ rollback_dir +:+ ": " +:+ e)
   else mret tt) ;;
  named (create_dir rollback_dir) (fun e => "create " +:+ rollback_dir +:+ ": " +:+ e) ;;
  pre_existing ← any_exists [BIN_DIR; STATE_DIR; LOG_DIR; PLIST_PATH; trusted_rule_signers_path];
  loaded ← launchdaemon_loaded;
  mret (mkTransaction (if (loaded : bool) then [BootstrapLaunchDaemon] else []) rollback_dir pre_existing).

Definition to_text {A} (m : SM Sys CliError A) : SM Sys string A := fun s =>
  let '(s1, r) := m s in (s1, map_err show_cli_error r).

(** [PathMetadata::restore]. *)
Definition restore_metadata (m : PathMetadata) (path : string) : SM Sys string unit :=
  to_text (run_cmd (Chown false (Numeric (pm_uid m) (pm_gid m)) path) "restore owner") ;;
  to_text (run_cmd (Chmod (pm_mode m) path) "restore mode").

Definition named_text {A} (m : SM Sys string A) (name : string -> string) : SM Sys string A := fun s =>
  let '(s1, r) := m s in (s1, map_err name r).

Definition restore_file_from_backup (path backup : string) (m : PathMetadata) : SM Sys string unit :=
  current ← (fun s => let '(s1, r) := lstat path s in (s1, Ok match r with Ok n => n | Err _ => None end));
  match (current : option Node) with
  | Some (NLink _ _) | Some (NFile _ _) =>
      named_text (remove_file path) (fun e => "remove changed " +:+ path +:+ ": " +:+ e)
  | Some _ => sm_lift (Err ("cannot restore " +:+ path +:+ "; current path is not a file"))
  | None => mret tt
  end ;;
  named_text (copy backup path) (fun e => "restore " +:+ path +:+ " from backup " +:+ backup +:+ ": " +:+ e) ;;
  restore_metadata m path ;;
  named_text (remove_file backup) (fun e => "remove consumed backup " +:+ backup +:+ ": " +:+ e).

Definition remove_file_if_present (path : string) : SM Sys string unit :=
  metadata ← named_text (lstat path) (fun e => "inspect created file " +:+ path +:+ ": " +:+ e);
  match metadata with
  | Some (NLink _ _) | Some (NFile _ _) =>
      named_text (remove_file path) (fun e => "remove created file " +:+ path +:+ ": " +:+ e)
  | _ => mret tt
  end.

Definition remove_directory_if_empty (path : string) : SM Sys string unit :=
  named_text (remove_dir path) (fun e => "remove created directory " +:+ path +:+ ": " +:+ e) ;;
  mret tt.

(** [RollbackAction::rollback]. *)
Definition rollback_action (a : RollbackAction) : SM Sys string unit :=
  match a with
  | RemoveFileIfCreated path => remove_file_if_present path
  | RestoreFile path backup m => restore_file_from_backup path backup m
  | RemoveDirectoryIfCreated path => remove_directory_if_empty path
  | RestoreMetadata path m =>
      there ← exists_path path;
      if negb there then mret tt else restore_metadata m path
  | BootoutLaunchDaemon => to_text (ignore_cmd LaunchctlBootout)
  | BootstrapLaunchDaemon => to_text (run_cmd LaunchctlBootstrap "restore pre-existing LaunchDaemon")
  | RemoveServiceUser => to_text (run_cmd DsclDeleteUser "remove service user created by failed install")
  end.

Fixpoint rollback_all (actions : list RollbackAction) (s : Sys) : Sys * list string :=
  match actions with
  | [] => (s, [])
  | a :: rest =>
      let '(s1, r) := rollback_action a s in
      let '(s2, failures) := rollback_all rest s1 in
      (s2, match r with Ok _ => failures | Err e => e :: failures end)
  end.

(** The backups go even when they no longer serve; a failure counts when the
    directory is still there. *)
Definition remove_backups (dir : string) (s : Sys) : Sys * option string :=
  match remove_dir_all dir s with
  | (s1, Ok _) => (s1, None)
  | (s1, Err e) =>
      match exists_path (E := string) dir s1 with
      | (s2, Ok true) => (s2, Some ("remove " +:+ dir +:+ ": " +:+ e))
      | (s2, _) => (s2, None)
      end
  end.

Definition rollback (t : InstallTransaction) (s : Sys) : Sys * list string :=
  let '(s1, failures) := rollback_all (rollback_actions t) s in
  let '(s2, leftover) := remove_backups (backup_dir t) s1 in
  (s2, failures ++ match leftover with Some e => [e] | None => [] end).

(** [remove_backup_dir_after_success] only prints a failure. *)
Definition commit (t : InstallTransaction) (s : Sys) : Sys := (remove_backups (backup_dir t) s).1.

(** ** [run_install] as root *)

Inductive InstallOutcome : Type :=
| Installed
| Refused (e : CliError)
| RolledBack (cause : CliError) (failures : list string).

Definition error_suffix (failures : list string) : string :=
  match failures with
  | [] => "rollback completed"
  | _ => "rollback partially completed with " +:+ pretty (N.of_nat (length failures)) +:+ " failure(s): "
         +:+ join "; " failures
  end.

Definition outcome_result (o : InstallOutcome) : result unit CliError :=
  match o with
  | Installed => Ok tt
  | Refused e => Err e
  | RolledBack cause failures =>
      Err (CliOther ("system install failed: " +:+ show_cli_error cause +:+ "; " +:+ error_suffix failures))
  end.

Definition require_privileged_signer_handoff (enrollment_path : option string) : result unit CliError :=
  match enrollment_path with
  | None => Err (CliOther "run install-system without sudo; it will request privileges after enrolling the user signer")
  | Some _ => Ok tt
  end.

Definition install_as_root (now : Z) (enrollment_path : option string) (s : Sys) : Sys * InstallOutcome :=
  match require_privileged_signer_handoff enrollment_path with
  | Err e => (s, Refused e)
  | Ok _ =>
      match new_transaction s with
      | (s1, Err e) => (s1, Refused e)
      | (s1, Ok t) =>
          match install_steps now enrollment_path (mkInst s1 t) with
          | (i, Ok _) => (commit (is_tx i) (is_sys i), Installed)
          | (i, Err e) => let '(s2, failures) := rollback (is_tx i) (is_sys i) in (s2, RolledBack e failures)
          end
      end
  end.

End Installer.

(** ** [run_install]: the half of the user *)

(** What the unprivileged process meets: its own calls on the file system, the fresh
    name of its workspace, the encoder of enrollments, and [sudo], which may not start
    or not accept the user. *)
Class UserHalf : Type := {
  uh_sys : InstallEnv;
  workspace_dir : string;
  enrollment_json : HardwareSignerEnrollment -> result string string;
  sudo_error : option string;
  sudo_accepts : bool;
  failure_status : string;
}.

Definition INSTALL_KEYCHAIN_ENROLLMENT_ENV : string := "STT_GUARD_INSTALL_KEYCHAIN_ENROLLMENT".

Section Escalation.
Context `{IE : InstallerEnv, SF : SecurityFramework, SqlEngine, Crypto, UH : UserHalf}.

(** [fs::set_permissions]. *)
Definition set_permissions (path : string) (mode : N) : SM Sys string unit :=
  call (IS := uh_sys) "chmod" path (fun f =>
    let q := resolve f path in
    match f !! q with Some n => Ok (<[q := set_mode mode n]> f, tt) | None => Err not_found end).

(** [InstallWorkspace::create]; a workspace whose mode cannot be set stays. *)
Definition create_workspace : SM Sys CliError unit :=
  named (create_dir (IS := uh_sys) workspace_dir) (fun e => "create " +:+ workspace_dir +:+ ": " +:+ e) ;;
  named (set_permissions workspace_dir 448) (fun e => "chmod " +:+ workspace_dir +:+ ": " +:+ e).

Definition keychain_enrollment_path : string := path_join workspace_dir "keychain-enrollment.json".

(** The program [sudo] runs: this installer as root, told where the enrollment is. *)
Definition sudo_install (now : Z) : SM Sys CliError unit := fun s =>
  match sudo_error with
  | Some e => (s, Err (CliOther ("run privileged installer: " +:+ e)))
  | None =>
      let '(s1, ok) := if sudo_accepts
                       then let '(s1, outcome) := install_as_root now (Some keychain_enrollment_path) s in
                            (s1, match outcome with Installed => true | _ => false end)
                       else (s, false) in
      if ok then (s1, Ok tt)
      else (s1, Err (CliOther ("privileged installer failed with status " +:+ failure_status)))
  end.

(** What happens while the workspace exists. *)
Definition in_workspace (now : Z) (json : string) : SM Sys CliError unit :=
  named (write_file (IS := uh_sys) keychain_enrollment_path json)
    (fun e => "write " +:+ keychain_enrollment_path +:+ ": " +:+ e) ;;
  sm_lift (map_err (fun e => CliOther ("locate installer executable: " +:+ e)) current_exe) ;;
  sudo_install now.

Definition run_install_with_privilege_escalation (now : Z) (p : Proc) (s : Sys)
  : Proc * Sys * result unit CliError :=
  match enroll_keychain_signer_for_init p with
  | (p1, Err e) => (p1, s, Err e)
  | (p1, Ok enrollment) =>
      match enrollment_json enrollment with
      | Err e => (p1, s, Err (CliOther ("encode Keychain enrollment: " +:+ e)))
      | Ok json =>
          match create_workspace s with
          | (s1, Err e) => (p1, s1, Err e)
          | (s1, Ok _) =>
              let '(s2, r) := in_workspace now json s1 in
              (p1, (remove_dir_all (IS := uh_sys) workspace_dir s2).1, r)
          end
      end
  end.

Definition run_install (now : Z) (p : Proc) (s : Sys) : Proc * Sys * result unit CliError :=
  if negb (bool_decide (p_euid p = 0%N)) then run_install_with_privilege_escalation now p s
  else let '(s1, outcome) := install_as_root now (cli_var INSTALL_KEYCHAIN_ENROLLMENT_ENV) s in
       (p, s1, outcome_result outcome).

End Escalation.
