(* ===== verification/Rollback.v ===== *)
(** * Undoing a failed installation

    The contract of [InstallTransaction]: after a rollback that reports no failure the
    file system is what it was before the installation began, the directory of the
    backups is gone and the service runs if it ran.  The invariant says, path by path,
    what undoing the recorded actions would leave; every step of the installation
    keeps it because the path it changes was recorded first, and every action undone
    keeps it for the actions that remain. *)

From S2P Require Import Prelude RustStr RustUtf8 TrustedSigners Signature Paths RuleStore.
From S2P Require Import HardwareSigning InstallHealth InstallSys Install.

(** ** The specification *)

Definition dir_targets : list string := [BIN_DIR; STATE_DIR; LOG_DIR].

Definition file_targets : list string :=
  ((fun b => path_join BIN_DIR b) <$> INSTALLED_BINARIES)
  ++ [dylib_dst; trusted_rule_signers_path; PLIST_PATH] ++ db_files.

(** The directories [create_dir_all] may have to make on the way. *)
Definition scaffold : list string := mjoin (ancestors <$> dir_targets).

(** Equality of nodes up to the bits of the mode above the permissions. *)
Definition permissions (n : Node) : Node := set_mode (N.land (pm_mode (node_meta n)) 4095) n.
Definition alike (a b : option Node) : Prop := permissions <$> a = permissions <$> b.

(** A path is as it was; below the state directory its owner may be another, since the
    recursive change of ownership is not undone, and a directory on the way to an
    installed one may have been made. *)
Definition restored (p : string) (before after : option Node) : Prop :=
  alike before after
  \/ (below STATE_DIR p = true /\ exists uid gid, alike (set_owner uid gid <$> before) after)
  \/ (before = None /\ p ∈ scaffold /\ is_dir after = true).

(** ** What undoing the recorded actions would leave at a path *)

Definition backup_content (f : Fs) (b : string) : string :=
  match f !! b with Some (NFile c _) => c | _ => "" end.

Definition undo_step (bk : string -> string) (p : string) (a : RollbackAction) (n : option Node) : option Node :=
  match a with
  | RemoveFileIfCreated q | RemoveDirectoryIfCreated q => if bool_decide (q = p) then None else n
  | RestoreFile q b m => if bool_decide (q = p) then Some (NFile (bk b) m) else n
  | RestoreMetadata q m => if bool_decide (q = p) then (fun x => set_meta x m) <$> n else n
  | BootoutLaunchDaemon | BootstrapLaunchDaemon | RemoveServiceUser => n
  end.

Fixpoint undo (bk : string -> string) (p : string) (acts : list RollbackAction) (n : option Node) : option Node :=
  match acts with
  | [] => n
  | a :: rest => undo bk p rest (undo_step bk p a n)
  end.

(** ** Lemmas on nodes *)

#[export] Instance alike_equiv : Equivalence alike.
Proof. unfold alike. split; red; congruence. Qed.

Lemma permissions_set_meta (n : Node) (m : PathMetadata) :
  permissions (set_meta n m) = set_meta n (mkPathMetadata (pm_uid m) (pm_gid m) (N.land (pm_mode m) 4095)).
Proof. by destruct n. Qed.

Lemma set_meta_permissions (n : Node) (m : PathMetadata) : set_meta (permissions n) m = set_meta n m.
Proof. by destruct n. Qed.

Lemma permissions_set_owner (uid gid : N) (n : Node) : permissions (set_owner uid gid n) = set_owner uid gid (permissions n).
Proof. by destruct n. Qed.

Lemma set_owner_twice (u g u' g' : N) (n : Node) : set_owner u g (set_owner u' g' n) = set_owner u g n.
Proof. by destruct n. Qed.

Lemma alike_set_owner (uid gid : N) (a b : option Node) :
  alike a b -> alike (set_owner uid gid <$> a) (set_owner uid gid <$> b).
Proof.
  unfold alike. destruct a as [x|], b as [y|]; simpl; try done.
  rewrite !permissions_set_owner. congruence.
Qed.

Lemma alike_masked (n : Node) : alike (Some (set_meta n (from_metadata n))) (Some n).
Proof.
  unfold alike, from_metadata. simpl. f_equal. rewrite permissions_set_meta. simpl.
  rewrite <-N.land_assoc. by destruct n.
Qed.

Lemma undo_step_alike (bk : string -> string) (p : string) (a : RollbackAction) (n n' : option Node) :
  alike n n' -> alike (undo_step bk p a n) (undo_step bk p a n').
Proof.
  intros H. destruct a; simpl; repeat case_bool_decide; try done.
  unfold alike in *. destruct n as [x|], n' as [y|]; simpl in *; try done.
  simplify_eq. rewrite !permissions_set_meta.
  rewrite <-(set_meta_permissions x), <-(set_meta_permissions y). congruence.
Qed.

Lemma undo_alike (bk : string -> string) (p : string) (acts : list RollbackAction) (n n' : option Node) :
  alike n n' -> alike (undo bk p acts n) (undo bk p acts n').
Proof. revert n n'. induction acts; simpl; eauto using undo_step_alike. Qed.

Lemma restored_alike (p : string) (n0 n n' : option Node) : alike n n' -> restored p n0 n -> restored p n0 n'.
Proof.
  intros H [A|[(B & u & g & A)|(A & B & C)]]; [left; by etransitivity| |].
  - right; left. split; [done|]. exists u, g. by etransitivity.
  - right; right. split_and!; [done..|]. unfold alike in H.
    destruct n as [[]|], n' as [[]|]; done.
Qed.

Lemma restored_set_owner (p : string) (uid gid : N) (n0 n : option Node) :
  below STATE_DIR p = true -> restored p n0 n -> restored p n0 (set_owner uid gid <$> n).
Proof.
  intros Hb [A|[(_ & u & g & A)|(A & B & C)]].
  - right; left. split; [done|]. exists uid, gid. by apply alike_set_owner.
  - right; left. split; [done|]. exists uid, gid. apply (alike_set_owner uid gid) in A.
    rewrite <-A. destruct n0; simpl; [by rewrite set_owner_twice|done].
  - right; right. split_and!; [done..|]. by destruct n as [[]|].
Qed.

(** ** The directory of the backups *)

(** It is a path of its own, apart from what the installation changes. *)
Definition apart (d : string) : bool :=
  negb (is_empty d) && negb (ends_with d "/") && negb (below STATE_DIR d)
  && forallb (fun p => negb (bool_decide (p = d)) && negb (below d p)) (file_targets ++ dir_targets ++ scaffold).

Lemma below_app (d p : string) : below d p = true <-> exists r, p = d +:+ "/" +:+ r.
Proof.
  unfold below. rewrite starts_with_true. split; intros [r ->]; exists r; by rewrite app_assoc_str.
Qed.

Lemma prefix_comparable (u v x y : string) : u +:+ x = v +:+ y -> (exists r, u = v +:+ r) \/ exists r, v = u +:+ r.
Proof.
  revert v. induction u as [|a u IH]; intros v E.
  - right. exists v. done.
  - destruct v as [|b v]; [left; by exists (String a u)|].
    rewrite !app_cons_str in E. injection E as -> E.
    destruct (IH v E) as [[r ->]|[r ->]]; [left|right]; exists r; by rewrite app_cons_str.
Qed.

(** Nothing is below two directories of which neither is below the other. *)
Lemma below_both (d e p : string) : below d p = true -> below e p = true -> d = e \/ below d e = true \/ below e d = true.
Proof.
  rewrite !below_app. intros [r ->] [r' E].
  destruct (prefix_comparable d e _ _ E) as [[x ->]|[x ->]]; rewrite app_assoc_str in E;
    apply (inj (String.append _)) in E; destruct x as [|a x];
    rewrite ?app_nil_r_str; auto; rewrite app_cons_str in E; injection E as -> _;
    right; [right|left]; by exists x.
Qed.

Lemma apart_targets (d p : string) :
  apart d = true -> p ∈ file_targets \/ p ∈ dir_targets \/ p ∈ scaffold -> p <> d /\ below d p = false.
Proof.
  intros Hapart Hp. unfold apart in Hapart. bool_split.
  match goal with E : forallb _ _ = true |- _ => rewrite forallb_forall in E; specialize (E p) end.
  assert (Hin : In p (file_targets ++ dir_targets ++ scaffold)).
  { apply list_elem_of_In. rewrite !elem_of_app. done. }
  match goal with E : In _ _ -> _ |- _ => specialize (E Hin) end. bool_split. done.
Qed.

Section Rollback.
Context `{IE : InstallerEnv}.

Definition backup_path (n : nat) : string := path_join rollback_dir ("backup-" +:+ pretty (N.of_nat n)).

Definition aside (p : string) : Prop := p <> rollback_dir /\ below rollback_dir p = false.

Section Apart.
Context (Hapart : apart rollback_dir = true).

Lemma below_backup_path (n : nat) : below rollback_dir (backup_path n) = true.
Proof using Hapart.
  unfold apart in Hapart. bool_split. unfold backup_path, path_join. cbn [path_is_absolute].
  change (path_is_absolute ("backup-" +:+ _)) with false. simpl.
  repeat match goal with E : _ = false |- _ => rewrite E end.
  apply below_app. eauto.
Qed.

Lemma targets_aside (p : string) : p ∈ file_targets \/ p ∈ dir_targets \/ p ∈ scaffold -> aside p.
Proof using Hapart.
  intros Hp. by apply apart_targets.
Qed.

Lemma state_aside (p : string) : below STATE_DIR p = true -> aside p.
Proof using Hapart.
  intros Hp. assert (Hd : aside STATE_DIR) by (apply targets_aside; right; left; by_decide).
  pose proof Hapart as Hap. unfold apart in Hap. bool_split. destruct Hd as [Hne Hb].
  split; [intros ->; congruence|]. apply not_true_is_false. intros Hp'.
  destruct (below_both _ _ _ Hp Hp') as [|[]]; congruence.
Qed.

End Apart.

Lemma backup_path_inj : Inj (=) (=) backup_path.
Proof.
  intros n m. unfold backup_path, path_join. change (path_is_absolute ("backup-" +:+ _)) with false.
  case_match; [|case_match]; intros E; repeat apply (inj (String.append _)) in E; apply (inj pretty) in E; lia.
Qed.

(** ** The invariant *)

Definition plain (p : string) (n : option Node) : Prop :=
  (p ∈ file_targets -> plain_file n) /\ (p ∈ dir_targets -> plain_dir n).

Definition target (a : RollbackAction) : option string :=
  match a with
  | RemoveFileIfCreated p | RestoreFile p _ _ | RemoveDirectoryIfCreated p | RestoreMetadata p _ => Some p
  | BootoutLaunchDaemon | BootstrapLaunchDaemon | RemoveServiceUser => None
  end.

Definition recorded (acts : list RollbackAction) : list string := omap target acts.

(** An action above others. *)
Definition action_ok (f : Fs) (rest : list RollbackAction) (a : RollbackAction) : Prop :=
  match a with
  | RemoveFileIfCreated p => p ∈ file_targets
  | RestoreFile p b m =>
      p ∈ file_targets /\ b = backup_path (length rest) /\ exists c m', f !! b = Some (NFile c m')
  | RemoveDirectoryIfCreated p => p ∈ dir_targets /\ forall m, RestoreMetadata p m ∉ rest
  | RestoreMetadata p m => p ∈ dir_targets /\ is_dir (f !! p) = true
  | BootoutLaunchDaemon | BootstrapLaunchDaemon | RemoveServiceUser => True
  end.

Fixpoint acts_ok (f : Fs) (acts : list RollbackAction) : Prop :=
  match acts with
  | [] => True
  | a :: rest => action_ok f rest a /\ acts_ok f rest
  end.

Record Inv (f0 f : Fs) (acts : list RollbackAction) : Prop := mkInv {
  inv_root : is_dir (f !! rollback_dir) = true;
  inv_backups : forall p, below rollback_dir p = true -> plain_file (f !! p);
  inv_acts : acts_ok f acts;
  inv_plain : forall p, p ∈ recorded acts -> plain p (f !! p);
  inv_undo : forall p, aside p -> restored p (f0 !! p) (undo (backup_content f) p acts (f !! p));
}.

(** How a step changes the node at a path, given the paths recorded. *)
Definition moved (R : list string) (p : string) (n n' : option Node) : Prop :=
  n' = n
  \/ (p ∈ R /\ p ∈ file_targets /\ plain_file n')
  \/ (p ∈ R /\ p ∈ dir_targets /\ plain_dir n' /\ (is_dir n = true -> is_dir n' = true))
  \/ (below STATE_DIR p = true /\ exists uid gid, n' = set_owner uid gid <$> n)
  \/ (p ∈ scaffold /\ n = None /\ is_dir n' = true).

(** *** Facts about the paths, by evaluation *)

Lemma files_not_dirs (p : string) : p ∈ file_targets -> p ∈ dir_targets -> False.
Proof.
  intros Hf Hd. revert p Hf Hd. assert (E : Forall (fun p => p ∉ dir_targets) file_targets) by by_decide.
  intros p Hf. by eapply Forall_forall in E.
Qed.

Lemma scaffold_not_targets (p : string) : p ∈ scaffold -> p ∈ file_targets \/ p ∈ dir_targets -> False.
Proof.
  assert (E : Forall (fun p => p ∉ file_targets /\ p ∉ dir_targets) scaffold) by by_decide.
  intros Hs Ht. eapply Forall_forall in E; [|done]. naive_solver.
Qed.

Lemma acts_ok_target (f : Fs) (acts : list RollbackAction) (p : string) :
  acts_ok f acts -> p ∈ recorded acts -> p ∈ file_targets \/ p ∈ dir_targets.
Proof.
  induction acts as [|a acts IH]; simpl; [by intros _ ?%not_elem_of_nil|].
  intros [Ha Ho] Hp. destruct a; simpl in *; try (apply elem_of_cons in Hp as [->|Hp]); naive_solver.
Qed.

(** *** Changing what is undone *)

Lemma undo_ext (f f' : Fs) (p : string) (acts : list RollbackAction) (n : option Node) :
  acts_ok f acts -> (forall k, k < length acts -> f' !! backup_path k = f !! backup_path k) ->
  undo (backup_content f') p acts n = undo (backup_content f) p acts n.
Proof.
  intros Ho Hb. revert n. induction acts as [|a acts IH]; intros n; simpl; [done|].
  destruct Ho as [Ha Ho]. rewrite IH by (intros; try apply Hb; simpl; auto with lia). f_equal.
  destruct a; simpl; try done. destruct Ha as (_ & -> & _). unfold backup_content. by rewrite Hb by (simpl; lia).
Qed.

Lemma undo_other (bk : string -> string) (p : string) (acts : list RollbackAction) (n : option Node) :
  p ∉ recorded acts -> undo bk p acts n = n.
Proof.
  revert n. induction acts as [|a acts IH]; intros n Hp; simpl; [done|].
  destruct a; simpl in *; rewrite ?IH by set_solver; try done; case_bool_decide; set_solver.
Qed.

(** What is undone at a recorded path does not depend on the node that is there. *)
Lemma undo_recorded (bk : string -> string) (f : Fs) (p : string) (acts : list RollbackAction) (n n' : option Node) :
  acts_ok f acts -> p ∈ recorded acts ->
  p ∈ file_targets \/ (p ∈ dir_targets /\ (is_dir (f !! p) = true -> is_dir n = true /\ is_dir n' = true)) ->
  undo bk p acts n = undo bk p acts n'.
Proof.
  intros Ho Hp Hk. revert n n' Hk. induction acts as [|a acts IH]; intros n n' Hk; simpl;
    [by apply not_elem_of_nil in Hp|].
  destruct Ho as [Ha Ho].
  assert (Hskip : target a <> Some p -> undo_step bk p a n = n /\ undo_step bk p a n' = n' /\ p ∈ recorded acts).
  { clear IH Hk. intros Hne.
    destruct a; simpl in *; try (rewrite bool_decide_eq_false_2 by congruence; apply elem_of_cons in Hp);
      naive_solver. }
  destruct (decide (target a = Some p)) as [E|E].
  - destruct a; simpl in *; simplify_eq; rewrite bool_decide_eq_true_2 by done; try done.
    destruct Ha as [Hd Hn]. destruct Hk as [Hf|[_ Hk]]; [by destruct (files_not_dirs _ Hf Hd)|].
    destruct (Hk Hn) as [H1 H2]. by destruct n as [[]|], n' as [[]|].
  - destruct (Hskip E) as (-> & -> & Hr). by apply IH.
Qed.

Lemma acts_ok_ext (f f' : Fs) (acts : list RollbackAction) :
  (forall k, k < length acts -> f' !! backup_path k = f !! backup_path k) ->
  (forall p m, RestoreMetadata p m ∈ acts -> is_dir (f !! p) = true -> is_dir (f' !! p) = true) ->
  acts_ok f acts -> acts_ok f' acts.
Proof.
  intros Hb Hd. induction acts as [|a acts IH]; simpl; [done|]. intros [Ha Ho].
  split; [|apply IH; [intros; apply Hb; simpl; lia|intros; eapply Hd; [by apply list_elem_of_further|done]|done]].
  destruct a; simpl in *; try done.
  - destruct Ha as (? & -> & H). by rewrite Hb by lia.
  - destruct Ha. split; [done|]. eapply Hd; [apply list_elem_of_here|done].
Qed.

Lemma acts_ok_metadata (f : Fs) (acts : list RollbackAction) (p : string) (m : PathMetadata) :
  acts_ok f acts -> RestoreMetadata p m ∈ acts -> p ∈ dir_targets /\ is_dir (f !! p) = true.
Proof.
  induction acts as [|a acts IH]; simpl; [by intros _ ?%not_elem_of_nil|].
  intros [Ha Ho] [<-|?]%elem_of_cons; auto.
Qed.

Section Keeping.
Context (Hapart : apart rollback_dir = true).

Lemma moved_aside (R : list string) (p : string) (n n' : option Node) :
  moved R p n n' -> ~ aside p -> n' = n.
Proof using Hapart.
  intros [->|[(_ & H & _)|[(_ & H & _)|[(H & _)|(H & _)]]]] Ha; [done|..]; destruct Ha;
    auto using targets_aside, state_aside.
Qed.

Lemma moved_plain (R : list string) (p : string) (n n' : option Node) :
  moved R p n n' -> p ∈ file_targets \/ p ∈ dir_targets -> plain p n -> plain p n'.
Proof.
  intros Hm Ht [Hf Hd]. split; intros Hp; [specialize (Hf Hp)|specialize (Hd Hp)]; clear Ht.
  - destruct Hm as [->|[(_ & H & ?)|[(_ & H & _)|[(H & u & g & ->)|(H & _)]]]]; try done.
    + by destruct (files_not_dirs _ Hp H).
    + by destruct n as [[]|].
    + by destruct (scaffold_not_targets _ H (or_introl Hp)).
  - destruct Hm as [->|[(_ & H & ?)|[(_ & H & ? & _)|[(H & u & g & ->)|(H & _)]]]]; try done.
    + by destruct (files_not_dirs _ H Hp).
    + by destruct n as [[]|].
    + by destruct (scaffold_not_targets _ H (or_intror Hp)).
Qed.

Lemma moved_dir (R : list string) (p : string) (n n' : option Node) :
  moved R p n n' -> p ∈ dir_targets -> is_dir n = true -> is_dir n' = true.
Proof.
  intros [->|[(_ & H & ?)|[(_ & H & ? & ?)|[(H & u & g & ->)|(_ & _ & H)]]]] Hp Hn; auto.
  - by destruct (files_not_dirs _ H Hp).
  - by destruct n as [[]|].
Qed.

(** Changes to recorded paths, changes of ownership and new directories on the way. *)
Lemma inv_moved (f0 f f' : Fs) (acts : list RollbackAction) :
  Inv f0 f acts -> (forall p, moved (recorded acts) p (f !! p) (f' !! p)) -> Inv f0 f' acts.
Proof using Hapart.
  intros [Hroot Hback Hacts Hplain Hundo] Hm.
  assert (Hna : forall p, ~ aside p -> f' !! p = f !! p) by eauto using moved_aside.
  assert (Hk : forall k, f' !! backup_path k = f !! backup_path k).
  { intros k. apply Hna. intros [_ H]. rewrite below_backup_path in H; done. }
  assert (Hdir : forall p, p ∈ dir_targets -> is_dir (f !! p) = true -> is_dir (f' !! p) = true)
    by eauto using moved_dir.
  constructor.
  - rewrite Hna; [done|]. by intros [? _].
  - intros p Hp. rewrite Hna; [by apply Hback|]. intros [_ ?]. congruence.
  - apply (acts_ok_ext f); [done| |done]. intros p m Hp%(acts_ok_metadata f); naive_solver.
  - intros p Hp. eauto using moved_plain, acts_ok_target.
  - intros p Hp. specialize (Hundo p Hp). rewrite (undo_ext f) by done.
    destruct (Hm p) as [->|[(Hr & Hf & _)|[(Hr & Hd & _ & Hdd)|[(Hs & u & g & ->)|(Hs & E & Hd)]]]]; [done|..].
    + rewrite <-(undo_recorded _ f p acts (f !! p)); auto.
    + rewrite <-(undo_recorded _ f p acts (f !! p)); auto.
    + destruct (decide (p ∈ recorded acts)) as [Hr|Hr].
      * rewrite <-(undo_recorded _ f p acts (f !! p)); auto.
        destruct (acts_ok_target _ _ _ Hacts Hr) as [|Hd]; [auto|]. right. split; [done|].
        intros H. split; [done|]. by destruct (f !! p) as [[]|].
      * rewrite !undo_other in * by done. by apply restored_set_owner.
    + assert (Hr : p ∉ recorded acts) by (intros Hr; eauto using acts_ok_target, scaffold_not_targets).
      rewrite undo_other in * by done. rewrite E in Hundo.
      destruct Hundo as [A|[(_ & u & g & A)|(_ & _ & A)]]; [..|done].
      * right; right. split_and!; [|done..]. unfold alike in A. by destruct (f0 !! p).
      * right; right. split_and!; [|done..]. unfold alike in A. by destruct (f0 !! p).
Qed.

(** A backup yet to be recorded may change. *)
Lemma inv_next_backup (f0 f f' : Fs) (acts : list RollbackAction) :
  Inv f0 f acts -> (forall p, p <> backup_path (length acts) -> f' !! p = f !! p) ->
  plain_file (f' !! backup_path (length acts)) -> Inv f0 f' acts.
Proof using Hapart.
  intros [Hroot Hback Hacts Hplain Hundo] Ho Hb.
  assert (Hbelow : forall k, below rollback_dir (backup_path k) = true) by auto using below_backup_path.
  assert (Hk : forall k, k < length acts -> f' !! backup_path k = f !! backup_path k).
  { intros k Hk. apply Ho. intros E%backup_path_inj. lia. }
  assert (Hasd : forall p, aside p -> f' !! p = f !! p) by (intros p [_ Hp]; apply Ho; intros ->; by rewrite Hbelow in Hp).
  constructor.
  - destruct (decide (rollback_dir = backup_path (length acts))) as [E|]; [|by rewrite Ho].
    exfalso. specialize (Hbelow (length acts)). rewrite <-E in Hbelow. apply below_app in Hbelow as [r Hr].
    apply (f_equal String.length) in Hr. rewrite !length_app_str in Hr. simpl in Hr. lia.
  - intros p Hp. destruct (decide (p = backup_path (length acts))) as [->|]; [done|]. rewrite Ho by done. auto.
  - apply (acts_ok_ext f); [done| |done]. intros p m Hp%(acts_ok_metadata f); [|done].
    rewrite Hasd; [done|]. apply targets_aside; naive_solver.
  - intros p Hp. rewrite Hasd; [auto|]. apply targets_aside; [done|]. destruct (acts_ok_target _ _ _ Hacts Hp); auto.
  - intros p Hp. rewrite (undo_ext f) by done. rewrite Hasd by done. auto.
Qed.

End Keeping.

(** ** What the calls change *)

(** A call that changes the given files only, and leaves them files or absent. *)
Definition writes {E A} (R : list string) (m : SM Sys E A) : Prop := forall s,
  (forall p, p ∈ R -> plain_file (sy_fs s !! p)) ->
  let s' := (m s).1 in
  sy_loaded s' = sy_loaded s
  /\ (forall p, p ∉ R -> sy_fs s' !! p = sy_fs s !! p)
  /\ (forall p, p ∈ R -> plain_file (sy_fs s' !! p)).

(** A call that changes the metadata of a directory only. *)
Definition adjusts {E A} (p : string) (m : SM Sys E A) : Prop := forall s,
  plain_dir (sy_fs s !! p) ->
  let s' := (m s).1 in
  sy_loaded s' = sy_loaded s
  /\ (forall q, q <> p -> sy_fs s' !! q = sy_fs s !! q)
  /\ plain_dir (sy_fs s' !! p) /\ (is_dir (sy_fs s !! p) = true -> is_dir (sy_fs s' !! p) = true).

Lemma writes_mono {E A} (R R' : list string) (m : SM Sys E A) : R ⊆ R' -> writes R m -> writes R' m.
Proof.
  intros Hsub Hm s Hs. destruct (Hm s) as (Hl & Ho & Hp); [auto|]. split_and!; [done|set_solver|].
  intros p Hin. destruct (decide (p ∈ R)); [auto|]. rewrite Ho by done. auto.
Qed.

Lemma writes_ret {E A} (R : list string) (a : A) : writes R (mret a : SM Sys E A).
Proof. by intros s. Qed.

Lemma writes_get {E} (R : list string) : writes R (sm_get : SM Sys E Sys).
Proof. by intros s. Qed.

Lemma writes_lift {E A} (R : list string) (r : result A E) : writes R (sm_lift r).
Proof. by intros s. Qed.

Lemma writes_bind {E A B} (R : list string) (m : SM Sys E A) (k : A -> SM Sys E B) :
  writes R m -> (forall a, writes R (k a)) -> writes R (m ≫= k).
Proof.
  intros Hm Hk s Hs. rewrite sm_bind_eq. specialize (Hm s Hs). destruct (m s) as [s1 [a|e]]; [|done].
  destruct Hm as (L1 & O1 & P1). destruct (Hk a s1 P1) as (L2 & O2 & P2). cbn [fst] in *.
  split_and!; [congruence| |done]. intros p Hp. by rewrite O2, O1.
Qed.

Lemma writes_eq {E E' A A'} (R : list string) (m : SM Sys E A) (m' : SM Sys E' A') :
  (forall s, (m' s).1 = (m s).1) -> writes R m -> writes R m'.
Proof. intros Heq Hm s Hs. specialize (Hm s Hs). by rewrite Heq. Qed.

Lemma named_state {E A} (m : SM Sys E A) (name : E -> string) (s : Sys) : (named m name s).1 = (m s).1.
Proof. unfold named. by destruct (m s). Qed.

Lemma named_text_state {A} (m : SM Sys string A) (name : string -> string) (s : Sys) : (named_text m name s).1 = (m s).1.
Proof. unfold named_text. by destruct (m s). Qed.

Lemma to_text_state {A} (m : SM Sys CliError A) (s : Sys) : (to_text m s).1 = (m s).1.
Proof. unfold to_text. by destruct (m s). Qed.

Lemma attempt_state {A} (m : SM Sys string A) (s : Sys) : (attempt m s).1 = (m s).1.
Proof. unfold attempt. by destruct (m s). Qed.

Lemma run_cmd_state (c : Cmd) (d : string) (s : Sys) : (run_cmd c d s).1 = (exec_cmd c s).1.
Proof. unfold run_cmd. destruct (exec_cmd c s) as [? []]; [|done]. by case_match. Qed.

(** *** Single calls *)

Lemma call_writes {A} (R : list string) (name path : string) (m : Fs -> result (Fs * A) string) :
  (forall f f' a, (forall p, p ∈ R -> plain_file (f !! p)) -> m f = Ok (f', a) ->
     (forall p, p ∉ R -> f' !! p = f !! p) /\ forall p, p ∈ R -> plain_file (f' !! p)) ->
  writes R (call name path m).
Proof.
  intros Hm s Hs. unfold call. case_match; [done|]. destruct (m (sy_fs s)) as [[f' a]|e] eqn:E; [|done].
  by destruct (Hm _ _ _ Hs E).
Qed.

Lemma lstat_writes (R : list string) (p : string) : writes R (lstat p).
Proof. apply call_writes. intros f f' a Hf [= <- <-]. auto. Qed.

Lemma exists_writes {E} (R : list string) (p : string) : writes R (exists_path (E := E) p).
Proof. by intros s. Qed.

Lemma write_writes (name p content : string) (mode : N) : writes [p] (write name p content mode).
Proof.
  intros s Hs. assert (Hp : plain_file (sy_fs s !! p)) by (apply Hs; set_solver).
  unfold write. case_match; cbn [fst].
  - case_match; [|done]. destruct (put _ _ _ _) as [f'|] eqn:E; [|done].
    destruct (put_file _ _ _ _ _ Hp E) as [Ho [m Hm]]. cbn. split_and!; [done|set_solver|].
    intros q ->%list_elem_of_singleton. by rewrite Hm.
  - destruct (put _ _ _ _) as [f'|] eqn:E; [|done].
    destruct (put_file _ _ _ _ _ Hp E) as [Ho [m Hm]]. cbn. split_and!; [done|set_solver|].
    intros q ->%list_elem_of_singleton. by rewrite Hm.
Qed.

Lemma copy_writes (src dst : string) : writes [dst] (copy src dst).
Proof.
  intros s Hs. unfold copy. case_match; [|done]. case_match; [|done..]. cbv zeta.
  pose proof (write_writes "copy" dst (if bool_decide (resolve (sy_fs s) src = resolve (sy_fs s) dst) then "" else content)
                (pm_mode m) s Hs) as Hw.
  destruct (write _ _ _ _ s) as [s1 [[]|]]; [|done]. cbn [fst] in *. destruct Hw as (L & O & P).
  assert (Hd : plain_file (sy_fs s1 !! dst)) by (apply P; set_solver).
  rewrite resolve_plain by auto. split_and!; [done|..]; intros p Hp; cbn.
  - rewrite lookup_alter_ne by set_solver. auto.
  - apply list_elem_of_singleton in Hp as ->. rewrite lookup_alter_eq. by destruct (sy_fs s1 !! dst) as [[]|].
Qed.

Lemma remove_file_writes (p : string) : writes [p] (remove_file p).
Proof.
  apply call_writes. intros f f' a Hf. case_match; [|done]. case_match; intros; simplify_eq;
    (split; [intros; rewrite lookup_delete_ne by set_solver; done|]);
    intros q ->%list_elem_of_singleton; by rewrite lookup_delete_eq.
Qed.

Lemma create_new_writes (p : string) (mode : N) : writes [p] (create_new p mode).
Proof.
  apply call_writes. intros f f' a Hf. case_match; [done|]. case_match; [|done]. intros; simplify_eq.
  split; [intros; rewrite lookup_insert_ne by set_solver; done|].
  intros q ->%list_elem_of_singleton. by rewrite lookup_insert_eq.
Qed.

Lemma update_mode_writes (p : string) (mode : N) : writes [p] (update_fs (alter (set_mode mode) p)).
Proof.
  intros s Hs. split_and!; [done|..]; intros q Hq; cbn.
  - rewrite lookup_alter_ne by set_solver. done.
  - apply list_elem_of_singleton in Hq as ->. rewrite lookup_alter_eq.
    specialize (Hs p). destruct (sy_fs s !! p) as [[]|]; set_solver.
Qed.

(** Programs that change no file and leave the service alone. *)
Definition quiet (c : Cmd) : bool :=
  match c with
  | Chown _ _ _ | Chmod _ _ | LaunchctlBootstrap | LaunchctlBootout => false
  | _ => true
  end.

Lemma quiet_effect (c : Cmd) (s s' : Sys) :
  quiet c = true -> cmd_effect c s = Some s' -> sy_fs s' = sy_fs s /\ sy_loaded s' = sy_loaded s.
Proof.
  destruct c; try done; intros _; simpl; unfold mbind, option_bind; intros H;
    repeat case_match; simplify_eq/=; done.
Qed.

Lemma quiet_writes (R : list string) (c : Cmd) : quiet c = true -> writes R (exec_cmd c).
Proof.
  intros Hq s Hs. unfold exec_cmd. case_match; [case_match; [done|]|].
  - by destruct c.
  - destruct (cmd_effect c (next s)) as [s2|] eqn:E; [|done].
    destruct (quiet_effect _ _ _ Hq E) as [Ef El]. cbn. rewrite Ef, El. done.
Qed.

(** [chown] and [chmod] of one path change the node there, if they change anything. *)
Lemma chmeta_exec (c : Cmd) (p : string) (s : Sys) :
  (exists o, c = Chown false o p) \/ (exists mode, c = Chmod mode p) ->
  resolve (sy_fs s) p = p ->
  sy_loaded (exec_cmd c s).1 = sy_loaded s
  /\ (sy_fs (exec_cmd c s).1 = sy_fs s
      \/ exists n m, sy_fs s !! p = Some n /\ sy_fs (exec_cmd c s).1 = <[p := set_meta n m]> (sy_fs s)).
Proof.
  intros Hc Hres. unfold exec_cmd. case_match; [case_match; [auto|]|].
  - destruct Hc as [[o ->]|[mode ->]]; auto.
  - destruct (cmd_effect c (next s)) as [s2|] eqn:E; [|auto]. cbn [fst].
    destruct Hc as [[o ->]|[mode ->]]; simpl in E; rewrite Hres in E.
    + destruct (owner_ids (next s) o) as [[u g]|]; [|done]. simpl in E.
      destruct (sy_fs s !! p) as [n|] eqn:En; [|done]. simpl in E. simplify_eq/=. split; [done|]. right.
      by exists n, (mkPathMetadata u g (pm_mode (node_meta n))).
    + destruct (sy_fs s !! p) as [n|] eqn:En; [|done]. simpl in E. simplify_eq/=. split; [done|]. right.
      by exists n, (mkPathMetadata (pm_uid (node_meta n)) (pm_gid (node_meta n)) mode).
Qed.

Lemma chmeta_writes (c : Cmd) (p : string) :
  (exists o, c = Chown false o p) \/ (exists mode, c = Chmod mode p) -> writes [p] (exec_cmd c).
Proof.
  intros Hc s Hs. assert (Hp : plain_file (sy_fs s !! p)) by (apply Hs; set_solver).
  destruct (chmeta_exec c p s Hc (resolve_plain _ _ (or_introl Hp))) as [HL [Hf|(n & m & En & Hf)]];
    cbv zeta; rewrite HL, Hf; split_and!; try done.
  - intros q Hq. rewrite lookup_insert_ne by set_solver. done.
  - intros q ->%list_elem_of_singleton. rewrite lookup_insert_eq. rewrite En in Hp. by destruct n.
Qed.

Lemma chmeta_adjusts (c : Cmd) (p : string) :
  (exists o, c = Chown false o p) \/ (exists mode, c = Chmod mode p) -> adjusts p (exec_cmd c).
Proof.
  intros Hc s Hp.
  destruct (chmeta_exec c p s Hc (resolve_plain _ _ (or_intror Hp))) as [HL [Hf|(n & m & En & Hf)]];
    cbv zeta; rewrite HL, Hf; split_and!; try done.
  - intros q Hq. by rewrite lookup_insert_ne.
  - rewrite lookup_insert_eq. rewrite En in Hp. by destruct n.
  - rewrite lookup_insert_eq, En. by destruct n.
Qed.

Lemma lstat_spec (p : string) (s : Sys) : exists r, lstat p s = (next s, r) /\ (r = Ok (sy_fs s !! p) \/ exists e, r = Err e).
Proof. unfold lstat, call. case_match; eexists; (split; [done|]); eauto. Qed.

Lemma io_lstat (p : string) (name : string -> string) (i : Inst) :
  exists r, io (lstat p) name i = (mkInst (next (is_sys i)) (is_tx i), r)
    /\ (r = Ok (sy_fs (is_sys i) !! p) \/ exists e, r = Err e).
Proof.
  unfold io, run_on, named. destruct (lstat_spec p (is_sys i)) as (r & -> & [->|[e ->]]); eexists; (split; [done|]);
    simpl; eauto.
Qed.

Lemma make_dirs_moved (ds : list string) (f f' : Fs) : make_dirs ds f = Ok f' ->
  forall p, f' !! p = f !! p \/ (p ∈ ds /\ f !! p = None /\ is_dir (f' !! p) = true).
Proof.
  revert f. induction ds as [|d ds IH]; intros f; simpl.
  - intros [= <-]. auto.
  - destruct (f !! resolve f d) as [[]|] eqn:E; try done.
    + intros Hm p. destruct (IH _ Hm p) as [|(? & ? & ?)]; set_solver.
    + case_bool_decide as Hn; [|done]. intros Hm p. destruct (IH _ Hm p) as [Hp|(Hin & Hp & Hd)].
      * destruct (decide (p = d)) as [->|]; [|left; by rewrite Hp, lookup_insert_ne].
        right. rewrite Hp, lookup_insert_eq. set_solver.
      * apply lookup_insert_None in Hp as [? ?]. set_solver.
Qed.

Lemma copy_backup (path b : string) (s s1 : Sys) (c : string) (m : PathMetadata) (u : unit) :
  sy_fs s !! path = Some (NFile c m) -> plain_file (sy_fs s !! b) -> path <> b -> copy path b s = (s1, Ok u) ->
  (exists m', sy_fs s1 !! b = Some (NFile c m')) /\ (forall q, q <> b -> sy_fs s1 !! q = sy_fs s !! q)
  /\ sy_loaded s1 = sy_loaded s.
Proof.
  intros Hp Hb Hne. unfold copy. rewrite (resolve_plain _ path), Hp by (rewrite Hp; by left).
  rewrite (resolve_plain _ b), bool_decide_eq_false_2 by auto. cbv zeta.
  unfold write. destruct (io_fault _ _ _); [done|].
  destruct (put (sy_fs s) b c (pm_mode m)) as [f'|] eqn:E; [|done].
  destruct (put_file _ _ _ _ _ Hb E) as [Ho [m' Hm]].
  cbn [with_fs sy_fs]. intros [= <-]. cbn [with_fs sy_fs sy_loaded next].
  rewrite (resolve_plain _ b) by (rewrite Hm; by left). split_and!; [|intros q Hq; rewrite lookup_alter_ne by done; auto|done].
  rewrite lookup_alter_eq, Hm. simpl. eauto.
Qed.

(** ** The steps of an installation keep the invariant *)

(** The service manager says whether the service runs, and can stop it. *)
Definition service_answers : Prop := forall t, cmd_fault t LaunchctlPrint = None /\ cmd_fault t LaunchctlBootout = None.

(** Undone, the service runs as before. *)
Definition service_kept (loaded0 : bool) (acts : list RollbackAction) (loaded : bool) : Prop :=
  service_answers ->
  if loaded0 then last acts = Some BootstrapLaunchDaemon
  else BootstrapLaunchDaemon ∉ acts /\ (loaded = true -> BootoutLaunchDaemon ∈ acts).

Definition undoable (f0 : Fs) (loaded0 : bool) (i : Inst) : Prop :=
  Inv f0 (sy_fs (is_sys i)) (rollback_actions (is_tx i)) /\ backup_dir (is_tx i) = rollback_dir
  /\ service_kept loaded0 (rollback_actions (is_tx i)) (sy_loaded (is_sys i)).

Definition recorded_in (i : Inst) : list string := recorded (rollback_actions (is_tx i)).

Section Steps.
Context (Hapart : apart rollback_dir = true) (f0 : Fs) (loaded0 : bool).

(** A step that needs some paths recorded, keeps what is recorded, and has recorded
    others when it succeeds. *)
Definition step_ok {A} (need : list string) (m : SM Inst CliError A) (gain : list string) : Prop := forall i,
  undoable f0 loaded0 i -> need ⊆ recorded_in i ->
  let '(i', r) := m i in
  undoable f0 loaded0 i' /\ recorded_in i ⊆ recorded_in i'
  /\ match r with Ok _ => gain ⊆ recorded_in i' | Err _ => True end.

Lemma step_bind {A B} (need g1 g2 : list string) (m : SM Inst CliError A) (k : A -> SM Inst CliError B) :
  step_ok need m g1 -> (forall a, step_ok (g1 ++ need) (k a) g2) -> step_ok need (m ≫= k) g2.
Proof.
  intros Hm Hk i Hi Hn. rewrite sm_bind_eq. specialize (Hm i Hi Hn). destruct (m i) as [i1 [a|e]]; [|done].
  destruct Hm as (H1 & S1 & G1). specialize (Hk a i1 H1). destruct (k a i1) as [i2 r].
  destruct Hk as (H2 & S2 & G2); [set_solver|]. split_and!; [done|set_solver|done].
Qed.

Lemma step_mono {A} (need need' gain gain' : list string) (m : SM Inst CliError A) :
  step_ok need m gain -> need ⊆ need' -> gain' ⊆ gain ++ need' -> step_ok need' m gain'.
Proof.
  intros Hm Hn Hg i Hi Hi'. specialize (Hm i Hi). destruct (m i) as [i' r].
  destruct Hm as (H & S & G); [set_solver|]. split_and!; [done..|]. destruct r; set_solver.
Qed.

Lemma step_ret {A} (need : list string) (a : A) : step_ok need (mret a) need.
Proof. by intros i. Qed.

Lemma step_lift {A} (need : list string) (r : result A CliError) : step_ok need (sm_lift r) need.
Proof. intros i. by destruct r. Qed.

Lemma step_fail {A} (need gain : list string) (msg : string) : step_ok need (fail msg : SM Inst CliError A) gain.
Proof. by intros i. Qed.

Lemma step_get (need : list string) : step_ok need sm_get need.
Proof. by intros i. Qed.

Lemma step_mapM {X A} (need : list string) (f : X -> SM Inst CliError A) (g : X -> list string) (xs : list X) :
  (forall x, x ∈ xs -> step_ok need (f x) (g x)) -> step_ok need (mapM f xs) (need ++ mjoin (g <$> xs)).
Proof.
  induction xs as [|x xs IH]; intros Hf.
  - eapply step_mono; [apply step_ret|done|set_solver].
  - change (mapM f (x :: xs)) with (f x ≫= fun y => mapM f xs ≫= fun k => mret (y :: k)).
    eapply step_bind; [apply Hf; set_solver|]. intros y. eapply (step_bind _ (need ++ mjoin (g <$> xs))).
    + eapply step_mono; [apply IH|..]; set_solver.
    + intros k. eapply step_mono; [apply step_ret|set_solver..].
Qed.

(** *** Steps on the system *)

Lemma step_sys {A} (need : list string) (m : SM Sys CliError A) :
  (forall s, (forall p, p ∈ need -> plain p (sy_fs s !! p)) ->
     sy_loaded (m s).1 = sy_loaded s /\ forall R p, need ⊆ R -> moved R p (sy_fs s !! p) (sy_fs (m s).1 !! p)) ->
  step_ok need (run_on m) need.
Proof using Hapart.
  intros Hm [sys t] (Hinv & Hd & Hs) Hn. unfold run_on. simpl in *.
  destruct (Hm sys) as [HL HM].
  { intros p Hp. apply (inv_plain _ _ _ Hinv). by apply Hn. }
  destruct (m sys) as [sys' r]. simpl in *. unfold undoable, recorded_in in *. simpl in *.
  split_and!; [|done|by rewrite HL|done|by destruct r].
  apply (inv_moved Hapart _ (sy_fs sys)); [done|]. intros p. by apply HM.
Qed.

Lemma step_writes {A} (R : list string) (m : SM Sys CliError A) :
  R ⊆ file_targets -> writes R m -> step_ok R (run_on m) R.
Proof using Hapart.
  intros HR Hm. apply step_sys. intros s Hs. destruct (Hm s) as (L & O & P).
  { intros p Hp. apply Hs; [done|]. by apply HR. }
  split; [done|]. intros R' p Hsub. destruct (decide (p ∈ R)) as [Hp|Hp].
  - right; left. split_and!; auto.
  - left. by apply O.
Qed.

Lemma step_adjusts {A} (p : string) (m : SM Sys CliError A) :
  p ∈ dir_targets -> adjusts p m -> step_ok [p] (run_on m) [p].
Proof using Hapart.
  intros Hp Hm. apply step_sys. intros s Hs. destruct (Hm s) as (L & O & P & D).
  { apply Hs; [set_solver|done]. }
  split; [done|]. intros R q Hsub. destruct (decide (q = p)) as [->|Hq].
  - right; right; left. split_and!; auto. set_solver.
  - left. by apply O.
Qed.

Lemma step_io_writes {A} (R : list string) (m : SM Sys string A) (name : string -> string) :
  R ⊆ file_targets -> writes R m -> step_ok R (io m name) R.
Proof using Hapart. intros. apply step_writes; [done|]. eapply writes_eq; [apply named_state|done]. Qed.

Lemma step_quiet {A} (need : list string) (m : SM Sys CliError A) : writes [] m -> step_ok need (run_on m) need.
Proof using Hapart.
  intros Hm. eapply step_mono; [apply (step_writes []); [set_solver|done]|set_solver..].
Qed.

Lemma own_file_ok (p what : string) (mode : N) : p ∈ file_targets -> step_ok [p] (own_by_root p what mode) [p].
Proof using Hapart.
  intros Hp. assert (HR : [p] ⊆ file_targets) by set_solver.
  eapply step_bind.
  - apply step_writes; [done|]. eapply writes_eq; [apply run_cmd_state|]. apply chmeta_writes. eauto.
  - intros _. eapply step_mono; [apply step_writes; [exact HR|]|set_solver..].
    eapply writes_eq; [apply run_cmd_state|]. apply chmeta_writes. eauto.
Qed.

Lemma own_dir_ok (p what what' : string) (o : Owner) (mode : N) : p ∈ dir_targets ->
  step_ok [p] (run_on (run_cmd (Chown false o p) what) ;; run_on (run_cmd (Chmod mode p) what')) [p].
Proof using Hapart.
  intros Hp. assert (Hrun : forall c d, (exists o, c = Chown false o p) \/ (exists mode, c = Chmod mode p) ->
                        step_ok [p] (run_on (run_cmd c d)) [p]).
  { intros c d Hc. apply step_adjusts; [done|]. intros s Hs. rewrite run_cmd_state. by apply chmeta_adjusts. }
  eapply step_bind; [apply Hrun; eauto|]. intros _. eapply step_mono; [apply Hrun; eauto|set_solver..].
Qed.

(** *** Recording *)

Lemma inv_push (f : Fs) (a : RollbackAction) (acts : list RollbackAction) :
  Inv f0 f acts -> action_ok f acts a -> (forall p, target a = Some p -> plain p (f !! p)) ->
  (forall p, alike (undo_step (backup_content f) p a (f !! p)) (f !! p)) -> Inv f0 f (a :: acts).
Proof.
  intros [Hroot Hb Ha Hp Hu] Hok Hpl Hal. constructor; try done.
  - intros p. unfold recorded. simpl. destruct (target a) as [q|]; [|apply Hp].
    rewrite elem_of_cons. intros [->|?]; [by apply Hpl|by apply Hp].
  - intros p Hasd. simpl. eapply restored_alike; [|by apply Hu]. apply undo_alike. by rewrite Hal.
Qed.

Lemma undoable_push (i : Inst) (a : RollbackAction) :
  undoable f0 loaded0 i -> a <> BootstrapLaunchDaemon ->
  action_ok (sy_fs (is_sys i)) (rollback_actions (is_tx i)) a ->
  (forall p, target a = Some p -> plain p (sy_fs (is_sys i) !! p)) ->
  (forall p, alike (undo_step (backup_content (sy_fs (is_sys i))) p a (sy_fs (is_sys i) !! p)) (sy_fs (is_sys i) !! p)) ->
  let '(i', r) := push_action a i in
  undoable f0 loaded0 i' /\ recorded_in i ⊆ recorded_in i' /\ from_option (fun p => p ∈ recorded_in i') True (target a).
Proof.
  intros (Hinv & Hd & Hs) Hne Hok Hpl Hal. unfold push_action, undoable, recorded_in. simpl.
  split_and!; [by apply inv_push|done|..].
  - intros Hans. specialize (Hs Hans). destruct loaded0.
    + destruct (rollback_actions (is_tx i)); [done|]. by rewrite last_cons_cons.
    + destruct Hs as [H1 H2]. split; [set_solver|]. intros HL. specialize (H2 HL). set_solver.
  - unfold recorded. simpl. destruct (target a); set_solver.
  - unfold recorded. simpl. destruct (target a); simpl; [apply elem_of_cons; auto|done].
Qed.

Lemma step_push (a : RollbackAction) (i : Inst) (p : string) :
  undoable f0 loaded0 i -> target a = Some p ->
  action_ok (sy_fs (is_sys i)) (rollback_actions (is_tx i)) a ->
  plain p (sy_fs (is_sys i) !! p) ->
  alike (undo_step (backup_content (sy_fs (is_sys i))) p a (sy_fs (is_sys i) !! p)) (sy_fs (is_sys i) !! p) ->
  let '(i', r) := push_action a i in
  undoable f0 loaded0 i' /\ recorded_in i ⊆ recorded_in i' /\ p ∈ recorded_in i'.
Proof.
  intros Hi Ht Hok Hpl Hal. pose proof (undoable_push i a Hi) as H. rewrite Ht in H. apply H; [|done| |].
  - by intros ->.
  - by intros q [= ->].
  - intros q. destruct (decide (q = p)) as [->|Hq]; [done|].
    destruct a; simplify_eq/=; rewrite ?bool_decide_eq_false_2 by congruence; reflexivity.
Qed.

Lemma plain_none (p : string) : plain p None.
Proof. done. Qed.

Lemma undoable_next (i : Inst) : undoable f0 loaded0 i -> undoable f0 loaded0 (mkInst (next (is_sys i)) (is_tx i)).
Proof. done. Qed.

(** Then the directory is there, or its removal is recorded. *)
Definition there_or_recorded (p : string) (i : Inst) : Prop :=
  is_dir (sy_fs (is_sys i) !! p) = true \/ (sy_fs (is_sys i) !! p = None /\ p ∈ recorded_in i).

Lemma directory_created_ok (p : string) (i i' : Inst) (r : result unit CliError) : p ∈ dir_targets ->
  undoable f0 loaded0 i -> record_directory_created p i = (i', r) ->
  undoable f0 loaded0 i' /\ recorded_in i ⊆ recorded_in i'
  /\ match r with Ok _ => there_or_recorded p i' | Err _ => True end.
Proof.
  intros Hp Hi. unfold record_directory_created. rewrite sm_bind_eq.
  destruct (io_lstat p (fun e => "inspect " +:+ p +:+ " before install: " +:+ e) i) as (r' & -> & [->|[e ->]]);
    [|by intros [= <- <-]].
  destruct (sy_fs (is_sys i) !! p) as [[]|] eqn:E; try by intros [= <- <-].
  - intros [= <- <-]. split_and!; [done..|]. left. simpl. by rewrite E.
  - pose proof (step_push (RemoveDirectoryIfCreated p) (mkInst (next (is_sys i)) (is_tx i)) p) as H.
    simpl in H. rewrite bool_decide_eq_true_2, E in H by done.
    destruct H as (H1 & H2 & H3); [done|done| |done..|].
    { split; [done|]. intros m Hm. destruct Hi as (Hinv & _).
      destruct (acts_ok_metadata _ _ _ _ (inv_acts _ _ _ Hinv) Hm) as [_ Hd]. by rewrite E in Hd. }
    intros [= <- <-]. split_and!; [done..|]. right. done.
Qed.

Lemma path_metadata_ok (p : string) (i i' : Inst) (r : result unit CliError) : p ∈ dir_targets ->
  undoable f0 loaded0 i -> there_or_recorded p i -> record_path_metadata p i = (i', r) ->
  undoable f0 loaded0 i' /\ recorded_in i ⊆ recorded_in i'
  /\ match r with Ok _ => p ∈ recorded_in i' | Err _ => True end.
Proof.
  intros Hp Hi Ht. unfold record_path_metadata. rewrite sm_bind_eq.
  destruct (io_lstat p (fun e => "inspect " +:+ p +:+ " metadata before install: " +:+ e) i) as (r' & -> & [->|[e ->]]);
    [|by intros [= <- <-]].
  destruct (sy_fs (is_sys i) !! p) as [n|] eqn:E.
  - assert (Hd : exists m, n = NDir m).
    { destruct Ht as [Ht|[Ht _]]; rewrite E in Ht; [|done]. destruct n; try done. eauto. }
    destruct Hd as [m ->].
    pose proof (step_push (RestoreMetadata p (from_metadata (NDir m))) (mkInst (next (is_sys i)) (is_tx i)) p) as H.
    simpl in H. rewrite bool_decide_eq_true_2, E in H by done.
    destruct H as (H1 & H2 & H3); [done..| | |].
    { split; intros; [by destruct (files_not_dirs p)|done]. }
    { apply (alike_masked (NDir m)). }
    intros [= <- <-]. split_and!; done.
  - intros [= <- <-]. split_and!; [done..|]. destruct Ht as [Ht|[_ Ht]]; [by rewrite E in Ht|done].
Qed.

Lemma create_dir_all_ok (p : string) (name : string -> string) : p ∈ dir_targets ->
  step_ok [p] (io (create_dir_all p) name) [p].
Proof using Hapart.
  intros Hp. unfold io. apply step_sys. intros s Hs. rewrite named_state. unfold create_dir_all, call.
  case_match; [split; [done|]; by left|].
  destruct (make_dirs (ancestors p ++ [p]) (sy_fs s)) as [f'|e] eqn:E; [|split; [done|]; by left].
  split; [done|]. intros R q Hsub. cbn. destruct (make_dirs_moved _ _ _ E q) as [->|(Hin & En & Hd)]; [by left|].
  apply elem_of_app in Hin as [Hin|Hin].
  - do 4 right. split_and!; [|done..]. apply list_elem_of_join. exists (ancestors p). split; [done|].
    apply list_elem_of_fmap. eauto.
  - apply list_elem_of_singleton in Hin as ->. right; right; left. rewrite En.
    split_and!; [by apply Hsub, list_elem_of_here|done| |done]. by destruct (f' !! p) as [[]|].
Qed.

(** Afterwards the directory is recorded, whether it was there or was made. *)
Lemma record_directory_ok (p : string) (need : list string) : p ∈ dir_targets ->
  step_ok need (record_directory p) (p :: need).
Proof using Hapart.
  intros Hp i Hi Hn. unfold record_directory. rewrite sm_bind_eq.
  destruct (record_directory_created p i) as [i1 r1] eqn:E1.
  destruct (directory_created_ok p i i1 r1 Hp Hi E1) as (H1 & S1 & G1). destruct r1; [|by split_and!].
  rewrite sm_bind_eq. destruct (record_path_metadata p i1) as [i2 r2] eqn:E2.
  destruct (path_metadata_ok p i1 i2 r2 Hp H1 G1 E2) as (H2 & S2 & G2).
  destruct r2; [|split_and!; [done|set_solver|done]].
  pose proof (create_dir_all_ok p (fun e => "create " +:+ p +:+ ": " +:+ e) Hp i2 H2) as H.
  destruct (io _ _ i2) as [i3 r3]. destruct H as (H3 & S3 & G3); [set_solver|].
  split_and!; [done|set_solver|]. destruct r3; set_solver.
Qed.

Lemma record_file_ok (p : string) (need : list string) : p ∈ file_targets ->
  step_ok need (record_file_replacement p) (p :: need).
Proof using Hapart.
  intros Hp i Hi Hn. unfold record_file_replacement. rewrite sm_bind_eq.
  destruct (io_lstat p (fun e => "inspect " +:+ p +:+ " before replacement: " +:+ e) i) as (r & -> & [->|[e ->]]); [|done].
  set (i1 := mkInst (next (is_sys i)) (is_tx i)). assert (Hi1 : undoable f0 loaded0 i1) by done.
  destruct (sy_fs (is_sys i) !! p) as [[c m|m|t m|m]|] eqn:E; try done.
  - rewrite sm_bind_eq. cbn [sm_get]. rewrite sm_bind_eq.
    set (b := next_backup_path (is_tx i1)).
    assert (Eb : b = backup_path (length (rollback_actions (is_tx i)))).
    { unfold b, next_backup_path, backup_path. destruct Hi1 as (_ & -> & _). done. }
    assert (Hb : below rollback_dir b = true) by (rewrite Eb; by apply below_backup_path).
    assert (Hpa : aside p) by (apply targets_aside; auto).
    unfold io, run_on, named. destruct (copy p b (is_sys i1)) as [s1 [[]|e]] eqn:Ec; cbn [map_err].
    + destruct (copy_backup p b (is_sys i1) s1 c m tt) as ((m' & Em) & Ho & HL); try done.
      { apply (inv_backups _ _ _ (proj1 Hi1)). done. }
      { intros ->. destruct Hpa. congruence. }
      assert (Hi2 : undoable f0 loaded0 (mkInst s1 (is_tx i))).
      { destruct Hi1 as (Hinv & Hd & Hs). split_and!; [|done|by simpl; rewrite HL].
        apply (inv_next_backup Hapart _ (sy_fs (is_sys i1))); simpl; [done|by rewrite <-Eb|by rewrite <-Eb, Em]. }
      assert (Ep : sy_fs s1 !! p = Some (NFile c m)).
      { rewrite Ho; [done|]. intros ->. destruct Hpa. congruence. }
      pose proof (step_push (RestoreFile p b (from_metadata (NFile c m))) (mkInst s1 (is_tx i)) p Hi2) as H.
      simpl in H. rewrite bool_decide_eq_true_2, Ep in H by done. unfold backup_content in H. rewrite Em in H.
      destruct H as (H1 & H2 & H3); [done|by split_and!; eauto|..].
      { split; intros; [done|by destruct (files_not_dirs p)]. }
      { apply (alike_masked (NFile c m)). }
      split_and!; [done..|set_solver].
    + pose proof (copy_writes p b (is_sys i1)) as H. rewrite Ec in H. destruct H as (HL & Ho & Hpl).
      { intros q ->%list_elem_of_singleton. apply (inv_backups _ _ _ (proj1 Hi1)). done. }
      destruct Hi1 as (Hinv & Hd & Hs). split_and!; [split_and!; [|done|by simpl in *; rewrite HL]|done..].
      apply (inv_next_backup Hapart _ (sy_fs (is_sys i1))); simpl in *; [done|..]; rewrite <-Eb.
      * intros q Hq. apply Ho. set_solver.
      * apply Hpl. set_solver.
  - pose proof (step_push (RemoveFileIfCreated p) i1 p) as H.
    simpl in H. rewrite bool_decide_eq_true_2, E in H by done.
    destruct H as (H1 & H2 & H3); try done. split_and!; [done..|set_solver].
Qed.

(** *** The service user *)

Lemma attr_matches_writes (attr expected : string) : writes [] (service_record_attr_matches attr expected).
Proof.
  apply (writes_eq _ (exec_cmd (DsclReadAttr attr))); [|by apply quiet_writes].
  intros s. unfold service_record_attr_matches. by destruct (exec_cmd _ s) as [? []].
Qed.

Lemma run_quiet_writes (c : Cmd) (d : string) : quiet c = true -> writes [] (run_cmd c d).
Proof. intros Hq. eapply writes_eq; [apply run_cmd_state|by apply quiet_writes]. Qed.

Lemma ignore_quiet_writes (c : Cmd) : quiet c = true -> writes [] (ignore_cmd c).
Proof.
  intros Hq. apply writes_bind; [|intros; apply writes_ret].
  eapply writes_eq; [apply attempt_state|by apply quiet_writes].
Qed.

Lemma ensure_attr_writes (attr expected d : string) : writes [] (ensure_record_attr attr expected d).
Proof.
  apply writes_bind; [apply attr_matches_writes|]. intros []; [apply writes_ret|].
  apply writes_bind; [by apply ignore_quiet_writes|]. intros _. by apply run_quiet_writes.
Qed.

Lemma user_attributes_writes (gid : N) : writes [] (set_service_user_attributes gid).
Proof. repeat (apply writes_bind; [apply ensure_attr_writes|intros _]). apply ensure_attr_writes. Qed.

Lemma service_gid_writes : writes [] service_gid.
Proof.
  apply (writes_eq _ (exec_cmd IdGroup)); [|by apply quiet_writes].
  intros s. unfold service_gid. destruct (exec_cmd IdGroup s) as [? []]; [|done]. by case_match.
Qed.

Lemma first_available_writes (uids : list N) : writes [] (first_available uids).
Proof.
  induction uids as [|uid uids IH]; intros s Hs; simpl; [done|].
  pose proof (quiet_writes [] (DsclSearchUid uid) eq_refl s Hs) as H.
  destruct (exec_cmd (DsclSearchUid uid) s) as [s1 [o|e]]; [|done]. case_match; [done|].
  destruct H as (L & O & P). destruct (IH s1) as (L' & O' & P'); [by intros ? ?%not_elem_of_nil|].
  cbv zeta in *. cbn [fst] in *. split_and!; [congruence| |done]. intros p Hp. by rewrite O', O.
Qed.

Lemma user_exists_writes : writes [] service_user_exists.
Proof.
  apply (writes_eq _ (exec_cmd DsclReadUser)); [|by apply quiet_writes].
  intros s. unfold service_user_exists. by destruct (exec_cmd DsclReadUser s) as [? []].
Qed.

Lemma service_user_writes : writes [] create_service_user.
Proof.
  apply writes_bind; [apply user_exists_writes|]. intros [].
  - apply writes_bind; [apply service_gid_writes|]. intros gid.
    apply writes_bind; [apply user_attributes_writes|]. intros _. apply writes_ret.
  - apply writes_bind; [apply first_available_writes|]. intros uid.
    do 3 (apply writes_bind; [by apply run_quiet_writes|intros _]).
    apply writes_bind; [apply user_attributes_writes|]. intros _. apply writes_ret.
Qed.

Lemma record_service_user_ok (created : bool) (need : list string) : step_ok need (record_service_user created) need.
Proof.
  intros i Hi Hn. unfold record_service_user. rewrite sm_bind_eq. unfold sm_get.
  destruct (created && _); [|done].
  pose proof (undoable_push i RemoveServiceUser Hi) as H. unfold push_action in *.
  by destruct H as (H1 & H2 & _).
Qed.

(** *** The steps in turn *)

Ltac targets := solve [apply list_elem_of_In; vm_compute; tauto | intros ?; set_solver].

Lemma copy_installed_ok (src dst : string) (need : list string) : dst ∈ file_targets ->
  step_ok need (copy_installed src dst) (dst :: need).
Proof using Hapart.
  intros Hd. eapply step_bind; [by apply record_file_ok|]. intros _.
  eapply step_mono; [apply (step_io_writes [dst]); [set_solver|apply copy_writes]|set_solver..].
Qed.

Lemma exists_step {need : list string} (p : string) : step_ok need (run_on (exists_path p)) need.
Proof using Hapart. apply step_quiet, exists_writes. Qed.

Lemma copy_binary_ok (source_dir b : string) (need : list string) : path_join BIN_DIR b ∈ file_targets ->
  step_ok need (copy_binary source_dir b) (path_join BIN_DIR b :: need).
Proof using Hapart.
  intros Hd. eapply step_bind; [apply (exists_step (need := need))|]. intros found.
  destruct found; [|apply step_fail]. cbn [negb].
  eapply step_mono; [by apply (copy_installed_ok _ _ need)|set_solver..].
Qed.

Lemma hook_source_ok (source_dir : string) (need : list string) : step_ok need (hook_dylib_source_path source_dir) need.
Proof using Hapart.
  eapply step_bind; [apply (exists_step (need := need))|]. intros [].
  - eapply step_mono; [apply step_ret|set_solver..].
  - eapply step_bind; [apply exists_step|]. intros [].
    + eapply step_mono; [apply step_ret|set_solver..].
    + apply step_fail.
Qed.

Lemma binaries_targets (b : string) : b ∈ INSTALLED_BINARIES -> path_join BIN_DIR b ∈ file_targets.
Proof. intros Hb. unfold file_targets. apply elem_of_app. left. apply list_elem_of_fmap. eauto. Qed.

Lemma binaries_joined (b : string) : b ∈ INSTALLED_BINARIES ->
  path_join BIN_DIR b ∈ mjoin ((fun b => [path_join BIN_DIR b]) <$> INSTALLED_BINARIES).
Proof.
  intros Hb. apply list_elem_of_join. exists [path_join BIN_DIR b]. split; [set_solver|].
  apply list_elem_of_fmap. eauto.
Qed.

Lemma deploy_ok (need : list string) : step_ok need deploy_binaries [].
Proof using Hapart.
  eapply step_bind; [apply (record_directory_ok BIN_DIR); targets|]. intros _.
  eapply step_bind; [apply step_lift|]. intros source_dir.
  eapply step_bind.
  { apply (step_mapM _ _ (fun b => [path_join BIN_DIR b])). intros b Hb.
    eapply step_mono; [apply (copy_binary_ok _ _ []); by apply binaries_targets|set_solver..]. }
  intros _. eapply step_bind; [apply hook_source_ok|]. intros dylib_src.
  eapply step_bind; [apply copy_installed_ok; targets|]. intros _.
  eapply step_bind.
  { eapply (step_mono [BIN_DIR]); [apply own_dir_ok; targets|set_solver..]. }
  intros _. eapply step_bind.
  { apply (step_mapM _ _ (fun b => [path_join BIN_DIR b])). intros b Hb.
    eapply step_mono; [apply own_file_ok; by apply binaries_targets| |set_solver].
    intros q ->%list_elem_of_singleton. pose proof (binaries_joined b Hb). rewrite !elem_of_app. tauto. }
  intros _. eapply step_bind; [apply exists_step|]. intros []; [|eapply step_mono; [apply step_ret|set_solver..]].
  eapply step_mono; [apply (own_file_ok dylib_dst); targets|set_solver..].
Qed.

Lemma service_directory_ok (p what : string) (gid : N) (need : list string) : p ∈ dir_targets ->
  step_ok need (service_directory p what gid) [p].
Proof using Hapart.
  intros Hp. eapply step_bind; [by apply record_directory_ok|]. intros _.
  eapply step_mono; [by apply own_dir_ok|set_solver..].
Qed.

Lemma create_directories_ok (gid : N) (need : list string) : step_ok need (create_directories gid) [STATE_DIR].
Proof using Hapart.
  eapply step_bind; [apply service_directory_ok; targets|]. intros _.
  eapply step_mono; [apply (service_directory_ok _ _ _ []); targets|set_solver..].
Qed.

Lemma enroll_ok (path : option string) (need : list string) :
  step_ok need (enroll_hardware_signer_for_install path) need.
Proof.
  unfold enroll_hardware_signer_for_install. destruct path; [|apply step_fail].
  eapply step_bind; [apply step_get|]. intros i. case_match; [|apply step_fail].
  case_match; try apply step_fail. eapply step_mono; [apply step_lift|set_solver..].
Qed.

Lemma manifest_ok (e : HardwareSignerEnrollment) (need : list string) : step_ok need (write_trusted_signer_manifest e) [].
Proof using Hapart.
  assert (Hp : [trusted_rule_signers_path] ⊆ file_targets) by (intros q ->%list_elem_of_singleton; targets).
  eapply step_bind; [apply record_file_ok; apply Hp; set_solver|]. intros _.
  eapply step_bind.
  { apply step_quiet. eapply writes_eq; [apply attempt_state|apply lstat_writes]. }
  intros meta. eapply (step_bind _ []).
  { assert (Hrm : step_ok [trusted_rule_signers_path]
                    (io (remove_file trusted_rule_signers_path)
                       (fun e => "remove existing " +:+ trusted_rule_signers_path +:+ ": " +:+ e)) []).
    { eapply step_mono; [apply step_io_writes; [exact Hp|apply remove_file_writes]|set_solver..]. }
    destruct (mjoin meta) as [[]|]; try apply step_fail;
      eapply step_mono; (apply Hrm || apply (step_ret []) || set_solver). }
  intros _. eapply step_bind.
  { eapply step_mono; [apply (step_io_writes [trusted_rule_signers_path]); [exact Hp|apply create_new_writes]|set_solver..]. }
  intros _. eapply step_bind.
  { eapply step_mono; [apply step_io_writes; [exact Hp|apply write_writes]|set_solver..]. }
  intros _. eapply step_mono; [apply own_file_ok; apply Hp|set_solver..]. set_solver.
Qed.

Context `{SqlEngine}.

Lemma db_files_targets : db_files ⊆ file_targets.
Proof. intros p Hp. unfold file_targets. rewrite !elem_of_app. auto. Qed.

Lemma sqlite_replacement_ok (need : list string) : step_ok need (record_sqlite_replacement (db_path STATE_DIR)) db_files.
Proof using Hapart.
  eapply step_bind; [apply record_file_ok; apply db_files_targets; apply list_elem_of_here|]. intros _.
  eapply step_bind.
  { apply (step_mapM _ _ (fun p => [p])). intros p Hp.
    eapply step_mono; [apply (record_file_ok _ []); apply db_files_targets; by apply list_elem_of_further|set_solver..]. }
  intros _. eapply step_mono; [apply (step_ret [])|set_solver|].
  unfold db_files. simpl. set_solver.
Qed.

Lemma write_db_writes (d : Db) : writes db_files (write_db d).
Proof.
  unfold write_db. apply writes_bind; [apply writes_get|]. intros s.
  destruct (sqlite_files (sy_tick s) d) as [[main wal] shm].
  assert (Hw : forall p content, p ∈ db_files -> writes db_files (write_file p content)).
  { intros p content Hp. eapply writes_mono; [|apply write_writes]. set_solver. }
  apply writes_bind; [apply Hw; set_solver|]. intros _.
  apply writes_bind.
  { eapply writes_mono; [|apply (update_mode_writes (db_path STATE_DIR))]. unfold db_files. set_solver. }
  intros _. apply writes_bind; [apply Hw; set_solver|]. intros _. apply Hw. set_solver.
Qed.

Lemma register_store_ok (now : Z) (e : HardwareSignerEnrollment) : step_ok db_files (register_in_store now e) [].
Proof using Hapart.
  eapply step_bind; [apply step_get|]. intros i. cbv zeta.
  destruct (open _ _ _) as [store|err].
  - destruct (register_trusted_rule_signer_key _ _ _ _ _ _) as [store' r].
    eapply step_bind.
    { eapply step_mono; [apply step_io_writes; [apply db_files_targets|apply write_db_writes]|set_solver..]. }
    intros _. eapply step_mono; [apply (step_lift [])|set_solver..].
  - eapply step_bind; [|intros _; apply step_fail].
    eapply step_mono; [apply (step_writes db_files); [apply db_files_targets|]|set_solver..].
    eapply writes_eq; [apply attempt_state|apply write_db_writes].
Qed.

(** The recursive change of ownership spares what is recorded. *)
Lemma chown_tree_ok (o : Owner) (d : string) :
  step_ok [STATE_DIR] (run_on (run_cmd (Chown true o STATE_DIR) d)) [STATE_DIR].
Proof using Hapart.
  apply step_sys. intros s Hs. rewrite run_cmd_state.
  assert (Hmv : forall reached uid gid R p, [STATE_DIR] ⊆ R ->
            moved R p (sy_fs s !! p) (chown_tree reached uid gid STATE_DIR (sy_fs s) !! p)).
  { intros reached uid gid R p HR. unfold chown_tree. rewrite map_lookup_imap.
    destruct (sy_fs s !! p) as [n|] eqn:En; simpl; [|by left].
    destruct (reached p); rewrite ?andb_false_r, ?andb_true_r; [|by left].
    destruct (decide (p = STATE_DIR)) as [->|Hne].
    - rewrite bool_decide_eq_true_2 by done. right; right; left.
      assert (Hin : STATE_DIR ∈ dir_targets) by targets.
      destruct (Hs STATE_DIR) as [_ Hd]; [set_solver|]. specialize (Hd Hin). rewrite En in Hd.
      destruct n; try done. split_and!; try done. by apply HR, list_elem_of_here.
    - rewrite bool_decide_eq_false_2 by done. destruct (below STATE_DIR p) eqn:Hb; [|by left].
      right; right; right; left. split; [done|]. by exists uid, gid. }
  unfold exec_cmd. case_match.
  - case_match; simpl; [split; [done|by left]|].
    unfold cmd_residue. destruct (owner_ids (next s) o) as [[uid gid]|]; simpl; (split; [done|]); [auto|by left].
  - simpl. destruct (owner_ids (next s) o) as [[uid gid]|]; simpl; [|split; [done|by left]].
    destruct (sy_fs s !! STATE_DIR); simpl; (split; [done|]); auto. by left.
Qed.

Lemma register_ok (now : Z) (e : HardwareSignerEnrollment) (gid : N) : step_ok [STATE_DIR] (register_rule_signer now e gid) [].
Proof using Hapart.
  eapply step_bind; [apply manifest_ok|]. intros _.
  eapply step_bind; [apply sqlite_replacement_ok|]. intros _.
  eapply step_bind; [eapply step_mono; [apply register_store_ok|set_solver..]|]. intros _.
  eapply step_mono; [apply chown_tree_ok|set_solver..].
Qed.

Lemma launchdaemon_ok : step_ok [] install_launchdaemon [].
Proof using Hapart.
  eapply step_bind; [apply record_file_ok; targets|]. intros _.
  eapply step_bind; [apply (step_io_writes [PLIST_PATH]); [|apply write_writes]|].
  { intros q ->%list_elem_of_singleton. targets. }
  intros _. eapply step_mono; [apply own_file_ok; targets|set_solver..].
Qed.

(** *** The service *)

Lemma service_exec (c : Cmd) (s : Sys) :
  c = LaunchctlBootout \/ c = LaunchctlBootstrap -> sy_fs (exec_cmd c s).1 = sy_fs s.
Proof.
  intros Hc. unfold exec_cmd. case_match; [case_match; [done|by destruct Hc as [-> | ->]]|].
  destruct (cmd_effect c (next s)) as [s2|] eqn:E; [|done].
  destruct Hc as [-> | ->]; cbn [cmd_effect] in E; repeat case_match; by simplify_eq.
Qed.

Lemma bootout_stops (s : Sys) : service_answers -> sy_loaded (exec_cmd LaunchctlBootout s).1 = false.
Proof.
  intros Hans. unfold exec_cmd. rewrite (proj2 (Hans _)). cbn [cmd_effect]. by destruct (sy_loaded (next s)) eqn:E.
Qed.

Lemma bootstrap_result (d : string) (s s' : Sys) (r : result unit CliError) :
  run_cmd LaunchctlBootstrap d s = (s', r) ->
  match r with Ok _ => sy_loaded s' = true | Err _ => sy_loaded s' = sy_loaded s end.
Proof.
  unfold run_cmd, exec_cmd. destruct (cmd_fault _ _) as [[]|]; [by intros [= <- <-]..|].
  cbn [cmd_effect]. destruct (sy_loaded (next s)) eqn:El; [by intros [= <- <-]|].
  destruct (sy_fs (next s) !! _) as [[]|]; intros [= <- <-]; done.
Qed.

Lemma ignore_cmd_eq (c : Cmd) (s : Sys) : ignore_cmd c s = ((exec_cmd c s).1, Ok tt).
Proof. unfold ignore_cmd. rewrite sm_bind_eq. unfold attempt. by destruct (exec_cmd c s). Qed.

Lemma start_ok (need : list string) : step_ok need start_daemon [].
Proof using Hapart.
  intros i (Hinv & Hd & Hs) Hn. unfold start_daemon. rewrite sm_bind_eq. unfold run_on at 1.
  rewrite ignore_cmd_eq. cbv iota beta.
  pose proof (service_exec LaunchctlBootout (is_sys i)) as Hf1.
  pose proof (bootout_stops (is_sys i)) as Hl1.
  destruct (exec_cmd LaunchctlBootout (is_sys i)) as [s1 o]. cbn [fst] in *. rewrite sm_bind_eq. unfold run_on.
  destruct (run_cmd LaunchctlBootstrap "bootstrap LaunchDaemon" (is_sys (mkInst s1 (is_tx i)))) as [s2 r] eqn:E2.
  pose proof (bootstrap_result _ _ _ _ E2) as Hl2. simpl in E2, Hl2.
  assert (Hf2 : sy_fs s2 = sy_fs (is_sys i)).
  { rewrite <-Hf1 by auto. change s2 with (s2, r).1. rewrite <-E2, run_cmd_state. apply service_exec. auto. }
  destruct r as [u|e]; unfold undoable, recorded_in, push_action; simpl; rewrite Hf2; split_and!; try set_solver.
  - by apply inv_push.
  - intros Hans. specialize (Hs Hans). destruct loaded0.
    + destruct (rollback_actions (is_tx i)); [done|]. by rewrite last_cons_cons.
    + destruct Hs. split; set_solver.
  - intros Hans. specialize (Hs Hans). rewrite Hl2, (Hl1 Hans). destruct loaded0; naive_solver.
Qed.

(** Every step of an installation can be undone. *)
Lemma install_steps_ok (now : Z) (path : option string) : step_ok [] (install_steps now path) [].
Proof using Hapart.
  unfold install_steps.
  eapply step_bind; [apply step_quiet, service_user_writes|]. intros u.
  eapply step_bind; [apply record_service_user_ok|]. intros _.
  eapply step_bind; [apply deploy_ok|]. intros _.
  eapply step_bind; [apply create_directories_ok|]. intros _.
  eapply step_bind; [apply enroll_ok|]. intros e.
  eapply step_bind; [eapply step_mono; [apply register_ok|set_solver..]|]. intros _.
  eapply step_bind; [eapply step_mono; [apply launchdaemon_ok|set_solver..]|]. intros _.
  apply start_ok.
Qed.

End Steps.

(** ** Undoing *)

Section Undoing.
Context (Hapart : apart rollback_dir = true).

(** [Path::exists] takes an error for absence: the calls it makes work. *)
Definition stat_works : Prop := forall t p, io_fault t "stat" p = None.

Lemma run_cmd_ok (c : Cmd) (d : string) (s s' : Sys) (u : unit) :
  run_cmd c d s = (s', Ok u) -> cmd_effect c (next s) = Some s'.
Proof.
  unfold run_cmd, exec_cmd. destruct (cmd_fault _ _) as [[]|]; [done..|].
  destruct (cmd_effect c (next s)); simpl; [|done]. by intros [= <-].
Qed.

Lemma chown_ok (o : Owner) (p d : string) (s s' : Sys) (u : unit) (n : Node) :
  run_cmd (Chown false o p) d s = (s', Ok u) -> sy_fs s !! p = Some n -> resolve (sy_fs s) p = p ->
  exists uid gid, owner_ids s o = Some (uid, gid) /\ sy_loaded s' = sy_loaded s /\ sy_user s' = sy_user s
    /\ sy_fs s' = <[p := set_owner uid gid n]> (sy_fs s).
Proof.
  intros H%run_cmd_ok Hp Hr. cbn [cmd_effect] in H.
  change (owner_ids (next s) o) with (owner_ids s o) in H. change (sy_fs (next s)) with (sy_fs s) in H.
  rewrite Hr, Hp in H. destruct (owner_ids s o) as [[uid gid]|]; [|done]. simpl in H. simplify_eq. eauto 10.
Qed.

Lemma chmod_ok (mode : N) (p d : string) (s s' : Sys) (u : unit) (n : Node) :
  run_cmd (Chmod mode p) d s = (s', Ok u) -> sy_fs s !! p = Some n -> resolve (sy_fs s) p = p ->
  sy_loaded s' = sy_loaded s /\ sy_user s' = sy_user s /\ sy_fs s' = <[p := set_mode mode n]> (sy_fs s).
Proof.
  intros H%run_cmd_ok Hp Hr. cbn [cmd_effect] in H. change (sy_fs (next s)) with (sy_fs s) in H.
  rewrite Hr, Hp in H. simpl in H. by simplify_eq.
Qed.

Lemma set_owner_not_link (u g : N) (n : Node) : (forall t m, n <> NLink t m) -> forall t m, set_owner u g n <> NLink t m.
Proof. intros Hn t m. destruct n; try done. by destruct (Hn target0 m0). Qed.

Lemma to_text_ok {A} (m : SM Sys CliError A) (s s' : Sys) (a : A) : to_text m s = (s', Ok a) -> m s = (s', Ok a).
Proof. unfold to_text. destruct (m s) as [? []]; simpl; congruence. Qed.

Lemma named_text_ok {A} (m : SM Sys string A) (name : string -> string) (s s' : Sys) (a : A) :
  named_text m name s = (s', Ok a) -> m s = (s', Ok a).
Proof. unfold named_text. destruct (m s) as [? []]; simpl; congruence. Qed.

Lemma restore_metadata_ok (m : PathMetadata) (p : string) (s s' : Sys) (u : unit) (n : Node) :
  restore_metadata m p s = (s', Ok u) -> sy_fs s !! p = Some n -> (forall t m, n <> NLink t m) ->
  sy_loaded s' = sy_loaded s /\ sy_fs s' = <[p := set_meta n m]> (sy_fs s).
Proof.
  unfold restore_metadata. rewrite sm_bind_ok. intros (s1 & [] & H1%to_text_ok & H2%to_text_ok) Hp Hl.
  destruct (chown_ok _ _ _ _ _ _ _ H1 Hp) as (uid & gid & Ho & L1 & _ & F1).
  { apply resolve_not_link. rewrite Hp. naive_solver. }
  simpl in Ho. simplify_eq.
  assert (Hp1 : sy_fs s1 !! p = Some (set_owner (pm_uid m) (pm_gid m) n)) by (rewrite F1; apply lookup_insert_eq).
  destruct (chmod_ok _ _ _ _ _ _ _ H2 Hp1) as (L2 & _ & F2).
  { apply resolve_not_link. rewrite Hp1. intros t m' [= E]. by destruct n; simplify_eq/=; edestruct Hl. }
  split; [congruence|]. rewrite F2, F1, insert_insert_eq. f_equal. destruct n, m; done.
Qed.

(** An action undone at its path, its backup consumed. *)
Lemma inv_pop (f0 f f' : Fs) (a : RollbackAction) (acts : list RollbackAction) :
  Inv f0 f (a :: acts) ->
  (forall q, target a <> Some q -> q <> backup_path (length acts) -> f' !! q = f !! q) ->
  plain_file (f' !! backup_path (length acts)) ->
  (forall p, target a = Some p ->
     f' !! p = undo_step (backup_content f) p a (f !! p) /\ plain p (f' !! p)
     /\ forall m, RestoreMetadata p m ∈ acts -> is_dir (f' !! p) = true) ->
  Inv f0 f' acts.
Proof using Hapart.
  intros [Hroot Hback [Ha Hacts] Hplain Hundo] Ho Hb Ht.
  assert (Hbelow : forall k, below rollback_dir (backup_path k) = true) by auto using below_backup_path.
  assert (Htasd : forall p, target a = Some p -> aside p).
  { intros p Hp. destruct (acts_ok_target f (a :: acts) p); [done| |by apply targets_aside; auto..].
    unfold recorded. simpl. rewrite Hp. apply list_elem_of_here. }
  assert (Hna : forall q, ~ aside q -> q <> backup_path (length acts) -> f' !! q = f !! q).
  { intros q Hq. apply Ho. eauto. }
  assert (Hk : forall k, k < length acts -> f' !! backup_path k = f !! backup_path k).
  { intros k Hk. apply Hna; [|intros E%backup_path_inj; lia]. intros [_ E]. by rewrite Hbelow in E. }
  assert (Hother : forall q, aside q -> target a <> Some q -> f' !! q = f !! q).
  { intros q [_ Hq] Hne. apply Ho; [done|]. intros ->. by rewrite Hbelow in Hq. }
  constructor.
  - rewrite Hna; [done|by intros [? _]|]. intros E. specialize (Hbelow (length acts)).
    rewrite <-E in Hbelow. apply below_app in Hbelow as [r Hr].
    apply (f_equal String.length) in Hr. rewrite !length_app_str in Hr. simpl in Hr. lia.
  - intros p Hp. destruct (decide (p = backup_path (length acts))) as [->|]; [done|].
    rewrite Hna; [auto| |done]. intros [_ E]. congruence.
  - apply (acts_ok_ext f); [done| |done]. intros p m Hm Hd.
    destruct (decide (target a = Some p)) as [E|E]; [eapply Ht; eauto|].
    rewrite Hother; [done| |done]. apply targets_aside; [done|].
    destruct (acts_ok_metadata _ _ _ _ Hacts Hm). auto.
  - intros p Hp. destruct (decide (target a = Some p)) as [E|E]; [by apply Ht|].
    rewrite Hother; [|apply targets_aside; [done|]; destruct (acts_ok_target _ _ _ Hacts Hp); auto|done].
    apply Hplain. unfold recorded. simpl. destruct (target a); [by apply list_elem_of_further|done].
  - intros p Hp. specialize (Hundo p Hp). simpl in Hundo. rewrite (undo_ext f) by done.
    destruct (decide (target a = Some p)) as [E|E]; [by rewrite (proj1 (Ht p E))|].
    rewrite Hother by done. replace (undo_step (backup_content f) p a (f !! p)) with (f !! p) in Hundo; [done|].
    destruct a; simpl in *; rewrite ?bool_decide_eq_false_2 by congruence; done.
Qed.

Lemma remove_file_ok (p : string) (s s' : Sys) (u : unit) :
  remove_file p s = (s', Ok u) -> sy_fs s' = delete p (sy_fs s) /\ sy_loaded s' = sy_loaded s.
Proof. intros (f & Hm & ->)%call_ok. repeat case_match; by simplify_eq/=. Qed.

Lemma inv_pop_file (f0 f f' : Fs) (a : RollbackAction) (p : string) (acts : list RollbackAction) :
  Inv f0 f (a :: acts) -> target a = Some p -> p ∈ file_targets ->
  (forall q, q <> p -> q <> backup_path (length acts) -> f' !! q = f !! q) ->
  plain_file (f' !! backup_path (length acts)) ->
  f' !! p = undo_step (backup_content f) p a (f !! p) -> plain_file (f' !! p) ->
  Inv f0 f' acts.
Proof using Hapart.
  intros Hinv Ht Hp Ho Hb Hu Hpl. eapply inv_pop; [done|..|done|].
  - intros q Hq. apply Ho. congruence.
  - rewrite Ht. intros q [= <-]. split_and!; [done|split; [done|]; intros; by destruct (files_not_dirs p)|].
    intros m Hm. destruct (acts_ok_metadata f acts p m) as [Hd _]; [apply Hinv|done|]. by destruct (files_not_dirs p).
Qed.

Lemma next_backup_plain (f0 f : Fs) (a : RollbackAction) (acts : list RollbackAction) :
  Inv f0 f (a :: acts) -> plain_file (f !! backup_path (length acts)).
Proof using Hapart. intros Hinv. apply (inv_backups _ _ _ Hinv). by apply below_backup_path. Qed.

Lemma target_not_backup (p : string) (k : nat) : p ∈ file_targets \/ p ∈ dir_targets -> p <> backup_path k.
Proof using Hapart.
  intros Hp ->. destruct (targets_aside Hapart (backup_path k)) as [_ E]; [naive_solver|].
  by rewrite below_backup_path in E.
Qed.

Lemma undo_created_file (f0 : Fs) (p : string) (acts : list RollbackAction) (s s' : Sys) (u : unit) :
  Inv f0 (sy_fs s) (RemoveFileIfCreated p :: acts) -> remove_file_if_present p s = (s', Ok u) -> Inv f0 (sy_fs s') acts.
Proof using Hapart.
  intros Hinv. pose proof (inv_acts _ _ _ Hinv) as [Hp _]. simpl in Hp.
  pose proof (inv_plain _ _ _ Hinv p (list_elem_of_here _ _)) as [Hpl _]. specialize (Hpl Hp).
  unfold remove_file_if_present. rewrite sm_bind_ok. intros (s1 & n & H1%named_text_ok & H2).
  apply call_ok in H1 as (f & [= <- <-] & ->). change (sy_fs (with_fs (next s) (sy_fs s))) with (sy_fs s) in *.
  assert (Hdel : sy_fs s' = delete p (sy_fs s)).
  { destruct (sy_fs s !! p) as [[]|] eqn:E; try done.
    - apply named_text_ok, remove_file_ok in H2 as [-> _]. done.
    - injection H2 as <- _. simpl. by rewrite delete_id. }
  eapply (inv_pop_file _ _ _ _ p); [done|done|done|..]; rewrite Hdel.
  - intros q Hq _. by rewrite lookup_delete_ne.
  - rewrite lookup_delete_ne by (apply target_not_backup; auto). by eapply next_backup_plain.
  - rewrite lookup_delete_eq. simpl. by rewrite bool_decide_eq_true_2.
  - by rewrite lookup_delete_eq.
Qed.

Lemma undo_created_dir (f0 : Fs) (p : string) (acts : list RollbackAction) (s s' : Sys) (u : unit) :
  Inv f0 (sy_fs s) (RemoveDirectoryIfCreated p :: acts) -> remove_directory_if_empty p s = (s', Ok u) ->
  Inv f0 (sy_fs s') acts.
Proof using Hapart.
  intros Hinv. pose proof (inv_acts _ _ _ Hinv) as [[Hp Hno] _].
  unfold remove_directory_if_empty. rewrite sm_bind_ok. intros (s1 & b & H1%named_text_ok & H2).
  injection H2 as <- _. apply call_ok in H1 as (f & Hf & ->). simpl.
  assert (Hdel : f = delete p (sy_fs s)).
  { destruct (sy_fs s !! p) as [[]|] eqn:E; try done.
    - case_match; by simplify_eq.
    - simplify_eq. by rewrite delete_id. }
  subst f. eapply inv_pop; [done|..].
  - intros q Hq _. simpl in Hq. rewrite lookup_delete_ne by congruence. done.
  - rewrite lookup_delete_ne by (apply target_not_backup; auto). by eapply next_backup_plain.
  - intros q [= <-]. rewrite lookup_delete_eq. simpl. rewrite bool_decide_eq_true_2 by done.
    split_and!; [done..|]. intros m Hm. by destruct (Hno m).
Qed.

Lemma undo_metadata (f0 : Fs) (p : string) (m : PathMetadata) (acts : list RollbackAction) (s s' : Sys) (u : unit) :
  stat_works -> Inv f0 (sy_fs s) (RestoreMetadata p m :: acts) ->
  rollback_action (RestoreMetadata p m) s = (s', Ok u) -> Inv f0 (sy_fs s') acts.
Proof using Hapart.
  intros Hstat Hinv. pose proof (inv_acts _ _ _ Hinv) as [[Hp Hd] _].
  destruct (sy_fs s !! p) as [[|md| |]|] eqn:E; try done.
  simpl. rewrite sm_bind_ok. intros (s1 & b & H1 & H2). unfold exists_path in H1. rewrite Hstat in H1.
  rewrite resolve_plain, E in H1 by (rewrite E; by right). injection H1 as <- <-. simpl in H2.
  destruct (restore_metadata_ok _ _ _ _ _ (NDir md) H2) as [_ Hf]; [done|done|]. simpl in Hf.
  eapply inv_pop; [done|..]; rewrite Hf.
  - intros q Hq _. simpl in Hq. rewrite lookup_insert_ne by congruence. done.
  - rewrite lookup_insert_ne by (apply target_not_backup; auto). by eapply next_backup_plain.
  - intros q [= <-]. rewrite lookup_insert_eq, E. simpl. rewrite bool_decide_eq_true_2 by done.
    split_and!; [done| |done]. split; intros; [by destruct (files_not_dirs p)|done].
Qed.

Lemma undo_file (f0 : Fs) (p b : string) (m : PathMetadata) (acts : list RollbackAction) (s s' : Sys) (u : unit) :
  Inv f0 (sy_fs s) (RestoreFile p b m :: acts) -> restore_file_from_backup p b m s = (s', Ok u) ->
  Inv f0 (sy_fs s') acts.
Proof using Hapart.
  intros Hinv. pose proof (inv_acts _ _ _ Hinv) as [(Hp & Hb & c & mb & Ec) _].
  pose proof (inv_plain _ _ _ Hinv p (list_elem_of_here _ _)) as [Hpl _]. specialize (Hpl Hp).
  assert (Hpb : p <> b) by (subst b; apply target_not_backup; auto).
  unfold restore_file_from_backup. rewrite sm_bind_ok. intros (s1 & cur & H1 & H2).
  assert (F1 : sy_fs s1 = sy_fs s /\ (cur = sy_fs s !! p \/ cur = None)).
  { destruct (lstat_spec p s) as (r & E & Hr). rewrite E in H1. injection H1 as <- <-.
    split; [done|]. destruct Hr as [->|[e ->]]; auto. }
  destruct F1 as [F1 Hcur]. rewrite sm_bind_ok in H2. destruct H2 as (s2 & [] & H2 & H3).
  assert (F2 : plain_file (sy_fs s2 !! p) /\ forall q, q <> p -> sy_fs s2 !! q = sy_fs s !! q).
  { destruct cur as [[]|]; try done.
    - apply named_text_ok, remove_file_ok in H2 as [-> _]. rewrite F1, lookup_delete_eq.
      split; [done|]. intros. by rewrite lookup_delete_ne.
    - apply named_text_ok, remove_file_ok in H2 as [-> _]. rewrite F1, lookup_delete_eq.
      split; [done|]. intros. by rewrite lookup_delete_ne.
    - injection H2 as <-. by rewrite F1. }
  destruct F2 as [P2 O2]. rewrite sm_bind_ok in H3. destruct H3 as (s3 & u3 & H3%named_text_ok & H4).
  destruct (copy_backup b p s2 s3 c mb u3) as ((m3 & E3) & O3 & _); [by rewrite O2|done|done|done|].
  rewrite sm_bind_ok in H4. destruct H4 as (s4 & u4 & H4 & H5%named_text_ok).
  destruct (restore_metadata_ok _ _ _ _ _ _ H4 E3) as [_ F4]; [done|].
  apply remove_file_ok in H5 as [F5 _].
  eapply (inv_pop_file _ _ _ _ p); [done|done|done|..]; rewrite <-?Hb, F5.
  - intros q Hq Hqb. by rewrite lookup_delete_ne, F4, lookup_insert_ne, O3, O2.
  - by rewrite lookup_delete_eq.
  - rewrite lookup_delete_ne, F4, lookup_insert_eq by done. simpl. rewrite bool_decide_eq_true_2 by done.
    unfold backup_content. by rewrite Ec.
  - by rewrite lookup_delete_ne, F4, lookup_insert_eq.
Qed.

(** Actions that touch no file. *)
Lemma inv_pop_none (f0 f : Fs) (a : RollbackAction) (acts : list RollbackAction) :
  target a = None -> Inv f0 f (a :: acts) -> Inv f0 f acts.
Proof using Hapart.
  intros Ht Hinv. eapply inv_pop; [done|done|by eapply next_backup_plain|]. by rewrite Ht.
Qed.

Lemma action_undone (f0 : Fs) (a : RollbackAction) (acts : list RollbackAction) (s s' : Sys) (u : unit) :
  stat_works -> Inv f0 (sy_fs s) (a :: acts) -> rollback_action a s = (s', Ok u) -> Inv f0 (sy_fs s') acts.
Proof using Hapart.
  intros Hstat Hinv Hr. destruct a as [p|p b m|p|p m| | |].
  - by eapply undo_created_file.
  - by eapply undo_file.
  - by eapply undo_created_dir.
  - by eapply undo_metadata.
  - simpl in Hr. apply to_text_ok in Hr. rewrite ignore_cmd_eq in Hr. injection Hr as <- _.
    rewrite service_exec by auto. by eapply inv_pop_none; [|exact Hinv].
  - simpl in Hr. apply to_text_ok in Hr. change s' with (s', Ok (E := CliError) u).1.
    rewrite <-Hr, run_cmd_state, service_exec by auto. by eapply inv_pop_none; [|exact Hinv].
  - simpl in Hr. apply to_text_ok, run_cmd_ok in Hr.
    destruct (quiet_effect DsclDeleteUser (next s) s') as [-> _]; [done|done|]. by eapply inv_pop_none; [|exact Hinv].
Qed.

(** *** The service *)

Definition calm {E A} (m : SM Sys E A) : Prop := forall s, sy_loaded (m s).1 = sy_loaded s.

Lemma calm_bind {E A B} (m : SM Sys E A) (k : A -> SM Sys E B) : calm m -> (forall a, calm (k a)) -> calm (m ≫= k).
Proof.
  intros Hm Hk s. rewrite sm_bind_eq. specialize (Hm s). destruct (m s) as [s1 [a|e]]; [|done]. by rewrite Hk.
Qed.

Lemma calm_call {A} (name p : string) (m : Fs -> result (Fs * A) string) : calm (call name p m).
Proof. intros s. unfold call. case_match; [done|]. by destruct (m _) as [[]|]. Qed.

Lemma calm_named {A} (m : SM Sys string A) (name : string -> string) : calm m -> calm (named_text m name).
Proof. intros Hm s. by rewrite named_text_state. Qed.

Lemma calm_copy (src dst : string) : calm (copy src dst).
Proof.
  intros s. unfold copy. destruct (sy_fs s !! _) as [[]|]; try done. cbv zeta.
  assert (Hw : forall content, sy_loaded (write "copy" dst content (pm_mode m) s).1 = sy_loaded s).
  { intros text. unfold write. case_match; [case_match; [case_match|]; done|by case_match]. }
  specialize (Hw (if bool_decide (resolve (sy_fs s) src = resolve (sy_fs s) dst) then "" else content)).
  by destruct (write _ _ _ _ s) as [s1 []].
Qed.

Lemma calm_chmeta (c : Cmd) (p d : string) :
  (exists o, c = Chown false o p) \/ (exists mode, c = Chmod mode p) -> calm (to_text (run_cmd c d)).
Proof.
  intros Hc s. rewrite to_text_state, run_cmd_state. unfold exec_cmd.
  destruct (cmd_fault _ _) as [[]|]; [done|by destruct Hc as [[o ->]|[mode ->]]|].
  destruct (cmd_effect c (next s)) as [s2|] eqn:E; [|done].
  destruct Hc as [[o ->]|[mode ->]]; simpl in E; unfold mbind, option_bind in E;
    repeat case_match; by simplify_eq/=.
Qed.

Lemma calm_restore (m : PathMetadata) (p : string) : calm (restore_metadata m p).
Proof. apply calm_bind; [|intros _]; apply (calm_chmeta _ p); eauto. Qed.

Lemma action_service (a : RollbackAction) (s s' : Sys) (r : result unit string) :
  rollback_action a s = (s', r) ->
  match a with
  | BootoutLaunchDaemon => service_answers -> sy_loaded s' = false
  | BootstrapLaunchDaemon => forall u, r = Ok u -> sy_loaded s' = true
  | _ => sy_loaded s' = sy_loaded s
  end.
Proof.
  intros Hr. assert (Hcalm : forall m : SM Sys string unit, m s = (s', r) -> calm m -> sy_loaded s' = sy_loaded s).
  { intros m Hm Hc. specialize (Hc s). by rewrite Hm in Hc. }
  destruct a as [p|p b m|p|p m| | |]; simpl in Hr.
  - apply (Hcalm _ Hr). apply calm_bind; [apply calm_named, calm_call|]. intros n.
    destruct n as [[]|]; try done; apply calm_named, calm_call.
  - apply (Hcalm _ Hr). apply calm_bind.
    { intros s0. pose proof (calm_call "lstat" p (fun f => Ok (f, f !! p)) s0) as Hc.
      change (call _ _ _ s0) with (lstat p s0) in Hc. by destruct (lstat p s0). }
    intros n. apply calm_bind; [destruct n as [[]|]; try done; apply calm_named, calm_call|]. intros _.
    apply calm_bind; [apply calm_named, calm_copy|]. intros _.
    apply calm_bind; [apply calm_restore|]. intros _. apply calm_named, calm_call.
  - apply (Hcalm _ Hr). apply calm_bind; [apply calm_named, calm_call|done].
  - apply (Hcalm _ Hr). apply calm_bind; [done|]. intros []; [apply calm_restore|done].
  - intros Hans. unfold to_text in Hr. rewrite ignore_cmd_eq in Hr. injection Hr as <- _. by apply bootout_stops.
  - intros u ->. apply to_text_ok, bootstrap_result in Hr. done.
  - apply (Hcalm _ Hr). intros s0. rewrite to_text_state, run_cmd_state.
    destruct (quiet_writes [] DsclDeleteUser eq_refl s0) as [-> _]; [by intros ? ?%not_elem_of_nil|done].
Qed.

Lemma rollback_service (loaded0 : bool) (acts : list RollbackAction) (s s' : Sys) :
  service_answers -> rollback_all acts s = (s', []) ->
  (if loaded0 then last acts = Some BootstrapLaunchDaemon \/ (acts = [] /\ sy_loaded s = true)
   else BootstrapLaunchDaemon ∉ acts /\ (sy_loaded s = true -> BootoutLaunchDaemon ∈ acts)) ->
  sy_loaded s' = loaded0.
Proof.
  intros Hans. revert s. induction acts as [|a acts IH]; intros s; simpl.
  - intros [= ->]. destruct loaded0; [by intros [|[]]|]. intros [_ H].
    destruct (sy_loaded s'); [|done]. specialize (H eq_refl). by apply not_elem_of_nil in H.
  - destruct (rollback_action a s) as [s1 r] eqn:Er. destruct (rollback_all acts s1) as [s2 fs] eqn:Ea.
    destruct r as [u|e]; [|done]. intros [= -> ->] Hk. apply (IH s1 Ea).
    pose proof (action_service _ _ _ _ Er) as Ha. destruct loaded0.
    + destruct acts as [|a' acts].
      * right. split; [done|]. destruct Hk as [Hk|[]]; [|done]. injection Hk as ->. by eapply Ha.
      * left. destruct Hk as [Hk|[]]; [|done]. by rewrite last_cons_cons in Hk.
    + destruct Hk as [Hb Hk]. split; [set_solver|]. intros HL.
      destruct a; try (rewrite Ha in HL; specialize (Hk HL); set_solver).
      * rewrite (Ha Hans) in HL. done.
      * set_solver.
Qed.

Lemma rollback_files (f0 : Fs) (acts : list RollbackAction) (s s' : Sys) :
  stat_works -> Inv f0 (sy_fs s) acts -> rollback_all acts s = (s', []) -> Inv f0 (sy_fs s') [].
Proof using Hapart.
  intros Hstat. revert s. induction acts as [|a acts IH]; intros s Hinv; simpl; [by intros [= ->]|].
  destruct (rollback_action a s) as [s1 r] eqn:Er. destruct (rollback_all acts s1) as [s2 fs] eqn:Ea.
  destruct r as [u|e]; [|done]. intros [= -> ->]. eapply IH; [|done]. by eapply action_undone.
Qed.

(** *** The backups are removed *)

Lemma exists_dir {E} (d : string) (s : Sys) :
  stat_works -> is_dir (sy_fs s !! d) = true -> exists_path (E := E) d s = (next s, Ok true).
Proof.
  intros Hstat Hd. unfold exists_path. rewrite Hstat.
  rewrite (resolve_plain (sy_fs s) d) by (right; by destruct (sy_fs s !! d) as [[]|]).
  by destruct (sy_fs s !! d) as [[]|].
Qed.

Lemma remove_backups_ok (d : string) (s s' : Sys) :
  stat_works -> is_dir (sy_fs s !! d) = true -> remove_backups d s = (s', None) ->
  sy_loaded s' = sy_loaded s
  /\ forall p, sy_fs s' !! p = if bool_decide (p = d) || below d p then None else sy_fs s !! p.
Proof.
  intros Hstat Hd. unfold remove_backups, remove_dir_all, call. destruct (io_fault _ _ _).
  - by rewrite (exists_dir d (next s)).
  - destruct (sy_fs s !! d) as [n|]; [|done]. intros [= <-]. split; [done|]. intros p. cbn.
    destruct (bool_decide (p = d) || below d p) eqn:E.
    + apply map_lookup_filter_None_2. right. intros x _. cbn. by rewrite E.
    + destruct (sy_fs s !! p) as [x|] eqn:Ex.
      * by apply map_lookup_filter_Some_2.
      * by apply map_lookup_filter_None_2; left.
Qed.

(** *** A transaction begins *)

Lemma any_exists_state {E} (ps : list string) (s : Sys) :
  sy_fs (any_exists (E := E) ps s).1 = sy_fs s /\ sy_loaded (any_exists (E := E) ps s).1 = sy_loaded s.
Proof.
  revert s. induction ps as [|p ps IH]; intros s; [done|]. simpl. rewrite sm_bind_eq.
  unfold exists_path. cbv iota beta. case_match; [done|apply (IH (next s))].
Qed.

Lemma loaded_state {E} (s s' : Sys) (r : result bool E) : launchdaemon_loaded s = (s', r) ->
  sy_fs s' = sy_fs s /\ sy_loaded s' = sy_loaded s /\ (service_answers -> r = Ok (sy_loaded s)).
Proof.
  unfold launchdaemon_loaded, exec_cmd. destruct (cmd_fault (sy_tick s) LaunchctlPrint) as [[]|] eqn:Ef.
  - intros [= <- <-]. split_and!; [done..|]. intros Ha. by rewrite (proj1 (Ha _)) in Ef.
  - intros [= <- <-]. split_and!; [done..|]. intros Ha. by rewrite (proj1 (Ha _)) in Ef.
  - cbn [cmd_effect]. change (sy_loaded (next s)) with (sy_loaded s).
    destruct (sy_loaded s) eqn:El; intros [= <- <-]; by split_and!.
Qed.

(** A path below the directory of the backups exists only when it does. *)
Definition backups_hang_together (f : Fs) : Prop :=
  forall p, below rollback_dir p = true -> is_Some (f !! p) -> is_Some (f !! rollback_dir).

Lemma stale_removed (s s1 : Sys) (b : bool) (u : unit) :
  (if b then named (remove_dir_all rollback_dir) (fun e => "remove stale " +:+ rollback_dir +:+ ": " +:+ e)
   else mret tt) s = (s1, Ok u) ->
  sy_loaded s1 = sy_loaded s /\ (forall p, aside p -> sy_fs s1 !! p = sy_fs s !! p)
  /\ (backups_hang_together (sy_fs s) -> backups_hang_together (sy_fs s1)).
Proof.
  destruct b; [|by intros [= <-]]. unfold named. destruct (remove_dir_all rollback_dir s) as [s2 r] eqn:E.
  destruct r as [v|e]; [|done]. intros [= <-]. apply call_ok in E as (f & Hf & ->).
  destruct (sy_fs s !! rollback_dir); [|done]. injection Hf as <- _. split_and!; [done|..].
  - intros p [Hne Hb]. cbn. rewrite map_lookup_filter. cbn.
    rewrite bool_decide_eq_false_2, Hb by done. cbn. by destruct (sy_fs s !! p).
  - intros Hh p Hp [x Hn]. cbn in Hn. apply map_lookup_filter_Some in Hn as [_ Hn]. cbn in Hn.
    by rewrite Hp, orb_true_r in Hn.
Qed.

(** Only the directory of the backups changes. *)
Lemma new_transaction_keeps (s s' : Sys) (t : InstallTransaction) :
  new_transaction s = (s', Ok t) -> forall p, aside p -> sy_fs s' !! p = sy_fs s !! p.
Proof using Type.
  unfold new_transaction. rewrite sm_bind_ok. intros (s1 & stale & H1 & H2) p Hp.
  unfold exists_path in H1. injection H1 as <- _. rewrite sm_bind_ok in H2. destruct H2 as (s2 & u & H2 & H3).
  apply stale_removed in H2 as (_ & O2 & _). rewrite sm_bind_ok in H3. destruct H3 as (s3 & u3 & H3 & H4).
  unfold named in H3. destruct (create_dir rollback_dir s2) as [s3' [v|e]] eqn:Ec; [|done].
  injection H3 as <- _. apply call_ok in Ec as (f & Hf & ->).
  destruct (sy_fs s2 !! rollback_dir) eqn:Er; [done|]. destruct (parent_exists _ _); [|done].
  injection Hf as <- _. rewrite sm_bind_ok in H4. destruct H4 as (s4 & pre & H4 & H5).
  pose proof (any_exists_state (E := CliError) [BIN_DIR; STATE_DIR; LOG_DIR; PLIST_PATH; trusted_rule_signers_path]
                (with_fs (next s2) (<[rollback_dir := NDir (new_meta 493)]> (sy_fs s2)))) as [F4 _].
  rewrite H4 in F4. simpl in F4. rewrite sm_bind_ok in H5. destruct H5 as (s5 & loaded & H5 & H6).
  destruct (loaded_state _ _ _ H5) as (F5 & _ & _). injection H6 as <- _.
  rewrite F5, F4, lookup_insert_ne by (destruct Hp; congruence). by apply O2.
Qed.

Lemma new_transaction_ok (s s' : Sys) (t : InstallTransaction) :
  backups_hang_together (sy_fs s) -> new_transaction s = (s', Ok t) ->
  undoable (sy_fs s) (sy_loaded s) (mkInst s' t).
Proof.
  intros Hh. unfold new_transaction. rewrite sm_bind_ok. intros (s1 & stale & H1 & H2).
  unfold exists_path in H1. injection H1 as <- _. rewrite sm_bind_ok in H2. destruct H2 as (s2 & u & H2 & H3).
  apply stale_removed in H2 as (L2 & O2 & Hh2). specialize (Hh2 Hh).
  rewrite sm_bind_ok in H3. destruct H3 as (s3 & u3 & H3 & H4).
  unfold named in H3. destruct (create_dir rollback_dir s2) as [s3' [v|e]] eqn:Ec; [|done].
  injection H3 as <- _. apply call_ok in Ec as (f & Hf & ->).
  destruct (sy_fs s2 !! rollback_dir) eqn:Er; [done|]. destruct (parent_exists _ _); [|done].
  injection Hf as <- _. rewrite sm_bind_ok in H4. destruct H4 as (s4 & pre & H4 & H5).
  pose proof (any_exists_state (E := CliError) [BIN_DIR; STATE_DIR; LOG_DIR; PLIST_PATH; trusted_rule_signers_path]
                (with_fs (next s2) (<[rollback_dir := NDir (new_meta 493)]> (sy_fs s2)))) as [F4 L4].
  rewrite H4 in F4, L4. simpl in F4, L4. rewrite sm_bind_ok in H5. destruct H5 as (s5 & loaded & H5 & H6).
  destruct (loaded_state _ _ _ H5) as (F5 & L5 & A5). injection H6 as <- <-.
  assert (Hs5 : sy_fs s5 = <[rollback_dir := NDir (new_meta 493)]> (sy_fs s2)) by congruence.
  unfold undoable. simpl. rewrite Hs5. split_and!; [|done|].
  - assert (Hrec : recorded (if loaded then [BootstrapLaunchDaemon] else []) = []) by by destruct loaded.
    constructor.
    + by rewrite lookup_insert_eq.
    + intros p Hp. destruct (decide (p = rollback_dir)) as [->|Hne].
      { apply below_app in Hp as [r Hr]. apply (f_equal String.length) in Hr.
        rewrite !length_app_str in Hr. simpl in Hr. lia. }
      rewrite lookup_insert_ne by done. destruct (sy_fs s2 !! p) eqn:Ep; [|done].
      destruct (Hh2 p Hp) as [x Hx]; [by eexists|congruence].
    + by destruct loaded.
    + rewrite Hrec. by intros ? ?%not_elem_of_nil.
    + intros p Hp. left. rewrite lookup_insert_ne by (destruct Hp; congruence). rewrite O2 by done.
      by destruct loaded.
  - intros Hans. specialize (A5 Hans). injection A5 as ->. rewrite L5, L4, L2. change (sy_loaded (next s)) with (sy_loaded s).
    destruct (sy_loaded s) eqn:E; [done|]. split; [apply not_elem_of_nil|done].
Qed.

End Undoing.
End Rollback.

(** ** The contract *)


(** ** A system on which the service cannot be started *)

Definition root_dir : Node := NDir (mkPathMetadata 0 0 493).

Definition toy_system : Sys := {|
  sy_fs := list_to_map
    (((fun d => (d, root_dir)) <$>
       ["/"; "/usr"; "/usr/local"; "/var"; "/var/log"; "/Library"; "/Library/Application Support";
        "/Library/LaunchDaemons"; "/tmp"; "/build"; BIN_DIR])
     ++ ((fun b => (path_join "/build" b, NFile ("new " +:+ b) (mkPathMetadata 501 20 493)))
           <$> INSTALLED_BINARIES ++ [CARGO_HOOK_DYLIB])
     ++ [("/tmp/enrollment", NFile "enrollment" (mkPathMetadata 501 20 384));
         (PLIST_PATH, NFile "old plist" (mkPathMetadata 0 0 420));
         (path_join BIN_DIR "stt-guard", NFile "old" (mkPathMetadata 0 0 457))]);
  sy_user := None;
  sy_loaded := true;
  sy_tick := 0;
|}.

Definition toy_install_env (starts : bool) : InstallEnv := {|
  io_fault _ _ _ := None;
  io_prefix _ := None;
  cmd_fault t c := match c with
                   | LaunchctlBootstrap =>
                       if starts || (79 <? t)%nat then None else Some (Exited "Input/output error")
                   | _ => None
                   end;
  chown_reached _ _ := true;
  cmd_stdout _ _ := "";
  cmd_stderr _ := "";
  new_owner := (0, 0)%N;
|}.

Definition toy_enrollment : HardwareSignerEnrollment :=
  mkEnrollment "keychain" "key" "fingerprint" "a label" true.

Definition toy_installer (starts : bool) : InstallerEnv := {|
  ie_sys := toy_install_env starts;
  current_exe := Ok "/build/stt-guard";
  rollback_dir := "/tmp/rollback";
  json_enrollment _ := Ok toy_enrollment;
  sqlite_tables _ _ _ := empty_db;
  sqlite_files _ _ := ("db", "wal", "shm");
|}.

Definition outcome_of : Sys * InstallOutcome :=
  @install_as_root (toy_installer false) toy_sql 0 (Some "/tmp/enrollment") toy_system.

 
