(* ===== verification/Installed.v ===== *)
(** * What a successful installation leaves

    The other half of the contract of [system.rs]: when the installer reports success
    the checks of [health.rs] find nothing to report, and the daemon that starts on the
    installed files trusts the enrolled signer and no other.  Each step is given the
    files it may touch and what it leaves in them; what a step leaves survives the
    steps that touch other files. *)

From S2P Require Import Prelude RustStr RustUtf8 TrustedSigners Signature Paths RuleStore.
From S2P Require Import HardwareSigning InstallHealth InstallSys Install Rollback.

(** ** Steps that succeed *)

(** The paths a step may touch: the given ones, the backups and, after the recursive
    change of ownership, what lies below the state directory. *)
Record Reach : Type := mkReach {
  re_paths : list string;
  re_state : bool;
  re_backups : bool;
}.

Section Installed.
Context `{IE : InstallerEnv}.

Definition reaches (T : Reach) (p : string) : bool :=
  bool_decide (p ∈ re_paths T) || (re_backups T && (bool_decide (p = rollback_dir) || below rollback_dir p))
  || (re_state T && below STATE_DIR p).

Definition within (T : Reach) (s s' : Sys) : Prop :=
  sy_user s' = sy_user s /\ forall p, reaches T p = false -> sy_fs s' !! p = sy_fs s !! p.

(** A call that, from a state with [P], leaves [Q] when it succeeds. *)
Definition leaves {E A} (P : Sys -> Prop) (T : Reach) (m : SM Sys E A) (Q : A -> Sys -> Prop) : Prop :=
  forall s s' a, P s -> m s = (s', Ok a) -> within T s s' /\ Q a s'.

(** The backups are files of a directory of their own. *)
Definition ready (i : Inst) : Prop :=
  backup_dir (is_tx i) = rollback_dir
  /\ forall p, below rollback_dir p = true -> plain_file (sy_fs (is_sys i) !! p).

(** The same of a step of the transaction. *)
Definition gives {A} (P : Sys -> Prop) (T : Reach) (m : SM Inst CliError A) (Q : A -> Sys -> Prop) : Prop :=
  forall i i' a, ready i -> P (is_sys i) -> m i = (i', Ok a) ->
    ready i' /\ within T (is_sys i) (is_sys i') /\ Q a (is_sys i').

Definition stable (T : Reach) (P : Sys -> Prop) : Prop := forall s s', within T s s' -> P s -> P s'.

Lemma within_refl (T : Reach) (s : Sys) : within T s s.
Proof. done. Qed.

Lemma within_trans (T : Reach) (s1 s2 s3 : Sys) : within T s1 s2 -> within T s2 s3 -> within T s1 s3.
Proof. intros [U1 F1] [U2 F2]. split; [congruence|]. intros p Hp. by rewrite F2, F1. Qed.

Definition reach_sub (T T' : Reach) : Prop :=
  Forall (fun p => reaches T' p = true) (re_paths T) /\ implb (re_state T) (re_state T') = true
  /\ implb (re_backups T) (re_backups T') = true.

Lemma reach_path (T : Reach) (p : string) : p ∈ re_paths T -> reaches T p = true.
Proof. intros Hp. unfold reaches. by rewrite bool_decide_eq_true_2. Qed.

Lemma reach_backup (T : Reach) (p : string) : re_backups T = true -> below rollback_dir p = true -> reaches T p = true.
Proof. intros Hb Hp. unfold reaches. by rewrite Hb, Hp, !orb_true_r. Qed.

Lemma reach_sub_refl (T : Reach) : reach_sub T T.
Proof.
  split_and!; [|by destruct (re_state T)|by destruct (re_backups T)].
  apply Forall_forall. intros p. apply reach_path.
Qed.

Lemma within_mono (T T' : Reach) (s s' : Sys) : reach_sub T T' -> within T s s' -> within T' s s'.
Proof.
  intros (Hp & Hs & Hb) [U F]. split; [done|]. intros p Hn. apply F.
  destruct (reaches T p) eqn:E; [|done]. rewrite <-Hn. unfold reaches in E.
  apply orb_true_iff in E as [[E|E]%orb_true_iff|E].
  - apply bool_decide_eq_true in E. symmetry. by eapply Forall_forall in Hp.
  - apply andb_true_iff in E as [E1 E2]. rewrite E1 in Hb. simpl in Hb. unfold reaches.
    by rewrite Hb, E2, orb_true_r.
  - apply andb_true_iff in E as [E1 E2]. rewrite E1 in Hs. simpl in Hs. unfold reaches.
    by rewrite Hs, E2, orb_true_r.
Qed.

Lemma gives_bind {A B} (P : Sys -> Prop) (T : Reach) (m : SM Inst CliError A) (k : A -> SM Inst CliError B)
    (Q : A -> Sys -> Prop) (Q' : B -> Sys -> Prop) :
  gives P T m Q -> (forall a, gives (Q a) T (k a) Q') -> gives P T (m ≫= k) Q'.
Proof.
  intros Hm Hk i i' b Hd HP. rewrite sm_bind_ok. intros (i1 & a & E1 & E2).
  destruct (Hm _ _ _ Hd HP E1) as (D1 & W1 & Q1). destruct (Hk a _ _ _ D1 Q1 E2) as (D2 & W2 & Q2).
  split_and!; eauto using within_trans.
Qed.

(** What a step does not touch it keeps. *)
Lemma gives_frame {A} (P R : Sys -> Prop) (T T' : Reach) (m : SM Inst CliError A) (Q : A -> Sys -> Prop) :
  gives P T m Q -> stable T R -> reach_sub T T' ->
  gives (fun s => P s /\ R s) T' m (fun a s => Q a s /\ R s).
Proof.
  intros Hm HR HT i i' a Hd [HP Hr] E. destruct (Hm _ _ _ Hd HP E) as (D & W & HQ).
  split_and!; eauto using within_mono.
Qed.

Lemma gives_mono {A} (P P' : Sys -> Prop) (T T' : Reach) (m : SM Inst CliError A) (Q Q' : A -> Sys -> Prop) :
  gives P T m Q -> (forall s, P' s -> P s) -> reach_sub T T' -> (forall a s, Q a s -> Q' a s) -> gives P' T' m Q'.
Proof.
  intros Hm HP HT HQ i i' a Hd Hp E. destruct (Hm _ _ _ Hd (HP _ Hp) E) as (D & W & H).
  split_and!; eauto using within_mono.
Qed.

Lemma gives_sys {A} (P : Sys -> Prop) (T : Reach) (m : SM Sys CliError A) (Q : A -> Sys -> Prop) :
  apart rollback_dir = true -> re_backups T = false ->
  Forall (fun p => p ∈ file_targets \/ p ∈ dir_targets \/ p ∈ scaffold) (re_paths T) ->
  leaves P T m Q -> gives P T (run_on m) Q.
Proof.
  intros Hapart Hb HT Hm i i' a [Hd Hpl] HP. unfold run_on. destruct (m (is_sys i)) as [s1 r] eqn:E. intros [= <- ->].
  destruct (Hm _ _ _ HP E) as (W & HQ). split_and!; [split; [done|]|done|done].
  intros p Hp. simpl. rewrite (proj2 W); [by apply Hpl|]. unfold reaches. rewrite Hb. simpl.
  apply orb_false_iff. split; [rewrite orb_false_r; apply bool_decide_eq_false_2|apply not_true_is_false].
  - intros Hin. eapply Forall_forall in HT; [|done]. destruct (targets_aside Hapart _ HT). congruence.
  - intros [_ Hs]%andb_true_iff. destruct (state_aside Hapart _ Hs). congruence.
Qed.

Lemma leaves_named {A} (P : Sys -> Prop) (T : Reach) (m : SM Sys string A) (name : string -> string) (Q : A -> Sys -> Prop) :
  leaves P T m Q -> leaves P T (named m name) Q.
Proof.
  intros Hm s s' a HP. unfold named. destruct (m s) as [s1 [b|e]] eqn:E; [|done]. intros [= <- <-]. eauto.
Qed.

Lemma leaves_bind {E A B} (P : Sys -> Prop) (T : Reach) (m : SM Sys E A) (k : A -> SM Sys E B)
    (Q : A -> Sys -> Prop) (Q' : B -> Sys -> Prop) :
  leaves P T m Q -> (forall a, leaves (Q a) T (k a) Q') -> leaves P T (m ≫= k) Q'.
Proof.
  intros Hm Hk s s' b HP. rewrite sm_bind_ok. intros (s1 & a & E1 & E2).
  destruct (Hm _ _ _ HP E1) as (W1 & Q1). destruct (Hk a _ _ _ Q1 E2) as (W2 & Q2).
  split; eauto using within_trans.
Qed.

Lemma gives_lift {A} (P : Sys -> Prop) (T : Reach) (r : result A CliError) :
  gives P T (sm_lift r) (fun a s => P s /\ r = Ok a).
Proof. intros i i' a Hd HP [= <- ->]. done. Qed.

Lemma gives_ret {A} (P : Sys -> Prop) (T : Reach) (a : A) : gives P T (mret a) (fun b s => P s /\ b = a).
Proof. intros i i' b Hd HP [= <- <-]. done. Qed.

Lemma gives_fail {A} (P : Sys -> Prop) (T : Reach) (msg : string) (Q : A -> Sys -> Prop) : gives P T (fail msg) Q.
Proof. by intros i i' a Hd HP. Qed.

(** *** Nodes *)

Definition holds (p : string) (Φ : Node -> Prop) (s : Sys) : Prop := exists n, sy_fs s !! p = Some n /\ Φ n.

Lemma stable_and (T : Reach) (P Q : Sys -> Prop) : stable T P -> stable T Q -> stable T (fun s => P s /\ Q s).
Proof. intros HP HQ s s' Hw []. eauto. Qed.

Lemma stable_holds (T : Reach) (p : string) (Φ : Node -> Prop) : reaches T p = false -> stable T (holds p Φ).
Proof. intros Hp s s' [_ F] (n & En & Hn). exists n. by rewrite F. Qed.

Lemma stable_user (T : Reach) (Φ : option (gmap string string) -> Prop) : stable T (fun s => Φ (sy_user s)).
Proof. intros s s' [U _]. by rewrite U. Qed.

Definition is_file (n : Node) : Prop := match n with NFile _ _ => True | _ => False end.
Definition file_with (content : string) (uid gid mode : N) (n : Node) : Prop :=
  n = NFile content (mkPathMetadata uid gid mode).
Definition dir_with (uid gid mode : N) (n : Node) : Prop := n = NDir (mkPathMetadata uid gid mode).

End Installed.

Section InstalledSteps.
Context `{IE : InstallerEnv} (Hapart : apart rollback_dir = true).

Definition only (ps : list string) : Reach := mkReach ps false false.
Definition with_backups (ps : list string) : Reach := mkReach ps false true.

(** ** What the calls leave *)

Lemma within_next (T : Reach) (s : Sys) : within T s (next s).
Proof. done. Qed.

Lemma within_set (T : Reach) (s s' : Sys) (p : string) (n : Node) :
  sy_user s' = sy_user s -> sy_fs s' = <[p := n]> (sy_fs s) -> p ∈ re_paths T -> within T s s'.
Proof.
  intros Hu Hf Hp. split; [done|]. intros q Hq. rewrite Hf, lookup_insert_ne; [done|]. intros ->.
  by rewrite reach_path in Hq.
Qed.

Lemma holds_set (s s' : Sys) (p : string) (n : Node) (Φ : Node -> Prop) :
  sy_fs s' = <[p := n]> (sy_fs s) -> Φ n -> holds p Φ s'.
Proof. intros Hf Hn. exists n. rewrite Hf, lookup_insert_eq. done. Qed.

(** [chown] and [chmod] of a file or directory that is there. *)
Lemma chown_leaves (o : Owner) (p d : string) (Φ : Node -> Prop) :
  (forall n, Φ n -> forall t m, n <> NLink t m) ->
  leaves (holds p Φ) (only [p]) (run_cmd (Chown false o p) d)
    (fun _ s => exists uid gid, owner_ids s o = Some (uid, gid)
       /\ holds p (fun n => exists n0, Φ n0 /\ n = set_owner uid gid n0) s).
Proof.
  intros Hl s s' [] (n & En & Hn) E.
  assert (Hr : resolve (sy_fs s) p = p) by (apply resolve_not_link; rewrite En; intros t m [= ->]; by eapply Hl).
  destruct (chown_ok _ _ _ _ _ _ _ E En Hr) as (uid & gid & Ho & _ & Hu & Hf). split.
  - eapply within_set; [done..|apply list_elem_of_here].
  - exists uid, gid. split.
    + rewrite <-Ho. destruct o; try done. simpl. unfold service_uid. by rewrite Hu.
    + eapply holds_set; [done|]. eauto.
Qed.

Lemma chmod_leaves (mode : N) (p d : string) (Φ : Node -> Prop) :
  (forall n, Φ n -> forall t m, n <> NLink t m) ->
  leaves (holds p Φ) (only [p]) (run_cmd (Chmod mode p) d)
    (fun _ => holds p (fun n => exists n0, Φ n0 /\ n = set_mode mode n0)).
Proof.
  intros Hl s s' [] (n & En & Hn) E.
  assert (Hr : resolve (sy_fs s) p = p) by (apply resolve_not_link; rewrite En; intros t m [= ->]; by eapply Hl).
  destruct (chmod_ok _ _ _ _ _ _ _ E En Hr) as (_ & Hu & Hf). split.
  - eapply within_set; [done..|apply list_elem_of_here].
  - eapply holds_set; [done|]. eauto.
Qed.

(** What the steps touch, they have recorded. *)
Definition recordable (p : string) : Prop := p ∈ file_targets \/ p ∈ dir_targets \/ p ∈ scaffold.

Lemma gives_run {A} (P : Sys -> Prop) (p : string) (m : SM Sys CliError A) (Q : A -> Sys -> Prop) :
  recordable p -> leaves P (only [p]) m Q -> gives P (only [p]) (run_on m) Q.
Proof using Hapart. intros Hp. apply gives_sys; [done|done|]. by apply Forall_singleton. Qed.

(** A file whose content has a property, of any owner; of root with a mode. *)
Definition some_file (C : string -> Prop) (n : Node) : Prop := exists c m, C c /\ n = NFile c m.
Definition root_file (C : string -> Prop) (mode : N) (n : Node) : Prop := exists c, C c /\ file_with c 0 0 mode n.
Definition some_dir (n : Node) : Prop := exists m, n = NDir m.

(** A file given to root with a mode keeps its content. *)
Lemma own_file_gives (p what : string) (mode : N) (C : string -> Prop) : p ∈ file_targets ->
  gives (holds p (some_file C)) (only [p]) (own_by_root p what mode) (fun _ => holds p (root_file C mode)).
Proof using Hapart.
  intros Hp. assert (Hr : recordable p) by (by left). eapply gives_bind.
  - apply gives_run, chown_leaves; [done|]. by intros n (c & m & _ & ->).
  - intros []. eapply (gives_mono (holds p (fun n => exists c m, C c /\ n = NFile c (mkPathMetadata 0 0 m)))).
    + apply gives_run, chmod_leaves; [done|]. by intros n (c & m & _ & ->).
    + intros s (uid & gid & [= <- <-] & (n & En & (n0 & (c & m & HC & ->) & ->))).
      exists (NFile c (mkPathMetadata 0 0 (pm_mode m))). eauto.
    + apply reach_sub_refl.
    + intros [] s (n & En & (n0 & (c & m & HC & ->) & ->)). eexists. split; [done|]. by exists c.
Qed.

Lemma own_dir_gives (p what what' : string) (o : Owner) (mode : N) : p ∈ dir_targets ->
  gives (holds p some_dir) (only [p]) (run_on (run_cmd (Chown false o p) what) ;; run_on (run_cmd (Chmod mode p) what'))
    (fun _ s => exists uid gid, owner_ids s o = Some (uid, gid) /\ holds p (dir_with uid gid mode) s).
Proof using Hapart.
  intros Hp. assert (Hr : recordable p) by (right; by left). eapply gives_bind.
  - apply gives_run, chown_leaves; [done|]. by intros n [m ->].
  - intros [] i i' [] Hd (uid & gid & Ho & Hh) E.
    assert (Hm : gives (holds p (fun n => exists m, n = NDir (mkPathMetadata uid gid m))) (only [p])
                   (run_on (run_cmd (Chmod mode p) what')) (fun _ => holds p (dir_with uid gid mode))).
    { eapply gives_mono; [apply gives_run, chmod_leaves; [done|]|done|apply reach_sub_refl|].
      - by intros n [m ->].
      - intros [] s (n & En & (n0 & [m ->] & ->)). by eexists. }
    edestruct Hm as (D & W & HQ); [exact Hd| |exact E|].
    { destruct Hh as (n & En & (n0 & [m ->] & ->)). eexists. split; [done|]. by eexists. }
    split_and!; [done..|]. exists uid, gid. split; [|done]. rewrite <-Ho. destruct W as [U _].
    destruct o; try done. simpl. unfold service_uid. by rewrite U.
Qed.

(** *** Recording *)

Lemma io_lstat_ok (p : string) (name : string -> string) (i i' : Inst) (n : option Node) :
  io (lstat p) name i = (i', Ok n) -> i' = mkInst (next (is_sys i)) (is_tx i) /\ n = sy_fs (is_sys i) !! p.
Proof.
  destruct (io_lstat p name i) as (r & -> & [->|[e ->]]); [|done]. by intros [= <- <-].
Qed.

Lemma make_dirs_app (ds ds' : list string) (f f' : Fs) :
  make_dirs (ds ++ ds') f = Ok f' -> exists f1, make_dirs ds f = Ok f1 /\ make_dirs ds' f1 = Ok f'.
Proof.
  revert f. induction ds as [|d ds IH]; intros f; simpl; [eauto|].
  destruct (f !! resolve f d) as [[]|]; try done; [apply IH|]. case_bool_decide; [apply IH|done].
Qed.

Lemma make_dirs_last (ds : list string) (p : string) (f f' : Fs) :
  make_dirs (ds ++ [p]) f = Ok f' -> plain_dir (f !! p) -> exists m, f' !! p = Some (NDir m).
Proof.
  intros (f1 & E1 & E2)%make_dirs_app Hp.
  assert (Hp1 : plain_dir (f1 !! p)).
  { destruct (make_dirs_moved _ _ _ E1 p) as [->|(_ & _ & Hd)]; [done|]. by destruct (f1 !! p) as [[]|]. }
  simpl in E2. rewrite resolve_plain in E2 by auto. destruct (f1 !! p) as [[]|] eqn:E; try done.
  - injection E2 as <-. eauto.
  - rewrite bool_decide_eq_true_2 in E2 by done. injection E2 as <-. rewrite lookup_insert_eq. eauto.
Qed.

Lemma record_directory_gives (p : string) : p ∈ dir_targets ->
  gives (fun _ => True) (only (p :: ancestors p)) (record_directory p) (fun _ => holds p some_dir).
Proof using Hapart.
  intros Hp i i' [] Hd _. unfold record_directory. rewrite sm_bind_ok. intros (i1 & [] & E1 & E2).
  assert (H1 : ready i1 /\ sy_user (is_sys i1) = sy_user (is_sys i) /\ sy_fs (is_sys i1) = sy_fs (is_sys i)
               /\ plain_dir (sy_fs (is_sys i) !! p)).
  { unfold record_directory_created in E1. rewrite sm_bind_ok in E1. destruct E1 as (i0 & n & [-> ->]%io_lstat_ok & E1).
    destruct (sy_fs (is_sys i) !! p) as [[]|]; try done; injection E1 as <-; by split_and!. }
  destruct H1 as (D1 & U1 & F1 & Hpl). rewrite sm_bind_ok in E2. destruct E2 as (i2 & [] & E2 & E3).
  assert (H2 : ready i2 /\ sy_user (is_sys i2) = sy_user (is_sys i1) /\ sy_fs (is_sys i2) = sy_fs (is_sys i1)).
  { unfold record_path_metadata in E2. rewrite sm_bind_ok in E2. destruct E2 as (i0 & n & [-> ->]%io_lstat_ok & E2).
    destruct (sy_fs (is_sys i1) !! p); injection E2 as <-; by split_and!. }
  destruct H2 as (D2 & U2 & F2).
  assert (Hc : gives (fun s => plain_dir (sy_fs s !! p)) (only (p :: ancestors p))
                 (io (create_dir_all p) (fun e => "create " +:+ p +:+ ": " +:+ e)) (fun _ => holds p some_dir)).
  { apply gives_sys; [done..| |].
    - apply Forall_cons. split; [right; by left|]. apply Forall_forall. intros q Hq. right; right.
      apply list_elem_of_join. exists (ancestors p). split; [done|]. apply list_elem_of_fmap. eauto.
    - apply leaves_named. intros s s' [] Hs (f & Hf & ->)%call_ok.
      destruct (make_dirs _ _) as [f'|] eqn:Em; [|done]. injection Hf as <-.
      split; [split; [done|]|].
      + intros q Hq. destruct (make_dirs_moved _ _ _ Em q) as [|(Hin & _)]; [done|].
        rewrite reach_path in Hq; [done|]. simpl.
        apply elem_of_app in Hin as [Hin|Hin]; [by apply list_elem_of_further|].
        apply list_elem_of_singleton in Hin as ->. apply list_elem_of_here.
      + destruct (make_dirs_last _ _ _ _ Em Hs) as [m Hm]. exists (NDir m). split; [done|]. by eexists. }
  edestruct Hc as (D3 & [U3 F3] & Q3); [exact D2| |exact E3|]; [by rewrite F2, F1|].
  split_and!; [done| |done]. split; [congruence|]. intros q Hq. by rewrite F3, F2, F1.
Qed.

(** *** Writing *)

Lemma copy_user (src dst : string) (s s' : Sys) (u : unit) : copy src dst s = (s', Ok u) -> sy_user s' = sy_user s.
Proof.
  unfold copy. destruct (sy_fs s !! _) as [[]|]; try done. cbv zeta. unfold write.
  destruct (io_fault _ _ _); [done|]. destruct (put _ _ _ _); [|done]. by intros [= <-].
Qed.

Lemma write_leaves (name p content : string) (mode : N) :
  leaves (fun s => plain_file (sy_fs s !! p)) (only [p]) (write name p content mode)
    (fun _ => holds p (some_file (fun c => c = content))).
Proof.
  intros s s' a Hp E. destruct (write_ok _ _ _ _ _ _ _ E Hp) as ([m Hm] & Hu & Ho). split; [split; [done|]|].
  - intros q Hq. apply Ho. intros ->. by rewrite reach_path in Hq by apply list_elem_of_here.
  - eexists. split; [done|]. by eexists _, _.
Qed.

Lemma record_file_gives (p : string) : p ∈ file_targets ->
  gives (fun _ => True) (with_backups []) (record_file_replacement p) (fun _ s => plain_file (sy_fs s !! p)).
Proof using Hapart.
  intros Hp i i' [] [Hd Hb] _. unfold record_file_replacement. rewrite sm_bind_ok.
  intros (i1 & n & [-> ->]%io_lstat_ok & E).
  destruct (sy_fs (is_sys i) !! p) as [[c m|m|t m|m]|] eqn:Ep; try done.
  - rewrite sm_bind_ok in E. destruct E as (i2 & s0 & [= <- <-] & E). rewrite sm_bind_ok in E.
    destruct E as (i3 & [] & E3 & E4). injection E4 as <-.
    set (b := next_backup_path (is_tx i)) in *.
    assert (Hbel : below rollback_dir b = true).
    { unfold b, next_backup_path. rewrite Hd. apply (below_backup_path Hapart). }
    unfold io, run_on, named in E3. simpl in E3.
    destruct (copy p _ (next (is_sys i))) as [s3 [u|e]] eqn:Ec; [|done]. injection E3 as <-. simpl in *.
    assert (Hpb : p <> b).
    { intros ->. destruct (targets_aside Hapart b); [by left|]. congruence. }
    destruct (copy_backup p b (next (is_sys i)) s3 c m u) as ((m3 & E3) & O3 & _); [done|by apply Hb|done|done|].
    split_and!.
    + split; [done|]. intros q Hq. simpl. destruct (decide (q = b)) as [->|]; [by rewrite E3|]. rewrite O3 by done. by apply Hb.
    + split; [by apply (copy_user _ _ _ _ _ Ec)|]. intros q Hq. apply O3. intros ->. by rewrite reach_backup in Hq.
    + rewrite O3 by done. simpl. by rewrite Ep.
  - injection E as <-. split_and!; [done|done|]. simpl. by rewrite Ep.
Qed.

Lemma copy_leaves (src dst : string) :
  leaves (fun s => plain_file (sy_fs s !! dst)) (only [dst]) (copy src dst) (fun _ => holds dst (some_file (fun _ => True))).
Proof.
  intros s s' [] Hp E. pose proof (copy_user _ _ _ _ _ E) as Hu.
  destruct (copy_writes src dst s) as (_ & Ho & _); [by intros q ->%list_elem_of_singleton|]. rewrite E in Ho. simpl in Ho.
  split; [split; [done|]|].
  - intros q Hq. apply Ho. intros Hin. by rewrite reach_path in Hq.
  - unfold copy in E. destruct (sy_fs s !! resolve (sy_fs s) src) as [[c m| | |]|]; try done. cbv zeta in E.
    destruct (write _ _ _ _ s) as [s1 [[]|]] eqn:Ew; [|done]. injection E as <-.
    destruct (write_ok _ _ _ _ _ _ _ Ew Hp) as ([m1 Hm1] & _).
    simpl. rewrite (resolve_plain (sy_fs s1) dst) by (rewrite Hm1; by left).
    eexists. simpl. rewrite lookup_alter_eq, Hm1. simpl. split; [done|]. by eexists _, _.
Qed.

(** *** Composition *)

Lemma gives_seq {A B} (P P1 R : Sys -> Prop) (T1 T : Reach) (m : SM Inst CliError A) (k : A -> SM Inst CliError B)
    (Q1 : A -> Sys -> Prop) (Q : B -> Sys -> Prop) :
  gives P1 T1 m Q1 -> stable T1 R -> reach_sub T1 T -> (forall s, P s -> P1 s /\ R s) ->
  (forall a, gives (fun s => Q1 a s /\ R s) T (k a) Q) -> gives P T (m ≫= k) Q.
Proof.
  intros Hm HR HT HP Hk. eapply gives_bind; [|exact Hk].
  eapply gives_mono; [by apply (gives_frame P1 R T1 T)|exact HP|apply reach_sub_refl|done].
Qed.

Lemma gives_frame_mono {A} (P P1 R : Sys -> Prop) (T1 T : Reach) (m : SM Inst CliError A) (Q1 Q : A -> Sys -> Prop) :
  gives P1 T1 m Q1 -> stable T1 R -> reach_sub T1 T -> (forall s, P s -> P1 s /\ R s) ->
  (forall a s, Q1 a s /\ R s -> Q a s) -> gives P T m Q.
Proof.
  intros Hm HR HT HP HQ.
  eapply gives_mono; [by apply (gives_frame P1 R T1 T)|exact HP|apply reach_sub_refl|done].
Qed.

Lemma stable_forall {X} (T : Reach) (F : X -> Sys -> Prop) (xs : list X) :
  (forall x, x ∈ xs -> stable T (F x)) -> stable T (fun s => forall x, x ∈ xs -> F x s).
Proof. intros HF s s' Hw H x Hx. by eapply HF; eauto. Qed.

Lemma gives_mapM {X A} (f : X -> SM Inst CliError A) (G F : X -> Sys -> Prop) (I : Sys -> Prop) (Tx : X -> Reach)
    (T : Reach) (xs : list X) :
  NoDup xs -> (forall x, x ∈ xs -> gives (G x) (Tx x) (f x) (fun _ => F x) /\ reach_sub (Tx x) T /\ stable (Tx x) I) ->
  (forall x y, x ∈ xs -> y ∈ xs -> x <> y -> stable (Tx x) (F y) /\ stable (Tx x) (G y)) ->
  gives (fun s => I s /\ forall x, x ∈ xs -> G x s) T (mapM f xs) (fun _ s => I s /\ forall x, x ∈ xs -> F x s).
Proof.
  intros Hnd Hx Hxy. revert I Hx. induction Hnd as [|x xs Hn Hnd IH]; intros I Hx.
  - intros i i' l Hr [HI _] [= <- <-]. split_and!; [done|done|done|]. by intros ? ?%not_elem_of_nil.
  - change (mapM f (x :: xs)) with (f x ≫= fun y => mapM f xs ≫= fun k => mret (y :: k)).
    destruct (Hx x) as (Hg & Ht & HI); [apply list_elem_of_here|].
    apply (gives_seq _ (G x) (fun s => I s /\ forall y, y ∈ xs -> G y s) (Tx x) _ _ _ (fun _ => F x)); [done| |done| |].
    + apply stable_and; [done|]. apply stable_forall. intros y Hy.
      eapply (Hxy x y); [apply list_elem_of_here|by apply list_elem_of_further|]. by intros ->.
    + intros s [HIs HG]. split_and!; [apply HG, list_elem_of_here|done|]. intros y Hy. by apply HG, list_elem_of_further.
    + intros a. eapply gives_bind.
      * eapply (gives_mono (fun s => (F x s /\ I s) /\ forall y, y ∈ xs -> G y s)).
        -- apply IH; [intros y z Hy Hz; apply Hxy; by apply list_elem_of_further|].
           intros y Hy. destruct (Hx y) as (Hgy & Hty & HIy); [by apply list_elem_of_further|]. split_and!; [done|done|].
           apply stable_and; [|done]. eapply (Hxy y x); [by apply list_elem_of_further|apply list_elem_of_here|]. by intros ->.
        -- intros s (HF & HIs & HG). done.
        -- apply reach_sub_refl.
        -- intros l s H. exact H.
      * intros l i i' b Hr ((HF & HIs) & Hall) [= <- <-]. split_and!; [done|done|done|].
        intros y [->|Hy]%elem_of_cons; auto.
Qed.

Lemma copy_installed_gives (src dst : string) : dst ∈ file_targets ->
  gives (fun _ => True) (with_backups [dst]) (copy_installed src dst) (fun _ => holds dst (some_file (fun _ => True))).
Proof using Hapart.
  intros Hd. eapply (gives_seq _ (fun _ => True) (fun _ => True)); [by apply record_file_gives|done| |done|].
  - split_and!; [constructor|done..].
  - intros a. eapply gives_mono; [apply gives_run; [by left|apply leaves_named, copy_leaves]|by intros s []| |done].
    split_and!; [|done..]. apply Forall_singleton. apply reach_path, list_elem_of_here.
Qed.

Lemma leaves_exists (P : Sys -> Prop) (p : string) : (forall s, P s -> P (next s)) ->
  leaves P (only []) (exists_path p : SM Sys CliError bool) (fun _ => P).
Proof. intros HP s s' b Hs [= <- <-]. split; [done|auto]. Qed.

Lemma gives_exists (P : Sys -> Prop) (p : string) : (forall s, P s -> P (next s)) ->
  gives P (only []) (run_on (exists_path p)) (fun _ => P).
Proof using Hapart. intros HP. apply gives_sys; [done|done|constructor|by apply leaves_exists]. Qed.

(** *** The binaries *)

Lemma not_reached (T : Reach) (p : string) :
  recordable p -> p ∉ re_paths T -> (re_state T && below STATE_DIR p) = false -> reaches T p = false.
Proof using Hapart.
  intros Hr Hp Hs. unfold reaches. rewrite bool_decide_eq_false_2, Hs by done.
  destruct (targets_aside Hapart p Hr) as [Hne ->]. by rewrite (bool_decide_eq_false_2 (p = rollback_dir)), andb_false_r.
Qed.

Lemma reach_sub_paths (T T' : Reach) :
  Forall (fun p => p ∈ re_paths T') (re_paths T) ->
  implb (re_state T) (re_state T') && implb (re_backups T) (re_backups T') = true -> reach_sub T T'.
Proof.
  intros Hp [Hs Hb]%andb_true_iff. split_and!; [|done..].
  eapply Forall_impl; [exact Hp|]. intros p. apply reach_path.
Qed.

Ltac targets := apply list_elem_of_In; vm_compute; tauto.
Ltac recordable := first [left; targets | right; left; targets].
Ltac sub := apply reach_sub_paths; [by_decide|reflexivity].
(** A fact about a path a step does not touch. *)
Ltac spared := apply stable_holds, not_reached; [recordable|by_decide|reflexivity].

Definition binary_path (b : string) : string := path_join BIN_DIR b.
Definition reach_binaries : Reach :=
  with_backups (dylib_dst :: BIN_DIR :: (binary_path <$> INSTALLED_BINARIES) ++ ancestors BIN_DIR).

Definition any (_ : string) : Prop := True.

Definition binaries_installed (s : Sys) : Prop :=
  holds BIN_DIR (dir_with 0 0 493) s
  /\ (forall b, b ∈ INSTALLED_BINARIES -> holds (binary_path b) (root_file any 493) s)
  /\ holds dylib_dst (root_file any 420) s.

Lemma binary_path_inj (a b : string) : a ∈ INSTALLED_BINARIES -> b ∈ INSTALLED_BINARIES -> binary_path a = binary_path b -> a = b.
Proof.
  assert (Forall (fun a => Forall (fun b => binary_path a = binary_path b -> a = b) INSTALLED_BINARIES) INSTALLED_BINARIES)
    as HF by by_decide.
  intros Ha Hb. eapply Forall_forall in HF; [|exact Ha]. by eapply Forall_forall in HF.
Qed.

Lemma binaries_spared (T : Reach) (Φ : Node -> Prop) : (forall b, b ∈ INSTALLED_BINARIES -> binary_path b ∉ re_paths T) ->
  re_state T = false -> stable T (fun s => forall b, b ∈ INSTALLED_BINARIES -> holds (binary_path b) Φ s).
Proof using Hapart.
  intros HT Hs. apply (stable_forall T (fun b => holds (binary_path b) Φ)). intros b Hb.
  apply stable_holds, not_reached; [left; by apply binaries_targets|by apply HT|by rewrite Hs].
Qed.

Lemma copy_binary_gives (source_dir b : string) : b ∈ INSTALLED_BINARIES ->
  gives (fun _ => True) (with_backups [binary_path b]) (copy_binary source_dir b)
    (fun _ => holds (binary_path b) (some_file any)).
Proof using Hapart.
  intros Hb. eapply (gives_seq _ (fun _ => True) (fun _ => True)); [by apply gives_exists|done|sub|done|].
  intros []; [|apply gives_fail]. cbn [negb].
  eapply gives_mono; [apply copy_installed_gives; by apply binaries_targets|done|apply reach_sub_refl|done].
Qed.

(** A property of the binaries, by evaluation. *)
Lemma each_binary (P : string -> bool) (b : string) :
  forallb (fun b => P (binary_path b)) INSTALLED_BINARIES = true -> b ∈ INSTALLED_BINARIES -> P (binary_path b) = true.
Proof. rewrite forallb_forall. intros HF Hb%list_elem_of_In. auto. Qed.

Lemma binaries_in (l : list string) (b : string) : b ∈ INSTALLED_BINARIES ->
  forallb (fun b => bool_decide (binary_path b ∈ l)) INSTALLED_BINARIES = true -> binary_path b ∈ l.
Proof.
  intros Hb HF. pose proof (each_binary (fun p => bool_decide (p ∈ l)) b HF Hb) as H.
  cbv beta in H. by apply bool_decide_eq_true in H.
Qed.

Lemma binaries_not_in (l : list string) (b : string) : b ∈ INSTALLED_BINARIES ->
  forallb (fun b => negb (bool_decide (binary_path b ∈ l))) INSTALLED_BINARIES = true -> binary_path b ∉ l.
Proof.
  intros Hb HF. pose proof (each_binary (fun p => negb (bool_decide (p ∈ l))) b HF Hb) as H.
  cbv beta in H. by apply negb_true_iff, bool_decide_eq_false in H.
Qed.

Lemma binary_ne (p b : string) : b ∈ INSTALLED_BINARIES ->
  forallb (fun b => negb (bool_decide (p = binary_path b))) INSTALLED_BINARIES = true -> p <> binary_path b.
Proof.
  intros Hb HF. pose proof (each_binary (fun q => negb (bool_decide (p = q))) b HF Hb) as H.
  cbv beta in H. by apply negb_true_iff, bool_decide_eq_false in H.
Qed.

Lemma own_bin_gives : gives (holds BIN_DIR some_dir) (only [BIN_DIR]) own_bin_dir (fun _ => holds BIN_DIR (dir_with 0 0 493)).
Proof using Hapart.
  eapply gives_mono; [apply own_dir_gives; targets|done|apply reach_sub_refl|].
  intros [] s (uid & gid & [= <- <-] & Hh). done.
Qed.

Lemma hook_source_gives (P : Sys -> Prop) (source_dir : string) : (forall s, P s -> P (next s)) ->
  gives P (only []) (hook_dylib_source_path source_dir) (fun _ => P).
Proof using Hapart.
  intros HP. eapply gives_bind; [by apply gives_exists|]. intros [].
  - eapply gives_mono; [apply gives_ret|done|apply reach_sub_refl|]. by intros a s [].
  - eapply gives_bind; [by apply gives_exists|]. intros []; [|apply gives_fail].
    eapply gives_mono; [apply gives_ret|done|apply reach_sub_refl|]. by intros a s [].
Qed.

Lemma exists_file {E} (p : string) (s : Sys) (c : string) (m : PathMetadata) :
  stat_works -> sy_fs s !! p = Some (NFile c m) -> exists_path (E := E) p s = (next s, Ok true).
Proof.
  intros Hstat Hp. unfold exists_path. rewrite Hstat.
  rewrite (resolve_plain (sy_fs s) p) by (rewrite Hp; by left). by rewrite Hp.
Qed.

Lemma deploy_gives : stat_works -> gives (fun _ => True) reach_binaries deploy_binaries (fun _ => binaries_installed).
Proof using Hapart.
  intros Hstat. eapply (gives_seq _ (fun _ => True) (fun _ => True));
    [apply (record_directory_gives BIN_DIR); targets|done|sub|done|]. intros [].
  eapply gives_bind; [apply gives_lift|]. intros source_dir.
  eapply (gives_seq _ (fun s => True /\ forall b, b ∈ INSTALLED_BINARIES -> True) (holds BIN_DIR some_dir)).
  { apply (gives_mapM _ (fun _ _ => True) (fun b => holds (binary_path b) (some_file any)) (fun _ => True)
             (fun b => with_backups [binary_path b]) (with_backups (binary_path <$> INSTALLED_BINARIES))).
    - by_decide.
    - intros b Hb. split_and!; [by apply copy_binary_gives| |done].
      apply reach_sub_paths; [|reflexivity]. apply Forall_singleton.
      apply binaries_in; [done|vm_compute; reflexivity].
    - intros a b Ha Hb Hne. split; [|done]. apply stable_holds, not_reached; [left; by apply binaries_targets| |done].
      intros E%list_elem_of_singleton. apply Hne. symmetry. by apply binary_path_inj. }
  { spared. }
  { sub. }
  { by intros s [[]]. }
  intros l. set (F1 := fun s => holds BIN_DIR some_dir s
                  /\ forall b, b ∈ INSTALLED_BINARIES -> holds (binary_path b) (some_file any) s).
  eapply (gives_bind _ _ _ _ (fun _ => F1)).
  { eapply (gives_mono F1); [by apply hook_source_gives|by intros s [[_ ?] ?]|sub|done]. }
  intros dylib_src. eapply (gives_seq _ (fun _ => True) F1);
    [apply copy_installed_gives; targets| |sub|done|].
  { apply stable_and; [spared|]. apply binaries_spared; [|done]. intros b Hb. apply binaries_not_in; [done|vm_compute; reflexivity]. }
  intros []. eapply (gives_seq _ (holds BIN_DIR some_dir)
    (fun s => (forall b, b ∈ INSTALLED_BINARIES -> holds (binary_path b) (some_file any) s)
              /\ holds dylib_dst (some_file any) s)); [apply own_bin_gives| |sub|by intros s (? & ? & ?)|].
  { apply stable_and; [|spared]. apply binaries_spared; [|done]. intros b Hb. apply binaries_not_in; [done|vm_compute; reflexivity]. }
  intros []. set (F2 := fun s => holds BIN_DIR (dir_with 0 0 493) s /\ holds dylib_dst (some_file any) s).
  eapply (gives_bind _ _ _ _ (fun _ s => F2 s /\ forall b, b ∈ INSTALLED_BINARIES -> holds (binary_path b) (root_file any 493) s)).
  { eapply (gives_mono (fun s => F2 s /\ forall b, b ∈ INSTALLED_BINARIES -> holds (binary_path b) (some_file any) s)).
    - apply (gives_mapM _ (fun b => holds (binary_path b) (some_file any)) (fun b => holds (binary_path b) (root_file any 493))
               F2 (fun b => only [binary_path b]) reach_binaries).
      + by_decide.
      + intros b Hb. split_and!; [apply own_file_gives; by apply binaries_targets| |].
        * apply reach_sub_paths; [|reflexivity]. apply Forall_singleton.
      apply binaries_in; [done|vm_compute; reflexivity].
        * apply stable_and; apply stable_holds, not_reached; try recordable; try reflexivity;
            intros E%list_elem_of_singleton; revert E; (apply binary_ne; [done|vm_compute; reflexivity]).
      + intros a b Ha Hb Hne.
        assert (Hsp : reaches (only [binary_path a]) (binary_path b) = false).
        { apply not_reached; [left; by apply binaries_targets| |done].
          intros E%list_elem_of_singleton. apply Hne. symmetry. by apply binary_path_inj. }
        split; by apply stable_holds.
    - by intros s (? & ? & ?).
    - apply reach_sub_refl.
    - done. }
  intros l2. set (F3 := fun s => holds BIN_DIR (dir_with 0 0 493) s
                     /\ forall b, b ∈ INSTALLED_BINARIES -> holds (binary_path b) (root_file any 493) s).
  intros i i' [] Hr ((Hbin & Hdyl) & Hbs) E. rewrite sm_bind_ok in E. destruct E as (i1 & there & E1 & E2).
  unfold run_on in E1. destruct Hdyl as (n & En & (c & m & HC & ->)).
  rewrite (exists_file _ _ c m) in E1 by done. injection E1 as <- <-.
  assert (Hown : gives (fun s => holds dylib_dst (some_file any) s /\ F3 s) reach_binaries (own_by_root dylib_dst "dylib" 420)
                   (fun _ s => holds dylib_dst (root_file any 420) s /\ F3 s)).
  { apply (gives_frame _ F3 (only [dylib_dst])); [apply own_file_gives; targets| |sub].
    apply stable_and; [spared|]. apply binaries_spared; [|done]. intros b Hb. apply binaries_not_in; [done|vm_compute; reflexivity]. }
  edestruct Hown as (D & W & Q); [|split|exact E2|].
  - exact Hr.
  - exists (NFile c m). split; [exact En|]. by exists c, m.
  - done.
  - split_and!; [done|done|]. destruct Q as (? & ? & ?). done.
Qed.

(** *** The directories of the service *)

Definition owned_dir (p : string) (gid : N) (s : Sys) : Prop :=
  exists uid, service_uid s = Some uid /\ holds p (dir_with uid gid 457) s.

Lemma stable_owned (T : Reach) (p : string) (gid : N) : reaches T p = false -> stable T (owned_dir p gid).
Proof.
  intros Hp s s' [U F] (uid & Hu & n & En & Hn). exists uid. split; [by unfold service_uid; rewrite U|].
  exists n. by rewrite F.
Qed.

Lemma service_directory_gives (p what : string) (gid : N) : p ∈ dir_targets ->
  gives (fun _ => True) (only (p :: ancestors p)) (service_directory p what gid) (fun _ => owned_dir p gid).
Proof using Hapart.
  intros Hp. eapply gives_bind; [by apply record_directory_gives|]. intros [].
  eapply gives_mono; [by apply own_dir_gives|done| |].
  - apply reach_sub_paths; [|done]. apply Forall_singleton, list_elem_of_here.
  - intros [] s (uid & gid' & Ho & Hh). unfold owner_ids in Ho. destruct (service_uid s) as [u|] eqn:Eu; [|done].
    injection Ho as -> ->. by exists uid.
Qed.

Definition reach_directories : Reach :=
  only (STATE_DIR :: LOG_DIR :: ancestors STATE_DIR ++ ancestors LOG_DIR).

Definition directories_made (gid : N) (s : Sys) : Prop := owned_dir STATE_DIR gid s /\ owned_dir LOG_DIR gid s.

Lemma directories_gives (gid : N) :
  gives (fun _ => True) reach_directories (create_directories gid) (fun _ => directories_made gid).
Proof using Hapart.
  eapply (gives_seq _ (fun _ => True) (fun _ => True)); [apply service_directory_gives; targets|done|sub|done|]. intros [].
  eapply (gives_frame_mono _ (fun _ => True) (owned_dir STATE_DIR gid)); [apply (service_directory_gives LOG_DIR); targets| |sub|by intros s [? _]|].
  - apply stable_owned, not_reached; [recordable|by_decide|reflexivity].
  - by intros [] s [].
Qed.

(** *** The manifest, the database and the service definition *)

Lemma lstat_leaves (P : Sys -> Prop) (p : string) : (forall s, P s -> P (next s)) ->
  leaves P (only []) (attempt (lstat p)) (fun _ => P).
Proof.
  intros HP s s' a Hs. unfold attempt. destruct (lstat_spec p s) as (r & -> & _). intros [= <- <-]. split; [done|auto].
Qed.

Lemma gives_bind_absurd {A B} (P : Sys -> Prop) (T : Reach) (msg : string) (k : A -> SM Inst CliError B) (Q : B -> Sys -> Prop) :
  gives P T (fail msg ≫= k) Q.
Proof. intros i i' b _ _. by rewrite sm_bind_ok; intros (i1 & a & [=] & _). Qed.

Definition manifest_written (e : HardwareSignerEnrollment) : Sys -> Prop :=
  holds trusted_rule_signers_path (root_file (fun c => c = trusted_signer_manifest e) 420).

Lemma create_new_leaves (p : string) (mode : N) :
  leaves (fun _ => True) (only [p]) (create_new p mode) (fun _ s => plain_file (sy_fs s !! p)).
Proof.
  intros s s' [] _ (f & Hf & ->)%call_ok. destruct (sy_fs s !! p); [done|]. destruct (parent_exists _ _); [|done].
  injection Hf as <-. split; [by eapply within_set; [..|apply list_elem_of_here]|]. simpl. by rewrite lookup_insert_eq.
Qed.

Lemma remove_file_leaves (p : string) : leaves (fun _ => True) (only [p]) (remove_file p) (fun _ _ => True).
Proof.
  intros s s' [] _ E. pose proof E as (f & Hf & ->)%call_ok. split; [split; [done|]|done].
  intros q Hq. apply remove_file_ok in E as [-> _]. rewrite lookup_delete_ne; [done|]. intros ->.
  by rewrite reach_path in Hq by apply list_elem_of_here.
Qed.

Lemma manifest_gives (e : HardwareSignerEnrollment) :
  gives (fun _ => True) (with_backups [trusted_rule_signers_path]) (write_trusted_signer_manifest e)
    (fun _ => manifest_written e).
Proof using Hapart.
  assert (Hp : trusted_rule_signers_path ∈ file_targets) by targets. assert (Hr : recordable trusted_rule_signers_path) by (by left).
  eapply (gives_seq _ (fun _ => True) (fun _ => True)); [by apply record_file_gives|done|sub|done|]. intros [].
  eapply (gives_seq _ (fun _ => True) (fun _ => True)).
  { apply (gives_sys _ (only [])); [done|done|constructor|]. by apply lstat_leaves. }
  { done. } { sub. } { done. }
  intros meta. eapply (gives_bind _ _ _ _ (fun _ _ => True)).
  { assert (Hrm : forall name, gives (fun _ => True) (with_backups [trusted_rule_signers_path])
                    (io (remove_file trusted_rule_signers_path) name) (fun _ _ => True)).
    { intros name. eapply gives_mono; [apply gives_run; [exact Hr|apply leaves_named, remove_file_leaves]|done|sub|done]. }
    assert (Hret : gives (fun _ => True) (with_backups [trusted_rule_signers_path]) (mret tt) (fun _ _ => True)).
    { eapply gives_mono; [apply (gives_ret (fun _ => True))|done|apply reach_sub_refl|done]. }
    destruct (mjoin meta) as [[]|]; try apply gives_fail;
      (eapply gives_mono; [first [apply Hret|apply Hrm]|done|apply reach_sub_refl|done]). }
  intros []. eapply gives_bind.
  { eapply gives_mono; [apply gives_run; [exact Hr|apply leaves_named, create_new_leaves]|done|sub|]. intros a s H. exact H. }
  intros []. eapply gives_bind.
  { eapply gives_mono; [apply gives_run; [exact Hr|apply leaves_named, write_leaves]|done|sub|]. intros a s H. exact H. }
  intros []. eapply gives_mono; [by apply own_file_gives|done|sub|done].
Qed.

Lemma launchdaemon_gives :
  gives (fun _ => True) (with_backups [PLIST_PATH]) install_launchdaemon
    (fun _ => holds PLIST_PATH (root_file (fun c => c = expected_launchdaemon_plist) 420)).
Proof using Hapart.
  assert (Hp : PLIST_PATH ∈ file_targets) by targets.
  eapply (gives_seq _ (fun _ => True) (fun _ => True)); [by apply record_file_gives|done|sub|done|]. intros [].
  eapply gives_bind.
  { eapply gives_mono; [apply gives_run; [left; exact Hp|apply leaves_named, write_leaves]|by intros s []|sub|]. intros a s H. exact H. }
  intros []. eapply gives_mono; [by apply own_file_gives|done|sub|done].
Qed.

(** *** The database *)

(** What the engine promises of the files it leaves: read back, they are the tables. *)
Definition engine_keeps : Prop := forall t d main wal shm,
  sqlite_files t d = (main, wal, shm) -> sqlite_tables (Some main) (Some wal) (Some shm) = d.

Definition db_plain (s : Sys) : Prop := forall p, p ∈ db_files -> plain_file (sy_fs s !! p).

Lemma stable_plain (T : Reach) (p : string) : reaches T p = false -> stable T (fun s => plain_file (sy_fs s !! p)).
Proof. intros Hp s s' [_ F]. by rewrite F. Qed.

Lemma record_sqlite_gives :
  gives (fun _ => True) (with_backups []) (record_sqlite_replacement (db_path STATE_DIR)) (fun _ => db_plain).
Proof using Hapart.
  eapply (gives_seq _ (fun _ => True) (fun _ => True)).
  { apply (record_file_gives (db_path STATE_DIR)). apply db_files_targets, list_elem_of_here. }
  { done. } { sub. } { done. }
  intros []. eapply (gives_bind _ _ _ _ (fun _ s => plain_file (sy_fs s !! db_path STATE_DIR)
    /\ forall p, p ∈ sqlite_sidecar_paths (db_path STATE_DIR) -> plain_file (sy_fs s !! p))).
  { eapply gives_mono;
      [apply (gives_mapM _ (fun _ _ => True) (fun p s => plain_file (sy_fs s !! p))
                (fun s => plain_file (sy_fs s !! db_path STATE_DIR)) (fun _ => with_backups []) (with_backups []))
      |by intros s [? _]|apply reach_sub_refl|done].
    - by_decide.
    - intros p Hp. split_and!; [|apply reach_sub_refl|].
      + apply record_file_gives, db_files_targets. by apply list_elem_of_further.
      + apply stable_plain, not_reached; [left; apply db_files_targets, list_elem_of_here|apply not_elem_of_nil|done].
    - intros p q _ Hq _. split; [|done]. apply stable_plain, not_reached; [|apply not_elem_of_nil|done].
      left. apply db_files_targets. by apply list_elem_of_further. }
  intros l. eapply gives_mono; [apply (gives_ret db_plain)| |apply reach_sub_refl|by intros [] s [? _]].
  intros s [H1 H2] p [->|Hp]%elem_of_cons; auto.
Qed.

Lemma file_content_some (f : Fs) (p c : string) (m : PathMetadata) : f !! p = Some (NFile c m) -> file_content f p = Some c.
Proof. unfold file_content. by intros ->. Qed.

Lemma write_db_ok (d : Db) (s s' : Sys) (u : unit) : engine_keeps -> db_plain s -> write_db d s = (s', Ok u) ->
  within (only db_files) s s' /\ stored_tables (sy_fs s') = d.
Proof.
  intros Hlaw Hpl. unfold write_db. rewrite sm_bind_ok. intros (s0 & s0' & [= <- <-] & E).
  destruct (sqlite_files (sy_tick s) d) as [[main wal] shm] eqn:Ef.
  assert (Hne : db_path STATE_DIR <> db_path STATE_DIR +:+ "-wal" /\ db_path STATE_DIR <> db_path STATE_DIR +:+ "-shm"
                /\ db_path STATE_DIR +:+ "-wal" <> db_path STATE_DIR +:+ "-shm") by by_decide.
  destruct Hne as (N1 & N2 & N3).
  rewrite sm_bind_ok in E. destruct E as (s1 & [] & E1 & E). unfold write_file in *.
  destruct (write_ok _ _ _ _ _ _ _ E1) as ([m1 H1] & U1 & O1); [apply Hpl, list_elem_of_here|].
  rewrite sm_bind_ok in E. destruct E as (s2 & [] & [= <-] & E).
  rewrite sm_bind_ok in E. destruct E as (s3 & [] & E3 & E).
  assert (Hpl' : forall p, p ∈ db_files -> p <> db_path STATE_DIR -> plain_file (sy_fs s !! p)) by auto.
  destruct (write_ok _ _ _ _ _ _ _ E3) as ([m3 H3] & U3 & O3).
  { simpl. rewrite lookup_alter_ne, O1 by done. apply Hpl, list_elem_of_further, list_elem_of_here. }
  destruct (write_ok _ _ _ _ _ _ _ E) as ([m4 H4] & U4 & O4).
  { rewrite O3 by done. simpl. rewrite lookup_alter_ne, O1 by done. apply Hpl. do 2 apply list_elem_of_further. apply list_elem_of_here. }
  split; [split; [by rewrite U4, U3; simpl; rewrite U1|]|].
  - intros q Hq. assert (Hn : q ∉ db_files) by (intros Hin; by rewrite reach_path in Hq).
    assert (q <> db_path STATE_DIR) by (intros ->; apply Hn, list_elem_of_here).
    rewrite O4 by (intros ->; apply Hn; do 2 apply list_elem_of_further; apply list_elem_of_here).
    rewrite O3 by (intros ->; apply Hn, list_elem_of_further, list_elem_of_here). simpl.
    by rewrite lookup_alter_ne, O1.
  - unfold stored_tables. rewrite (file_content_some (sy_fs s') (db_path STATE_DIR) main (mkPathMetadata (pm_uid m1) (pm_gid m1) 384)).
    + rewrite (file_content_some _ _ wal m3), (file_content_some _ _ shm m4); [by apply (Hlaw (sy_tick s))|done|].
      by rewrite O4.
    + rewrite O4, O3 by done. simpl. by rewrite lookup_alter_eq, H1.
Qed.

Context `{SqlEngine}.

Definition registered (now : Z) (e : HardwareSignerEnrollment) (s : Sys) : Prop :=
  trusted_rule_signers (stored_tables (sy_fs s)) !! he_public_key_sha256 e
  = Some (mkSignerRow (he_signer_kind e) (he_public_key_x963 e) now (he_label e)).

Lemma register_store_gives (now : Z) (e : HardwareSignerEnrollment) : engine_keeps ->
  gives db_plain (only db_files) (register_in_store now e) (fun _ => registered now e).
Proof using Hapart.
  intros Hlaw. unfold register_in_store. eapply (gives_bind _ _ _ _ (fun _ => db_plain)).
  { intros i i' a Hr HP [= <- <-]. done. }
  intros i0. cbv zeta. destruct (open _ _ _) as [store|err].
  - unfold register_trusted_rule_signer_key.
    destruct (stmt _) as [v|er].
    + eapply gives_bind.
      * apply gives_sys; [done|done| |].
        { apply Forall_forall. intros p Hp. left. by apply db_files_targets. }
        apply leaves_named. intros s s' u HP E. apply (write_db_ok _ _ _ _ Hlaw HP E).
      * intros u. eapply gives_mono; [apply gives_lift|intros s Hs; exact Hs|apply reach_sub_refl|].
        intros a s [Hs _]. unfold registered. rewrite Hs. simpl. by rewrite lookup_insert_eq.
    + eapply (gives_bind _ _ _ _ (fun _ _ => True)).
      * apply gives_sys; [done|done| |].
        { apply Forall_forall. intros p Hp. left. by apply db_files_targets. }
        apply leaves_named. intros s s' u HP E. split; [|done]. apply (write_db_ok _ _ _ _ Hlaw HP E).
      * intros u i i' a _ _. by intros [=].
  - intros i i' u Hr HP. rewrite sm_bind_ok. intros (i1 & a & _ & [=]).
Qed.

(** *** The recursive change of ownership *)

Lemma chown_tree_lookup (reached : string -> bool) (uid gid : N) (dir p : string) (f : Fs) :
  chown_tree reached uid gid dir f !! p
  = (fun n => if (bool_decide (p = dir) || below dir p) && reached p then set_owner uid gid n else n) <$> f !! p.
Proof. unfold chown_tree. rewrite map_lookup_imap. by destruct (f !! p). Qed.

Lemma file_content_chown (reached : string -> bool) (uid gid : N) (dir p : string) (f : Fs) :
  file_content (chown_tree reached uid gid dir f) p = file_content f p.
Proof. unfold file_content. rewrite chown_tree_lookup. destruct (f !! p) as [[]|]; simpl; try done; by destruct ((bool_decide _ || _) && _). Qed.

Definition signer_ready (now : Z) (e : HardwareSignerEnrollment) (gid : N) (s : Sys) : Prop :=
  owned_dir STATE_DIR gid s /\ registered now e s.

Lemma chown_tree_gives (now : Z) (e : HardwareSignerEnrollment) (gid : N) (d : string) :
  gives (signer_ready now e gid) (mkReach [STATE_DIR] true false)
    (run_on (run_cmd (Chown true (ServiceOwner gid) STATE_DIR) d)) (fun _ => signer_ready now e gid).
Proof using Hapart.
  apply gives_sys; [done|done| |].
  { apply Forall_singleton. right; left. targets. }
  intros s s' u [(uid & Hu & n & En & Hn) Hreg] E%run_cmd_ok. cbn [cmd_effect owner_ids] in E.
  change (service_uid (next s)) with (service_uid s) in E. rewrite Hu in E. simpl in E. rewrite En in E. simpl in E.
  injection E as <-. split; [split; [done|]|split].
  - intros p Hp. simpl. rewrite chown_tree_lookup, andb_true_r. unfold reaches in Hp. simpl in Hp.
    apply orb_false_iff in Hp as [[Hp _]%orb_false_iff ->]. apply bool_decide_eq_false in Hp.
    rewrite bool_decide_eq_false_2 by (intros ->; apply Hp, list_elem_of_here). by destruct (sy_fs s !! p).
  - exists uid. split; [done|]. exists (NDir (mkPathMetadata uid gid 457)). simpl. rewrite chown_tree_lookup, En.
    rewrite bool_decide_eq_true_2, Hn by done. done.
  - unfold registered, stored_tables. simpl. rewrite !file_content_chown. exact Hreg.
Qed.

Lemma db_files_below : Forall (fun p => below STATE_DIR p = true) db_files.
Proof. repeat constructor. Qed.

Lemma stable_registered (T : Reach) (now : Z) (e : HardwareSignerEnrollment) :
  (forall p, p ∈ db_files -> p ∉ re_paths T) -> re_state T = false -> stable T (registered now e).
Proof using Hapart.
  intros Hp Hs s s' [_ F]. unfold registered, stored_tables, file_content.
  assert (HF : forall p, p ∈ db_files -> sy_fs s' !! p = sy_fs s !! p).
  { intros p Hin. apply F, not_reached; [left; by apply db_files_targets|by apply Hp|by rewrite Hs]. }
  rewrite !HF; [done|..]; repeat first [apply list_elem_of_here|apply list_elem_of_further].
Qed.

Definition reach_register : Reach :=
  mkReach (trusted_rule_signers_path :: STATE_DIR :: db_files) true true.

Lemma register_gives (now : Z) (e : HardwareSignerEnrollment) (gid : N) : engine_keeps ->
  gives (owned_dir STATE_DIR gid) reach_register (register_rule_signer now e gid)
    (fun _ s => manifest_written e s /\ signer_ready now e gid s).
Proof using Hapart.
  intros Hlaw. eapply (gives_seq _ (fun _ => True) (owned_dir STATE_DIR gid)); [apply manifest_gives| |sub|done|].
  { apply stable_owned, not_reached; [recordable|by_decide|reflexivity]. }
  intros []. set (F := fun s => manifest_written e s /\ owned_dir STATE_DIR gid s).
  eapply (gives_seq _ (fun _ => True) F); [apply record_sqlite_gives| |sub|done|].
  { apply stable_and; [spared|]. apply stable_owned, not_reached; [recordable|by_decide|reflexivity]. }
  intros []. eapply (gives_seq _ db_plain F); [by apply register_store_gives| |sub|done|].
  { apply stable_and; [spared|]. apply stable_owned, not_reached; [recordable|by_decide|reflexivity]. }
  intros []. eapply (gives_frame_mono _ (signer_ready now e gid) (manifest_written e));
    [apply chown_tree_gives|spared|sub| |by intros [] s []].
  intros s (Hreg & Hm & Ho). done.
Qed.

(** *** The service *)

Lemma service_exec_user (c : Cmd) (s : Sys) :
  c = LaunchctlBootout \/ c = LaunchctlBootstrap -> sy_user (exec_cmd c s).1 = sy_user s.
Proof.
  intros Hc. unfold exec_cmd. destruct (cmd_fault _ _) as [[]|]; [done|by destruct Hc as [-> | ->]|].
  destruct (cmd_effect c (next s)) as [s2|] eqn:E; [|done].
  destruct Hc as [-> | ->]; cbn [cmd_effect] in E; repeat case_match; by simplify_eq.
Qed.

Lemma start_gives : gives (fun _ => True) (only []) start_daemon (fun _ _ => True).
Proof using Hapart.
  assert (Hs : forall c s, c = LaunchctlBootout \/ c = LaunchctlBootstrap -> within (only []) s (exec_cmd c s).1).
  { intros c s Hc. split; [by apply service_exec_user|]. intros p _. by rewrite service_exec. }
  eapply (gives_bind _ _ _ _ (fun _ _ => True)).
  { apply gives_sys; [done|done|constructor|]. intros s s' u _ E. rewrite ignore_cmd_eq in E. injection E as <- _. auto. }
  intros []. eapply (gives_bind _ _ _ _ (fun _ _ => True)).
  { apply gives_sys; [done|done|constructor|]. intros s s' u _ E. change s' with (s', Ok (E := CliError) u).1.
    rewrite <-E, run_cmd_state. auto. }
  intros [] i i' u Hr _ [= <- <-]. done.
Qed.

(** *** The service user *)

(** What the directory tools print of the record of the service user. *)
Definition dscl_reads : Prop := forall a s u v, sy_user s = Some u ->
  v ∈ dscl_attribute_values (from_utf8_lossy (cmd_stdout (DsclReadAttr a) s)) a -> u !! a = Some v.

Definition attr_set (u0 : option (gmap string string)) (a v : string) (s : Sys) : Prop :=
  exists u, sy_user s = Some u /\ u !! a = Some v /\ forall b, b <> a -> u !! b = default ∅ u0 !! b.

Lemma delete_attr_user (a : string) (s : Sys) :
  sy_fs (exec_cmd (DsclDeleteAttr a) s).1 = sy_fs s
  /\ forall b, b <> a -> default ∅ (sy_user (exec_cmd (DsclDeleteAttr a) s).1) !! b = default ∅ (sy_user s) !! b.
Proof.
  unfold exec_cmd. destruct (cmd_fault _ _) as [[]|]; [done..|]. cbn [cmd_effect].
  change (sy_user (next s)) with (sy_user s). destruct (sy_user s) as [u|] eqn:Eu; simpl; [|by rewrite Eu].
  split; [done|]. intros b Hb. by rewrite lookup_delete_ne.
Qed.

Lemma ensure_attr_ok (a v d : string) (s s' : Sys) (r : unit) :
  dscl_reads -> ensure_record_attr a v d s = (s', Ok r) ->
  sy_fs s' = sy_fs s /\ attr_set (sy_user s) a v s'.
Proof.
  intros Hlaw. unfold ensure_record_attr. rewrite sm_bind_ok. intros (s1 & b & E1 & E2).
  assert (H1 : sy_fs s1 = sy_fs s /\ sy_user s1 = sy_user s /\ (b = true -> attr_set (sy_user s) a v s1)).
  { unfold service_record_attr_matches, exec_cmd in E1. destruct (cmd_fault _ _) as [[]|]; [done|by injection E1 as <- <-|].
    cbn [cmd_effect] in E1. change (sy_user (next s)) with (sy_user s) in E1.
    destruct (sy_user s) as [u|] eqn:Eu; simpl in E1; injection E1 as <- <-; [|by split_and!].
    split_and!; [done..|]. intros (w & Hin & Hw%bool_decide_eq_true)%existsb_exists. subst w. exists u. split; [done|].
    split; [|done]. apply (Hlaw a (next s) u v); [done|]. by apply list_elem_of_In. }
  destruct H1 as (F1 & U1 & Hb). destruct b; [injection E2 as <-; auto|].
  rewrite sm_bind_ok in E2. destruct E2 as (s2 & [] & E2 & E3). rewrite ignore_cmd_eq in E2. injection E2 as <-.
  apply run_cmd_ok in E3. cbn [cmd_effect] in E3. injection E3 as <-. destruct (delete_attr_user a s1) as [F2 O2].
  simpl. split; [by rewrite F2|]. eexists. split; [done|]. rewrite lookup_insert_eq. split; [done|].
  intros c Hc. rewrite lookup_insert_ne, O2, U1 by done. done.
Qed.

Definition user_ready (gid : N) (s : Sys) : Prop := exists u, sy_user s = Some u
  /\ u !! "UserShell" = Some "/usr/bin/false" /\ u !! "RealName" = Some SERVICE_USER_REALNAME
  /\ u !! "PrimaryGroupID" = Some (pretty gid) /\ u !! "NFSHomeDirectory" = Some "/var/empty".

Lemma attributes_ok (gid : N) (s s' : Sys) (r : unit) :
  dscl_reads -> set_service_user_attributes gid s = (s', Ok r) -> sy_fs s' = sy_fs s /\ user_ready gid s'.
Proof.
  intros Hlaw. unfold set_service_user_attributes. rewrite !sm_bind_ok. intros (s1 & [] & E1 & E).
  rewrite sm_bind_ok in E. destruct E as (s2 & [] & E2 & E). rewrite sm_bind_ok in E. destruct E as (s3 & [] & E3 & E4).
  destruct (ensure_attr_ok _ _ _ _ _ _ Hlaw E1) as (F1 & u1 & U1 & H1 & O1).
  destruct (ensure_attr_ok _ _ _ _ _ _ Hlaw E2) as (F2 & u2 & U2 & H2 & O2). rewrite U1 in O2.
  destruct (ensure_attr_ok _ _ _ _ _ _ Hlaw E3) as (F3 & u3 & U3 & H3 & O3). rewrite U2 in O3.
  destruct (ensure_attr_ok _ _ _ _ _ _ Hlaw E4) as (F4 & u4 & U4 & H4 & O4). rewrite U3 in O4. simpl in O2, O3, O4.
  split; [congruence|]. exists u4. split_and!; [done|by rewrite O4, O3, O2|by rewrite O4, O3|by rewrite O4|done].
Qed.

Lemma create_user_gives : dscl_reads -> forall i i' su, ready i -> run_on create_service_user i = (i', Ok su) ->
  ready i' /\ sy_fs (is_sys i') = sy_fs (is_sys i) /\ user_ready (su_gid su) (is_sys i').
Proof.
  intros Hlaw i i' su [Hd Hb] E. unfold run_on in E. destruct (create_service_user (is_sys i)) as [s' r] eqn:Ec.
  injection E as <- ->. assert (HF : sy_fs s' = sy_fs (is_sys i)).
  { apply map_eq. intros p. destruct (service_user_writes (is_sys i)) as (_ & Ho & _); [by intros ? ?%not_elem_of_nil|].
    rewrite Ec in Ho. apply Ho, not_elem_of_nil. }
  split_and!; [split; [done|by simpl; rewrite HF]|done|]. clear HF. unfold create_service_user in Ec.
  rewrite sm_bind_ok in Ec. destruct Ec as (s1 & b & _ & E). simpl. destruct b.
  - rewrite sm_bind_ok in E. destruct E as (s2 & gid & _ & E). rewrite sm_bind_ok in E.
    destruct E as (s3 & [] & E & [= <- <-]). by apply (attributes_ok _ _ _ _ Hlaw E).
  - rewrite sm_bind_ok in E. destruct E as (s2 & uid & _ & E). do 3 (rewrite sm_bind_ok in E; destruct E as (? & [] & _ & E)).
    rewrite sm_bind_ok in E. destruct E as (s3 & [] & E & [= <- <-]). by apply (attributes_ok _ _ _ _ Hlaw E).
Qed.

(** *** The whole installation *)

Lemma stable_user_ready (T : Reach) (gid : N) : stable T (user_ready gid).
Proof. intros s s' [U _] (u & Hu & H4). exists u. by rewrite U. Qed.

Lemma stable_binaries (T : Reach) :
  BIN_DIR ∉ re_paths T -> dylib_dst ∉ re_paths T ->
  forallb (fun b => negb (bool_decide (binary_path b ∈ re_paths T))) INSTALLED_BINARIES = true ->
  stable T binaries_installed.
Proof using Hapart.
  intros H1 H2 H3. apply stable_and; [|apply stable_and].
  - apply stable_holds, not_reached; [recordable|done|]. by rewrite andb_comm.
  - apply (stable_forall T (fun b => holds (binary_path b) (root_file any 493))). intros b Hb.
    apply stable_holds, not_reached; [left; by apply binaries_targets|by apply binaries_not_in|].
    rewrite andb_comm. revert b Hb. clear. intros b Hb.
    pose proof (each_binary (fun p => negb (below STATE_DIR p)) b eq_refl Hb) as E. apply negb_true_iff in E.
    unfold binary_path in *. by rewrite E.
  - apply stable_holds, not_reached; [recordable|done|]. by rewrite andb_comm.
Qed.

Ltac binaries_spared := apply stable_binaries; [by_decide|by_decide|vm_compute; reflexivity].
Ltac dir_spared := apply stable_owned, not_reached; [recordable|by_decide|reflexivity].

Definition plist_written : Sys -> Prop :=
  holds PLIST_PATH (root_file (fun c => c = expected_launchdaemon_plist) 420).

(** What an installation has left when it succeeds. *)
Definition installed (now : Z) (e : HardwareSignerEnrollment) (s : Sys) : Prop :=
  exists gid, user_ready gid s /\ binaries_installed s /\ directories_made gid s
    /\ manifest_written e s /\ registered now e s /\ plist_written s.

Definition finish (now : Z) (e : HardwareSignerEnrollment) (gid : N) : SM Inst CliError unit :=
  register_rule_signer now e gid ;; install_launchdaemon ;; start_daemon.

Definition reach_finish : Reach :=
  mkReach (trusted_rule_signers_path :: STATE_DIR :: PLIST_PATH :: db_files) true true.

Lemma finish_gives (now : Z) (e : HardwareSignerEnrollment) (gid : N) : engine_keeps ->
  gives (fun s => user_ready gid s /\ binaries_installed s /\ directories_made gid s) reach_finish
    (finish now e gid) (fun _ => installed now e).
Proof using Hapart.
  intros Hlaw.
  set (F1 := fun s => user_ready gid s /\ binaries_installed s /\ owned_dir LOG_DIR gid s).
  eapply (gives_seq _ (owned_dir STATE_DIR gid) F1); [by apply register_gives| |sub| |].
  { apply stable_and; [apply stable_user_ready|apply stable_and; [binaries_spared|dir_spared]]. }
  { intros s (? & ? & ? & ?). by split_and!. }
  intros []. set (F2 := fun s => (manifest_written e s /\ signer_ready now e gid s) /\ F1 s).
  eapply (gives_seq _ (fun _ => True) F2); [apply launchdaemon_gives| |sub|done|].
  { apply stable_and; [apply stable_and; [spared|apply stable_and; [dir_spared|]]|].
    - apply stable_registered; [|done]. intros p Hp E%list_elem_of_singleton. subst p. revert Hp. by_decide.
    - apply stable_and; [apply stable_user_ready|apply stable_and; [binaries_spared|dir_spared]]. }
  intros []. eapply (gives_frame_mono _ (fun _ => True) (fun s => plist_written s /\ F2 s)); [apply start_gives| |sub|done|].
  { apply stable_and; [spared|]. apply stable_and; [apply stable_and; [spared|apply stable_and; [dir_spared|]]|].
    - apply stable_registered; [|done]. intros p _. apply not_elem_of_nil.
    - apply stable_and; [apply stable_user_ready|apply stable_and; [binaries_spared|dir_spared]]. }
  intros [] s (_ & Hp & (Hm & Hs & Hr) & Hu & Hb & Hlog). exists gid. by split_and!.
Qed.

(** Where the enrollment may lie for the installer to read what the user wrote. *)
Definition reach_before : Reach :=
  with_backups (re_paths reach_binaries ++ re_paths reach_directories).

Lemma install_steps_done (now : Z) (path : string) (i i' : Inst) :
  stat_works -> engine_keeps -> dscl_reads -> ready i -> install_steps now (Some path) i = (i', Ok tt) ->
  ready i' /\ exists e, installed now e (is_sys i')
    /\ forall c m, sy_fs (is_sys i) !! path = Some (NFile c m) -> reaches reach_before path = false -> json_enrollment c = Ok e.
Proof using Hapart.
  intros Hstat Hlaw Hdscl Hr. unfold install_steps. rewrite sm_bind_ok. intros (i1 & su & E1 & E).
  destruct (create_user_gives Hdscl _ _ _ Hr E1) as (R1 & F1 & U1).
  rewrite sm_bind_ok in E. destruct E as (i2 & [] & E2 & E).
  assert (H2 : ready i2 /\ is_sys i2 = is_sys i1).
  { unfold record_service_user in E2. rewrite sm_bind_ok in E2. destruct E2 as (j & i0 & [= <- <-] & E2).
    destruct (su_created su && _); injection E2 as <-; done. }
  destruct H2 as [R2 S2].
  assert (Hmid : gives (user_ready (su_gid su)) reach_before (deploy_binaries ;; create_directories (su_gid su))
             (fun _ s => user_ready (su_gid su) s /\ binaries_installed s /\ directories_made (su_gid su) s)).
  { eapply (gives_seq _ (fun _ => True) (user_ready (su_gid su))); [by apply deploy_gives|apply stable_user_ready|sub|done|].
    intros []. eapply (gives_frame_mono _ (fun _ => True) (fun s => binaries_installed s /\ user_ready (su_gid su) s));
      [apply directories_gives| |sub|done|].
    - apply stable_and; [binaries_spared|apply stable_user_ready].
    - by intros [] s (? & ? & ?). }
  rewrite sm_bind_ok in E. destruct E as (i3 & [] & E3 & E). rewrite sm_bind_ok in E. destruct E as (i4 & [] & E4 & E).
  edestruct Hmid as (R4 & [_ W4] & Q4); [exact R2|by rewrite S2| |].
  { rewrite sm_bind_ok. by exists i3, tt. }
  rewrite sm_bind_ok in E. destruct E as (i5 & e & E5 & E).
  assert (H5 : i5 = i4 /\ exists content m, sy_fs (is_sys i4) !! resolve (sy_fs (is_sys i4)) path = Some (NFile content m)
                 /\ json_enrollment content = Ok e).
  { unfold enroll_hardware_signer_for_install in E5. rewrite sm_bind_ok in E5. destruct E5 as (j & i0 & [= <- <-] & E5).
    destruct (sy_fs (is_sys i4) !! _) as [[content m| | |]|]; try done. unfold sm_lift in E5.
    destruct (json_enrollment content) eqn:Ej; [|done]. injection E5 as <- <-. eauto. }
  destruct H5 as (-> & content & m & Ec & Ej).
  edestruct (finish_gives now e (su_gid su) Hlaw) as (R6 & _ & Q6); [exact R4|exact Q4|exact E|].
  split; [done|]. exists e. split; [done|]. intros c m' Hc Hreach.
  assert (Hc4 : sy_fs (is_sys i4) !! path = Some (NFile c m')) by (rewrite W4, S2, F1; done).
  rewrite resolve_plain in Ec by (rewrite Hc4; by left). rewrite Hc4 in Ec. by injection Ec as -> ->.
Qed.

End InstalledSteps.

(** ** The manifest read back *)

(** Characters no trimming removes. *)
Definition plain_char (a : ascii) : bool := negb (ws1 a) && bool_decide (byte_val a < 128)%N.

Lemma plain_char_ws (a b c : ascii) : plain_char a = true ->
  ws1 a = false /\ ws2 a b = false /\ ws3 a b c = false /\ ws2 b a = false /\ ws3 b c a = false.
Proof.
  unfold plain_char. intros [->%negb_true_iff Ha%bool_decide_eq_true]%andb_true_iff.
  unfold ws2, ws3, byte_in. split_and!; [done|..];
    repeat match goal with |- context [bool_decide (byte_val a = ?n)] => rewrite (bool_decide_eq_false_2 (byte_val a = n)) by lia end;
    rewrite ?andb_false_r, ?andb_false_l, ?orb_false_r; try done.
  rewrite ?(bool_decide_eq_false_2 (_ <= byte_val a)%N) by lia. by rewrite ?andb_false_r.
Qed.

Lemma trim_start_plain (a : ascii) (s : string) : plain_char a = true -> trim_start (String a s) = String a s.
Proof.
  intros Ha. cbn [trim_start]. destruct s as [|b [|c s]].
  - by destruct (plain_char_ws a a a Ha) as [-> _].
  - by destruct (plain_char_ws a b b Ha) as (-> & -> & _).
  - by destruct (plain_char_ws a b c Ha) as (-> & -> & -> & _).
Qed.

Lemma trim_start_rev_plain (a : ascii) (s : string) : plain_char a = true -> trim_start_rev (String a s) = String a s.
Proof.
  intros Ha. cbn [trim_start_rev]. destruct s as [|b [|c s]].
  - by destruct (plain_char_ws a a a Ha) as [-> _].
  - by destruct (plain_char_ws a b b Ha) as (-> & _ & _ & -> & _).
  - by destruct (plain_char_ws a c b Ha) as (-> & _ & _ & _ & ->), (plain_char_ws a b b Ha) as (_ & _ & _ & -> & _).
Qed.

(** A text that begins and ends with such characters stays as it is. *)
Lemma trim_plain (a z : ascii) (s : string) :
  plain_char a = true -> plain_char z = true -> trim (String a (s +:+ String z "")) = String a (s +:+ String z "").
Proof.
  intros Ha Hz. unfold trim, trim_end. rewrite trim_start_plain by done.
  rewrite rev_cons_str, rev_app_str. change (String.rev (String z "")) with (String z "").
  rewrite (app_cons_str z ""), app_nil_l_str, (app_cons_str z), trim_start_rev_plain by done.
  by rewrite !rev_cons_str, rev_app_str, rev_involutive_str.
Qed.

Lemma hex_digit_plain (n : N) : plain_char (hex_digit n) = true /\ hex_digit n <> TAB /\ hex_digit n <> LF
  /\ hex_digit n <> "#"%char.
Proof.
  assert (HF : Forall (fun c => plain_char c = true /\ c <> TAB /\ c <> LF /\ c <> "#"%char) HEX) by by_decide.
  unfold hex_digit. destruct (nth_in_or_default (N.to_nat n) HEX "0"%char) as [Hin| ->]; [|by_decide].
  rewrite Forall_forall in HF. apply HF. by apply list_elem_of_In.
Qed.

Lemma hex_lower_no_char (c : ascii) (s : string) : c = TAB \/ c = LF -> no_char c (hex_lower s) = true.
Proof.
  intros Hc. induction s as [|b s IH]; [done|]. cbn [hex_lower]. rewrite !no_char_cons.
  split_and!; [| |done]; destruct Hc as [-> | ->]; apply hex_digit_plain.
Qed.

Lemma no_char_app (c : ascii) (s t : string) : no_char c (s +:+ t) = no_char c s && no_char c t.
Proof.
  induction s as [|a s IH]; [by rewrite app_nil_l_str|]. rewrite app_cons_str. unfold no_char in *. simpl. rewrite IH.
  by rewrite andb_assoc.
Qed.

(** The manifest of a keychain enrollment holds one signer. *)
Lemma manifest_parses (e : HardwareSignerEnrollment) (digest : string) :
  digest <> "" -> he_public_key_sha256 e = hex_lower digest -> he_signer_kind e = SIGNER_KIND_MACOS_KEYCHAIN ->
  he_label e = "macOS Keychain" ->
  parse_trusted_signers (trusted_signer_manifest e)
  = Ok [mkSigner (hex_lower digest) SIGNER_KIND_MACOS_KEYCHAIN (hex_lower (he_public_key_x963 e))].
Proof.
  intros Hd Hsha Hkind Hlabel. unfold trusted_signer_manifest. rewrite Hsha, Hkind, Hlabel.
  set (hash := hex_lower digest). set (key := hex_lower (he_public_key_x963 e)).
  set (line := hash +:+ tab +:+ SIGNER_KIND_MACOS_KEYCHAIN +:+ tab +:+ key +:+ tab +:+ one_line "macOS Keychain").
  assert (Hsplit : split_on TAB line = [hash; SIGNER_KIND_MACOS_KEYCHAIN; key; "macOS Keychain"]).
  { unfold line, tab. rewrite !(app_cons_str TAB), !app_nil_l_str.
    rewrite split_on_app by (apply hex_lower_no_char; auto). rewrite split_on_app by done.
    rewrite split_on_app by (apply hex_lower_no_char; auto). done. }
  assert (Hlast : exists a r, line = String a (r +:+ String "n" "") /\ plain_char a = true).
  { destruct digest as [|b rest]; [done|]. exists (hex_digit (N.shiftr (byte_val b) 4)).
    exists (String (hex_digit (N.land (byte_val b) 15)) (hex_lower rest) +:+ tab +:+ SIGNER_KIND_MACOS_KEYCHAIN +:+ tab
            +:+ key +:+ tab +:+ "macOS Keychai").
    split; [|apply hex_digit_plain]. unfold line, hash. cbn [hex_lower].
    rewrite (app_cons_str (hex_digit (N.shiftr _ _))). f_equal. rewrite !app_assoc_str. done. }
  destruct Hlast as (a & r & Hline & Ha).
  assert (Hlf : no_char LF line = true).
  { unfold line. rewrite !no_char_app. unfold hash, key. rewrite !hex_lower_no_char by auto. done. }
  assert (Hcr : no_cr_end line = true).
  { rewrite Hline. unfold no_cr_end. by rewrite rev_cons_str, rev_app_str. }
  assert (Hlines : lines ("# stt-guard trusted OS-backed rule signers v1" +:+ lf +:+ hash +:+ tab
             +:+ SIGNER_KIND_MACOS_KEYCHAIN +:+ tab +:+ key +:+ tab +:+ one_line "macOS Keychain" +:+ lf)
           = ["# stt-guard trusted OS-backed rule signers v1"; line]).
  { unfold lf at 1. rewrite (app_cons_str LF), app_nil_l_str, lines_app by done. f_equal.
    transitivity (lines (line +:+ String LF "")); [|by rewrite lines_app].
    unfold line. by rewrite !app_assoc_str. }
  unfold parse_trusted_signers. rewrite Hlines. cbn [parse_signer_lines].
  change (signer_fields "# stt-guard trusted OS-backed rule signers v1") with (@None (string * string * string)).
  assert (Hf : signer_fields line = Some (hash, SIGNER_KIND_MACOS_KEYCHAIN, key)).
  { unfold signer_fields. rewrite Hline, trim_plain, <-Hline by done. rewrite Hsplit.
    assert (Hh : is_empty line || starts_with line "#" = false).
    { unfold line, hash. destruct digest as [|b rest]; [done|]. cbn [hex_lower]. rewrite !(app_cons_str (hex_digit _)).
      apply orb_false_iff. split; [done|]. unfold starts_with. cbn [strip_prefix].
      rewrite bool_decide_eq_false_2; [done|]. intros Eh. by apply (hex_digit_plain (N.shiftr (byte_val b) 4)). }
    by rewrite Hh. }
  rewrite Hf. cbv iota beta. unfold key. rewrite decode_hex_hex_lower. simpl. by rewrite to_ascii_lowercase_hex_lower.
Qed.

(** ** Seen from outside *)

Section Outside.
Context `{IE : InstallerEnv} (Hapart : apart rollback_dir = true).

(** What the health checks read of a system, given its directory tools. *)
Definition sys_view (tools : string -> list string -> result Output string) (s : Sys) : HealthView := {|
  hv_stat p := ok_or (sy_fs s !! p) not_found;
  hv_read p := match sy_fs s !! resolve (sy_fs s) p with Some (NFile c _) => Ok c | _ => Err not_found end;
  hv_run := tools;
|}.

(** On this system [id] and [dscacheutil] print the record of the service user. *)
Record directory_tools (tools : string -> list string -> result Output string) (s : Sys) : Prop := {
  id_uid : forall uid, service_uid s = Some uid -> @prints_id (sys_view tools s) "id" ["-u"; SERVICE_USER] uid;
  id_gid : forall u gid, sy_user s = Some u -> u !! "PrimaryGroupID" = Some (pretty gid) ->
    @prints_id (sys_view tools s) "id" ["-g"; SERVICE_USER] gid;
  cache_shows : forall u, sy_user s = Some u ->
    exists o, tools "dscacheutil" ["-q"; "user"; "-a"; "name"; SERVICE_USER] = Ok o /\ ou_success o = true
      /\ let record := from_utf8_lossy (ou_stdout o) in
         (forall uid, service_uid s = Some uid -> cache_says record "uid" (pretty uid))
         /\ (forall v, u !! "PrimaryGroupID" = Some v -> cache_says record "gid" v)
         /\ (forall v, u !! "NFSHomeDirectory" = Some v -> cache_says record "dir" v)
         /\ (forall v, u !! "UserShell" = Some v -> cache_says record "shell" v)
         /\ (forall v, u !! "RealName" = Some v -> cache_says record "gecos" v);
}.

Lemma remove_backups_within (d : string) (s : Sys) : d = rollback_dir -> within (with_backups []) s (remove_backups d s).1.
Proof.
  intros ->. unfold remove_backups. destruct (remove_dir_all rollback_dir s) as [s1 [u|e]] eqn:E; cbn [fst].
  - apply call_ok in E as (f & Hf & ->). destruct (sy_fs s !! rollback_dir); [|done]. injection Hf as <- _.
    split; [done|]. intros p Hp. cbn. rewrite map_lookup_filter. cbn. unfold reaches in Hp. simpl in Hp.
    apply orb_false_iff in Hp as [Hp _]. rewrite Hp. by destruct (sy_fs s !! p).
  - assert (Hs : within (with_backups []) s s1).
    { unfold remove_dir_all, call in E. destruct (io_fault _ _ _); [by injection E as <- _|].
      destruct (sy_fs s !! rollback_dir); [done|by injection E as <- _]. }
    unfold exists_path. cbv zeta. by case_match.
Qed.

(** What an installation leaves is said of the recorded paths only. *)
Lemma installed_ext `{SqlEngine} (now : Z) (e : HardwareSignerEnrollment) (s s' : Sys) :
  sy_user s' = sy_user s -> (forall p, recordable p -> sy_fs s' !! p = sy_fs s !! p) ->
  installed now e s -> installed now e s'.
Proof.
  intros U F (gid & (u & Hu & H4) & (Hb & Hbs & Hd) & (Hst & Hlog) & Hm & Hr & Hp). exists gid.
  assert (Hf : forall p, p ∈ file_targets -> recordable p) by (by left).
  assert (Hdt : forall p, p ∈ dir_targets -> recordable p) by (by right; left).
  assert (Hsp : forall p Φ, recordable p -> holds p Φ s -> holds p Φ s').
  { intros p Φ Hrec (n & En & Hn). exists n. by rewrite F. }
  assert (Hown : forall p, p ∈ dir_targets -> owned_dir p gid s -> owned_dir p gid s').
  { intros p Hrec (uid & Hu1 & Hh). exists uid. split; [by unfold service_uid in *; rewrite U|auto]. }
  split; [exists u; by rewrite U|]. split; [split; [|split]|split; [split|split; [|split]]].
  - apply Hsp, Hb. apply Hdt. apply list_elem_of_In; vm_compute; tauto.
  - intros b Hin. apply Hsp; [|by apply Hbs]. by apply Hf, binaries_targets.
  - apply Hsp, Hd. apply Hf. apply list_elem_of_In; vm_compute; tauto.
  - apply Hown, Hst. apply list_elem_of_In; vm_compute; tauto.
  - apply Hown, Hlog. apply list_elem_of_In; vm_compute; tauto.
  - apply Hsp, Hm. apply Hf. apply list_elem_of_In; vm_compute; tauto.
  - unfold registered, stored_tables, file_content in *.
    assert (Hdb : forall p, p ∈ db_files -> sy_fs s' !! p = sy_fs s !! p) by (intros; by apply F, Hf, db_files_targets).
    rewrite !Hdb; [done|..]; repeat first [apply list_elem_of_here|apply list_elem_of_further].
  - apply Hsp, Hp. apply Hf. apply list_elem_of_In; vm_compute; tauto.
Qed.

Lemma install_as_root_installed `{SqlEngine} (now : Z) (path : string) (s s' : Sys) :
  stat_works -> engine_keeps -> dscl_reads -> backups_hang_together (sy_fs s) ->
  install_as_root now (Some path) s = (s', Installed) ->
  exists e, installed now e s'
    /\ forall c m, sy_fs s !! path = Some (NFile c m) -> reaches reach_before path = false -> json_enrollment c = Ok e.
Proof using Hapart.
  intros Hstat Hlaw Hdscl Hh. unfold install_as_root. cbn [require_privileged_signer_handoff].
  destruct (new_transaction s) as [s1 [t|e]] eqn:Et; [|done].
  destruct (new_transaction_ok _ _ _ Hh Et) as (Hinv & Hd & _). simpl in Hinv, Hd.
  pose proof (new_transaction_keeps _ _ _ Et) as Hkeep.
  destruct (install_steps now (Some path) (mkInst s1 t)) as [i [[]|e]] eqn:Ei; [|by destruct (rollback _ _)].
  intros [= <-]. edestruct install_steps_done as ((Hd' & _) & e & He & Hj); [done..| |exact Ei|].
  { split; [done|]. apply (inv_backups _ _ _ Hinv). }
  exists e. split.
  - destruct (remove_backups_within (backup_dir (is_tx i)) (is_sys i) Hd') as [U F].
    apply (installed_ext now e (is_sys i)); [done| |done]. intros p Hp. apply F.
    apply not_reached; [done..|apply not_elem_of_nil|done].
  - intros c m Hc Hr. apply (Hj c m); [|done]. simpl. rewrite Hkeep; [done|].
    unfold reaches in Hr. apply orb_false_iff in Hr as [[_ Hr]%orb_false_iff _]. simpl in Hr.
    apply orb_false_iff in Hr as [Hr1%bool_decide_eq_false Hr2]. done.
Qed.

Lemma root_file_ok (tools : string -> list string -> result Output string) (s : Sys) (p : string) (C : string -> Prop) (mode : N) :
  N.land mode 4095 = mode -> holds p (root_file C mode) s -> @path_ok (sys_view tools s) p EkRegularFile 0 0 mode.
Proof.
  intros Hmode (n & En & c & _ & ->). exists (NFile c (mkPathMetadata 0 0 mode)). cbn. rewrite En. by split_and!.
Qed.

Lemma dir_ok (tools : string -> list string -> result Output string) (s : Sys) (p : string) (uid gid mode : N) :
  N.land mode 4095 = mode -> holds p (dir_with uid gid mode) s -> @path_ok (sys_view tools s) p EkDirectory uid gid mode.
Proof.
  intros Hmode (n & En & ->). exists (NDir (mkPathMetadata uid gid mode)). cbn. rewrite En. by split_and!.
Qed.

Lemma healthy_spec (tools : string -> list string -> result Output string) (now : Z)
    (e : HardwareSignerEnrollment) (s : Sys) `{SqlEngine} :
  directory_tools tools s -> installed now e s ->
  is_healthy (@check_installation (sys_view tools s) MacOs) = true.
Proof.
  intros Hlaw (gid & (u & Hu & Hshell & Hname & Hgid & Hhome) & (Hbin & Hbins & Hdyl) & ((uid & Huid & Hst) & (uid' & Huid' & Hlog))
    & Hm & _ & Hp).
  rewrite Huid in Huid'. injection Huid' as <-.
  apply (@check_installation_spec (sys_view tools s)). exists uid, gid. split_and!.
  - by apply id_uid.
  - by apply (id_gid _ _ Hlaw u).
  - destruct (cache_shows _ _ Hlaw u Hu) as (o & Ho & Hs & Hc). cbv zeta in Hc.
    destruct Hc as (C1 & C2 & C3 & C4 & C5). exists o. cbv zeta. split_and!; eauto.
  - by apply dir_ok.
  - apply Forall_forall. intros b Hb. eapply root_file_ok; [done|]. by apply Hbins.
  - by eapply root_file_ok.
  - by eapply root_file_ok.
  - by apply dir_ok.
  - by apply dir_ok.
  - by eapply root_file_ok.
  - destruct Hp as (n & En & c & -> & ->). unfold content_ok. cbn [hv_read sys_view].
    rewrite (resolve_plain (sy_fs s) PLIST_PATH), En by (rewrite En; by left). done.
Qed.

End Outside.

(** ** The daemon on the installed files *)

Section Daemon.
Context `{IE : InstallerEnv, SQL : SqlEngine}.

(** What the store reads of a system besides its tables. *)
Definition sys_trust (s : Sys) : TrustFs := {|
  symlink_metadata p :=
    match sy_fs s !! p with
    | Some n => Ok (mkMeta match n with NFile _ _ => RegularFile | NDir _ => Directory | _ => OtherFile end
                      (pm_uid (node_meta n)) (pm_gid (node_meta n)) (pm_mode (node_meta n)))
    | None => Err not_found
    end;
  read_to_string p := match sy_fs s !! resolve (sy_fs s) p with Some (NFile c _) => Ok c | _ => Err not_found end;
|}.

(** The store of the daemon, its signers checked against the installed manifest. *)
Definition daemon_trusts (s : Sys) (sha kind : string) : result bool RuleStoreError :=
  match open MacOs (db_path STATE_DIR) (stored_tables (sy_fs s)) with
  | Ok store => @is_trusted_rule_signer SQL (sys_trust s) store sha kind
  | Err e => Err e
  end.

Lemma manifest_trusted (now : Z) (e : HardwareSignerEnrollment) (s : Sys) :
  installed now e s -> @verify_trusted_manifest_path (sys_trust s) trusted_rule_signers_path = Ok tt
  /\ @read_to_string (sys_trust s) trusted_rule_signers_path = Ok (trusted_signer_manifest e).
Proof.
  intros (gid & _ & ((n & En & ->) & _ & _) & _ & (n' & En' & c & -> & ->) & _). split.
  - unfold verify_trusted_manifest_path. cbn [symlink_metadata sys_trust]. rewrite En'.
    change (path_parent trusted_rule_signers_path) with (Some BIN_DIR).
    cbn -[N.land]. rewrite En. done.
  - cbn [read_to_string sys_trust].
    rewrite (resolve_plain (sy_fs s) trusted_rule_signers_path), En' by (rewrite En'; by left). done.
Qed.

(** The daemon trusts the enrolled signer and no other. *)
Lemma daemon_trusts_spec (now : Z) (e : HardwareSignerEnrollment) (s : Sys) (digest sha kind : string) :
  (forall n, sql_fault n = None) -> installed now e s ->
  digest <> "" -> he_public_key_sha256 e = hex_lower digest -> he_signer_kind e = SIGNER_KIND_MACOS_KEYCHAIN ->
  he_label e = "macOS Keychain" ->
  daemon_trusts s sha kind = Ok (bool_decide (sha = he_public_key_sha256 e /\ kind = SIGNER_KIND_MACOS_KEYCHAIN)).
Proof.
  intros Hsql Hinst Hd Hsha Hkind Hlabel. destruct (manifest_trusted _ _ _ Hinst) as [Hv Hr].
  pose proof (manifest_parses e digest Hd Hsha Hkind Hlabel) as Hp.
  destruct Hinst as (gid & _ & _ & _ & _ & Hreg & _). unfold daemon_trusts, open, stmt. rewrite !Hsql. simpl.
  unfold is_trusted_rule_signer, stmt. rewrite Hsql. simpl.
  change (path_parent (db_path STATE_DIR)) with (Some STATE_DIR).
  assert (Hc : @trusted_manifest_contains (sys_trust s) (mkStore (stored_tables (sy_fs s)) (Some trusted_rule_signers_path)) sha kind None
          = Ok (bool_decide (sha = he_public_key_sha256 e /\ kind = SIGNER_KIND_MACOS_KEYCHAIN))).
  { unfold trusted_manifest_contains. cbn [trusted_signers_manifest_path]. rewrite Hr, Hv. simpl.
    unfold trusted_signer_matches. rewrite Hp. simpl. f_equal. rewrite orb_false_r, <-Hsha. unfold signer_matches. simpl.
    rewrite andb_true_r, bool_decide_and. f_equal; apply bool_decide_ext; by split. }
  change (path_eq STATE_DIR (SYSTEM_STATE_DIR MacOs)) with true. cbv iota. simpl in Hc. rewrite Hc.
  unfold count_signers. simpl. destruct (decide (sha = he_public_key_sha256 e)) as [->|Hne].
  - rewrite Hreg. simpl. rewrite Hkind. destruct (decide (kind = SIGNER_KIND_MACOS_KEYCHAIN)) as [->|Hk].
    + rewrite (bool_decide_eq_true_2 (SIGNER_KIND_MACOS_KEYCHAIN = _)) by done. done.
    + rewrite (bool_decide_eq_false_2 (SIGNER_KIND_MACOS_KEYCHAIN = kind)) by congruence.
      rewrite (bool_decide_eq_false_2 (_ /\ _)) by naive_solver. done.
  - rewrite (bool_decide_eq_false_2 (_ /\ _)) by naive_solver. by destruct (negb _).
Qed.

End Daemon.

(** ** The installation the user starts *)

Section UserStarts.
Context `{IE : InstallerEnv, SF : SecurityFramework, SQL : SqlEngine, CR : Crypto, UH : UserHalf}.

(** The workspace and the backups are directories of their own, and a path below one of
    them exists only when the directory does. *)
Definition fresh_directories (f : Fs) : Prop :=
  apart rollback_dir = true /\ apart workspace_dir = true
  /\ workspace_dir <> rollback_dir /\ below rollback_dir workspace_dir = false /\ below workspace_dir rollback_dir = false
  /\ backups_hang_together f
  /\ forall p, below workspace_dir p = true -> is_Some (f !! p) -> is_Some (f !! workspace_dir).

Lemma below_enrollment_path : apart workspace_dir = true -> below workspace_dir keychain_enrollment_path = true.
Proof.
  intros Hap. unfold apart in Hap. bool_split. unfold keychain_enrollment_path, path_join.
  change (path_is_absolute "keychain-enrollment.json") with false. simpl.
  repeat match goal with E : _ = false |- _ => rewrite E end. apply below_app. eauto.
Qed.

Lemma workspace_aside (f : Fs) (p : string) : fresh_directories f -> p = workspace_dir \/ below workspace_dir p = true -> aside p.
Proof.
  intros (_ & _ & Hne & H1 & H2 & _) [->|Hp]; [by split|]. split.
  - intros ->. congruence.
  - apply not_true_is_false. intros Hr. destruct (below_both _ _ _ Hp Hr) as [|[|]]; congruence.
Qed.

(** The user's files are where the installer can read them and no step reaches. *)
Lemma in_workspace_ok (now : Z) (json : string) (s s0 s' : Sys) (u : unit) :
  fresh_directories (sy_fs s) -> create_workspace s = (s0, Ok tt) -> in_workspace now json s0 = (s', Ok u) ->
  exists s1 m, install_as_root now (Some keychain_enrollment_path) s1 = (s', Installed)
    /\ sy_fs s1 !! keychain_enrollment_path = Some (NFile json m) /\ backups_hang_together (sy_fs s1).
Proof.
  intros Hfresh Hc Hi. pose proof Hfresh as (Hap & Hapw & Hne & Hb1 & Hb2 & Hh & Hw).
  pose proof (below_enrollment_path Hapw) as Hbel.
  unfold create_workspace, named in Hc. rewrite sm_bind_ok in Hc. destruct Hc as (sa & [] & Ha & Hc).
  destruct (create_dir workspace_dir s) as [sa' [[]|]] eqn:Ea; [|done]. injection Ha as <-.
  apply call_ok in Ea as (f & Hf & ->). destruct (sy_fs s !! workspace_dir) eqn:Ews; [done|].
  destruct (parent_exists _ _); [|done]. injection Hf as <-.
  destruct (set_permissions workspace_dir 448 _) as [sb [[]|]] eqn:Eb; [|done]. injection Hc as <-.
  apply call_ok in Eb as (f & Hf & ->). simpl in Hf.
  rewrite (resolve_plain _ workspace_dir), lookup_insert_eq in Hf by (rewrite lookup_insert_eq; by right). injection Hf as <-.
  assert (Hk : sy_fs s !! keychain_enrollment_path = None).
  { destruct (sy_fs s !! keychain_enrollment_path) eqn:E; [|done].
    destruct (Hw _ Hbel) as [x Hx]; [by eexists|congruence]. }
  assert (Hkw : keychain_enrollment_path <> workspace_dir).
  { intros E. rewrite E in Hbel. apply below_app in Hbel as [r Hr]. apply (f_equal String.length) in Hr.
    rewrite !length_app_str in Hr. simpl in Hr. lia. }
  unfold in_workspace in Hi. rewrite sm_bind_ok in Hi. destruct Hi as (s1 & [] & H1 & Hi).
  unfold named in H1. destruct (write_file _ json _) as [s1' [[]|]] eqn:Ew; [|done]. injection H1 as <-.
  destruct (write_ok _ _ _ _ _ _ _ Ew) as ([m Hm] & _ & Ho).
  { simpl. rewrite !lookup_insert_ne by congruence. by rewrite Hk. }
  rewrite sm_bind_ok in Hi. destruct Hi as (s2 & exe & [= <- _] & Hi).
  unfold sudo_install in Hi. destruct sudo_error; [done|]. destruct sudo_accepts; [|done].
  destruct (install_as_root now _ s1') as [s3 o] eqn:Er. destruct o; try done. injection Hi as <- _.
  exists s1', m. split_and!; [done|done|].
  assert (Hsame : forall p, aside p \/ True -> p <> keychain_enrollment_path -> p <> workspace_dir -> sy_fs s1' !! p = sy_fs s !! p).
  { intros p _ N1 N2. rewrite Ho by done. simpl. by rewrite !lookup_insert_ne. }
  intros p Hp Hx.
  assert (N1 : p <> keychain_enrollment_path).
  { intros ->. destruct (workspace_aside _ keychain_enrollment_path Hfresh) as [_ E]; [by right|congruence]. }
  assert (N2 : p <> workspace_dir) by congruence.
  assert (N3 : rollback_dir <> keychain_enrollment_path).
  { intros E. destruct (workspace_aside _ keychain_enrollment_path Hfresh) as [E' _]; [by right|congruence]. }
  rewrite Hsame in Hx by auto. rewrite Hsame by auto. by apply (Hh p).
Qed.

Lemma run_install_user (now : Z) (p p' : Proc) (s s' : Sys) (u : unit) :
  fresh_directories (sy_fs s) -> stat_works -> engine_keeps -> dscl_reads ->
  (forall e t, enrollment_json e = Ok t -> json_enrollment t = Ok e) ->
  p_euid p <> 0%N -> run_install now p s = (p', s', Ok u) ->
  exists e, enroll_keychain_signer_for_init p = (p', Ok e) /\ installed now e s'.
Proof.
  intros Hfresh Hstat Hlaw Hdscl Hjson Hu. unfold run_install. rewrite bool_decide_eq_false_2 by done. simpl.
  unfold run_install_with_privilege_escalation.
  destruct (enroll_keychain_signer_for_init p) as [p1 [e|]] eqn:Ee; [|done].
  destruct (enrollment_json e) as [json|] eqn:Ej; [|done].
  destruct (create_workspace s) as [s0 [[]|]] eqn:Ec; [|done].
  destruct (in_workspace now json s0) as [s2 r] eqn:Ei. intros [= <- <- ->]. exists e. split; [done|].
  destruct (in_workspace_ok _ _ _ _ _ _ Hfresh Ec Ei) as (s1 & m & Er & Hk & Hh).
  pose proof Hfresh as (Hap & Hapw & Hne & Hb1 & Hb2 & _ & _).
  destruct (install_as_root_installed Hap now _ _ _ Hstat Hlaw Hdscl Hh Er) as (e' & He' & Hj).
  assert (Ha : aside keychain_enrollment_path) by (apply (workspace_aside _ _ Hfresh); right; by apply below_enrollment_path).
  assert (Hee : Ok (E := string) e = Ok e').
  { rewrite <-(Hjson _ _ Ej). apply (Hj json m Hk).
    unfold reaches. simpl. rewrite orb_false_r, (proj2 Ha), (bool_decide_eq_false_2 (_ = rollback_dir)) by apply Ha.
    simpl. rewrite orb_false_r. apply bool_decide_eq_false_2. intros Hin.
    destruct (apart_targets workspace_dir keychain_enrollment_path Hapw) as [_ E].
    - revert Hin. generalize keychain_enrollment_path. intros q Hin.
      assert (HF : Forall recordable (re_paths reach_before)) by by_decide. by eapply Forall_forall in HF.
    - by rewrite below_enrollment_path in E. }
  injection Hee as <-.
  apply (installed_ext now e s2); [..|done].
  - unfold remove_dir_all, call. case_match; [done|]. by destruct (sy_fs s2 !! workspace_dir).
  - intros q Hq. destruct (apart_targets workspace_dir q Hapw Hq) as [N1 N2].
    unfold remove_dir_all, call. case_match; [done|]. destruct (sy_fs s2 !! workspace_dir); [|done]. cbn.
    rewrite map_lookup_filter. cbn. rewrite N2, (bool_decide_eq_false_2 (q = workspace_dir)) by done.
    by destruct (sy_fs s2 !! q).
Qed.

End UserStarts.

(** ** The contract *)

(** C33: An installer that reports success leaves a system on which the health checks
    find nothing to report: the binaries, the library and the manifest of root with
    their exact permission bits, the directories of the service user, whose record is
    locked down, and the service definition with the expected text. *)
Theorem installed_is_healthy `{IE : InstallerEnv, SQL : SqlEngine} (now : Z) (path : string) (s s' : Sys)
    (tools : string -> list string -> result Output string) :
  apart rollback_dir = true -> backups_hang_together (sy_fs s) -> stat_works -> engine_keeps -> dscl_reads ->
  directory_tools tools s' ->
  install_as_root now (Some path) s = (s', Installed) ->
  is_healthy (@check_installation (sys_view tools s') MacOs) = true.
Proof.
  intros Hap Hh Hstat Hlaw Hdscl Htools Hi.
  destruct (install_as_root_installed Hap now path s s' Hstat Hlaw Hdscl Hh Hi) as (e & He & _).
  by eapply healthy_spec.
Qed.

(** C32: After an installation the user started succeeds, the daemon on the installed
    files trusts the key in the keychain of that user and nothing else: the key, its
    fingerprint and its kind passed through the enrollment file, the manifest and the
    database.  So it trusts the signer of everything the user signs from then on, and
    no longer the signer of a rule signed with an earlier key. *)
Theorem installed_signer_trusted
    `{IE : InstallerEnv, SF : SecurityFramework, SQL : SqlEngine, CR : Crypto, UH : UserHalf}
    (now : Z) (p p' : Proc) (s s' : Sys) :
  fresh_directories (sy_fs s) -> stat_works -> engine_keeps -> dscl_reads ->
  (forall e t, enrollment_json e = Ok t -> json_enrollment t = Ok e) ->
  (forall key pub, export_public_key_x963 key = Ok pub -> sha256 pub <> "") -> (forall n, sql_fault n = None) ->
  p_euid p <> 0%N -> run_install now p s = (p', s', Ok tt) ->
  exists key pub, p_keychains p' !! p_euid p' = Some key /\ export_public_key_x963 key = Ok pub
    /\ (forall sha kind, daemon_trusts s' sha kind
          = Ok (bool_decide (sha = sha256_hex pub /\ kind = SIGNER_KIND_MACOS_KEYCHAIN)))
    /\ forall sg, signed_by_user p' sg -> daemon_trusts s' (sig_public_key_sha256 sg) (sig_signer_kind sg) = Ok true.
Proof.
  intros Hfresh Hstat Hlaw Hdscl Hjson Hsha Hsql Hu Hi.
  destruct (run_install_user now p p' s s' tt Hfresh Hstat Hlaw Hdscl Hjson Hu Hi) as (e & Ee & He).
  destruct (enrollment_spec _ _ _ Ee) as (_ & _ & Hspec).
  destruct (Hspec e eq_refl) as (Heu & _ & Hfp & v & key & [_ [Hv|[Hv _]]] & Hkey & Hpub & _); [|done].
  destruct (enrollment_fields _ _ _ Ee) as [Hkind Hlabel].
  exists key, (he_public_key_x963 e). split; [by rewrite Heu, Hv|]. split; [done|].
  assert (Hall : forall sha kind, daemon_trusts s' sha kind
            = Ok (bool_decide (sha = sha256_hex (he_public_key_x963 e) /\ kind = SIGNER_KIND_MACOS_KEYCHAIN))).
  { intros sha kind. rewrite <-Hfp. apply (daemon_trusts_spec now e s' (sha256 (he_public_key_x963 e))); try done.
    - by apply (Hsha key).
    - apply Hlabel. by rewrite Heu. }
  split; [done|]. intros sg (key' & Hk' & Hp' & Hkd & Hsh). rewrite Hall, Hkd, Hsh.
  rewrite Heu, Hv, Hkey in Hk'. injection Hk' as <-. rewrite Hpub in Hp'. injection Hp' as <-.
  by rewrite bool_decide_eq_true_2.
Qed.
 

(** ** A system on which everything works

    The codec of the database and of enrollments writes the number of a value in
    binary. *)

Fixpoint pos_text (p : positive) : string :=
  match p with xH => "" | xO p' => String "0" (pos_text p') | xI p' => String "1" (pos_text p') end.

Fixpoint text_pos (s : string) : positive :=
  match s with
  | EmptyString => xH
  | String a s' => if bool_decide (a = "0"%char) then xO (text_pos s') else xI (text_pos s')
  end.

Lemma text_pos_text (p : positive) : text_pos (pos_text p) = p.
Proof. induction p as [p IH|p IH|]; cbn; [f_equal; exact IH|f_equal; exact IH|reflexivity]. Qed.

Definition to_code {A} `{Countable A} (a : A) : string := pos_text (encode a).
Definition of_code {A} `{Countable A} (s : string) : option A := decode (text_pos s).

Lemma of_to_code {A} `{Countable A} (a : A) : of_code (to_code a) = Some a.
Proof. unfold of_code, to_code. rewrite text_pos_text. apply decode_encode. Qed.

#[local] Instance signature_countable : Countable RuleSignatureV1.
Proof.
  refine (inj_countable'
    (fun s => (sig_scheme s, sig_signer_kind s, sig_public_key_x963 s, sig_public_key_sha256 s,
               sig_signature_der s, sig_signed_payload_sha256 s, sig_created_at_unix_ms s))
    (fun '(a, b, c, d, e, f, g) => mkSignature a b c d e f g) _). by intros [].
Defined.

#[local] Instance rule_row_countable : Countable RuleRow.
Proof.
  refine (inj_countable' (fun r => (r_kind r, r_match_type r, r_pattern r, r_reason r, r_created_at r))
    (fun '(a, b, c, d, e) => mkRuleRow a b c d e) _). by intros [].
Defined.

#[local] Instance sig_row_countable : Countable SigRow.
Proof.
  refine (inj_countable' (fun r => (s_signature r, s_origin r, s_run_uuid r, s_payload_created_at r))
    (fun '(a, b, c, d) => mkSigRow a b c d) _). by intros [].
Defined.

#[local] Instance signer_row_countable : Countable SignerRow.
Proof.
  refine (inj_countable' (fun r => (t_signer_kind r, t_public_key_x963 r, t_enrolled_at r, t_label r))
    (fun '(a, b, c, d) => mkSignerRow a b c d) _). by intros [].
Defined.

#[local] Instance override_row_countable : Countable OverrideRow.
Proof.
  refine (inj_countable' (fun r => (o_disabled r, o_reason r, o_created_at r))
    (fun '(a, b, c) => mkOverrideRow a b c) _). by intros [].
Defined.

#[local] Instance Db_eq_dec : EqDecision Db.
Proof. solve_decision. Defined.

#[local] Instance db_countable : Countable Db.
Proof.
  refine (inj_countable' (fun d => (rules d, rule_signatures d, trusted_rule_signers d, curated_overrides d))
    (fun '(a, b, c, d) => mkDb a b c d) _). by intros [].
Defined.

#[local] Instance enrollment_eq_dec : EqDecision HardwareSignerEnrollment.
Proof. solve_decision. Defined.

#[local] Instance enrollment_countable : Countable HardwareSignerEnrollment.
Proof.
  refine (inj_countable'
    (fun e => (he_signer_kind e, he_public_key_x963 e, he_public_key_sha256 e, he_label e, he_created e))
    (fun '(a, b, c, d, e) => mkEnrollment a b c d e) _). by intros [].
Defined.

(** [dscl] prints an attribute whose text survives the printing. *)
Definition toy_dscl (a : string) (s : Sys) : string :=
  match sy_user s ≫= lookup a with
  | Some v =>
      let text := a +:+ ": " +:+ v +:+ lf in
      if bool_decide (dscl_attribute_values (from_utf8_lossy text) a = [v]) then text else ""
  | None => ""
  end.

Definition toy_working_env : InstallEnv := {|
  io_fault _ _ _ := None;
  io_prefix _ := None;
  cmd_fault _ _ := None;
  chown_reached _ _ := true;
  cmd_stdout c s :=
    match c with
    | DsclReadAttr a => toy_dscl a s
    | IdGroup => match sy_user s ≫= lookup "PrimaryGroupID" with Some g => g +:+ lf | None => "" end
    | _ => ""
    end;
  cmd_stderr _ := "";
  new_owner := (0, 0)%N;
|}.

Definition toy_installer_at (exe : string) : InstallerEnv := {|
  ie_sys := toy_working_env;
  current_exe := Ok exe;
  rollback_dir := "/tmp/rollback";
  json_enrollment t := ok_or (of_code t) "malformed";
  sqlite_tables main _ _ := default empty_db (main ≫= of_code);
  sqlite_files _ d := (to_code d, "", "");
|}.

Definition toy_working_installer : InstallerEnv := toy_installer_at "/build/stt-guard".

Definition toy_user_half : UserHalf := {|
  uh_sys := toy_working_env;
  workspace_dir := "/tmp/workspace";
  enrollment_json e := Ok (to_code e);
  sudo_error := None;
  sudo_accepts := true;
  failure_status := "exit status: 1";
|}.

(** The build on a machine where an earlier program and its service are installed, and
    the enrollment of a user. *)
Definition toy_handed_over : HardwareSignerEnrollment :=
  mkEnrollment SIGNER_KIND_MACOS_KEYCHAIN "N" (hex_lower "N") "macOS Keychain" false.

Definition toy_machine : Sys :=
  with_fs toy_system (<["/tmp/enrollment" := NFile (to_code toy_handed_over) (mkPathMetadata 501 20 384)]> (sy_fs toy_system)).

Definition toy_tools (program : string) (args : list string) : result Output string :=
  if bool_decide (program = "id") then Ok (mkOutput true ("400" +:+ lf) "")
  else Ok (mkOutput true
             (join lf ["name: " +:+ SERVICE_USER; "uid: 400"; "gid: 400"; "dir: /var/empty";
                       "shell: /usr/bin/false"; "gecos: " +:+ SERVICE_USER_REALNAME] +:+ lf) "").

Lemma toy_engine_keeps : @engine_keeps toy_working_installer.
Proof. intros t d main wal shm [= <- <- <-]. cbn. by rewrite of_to_code. Qed.

Lemma toy_json (e : HardwareSignerEnrollment) (t : string) :
  @enrollment_json toy_user_half e = Ok t -> @json_enrollment toy_working_installer t = Ok e.
Proof. intros [= <-]. cbn. by rewrite of_to_code. Qed.

Lemma toy_dscl_reads : @dscl_reads toy_working_installer.
Proof.
  intros a s u v Hu. change (cmd_stdout (DsclReadAttr a) s) with (toy_dscl a s). unfold toy_dscl. rewrite Hu.
  change (Some u ≫= lookup a) with (u !! a).
  assert (Hnil : forall w, w ∉ dscl_attribute_values (from_utf8_lossy "") a) by (intros w; apply not_elem_of_nil).
  destruct (u !! a) as [w|]; [|by intros ?%Hnil]. cbv zeta. case_bool_decide as E; [|by intros ?%Hnil].
  rewrite E. by intros ->%list_elem_of_singleton.
Qed.

Lemma toy_nothing_below (dir : string) (s : Sys) :
  bool_decide (map_Forall (fun p _ => below dir p = false) (sy_fs s)) = true ->
  forall p, below dir p = true -> is_Some (sy_fs s !! p) -> is_Some (sy_fs s !! dir).
Proof. intros Hb%bool_decide_eq_true p Hp [x Hx]. specialize (Hb p x Hx). simpl in Hb. congruence. Qed.

(** The record the installation makes, as the tools print it. *)
Lemma toy_tools_print (s : Sys) (u : gmap string string) : sy_user s = Some u ->
  u = {[ "UniqueID" := "400"; "PrimaryGroupID" := "400"; "NFSHomeDirectory" := "/var/empty";
         "UserShell" := "/usr/bin/false"; "RealName" := SERVICE_USER_REALNAME ]} -> directory_tools toy_tools s.
Proof.
  intros Hu ->. assert (Huid : service_uid s = Some 400%N) by (unfold service_uid; rewrite Hu; vm_compute; reflexivity).
  constructor.
  - intros uid. rewrite Huid. intros [= <-].
    eexists. split; [reflexivity|]. by split; vm_compute.
  - intros u gid. rewrite Hu. intros [= <-] [= E]. change "400" with (pretty 400%N) in E. apply (inj pretty) in E as <-.
    eexists. split; [reflexivity|]. by split; vm_compute.
  - intros u. rewrite Hu. intros [= <-]. eexists. split; [reflexivity|]. split; [done|]. cbv zeta.
    split_and!; [intros uid; rewrite Huid; intros [= <-]|intros v [= <-]..];
      unfold cache_says; refine (bool_decide_unpack _ _); vm_compute; exact I.
Qed.

Definition installed_system : Sys * InstallOutcome :=
  @install_as_root toy_working_installer toy_sql 0 (Some "/tmp/enrollment") toy_machine.

Lemma installed_is_healthy_witness :
  installed_system.2 = Installed
  /\ is_healthy (@check_installation (sys_view toy_tools installed_system.1) MacOs) = true.
Proof.
  assert (E : installed_system = (installed_system.1, Installed)) by (apply pair_snd; vm_compute; reflexivity).
  split; [exact (f_equal snd E)|].
  apply (@installed_is_healthy toy_working_installer toy_sql 0 "/tmp/enrollment" toy_machine installed_system.1).
  - vm_compute. reflexivity.
  - refine (toy_nothing_below "/tmp/rollback" toy_machine _). vm_compute. reflexivity.
  - intros t p. reflexivity.
  - exact toy_engine_keeps.
  - exact toy_dscl_reads.
  - eapply toy_tools_print; [|reflexivity]. vm_compute. reflexivity.
  - exact E.
Defined.

Definition user_installed : @Proc (toy_keychain "N" (fun _ => None)) * Sys * result unit CliError :=
  @run_install toy_working_installer (toy_keychain "N" (fun _ => None)) toy_sql toy_crypto toy_user_half 0 (toy_user "K") toy_system.

(** The user had the key K; the installation enrolled the key N. *)
Lemma installed_signer_trusted_witness :
  user_installed.2 = Ok tt
  /\ @daemon_trusts toy_working_installer toy_sql user_installed.1.2 (hex_lower "N") SIGNER_KIND_MACOS_KEYCHAIN = Ok true
  /\ @daemon_trusts toy_working_installer toy_sql user_installed.1.2 (hex_lower "K") SIGNER_KIND_MACOS_KEYCHAIN = Ok false.
Proof.
  assert (E : user_installed = ((user_installed.1.1, user_installed.1.2), Ok tt)).
  { rewrite <- surjective_pairing. apply pair_snd. vm_compute. reflexivity. }
  destruct (@installed_signer_trusted toy_working_installer (toy_keychain "N" (fun _ => None)) toy_sql toy_crypto
              toy_user_half 0 (toy_user "K") user_installed.1.1 toy_system user_installed.1.2)
    as (key & pub & Hk & Hp & Ht & _).
  - split; [vm_compute; reflexivity|]. split; [vm_compute; reflexivity|].
    split; [by vm_compute|]. split; [vm_compute; reflexivity|]. split; [vm_compute; reflexivity|].
    split; [refine (toy_nothing_below "/tmp/rollback" toy_system _)
           |refine (toy_nothing_below "/tmp/workspace" toy_system _)]; vm_compute; reflexivity.
  - intros t p. reflexivity.
  - exact toy_engine_keeps.
  - exact toy_dscl_reads.
  - exact toy_json.
  - intros k pub. cbn. destruct k; [discriminate|]. by intros [= <-].
  - intros n. reflexivity.
  - done.
  - exact E.
  - split; [exact (f_equal snd E)|].
    assert (Hkey : p_keychains user_installed.1.1 !! p_euid user_installed.1.1 = Some "N") by (vm_compute; reflexivity).
    assert (key = "N") as -> by (apply (inj Some); exact (eq_trans (eq_sym Hk) Hkey)). injection Hp as <-.
    split; (etransitivity; [apply Ht|vm_compute; reflexivity]).
Defined.

(** The installer run from the installed directory copies every program onto itself,
    which empties it, and reports success. *)
Definition reinstalled_in_place : Sys * InstallOutcome :=
  @install_as_root (toy_installer_at (path_join BIN_DIR "stt-guard")) toy_sql 0 (Some "/tmp/enrollment") installed_system.1.

Definition installed_contents (s : Sys) : list (option string) :=
  (fun b => file_content (sy_fs s) (path_join BIN_DIR b)) <$> INSTALLED_BINARIES.

Lemma reinstall_in_place_empties :
  reinstalled_in_place.2 = Installed
  /\ installed_contents installed_system.1 = (fun b => Some ("new " +:+ b)) <$> INSTALLED_BINARIES
  /\ installed_contents reinstalled_in_place.1 = (fun _ => Some "") <$> INSTALLED_BINARIES.
Proof. split_and!; vm_compute; reflexivity. Qed.
