(* ===== verification/CliRun.v ===== *)
(** * Running a program under guard

    [crates/guard-cli/src/run_orchestrator.rs] ([run], the review of a learning run, the
    environment recorded for the root), [spawn.rs], [locate.rs], [ensure_daemon.rs] and
    the wrap command of [main.rs].  What the command line finds on the machine is
    [RunHost].  A run keeps its client, its terminal and the processes it started; a
    failure after the start keeps them too.  The threads that run while the child does are
    those of [CliPrompt], of which [rh_threads] gives the terminal at their end. *)

From S2P Require Import Prelude RustStr RustUtf8 Policy TrustedSigners Signature Snapshot Paths RuleStore ProcessTree Frame Handlers Prompt.
From S2P Require Import Lockfile Publish HookLoad EnvFilter Messages Events Admin Resolve SnapshotGc Server HardwareSigning CliClient CliPrompt InstallHealth.

(** ** paths.rs and spawn.rs: names *)

Definition HOOK_LIBRARY (os : Os) : string :=
  match os with MacOs => "stt-guard-hook.dylib" | Linux => "stt-guard-hook.so" end.
Definition ENV_HOOK_LIBRARY : string := "STT_GUARD_HOOK_DYLIB".
Definition ENV_DAEMON_SOCKET : string := "STT_GUARD_DAEMON_SOCKET".
Definition ENV_TRUSTED_SIGNERS_MANIFEST : string := "STT_GUARD_TRUSTED_SIGNERS_MANIFEST".
Definition ENV_ALLOW_TEST_SIGNER : string := "STT_GUARD_ALLOW_TEST_SIGNER".

(** [std::process::Command]: the variables set on it, in order, override those of the
    parent, which the child inherits. *)
Record Command : Type := mkCommand {
  cmd_program : string;
  cmd_args : list string;
  cmd_env : list (string * string);
  cmd_own_group : bool;
  cmd_null_stdio : bool;
}.

Definition overlay (env : gmap string string) (sets : list (string * string)) : gmap string string :=
  foldl (fun m kv => <[kv.1 := kv.2]> m) env sets.

Class RunHost : Type := {
  rh_os : Os;
  (** [std::env::vars_os], in its order; [var_os] finds the first. *)
  rh_vars : list (string * string);
  rh_current_dir : result string string;
  rh_current_exe : result string string;
  rh_exists : string -> bool;
  rh_is_file : string -> bool;
  rh_canonicalize : string -> result string string;
  (** The names of the entries, in the order of the system. *)
  rh_read_dir : string -> result (list (result string string)) string;
  rh_create_dir_all : string -> option string;
  rh_stdin_tty : bool;
  (** The identifier of the new process. *)
  rh_spawn : Command -> result N string;
  rh_posix_spawnp : string -> list string -> list string -> result Z string;
  rh_audit_token : N -> result AuditToken string;
  (** Failures of the registration of the signal and of the starts of the threads. *)
  rh_signal_error : option string;
  rh_sigint_thread_error : option string;
  rh_reader_clone_error : option string;
  rh_render_thread_error : option string;
  (** The exit code, [None] for a signal. *)
  rh_wait : N -> result (option Z) string;
  (** The terminal once the threads of the channel have ended, [None] if they never do. *)
  rh_threads : Tty -> option Tty;
}.

Inductive RunStop : Type :=
| Fails (e : CliError)
| Panics (msg : string)
| NeverEnds.

Record Child : Type := mkChild {
  ch_pid : N;
  ch_command : Command;
  ch_waited : bool;
}.

Record RunState : Type := mkRunState {
  rs_client : Client;
  rs_tty : Tty;
  rs_children : list Child;
}.

Definition fail {A} (e : CliError) : SM RunState RunStop A := sm_lift (Err (Fails e)).
Definition check_that (o : option CliError) : SM RunState RunStop unit :=
  match o with Some e => fail e | None => mret tt end.

Definition on_client {A} (m : SM Client CliError A) : SM RunState RunStop A := fun st =>
  let '(c, r) := m (rs_client st) in (mkRunState c (rs_tty st) (rs_children st), map_err Fails r).

(** What is printed on the terminal. *)
Definition tell (text : string) : SM RunState RunStop unit := fun st =>
  (mkRunState (rs_client st) (mkTty (tt_next (rs_tty st)) (tt_out (rs_tty st) +:+ text)) (rs_children st), Ok tt).

(** The result as a value: a [match] on it, or [is_ok]. *)
Definition attempt {A} (m : SM Client CliError A) : SM RunState RunStop (result A CliError) := fun st =>
  let '(c, r) := m (rs_client st) in (mkRunState c (rs_tty st) (rs_children st), Ok r).

Section Host.
Context `{RH : RunHost}.

Definition var_os (k : string) : option string := snd <$> find (fun kv : string * string => bool_decide (kv.1 = k)) rh_vars.

(** The environment of the process as [Command] copies it. *)
Definition inherited : gmap string string := overlay ∅ rh_vars.

Definition child_env (c : Command) : gmap string string := overlay inherited (cmd_env c).

(** ** locate.rs *)

Definition platform_hook_extension_matches (name : string) : bool :=
  match (file_stem_ext name).2 with
  | Some ext => eq_ignore_ascii_case ext (match rh_os with MacOs => "dylib" | Linux => "so" end)
  | None => false
  end.

Definition hook_library_filename_matches (name : string) : bool :=
  contains name "hook" && platform_hook_extension_matches name.

(** The loop over the directory: entries that cannot be read or are no text are skipped. *)
Definition sibling_hook (entries : list (result string string)) : option string :=
  find (fun name => utf8_valid name && hook_library_filename_matches name)
    (omap (fun r : result string string => match r with Ok name => Some name | Err _ => None end) entries).

Definition find_dylib : result string string :=
  if negb (bool_decide (is_Some (var_os ENV_STATE_DIR))) then
    if rh_exists (SYSTEM_HOOK_PATH rh_os) then rh_canonicalize (SYSTEM_HOOK_PATH rh_os)
    else Err ("hardened install is missing " +:+ SYSTEM_HOOK_PATH rh_os +:+ "; run the installer or stt-guard update")
  else
    match var_os ENV_HOOK_LIBRARY with
    | Some candidate =>
        if rh_exists candidate then rh_canonicalize candidate
        else Err (ENV_HOOK_LIBRARY +:+ " points to missing hook library: " +:+ from_utf8_lossy candidate)
    | None =>
        let? exe := rh_current_exe in
        let missing := Err ("could not find " +:+ HOOK_LIBRARY rh_os +:+ ": in dev/test mode tried " +:+ ENV_HOOK_LIBRARY
                            +:+ ", sibling-of-CLI, and sibling hook libraries") in
        match path_parent exe with
        | None => missing
        | Some parent =>
            let candidate := path_join parent (HOOK_LIBRARY rh_os) in
            if rh_exists candidate then rh_canonicalize candidate
            else match rh_read_dir parent with
                 | Err _ => missing
                 | Ok entries =>
                     match sibling_hook entries with
                     | Some name => rh_canonicalize (path_join parent name)
                     | None => missing
                     end
                 end
        end
    end.

(** ** spawn.rs *)

Definition resolve_command_path (command : string) : option string :=
  if bool_decide (1 < length (path_components command)) then Some command
  else
    path ← var_os "PATH";
    find rh_is_file ((fun dir => path_join dir command) <$> split_on ":" path).

Definition APPLE_PREFIXES : list string := ["/bin"; "/sbin"; "/usr/bin"; "/usr/sbin"; "/usr/libexec"; "/System"].

Definition is_apple_system_command_path (path : string) : bool :=
  existsb (fun prefix => path_eq path prefix || path_starts_with path prefix) APPLE_PREFIXES.

Definition reject_dyld_restricted_root_command (command_path : string) : result unit CliError :=
  let checked_path := unwrap_or (rh_canonicalize command_path) command_path in
  if negb (is_apple_system_command_path checked_path) then Ok tt
  else Err (CliOther ("refusing to wrap " +:+ from_utf8_lossy checked_path +:+ " because macOS will strip " +:+ ENV_HOOK_INJECTION rh_os
                      +:+ " before the guard hook can load; use a non-hardened toolchain binary instead")).

Definition preflight_root_command (command : string) : result unit CliError :=
  match resolve_command_path command with
  | None => Ok tt
  | Some command_path =>
      match rh_os with
      | MacOs => reject_dyld_restricted_root_command command_path
      | Linux => Ok tt
      end
  end.

Definition managed_keys : list string :=
  [ENV_HOOK_INJECTION rh_os; ENV_SNAPSHOT_MANIFEST; ENV_STATE_DIR; ENV_DAEMON_SOCKET; ENV_TRUSTED_SIGNERS_MANIFEST;
   ENV_ALLOW_TEST_SIGNER].

Definition is_managed (key : string) : bool := existsb (fun k => bool_decide (key = k)) managed_keys.

Definition kept_vars : list (string * string) := filter (fun kv => is_managed kv.1 = false) rh_vars.

(** The library first, then what was injected before. *)
Definition injection_value (dylib : string) : string :=
  let prior := default "" (var_os (ENV_HOOK_INJECTION rh_os)) in
  if is_empty prior then dylib else dylib +:+ ":" +:+ prior.

Definition wrapped_command (program : string) (args : list string) (dylib manifest_path state_dir : string) : Command :=
  mkCommand program args
    (kept_vars ++ [(ENV_HOOK_INJECTION rh_os, injection_value dylib); (ENV_SNAPSHOT_MANIFEST, manifest_path);
                   (ENV_STATE_DIR, state_dir)])
    true false.

(** [Command::spawn]. *)
Definition spawn (c : Command) : SM RunState RunStop N := fun st =>
  match rh_spawn c with
  | Err e => (st, Err (Fails (CliIo e)))
  | Ok pid => (mkRunState (rs_client st) (rs_tty st) (rs_children st ++ [mkChild pid c false]), Ok pid)
  end.

Definition I32_MAX : N := 2147483647.

Definition spawn_wrapped_with_pgid (command : list string) (manifest_path state_dir : string) : SM RunState RunStop N :=
  match command with
  | [] => fail (CliOther "command is empty")
  | program :: args =>
      sm_lift (map_err Fails (preflight_root_command program)) ;;
      dylib ← sm_lift (map_err (fun e => Fails (DylibNotFound e)) find_dylib);
      pid ← spawn (wrapped_command program args dylib manifest_path state_dir);
      if bool_decide (I32_MAX < pid)%N then fail (CliOther ("child pid " +:+ pretty pid +:+ " does not fit i32"))
      else mret pid
  end.

Definition NUL : ascii := ascii_of_nat 0.

(** [CString::new]. *)
Fixpoint nul_position (s : string) : option nat :=
  match s with
  | String a r => if bool_decide (a = NUL) then Some 0 else S <$> nul_position r
  | EmptyString => None
  end.
Definition cstring (label s : string) : result string string :=
  match nul_position s with
  | None => Ok s
  | Some n => Err (label +:+ " contains NUL: nul byte found in provided data at position: " +:+ pretty n)
  end.

Definition env_entry (kv : string * string) : string := kv.1 +:+ "=" +:+ kv.2.

(** The variant on [posix_spawnp], which builds the environment itself. *)
Definition spawn_wrapped (program : string) (args : list string) (dylib_path manifest_path : string) : result Z string :=
  let env := filter (fun e => nul_position e = None) (env_entry <$> kept_vars) in
  let? injection := cstring "hook env" (env_entry (ENV_HOOK_INJECTION rh_os, injection_value dylib_path)) in
  let? manifest := cstring "MANIFEST env" (env_entry (ENV_SNAPSHOT_MANIFEST, manifest_path)) in
  let? program_c := cstring "program path" program in
  let? argv := collect_results (cstring "argument" <$> args) in
  rh_posix_spawnp program_c (program_c :: argv) (env ++ [injection; manifest]).

(** ** run_orchestrator.rs: the environment of the root *)

(** [std::env::vars] panics at a name or value that is no text; [None] is that panic. *)
Fixpoint capture_walk (vars : list (string * string)) (total : nat) : option (list (string * string)) :=
  match vars with
  | [] => Some []
  | (key, value) :: rest =>
      if negb (utf8_valid key && utf8_valid value) then None
      else if is_secret_key key then capture_walk rest total
      else if negb (is_pm_env_key key) then capture_walk rest total
      else
        let value := truncate_value value in
        if bool_decide (MAX_PM_ENV_BYTES < total + pair_size (key, value)) then Some []
        else cons (key, value) <$> capture_walk rest (total + pair_size (key, value))
  end.

Definition capture_pm_env_from_current_env : option (list (string * string)) := capture_walk rh_vars 0.

End Host.

(** ** run_orchestrator.rs: the review of a learning run *)

Inductive Answer : Type := AnsAllow | AnsDeny | AnsSkip | AnsQuit | AnsClosed.

(** [line.trim().to_lowercase().chars().next().unwrap_or('s')]: no letter but the capital
    has one of the four letters as the start of its lower case. *)
Definition parse_answer (line : string) : option Answer :=
  let c := match trim line with String a _ => ascii_lower a | EmptyString => "s"%char end in
  if bool_decide (c = "a"%char) then Some AnsAllow
  else if bool_decide (c = "d"%char) then Some AnsDeny
  else if bool_decide (c = "s"%char) then Some AnsSkip
  else if bool_decide (c = "q"%char) then Some AnsQuit
  else None.

Record Tally : Type := mkTally { ta_allowed : N; ta_denied : N; ta_skipped : N }.

Definition show_tally (t : Tally) : string :=
  "Learn review: " +:+ pretty (ta_allowed t) +:+ " allow, " +:+ pretty (ta_denied t) +:+ " deny, "
  +:+ pretty (ta_skipped t) +:+ " skipped".

Section Review.
Context `{TY : Terminal, CE : CliEnv, SC : ServerCodec, CR : Crypto, SF : SecurityFramework}.

(** The inner loop: one rule, asked until a line answers; [None] when [fuel] lines do not. *)
Fixpoint ask (fuel : nat) (pattern : string) (tt : Tty) : option (Tty * Answer) :=
  match fuel with
  | O => None
  | S fuel =>
      let shown := tt_out tt +:+ "  " +:+ pattern +:+ " — [a]llow / [d]eny / [s]kip / [q]uit > " in
      let next := S (tt_next tt) in
      let line := unwrap_or (read_line (tt_next tt)) "" in
      if is_empty line then Some (mkTty next shown, AnsClosed)
      else match parse_answer line with
           | Some a => Some (mkTty next shown, a)
           | None => ask fuel pattern (mkTty next (shown +:+ writeln "  invalid; enter a, d, s, or q"))
           end
  end.

Definition learn_reason (verdict run_uuid : string) : string := "user-" +:+ verdict +:+ " from learn run " +:+ run_uuid.

Definition learned (p : Proc) (kind : string) (rule : ProposedRule) (run_uuid : string) : SM Client CliError Z :=
  insert_user_rule_request_with_origin p kind (pr_match_type rule) (pr_pattern rule)
    (learn_reason (if bool_decide (kind = "allow") then "approved" else "denied") run_uuid) "learn" (Some run_uuid).

Definition failed_insert (kind : string) (e : CliError) : string :=
  writeln ("    failed to insert " +:+ kind +:+ " rule: " +:+ show_cli_error e).

(** The rule of an answer: the request, the counter, what is shown of a failure. *)
Definition decide_rule (p : Proc) (run_uuid : string) (rule : ProposedRule) (a : Answer) (c : Client) (t : Tally)
  : Client * Tally * string :=
  match a with
  | AnsAllow =>
      match learned p "allow" rule run_uuid c with
      | (c', Ok _) => (c', mkTally (ta_allowed t + 1) (ta_denied t) (ta_skipped t), "")
      | (c', Err e) => (c', t, failed_insert "allow" e)
      end
  | AnsDeny =>
      match learned p "deny" rule run_uuid c with
      | (c', Ok _) => (c', mkTally (ta_allowed t) (ta_denied t + 1) (ta_skipped t), "")
      | (c', Err e) => (c', t, failed_insert "deny" e)
      end
  | AnsSkip => (c, mkTally (ta_allowed t) (ta_denied t) (ta_skipped t + 1), "")
  | AnsQuit | AnsClosed => (c, t, "")
  end.

Fixpoint review (fuel : nat) (p : Proc) (run_uuid : string) (proposed : list ProposedRule) (t : Tally) (c : Client) (tt : Tty)
  : option (Client * Tty * Tally) :=
  match proposed with
  | [] => Some (c, mkTty (tt_next tt) (tt_out tt +:+ writeln (show_tally t +:+ ".")), t)
  | rule :: rest =>
      match ask fuel (pr_pattern rule) tt with
      | None => None
      | Some (tt1, AnsClosed) => Some (c, mkTty (tt_next tt1) (tt_out tt1 +:+ writeln (show_tally t +:+ " (stdin closed).")), t)
      | Some (tt1, AnsQuit) => Some (c, mkTty (tt_next tt1) (tt_out tt1 +:+ writeln (show_tally t +:+ " (quit early).")), t)
      | Some (tt1, a) =>
          let '(c', t', text) := decide_rule p run_uuid rule a c t in
          review fuel p run_uuid rest t' c' (mkTty (tt_next tt1) (tt_out tt1 +:+ text))
      end
  end.

Definition present_learn_review (fuel : nat) (p : Proc) (run_uuid : string) (c : Client) (tt : Tty) : option (Client * Tty) :=
  match baseline_commit_request run_uuid c with
  | (c', Err _) => Some (c', tt)
  | (c', Ok []) =>
      Some (c', mkTty (tt_next tt) (tt_out tt +:+ writeln "" +:+ writeln "stt-guard --learn: no new hosts observed during this run."))
  | (c', Ok proposed) =>
      fst <$> review fuel p run_uuid proposed (mkTally 0 0 0) c'
        (mkTty (tt_next tt) (tt_out tt +:+ writeln "" +:+ writeln ("stt-guard --learn: " +:+ pretty (length proposed)
                               +:+ " host(s) observed. Review each to create rules:") +:+ writeln ""))
  end.

End Review.

(** ** run_orchestrator.rs: the run *)

Section Run.
Context `{RH : RunHost, TY : Terminal, CE : CliEnv, SC : ServerCodec, CR : Crypto, SF : SecurityFramework, SNC : SnapshotCodec}.

(** The channel is opened for a terminal only; without it the run goes on. *)
Definition open_channel_if (is_tty : bool) (run_uuid : string) : SM RunState RunStop bool :=
  if is_tty then r ← attempt (CliPrompt.open run_uuid); mret (is_ok r) else mret false.

Definition audit_token_for_pid (pid : N) : SM RunState RunStop AuditToken :=
  sm_lift (map_err (fun e => Fails (DaemonUnreachable ("audit_token: " +:+ e))) (rh_audit_token pid)).

Definition register_child (pid : N) (run_uuid : string) : SM RunState RunStop unit :=
  token ← audit_token_for_pid pid;
  match capture_pm_env_from_current_env with
  | None => sm_lift (Err (Panics "vars"))
  | Some root_pm_env => on_client (register_root_for_run_with_pm_env_with_daemon token run_uuid root_pm_env)
  end.

Definition install_sigint : SM RunState RunStop unit :=
  check_that ((fun e => CliOther ("install SIGINT handler: " +:+ e)) <$> rh_signal_error) ;;
  check_that ((fun e => CliOther ("spawn sigint thread: " +:+ e)) <$> rh_sigint_thread_error).

Definition start_render (channel : bool) : SM RunState RunStop unit :=
  if channel then
    check_that ((fun e => DaemonUnreachable ("try_clone prompt reader: " +:+ e)) <$> rh_reader_clone_error) ;;
    check_that ((fun e => CliOther ("render thread: " +:+ e)) <$> rh_render_thread_error)
  else mret tt.

Definition mark_waited (pid : N) (st : RunState) : RunState :=
  mkRunState (rs_client st) (rs_tty st)
    ((fun ch => if bool_decide (ch_pid ch = pid) then mkChild (ch_pid ch) (ch_command ch) true else ch) <$> rs_children st).

(** [child.wait()]: the exit code, one for a signal. *)
Definition wait_child (pid : N) : SM RunState RunStop Z := fun st =>
  match rh_wait pid with
  | Err e => (st, Err (Fails (CliOther ("wait: " +:+ e))))
  | Ok code => (mark_waited pid st, Ok (default 1%Z code))
  end.

(** Closing the channel and joining the render thread. *)
Definition join_render (channel : bool) : SM RunState RunStop unit := fun st =>
  if channel then
    match rh_threads (rs_tty st) with
    | Some tt' => (mkRunState (rs_client st) tt' (rs_children st), Ok tt)
    | None => (st, Err NeverEnds)
    end
  else (st, Ok tt).

(** [fuel] bounds the lines an answer of the review takes. *)
Definition learn_review (fuel : nat) (p : Proc) (run_uuid : string) : SM RunState RunStop unit := fun st =>
  match present_learn_review fuel p run_uuid (rs_client st) (rs_tty st) with
  | Some (c, tt') => (mkRunState c tt' (rs_children st), Ok tt)
  | None => (st, Err NeverEnds)
  end.

(** After the child has been started. *)
Definition supervise (fuel : nat) (p : Proc) (run_uuid : string) (channel learn_mode : bool) (pid : N) : SM RunState RunStop Z :=
  register_child pid run_uuid ;;
  install_sigint ;;
  start_render channel ;;
  exit_code ← wait_child pid;
  join_render channel ;;
  (if learn_mode then learn_review fuel p run_uuid else mret tt) ;;
  mret exit_code.

Definition run (fuel : nat) (p : Proc) (state_dir : string) (command : list string) (learn_mode : bool)
  : SM RunState RunStop Z :=
  cwd ← sm_lift (map_err (fun e => Fails (CliOther ("cwd: " +:+ e))) rh_current_dir);
  outcome ← on_client (prepare_snapshot_v3 p (from_utf8_lossy cwd) rh_stdin_tty learn_mode);
  channel ← open_channel_if rh_stdin_tty (po_run_uuid outcome);
  pid ← spawn_wrapped_with_pgid command (po_manifest_path outcome) state_dir;
  supervise fuel p (po_run_uuid outcome) channel learn_mode pid.

(** ** ensure_daemon.rs *)

Context `{HV : HealthView}.

Definition require_installed : result unit CliError :=
  if bool_decide (is_Some (var_os ENV_STATE_DIR)) then Ok tt
  else
    let health := check_installation rh_os in
    if is_healthy health then Ok tt else Err (CliOther (error_message health)).

(** One probe for each of the delays, 200, 400, 800, 1600 and 3200 milliseconds. *)
Definition RETRY_DELAYS : list N := [200; 400; 800; 1600; 3200]%N.

Fixpoint retry (delays : list N) : SM RunState RunStop bool :=
  match delays with
  | [] => mret false
  | _ :: rest =>
      r ← attempt probe_daemon_alive;
      if is_ok (r : result unit CliError) then mret true else retry rest
  end.

Definition wait_for_daemon (on_timeout : CliError) : SM RunState RunStop unit :=
  alive ← retry RETRY_DELAYS;
  if (alive : bool) then mret tt else fail on_timeout.

Definition ensure_installed_daemon : SM RunState RunStop unit :=
  sm_lift (map_err Fails require_installed) ;;
  r ← attempt probe_daemon_alive;
  if is_ok (r : result unit CliError) then mret tt
  else
    tell (writeln "stt-guard: waiting for daemon...") ;;
    wait_for_daemon (CliOther ("stt-guard: daemon is installed but not responding. "
                               +:+ "Check the service manager logs for details.")).

Definition daemon_binary_next_to_current_exe (current_exe : string) : result string CliError :=
  match path_parent current_exe with
  | None => Err (CliOther ("cannot determine binary directory from " +:+ from_utf8_lossy current_exe))
  | Some dir => Ok (path_join dir DAEMON_BIN)
  end.

Definition development_daemon_binary : result string CliError :=
  let? current_exe := map_err (fun e => CliOther ("current_exe: " +:+ e)) rh_current_exe in
  let? daemon := daemon_binary_next_to_current_exe current_exe in
  if rh_exists daemon then Ok daemon
  else Err (CliOther ("stt-guard-daemon not found at " +:+ from_utf8_lossy daemon
                      +:+ ". Build the workspace before using Linux development mode.")).

Definition development_daemon (daemon state_dir : string) : Command :=
  mkCommand daemon ["serve"; "--state-dir"; state_dir] [] false true.

(** [sock] is in the message only: the client knows its socket. *)
Definition ensure_linux_development_daemon (sock state_dir : string) : SM RunState RunStop unit :=
  r ← attempt probe_daemon_alive;
  if is_ok (r : result unit CliError) then mret tt
  else
    daemon ← sm_lift (map_err Fails development_daemon_binary);
    check_that ((fun e => CliOther ("create Linux development state dir " +:+ from_utf8_lossy state_dir +:+ ": " +:+ e))
                  <$> rh_create_dir_all state_dir) ;;
    tell (writeln ("stt-guard: starting Linux development daemon at " +:+ from_utf8_lossy state_dir)) ;;
    sm_lift (map_err (fun e => Fails (CliOther ("start " +:+ from_utf8_lossy daemon +:+ ": " +:+ e)))
               (rh_spawn (development_daemon daemon state_dir))) ;;
    wait_for_daemon (CliOther ("stt-guard: Linux development daemon did not become ready at " +:+ from_utf8_lossy sock)).

Definition ensure_linux_daemon (sock state_dir : string) : SM RunState RunStop unit :=
  if is_system_install Linux state_dir then ensure_installed_daemon else ensure_linux_development_daemon sock state_dir.

Definition ensure_daemon (sock state_dir : string) : SM RunState RunStop unit :=
  match rh_os with
  | Linux => ensure_linux_daemon sock state_dir
  | MacOs => ensure_installed_daemon
  end.

(** ** main.rs: the wrap command *)

(** The directory of the system goes before [STT_GUARD_STATE_DIR]; [None] is the panic
    when there is no home directory. *)
Definition resolve_state_dir : option string :=
  if rh_exists (SYSTEM_STATE_DIR rh_os) then Some (SYSTEM_STATE_DIR rh_os)
  else default_state_dir rh_os inherited rh_exists.

Definition EX_USAGE : Z := 64.
Definition EX_SOFTWARE : Z := 70.

Definition learn_needs_terminal : string :=
  writeln ("stt-guard: --learn requires an interactive terminal " +:+ "(run on a developer machine, not in CI)").

Definition wrap (fuel : nat) (p : Proc) (learn : bool) (argv : list string) : SM RunState RunStop Z :=
  if learn && negb rh_stdin_tty then tell learn_needs_terminal ;; mret EX_USAGE
  else match argv with
       | [] => fail (CliOther "command is empty")
       | command :: _ =>
           sm_lift (map_err Fails (preflight_root_command command)) ;;
           match resolve_state_dir with
           | None => sm_lift (Err (Panics "HOME"))
           | Some state =>
               ensure_daemon (socket_path state) state ;;
               run fuel p state argv learn
           end
       end.

(** [main]: a panic exits with 101. *)
Definition exit_code (r : result Z RunStop) : option Z :=
  match r with Ok code => Some code | Err (Fails _) => Some EX_SOFTWARE | Err (Panics _) => Some 101%Z | Err NeverEnds => None end.

End Run.

(** ** The environment of the child *)

(** The last setting of a name decides. *)
Lemma overlay_lookup (env : gmap string string) (sets : list (string * string)) (k : string) :
  overlay env sets !! k = from_option (fun kv : string * string => Some kv.2) (env !! k) (last (filter (fun kv => kv.1 = k) sets)).
Proof.
  induction sets as [|[k' v] sets IH] using rev_ind; [done|].
  unfold overlay in *. rewrite foldl_app, filter_app. cbn [foldl fst snd].
  destruct (decide (k' = k)) as [->|Hne].
  - rewrite lookup_insert_eq, filter_cons_True, filter_nil, last_snoc by done. done.
  - by rewrite lookup_insert_ne, filter_cons_False, filter_nil, app_nil_r by done.
Qed.

Lemma overlay_app (env : gmap string string) (a b : list (string * string)) : overlay env (a ++ b) = overlay (overlay env a) b.
Proof. apply foldl_app. Qed.

Section Environment.
Context `{RH : RunHost}.

Lemma filter_kept (vars : list (string * string)) (k : string) :
  filter (fun kv => kv.1 = k) (filter (fun kv => is_managed kv.1 = false) vars)
  = if is_managed k then [] else filter (fun kv => kv.1 = k) vars.
Proof.
  induction vars as [|[k1 v] vars IH]; [by destruct (is_managed k)|].
  destruct (decide (k1 = k)) as [->|Hne].
  - rewrite (filter_cons_True (fun kv => kv.1 = k) (k, v) vars) by done. destruct (is_managed k) eqn:Hk.
    + rewrite filter_cons_False by (cbn [fst]; congruence). exact IH.
    + rewrite filter_cons_True by done. rewrite filter_cons_True by done. by rewrite IH.
  - rewrite (filter_cons_False (fun kv => kv.1 = k) (k1, v) vars) by done. rewrite <- IH.
    destruct (decide (is_managed k1 = false)).
    + rewrite filter_cons_True by done. by rewrite filter_cons_False.
    + by rewrite filter_cons_False.
Qed.

(** Setting what is inherited, or part of it, changes nothing. *)
Lemma overlay_kept (k : string) : overlay inherited kept_vars !! k = inherited !! k.
Proof.
  unfold inherited. rewrite !overlay_lookup, lookup_empty. unfold kept_vars. rewrite filter_kept.
  destruct (is_managed k); [done|]. by destruct (last _).
Qed.

Definition child_vars (program : string) (args : list string) (dylib manifest state_dir : string) : gmap string string :=
  child_env (wrapped_command program args dylib manifest state_dir).

(** Three variables of the child are set; every other one is that of the command line. *)
Lemma child_vars_lookup (program : string) (args : list string) (dylib manifest state_dir k : string) :
  child_vars program args dylib manifest state_dir !! k
  = if bool_decide (k = ENV_STATE_DIR) then Some state_dir
    else if bool_decide (k = ENV_SNAPSHOT_MANIFEST) then Some manifest
    else if bool_decide (k = ENV_HOOK_INJECTION rh_os) then Some (injection_value dylib)
    else inherited !! k.
Proof.
  unfold child_vars, child_env, wrapped_command. cbn [cmd_env]. rewrite overlay_app. unfold overlay at 1. cbn [foldl fst snd].
  destruct (decide (k = ENV_STATE_DIR)) as [->|H1]; [by rewrite lookup_insert_eq|].
  rewrite lookup_insert_ne, bool_decide_eq_false_2 by done.
  destruct (decide (k = ENV_SNAPSHOT_MANIFEST)) as [->|H2]; [by rewrite lookup_insert_eq|].
  rewrite lookup_insert_ne, bool_decide_eq_false_2 by done.
  destruct (decide (k = ENV_HOOK_INJECTION rh_os)) as [->|H3]; [by rewrite lookup_insert_eq, bool_decide_eq_true_2|].
  rewrite lookup_insert_ne, bool_decide_eq_false_2 by done. apply overlay_kept.
Qed.

(** What the daemon keeps of the recorded environment is all of it. *)
Lemma capture_walk_go (vars out : list (string * string)) (total : nat) :
  capture_walk vars total = Some out -> out = capture_go vars total.
Proof.
  revert total out. induction vars as [|[k v] rest IH]; intros total out; simpl; [by intros [= <-]|].
  destruct (negb _); [done|]. destruct (is_secret_key k); [by apply IH|]. destruct (negb (is_pm_env_key k)); [by apply IH|].
  case_bool_decide; [by intros [= <-]|]. destruct (capture_walk rest _) as [l|] eqn:E; [|done].
  intros [= <-]. f_equal. by apply IH.
Qed.

Lemma capture_accepted (out : list (string * string)) :
  capture_pm_env_from_current_env = Some out ->
  out = extract_pm_env rh_vars /\ extract_pm_env out = out /\ sizes out <= MAX_PM_ENV_BYTES.
Proof.
  intros ->%capture_walk_go. destruct (capture_go_spec rh_vars 0) as [Ha Hs]; [lia|].
  split; [done|]. split; [by apply capture_go_id|done].
Qed.

(** The panic: some name or value is no text. *)
Lemma capture_panics (vars : list (string * string)) (total : nat) :
  capture_walk vars total = None -> exists kv, kv ∈ vars /\ (utf8_valid kv.1 && utf8_valid kv.2) = false.
Proof.
  revert total. induction vars as [|[k v] rest IH]; intros total; simpl; [done|].
  destruct (negb _) eqn:Hu; [intros _; exists (k, v); split; [apply list_elem_of_here|by apply negb_true_iff in Hu]|].
  assert (forall n, capture_walk rest n = None -> exists kv, kv ∈ (k, v) :: rest /\ (utf8_valid kv.1 && utf8_valid kv.2) = false)
    as Hrest by (intros n (kv & Hin & Hkv)%IH; exists kv; split; [by apply list_elem_of_further|done]).
  destruct (is_secret_key k); [apply Hrest|]. destruct (negb (is_pm_env_key k)); [apply Hrest|].
  case_bool_decide; [done|]. destruct (capture_walk rest _) eqn:E; [done|]. intros _. by eapply Hrest.
Qed.

End Environment.

(** ** What a step does to the children *)

Definition keeps {A} (m : SM RunState RunStop A) : Prop := forall st, rs_children (m st).1 = rs_children st.

Create HintDb runs.

Lemma keeps_ret {A} (a : A) : keeps (mret a).
Proof. by intros st. Qed.
Lemma keeps_lift {A} (r : result A RunStop) : keeps (sm_lift r).
Proof. by intros st. Qed.
Lemma keeps_check (o : option CliError) : keeps (check_that o).
Proof. by destruct o. Qed.
Lemma keeps_client {A} (m : SM Client CliError A) : keeps (on_client m).
Proof. intros st. unfold on_client. by destruct (m _). Qed.
Lemma keeps_tell (text : string) : keeps (tell text).
Proof. by intros st. Qed.
Lemma keeps_attempt {A} (m : SM Client CliError A) : keeps (attempt m).
Proof. intros st. unfold attempt. by destruct (m _). Qed.
Lemma keeps_bind {A B} (m : SM RunState RunStop A) (k : A -> SM RunState RunStop B) :
  keeps m -> (forall a, keeps (k a)) -> keeps (m ≫= k).
Proof.
  intros Hm Hk st. rewrite sm_bind_eq. specialize (Hm st). destruct (m st) as [st1 [a|e]]; [|done].
  rewrite (Hk a st1). exact Hm.
Qed.
#[export] Hint Resolve keeps_ret keeps_lift keeps_check keeps_client keeps_tell keeps_attempt : runs.

(** Cut a program at its binds and tests. *)
Ltac keep := repeat (done || (apply keeps_bind; [|intros ?]) || case_match || auto with runs).

Section Steps.
Context `{RH : RunHost, TY : Terminal, CE : CliEnv, SC : ServerCodec, CR : Crypto, SF : SecurityFramework, SNC : SnapshotCodec,
  HV : HealthView}.

Lemma keeps_register (pid : N) (u : string) : keeps (register_child pid u).
Proof using Type. unfold register_child, audit_token_for_pid. keep. Qed.
Lemma keeps_sigint : keeps install_sigint.
Proof using Type. unfold install_sigint. keep. Qed.
Lemma keeps_render (b : bool) : keeps (start_render b).
Proof using Type. unfold start_render. keep. Qed.
Lemma keeps_join (b : bool) : keeps (join_render b).
Proof using Type. intros st. unfold join_render. by repeat case_match. Qed.
Lemma keeps_review (fuel : nat) (p : Proc) (u : string) : keeps (learn_review fuel p u).
Proof using Type. intros st. unfold learn_review. by repeat case_match. Qed.
Lemma keeps_open (b : bool) (u : string) : keeps (open_channel_if b u).
Proof using Type. unfold open_channel_if. keep. Qed.
Lemma keeps_retry (l : list N) : keeps (retry l).
Proof using Type. induction l as [|d l IH]; simpl; keep. Qed.
Lemma keeps_wait_daemon (e : CliError) : keeps (wait_for_daemon e).
Proof using Type. unfold wait_for_daemon, fail. apply keeps_bind; [apply keeps_retry|]. intros []; auto with runs. Qed.
Lemma keeps_ensure (sock state : string) : keeps (ensure_daemon sock state).
Proof using Type.
  unfold ensure_daemon, ensure_linux_daemon, ensure_installed_daemon, ensure_linux_development_daemon.
  repeat (done || apply keeps_wait_daemon || (apply keeps_bind; [|intros ?]) || case_match || auto with runs).
Qed.

End Steps.

Section Cases.
Context `{RH : RunHost, TY : Terminal, CE : CliEnv, SC : ServerCodec, CR : Crypto, SF : SecurityFramework, SNC : SnapshotCodec,
  HV : HealthView}.

(** The child that was started stays the only one, and a run that returns has waited for it. *)
Lemma supervise_children (fuel : nat) (p : Proc) (u : string) (channel learn : bool) (pid : N) (c : Command)
    (st st' : RunState) (r : result Z RunStop) :
  rs_children st = [mkChild pid c false] -> supervise fuel p u channel learn pid st = (st', r) ->
  exists waited, rs_children st' = [mkChild pid c waited] /\ (is_ok r = true -> waited = true).
Proof using Type.
  intros Hst. unfold supervise.
  rewrite sm_bind_eq. pose proof (keeps_register pid u st) as H1. destruct (register_child _ _ _) as [st1 [[]|e]]; cbn [fst] in H1;
    [|intros [= <- <-]; exists false; split; [congruence|done]].
  rewrite sm_bind_eq. pose proof (keeps_sigint st1) as H2. destruct (install_sigint _) as [st2 [[]|e]]; cbn [fst] in H2;
    [|intros [= <- <-]; exists false; split; [congruence|done]].
  rewrite sm_bind_eq. pose proof (keeps_render channel st2) as H3. destruct (start_render _ _) as [st3 [[]|e]]; cbn [fst] in H3;
    [|intros [= <- <-]; exists false; split; [congruence|done]].
  rewrite sm_bind_eq. unfold wait_child. destruct (rh_wait pid) as [code|e]; [|intros [= <- <-]; exists false; split; [congruence|done]].
  intros Hend. exists true. split; [|done].
  assert (rs_children (mark_waited pid st3) = [mkChild pid c true]) as Hw.
  { unfold mark_waited. cbn [rs_children]. rewrite H3, H2, H1, Hst. cbn. by rewrite bool_decide_eq_true_2. }
  rewrite <- Hw. symmetry. eapply (f_equal fst) in Hend. cbn [fst] in Hend. rewrite <- Hend. symmetry.
  apply keeps_bind; [apply keeps_join|intros _]. apply keeps_bind; [destruct learn; [apply keeps_review|apply keeps_ret]|intros _; apply keeps_ret].
Qed.

(** What a child was started with. *)
Record started (p : Proc) (state_dir : string) (command : list string) (learn : bool) (c c1 : Client)
    (out : PrepareSnapshotOutcome) (dylib : string) (cmd : Command) : Prop := {
  sd_cwd : exists cwd, rh_current_dir = Ok cwd
           /\ prepare_snapshot_v3 p (from_utf8_lossy cwd) rh_stdin_tty learn c = (c1, Ok out);
  sd_program : exists program args, command = program :: args /\ preflight_root_command program = Ok tt
               /\ cmd = wrapped_command program args dylib (po_manifest_path out) state_dir;
  sd_dylib : find_dylib = Ok dylib;
}.

Lemma spawn_cases (command : list string) (manifest state_dir : string) (st st' : RunState) (r : result N RunStop) :
  spawn_wrapped_with_pgid command manifest state_dir st = (st', r) ->
  (st' = st /\ is_ok r = false)
  \/ exists program args dylib pid,
     let cmd := wrapped_command program args dylib manifest state_dir in
     command = program :: args /\ preflight_root_command program = Ok tt /\ find_dylib = Ok dylib /\ rh_spawn cmd = Ok pid
     /\ st' = mkRunState (rs_client st) (rs_tty st) (rs_children st ++ [mkChild pid cmd false])
     /\ (r = Ok pid \/ is_ok r = false).
Proof using Type.
  unfold spawn_wrapped_with_pgid. destruct command as [|program args]; [intros [= <- <-]; by left|].
  rewrite !sm_bind_eq. unfold sm_lift. destruct (preflight_root_command program) as [[]|e] eqn:Hpre; cbn; [|intros [= <- <-]; by left].
  rewrite sm_bind_eq. destruct find_dylib as [dylib|e] eqn:Hdy; cbn; [|intros [= <- <-]; by left].
  rewrite sm_bind_eq. unfold spawn. destruct (rh_spawn _) as [pid|e] eqn:Es; [|intros [= <- <-]; by left].
  intros H. right. exists program, args, dylib, pid. cbv zeta.
  assert (st' = mkRunState (rs_client st) (rs_tty st) (rs_children st ++ [mkChild pid (wrapped_command program args dylib manifest state_dir) false])
          /\ (r = Ok pid \/ is_ok r = false)) as [? ?] by (destruct (bool_decide _); injection H as <- <-; auto).
  by split_and!.
Qed.

Lemma run_cases (fuel : nat) (p : Proc) (state_dir : string) (command : list string) (learn : bool)
    (st st' : RunState) (r : result Z RunStop) :
  rs_children st = [] -> run fuel p state_dir command learn st = (st', r) ->
  (rs_children st' = [] /\ is_ok r = false)
  \/ exists c1 out dylib cmd pid waited, started p state_dir command learn (rs_client st) c1 out dylib cmd
     /\ rs_children st' = [mkChild pid cmd waited] /\ (is_ok r = true -> waited = true).
Proof using Type.
  intros Hst. unfold run. rewrite sm_bind_eq. unfold sm_lift. destruct rh_current_dir as [cwd|e] eqn:Hcwd; cbn [map_err];
    [|intros [= <- <-]; by left].
  rewrite sm_bind_eq. unfold on_client. destruct (prepare_snapshot_v3 _ _ _ _ _) as [c1 [out|e]] eqn:Hp; cbn [map_err];
    [|intros [= <- <-]; by left].
  rewrite sm_bind_eq. set (st1 := mkRunState c1 _ _).
  pose proof (keeps_open rh_stdin_tty (po_run_uuid out) st1) as Ho. replace (rs_children st1) with (@nil Child) in Ho by done.
  destruct (open_channel_if _ _ st1) as [st2 [channel|e]]; cbn [fst] in Ho; [|intros [= <- <-]; left; split; [congruence|done]].
  rewrite sm_bind_eq. destruct (spawn_wrapped_with_pgid _ _ _ _) as [st3 s] eqn:Es.
  assert (rs_children st2 = []) as Hst2 by done.
  apply spawn_cases in Es as [[-> Hs]|(program & args & dylib & pid & Hc & Hpre & Hdy & Hsp & Hst3 & Hs)].
  { destruct s as [pid|e]; [done|]. intros [= <- <-]. by left. }
  assert (rs_children st3 = [mkChild pid (wrapped_command program args dylib (po_manifest_path out) state_dir) false]) as Hch
    by (rewrite Hst3; cbn [rs_children]; by rewrite Hst2).
  assert (started p state_dir command learn (rs_client st) c1 out dylib
            (wrapped_command program args dylib (po_manifest_path out) state_dir)) as Hsd
    by (split; [by exists cwd|by exists program, args|done]).
  intros H. right. exists c1, out, dylib, (wrapped_command program args dylib (po_manifest_path out) state_dir), pid.
  destruct Hs as [->|Hs].
  - apply (supervise_children _ _ _ _ _ _ _ _ _ _ Hch) in H as (w & Hw & Hr). by exists w.
  - destruct s as [?|e]; [done|]. injection H as <- <-. by exists false.
Qed.

(** The gate before the daemon is used. *)
Lemma ensure_gate (sock state : string) (st st' : RunState) :
  ensure_daemon sock state st = (st', Ok tt) ->
  var_os ENV_STATE_DIR = None -> rh_os = MacOs \/ is_system_install Linux state = true ->
  is_healthy (check_installation rh_os) = true.
Proof using Type.
  intros H Henv Hsys.
  assert (ensure_installed_daemon st = (st', Ok tt)) as Hi.
  { unfold ensure_daemon, ensure_linux_daemon in H. destruct rh_os; [done|].
    destruct Hsys as [|Hs]; [done|]. by rewrite Hs in H. }
  unfold ensure_installed_daemon in Hi. rewrite sm_bind_eq in Hi. unfold require_installed, sm_lift in Hi. rewrite Henv in Hi.
  rewrite bool_decide_eq_false_2 in Hi by (by intros [? ?]).
  by destruct (is_healthy _).
Qed.

(** The library of an installation. *)
Lemma find_dylib_system (dylib : string) :
  find_dylib = Ok dylib -> var_os ENV_STATE_DIR = None -> rh_canonicalize (SYSTEM_HOOK_PATH rh_os) = Ok dylib.
Proof using Type.
  unfold find_dylib. intros H Henv. rewrite Henv in H. rewrite bool_decide_eq_false_2 in H by (by intros [? ?]).
  cbn [negb] in H. by destruct (rh_exists _).
Qed.

(** The program that was accepted is none of the system's. *)
Lemma preflight_ok (program path : string) :
  preflight_root_command program = Ok tt -> rh_os = MacOs -> resolve_command_path program = Some path ->
  is_apple_system_command_path (unwrap_or (rh_canonicalize path) path) = false.
Proof using Type.
  unfold preflight_root_command, reject_dyld_restricted_root_command. intros H Hos Hp. rewrite Hp, Hos in H.
  by destruct (is_apple_system_command_path _).
Qed.

Lemma wrap_cases (fuel : nat) (p : Proc) (learn : bool) (argv : list string) (st st' : RunState) (r : result Z RunStop) :
  rs_children st = [] -> wrap fuel p learn argv st = (st', r) ->
  rs_children st' = []
  \/ exists state c c1 out dylib cmd pid waited,
     resolve_state_dir = Some state /\ started p state argv learn c c1 out dylib cmd
     /\ rs_children st' = [mkChild pid cmd waited] /\ (is_ok r = true -> waited = true)
     /\ (learn = true -> rh_stdin_tty = true)
     /\ (var_os ENV_STATE_DIR = None -> rh_os = MacOs \/ is_system_install Linux state = true ->
         is_healthy (check_installation rh_os) = true).
Proof using Type.
  intros Hst. unfold wrap. destruct (learn && negb rh_stdin_tty) eqn:Htty; [intros [= <- <-]; by left|].
  destruct argv as [|program args] eqn:Hargv; [intros [= <- <-]; by left|]. rewrite <- Hargv in *.
  rewrite sm_bind_eq. unfold sm_lift at 1. destruct (preflight_root_command program); cbn [map_err]; [|intros [= <- <-]; by left].
  destruct resolve_state_dir as [state|]; [|intros [= <- <-]; by left].
  rewrite sm_bind_eq. pose proof (keeps_ensure (socket_path state) state st) as He.
  destruct (ensure_daemon _ _ st) as [st1 [[]|e]] eqn:Ee; cbn [fst] in He; [|intros [= <- <-]; left; congruence].
  intros H. apply run_cases in H as [[H _]|(c1 & out & dylib & cmd & pid & w & Hs & Hch & Hw)]; [by left| |congruence].
  right. exists state, (rs_client st1), c1, out, dylib, cmd, pid, w. split_and!; try done.
  - intros ->. cbn in Htty. by apply negb_false_iff in Htty.
  - by apply (ensure_gate _ _ _ _ Ee).
Qed.

End Cases.

(** ** The review *)

Section Reviewed.
Context `{TY : Terminal, CE : CliEnv, SC : ServerCodec, CR : Crypto, SF : SecurityFramework}.
Context (p : Proc) (run_uuid : string).

(** The letters of an answer. *)
Definition letters (a : Answer) : list ascii :=
  match a with
  | AnsAllow => ["a"; "A"]%char
  | AnsDeny => ["d"; "D"]%char
  | AnsSkip => ["s"; "S"]%char
  | AnsQuit => ["q"; "Q"]%char
  | AnsClosed => []
  end.

(** What the [n]-th line answers: a letter of the answer is the first character but for
    blanks; a blank line skips; no line at all, or one that cannot be read, is the end of
    the input.  Other lines answer nothing. *)
Definition line_says (n : nat) (a : Answer) : Prop :=
  match a with
  | AnsClosed => read_line n = Ok "" \/ exists e, read_line n = Err e
  | _ => exists line, read_line n = Ok line /\ line <> "" /\
      ((exists c rest, trim line = String c rest /\ c ∈ letters a) \/ (a = AnsSkip /\ trim line = ""))
  end.

(** The first line from [n] on that answers, its number and its answer. *)
Definition answers (n k : nat) (a : Answer) : Prop :=
  n <= k /\ line_says k a /\ forall j b, n <= j < k -> ~ line_says j b.

Definition answer_at (n : nat) : option Answer :=
  let line := unwrap_or (read_line n) "" in
  if is_empty line then Some AnsClosed else parse_answer line.

Definition answer_of_letter (c : ascii) : option Answer :=
  if bool_decide (c ∈ letters AnsAllow) then Some AnsAllow
  else if bool_decide (c ∈ letters AnsDeny) then Some AnsDeny
  else if bool_decide (c ∈ letters AnsSkip) then Some AnsSkip
  else if bool_decide (c ∈ letters AnsQuit) then Some AnsQuit
  else None.

Lemma parse_answer_letter (line : string) (c : ascii) (rest : string) :
  trim line = String c rest -> parse_answer line = answer_of_letter c.
Proof using Type. intros H. unfold parse_answer. rewrite H. by destruct c as [[] [] [] [] [] [] [] []]. Qed.

Lemma answer_of_letter_iff (c : ascii) (a : Answer) : answer_of_letter c = Some a <-> c ∈ letters a.
Proof using Type.
  unfold answer_of_letter. split.
  - repeat (case_bool_decide as Hc; [intros [= <-]; exact Hc|]; clear Hc). done.
  - intros Hc. destruct a; [rewrite bool_decide_eq_true_2 by done; done|..];
      cbn in Hc; rewrite ?elem_of_cons, ?elem_of_nil in Hc; destruct_or?; try done; by subst.
Qed.

Lemma line_says_iff (n : nat) (a : Answer) : line_says n a <-> answer_at n = Some a.
Proof using Type.
  unfold answer_at, line_says. destruct (read_line n) as [line|e]; cbn [unwrap_or].
  2:{ cbn. destruct a; (split; [try (intros (? & ? & _); done)|try done]); [done|]. right. by exists e. }
  destruct line as [|c0 line0]; cbn [is_empty].
  { destruct a; (split; [try (intros (x & [= <-] & Hx & _); done)|try done]); [done|]. by left. }
  set (line := String c0 line0).
  assert (match a with AnsClosed => False | _ =>
    (exists c rest, trim line = String c rest /\ c ∈ letters a) \/ (a = AnsSkip /\ trim line = "") end
    <-> parse_answer line = Some a) as Hgen.
  { destruct (trim line) as [|c rest] eqn:Et.
    - unfold parse_answer. rewrite Et. destruct a; (split; [|try (intros [=]; done)]); try done;
        try (intros [(? & ? & [=] & _)|[? _]]; done). intros _. by right.
    - rewrite (parse_answer_letter line c rest Et), answer_of_letter_iff. destruct a; (split; [|try (by left; exists c, rest)]);
        try done; try (intros [(c' & r' & [= <- <-] & Hc)|[_ [=]]]; exact Hc). intros Hc. by apply elem_of_nil in Hc. }
  rewrite <- Hgen. destruct a.
  1-4: split; [intros (x & [= <-] & _ & H); exact H|intros H; exists line; by split_and!].
  split; [intros [[=]|[e [=]]]|done].
Qed.

Lemma answers_none (n : nat) : (forall b, ~ line_says n b) <-> answer_at n = None.
Proof using Type.
  setoid_rewrite line_says_iff. split; [|congruence]. intros H. destruct (answer_at n) as [a|]; [by destruct (H a)|done].
Qed.

Lemma ask_step (fuel : nat) (pattern : string) (tt : Tty) :
  match answer_at (tt_next tt) with
  | Some a => exists out, ask (S fuel) pattern tt = Some (mkTty (S (tt_next tt)) out, a)
  | None => exists out, ask (S fuel) pattern tt = ask fuel pattern (mkTty (S (tt_next tt)) out)
  end.
Proof using Type.
  unfold answer_at. cbn [ask]. destruct (is_empty _); [by eexists|]. destruct (parse_answer _); by eexists.
Qed.

Lemma ask_answers (fuel : nat) (pattern : string) (tt tt' : Tty) (a : Answer) :
  ask fuel pattern tt = Some (tt', a) -> exists k, answers (tt_next tt) k a /\ tt_next tt' = S k.
Proof using Type.
  revert tt. induction fuel as [|fuel IH]; intros tt; [done|]. pose proof (ask_step fuel pattern tt) as Hs.
  destruct (answer_at (tt_next tt)) as [b|] eqn:Ha; destruct Hs as [out ->].
  - intros [= <- ->]. exists (tt_next tt). split; [|done]. split; [lia|]. split; [by apply line_says_iff|]. intros j c Hj. lia.
  - intros (k & (Hk & Hak & Hno) & Hn)%IH. cbn [tt_next] in *. exists k. split; [|done]. split; [lia|]. split; [done|].
    intros j c Hj. destruct (decide (j = tt_next tt)) as [->|]; [by apply answers_none|]. apply Hno. lia.
Qed.

Lemma ask_returns (fuel : nat) (pattern : string) (tt : Tty) (k : nat) :
  tt_next tt <= k < tt_next tt + fuel -> is_Some (answer_at k) -> is_Some (ask fuel pattern tt).
Proof using Type.
  revert tt. induction fuel as [|fuel IH]; intros tt Hk Ha; [lia|]. pose proof (ask_step fuel pattern tt) as Hs.
  destruct (answer_at (tt_next tt)) as [b|] eqn:Hn; destruct Hs as [out ->]; [by eexists|].
  apply IH; [|done]. cbn [tt_next]. assert (k <> tt_next tt) by (intros ->; destruct Ha; congruence). lia.
Qed.

Lemma ask_more (fuel fuel' : nat) (pattern : string) (tt : Tty) r :
  fuel <= fuel' -> ask fuel pattern tt = Some r -> ask fuel' pattern tt = Some r.
Proof using Type.
  revert fuel' tt. induction fuel as [|fuel IH]; intros fuel' tt Hf; [done|]. destruct fuel' as [|fuel']; [lia|].
  cbn [ask]. destruct (is_empty _); [done|]. destruct (parse_answer _); [done|]. apply IH. lia.
Qed.

(** One rule of the review: the answer, the client before and after, the request. *)
Record Decided : Type := mkDecided {
  dc_rule : ProposedRule;
  dc_answer : Answer;
  dc_before : Client;
  dc_after : Client;
  dc_request : option (result Z CliError);
}.

Definition kind_of (a : Answer) : option string :=
  match a with AnsAllow => Some "allow" | AnsDeny => Some "deny" | AnsSkip | AnsQuit | AnsClosed => None end.

(** A rule is asked for exactly when the answer is to allow or to deny. *)
Definition carried_out (d : Decided) : Prop :=
  match kind_of (dc_answer d) with
  | Some kind => exists r, learned p kind (dc_rule d) run_uuid (dc_before d) = (dc_after d, r) /\ dc_request d = Some r
  | None => dc_after d = dc_before d /\ dc_request d = None
  end.

Definition ends_review (a : Answer) : bool := match a with AnsQuit | AnsClosed => true | _ => false end.

(** Rules in turn, each by the first line that answers; until they are through, or the
    user quits, or the input ends. *)
Inductive Reviewed : nat -> list ProposedRule -> Client -> list Decided -> Client -> Prop :=
| rv_through n c : Reviewed n [] c [] c
| rv_ends n k rule rest c a : answers n k a -> ends_review a = true ->
    Reviewed n (rule :: rest) c [mkDecided rule a c c None] c
| rv_next n k rule rest c c1 a r ds c' : answers n k a -> ends_review a = false ->
    carried_out (mkDecided rule a c c1 r) -> Reviewed (S k) rest c1 ds c' ->
    Reviewed n (rule :: rest) c (mkDecided rule a c c1 r :: ds) c'.

Definition count (f : Decided -> bool) (ds : list Decided) : N := N.of_nat (length (filter (fun d => f d = true) ds)).
Definition inserted (kind : string) (d : Decided) : bool :=
  String.eqb (default "" (kind_of (dc_answer d))) kind && match dc_request d with Some (Ok _) => true | _ => false end.
Definition skipped (d : Decided) : bool := match dc_answer d with AnsSkip => true | _ => false end.

Definition tallied (t : Tally) (ds : list Decided) : Tally :=
  mkTally (ta_allowed t + count (inserted "allow") ds) (ta_denied t + count (inserted "deny") ds)
    (ta_skipped t + count skipped ds).

Lemma count_cons (f : Decided -> bool) (d : Decided) (ds : list Decided) :
  count f (d :: ds) = ((if f d then 1 else 0) + count f ds)%N.
Proof using Type.
  unfold count. rewrite filter_cons. destruct (f d) eqn:Hf.
  - rewrite decide_True by done. cbn [length]. lia.
  - rewrite decide_False by congruence. lia.
Qed.

Lemma count_nil (f : Decided -> bool) : count f [] = 0%N.
Proof using Type. done. Qed.

Lemma tallied_nil (t : Tally) : tallied t [] = t.
Proof using Type. unfold tallied, count. cbn. rewrite !N.add_0_r. by destruct t. Qed.

Lemma decide_rule_spec (rule : ProposedRule) (a : Answer) (c c' : Client) (t t' : Tally) (text : string) :
  decide_rule p run_uuid rule a c t = (c', t', text) ->
  exists r, carried_out (mkDecided rule a c c' r) /\ t' = tallied t [mkDecided rule a c c' r].
Proof using Type.
  unfold decide_rule, carried_out, tallied. destruct a; cbn [kind_of dc_answer dc_before dc_after dc_request dc_rule].
  - destruct (learned p "allow" rule run_uuid c) as [c1 [id|e]]; intros [= <- <- _]; eexists; (split; [by eexists|]);
      rewrite !count_cons, !count_nil; unfold inserted; cbn; destruct t; cbn; f_equal; lia.
  - destruct (learned p "deny" rule run_uuid c) as [c1 [id|e]]; intros [= <- <- _]; eexists; (split; [by eexists|]);
      rewrite !count_cons, !count_nil; unfold inserted; cbn; destruct t; cbn; f_equal; lia.
  - intros [= <- <- _]. exists None. split; [done|]. rewrite !count_cons. unfold count. cbn. f_equal; lia.
  - intros [= <- <- _]. exists None. split; [done|]. rewrite !count_cons. unfold count. destruct t; cbn. f_equal; lia.
  - intros [= <- <- _]. exists None. split; [done|]. rewrite !count_cons. unfold count. destruct t; cbn. f_equal; lia.
Qed.

Lemma tallied_cons (t : Tally) (d : Decided) (ds : list Decided) : tallied (tallied t [d]) ds = tallied t (d :: ds).
Proof using Type. unfold tallied. cbn [ta_allowed ta_denied ta_skipped]. rewrite !count_cons, !count_nil. f_equal; lia. Qed.

Lemma review_reviewed (fuel : nat) (proposed : list ProposedRule) (t t' : Tally) (c c' : Client) (tt tt' : Tty) :
  review fuel p run_uuid proposed t c tt = Some (c', tt', t') ->
  exists ds, Reviewed (tt_next tt) proposed c ds c' /\ t' = tallied t ds.
Proof using Type.
  revert t c tt. induction proposed as [|rule rest IH]; intros t c tt; cbn [review].
  { intros [= <- _ <-]. exists []. split; [constructor|by rewrite tallied_nil]. }
  destruct (ask fuel (pr_pattern rule) tt) as [[tt1 a]|] eqn:Ea; [|done]. apply ask_answers in Ea as (k & Hk & Hn).
  assert (ends_review a = true -> forall out, Some (c, mkTty (tt_next tt1) out, t) = Some (c', tt', t') ->
    exists ds, Reviewed (tt_next tt) (rule :: rest) c ds c' /\ t' = tallied t ds) as Hend.
  { intros He out [= <- _ <-]. exists [mkDecided rule a c c None]. split; [by eapply rv_ends|].
    unfold tallied. rewrite !count_cons. unfold count, inserted, skipped. destruct a, t; try done; cbn; f_equal; lia. }
  assert (forall c1 t1 text, ends_review a = false -> decide_rule p run_uuid rule a c t = (c1, t1, text) ->
    review fuel p run_uuid rest t1 c1 (mkTty (tt_next tt1) (tt_out tt1 +:+ text)) = Some (c', tt', t') ->
    exists ds, Reviewed (tt_next tt) (rule :: rest) c ds c' /\ t' = tallied t ds) as Hnext.
  { intros c1 t1 text He (r & Hd & ->)%decide_rule_spec (ds & Hr & ->)%IH. cbn [tt_next] in Hr. rewrite Hn in Hr.
    exists (mkDecided rule a c c1 r :: ds). split; [by eapply rv_next|by rewrite tallied_cons]. }
  destruct a; try (by apply Hend); destruct (decide_rule _ _ _ _ _ _) as [[c1 t1] text]; by apply (Hnext _ _ _ eq_refl eq_refl).
Qed.

(** The review ends when there is always a further line that answers. *)
Lemma review_returns (proposed : list ProposedRule) (t : Tally) (c : Client) (tt : Tty) :
  (forall n, exists k a, n <= k /\ line_says k a) ->
  exists N, forall fuel, N <= fuel -> is_Some (review fuel p run_uuid proposed t c tt).
Proof using Type.
  intros Hin. revert t c tt. induction proposed as [|rule rest IH]; intros t c tt; [exists 0; intros fuel _; by eexists|].
  destruct (Hin (tt_next tt)) as (k & a0 & Hk & Ha0%line_says_iff).
  destruct (ask_returns (S (k - tt_next tt)) (pr_pattern rule) tt k) as [[tt1 a] Ha]; [lia|by eexists|].
  assert (exists N, forall fuel, N <= fuel -> is_Some (
      let '(c', t', text) := decide_rule p run_uuid rule a c t in
      review fuel p run_uuid rest t' c' (mkTty (tt_next tt1) (tt_out tt1 +:+ text)))) as [N HN].
  { destruct (decide_rule _ _ _ _ _ _) as [[c1 t1] text]. apply IH. }
  exists (Nat.max N (S (k - tt_next tt))). intros fuel Hf. cbn [review].
  rewrite (ask_more (S (k - tt_next tt)) fuel _ _ _ ltac:(lia) Ha). specialize (HN fuel ltac:(lia)).
  destruct a; try (by eexists); exact HN.
Qed.

End Reviewed.

(** ** Properties *)

(** What the child is given: the library comes first, and the variables the library reads
    name the manifest of the run and the state directory. *)
Record given `{RunHost} (program : string) (args : list string) (dylib manifest state_dir : string) (cmd : Command) : Prop := {
  gv_program : cmd_program cmd = program /\ cmd_args cmd = args /\ cmd_own_group cmd = true;
  gv_manifest : child_env cmd !! ENV_SNAPSHOT_MANIFEST = Some manifest;
  gv_state : child_env cmd !! ENV_STATE_DIR = Some state_dir;
  gv_library : exists rest, child_env cmd !! ENV_HOOK_INJECTION rh_os = Some (dylib +:+ rest) /\ (rest = "" \/ starts_with rest ":" = true);
  gv_rest : forall k, k <> ENV_SNAPSHOT_MANIFEST -> k <> ENV_STATE_DIR -> k <> ENV_HOOK_INJECTION rh_os ->
            child_env cmd !! k = inherited !! k;
}.

Lemma wrapped_command_given `{RunHost} (program : string) (args : list string) (dylib manifest state_dir : string) :
  given program args dylib manifest state_dir (wrapped_command program args dylib manifest state_dir).
Proof.
  pose proof (child_vars_lookup program args dylib manifest state_dir) as Hl. unfold child_vars in Hl.
  assert (ENV_HOOK_INJECTION rh_os <> ENV_STATE_DIR /\ ENV_HOOK_INJECTION rh_os <> ENV_SNAPSHOT_MANIFEST) as [N1 N2]
    by (destruct rh_os; by split).
  split; [done|by rewrite Hl|by rewrite Hl| |].
  - rewrite Hl, !bool_decide_eq_false_2, bool_decide_eq_true_2 by done. unfold injection_value.
    destruct (is_empty _); [exists ""; split; [by rewrite app_nil_r_str|by left]|].
    exists (":" +:+ default "" (var_os (ENV_HOOK_INJECTION rh_os))). split; [done|right]. by destruct (default _ _).
  - intros k K1 K2 K3. by rewrite Hl, !bool_decide_eq_false_2 by done.
Qed.

Section Wrapped.
Context `{RH : RunHost, TY : Terminal, CE : CliEnv, SC : ServerCodec, CR : Crypto, SF : SecurityFramework, SNC : SnapshotCodec}.
Context (law : keychain_signs) (Hcodec : codec_round_trips) (Hlib : forall t, @resolve_codec (@sv_resolve (ce_daemon t)) = SNC)
  (H1 : cbor_round_trips PrepareSnapshotReq) (H2 : cbor_round_trips SnapshotInputsReply)
  (H3 : cbor_round_trips PublishSignedSnapshot) (H4 : cbor_round_trips SnapshotReply).

(** What else happens to the daemon forgets no prepared inputs, and the second request
    comes before they expire. *)
Definition undisturbed : Prop :=
  (forall t s u v, sv_prepared s !! u = Some v -> sv_prepared (ce_others t s) !! u = Some v)
  /\ forall t, (ce_daemon_clock (S t) - ce_daemon_clock t < PENDING_SNAPSHOT_INPUT_TTL)%Z.

(** The run of a child: the inputs the daemon prepared for it, published. *)
Definition in_place (p : Proc) (learn : bool) (c c1 : Client) (out : PrepareSnapshotOutcome) (input : SnapshotBuildInput) : Prop :=
  exists cwd,
  let shown := from_utf8_lossy cwd in
  let t := cl_tick c in
  let s1 := (prepare_request shown rh_stdin_tty learn t (found c)).1 in
  let s2 := ce_others (S t) s1 in
  rh_current_dir = Ok cwd /\ prepare_snapshot_v3 p shown rh_stdin_tty learn c = (c1, Ok out)
  /\ inputs_of t (found c) s1 shown rh_stdin_tty learn input
  /\ po_run_uuid out = bi_run_uuid input /\ po_manifest_path out = run_manifest_path (sv_state_dir s2) (bi_run_uuid input)
  /\ run_published p s2 (cl_server c1) input rh_stdin_tty learn.


Lemma started_in_place (p : Proc) (state_dir : string) (command : list string) (learn : bool) (c c1 : Client)
    (out : PrepareSnapshotOutcome) (dylib : string) (cmd : Command) :
  undisturbed -> started p state_dir command learn c c1 out dylib cmd -> exists input, in_place p learn c c1 out input.
Proof using law Hcodec Hlib H1 H2 H3 H4.
  intros [Hothers Httl] [(cwd & Hcwd & Hp) _ _].
  destruct (prepare_run_spec law Hcodec Hlib H1 H2 H3 H4 p (from_utf8_lossy cwd) rh_stdin_tty learn c c1 (Ok out) (Hothers _ _) (Httl _) Hp)
    as (input & Hi & Hu & Hm & Hpub). exists input, cwd. by split_and!.
Qed.

(** The directory of the daemon is that of the client. *)
Lemma prepare_state_dir (cwd : string) (is_tty learn : bool) (t : nat) (s : Server) :
  sv_state_dir (prepare_request cwd is_tty learn t s).1 = sv_state_dir s.
Proof using Type.
  unfold prepare_request. cbn [work prepare_service pq_schema_version PrepareSnapshot_new_v3].
  rewrite bool_decide_eq_true_2 by (apply list_elem_of_further, list_elem_of_here).
  unfold handle_prepare_snapshot_inputs_full. by destruct (collect_snapshot_build_input _ _ _ _ _ _).
Qed.

(** The library in a process that reads what the daemon wrote, and that trusts the user. *)
Lemma in_place_loads (p : Proc) (learn : bool) (c c1 : Client) (out : PrepareSnapshotOutcome) (input : SnapshotBuildInput)
    (d : string) (HF : HookFs) (TF : TrustFs) :
  in_place p learn c c1 out input ->
  (forall t s, sv_state_dir s = d -> sv_state_dir (ce_others t s) = d) -> sv_state_dir (found c) = d -> d <> "" ->
  let u := bi_run_uuid input in
  getenv "STT_GUARD_SNAPSHOT_MANIFEST" = Some (po_manifest_path out) -> getenv "STT_GUARD_STATE_DIR" = Some d ->
  clean (run_snapshot_path d u) -> (forall b, String.length (sha256 b) = 32) ->
  (I64_MIN <= bi_generated_at_unix_ms input <= I64_MAX)%Z ->
  (forall q, q = d \/ q ∈ run_files d u -> canonicalize q = Ok q) ->
  (forall q b, sv_files (cl_server c1) !! q = Some b ->
     open_nofollow q = Ok tt /\ file_is_regular q = Ok true /\ read_to_end q = Ok b /\ mmap q = Ok tt) ->
  (forall b, sv_files (cl_server c1) !! run_manifest_path d u = Some b -> utf8_valid b = true) ->
  (forall q, q ∈ run_files d u -> path_starts_with q d = true) ->
  (forall sg, signed_by_user p sg -> trusted_signer_manifest_contains sg = Ok true) ->
  load_from_env = Ok (mkLoaded (entries (build_snapshot input)) (schema_version (build_snapshot input)) (run_snapshot_path d u)).
Proof using law Hcodec.
  intros (cwd & _ & _ & _ & _ & Hman & bytes & sg & Hb & Hu & Hs & Hf1 & Hf2 & _) Hoth Hd Hne u Hm Hst Hcl Hsha Hgen Hcan Hfs Hutf Hund Htr.
  rewrite Hoth in Hman, Hf1, Hf2 by (by rewrite prepare_state_dir).
  pose proof Hs as Hv. apply (sign_snapshot_verified law _ _ _ Production) in Hv as (Hv & _ & Hat); [|done].
  apply (run_files_load d u bytes sg (build_snapshot input) (sv_files (cl_server c1))); try done.
  - by rewrite Hat.
  - split; [by apply build_snapshot_bytes_decode|]. split; [|by apply trusted_contains_ok, Htr].
    unfold verify_snapshot_signature in Hv. apply verify_payload_ok in Hv as (_ & b & Hcan' & Ha).
    exists u, b. split; [done|]. split; [|done]. unfold canonical_snapshot_payload_bytes in Hcan'.
    destruct (cbor_snapshot_payload _) as [b'|] eqn:Eb; [|done]. by injection Hcan' as ->.
  - by rewrite Hm, Hman.
  - unfold well_known_state_dir. rewrite Hst. by destruct d.
Qed.

End Wrapped.


(** C9: the program decides by the rules of its run.  Once [run] has started a program, the
    library in it loads exactly the entries built from the inputs the daemon prepared:
    provided that the program sees the environment it was given and the files the daemon
    wrote, that the paths hold no links, and that its manifest of signers trusts the
    user's key. *)
Theorem wrapped_program_loads_its_run
    `{RH : RunHost, TY : Terminal, CE : CliEnv, SC : ServerCodec, CR : Crypto, SF : SecurityFramework, SNC : SnapshotCodec}
    (law : keychain_signs) (Hcodec : codec_round_trips)
    (Hlib : forall t, @resolve_codec (@sv_resolve (ce_daemon t)) = SNC)
    (H1 : cbor_round_trips PrepareSnapshotReq) (H2 : cbor_round_trips SnapshotInputsReply)
    (H3 : cbor_round_trips PublishSignedSnapshot) (H4 : cbor_round_trips SnapshotReply) (Hund : undisturbed)
    (fuel : nat) (p : Proc) (d : string) (command : list string) (learn : bool) (st st' : RunState) (r : result Z RunStop)
    (child : Child) :
  rs_children st = [] -> run fuel p d command learn st = (st', r) -> child ∈ rs_children st' ->
  (forall t s, sv_state_dir s = d -> sv_state_dir (ce_others t s) = d) -> sv_state_dir (found (rs_client st)) = d -> d <> "" ->
  exists c1 out input, in_place p learn (rs_client st) c1 out input
  /\ forall (HF : HookFs) (TF : TrustFs), let u := bi_run_uuid input in
     (forall k, getenv k = child_env (ch_command child) !! k) ->
     clean (run_snapshot_path d u) -> (forall b, String.length (sha256 b) = 32) ->
     (I64_MIN <= bi_generated_at_unix_ms input <= I64_MAX)%Z ->
     (forall q, q = d \/ q ∈ run_files d u -> canonicalize q = Ok q) ->
     (forall q b, sv_files (cl_server c1) !! q = Some b ->
        open_nofollow q = Ok tt /\ file_is_regular q = Ok true /\ read_to_end q = Ok b /\ mmap q = Ok tt) ->
     (forall b, sv_files (cl_server c1) !! run_manifest_path d u = Some b -> utf8_valid b = true) ->
     (forall q, q ∈ run_files d u -> path_starts_with q d = true) ->
     (forall sg, signed_by_user p sg -> trusted_signer_manifest_contains sg = Ok true) ->
     load_from_env = Ok (mkLoaded (entries (build_snapshot input)) (schema_version (build_snapshot input)) (run_snapshot_path d u)).
Proof.
  intros Hst Hrun Hch Hoth Hd Hne.
  apply run_cases in Hrun as [[Hnil _]|(c1 & out & dylib & cmd & pid & w & Hsd & Heq & _)]; [|  |done].
  { rewrite Hnil in Hch. by apply not_elem_of_nil in Hch. }
  rewrite Heq in Hch. apply list_elem_of_singleton in Hch as ->. cbn [ch_command].
  destruct (started_in_place law Hcodec Hlib H1 H2 H3 H4 _ _ _ _ _ _ _ _ _ Hund Hsd) as [input Hin].
  exists c1, out, input. split; [done|]. intros HF TF Henv Hcl Hsha Hgen Hcan Hfs Hutf Hunder Htr.
  destruct Hsd as [_ (program & args & _ & _ & ->) _].
  pose proof (wrapped_command_given program args dylib (po_manifest_path out) d) as [_ Gm Gs _ _].
  apply (in_place_loads law Hcodec p learn (rs_client st) c1 out input d HF TF); try done.
  - by rewrite Henv.
  - by rewrite Henv.
Qed.

(** C15: the review of a learning run does what the user says.  Each observed host is asked
    about in turn, until all are through, the user quits or the input ends; the first line
    that answers decides, one that starts with a, d, s or q in either case, or a blank one,
    which skips.  Exactly an answer to allow or to deny sends a request for a rule of that
    kind; one that succeeds has stored the rule under the user's signature.  The counters
    shown at the end are those of the decisions.  The review ends for every input that has
    after every line a further one that answers, so also when the input ends. *)
Theorem learn_review_faithful
    `{TY : Terminal, CE : CliEnv, SC : ServerCodec, CR : Crypto, SF : SecurityFramework}
    (law : keychain_signs) (Hrt : cbor_round_trips (Versioned InsertUserRule)) (Hrt' : cbor_round_trips InsertUserRuleReply)
    (fuel : nat) (p : Proc) (run_uuid : string) (proposed : list ProposedRule) (c : Client) (tt : Tty) :
  (forall c' tt' t', review fuel p run_uuid proposed (mkTally 0 0 0) c tt = Some (c', tt', t') ->
     exists ds, Reviewed p run_uuid (tt_next tt) proposed c ds c'
     /\ t' = mkTally (count (inserted "allow") ds) (count (inserted "deny") ds) (count skipped ds)
     /\ forall d id, d ∈ ds -> dc_request d = Some (Ok id) ->
        exists kind sg, kind_of (dc_answer d) = Some kind /\ signed_by_user p sg
        /\ let row := mkRuleRow kind (pr_match_type (dc_rule d)) (pr_pattern (dc_rule d))
                        (learn_reason (if bool_decide (kind = "allow") then "approved" else "denied") run_uuid)
                        (ce_unix_ms_now (cl_tick (dc_before d))) in
           rules (db (sv_store (cl_server (dc_after d)))) !! id = Some row
           /\ rule_signatures (db (sv_store (cl_server (dc_after d)))) !! id
              = Some (mkSigRow sg "learn" (Some run_uuid) (ce_unix_ms_now (cl_tick (dc_before d)))))
  /\ ((forall n, exists k a, n <= k /\ line_says k a) ->
      exists N, forall lines, N <= lines -> is_Some (review lines p run_uuid proposed (mkTally 0 0 0) c tt)).
Proof.
  split; [|by apply review_returns].
  intros c' tt' t' H. apply review_reviewed in H as (ds & Hr & ->). exists ds. split; [done|]. split; [done|].
  clear -law Hrt Hrt' Hr. induction Hr as [|n k rule rest c a _ _|n k rule rest c c1 a r ds c2 _ _ Hd _ IH]; intros d id Hin Hreq.
  - by apply not_elem_of_nil in Hin.
  - apply list_elem_of_singleton in Hin as ->. done.
  - apply elem_of_cons in Hin as [->|Hin]; [|by apply IH]. cbn in *. unfold carried_out in Hd. cbn in Hd.
    destruct (kind_of a) as [kind|] eqn:Hk; [|destruct Hd; congruence]. destruct Hd as (res & He & ->). injection Hreq as ->.
    apply (insert_request_spec law Hrt Hrt') in He as (_ & sg & _ & Hu & Hrow & Hsig & _). by exists kind, sg.
Qed.

(** ** What the code does where its comments say otherwise *)

Section Flaws.
Context `{RH : RunHost, TY : Terminal, CE : CliEnv, SC : ServerCodec, CR : Crypto, SF : SecurityFramework, SNC : SnapshotCodec,
  HV : HealthView}.

(** [spawn_wrapped_with_pgid] leaves out three variables when it sets the environment, but
    a [Command] inherits what is not set: the child has them all the same. *)
Lemma control_variables_inherited (program : string) (args : list string) (dylib manifest state_dir k : string) :
  k ∈ [ENV_DAEMON_SOCKET; ENV_TRUSTED_SIGNERS_MANIFEST; ENV_ALLOW_TEST_SIGNER] ->
  is_managed k = true /\ child_vars program args dylib manifest state_dir !! k = inherited !! k.
Proof using Type.
  intros Hk. assert (k <> ENV_STATE_DIR /\ k <> ENV_SNAPSHOT_MANIFEST /\ k <> ENV_HOOK_INJECTION rh_os) as (N1 & N2 & N3).
  { rewrite !elem_of_cons, elem_of_nil in Hk. destruct Hk as [->|[->|[->|[]]]]; split_and!; try done; by destruct rh_os. }
  split; [|by rewrite child_vars_lookup, !bool_decide_eq_false_2].
  unfold is_managed, managed_keys. apply existsb_exists. exists k. rewrite bool_decide_eq_true_2 by done.
  rewrite <- list_elem_of_In. set_solver.
Qed.

(** A failure after the start leaves the program running, and nothing waits for it. *)
Lemma failed_registration_leaves_child (fuel : nat) (p : Proc) (u e : string) (channel learn : bool) (pid : N) (st : RunState) :
  rh_audit_token pid = Err e ->
  supervise fuel p u channel learn pid st = (st, Err (Fails (DaemonUnreachable ("audit_token: " +:+ e)))).
Proof using Type.
  intros He. unfold supervise, register_child, audit_token_for_pid. rewrite !sm_bind_eq. unfold sm_lift. by rewrite He.
Qed.

(** A variable that is no text stops the run once the program has started. *)
Lemma foreign_variable_panics (fuel : nat) (p : Proc) (u : string) (channel learn : bool) (pid : N) (tok : AuditToken) (st : RunState) :
  rh_audit_token pid = Ok tok -> capture_pm_env_from_current_env = None ->
  supervise fuel p u channel learn pid st = (st, Err (Panics "vars")).
Proof using Type.
  intros He Hc. unfold supervise, register_child, audit_token_for_pid. rewrite !sm_bind_eq. unfold sm_lift. by rewrite He, Hc.
Qed.

(** With an installed system, the variable that names a state directory does not change the
    directory, but it does away with the check of the installation. *)
Lemma state_variable_skips_health (dir : string) :
  rh_exists (SYSTEM_STATE_DIR rh_os) = true -> var_os ENV_STATE_DIR = Some dir ->
  resolve_state_dir = Some (SYSTEM_STATE_DIR rh_os) /\ require_installed = Ok tt.
Proof using Type.
  intros He Hv. unfold resolve_state_dir, require_installed. rewrite He, Hv. split; [done|]. by rewrite bool_decide_eq_true_2.
Qed.

(** ** Reaching the daemon *)

Lemma probe_spec (c c' : Client) (r : result unit CliError) :
  probe_daemon_alive c = (c', r) -> cl_tick c' = S (cl_tick c) /\ (is_ok r = true <-> ce_connect_error (cl_tick c) = None).
Proof using Type.
  unfold probe_daemon_alive, connect_refusal. destruct (ce_connect_error _); intros [= <- <-]; by repeat split.
Qed.

Lemma retry_spec (delays : list N) (st : RunState) :
  exists st' alive, retry delays st = (st', Ok alive) /\ cl_tick (rs_client st') <= cl_tick (rs_client st) + length delays
  /\ (alive = true <-> exists i, i < length delays /\ ce_connect_error (cl_tick (rs_client st) + i) = None).
Proof using Type.
  revert st. induction delays as [|d delays IH]; intros st; cbn [retry].
  { exists st, false. split; [done|]. split; [cbn; lia|]. split; [done|intros (i & Hi & _); cbn in Hi; lia]. }
  rewrite sm_bind_eq. unfold attempt. destruct (probe_daemon_alive (rs_client st)) as [c r] eqn:Ep.
  apply probe_spec in Ep as [Ht Hr]. cbn [length]. destruct (is_ok r) eqn:Hok.
  - eexists _, true. split; [done|]. cbn [rs_client]. split; [lia|]. split; [intros _|done]. exists 0. rewrite Nat.add_0_r.
    split; [lia|by apply Hr].
  - destruct (IH (mkRunState c (rs_tty st) (rs_children st))) as (st' & alive & He & Ht' & Ha). cbn [rs_client] in *.
    exists st', alive. split; [done|]. split; [lia|]. rewrite Ha, Ht. split.
    + intros (i & Hi & Hc). exists (S i). split; [lia|]. by rewrite <- Nat.add_succ_comm.
    + intros ([|i] & Hi & Hc); [rewrite Nat.add_0_r in Hc; by apply Hr in Hc|]. exists i. split; [lia|].
      by rewrite Nat.add_succ_comm.
Qed.

(** At most six probes; an installed daemon is reached exactly when one of the six connects. *)
Lemma installed_daemon_reached (st : RunState) :
  exists st' r, ensure_installed_daemon st = (st', r)
  /\ cl_tick (rs_client st') <= cl_tick (rs_client st) + 6
  /\ (is_ok r = true <-> is_ok require_installed = true /\ exists i, i < 6 /\ ce_connect_error (cl_tick (rs_client st) + i) = None).
Proof using Type.
  unfold ensure_installed_daemon. rewrite sm_bind_eq. unfold sm_lift. destruct require_installed as [[]|e]; cbn [map_err is_ok].
  2:{ eexists _, _. split; [done|]. split; [lia|]. split; [done|by intros [? _]]. }
  rewrite sm_bind_eq. unfold attempt. destruct (probe_daemon_alive (rs_client st)) as [c r] eqn:Ep. apply probe_spec in Ep as [Ht Hr].
  destruct (is_ok r) eqn:Hok.
  - eexists _, _. split; [done|]. cbn [rs_client]. split; [lia|]. split; [intros _|done]. split; [done|]. exists 0.
    rewrite Nat.add_0_r. split; [lia|by apply Hr].
  - rewrite sm_bind_eq. cbv beta iota delta [tell]. cbn [rs_client rs_tty rs_children]. unfold wait_for_daemon. rewrite sm_bind_eq.
    match goal with |- context [retry _ ?s] => set (st1 := s) end.
    destruct (retry_spec RETRY_DELAYS st1) as (st' & alive & -> & Ht' & Ha).
    subst st1. cbn [rs_client length RETRY_DELAYS] in *. exists st', (if alive then Ok tt else Err (Fails (CliOther
      ("stt-guard: daemon is installed but not responding. " +:+ "Check the service manager logs for details.")))).
    split; [by destruct alive|]. split; [lia|]. rewrite Ht in Ha.
    assert (alive = true <-> exists i, i < 6 /\ ce_connect_error (cl_tick (rs_client st) + i) = None) as Hiff.
    { rewrite Ha. split.
      - intros (i & Hi & Hc). exists (S i). split; [lia|]. by rewrite <- Nat.add_succ_comm.
      - intros ([|i] & Hi & Hc); [rewrite Nat.add_0_r in Hc; by apply Hr in Hc|]. exists i. split; [lia|]. by rewrite Nat.add_succ_comm. }
    rewrite <- Hiff. destruct alive; cbn; naive_solver.
Qed.

End Flaws.

(** ** A concrete run *)

#[local] Instance prepare_req_eq_dec : EqDecision PrepareSnapshotReq.
Proof. solve_decision. Defined.
#[local] Instance input_eq_dec : EqDecision SnapshotBuildInput.
Proof. solve_decision. Defined.
#[local] Instance inputs_reply_eq_dec : EqDecision SnapshotInputsReply.
Proof. solve_decision. Defined.
#[local] Instance snapshot_reply_eq_dec : EqDecision SnapshotReply.
Proof. solve_decision. Defined.
#[local] Instance publish_req_eq_dec : EqDecision PublishSignedSnapshot.
Proof. solve_decision. Defined.
#[local] Instance token_wire_eq_dec : EqDecision AuditTokenWire.
Proof. solve_decision. Defined.
#[local] Instance register_eq_dec : EqDecision RegisterRoot.
Proof. solve_decision. Defined.
#[local] Existing Instance crypto32.

(** The daemon of [CliClient], with digests of 32 bytes. *)
Definition wrap_fs : TrustFs := {|
  symlink_metadata := @symlink_metadata toy_fs;
  read_to_string p :=
    if bool_decide (p = trusted_rule_signers_path)
    then Ok (sha256_hex "K" +:+ String TAB (SIGNER_KIND_MACOS_KEYCHAIN +:+ String TAB (hex_lower "K" +:+ String LF "")))
    else Err "ENOENT";
|}.

Definition wrap_boot : Server :=
  put_store toy_boot
    (mkStore (mkDb ∅ ∅ {[ sha256_hex "K" := mkSignerRow SIGNER_KIND_MACOS_KEYCHAIN "K" 0 "installer" ]} ∅)
       (Some trusted_rule_signers_path)).

Definition wrap_daemon (k : SnapshotCodec) : ServerEnv := {|
  sv_os := toy_os true;
  sv_resolve := {| to_socket_addrs := @to_socket_addrs toy_resolver; fs_read := @fs_read toy_resolver; resolve_codec := k; AF_INET6 := 30 |};
  sv_pub := toy_pub; sv_lock := toy_lock; sv_sql := toy_sql; sv_fs := wrap_fs;
  sv_clone_error := None; sv_spawn_error := None; sv_build_version := "0.0.0"; sv_process_id := 77;
  sv_intel := Ok [];
|}.

Definition wrap_client (k : SnapshotCodec) : CliEnv := {|
  ce_sock := "/s/guard.sock"; ce_connect_error _ := None; ce_send_limit _ := None; ce_reply_limit _ := None;
  ce_daemon _ := wrap_daemon k; ce_daemon_clock t := Z.of_nat t; ce_others _ s := s;
  ce_identity := Ok (Verified root_tok); ce_codesign _ := CsValid;
  ce_authenticates _ _ := true; ce_unix_ms_now _ := 7%Z;
|}.

Definition wrap_req : PrepareSnapshotReq := PrepareSnapshot_new_v3 "/home/me/project" false false.
Definition wrap_inputs : Server * SnapshotInputsReply :=
  @work toy_server_codec crypto32 PrepareSnapshotInputs _ _ _ _ prepare_service (wrap_daemon toy_codec) wrap_boot 0 wrap_req.
Definition wrap_input : SnapshotBuildInput :=
  match wrap_inputs.2 with InputsOk i _ _ => i | InputsErr _ => sample_input end.
Definition wrap_codec : SnapshotCodec := toy_only_snapshot (build_snapshot wrap_input).
Definition wrap_sig : SnapshotSignatureV1 :=
  unwrap_or (@sign_snapshot_payload (toy_keychain "N" (fun _ => None)) crypto32
    (new_snapshot_payload (bi_run_uuid wrap_input) (sha256_hex "run") 0) toy_signer) toy_sig.
Definition wrap_publish : PublishSignedSnapshot :=
  PublishSignedSnapshot_new (bi_run_uuid wrap_input) "run" wrap_sig false false.
Definition wrap_published : Server * SnapshotReply :=
  @work toy_server_codec crypto32 Frame.PublishSignedSnapshot _ _ _ _ publish_service (wrap_daemon wrap_codec) wrap_inputs.1 1 wrap_publish.

Definition wrap_tok : AuditToken := mkToken 501 501 20 501 20 5000 100 8.
Definition wrap_vars : list (string * string) :=
  [("PATH", "/usr/bin:/opt/homebrew/bin"); ("STT_GUARD_STATE_DIR", "/s"); ("STT_GUARD_HOOK_DYLIB", "/dev/hook.dylib");
   ("STT_GUARD_ALLOW_TEST_SIGNER", "1"); ("npm_config_registry", "https://r.example")].
Definition wrap_register : RegisterRoot :=
  RegisterRoot_new_for_run_with_pm_env wrap_tok (bi_run_uuid wrap_input) [("npm_config_registry", "https://r.example")].

Definition wrap_server_codec : ServerCodec := {|
  sc_register := toy_only wrap_register; sc_ack := toy_only (AckOk SCHEMA_V1);
  sc_fork := toy_cbor None; sc_exec := toy_cbor None; sc_loaded := toy_cbor None;
  sc_env_gap := toy_cbor None; sc_blocked := toy_cbor None;
  sc_persist := toy_cbor None; sc_deny := toy_cbor None;
  sc_channel := toy_cbor None;
  sc_resolve := toy_cbor None; sc_resolve_reply := toy_cbor None;
  sc_prepare := toy_only wrap_req; sc_publish := toy_only wrap_publish;
  sc_snapshot_reply := toy_only wrap_published.2; sc_inputs_reply := toy_only wrap_inputs.2;
  sc_empty := toy_cbor None; sc_run := toy_cbor None; sc_list := toy_cbor None;
  sc_kinds := toy_cbor None;
  sc_insert := toy_cbor None; sc_disable := toy_cbor None;
  sc_enable := toy_cbor None;
  sc_status_reply := toy_cbor None; sc_insert_reply := toy_cbor None;
  sc_artifacts_reply := toy_cbor None; sc_baseline_reply := toy_cbor None;
  sc_rules_reply := toy_cbor None; sc_delete_reply := toy_cbor None;
  sc_ping_reply := toy_cbor None; sc_disable_reply := toy_cbor None;
  sc_enable_reply := toy_cbor None;
|}.

Definition wrap_host : RunHost := {|
  rh_os := MacOs; rh_vars := wrap_vars; rh_current_dir := Ok "/home/me/project"; rh_current_exe := Err "";
  rh_exists p := bool_decide (p = "/dev/hook.dylib");
  rh_is_file p := bool_decide (p ∈ ["/opt/homebrew/bin/npm"; "/usr/bin/curl"]);
  rh_canonicalize p := Ok p; rh_read_dir _ := Ok []; rh_create_dir_all _ := None; rh_stdin_tty := false;
  rh_spawn _ := Ok 5000%N; rh_posix_spawnp _ _ _ := Ok 0%Z; rh_audit_token _ := Ok wrap_tok;
  rh_signal_error := None; rh_sigint_thread_error := None; rh_reader_clone_error := None; rh_render_thread_error := None;
  rh_wait _ := Ok (Some 3%Z); rh_threads tt := Some tt;
|}.

Definition no_view : HealthView := {|
  hv_stat _ := Err "ENOENT"; hv_read _ := Err "ENOENT"; hv_run _ _ := Err "ENOENT";
|}.

Definition wrap_start : RunState := mkRunState (mkClient 0 wrap_boot) (mkTty 0 "") [].

Definition wrap_npm : RunState * result Z RunStop :=
  @wrap wrap_host (toy_terminal []) (wrap_client wrap_codec) wrap_server_codec crypto32 (toy_keychain "N" (fun _ => None)) wrap_codec no_view
    9 toy_signer false ["npm"; "install"] wrap_start.

Example wrap_npm_exits : wrap_npm.2 = Ok 3%Z.
Proof. vm_compute. reflexivity. Qed.
Example wrap_curl_refused :
  is_ok (@wrap wrap_host (toy_terminal []) (wrap_client wrap_codec) wrap_server_codec crypto32 (toy_keychain "N" (fun _ => None)) wrap_codec no_view
    9 toy_signer false ["curl"] wrap_start).2 = false.
Proof. vm_compute. reflexivity. Qed.

(** The hypotheses of the theorems on this run. *)
Lemma wrap_undisturbed : @undisturbed (wrap_client wrap_codec).
Proof. split; [by intros|]. intros t. unfold PENDING_SNAPSHOT_INPUT_TTL. cbn. lia. Qed.


Definition wrap_run : RunState * result Z RunStop :=
  @run wrap_host (toy_terminal []) (wrap_client wrap_codec) wrap_server_codec crypto32 (toy_keychain "N" (fun _ => None)) wrap_codec
    9 toy_signer "/s" ["npm"; "install"] false wrap_start.

Definition wrap_prepared : Client * result PrepareSnapshotOutcome CliError :=
  @prepare_snapshot_v3 (wrap_client wrap_codec) wrap_server_codec crypto32 (toy_keychain "N" (fun _ => None)) wrap_codec
    toy_signer "/home/me/project" false false (mkClient 0 wrap_boot).

Definition wrap_child : Child :=
  mkChild 5000 (@wrapped_command wrap_host "npm" ["install"] "/dev/hook.dylib"
                  "/s/runs/00010203-0405-4607-8809-0a0b0c0d0e0f.manifest" "/s") true.

(** The program on the system of the daemon. *)
Definition npm_fs : HookFs := {|
  getenv k := @child_env wrap_host (ch_command wrap_child) !! k;
  canonicalize q := Ok q;
  open_nofollow _ := Ok tt;
  file_is_regular _ := Ok true;
  read_to_end q := match sv_files (cl_server wrap_prepared.1) !! q with Some b => Ok b | None => Err "ENOENT" end;
  mmap _ := Ok tt;
|}.

Lemma npm_manifest_text :
  match sv_files (cl_server wrap_prepared.1) !! run_manifest_path "/s" (bi_run_uuid wrap_input) with
  | Some b => utf8_valid b | None => false end = true.
Proof. vm_compute. reflexivity. Qed.

Lemma wrap_trusts_user (sg : RuleSignatureV1) :
  @signed_by_user (toy_keychain "N" (fun _ => None)) crypto32 toy_signer sg ->
  @trusted_signer_manifest_contains wrap_fs sg = Ok true.
Proof.
  intros (key & Hkey & Hx & Hk & Hs). vm_compute in Hkey. injection Hkey as <-.
  assert (sig_public_key_x963 sg = "K") as Hx' by (cbn in Hx; by injection Hx). rewrite Hx' in Hs.
  unfold trusted_signer_manifest_contains. rewrite Hk, Hs, Hx'. vm_compute. reflexivity.
Qed.

Lemma wrap_inputs_known (s1 : Server) (input : SnapshotBuildInput) (now : Z) :
  s1 = (@prepare_request (wrap_client wrap_codec) wrap_server_codec crypto32 "/home/me/project" false false 0 wrap_boot).1 ->
  bi_run_uuid input = bi_run_uuid wrap_input ->
  sv_prepared s1 !! bi_run_uuid input = Some (mkPending input false false now) -> input = wrap_input.
Proof.
  intros -> -> H. assert (Hp : pi_input <$> sv_prepared (@prepare_request (wrap_client wrap_codec) wrap_server_codec crypto32
     "/home/me/project" false false 0 wrap_boot).1 !! bi_run_uuid wrap_input = Some wrap_input) by (vm_compute; reflexivity).
  rewrite H in Hp. by injection Hp.
Qed.

Lemma wrapped_program_loads_its_run_witness :
  @load_from_env npm_fs wrap_fs crypto32 wrap_codec
  = Ok (mkLoaded (entries (build_snapshot wrap_input)) Snapshot.SCHEMA_V2 "/s/runs/00010203-0405-4607-8809-0a0b0c0d0e0f.cbor").
Proof.
  assert (E : wrap_run = (wrap_run.1, Ok 3%Z)) by (apply pair_snd; vm_compute; reflexivity).
  assert (Hch : wrap_child ∈ rs_children wrap_run.1).
  { assert (Hc : rs_children wrap_run.1 = [wrap_child]) by (vm_compute; reflexivity). rewrite Hc. apply list_elem_of_here. }
  destruct (@wrapped_program_loads_its_run wrap_host (toy_terminal []) (wrap_client wrap_codec) wrap_server_codec crypto32
    (toy_keychain "N" (fun _ => None)) wrap_codec (toy_keychain_signs _ _) (toy_only_snapshot_round_trips _) (fun _ => eq_refl)
    (toy_only_round_trips _) (toy_only_round_trips _) (toy_only_round_trips _) (toy_only_round_trips _) wrap_undisturbed
    9 toy_signer "/s" ["npm"; "install"] false wrap_start wrap_run.1 (Ok 3%Z) wrap_child eq_refl E Hch
    (fun _ _ H => H) eq_refl ltac:(discriminate))
    as (c1 & out & input & (cwd & Hcwd & Hprep & (Hu & _ & _ & Hpend) & _) & Hload).
  injection Hcwd as <-.
  assert (c1 = wrap_prepared.1) as -> by (exact (eq_sym (f_equal fst Hprep))).
  assert (Hv : @new_run_uuid toy_pub = Ok (bi_run_uuid wrap_input)) by (vm_compute; reflexivity).
  pose proof (f_equal (fun r => unwrap_or r "") (eq_trans (eq_sym Hu) Hv)) as Huw.
  pose proof (wrap_inputs_known _ input _ eq_refl Huw Hpend) as ->.
  apply (Hload npm_fs wrap_fs).
  - intros k. reflexivity.
  - split; vm_compute; reflexivity.
  - exact pad32_length.
  - vm_compute. split; discriminate.
  - reflexivity.
  - intros q b Hq. split; [reflexivity|]. split; [reflexivity|]. split; [|reflexivity].
    change (match sv_files (cl_server wrap_prepared.1) !! q with Some b => Ok b | None => Err "ENOENT" end = Ok b). by rewrite Hq.
  - intros b Hb. pose proof npm_manifest_text as Ht. rewrite Hb in Ht. exact Ht.
  - intros q Hq. revert q Hq. apply Forall_forall. by_decide.
  - exact wrap_trusts_user.
Defined.

(** Three hosts, of which the user allows the first, gives a line that is refused, denies the
    second and leaves at the third. *)
Definition learn_hosts : list ProposedRule :=
  [mkProposed "exact" "a.example" "r"; mkProposed "exact" "b.example" "r"; mkProposed "exact" "c.example" "r"].
Definition learn_terminal : Terminal := toy_terminal ["A"; "x"; "deny it"; "q"].
Definition learn_sig : RuleSignatureV1 :=
  unwrap_or (@sign_rule_payload (toy_keychain "N" (fun _ => None)) crypto32
    (new_rule_payload "allow" "exact" "a.example" (learn_reason "approved" "u") 7 "learn" (Some "u")) toy_signer) toy_sig.
Definition learn_req : Versioned InsertUserRule :=
  mkVersioned SCHEMA_V5 (mkInsertUserRule "allow" "exact" "a.example" (learn_reason "approved" "u") 7 "learn" (Some "u") (Some learn_sig)).
Definition learn_stored : Server * InsertUserRuleReply :=
  @work toy_server_codec crypto32 Frame.InsertUserRule _ _ _ _ insert_service (wrap_daemon wrap_codec) wrap_boot 0 learn_req.

#[local] Instance insert_eq_dec : EqDecision InsertUserRule.
Proof. solve_decision. Defined.
#[local] Instance insert_req_eq_dec : EqDecision (Versioned InsertUserRule).
Proof. solve_decision. Defined.
#[local] Instance insert_reply_eq_dec : EqDecision InsertUserRuleReply.
Proof. intros [] []; unfold base.Decision; repeat decide equality. Defined.

(** The codec of the rule messages; the request to deny cannot be encoded. *)
Definition learn_codec : ServerCodec := {|
  sc_register := toy_cbor None; sc_ack := toy_cbor None;
  sc_fork := toy_cbor None; sc_exec := toy_cbor None; sc_loaded := toy_cbor None;
  sc_env_gap := toy_cbor None; sc_blocked := toy_cbor None;
  sc_persist := toy_cbor None; sc_deny := toy_cbor None;
  sc_channel := toy_cbor None;
  sc_resolve := toy_cbor None; sc_resolve_reply := toy_cbor None;
  sc_prepare := toy_cbor None; sc_publish := toy_cbor None;
  sc_snapshot_reply := toy_cbor None; sc_inputs_reply := toy_cbor None;
  sc_empty := toy_cbor None; sc_run := toy_cbor None; sc_list := toy_cbor None;
  sc_kinds := toy_cbor None;
  sc_insert := toy_only learn_req; sc_disable := toy_cbor None;
  sc_enable := toy_cbor None;
  sc_status_reply := toy_cbor None; sc_insert_reply := toy_only learn_stored.2;
  sc_artifacts_reply := toy_cbor None; sc_baseline_reply := toy_cbor None;
  sc_rules_reply := toy_cbor None; sc_delete_reply := toy_cbor None;
  sc_ping_reply := toy_cbor None; sc_disable_reply := toy_cbor None;
  sc_enable_reply := toy_cbor None;
|}.

Definition learn_done : option (Client * Tty * Tally) :=
  @review learn_terminal (wrap_client wrap_codec) learn_codec crypto32 (toy_keychain "N" (fun _ => None)) 9 toy_signer "u" learn_hosts
    (mkTally 0 0 0) (mkClient 0 wrap_boot) (mkTty 0 "").
Definition learn_end : Client * Tty * Tally := default (mkClient 0 wrap_boot, mkTty 0 "", mkTally 9 9 9) learn_done.

Lemma counted (f : Decided -> bool) (ds : list Decided) : count f ds = 1%N -> exists d, d ∈ ds /\ f d = true.
Proof.
  unfold count. intros H. destruct (filter (fun d => f d = true) ds) as [|d l] eqn:E; [done|]. exists d.
  assert (d ∈ filter (fun d => f d = true) ds) as Hd by (rewrite E; apply list_elem_of_here).
  apply list_elem_of_filter in Hd as [? ?]. done.
Qed.

Lemma learn_review_faithful_witness :
  learn_end.2 = mkTally 1 0 0
  /\ exists d id sg, dc_request d = Some (Ok id)
     /\ @signed_by_user (toy_keychain "N" (fun _ => None)) crypto32 toy_signer sg
     /\ rule_signatures (db (sv_store (cl_server (dc_after d)))) !! id
        = Some (mkSigRow sg "learn" (Some "u") 7).
Proof.
  assert (Ht : learn_end.2 = mkTally 1 0 0) by (vm_compute; reflexivity). split; [exact Ht|].
  assert (E : learn_done = Some (learn_end.1.1, learn_end.1.2, learn_end.2)).
  { unfold learn_end in Ht |- *. destruct learn_done as [[[? ?] ?]|]; [reflexivity|]. vm_compute in Ht. discriminate. }
  destruct (@learn_review_faithful learn_terminal (wrap_client wrap_codec) learn_codec crypto32 (toy_keychain "N" (fun _ => None))
    (toy_keychain_signs _ _) (toy_only_round_trips _) (toy_only_round_trips _) 9 toy_signer "u" learn_hosts
    (mkClient 0 wrap_boot) (mkTty 0 "")) as [H _].
  destruct (H _ _ _ E) as (ds & _ & Hc & Hd). rewrite Ht in Hc. injection Hc as Hc _ _.
  destruct (counted _ _ (eq_sym Hc)) as (d & Hin & Hins). unfold inserted in Hins.
  apply andb_true_iff in Hins as [_ Hok]. destruct (dc_request d) as [[id|e]|] eqn:Er; [|discriminate|discriminate].
  destruct (Hd d id Hin Er) as (kind & sg & _ & Hu & _ & Hs). exists d, id, sg. exact (conj Er (conj Hu Hs)).
Defined.
