(* ===== verification/CliLogs.v ===== *)
(** * What the command line reads of the log and of the daemon

    [crates/guard-cli/src/denial_log.rs], [persistence_log.rs], [logs.rs], [status/] and
    the status branch of [main.rs].  The log is read line by line; a reading that fails
    without end never ends, which is [None].  What is printed is text; the quoting of
    [Debug] is [debug_str].  The rows are those of [LogWriter]. *)

From S2P Require Import Prelude RustStr RustUtf8 Policy TrustedSigners Signature Snapshot Paths RuleStore ProcessTree Frame Handlers Prompt.
From S2P Require Import Lockfile EnvFilter LogWriter Messages Admin Resolve Server Watchdog HardwareSigning Publish HookLoad CliClient CliPrompt InstallHealth CliRun.

(** ** serde_json::Value *)

Definition U64_MAX : Z := (2 ^ 64 - 1)%Z.

(** [Value::as_u64], on the text of a number. *)
Definition as_u64 (v : Value) : option N :=
  match v with
  | JNumber n =>
      if is_empty n then None
      else z ← digits_go n 0; if bool_decide (z <= U64_MAX)%Z then Some (Z.to_N z) else None
  | _ => None
  end.

(** [v.get(k).and_then(as_str)]. *)
Definition str_field (k : string) (v : Value) : option string := vget k v ≫= as_str.

(** ** The log file *)

(** The content that can be read, and whether reading fails from there on. *)
Inductive LogFile : Type :=
| LogMissing
| LogRefused (e : string)
| LogReads (content : string) (fails : bool).

(** [BufRead::lines]. *)
Definition read_lines (content : string) : list (result string string) :=
  (fun l => if utf8_valid l then Ok l else Err "stream did not contain valid UTF-8") <$> lines content.

Section Logs.
Context `{LE : LockEnv}.

(** The head of both loops: lines that are unreadable, blank or no JSON are skipped. *)
Definition line_value (line : result string string) : option Value :=
  match line with
  | Err _ => None
  | Ok line => if is_empty (trim line) then None else json_from_str line
  end.

(** ** denial_log.rs *)

Definition MAX_UNIQUE_BLOCK_HOSTS : nat := 10000.
Definition MAX_HOST_LENGTH : nat := 256.

Record BlockEntry : Type := mkBlock {
  be_host : string;
  be_port : N;
  be_source_kind : string;
}.

Definition be_key (b : BlockEntry) : string * N := (be_host b, be_port b).

(** A line as a block of the run. *)
Definition block_entry (run_uuid : string) (v : Value) : option BlockEntry :=
  if negb (bool_decide (str_field "event" v = Some "block")) then None
  else if negb (bool_decide (str_field "run_uuid" v = Some run_uuid)) then None
  else
    let host := default "" (str_field "dest_host" v) in
    port ← match vget "dest_port" v ≫= as_u64 with
           | Some port => if bool_decide (port <= 65535)%N then Some port else None
           | None => Some 0%N
           end;
    let source_kind := default "" (str_field "source_kind" v) in
    if is_empty host then None
    else if bool_decide (MAX_HOST_LENGTH < String.length host) then None
    else Some (mkBlock host port source_kind).

Definition too_many (run_uuid : string) : CliError :=
  CliOther ("log contains > " +:+ pretty (N.of_nat MAX_UNIQUE_BLOCK_HOSTS) +:+ " unique blocked hosts for run " +:+ run_uuid
            +:+ "; refusing to load — re-run after rotating the log").

Fixpoint filter_blocks (run_uuid : string) (ls : list (result string string)) (seen : list (string * N)) (out : list BlockEntry)
    (fails : bool) : option (result (list BlockEntry) CliError) :=
  match ls with
  | [] => if fails then None else Some (Ok out)
  | line :: rest =>
      match line_value line ≫= block_entry run_uuid with
      | None => filter_blocks run_uuid rest seen out fails
      | Some b =>
          if bool_decide (be_key b ∈ seen) then filter_blocks run_uuid rest seen out fails
          else
            let out := out ++ [b] in
            if bool_decide (MAX_UNIQUE_BLOCK_HOSTS <= length out) then Some (Err (too_many run_uuid))
            else filter_blocks run_uuid rest (be_key b :: seen) out fails
      end
  end.

Definition filter_block_destinations (log_path : string) (log : LogFile) (run_uuid : string)
  : option (result (list BlockEntry) CliError) :=
  match log with
  | LogMissing => Some (Err (CliOther ("log file missing: " +:+ from_utf8_lossy log_path)))
  | LogRefused e => Some (Err (CliOther ("open log: " +:+ e)))
  | LogReads content fails => filter_blocks run_uuid (read_lines content) [] [] fails
  end.

Definition block_run (v : Value) : option string :=
  if negb (bool_decide (str_field "event" v = Some "block")) then None else str_field "run_uuid" v.

Fixpoint last_block_run (ls : list (result string string)) (latest : option string) (fails : bool)
  : option (result (option string) CliError) :=
  match ls with
  | [] => if fails then None else Some (Ok latest)
  | line :: rest =>
      match line_value line ≫= block_run with
      | Some uuid => last_block_run rest (Some uuid) fails
      | None => last_block_run rest latest fails
      end
  end.

Definition most_recent_run_with_denials (log : LogFile) : option (result (option string) CliError) :=
  match log with
  | LogMissing => Some (Ok None)
  | LogRefused e => Some (Err (CliOther ("open log: " +:+ e)))
  | LogReads content fails => last_block_run (read_lines content) None fails
  end.

(** ** persistence_log.rs *)

Definition MAX_ENTRIES : nat := 10000.

Record PersistenceEntry : Type := mkPersistenceEntry {
  pe_ts : string;
  pe_run_uuid : string;
  pe_binary_path : string;
  pe_pid : option N;
}.

Definition persistence_entry (run_uuid : option string) (v : Value) : option PersistenceEntry :=
  if negb (bool_decide (str_field "event" v = Some "gap")) then None
  else if negb (bool_decide (str_field "gap_kind" v = Some "persistence-write")) then None
  else if match run_uuid with
          | Some uuid_filter => negb (bool_decide (str_field "run_uuid" v = Some uuid_filter))
          | None => false
          end then None
  else
    let binary_path := default "" (str_field "binary_path" v) in
    if is_empty binary_path then None
    else Some (mkPersistenceEntry (default "" (str_field "ts" v)) (default "" (str_field "run_uuid" v)) binary_path
                 (p ← vget "process" v; n ← vget "pid" p; as_u64 n)).

Fixpoint filter_persistence (run_uuid : option string) (ls : list (result string string)) (out : list PersistenceEntry) (fails : bool)
  : option (result (list PersistenceEntry) CliError) :=
  match ls with
  | [] => if fails then None else Some (Ok out)
  | line :: rest =>
      match line_value line ≫= persistence_entry run_uuid with
      | None => filter_persistence run_uuid rest out fails
      | Some e =>
          let out := out ++ [e] in
          if bool_decide (MAX_ENTRIES <= length out) then Some (Ok out) else filter_persistence run_uuid rest out fails
      end
  end.

Definition filter_persistence_writes (log : LogFile) (run_uuid : option string) : option (result (list PersistenceEntry) CliError) :=
  match log with
  | LogMissing => Some (Ok [])
  | LogRefused e => Some (Err (CliOther ("open log: " +:+ e)))
  | LogReads content fails => filter_persistence run_uuid (read_lines content) [] fails
  end.

(** ** status/denials.rs, status/persistence.rs and logs.rs: what is printed *)

Abbreviation Printed := (string * result Z CliError)%type.

Definition denials (log_path : string) (log : LogFile) (run_uuid : string) : option Printed :=
  r ← filter_block_destinations log_path log run_uuid;
  Some match r with
       | Err e => ("", Err e)
       | Ok [] => (writeln ("No block entries found for run_uuid=" +:+ run_uuid +:+ "."), Ok 0%Z)
       | Ok blocks =>
           (concat_str ((fun b => writeln ("  " +:+ be_host b +:+ " (port " +:+ pretty (be_port b) +:+ ")  source_kind=" +:+ be_source_kind b))
                          <$> blocks), Ok 0%Z)
       end.

Definition persistence_line (e : PersistenceEntry) : string :=
  writeln ("  " +:+ pe_ts e +:+ " " +:+ pe_binary_path e +:+ " run=" +:+ pe_run_uuid e
           +:+ from_option (fun p => " pid=" +:+ pretty p) "" (pe_pid e)).

Definition persistence (log : LogFile) (run_uuid : option string) : option Printed :=
  r ← filter_persistence_writes log run_uuid;
  Some match r with
       | Err e => ("", Err e)
       | Ok [] => (writeln match run_uuid with
                           | Some uuid => "No persistence-write events for run_uuid=" +:+ uuid +:+ "."
                           | None => "No persistence-write events recorded."
                           end, Ok 0%Z)
       | Ok entries => (writeln ("Persistence writes detected (" +:+ pretty (N.of_nat (length entries)) +:+ " total):")
                        +:+ concat_str (persistence_line <$> entries), Ok 0%Z)
       end.

(** A copy that fails stops silently. *)
Definition run_dump (active : LogFile) : Printed :=
  match active with
  | LogMissing => ("", Ok 0%Z)
  | LogRefused e => ("", Err (CliOther ("open log: " +:+ e)))
  | LogReads content _ => (content, Ok 0%Z)
  end.

End Logs.

(** ** launchagent.rs: where the log is *)

(** [None] is the panic when there is no home directory. *)
Definition logs_dir `{RunHost} : option string :=
  state_dir ← default_state_dir rh_os inherited rh_exists;
  log_dir_for_state rh_os inherited state_dir.

(** ** status/review.rs *)

Definition show_reviewed (t : Tally) : string :=
  "Reviewed " +:+ pretty (ta_allowed t) +:+ " allow, " +:+ pretty (ta_denied t) +:+ " deny, " +:+ pretty (ta_skipped t) +:+ " skipped".

Section Review.
Context `{TY : Terminal, CE : CliEnv, SC : ServerCodec, CR : Crypto, SF : SecurityFramework}.

(** One host, asked until a line answers; [None] when [fuel] lines do not. *)
Fixpoint ask_host (fuel : nat) (b : BlockEntry) (tt : Tty) : option (Tty * result Answer CliError) :=
  match fuel with
  | O => None
  | S fuel =>
      let shown := tt_out tt +:+ "  " +:+ be_host b +:+ " (port " +:+ pretty (be_port b) +:+ ") — [a]llow / [d]eny / [s]kip / [q]uit > " in
      let next := S (tt_next tt) in
      match read_line (tt_next tt) with
      | Err e => Some (mkTty next shown, Err (CliOther ("stdin: " +:+ e)))
      | Ok line =>
          if is_empty line then Some (mkTty next shown, Ok AnsClosed)
          else match parse_answer line with
               | Some a => Some (mkTty next shown, Ok a)
               | None => ask_host fuel b (mkTty next (shown +:+ writeln "  invalid; enter a, d, s, or q"))
               end
      end
  end.

Definition review_reason (verdict uuid : string) : string := "user-" +:+ verdict +:+ " from review of run " +:+ uuid.

Definition reviewed_rule (p : Proc) (kind : string) (b : BlockEntry) (uuid : string) : SM Client CliError Z :=
  insert_user_rule_request_with_origin p kind "exact" (be_host b)
    (review_reason (if bool_decide (kind = "allow") then "approved" else "denied") uuid) "review" (Some uuid).

(** The loop over the hosts; a failed insertion ends it with its error. *)
Fixpoint review_hosts (fuel : nat) (p : Proc) (uuid : string) (blocks : list BlockEntry) (t : Tally) (c : Client) (tt : Tty)
  : option (Client * Tty * result Z CliError) :=
  let ends tt text := Some (c, mkTty (tt_next tt) (tt_out tt +:+ writeln (show_reviewed t +:+ text)), Ok 0%Z) in
  match blocks with
  | [] => ends tt "."
  | b :: rest =>
      match ask_host fuel b tt with
      | None => None
      | Some (tt1, Err e) => Some (c, tt1, Err e)
      | Some (tt1, Ok AnsClosed) => ends tt1 " (stdin closed)."
      | Some (tt1, Ok AnsQuit) => ends tt1 " (quit early)."
      | Some (tt1, Ok AnsSkip) => review_hosts fuel p uuid rest (mkTally (ta_allowed t) (ta_denied t) (ta_skipped t + 1)) c tt1
      | Some (tt1, Ok AnsAllow) =>
          match reviewed_rule p "allow" b uuid c with
          | (c1, Err e) => Some (c1, tt1, Err e)
          | (c1, Ok _) => review_hosts fuel p uuid rest (mkTally (ta_allowed t + 1) (ta_denied t) (ta_skipped t)) c1 tt1
          end
      | Some (tt1, Ok AnsDeny) =>
          match reviewed_rule p "deny" b uuid c with
          | (c1, Err e) => Some (c1, tt1, Err e)
          | (c1, Ok _) => review_hosts fuel p uuid rest (mkTally (ta_allowed t) (ta_denied t + 1) (ta_skipped t)) c1 tt1
          end
      end
  end.

Definition say (tt : Tty) (text : string) : Tty := mkTty (tt_next tt) (tt_out tt +:+ writeln text).

Definition review_run `{LockEnv, RunHost} (fuel : nat) (p : Proc) (log_path : string) (log : LogFile) (run_uuid : option string)
    (c : Client) (tt : Tty) : option (Client * Tty * result Z CliError) :=
  if negb rh_stdin_tty then Some (c, tt, Ok EX_USAGE)
  else
    found ← match run_uuid with Some u => Some (Ok (Some u)) | None => most_recent_run_with_denials log end;
    match found with
    | Err e => Some (c, tt, Err e)
    | Ok None => Some (c, say tt ("No runs with denials found in " +:+ from_utf8_lossy log_path +:+ "."), Ok 0%Z)
    | Ok (Some uuid) =>
        r ← filter_block_destinations log_path log uuid;
        match r with
        | Err e => Some (c, tt, Err e)
        | Ok [] => Some (c, say tt ("No block entries for run " +:+ uuid +:+ "."), Ok 0%Z)
        | Ok blocks =>
            review_hosts fuel p uuid blocks (mkTally 0 0 0) c
              (say tt ("Reviewing " +:+ pretty (N.of_nat (length blocks)) +:+ " unique blocked host(s) in run " +:+ uuid +:+ ":"))
        end
    end.

(** ** status/rules.rs *)

(** [{:<n}] counts characters: the bytes that start one. *)
Fixpoint char_count (s : string) : nat :=
  match s with
  | String a s' => if is_cont a then char_count s' else S (char_count s')
  | EmptyString => 0
  end.

Fixpoint spaces (n : nat) : string := match n with O => "" | S n => String " " (spaces n) end.
Definition pad (n : nat) (s : string) : string := s +:+ spaces (n - char_count s).

Fixpoint repeat_str (s : string) (n : nat) : string := match n with O => "" | S n => s +:+ repeat_str s n end.

Definition rule_line (r : WireRuleRow) : string :=
  writeln (pad 14 (wr_source r) +:+ " " +:+ pad 6 (wr_kind r) +:+ " " +:+ pad 8 (wr_match_type r) +:+ " " +:+ pad 48 (wr_pattern r)
           +:+ " " +:+ wr_reason r).

Definition render_table (rules : list WireRuleRow) : string :=
  match rules with
  | [] => writeln "(no rules)"
  | _ => writeln (pad 14 "source" +:+ " " +:+ pad 6 "kind" +:+ " " +:+ pad 8 "match" +:+ " " +:+ pad 48 "pattern" +:+ " reason")
         +:+ writeln (repeat_str "-" 100) +:+ concat_str (rule_line <$> rules)
  end.

Definition rules_run (p : Proc) (include_built_in : bool) (disable enable reason : option string) : SM Client CliError (string * Z) :=
  match disable with
  | Some pattern =>
      match reason with
      | Some r =>
          if is_empty (trim r) then mret (writeln "stt-guard: --disable requires --reason", EX_USAGE)
          else disable_curated_rule_request p pattern r ;; mret (writeln ("Disabled built-in rule: " +:+ pattern), 0%Z)
      | None => mret (writeln "stt-guard: --disable requires --reason", EX_USAGE)
      end
  | None =>
      match enable with
      | Some pattern =>
          was_disabled ← enable_curated_rule_request p pattern;
          mret (writeln ((if (was_disabled : bool) then "Re-enabled built-in rule: " else "Rule was not disabled: ") +:+ pattern), 0%Z)
      | None =>
          rules ← list_rules_request include_built_in;
          mret (render_table rules, 0%Z)
      end
  end.

(** ** status/advisory.rs *)

Definition debug_tier (t : RuleTier) : string :=
  match t with
  | UserDeny => "UserDeny" | UserAllow => "UserAllow" | ConfirmedDeny => "ConfirmedDeny" | SuspectDeny => "SuspectDeny"
  | BuiltinDeny => "BuiltinDeny" | CuratedAllow => "CuratedAllow"
  end.
Definition debug_match_type (m : MatchType) : string :=
  match m with Exact => "Exact" | Suffix => "Suffix" | Ip => "Ip" end.

Definition advisory_run (curated : result (list AllowlistEntry) string) (advisory_id : string) : string * result Z CliError :=
  match curated with
  | Err e => ("", Err (CliOther ("failed to load curated rules: " +:+ e)))
  | Ok entries =>
      let hits := filter (fun e => contains (e_reason e) advisory_id = true) entries in
      match hits with
      | [] => (writeln ("No entries found for advisory " +:+ advisory_id), Ok 1%Z)
      | _ =>
          (writeln ("Advisory: " +:+ advisory_id) +:+ writeln ("Matching rules (" +:+ pretty (N.of_nat (length hits)) +:+ "):") +:+ writeln ""
           +:+ concat_str ((fun e => writeln ("  tier:    " +:+ debug_tier (e_tier e))
                                     +:+ writeln ("  match:   " +:+ debug_match_type (e_match_type e) +:+ " " +:+ e_pattern e)
                                     +:+ writeln ("  reason:  " +:+ e_reason e) +:+ writeln "") <$> hits), Ok 0%Z)
      end
  end.

End Review.

(** ** status/mod.rs: the overview *)

Section Overview.
Context `{CE : CliEnv, SC : ServerCodec, CR : Crypto}.

Definition debug_list (l : list string) : string :=
  "[" +:+ match l with [] => "" | a :: rest => debug_str a +:+ concat_str ((fun s => ", " +:+ debug_str s) <$> rest) end +:+ "]".

(** A fingerprint in short; [None] is the panic of a slice inside a character. *)
Definition short_fingerprint (fingerprint : string) : option string :=
  let n := String.length fingerprint in
  if bool_decide (16 < n) then
    if is_char_boundary fingerprint 8 && is_char_boundary fingerprint (n - 8)
    then Some (str_take 8 fingerprint +:+ "…" +:+ str_drop (n - 8) fingerprint) else None
  else Some fingerprint.

Definition option_line (label : string) (o : option string) : string := from_option (fun s => writeln (label +:+ s)) "" o.

Definition render_signing_info (signing_info : option SigningInfo) : option string :=
  match signing_info with
  | None => Some (writeln (String LF "Signing:") +:+ writeln "  OS-backed: unknown" +:+ writeln "  status: unavailable from daemon")
  | Some info =>
      fingerprint ← match si_fingerprint info with
                    | Some f => (fun s => writeln ("  fingerprint: " +:+ s)) <$> short_fingerprint f
                    | None => Some ""
                    end;
      Some (writeln (String LF "Signing:")
            +:+ writeln ("  OS-backed: " +:+ if si_configured info then "configured" else "not configured")
            +:+ writeln ("  status: " +:+ si_status info)
            +:+ option_line "  signer kind: " (si_signer_kind info)
            +:+ fingerprint
            +:+ from_option (fun path => writeln ("  trust root: " +:+ (if si_trust_root_ok info then "ok" else "invalid") +:+ " (" +:+ path +:+ ")"))
                  "" (si_trust_root_path info)
            +:+ writeln "  production fallback: disabled"
            +:+ option_line "  reason: " (si_reason info) +:+ option_line "  action: " (si_action info))
  end.

Definition render_verbose (status : StatusOk) : option string :=
  let counters := so_counters status in
  signing ← render_signing_info (so_signing_info status);
  Some (writeln ("State: " +:+ match so_daemon_state status with Operational => "operational" | Degraded => "degraded" end)
        +:+ match so_install_info status with
            | Some info =>
                writeln ("Version: " +:+ ii_version info +:+ " (installed_at_ms " +:+ pretty (ii_installed_at_ms info) +:+ ")")
                +:+ writeln "Artifacts:"
                +:+ concat_str ((fun a => writeln ("  " +:+ pad 14 (ia_artifact_kind a) +:+ " " +:+ ia_target_path a)) <$> ii_artifacts info)
            | None => writeln "Install info: (none)"
            end
        +:+ signing
        +:+ writeln (String LF "Counters:")
        +:+ writeln ("  rules_user:   " +:+ pretty (sc_rules_user counters))
        +:+ writeln ("  blocks_today: " +:+ pretty (sc_blocks_today counters))
        +:+ writeln ("  allows_today: " +:+ pretty (sc_allows_today counters))
        +:+ writeln ("  gaps_today:   " +:+ pretty (sc_gaps_today counters))
        +:+ writeln (String LF ("Tracked roots (" +:+ pretty (N.of_nat (length (so_tracked_roots status))) +:+ "):"))
        +:+ concat_str ((fun r => writeln ("  run_uuid=" +:+ ti_run_uuid r +:+ " argv=" +:+ debug_list (ti_argv r))) <$> so_tracked_roots status)
        +:+ writeln (String LF ("Recent gaps (" +:+ pretty (N.of_nat (length (so_recent_gaps status))) +:+ "):"))
        +:+ concat_str ((fun g => writeln ("  " +:+ gi_gap_kind g +:+ " " +:+ gi_run_uuid g +:+ " " +:+ default "-" (gi_binary_path g)))
                          <$> so_recent_gaps status)).

(** The two loops over the allow rules of the user and the curated rules. *)
Definition exposed_by (curated : list AllowlistEntry) (pattern : string) : list (string * string * string) :=
  omap (fun ce =>
    match e_tier ce with
    | ConfirmedDeny => if bool_decide (e_pattern ce = pattern) then Some (pattern, "CONFIRMED", e_reason ce) else None
    | SuspectDeny => if bool_decide (e_pattern ce = pattern) then Some (pattern, "suspect", e_reason ce) else None
    | _ => None
    end) curated.

Definition exposed (curated : list AllowlistEntry) (user_rules : list WireRuleRow) : list (string * string * string) :=
  flat_map (fun r => exposed_by curated (wr_pattern r)) (filter (fun r => wr_kind r = "allow") user_rules).

Definition render_risk (found : list (string * string * string)) : string :=
  match found with
  | [] => ""
  | _ => writeln (String LF (colour "33" ("Risk exposure (" +:+ pretty (N.of_nat (length found))
                                          +:+ " user-approved rule(s) overlap with threat intel):")))
         +:+ concat_str ((fun x : string * string * string => writeln ("  " +:+ x.1.1 +:+ " [" +:+ x.1.2 +:+ "] — " +:+ x.2)) <$> found)
  end.

(** Failures to load or to list print nothing. *)
Definition render_risk_exposure (curated : result (list AllowlistEntry) string) : SM Client CliError string := fun c =>
  match curated with
  | Err _ => (c, Ok "")
  | Ok curated =>
      match list_rules_request false c with
      | (c1, Ok user_rules) => (c1, Ok (render_risk (exposed curated user_rules)))
      | (c1, Err _) => (c1, Ok "")
      end
  end.

Definition render_watchdog_health (wd : WatchdogState) : string :=
  writeln (String LF "Watchdog:")
  +:+ writeln ("  restart_count:        " +:+ pretty (restart_count wd))
  +:+ option_line "  last_restart_reason:  " (last_restart_reason wd)
  +:+ option_line "  last_restart_epoch:   " (pretty <$> last_restart_epoch wd)
  +:+ option_line "  last_restart_latency: " ((fun ms => pretty ms +:+ "ms") <$> last_restart_latency_ms wd).

(** [state_file] is the text of watchdog.state, when it can be read. *)
Definition read_watchdog_health `{Cbor WatchdogState} (state_file : option string) : option WatchdogState :=
  content ← state_file;
  match from_reader content with Ok wd => Some wd | Err _ => None end.

(** [None] is the panic of the fingerprint. *)
Definition run_status `{Cbor WatchdogState} (curated : result (list AllowlistEntry) string) (state_file : option string) (c : Client)
  : Client * option (string * result Z CliError) :=
  match status_request c with
  | (c1, Err e) => (c1, Some ("", Err e))
  | (c1, Ok (RepErr _ message)) => (c1, Some (writeln ("stt-guard: error — " +:+ message), Ok 2%Z))
  | (c1, Ok (RepOk _ status)) =>
      match render_verbose status with
      | None => (c1, None)
      | Some text =>
          let '(c2, risk) := render_risk_exposure curated c1 in
          (c2, Some (text +:+ unwrap_or risk "" +:+ from_option render_watchdog_health "" (read_watchdog_health state_file), Ok 0%Z))
      end
  end.

End Overview.

(** ** What the readers compute *)

Section Readers.
Context `{LE : LockEnv}.

(** The first entry of each host and port. *)
Fixpoint firsts (seen : list (string * N)) (l : list BlockEntry) : list BlockEntry :=
  match l with
  | [] => []
  | b :: rest => if bool_decide (be_key b ∈ seen) then firsts seen rest else b :: firsts (be_key b :: seen) rest
  end.

Lemma limits_positive : 0 < MAX_UNIQUE_BLOCK_HOSTS /\ 0 < MAX_ENTRIES.
Proof using Type. split; apply Nat.ltb_lt; vm_compute; reflexivity. Qed.

Definition entries_of {A} (pick : Value -> option A) (ls : list (result string string)) : list A :=
  omap (fun line => line_value line ≫= pick) ls.

Lemma filter_blocks_spec (run_uuid : string) (ls : list (result string string)) (seen : list (string * N)) (out : list BlockEntry)
    (fails : bool) :
  length out < MAX_UNIQUE_BLOCK_HOSTS ->
  let all := out ++ firsts seen (entries_of (block_entry run_uuid) ls) in
  filter_blocks run_uuid ls seen out fails
  = if bool_decide (MAX_UNIQUE_BLOCK_HOSTS <= length all) then Some (Err (too_many run_uuid))
    else if fails then None else Some (Ok all).
Proof using Type.
  revert seen out. induction ls as [|line ls IH]; intros seen out Hlen; cbn [filter_blocks].
  { unfold entries_of. cbn [omap list_omap firsts]. rewrite app_nil_r, bool_decide_eq_false_2 by lia. done. }
  unfold entries_of. cbn [omap list_omap]. fold (entries_of (block_entry run_uuid) ls).
  destruct (line_value line ≫= block_entry run_uuid) as [b|]; [|by apply IH].
  cbn [firsts]. destruct (bool_decide (be_key b ∈ seen)); [by apply IH|].
  set (rest := firsts (be_key b :: seen) _). replace (out ++ b :: rest) with ((out ++ [b]) ++ rest) by (by rewrite <- app_assoc). destruct (decide (MAX_UNIQUE_BLOCK_HOSTS <= length (out ++ [b]))) as [Hm|Hm].
  - cbv zeta. rewrite (bool_decide_eq_true_2 (MAX_UNIQUE_BLOCK_HOSTS <= length (out ++ [b]))) by done. rewrite bool_decide_eq_true_2; [done|]. rewrite (length_app (out ++ [b])). lia.
  - cbv zeta. rewrite (bool_decide_eq_false_2 (MAX_UNIQUE_BLOCK_HOSTS <= length (out ++ [b]))) by done. apply IH. lia.
Qed.

Lemma last_block_run_spec (ls : list (result string string)) (latest : option string) (fails : bool) :
  last_block_run ls latest fails
  = if fails then None
    else Some (Ok match last (entries_of block_run ls) with Some u => Some u | None => latest end).
Proof using Type.
  revert latest. induction ls as [|line ls IH]; intros latest; cbn [last_block_run]; [by destruct fails|].
  unfold entries_of. cbn [omap list_omap]. fold (entries_of block_run ls).
  destruct (line_value line ≫= block_run) as [u|]; rewrite IH; [|done]. destruct fails; [done|].
  rewrite last_cons. by destruct (last (entries_of block_run ls)).
Qed.

Lemma filter_persistence_spec (run_uuid : option string) (ls : list (result string string)) (out : list PersistenceEntry) (fails : bool) :
  length out < MAX_ENTRIES ->
  let all := out ++ entries_of (persistence_entry run_uuid) ls in
  filter_persistence run_uuid ls out fails
  = if bool_decide (MAX_ENTRIES <= length all) then Some (Ok (take MAX_ENTRIES all))
    else if fails then None else Some (Ok all).
Proof using Type.
  revert out. induction ls as [|line ls IH]; intros out Hlen; cbn [filter_persistence].
  { unfold entries_of. cbn [omap list_omap firsts]. rewrite app_nil_r, bool_decide_eq_false_2 by lia. done. }
  unfold entries_of. cbn [omap list_omap]. fold (entries_of (persistence_entry run_uuid) ls).
  destruct (line_value line ≫= persistence_entry run_uuid) as [e|]; [|by apply IH].
  cbv zeta. set (rest := entries_of _ _). replace (out ++ e :: rest) with ((out ++ [e]) ++ rest) by (by rewrite <- app_assoc). destruct (decide (MAX_ENTRIES <= length (out ++ [e]))) as [Hm|Hm].
  - rewrite (bool_decide_eq_true_2 (MAX_ENTRIES <= length (out ++ [e]))) by done. rewrite bool_decide_eq_true_2 by (rewrite (length_app (out ++ [e])); lia).
    assert (length (out ++ [e]) = S (length out)) as Hl by (rewrite length_app; apply Nat.add_1_r).
    rewrite (take_app_le (out ++ [e])) by lia. by rewrite firstn_all2 by lia.
  - rewrite (bool_decide_eq_false_2 (MAX_ENTRIES <= length (out ++ [e]))) by done. apply IH. lia.
Qed.

(** A file that cannot be read to its end: the loops go on for ever. *)
Lemma failing_log_never_ends (log_path content run_uuid : string) :
  length (firsts [] (entries_of (block_entry run_uuid) (read_lines content))) < MAX_UNIQUE_BLOCK_HOSTS ->
  filter_block_destinations log_path (LogReads content true) run_uuid = None
  /\ most_recent_run_with_denials (LogReads content true) = None.
Proof using Type.
  intros Hlen. unfold filter_block_destinations, most_recent_run_with_denials. rewrite last_block_run_spec. split; [|done].
  rewrite filter_blocks_spec by exact (proj1 limits_positive). cbv zeta. rewrite app_nil_l.
  by rewrite bool_decide_eq_false_2 by lia.
Qed.

(** As many hosts as the limit are refused, although the message says more. *)
Lemma limit_itself_refused (log_path content run_uuid : string) :
  length (firsts [] (entries_of (block_entry run_uuid) (read_lines content))) = MAX_UNIQUE_BLOCK_HOSTS ->
  filter_block_destinations log_path (LogReads content false) run_uuid = Some (Err (too_many run_uuid)).
Proof using Type.
  intros Hlen. unfold filter_block_destinations.
  rewrite filter_blocks_spec by exact (proj1 limits_positive). cbv zeta. rewrite app_nil_l.
  by rewrite bool_decide_eq_true_2 by lia.
Qed.

End Readers.

(** ** The rows of the daemon's log *)

(** jsonl_row.rs and messages.rs: the derived serialization. *)
Definition jnum (n : N) : Value := JNumber (pretty n).
Definition jopt (o : option string) : Value := from_option JString JNull o.
Definition jstrings (l : list string) : Value := JArray (JString <$> l).

Definition process_value (p : ProcessCtxLog) : Value :=
  JObject [("pid", jnum (pl_pid p)); ("pidversion", jnum (pl_pidversion p)); ("argv", jstrings (pl_argv p)); ("cwd", JString (pl_cwd p))].

Definition token_words (t : AuditToken) : list N := [val0 t; val1 t; val2 t; val3 t; val4 t; val5 t; val6 t; val7 t].
Definition root_value (r : RootCtxLog) : Value :=
  JObject [("audit_token", JArray (jnum <$> token_words (rl_audit_token r))); ("argv", jstrings (rl_argv r))].

Definition package_value (c : PackageContext) : Value :=
  JObject [("ecosystem", JString (pc_ecosystem c)); ("package", JString (pc_package c)); ("version", JString (pc_version c));
           ("lifecycle", jopt (pc_lifecycle c)); ("root_command", JString (pc_root_command c))].

Definition intel_value (i : IntelMatch) : Value :=
  JObject [("feed", JString (im_feed i)); ("advisory_id", JString (im_advisory_id i)); ("source", JString (im_source i));
           ("severity", jopt (im_severity i)); ("tag", jopt (im_tag i)); ("first_seen_ms", jnum (im_first_seen_ms i))].

(** An absent package context or list of matches is left out. *)
Definition decision_fields (d : DecisionRow) : list (string * Value) :=
  [("schema_version", jnum (dr_schema_version d)); ("ts", JString (default "" (dr_ts d))); ("verdict", JString (dr_verdict d));
   ("dest_host", JString (dr_dest_host d)); ("dest_port", jnum (dr_dest_port d)); ("dest_ip", jopt (dr_dest_ip d));
   ("run_uuid", JString (dr_run_uuid d)); ("source_kind", JString (dr_source_kind d)); ("source_locator", jopt (dr_source_locator d));
   ("process", process_value (dr_process d)); ("parent", process_value (dr_parent d)); ("root", root_value (dr_root d))]
  ++ from_option (fun c => [("package_context", package_value c)]) [] (dr_package_context d)
  ++ from_option (fun l => [("intel", JArray (intel_value <$> l))]) [] (dr_intel d).

Definition gap_fields (g : GapRecord) : list (string * Value) :=
  [("schema_version", jnum (gr_schema_version g)); ("ts", JString (default "" (gr_ts g))); ("run_uuid", JString (gr_run_uuid g));
   ("gap_kind", JString (gr_gap_kind g)); ("process", process_value (gr_process g)); ("binary_path", jopt (gr_binary_path g))].

Definition row_value (row : JsonRow) : Value :=
  JObject match row with
          | RowBlock d => ("event", JString "block") :: decision_fields d
          | RowAllow d => ("event", JString "allow") :: decision_fields d
          | RowGap g => ("event", JString "gap") :: gap_fields g
          end.

Section Rows.
Context `{LE : LockEnv, LW : LogEnv}.

(** What the serializer and the parser of JSON do with a row: one line of text, read back
    as the value of the row. *)
Record row_reads (row : JsonRow) : Prop := {
  rr_value : json_from_str (to_json row) = Some (row_value row);
  rr_line : clean (to_json row) /\ utf8_valid (to_json row) = true /\ is_empty (trim (to_json row)) = false;
}.

(** Ports have 16 bits, process identifiers 32, and every row was given its time. *)
Definition row_in_range (row : JsonRow) : Prop :=
  match row with
  | RowBlock d | RowAllow d => (dr_dest_port d <= 65535)%N /\ is_Some (dr_ts d)
  | RowGap g => (pl_pid (gr_process g) < 4294967296)%N /\ is_Some (gr_ts g)
  end.

Definition listable (host : string) : bool := negb (is_empty host) && bool_decide (String.length host <= MAX_HOST_LENGTH).

(** The reference: the rows themselves. *)
Definition denied_in (run_uuid : string) (row : JsonRow) : option BlockEntry :=
  match row with
  | RowBlock d =>
      if bool_decide (dr_run_uuid d = run_uuid) && listable (dr_dest_host d)
      then Some (mkBlock (dr_dest_host d) (dr_dest_port d) (dr_source_kind d)) else None
  | RowAllow _ | RowGap _ => None
  end.
Definition denied_run (row : JsonRow) : option string :=
  match row with RowBlock d => Some (dr_run_uuid d) | RowAllow _ | RowGap _ => None end.
Definition written_by (run_uuid : option string) (row : JsonRow) : option PersistenceEntry :=
  match row with
  | RowGap g =>
      let path := default "" (gr_binary_path g) in
      if bool_decide (gr_gap_kind g = "persistence-write") && from_option (fun u => bool_decide (gr_run_uuid g = u)) true run_uuid
         && negb (is_empty path)
      then Some (mkPersistenceEntry (default "" (gr_ts g)) (gr_run_uuid g) path (Some (pl_pid (gr_process g)))) else None
  | RowBlock _ | RowAllow _ => None
  end.

Lemma jget_here (k : string) (v : Value) (m : list (string * Value)) : jget k ((k, v) :: m) = Some v.
Proof using Type. unfold jget. by rewrite filter_cons_True. Qed.
Lemma jget_next (k k' : string) (v : Value) (m : list (string * Value)) : k' <> k -> jget k ((k', v) :: m) = jget k m.
Proof using Type. intros Hne. unfold jget. by rewrite filter_cons_False. Qed.

Lemma as_u64_num (n : N) : (n < 2 ^ 64)%N -> as_u64 (jnum n) = Some n.
Proof using Type.
  intros Hn. unfold as_u64, jnum. destruct (pretty_N_head n) as (a & r & Hp & _). rewrite Hp. cbn [is_empty]. rewrite <- Hp.
  rewrite digits_go_pretty. cbn [mbind option_bind]. rewrite bool_decide_eq_true_2 by (unfold U64_MAX; lia). by rewrite N2Z.id.
Qed.

(** The fields of a row are read one after the other. *)
Ltac fields := repeat (rewrite jget_here || rewrite jget_next by done); cbn [mbind option_bind as_str].

Lemma block_entry_row (run_uuid : string) (row : JsonRow) :
  row_in_range row -> block_entry run_uuid (row_value row) = denied_in run_uuid row.
Proof using Type.
  intros Hr. unfold block_entry, str_field, row_value. destruct row as [d|d|g]; cbn [vget]; fields.
  - rewrite bool_decide_eq_true_2 by done. cbn [negb]. unfold decision_fields. rewrite <- !app_comm_cons. fields.
    cbn [denied_in row_in_range default] in *. unfold listable.
    destruct (decide (dr_run_uuid d = run_uuid)) as [->|Hne].
    + destruct Hr as [Hr _]. rewrite (bool_decide_eq_true_2 (Some run_uuid = _)), (bool_decide_eq_true_2 (run_uuid = _)) by done.
      cbn [negb andb]. rewrite as_u64_num by lia. rewrite (bool_decide_eq_true_2 (_ <= _)%N) by done.
      cbn [mbind option_bind id]. destruct (is_empty _); [done|]. cbn [negb andb].
      destruct (decide (MAX_HOST_LENGTH < String.length (dr_dest_host d))) as [Hl|Hl].
      * rewrite (bool_decide_eq_true_2 (MAX_HOST_LENGTH < _)), bool_decide_eq_false_2 by (done || lia). done.
      * rewrite (bool_decide_eq_false_2 (MAX_HOST_LENGTH < _)), bool_decide_eq_true_2 by (done || lia). done.
    + rewrite (bool_decide_eq_false_2 (Some _ = _)), (bool_decide_eq_false_2 (_ = run_uuid)) by congruence. done.
  - by rewrite bool_decide_eq_false_2.
  - by rewrite bool_decide_eq_false_2.
Qed.

Lemma block_run_row (row : JsonRow) : block_run (row_value row) = denied_run row.
Proof using Type.
  unfold block_run, str_field, row_value. destruct row as [d|d|g]; cbn [vget]; fields.
  - rewrite bool_decide_eq_true_2 by done. cbn [negb]. unfold decision_fields. rewrite <- !app_comm_cons. by fields.
  - by rewrite bool_decide_eq_false_2.
  - by rewrite bool_decide_eq_false_2.
Qed.

Lemma persistence_entry_row (run_uuid : option string) (row : JsonRow) :
  row_in_range row -> persistence_entry run_uuid (row_value row) = written_by run_uuid row.
Proof using Type.
  intros Hr. unfold persistence_entry, str_field, row_value. destruct row as [d|d|g]; cbn [vget]; fields.
  - by rewrite bool_decide_eq_false_2.
  - by rewrite bool_decide_eq_false_2.
  - rewrite bool_decide_eq_true_2 by done. cbn [negb]. unfold gap_fields. fields. cbn [written_by row_in_range] in *.
    destruct Hr as [Hr _].
    unfold process_value. cbn [vget]. fields. rewrite as_u64_num by lia. cbn [default].
    destruct (decide (gr_gap_kind g = "persistence-write")) as [Hk|Hk].
    + rewrite Hk, !bool_decide_eq_true_2 by done. cbn [negb andb].
      destruct run_uuid as [u|]; cbn [from_option].
      * destruct (decide (gr_run_uuid g = u)) as [->|Hne].
        -- rewrite !bool_decide_eq_true_2 by done. cbn [negb andb]. destruct (gr_binary_path g) as [b|]; cbn; [by destruct (is_empty b)|done].
        -- rewrite !bool_decide_eq_false_2 by (done || congruence). done.
      * cbn [andb]. destruct (gr_binary_path g) as [b|]; cbn; [by destruct (is_empty b)|done].
    + rewrite !bool_decide_eq_false_2 by (done || congruence). done.
Qed.

Lemma entries_cons {A} (pick : Value -> option A) (line : result string string) (ls : list (result string string)) :
  entries_of pick (line :: ls)
  = match line_value line ≫= pick with Some v => v :: entries_of pick ls | None => entries_of pick ls end.
Proof using Type. done. Qed.

(** The lines of the file are the rows. *)
Lemma row_lines_unlines (rows : list JsonRow) : row_lines rows = unlines (to_json <$> rows).
Proof using Type. induction rows as [|row rows IH]; [done|]. unfold row_lines in *. cbn [foldr fmap list_fmap]. rewrite IH. reflexivity. Qed.

Lemma lines_unlines_app (l : list string) (t : string) : Forall clean l -> lines (unlines l +:+ t) = l ++ lines t.
Proof using Type.
  induction 1 as [|x l Hx Hl IH]; [done|]. cbn [unlines app]. rewrite !app_assoc_str.
  change (nl +:+ unlines l +:+ t) with (String LF (unlines l +:+ t)).
  rewrite lines_app; [by rewrite IH|apply Hx|by apply clean_no_cr_end].
Qed.

(** Lines that hold no value: blank, not UTF-8, no JSON, or cut short. *)
Definition no_rows (torn : string) : Prop := Forall (fun line => line_value line = None) (read_lines torn).

Lemma entries_of_rows {A} (pick : Value -> option A) (f : JsonRow -> option A) (rows : list JsonRow) (torn : string) :
  Forall row_reads rows -> no_rows torn -> Forall (fun row => pick (row_value row) = f row) rows ->
  entries_of pick (read_lines (row_lines rows +:+ torn)) = omap f rows.
Proof using Type.
  intros Hr Ht Hf. unfold read_lines. rewrite row_lines_unlines, lines_unlines_app
    by (apply Forall_fmap; eapply Forall_impl; [exact Hr|]; intros row [_ (? & _)]; done).
  induction Hr as [|row rows [Hv (_ & Hu & Hb)] Hr IH].
  - unfold entries_of. unfold no_rows, read_lines in Ht. cbn [app fmap list_fmap omap list_omap].
    induction Ht as [|line ls Hl _ IHt]; [done|]. cbn [omap list_omap]. by rewrite Hl.
  - apply Forall_cons in Hf as [Hp Hf]. rewrite fmap_cons. cbn [app]. rewrite fmap_cons, entries_cons, Hu. cbn [line_value].
    rewrite Hb, Hv. cbn [mbind option_bind]. rewrite Hp, (IH Hf). by cbn [omap list_omap].
Qed.

Lemma log_readers_spec (log_path run_uuid : string) (filter_uuid : option string) (rows : list JsonRow) (torn : string) :
  Forall row_reads rows -> Forall row_in_range rows -> no_rows torn ->
  let log := LogReads (row_lines rows +:+ torn) false in
  let hosts := firsts [] (omap (denied_in run_uuid) rows) in
  filter_block_destinations log_path log run_uuid
  = Some (if bool_decide (MAX_UNIQUE_BLOCK_HOSTS <= length hosts) then Err (too_many run_uuid) else Ok hosts)
  /\ most_recent_run_with_denials log = Some (Ok (last (omap denied_run rows)))
  /\ filter_persistence_writes log filter_uuid = Some (Ok (take MAX_ENTRIES (omap (written_by filter_uuid) rows))).
Proof using Type.
  intros Hr Hg Ht. cbv zeta. cbn [filter_block_destinations most_recent_run_with_denials filter_persistence_writes].
  rewrite filter_blocks_spec by exact (proj1 limits_positive). cbv zeta. rewrite app_nil_l.
  rewrite (entries_of_rows _ (denied_in run_uuid)) by (done || (eapply Forall_impl; [exact Hg|]; intros row; apply block_entry_row)).
  rewrite last_block_run_spec, (entries_of_rows _ denied_run) by (done || (apply Forall_forall; intros row _; apply block_run_row)).
  rewrite filter_persistence_spec by exact (proj2 limits_positive). cbv zeta. rewrite app_nil_l.
  rewrite (entries_of_rows _ (written_by filter_uuid)) by (done || (eapply Forall_impl; [exact Hg|]; intros row; apply persistence_entry_row)).
  split; [by case_bool_decide|]. split; [by destruct (last _)|].
  case_bool_decide; [done|]. by rewrite firstn_all2 by lia.
Qed.

End Rows.

(** C26: the listings of the log are exact.  On a log that consists of the rows the daemon
    wrote, followed by lines that hold no value (a row cut short by a crash, say), each
    reader returns in one pass what the reference computes from the rows: [status denials]
    and [status review] the first block of each host and port of the run, in the order of
    the log, or the refusal when there are ten thousand; the run a review starts from is
    that of the last block; [status persistence] the first ten thousand gaps of kind
    [persistence-write], of the run asked for.  Blocks of other runs, allowed connections,
    hosts that are empty or too long, and other gaps are left out. *)
Theorem log_listings_exact `{LE : LockEnv, LW : LogEnv} (log_path run_uuid : string) (filter_uuid : option string)
    (rows : list JsonRow) (torn : string) :
  Forall row_reads rows -> Forall row_in_range rows -> no_rows torn ->
  let log := LogReads (row_lines rows +:+ torn) false in
  let hosts := firsts [] (omap (denied_in run_uuid) rows) in
  filter_block_destinations log_path log run_uuid
  = Some (if bool_decide (MAX_UNIQUE_BLOCK_HOSTS <= length hosts) then Err (too_many run_uuid) else Ok hosts)
  /\ most_recent_run_with_denials log = Some (Ok (last (omap denied_run rows)))
  /\ filter_persistence_writes log filter_uuid = Some (Ok (take MAX_ENTRIES (omap (written_by filter_uuid) rows))).
Proof. apply log_readers_spec. Qed.

(** ** A concrete log *)

Definition toy_process : ProcessCtxLog := mkProcessCtxLog 7 1 ["node"] "/p".
Definition toy_block (run host : string) : JsonRow :=
  RowBlock (mkDecisionRow 2 (Some "2026-05-30T10:10:15.000Z") "Deny" host 443 None run "default" None toy_process toy_process
              (mkRootCtxLog (mkToken 0 0 0 0 0 7 0 1) ["npm"]) None None).
Definition toy_write (path : string) : JsonRow :=
  RowGap (mkGapRecord 2 (Some "2026-05-30T10:10:16.000Z") "r1" "persistence-write" toy_process (Some path)).

Definition toy_rows : list JsonRow := [toy_block "r1" "a.example"; toy_block "r2" "b.example"; toy_write "/x"; toy_block "r1" "a.example"].

(** A serializer for these rows. *)
Definition toy_rows_log : LogEnv := {|
  to_json := fun row => match row with RowBlock d | RowAllow d => dr_run_uuid d | RowGap _ => "gap" end;
  gzip := fun s => s;
|}.
Definition toy_rows_lock : LockEnv := {|
  json_from_str := fun s =>
    if bool_decide (s = "r1") then Some (row_value (toy_block "r1" "a.example"))
    else if bool_decide (s = "r2") then Some (row_value (toy_block "r2" "b.example"))
    else if bool_decide (s = "gap") then Some (row_value (toy_write "/x")) else None;
  to_lowercase := to_ascii_lowercase;
  is_file _ := false; path_exists _ := false; lock_read _ := None;
|}.

Lemma log_listings_exact_witness :
  filter_block_destinations (LE := toy_rows_lock) "/l" (LogReads ("r1" +:+ nl +:+ "r2" +:+ nl +:+ "gap" +:+ nl +:+ "r1" +:+ nl +:+ "{torn") false) "r1"
  = Some (Ok [mkBlock "a.example" 443 "default"]).
Proof.
  assert (@no_rows toy_rows_lock "{torn") as Ht by (unfold no_rows; by_decide).
  destruct (@log_listings_exact toy_rows_lock toy_rows_log "/l" "r1" None toy_rows "{torn") as [Hb _]; [| |exact Ht|].
  - repeat constructor; vm_compute; reflexivity.
  - unfold toy_rows. repeat constructor; cbn; eauto; vm_compute; discriminate.
  - etrans; [|etrans; [exact Hb|]]; vm_compute; reflexivity.
Defined.

(** A rule for a whole domain that covers a host known to be bad is no overlap. *)
Example covering_rule_not_exposed :
  matches (mkEntry Allow UserAllow Suffix ".evil.example" "ok") "c2.evil.example" = true /\
  exposed [mkEntry Deny ConfirmedDeny Exact "c2.evil.example" "advisory"]
    [mkWireRow "user" "allow" "suffix" ".evil.example" "ok"] = [].
Proof. split; vm_compute; reflexivity. Qed.
