(* ===== verification/HookInit.v ===== *)
(** * The constructor of the injected library

    [crates/guard-hook/src/lib.rs] ([guard_hook_init]), [self_check.rs] and the
    functions of [interpose.rs] it calls.  It runs once, before [main], in one thread:
    its state is that of the library, of which the exec interposers see [XHook].  The
    dynamic linker, the file of the library and the texts of [Debug] are the class
    [InitEnv]; the files of the snapshot are [HookFs], the daemon is [XEnv]. *)

From S2P Require Import Prelude RustStr RustUtf8 Policy TrustedSigners Signature Snapshot Paths RuleStore Lockfile EnvFilter ProcessTree Frame.
From S2P Require Import HookNet MachO LogWriter Messages Events HookExec Publish HookLoad.

(** ** Data *)

Inductive SelfCheckError : Type :=
| DylibPathUnknown
| HashFileNotFound
| HashFileMalformed
| DylibOpenFailed (msg : string)
| HookDigestMismatch (expected got : string)
| SelfIo (msg : string).

(** Where [dlsym] looks. *)
Inductive DlHandle : Type := RtldNext | RtldDefault | LibSystem.

Class InitEnv : Type := {
  ie_os : Os;
  (** [dlopen] finds libSystem loaded. *)
  ie_libsystem : bool;
  ie_dlsym : DlHandle -> string -> N;
  (** The address of a replacement. *)
  ie_ours : string -> N;
  (** [dladdr] on the anchor: the name of the file, bytes of a C string. *)
  ie_dladdr : option string;
  ie_exists : string -> bool;
  ie_write : string -> string -> bool;
  ie_debug_load : LoadError -> string;
  ie_debug_check : SelfCheckError -> string;
}.

Record Library : Type := mkLibrary {
  l_hook : XHook;
  l_fail_closed : bool;
  l_allowlist : option (list AllowlistEntry);
  l_originals : list (string * N);
  l_marker : list string;
  l_scrub_active : bool;
}.

Definition IM (A : Type) : Type := Library -> outcome (A * Library).

#[export] Instance im_ret : MRet IM := fun A a l => Val (a, l).
#[export] Instance im_bind : MBind IM := fun A B f m l =>
  match m l with Val (a, l') => f a l' | Panic => Panic end.

(** An operation of the interposers, on their part of the state. *)
Definition on_hook {A} (m : XM A) : IM A := fun l =>
  match m (l_hook l) with
  | Val (a, h) => Val (a, mkLibrary h (l_fail_closed l) (l_allowlist l) (l_originals l) (l_marker l) (l_scrub_active l))
  | Panic => Panic
  end.

Definition fail_closed : IM unit := fun l =>
  Val (tt, mkLibrary (l_hook l) true (l_allowlist l) (l_originals l) (l_marker l) (l_scrub_active l)).
Definition is_fail_closed : IM bool := fun l => Val (l_fail_closed l, l).

(** [OnceLock::set]: the first value stays. *)
Definition set_allowlist (entries : list AllowlistEntry) : IM unit := fun l =>
  Val (tt, mkLibrary (l_hook l) (l_fail_closed l)
             match l_allowlist l with Some e => Some e | None => Some entries end (l_originals l) (l_marker l) (l_scrub_active l)).
Definition store_originals (o : list (string * N)) : IM unit := fun l =>
  Val (tt, mkLibrary (l_hook l) (l_fail_closed l) (l_allowlist l) o (l_marker l) (l_scrub_active l)).
Definition wrote (path : string) : IM unit := fun l =>
  Val (tt, mkLibrary (l_hook l) (l_fail_closed l) (l_allowlist l) (l_originals l) (l_marker l ++ [path]) (l_scrub_active l)).
Definition activate_scrub : IM unit := fun l =>
  Val (tt, mkLibrary (l_hook l) (l_fail_closed l) (l_allowlist l) (l_originals l) (l_marker l) true).

Section Init.
Context `{IE : InitEnv, XE : XEnv, HF : HookFs, TF : TrustFs, CR : Crypto, SNC : SnapshotCodec}.

Definition log (msg : string) : IM unit := on_hook (x_log_append msg).

(** ** self_check.rs *)

Definition dylib_path : option string := from_utf8_lossy <$> ie_dladdr.

(** The reading in blocks hashes the content of the file. *)
Definition verify (state_dir : string) : result unit SelfCheckError :=
  let hash_path := path_join state_dir HOOK_HASH_FILENAME in
  if negb (ie_exists hash_path) then Ok tt
  else
    let? text := map_err SelfIo (read_to_string hash_path) in
    let expected := trim text in
    if negb (bool_decide (String.length expected = 64)) || negb (str_forallb is_ascii_hexdigit expected)
    then Err HashFileMalformed
    else
      let? lib_path := ok_or dylib_path DylibPathUnknown in
      let? _ := map_err (fun e => DylibOpenFailed (from_utf8_lossy lib_path +:+ ": " +:+ e)) (open_nofollow lib_path) in
      let? content := map_err SelfIo (read_to_end lib_path) in
      let computed := sha256_hex content in
      if negb (bool_decide (computed = expected)) then Err (HookDigestMismatch expected computed) else Ok tt.

(** ** interpose.rs *)

Definition ORIGINALS : list string :=
  ["connect"; "connectx"; "getaddrinfo"; "getaddrinfo_async"; "getaddrinfo_async_call"; "sendto"; "sendmsg"; "send"; "write"; "writev";
   "syscall"].

Definition capture_originals : IM unit :=
  let real_sym name := (name, ie_dlsym (if ie_libsystem then LibSystem else RtldNext) name) in
  store_originals (real_sym <$> ORIGINALS) ;;
  log "[guard-hook] capture_originals: raw-syscall mode (v0.1)".

Definition em_dash : string := "—".

(** The three probes, in order; the first that finds another function closes. *)
Fixpoint probe_all (symbols : list (string * string)) : IM unit :=
  match symbols with
  | [] => log "[guard-hook] interpose self-test passed (guard_connect + guard_write + guard_getaddrinfo active)"
  | (name, reason) :: rest =>
      if negb (bool_decide (ie_dlsym RtldDefault name = ie_ours ("guard_" +:+ name)))
      then fail_closed ;;
           log ("[guard-hook] interpose-not-effective: dlsym(RTLD_DEFAULT," +:+ String DQUOTE name +:+ String DQUOTE ") != &guard_" +:+ name
                +:+ " " +:+ em_dash +:+ " entering FAIL_CLOSED" +:+ reason)
      else probe_all rest
  end.

Definition PROBES : list (string * string) := [("connect", " (ISS-12 / T-01-08-01)"); ("write", ""); ("getaddrinfo", "")].

Definition probe_self_test : IM unit :=
  match ie_os with
  | MacOs => probe_all PROBES
  | Linux => log "[guard-hook] interpose self-test skipped: dyld __interpose is macOS-only"
  end.

(** ** lib.rs *)

Definition write_test_marker_if_set : IM unit :=
  match getenv "STT_GUARD_TEST_MARKER" with
  | None => mret tt
  | Some p =>
      let path_str := from_utf8_lossy p in
      if is_empty path_str then mret tt else if ie_write path_str "dylib-loaded" then wrote path_str else mret tt
  end.

Definition cache_daemon_socket_path : IM unit :=
  on_hook (x_modify (fun h => mkX (x_in_hook h) true (x_log h) (x_errno h) (x_conns h) (x_lookups h) (x_scan h) (x_trace h))).

Definition show_client_error (e : IpcClientError) : string :=
  match e with
  | NotConfigured => "ipc-client: daemon socket path not configured"
  | Timeout => "ipc-client: timeout"
  | CIo e => "ipc-client: io: " +:+ e
  | DaemonRejected m => "ipc-client: daemon-rejected: " +:+ m
  | CCodec m => "ipc-client: codec: " +:+ m
  end.

Definition DYLIB_LOADED_TIMEOUT_MS : N := 100.

Definition load_rules : IM unit :=
  match load_from_env with
  | Ok loaded =>
      set_allowlist (ld_entries loaded) ;;
      log ("[guard-hook] snapshot loaded schema_version=" +:+ pretty (ld_schema_version loaded) +:+ " path="
           +:+ from_utf8_lossy (ld_snapshot_path loaded))
  | Err e => fail_closed ;; log ("[guard-hook] FAIL_CLOSED " +:+ em_dash +:+ " snapshot load failed: " +:+ ie_debug_load e)
  end.

Definition check_library : IM unit :=
  match verify well_known_state_dir with
  | Ok _ => mret tt
  | Err e => fail_closed ;; log ("[guard-hook] FAIL_CLOSED " +:+ em_dash +:+ " self-check failed: " +:+ ie_debug_check e)
  end.

Definition report_loaded : IM unit :=
  closed ← is_fail_closed;
  if (closed : bool) then mret tt
  else
    r ← on_hook (send_dylib_loaded_sync current_audit_token_wire DYLIB_LOADED_TIMEOUT_MS);
    match r with
    | Ok _ => log "[guard-hook] DylibLoaded sent"
    | Err e => log ("[guard-hook] DylibLoaded best-effort failed: " +:+ show_client_error e)
    end.

Definition probe_if_open : IM unit :=
  closed ← is_fail_closed;
  if (closed : bool) then mret tt else probe_self_test.

Definition guard_hook_init : IM unit :=
  write_test_marker_if_set ;;
  capture_originals ;;
  cache_daemon_socket_path ;;
  load_rules ;;
  check_library ;;
  report_loaded ;;
  probe_if_open ;;
  activate_scrub.

End Init.

(** ** The steps *)

Section Steps.
Context `{IE : InitEnv, XE : XEnv, HF : HookFs, TF : TrustFs, CR : Crypto, SNC : SnapshotCodec}.

Definition iwp {A} (m : IM A) (Q : A -> Library -> Prop) (l : Library) : Prop :=
  exists a l', m l = Val (a, l') /\ Q a l'.

Lemma iwp_ret {A} (a : A) (Q : A -> Library -> Prop) l : Q a l -> iwp (mret a) Q l.
Proof using Type. by eexists _, _. Qed.
Lemma iwp_bind {A B} (m : IM A) (f : A -> IM B) (Q : B -> Library -> Prop) l :
  iwp m (fun a l' => iwp (f a) Q l') l -> iwp (m ≫= f) Q l.
Proof using Type. intros (a & l' & E & b & l2 & E2 & HQ). exists b, l2. unfold mbind, im_bind. by rewrite E. Qed.
Lemma iwp_mono {A} (m : IM A) (P Q : A -> Library -> Prop) l : iwp m P l -> (forall a l', P a l' -> Q a l') -> iwp m Q l.
Proof using Type. intros (a & l' & E & HP) H. exists a, l'. auto. Qed.

(** What a step of the constructor may do: the library stays closed, a set of rules
    stays, and no process is started. *)
Record kept (l l' : Library) : Prop := {
  k_closed : l_fail_closed l' = l_fail_closed l;
  k_rules : l_allowlist l' = l_allowlist l;
  k_socket : x_socket (l_hook l') = x_socket (l_hook l);
  k_trace : x_trace (l_hook l') = x_trace (l_hook l);
  k_scrub : l_scrub_active l' = l_scrub_active l;
}.

Lemma kept_refl l : kept l l.
Proof using Type. by constructor. Qed.
Lemma kept_trans l1 l2 l3 : kept l1 l2 -> kept l2 l3 -> kept l1 l3.
Proof using Type. intros [] []. constructor; congruence. Qed.

Lemma log_kept (msg : string) l : iwp (log msg) (fun _ l' => kept l l' /\ x_conns (l_hook l') = x_conns (l_hook l)) l.
Proof using Type. eexists _, _. split; [reflexivity|]. split; [by constructor|done]. Qed.

Definition probes_ours : Prop :=
  ie_os = MacOs -> Forall (fun p => ie_dlsym RtldDefault p.1 = ie_ours ("guard_" +:+ p.1)) PROBES.

Lemma probe_all_runs (symbols : list (string * string)) l :
  iwp (probe_all symbols) (fun _ l' => l_allowlist l' = l_allowlist l /\ x_socket (l_hook l') = x_socket (l_hook l)
    /\ x_trace (l_hook l') = x_trace (l_hook l) /\ x_conns (l_hook l') = x_conns (l_hook l)
    /\ (l_fail_closed l' = false <-> l_fail_closed l = false
          /\ Forall (fun p => ie_dlsym RtldDefault p.1 = ie_ours ("guard_" +:+ p.1)) symbols)) l.
Proof using Type.
  revert l. induction symbols as [|[name reason] rest IH]; intros l; cbn [probe_all].
  - eapply iwp_mono; [apply log_kept|]. intros _ l' [[-> -> -> -> _] ->]. naive_solver.
  - destruct (decide (ie_dlsym RtldDefault name = ie_ours ("guard_" +:+ name))) as [Hd|Hd].
    + rewrite bool_decide_eq_true_2 by done. cbn [negb]. eapply iwp_mono; [apply IH|]. intros _ l' (-> & -> & -> & -> & H).
      do 4 (split; [done|]). rewrite H, Forall_cons. cbn [fst]. tauto.
    + rewrite bool_decide_eq_false_2 by done. cbn [negb]. apply iwp_bind. eexists _, _. split; [reflexivity|].
      eapply iwp_mono; [apply log_kept|]. intros _ l' [[-> -> -> -> _] ->]. cbn [l_fail_closed l_allowlist l_hook].
      do 4 (split; [done|]). rewrite Forall_cons. cbn [fst]. split; [done|]. by intros (_ & Hn & _).
Qed.

End Steps.

(** ** What the constructor leaves *)

Section Constructor.
Context `{IE : InitEnv, XE : XEnv, HF : HookFs, TF : TrustFs, CR : Crypto, SNC : SnapshotCodec}.

(** The library was checked: there is no digest of the installation, or it is that of
    the file that was loaded, which is no link. *)
Definition self_checked (state_dir : string) : Prop :=
  ie_exists (path_join state_dir HOOK_HASH_FILENAME) = false
  \/ exists text path content,
       read_to_string (path_join state_dir HOOK_HASH_FILENAME) = Ok text /\ dylib_path = Some path
       /\ open_nofollow path = Ok tt /\ read_to_end path = Ok content
       /\ trim text = sha256_hex content /\ String.length (sha256_hex content) = 64.

Lemma verify_ok (state_dir : string) : verify state_dir = Ok tt <-> self_checked state_dir.
Proof using Type.
  unfold verify, self_checked. destruct (ie_exists _); cbn [negb]; [|by split; [left|]].
  split.
  - destruct (read_to_string _) as [text|]; cbn [map_err]; [|done].
    destruct (decide (String.length (trim text) = 64)) as [Hl|Hl];
      [rewrite bool_decide_eq_true_2 by done|by rewrite bool_decide_eq_false_2].
    destruct (str_forallb _ _); cbn [negb orb]; [|done]. destruct dylib_path as [path|]; cbn [ok_or]; [|done].
    destruct (open_nofollow path) as [[]|] eqn:Ho; cbn [map_err]; [|done].
    destruct (read_to_end path) as [content|] eqn:Hr; cbn [map_err]; [|done].
    destruct (decide (sha256_hex content = trim text)) as [Hd|Hd];
      [rewrite bool_decide_eq_true_2 by done|by rewrite bool_decide_eq_false_2].
    intros _. right. exists text, path, content. rewrite Hd. by split_and!.
  - intros [?|(text & path & content & Ht & Hp & Ho & Hr & Hd & Hl)]; [done|]. rewrite Ht. cbn [map_err].
    rewrite Hd, Hl. unfold sha256_hex at 1. rewrite hex_lower_hexdigits, bool_decide_eq_true_2 by done. cbn [negb orb]. rewrite Hp. cbn [ok_or]. rewrite Ho. cbn [map_err].
    rewrite Hr. cbn [map_err]. by rewrite bool_decide_eq_true_2.
Qed.

(** All checks: the snapshot, the library itself and, on Darwin, its three probes. *)
Definition checks_pass (s : LoadedSnapshot) : Prop :=
  load_from_env = Ok s /\ self_checked well_known_state_dir /\ probes_ours.

Definition fresh (l : Library) : Prop := l_fail_closed l = false /\ l_allowlist l = None.

Lemma load_rules_runs l :
  fresh l -> iwp load_rules (fun _ l' => x_socket (l_hook l') = x_socket (l_hook l) /\ x_trace (l_hook l') = x_trace (l_hook l)
    /\ x_conns (l_hook l') = x_conns (l_hook l)
    /\ match load_from_env with
       | Ok s => l_fail_closed l' = false /\ l_allowlist l' = Some (ld_entries s)
       | Err _ => l_fail_closed l' = true /\ l_allowlist l' = None
       end) l.
Proof using Type.
  intros [Hf Ha]. unfold load_rules. destruct load_from_env as [s|e]; apply iwp_bind; (eexists _, _; split; [reflexivity|]).
  all: eapply iwp_mono; [apply log_kept|]; intros _ l' [[-> -> -> -> _] ->]; cbn; rewrite ?Ha; done.
Qed.

Lemma check_library_runs l :
  iwp check_library (fun _ l' => x_socket (l_hook l') = x_socket (l_hook l) /\ x_trace (l_hook l') = x_trace (l_hook l)
    /\ x_conns (l_hook l') = x_conns (l_hook l) /\ l_allowlist l' = l_allowlist l
    /\ (l_fail_closed l' = false <-> l_fail_closed l = false /\ self_checked well_known_state_dir)) l.
Proof using Type.
  unfold check_library. pose proof (verify_ok well_known_state_dir) as Hv. destruct (verify _) as [[]|e].
  - apply iwp_ret. do 4 (split; [done|]). tauto.
  - apply iwp_bind. eexists _, _. split; [reflexivity|]. eapply iwp_mono; [apply log_kept|].
    intros _ l' [[-> -> -> -> _] ->]. cbn [l_fail_closed l_allowlist l_hook]. do 4 (split; [done|]). split; [done|]. by intros [_ ?%Hv].
Qed.

Lemma send_loaded_runs (h : XHook) :
  exists r h', send_dylib_loaded_sync current_audit_token_wire DYLIB_LOADED_TIMEOUT_MS h = Val (r, h')
    /\ x_socket h' = x_socket h /\ x_trace h' = x_trace h /\ x_conns h' <= S (x_conns h).
Proof using Type. destruct h as [? [] ? ? ? ? ? ?]; eexists _, _; (split; [reflexivity|]); cbn; auto. Qed.

Lemma report_loaded_runs l :
  iwp report_loaded (fun _ l' => kept l l' /\ x_conns (l_hook l') <= S (x_conns (l_hook l))
    /\ (l_fail_closed l = true -> x_conns (l_hook l') = x_conns (l_hook l))) l.
Proof using Type.
  unfold report_loaded, is_fail_closed. apply iwp_bind. eexists _, _. split; [reflexivity|].
  destruct (l_fail_closed l) eqn:Hc; [apply iwp_ret; split; [apply kept_refl|]; auto|].
  apply iwp_bind. destruct (send_loaded_runs (l_hook l)) as (r & h' & E & Hs & Ht & Hn). unfold on_hook.
  eexists _, _. rewrite E. split; [reflexivity|].
  destruct r; (eapply iwp_mono; [apply log_kept|]; intros _ l' [Hk ->]; split; [|split; [done|congruence]]).
  all: eapply kept_trans; [|exact Hk]; by constructor.
Qed.

Lemma probe_if_open_runs l :
  iwp probe_if_open (fun _ l' => l_allowlist l' = l_allowlist l /\ x_socket (l_hook l') = x_socket (l_hook l)
    /\ x_trace (l_hook l') = x_trace (l_hook l) /\ x_conns (l_hook l') = x_conns (l_hook l)
    /\ (l_fail_closed l' = false <-> l_fail_closed l = false /\ probes_ours)) l.
Proof using Type.
  unfold probe_if_open, is_fail_closed. apply iwp_bind. eexists _, _. split; [reflexivity|].
  destruct (l_fail_closed l) eqn:Hc; [apply iwp_ret; do 4 (split; [done|]); rewrite Hc; split; [done|by intros [? _]]|].
  unfold probe_self_test, probes_ours. destruct ie_os.
  - eapply iwp_mono; [apply probe_all_runs|]. intros _ l' (-> & -> & -> & -> & ->). do 4 (split; [done|]). tauto.
  - eapply iwp_mono; [apply log_kept|]. intros _ l' [[-> -> -> -> _] ->]. do 4 (split; [done|]). split; [by split|done].
Qed.

Lemma start_runs l :
  iwp (write_test_marker_if_set ;; capture_originals ;; cache_daemon_socket_path)
    (fun _ l' => l_fail_closed l' = l_fail_closed l /\ l_allowlist l' = l_allowlist l /\ x_socket (l_hook l') = true
       /\ x_trace (l_hook l') = x_trace (l_hook l) /\ x_conns (l_hook l') = x_conns (l_hook l)) l.
Proof using Type.
  apply iwp_bind. unfold write_test_marker_if_set.
  assert (forall l1, l_fail_closed l1 = l_fail_closed l -> l_allowlist l1 = l_allowlist l -> l_hook l1 = l_hook l ->
    iwp (capture_originals ;; cache_daemon_socket_path) (fun _ l' => l_fail_closed l' = l_fail_closed l /\ l_allowlist l' = l_allowlist l
       /\ x_socket (l_hook l') = true /\ x_trace (l_hook l') = x_trace (l_hook l) /\ x_conns (l_hook l') = x_conns (l_hook l)) l1) as H.
  { intros l1 H1 H2 H3. eexists _, _. split; [reflexivity|]. cbn. by rewrite H3. }
  destruct (getenv _) as [p|]; [|by apply iwp_ret, H]. destruct (is_empty _); [by apply iwp_ret, H|].
  destruct (ie_write _ _); [|by apply iwp_ret, H]. eexists _, _. split; [reflexivity|]. by apply H.
Qed.

End Constructor.

Lemma constructor_spec `{IE : InitEnv, XE : XEnv, HF : HookFs, TF : TrustFs, CR : Crypto, SNC : SnapshotCodec} (l0 : Library) :
  fresh l0 ->
  iwp guard_hook_init (fun _ l => l_scrub_active l = true /\ x_socket (l_hook l) = true
    /\ x_trace (l_hook l) = x_trace (l_hook l0) /\ x_conns (l_hook l) <= S (x_conns (l_hook l0))
    /\ (l_fail_closed l = false <-> exists s, checks_pass s)
    /\ l_allowlist l = match load_from_env with Ok s => Some (ld_entries s) | Err _ => None end) l0.
Proof.
  intros [Hf Ha]. unfold guard_hook_init.
  assert (forall l1 Q, iwp (load_rules ;; check_library ;; report_loaded ;; probe_if_open ;; activate_scrub) Q l1 ->
    forall l, iwp (write_test_marker_if_set ;; capture_originals ;; cache_daemon_socket_path) (fun _ l' => l' = l1) l ->
    iwp (write_test_marker_if_set ;; capture_originals ;; cache_daemon_socket_path ;; load_rules ;; check_library ;; report_loaded ;;
         probe_if_open ;; activate_scrub) Q l) as Hseq.
  { intros l1 Q HQ l (a & l2 & E & ->). destruct HQ as (b & l3 & E3 & HQ). exists b, l3. split; [|done]. revert E.
    unfold mbind, im_bind in *. destruct (write_test_marker_if_set l) as [[[] m1]|]; [|done].
    destruct (capture_originals m1) as [[[] m2]|]; [|done]. intros ->. exact E3. }
  destruct (start_runs l0) as ([] & l1 & E1 & F1 & A1 & S1 & T1 & C1).
  apply (Hseq l1); [|by exists tt, l1]. clear Hseq E1.
  apply iwp_bind. eapply iwp_mono; [apply load_rules_runs; split; congruence|]. intros _ l2 (S2 & T2 & C2 & L2).
  apply iwp_bind. eapply iwp_mono; [apply check_library_runs|]. intros _ l3 (S3 & T3 & C3 & A3 & F3).
  apply iwp_bind. eapply iwp_mono; [apply report_loaded_runs|]. intros _ l4 ([F4 A4 S4 T4 _] & C4 & _).
  apply iwp_bind. eapply iwp_mono; [apply probe_if_open_runs|]. intros _ l5 (A5 & S5 & T5 & C5 & F5).
  eexists _, _. split; [reflexivity|]. cbn [l_scrub_active l_hook l_fail_closed l_allowlist].
  split; [done|]. split; [congruence|]. split; [congruence|]. split; [lia|].
  rewrite A5, A4, A3, F5, F4, F3. unfold checks_pass. destruct load_from_env as [s|e]; destruct L2 as [-> ->]; (split; [|done]).
  - split; [intros [[_ ?] ?]; by exists s|by intros (s' & [= ->] & ? & ?)].
  - split; [by intros [[? _] _]|by intros (s' & ? & _)].
Qed.

(** C6: the constructor fails closed.  It always returns, starts no process and asks the
    daemon at most once; from then on the replaced [getenv] gives none of the four
    variables of the library, whatever the environment.  The interposers find rules to
    decide with exactly when every check has passed: the snapshot of the environment was
    loaded; if there is a file for the digest of the installed library, it holds 64
    characters that are the SHA-256 digest of the file that was loaded, which is no link;
    and on Darwin the linker resolves the three probed functions to the replacements.
    Then they find the rules of that snapshot.  Without the digest file the library itself
    is not checked. *)
Theorem constructor_fails_closed `{IE : InitEnv, XE : XEnv, HF : HookFs, TF : TrustFs, CR : Crypto, SNC : SnapshotCodec} (l0 : Library) :
  fresh l0 ->
  exists l, guard_hook_init l0 = Val (tt, l)
  /\ (forall environ name,
        name ∈ ["STT_GUARD_SNAPSHOT_MANIFEST"; "STT_GUARD_STATE_DIR"; "STT_GUARD_TEST_MARKER"; "DYLD_INSERT_LIBRARIES"] ->
        guard_getenv (l_scrub_active l) environ (Some name) = None)
  /\ x_trace (l_hook l) = x_trace (l_hook l0) /\ x_conns (l_hook l) <= S (x_conns (l_hook l0))
  /\ (l_fail_closed l = false <-> exists s, checks_pass s)
  /\ forall rules,
       let h := hook_init (l_fail_closed l) (l_allowlist l) (x_socket (l_hook l)) in
       entries_or_deny h = Some (Some rules, h) <-> exists s, checks_pass s /\ ld_entries s = rules.
Proof.
  intros Hl. destruct (constructor_spec l0 Hl) as ([] & l & E & Hs & _ & Ht & Hc & Hf & Ha).
  exists l. split; [exact E|]. split.
  { intros environ name Hn. unfold guard_getenv, is_hidden_key. rewrite Hs. by rewrite bool_decide_eq_true_2. }
  do 3 (split; [done|]). intros rules. cbv zeta.
  unfold entries_or_deny, gets, mbind, hm_bind, mret, hm_ret. cbn [h_fail_closed hook_init h_allowlist].
  destruct (l_fail_closed l).
  - split; [done|]. intros (s & Hp & _). destruct Hf as [_ Hf]. exfalso. discriminate Hf. by exists s.
  - destruct (proj1 Hf eq_refl) as [s Hp]. rewrite Ha. destruct Hp as [Hload Hp]. rewrite Hload. split.
    + intros [= <-]. by exists s.
    + intros (s' & [Hload' _] & <-). rewrite Hload in Hload'. by injection Hload' as ->.
Qed.

(** ** A concrete start *)

Definition run_init (ours : N) : InitEnv := {|
  ie_os := MacOs; ie_libsystem := true;
  ie_dlsym := fun handle _ => match handle with RtldDefault => ours | _ => 9%N end;
  ie_ours := fun _ => 7%N;
  ie_dladdr := Some "/lib/hook";
  ie_exists := fun p => bool_decide (p = path_join (@well_known_state_dir run_fs) HOOK_HASH_FILENAME);
  ie_write := fun _ _ => false;
  ie_debug_load := fun _ => ""; ie_debug_check := fun _ => "";
|}.

(** The file of the library holds [content]; the digest of the installation is that of
    [HOOK]. *)
Definition library_fs (content : string) : HookFs := {|
  getenv := @getenv run_fs; canonicalize := @canonicalize run_fs; open_nofollow := @open_nofollow run_fs;
  file_is_regular := @file_is_regular run_fs;
  read_to_end := fun p => if bool_decide (p = "/lib/hook") then Ok content else @read_to_end run_fs p;
  mmap := @mmap run_fs;
|}.

Definition library_trust : TrustFs := {|
  symlink_metadata := @symlink_metadata run_trust;
  read_to_string := fun p =>
    if bool_decide (p = path_join (@well_known_state_dir run_fs) HOOK_HASH_FILENAME)
    then Ok (@sha256_hex crypto32 "HOOK" +:+ String LF "") else @read_to_string run_trust p;
|}.

Definition run_start : Library := mkLibrary (mkX false false [] 0 0 0 scan_start []) false None [] [] false.

Definition run_library (active : N) (content : string) : outcome (unit * Library) :=
  @guard_hook_init (run_init active) toy_xenv (library_fs content) library_trust crypto32 toy_codec run_start.

(** The installed library with its replacement active, the same without it, and another
    file in the place of the library. *)
Lemma constructor_fails_closed_witness :
  (exists l, run_library 7 "HOOK" = Val (tt, l) /\ l_fail_closed l = false /\ l_allowlist l = Some (ld_entries run_loaded))
  /\ (exists l, run_library 8 "HOOK" = Val (tt, l) /\ l_fail_closed l = true)
  /\ exists l, run_library 7 "other" = Val (tt, l) /\ l_fail_closed l = true.
Proof.
  split; [|split].
  - destruct (@constructor_fails_closed (run_init 7) toy_xenv (library_fs "HOOK") library_trust crypto32 toy_codec run_start
                (conj eq_refl eq_refl)) as (l & E & _ & _ & _ & Hf & Hr).
    assert (@checks_pass (run_init 7) (library_fs "HOOK") library_trust crypto32 toy_codec run_loaded) as Hp.
    { split; [vm_compute; reflexivity|]. split; [|intros _; repeat constructor]. right.
      exists (@sha256_hex crypto32 "HOOK" +:+ String LF ""), "/lib/hook", "HOOK". repeat split; vm_compute; reflexivity. }
    assert (l_fail_closed l = false) as Hc by (apply Hf; by exists run_loaded).
    exists l. split; [exact E|]. split; [exact Hc|].
    specialize (Hr (ld_entries run_loaded)). cbv zeta in Hr. destruct Hr as [_ Hr].
    specialize (Hr (ex_intro _ run_loaded (conj Hp eq_refl))). unfold entries_or_deny, gets, mbind, hm_bind, mret, hm_ret in Hr.
    cbn [h_fail_closed hook_init h_allowlist] in Hr. rewrite Hc in Hr. by injection Hr.
  - destruct (@constructor_fails_closed (run_init 8) toy_xenv (library_fs "HOOK") library_trust crypto32 toy_codec run_start
                (conj eq_refl eq_refl)) as (l & E & _ & _ & _ & Hf & _).
    exists l. split; [exact E|]. destruct (l_fail_closed l); [done|]. exfalso.
    destruct (proj1 Hf eq_refl) as (s & _ & _ & Hp). specialize (Hp eq_refl). apply Forall_cons in Hp as [Hp _]. vm_compute in Hp. discriminate.
  - destruct (@constructor_fails_closed (run_init 7) toy_xenv (library_fs "other") library_trust crypto32 toy_codec run_start
                (conj eq_refl eq_refl)) as (l & E & _ & _ & _ & Hf & _).
    exists l. split; [exact E|]. destruct (l_fail_closed l); [done|]. exfalso.
    destruct (proj1 Hf eq_refl) as (s & _ & [Hx|(text & path & content & Ht & Hp & _ & Hc & Hd & _)] & _); [by vm_compute in Hx|].
    injection Hp as <-. vm_compute in Hc. injection Hc as <-. vm_compute in Ht. injection Ht as <-. vm_compute in Hd. discriminate.
Defined.

(** The second library has no effect, and yet the daemon was told that it is loaded. *)
Example ineffective_library_reported :
  match run_library 8 "HOOK" with Val (_, l) => (l_fail_closed l, x_conns (l_hook l)) | Panic => (false, 0) end = (true, 1).
Proof. vm_compute. reflexivity. Qed.
