(* ===== verification/OsLayer.v ===== *)
(** * Identities and signatures from the operating system

    [crates/guard-os/src/]: [error.rs], [process.rs], [audit_token.rs], [peer.rs],
    [system.rs], [codesign.rs], [fs_watch.rs], and [crates/guard-ipc/src/transport.rs].
    The files under /proc are text; the answers of the kernel and of the frameworks of
    Darwin are the classes [ProcFs], [Darwin] and [CodeSigning].  Objects that have to be
    released are counted by a trace of their creation and release. *)

From S2P Require Import Prelude RustStr RustUtf8 Policy TrustedSigners Signature Snapshot Paths RuleStore Lockfile EnvFilter ProcessTree Frame.
From S2P Require Import HookNet MachO LogWriter Messages Events Publish HookLoad Watcher Resolve Server.

(** ** error.rs *)

Inductive OsError : Type :=
| OsUnsupported (capability target : string)
| OsIo (capability source : string)
| OsUnexpected (capability detail : string).

Definition show_os_error (e : OsError) : string :=
  match e with
  | OsUnsupported c t => c +:+ " is unsupported on " +:+ t
  | OsIo c s => c +:+ " failed: " +:+ s
  | OsUnexpected c d => c +:+ " returned unexpected data: " +:+ d
  end.

(** transport.rs. *)
Definition transport_error {A} (r : result A OsError) : result A IpcError := map_err (fun e => PeerAuth (show_os_error e)) r.

(** ** Words and numbers of a text file *)

Definition drop_word (s : string) : string := let t := trim_start s in str_drop (String.length (take_word t)) t.

(** [split_whitespace().nth(n)]. *)
Fixpoint nth_word (n : nat) (s : string) : option string :=
  match n with
  | O => first_word s
  | S n => match first_word s with Some _ => nth_word n (drop_word s) | None => None end
  end.

(** What follows the last [") "], by [rfind]. *)
Fixpoint after_comm (s : string) : option string :=
  match s with
  | EmptyString => None
  | String a s' =>
      match after_comm s' with
      | Some r => Some r
      | None =>
          if bool_decide (a = ")"%char)
          then match s' with String b r => if bool_decide (b = " "%char) then Some r else None | EmptyString => None end
          else None
      end
  end.

Definition TOO_LARGE : string := "number too large to fit in target type".
Definition NO_DIGIT : string := "invalid digit found in string".

(** [str::parse::<u64>]. *)
Fixpoint parse_u64_go (s : string) (acc : N) : result N string :=
  match s with
  | EmptyString => Ok acc
  | String a s' =>
      match digit_val a with
      | None => Err NO_DIGIT
      | Some d => if bool_decide (acc * 10 + d < 2 ^ 64)%N then parse_u64_go s' (acc * 10 + d)%N else Err TOO_LARGE
      end
  end.

Definition parse_u64 (s : string) : result N string :=
  match s with
  | EmptyString => Err "cannot parse integer from empty string"
  | String a s' =>
      if bool_decide (a = "+"%char) then if is_empty s' then Err NO_DIGIT else parse_u64_go s' 0 else parse_u64_go s 0
  end.

(** ** Linux *)

Class ProcFs : Type := {
  (** The bytes of a file, or the text of the error. *)
  proc_read : string -> result string string;
  proc_exe : Z -> option string;
}.

Definition read_proc `{ProcFs} (path : string) : result string string :=
  let? bytes := proc_read path in
  if utf8_valid bytes then Ok bytes else Err "stream did not contain valid UTF-8".

Definition parse_first_status_id (rest capability : string) : result N OsError :=
  let? first := ok_or (first_word rest) (OsUnexpected capability "status id line has no numeric fields") in
  map_err (fun e => OsUnexpected capability ("invalid id " +:+ first +:+ ": " +:+ e)) (parse_u32 first).

Record ProcessStatusIds : Type := mkIds { ids_uid : N; ids_gid : N }.

(** The loop over the lines: a later line replaces an earlier one. *)
Fixpoint status_ids (ls : list string) (uid gid : option N) : result (option N * option N) OsError :=
  match ls with
  | [] => Ok (uid, gid)
  | line :: rest =>
      match strip_prefix "Uid:" line with
      | Some r => let? u := parse_first_status_id r "process uid" in status_ids rest (Some u) gid
      | None =>
          match strip_prefix "Gid:" line with
          | Some r => let? g := parse_first_status_id r "process gid" in status_ids rest uid (Some g)
          | None => status_ids rest uid gid
          end
      end
  end.

Definition parse_proc_status_ids (status : string) : result ProcessStatusIds OsError :=
  let? ids := status_ids (lines status) None None in
  match ids with
  | (Some uid, Some gid) => Ok (mkIds uid gid)
  | _ => Err (OsUnexpected "process status" "missing Uid or Gid line")
  end.

Definition parse_proc_stat_starttime (stat : string) : result N OsError :=
  let? fields := ok_or (after_comm stat) (OsUnexpected "process starttime" "missing comm terminator") in
  let? starttime := ok_or (nth_word 19 fields) (OsUnexpected "process starttime" "stat has fewer than 22 fields") in
  map_err (fun e => OsUnexpected "process starttime" ("invalid starttime " +:+ starttime +:+ ": " +:+ e)) (parse_u64 starttime).

(** The halves of the number, combined. *)
Definition starttime_ticks_to_pidversion (ticks : N) : N := N.lxor (ticks mod 2 ^ 32) (ticks / 2 ^ 32).

Definition pid_text (pid : Z) : string := pretty pid.

(** The peer of a socket, [SO_PEERCRED]: the credentials and the length. *)
Record Ucred : Type := mkUcred { cr_pid : Z; cr_uid : N; cr_gid : N }.
Definition UCRED_SIZE : N := 12.

Section Linux.
Context `{PF : ProcFs}.

Definition process_starttime_ticks (pid : Z) : result N OsError :=
  let? stat := map_err (OsIo "process starttime") (read_proc ("/proc/" +:+ pid_text pid +:+ "/stat")) in
  parse_proc_stat_starttime stat.

Definition process_status_ids (pid : Z) : result ProcessStatusIds OsError :=
  let? status := map_err (OsIo "process status") (read_proc ("/proc/" +:+ pid_text pid +:+ "/status")) in
  parse_proc_status_ids status.

Definition linux_process_uid (pid : Z) : result N OsError := let? ids := process_status_ids pid in Ok (ids_uid ids).
Definition linux_process_gid (pid : Z) : result N OsError := let? ids := process_status_ids pid in Ok (ids_gid ids).

Definition linux_kernel_pidversion (pid : Z) : option N :=
  match process_starttime_ticks pid with Ok t => Some (starttime_ticks_to_pidversion t) | Err _ => None end.

Definition linux_process_path (pid : Z) : option string := from_utf8_lossy <$> proc_exe pid.

Definition u32_try_from (v : Z) : option N := if bool_decide (0 <= v < 4294967296)%Z then Some (Z.to_N v) else None.

Definition linux_token (uid gid pid pidversion : N) : AuditToken := mkToken 0 uid gid uid gid pid 0 pidversion.

Definition linux_audit_token_for_pid (pid : Z) : result AuditToken OsError :=
  if bool_decide (pid <= 0)%Z then Err (OsUnexpected "process audit token" ("invalid pid " +:+ pid_text pid))
  else
    let? uid := linux_process_uid pid in
    let? gid := linux_process_gid pid in
    let? starttime := process_starttime_ticks pid in
    let pidversion := starttime_ticks_to_pidversion starttime in
    let? p := ok_or (u32_try_from pid) (OsUnexpected "process audit token" ("invalid pid " +:+ pid_text pid)) in
    Ok (linux_token uid gid p pidversion).

Definition linux_peer_audit_token (peercred : result (Ucred * N) string) : result AuditToken OsError :=
  let? cl := map_err (OsIo "peer credentials") peercred in
  let '(cred, len) := cl in
  if negb (bool_decide (len = UCRED_SIZE))
  then Err (OsUnexpected "peer credentials" ("SO_PEERCRED returned unexpected length " +:+ pretty len))
  else if bool_decide (cr_pid cred <= 0)%Z
  then Err (OsUnexpected "peer credentials" ("SO_PEERCRED returned invalid pid " +:+ pid_text (cr_pid cred)))
  else
    let? starttime := process_starttime_ticks (cr_pid cred) in
    let pidversion := starttime_ticks_to_pidversion starttime in
    let? p := ok_or (u32_try_from (cr_pid cred))
                (OsUnexpected "peer credentials" ("SO_PEERCRED returned invalid pid " +:+ pid_text (cr_pid cred))) in
    Ok (linux_token (cr_uid cred) (cr_gid cred) p pidversion).

(** [peer_identity]. *)
Definition linux_peer_identity (peercred : result (Ucred * N) string) : result ProcessIdentity OsError :=
  let? token := linux_peer_audit_token peercred in Ok (Verified token).

End Linux.

(** ** What the kernel writes is read back *)

Definition plain_char (a : ascii) : bool := byte_in 33 126 a && negb (bool_decide (a = ")"%char)).
Definition plain (f : string) : Prop := f <> "" /\ str_forallb plain_char f = true.

Lemma plain_char_no_ws (a : ascii) : plain_char a = true ->
  ws1 a = false /\ (forall b, ws2 a b = false) /\ forall b c, ws3 a b c = false.
Proof.
  unfold plain_char. intros [H _]%andb_true_iff. unfold byte_in in H.
  apply andb_true_iff in H as [H1%bool_decide_eq_true H2%bool_decide_eq_true].
  unfold ws1, ws2, ws3, byte_in. split; [|split].
  - rewrite (bool_decide_eq_false_2 (byte_val a <= 13)%N), andb_false_r by lia. cbn [orb].
    apply bool_decide_eq_false. intros ->. vm_compute in H1. by apply H1.
  - intros b. by rewrite (bool_decide_eq_false_2 (byte_val a = 194%N)) by lia.
  - intros b c. rewrite (bool_decide_eq_false_2 (byte_val a = 225%N)), !(bool_decide_eq_false_2 (byte_val a = 226%N)),
      (bool_decide_eq_false_2 (byte_val a = 227%N)) by lia. done.
Qed.

(** The end of the text or white space. *)
Definition ends_word (rest : string) : Prop := rest = "" \/ exists a r, rest = String a r /\ ws1 a = true.

Lemma take_word_plain (f rest : string) : str_forallb plain_char f = true -> ends_word rest -> take_word (f +:+ rest) = f.
Proof.
  intros Hf Hr. induction f as [|a f IH].
  - rewrite app_nil_l_str. destruct Hr as [->|(a & r & -> & Ha)]; [done|]. cbn [take_word]. by rewrite Ha.
  - cbn [str_forallb] in Hf. apply andb_true_iff in Hf as [Ha Hf]. specialize (IH Hf).
    destruct (plain_char_no_ws a Ha) as (H1 & H2 & H3). rewrite app_cons_str. cbn [take_word]. rewrite H1.
    destruct (f +:+ rest) as [|b s2] eqn:Hs.
    + destruct f; [done|]. by rewrite app_cons_str in Hs.
    + rewrite H2. rewrite IH. destruct s2; [done|by rewrite H3].
Qed.

Lemma trim_start_field (f rest : string) : plain f -> trim_start (f +:+ rest) = f +:+ rest.
Proof.
  intros [Hne Hf]. destruct f as [|a f]; [done|]. cbn [str_forallb] in Hf. apply andb_true_iff in Hf as [Ha _].
  destruct (plain_char_no_ws a Ha) as (H1 & H2 & H3). rewrite app_cons_str. cbn [trim_start]. rewrite H1.
  destruct (f +:+ rest) as [|b s2]; [done|]. rewrite H2. destruct s2; [done|by rewrite H3].
Qed.

Lemma first_word_plain (f rest : string) : plain f -> ends_word rest -> first_word (f +:+ rest) = Some f.
Proof.
  intros Hf Hr. unfold first_word. rewrite trim_start_field by done. rewrite take_word_plain by (apply Hf || done).
  destruct Hf as [Hne _]. by destruct f.
Qed.

Lemma drop_word_plain (f rest : string) : plain f -> ends_word rest -> drop_word (f +:+ rest) = rest.
Proof.
  intros Hf Hr. unfold drop_word. rewrite trim_start_field by done. rewrite take_word_plain by (apply Hf || done).
  apply str_drop_app.
Qed.

(** Fields after a space each, and what ends the text. *)
Fixpoint spaced (fields : list string) (tail : string) : string :=
  match fields with [] => tail | f :: rest => String " " (f +:+ spaced rest tail) end.

Lemma spaced_ends (fields : list string) (tail : string) : ends_word tail -> ends_word (spaced fields tail).
Proof. intros Ht. destruct fields; [done|right]. by eexists _, _. Qed.

Lemma nth_word_space (n : nat) (a : ascii) (s : string) : ws1 a = true -> nth_word n (String a s) = nth_word n s.
Proof.
  intros Ha. assert (trim_start (String a s) = trim_start s) as Ht by (cbn [trim_start]; by rewrite Ha).
  destruct n as [|n]; cbn [nth_word]; unfold first_word, drop_word; by rewrite Ht.
Qed.

Lemma nth_word_spaced (fields : list string) (tail : string) (n : nat) (f : string) :
  Forall plain fields -> ends_word tail -> fields !! n = Some f -> nth_word n (spaced fields tail) = Some f.
Proof.
  intros Hp Ht. revert n. induction Hp as [|g fields Hg _ IH]; intros n Hn; [done|]. cbn [spaced]. rewrite nth_word_space by done.
  destruct n as [|n]; cbn [nth_word]; rewrite first_word_plain by (done || by apply spaced_ends).
  - by injection Hn as ->.
  - rewrite drop_word_plain by (done || by apply spaced_ends). by apply IH.
Qed.

Lemma after_comm_none (s : string) : no_char ")" s = true -> after_comm s = None.
Proof.
  induction s as [|a s IH]; [done|]. rewrite no_char_cons. intros [Ha Hs]. cbn [after_comm]. rewrite IH by done.
  by rewrite bool_decide_eq_false_2.
Qed.

(** Whatever comes before: the last closing parenthesis counts. *)
Lemma after_comm_last (s rest : string) : no_char ")" rest = true -> after_comm (s +:+ String ")" (String " " rest)) = Some rest.
Proof.
  intros Hr. induction s as [|a s IH].
  - rewrite app_nil_l_str. cbn [after_comm]. by rewrite after_comm_none.
  - rewrite app_cons_str. cbn [after_comm]. by rewrite IH.
Qed.

Lemma digits_ge (s : string) (acc z : Z) : (0 <= acc)%Z -> digits_go s acc = Some z -> (acc <= z)%Z.
Proof.
  revert acc. induction s as [|a s IH]; intros acc Ha; cbn [digits_go]; [by intros [= ->]|].
  destruct (digit_val a) as [d|]; [|done]. intros H. apply IH in H; lia.
Qed.

Lemma parse_u64_digits (s : string) (acc : N) (z : Z) :
  digits_go s (Z.of_N acc) = Some z -> (z < 2 ^ 64)%Z -> parse_u64_go s acc = Ok (Z.to_N z).
Proof.
  revert acc. induction s as [|a s IH]; intros acc; cbn [digits_go parse_u64_go]; [intros [= <-] _; by rewrite N2Z.id|].
  destruct (digit_val a) as [d|]; [|done]. intros H Hz. pose proof H as Hge. apply digits_ge in Hge; [|lia].
  rewrite bool_decide_eq_true_2 by lia. apply IH; [|done]. rewrite <- H. f_equal. lia.
Qed.

Lemma parse_u64_pretty (n : N) : (n < 2 ^ 64)%N -> parse_u64 (pretty n) = Ok n.
Proof.
  intros Hn. destruct (pretty_N_head n) as (a & r & Hp & Hd). unfold parse_u64. rewrite Hp.
  rewrite bool_decide_eq_false_2 by (intros ->; by destruct Hd). rewrite <- Hp.
  rewrite (parse_u64_digits _ _ (Z.of_N n)); [by rewrite N2Z.id|apply digits_go_pretty|lia].
Qed.

Lemma parse_u32_digits (s : string) (acc : N) (z : Z) :
  digits_go s (Z.of_N acc) = Some z -> (z < 2 ^ 32)%Z -> parse_u32_go s acc = Ok (Z.to_N z).
Proof.
  revert acc. induction s as [|a s IH]; intros acc; cbn [digits_go parse_u32_go]; [intros [= <-] _; by rewrite N2Z.id|].
  destruct (digit_val a) as [d|]; [|done]. intros H Hz. pose proof H as Hge. apply digits_ge in Hge; [|lia].
  rewrite bool_decide_eq_true_2 by lia. apply IH; [|done]. rewrite <- H. f_equal. lia.
Qed.

Lemma parse_u32_pretty (n : N) : (n < 2 ^ 32)%N -> parse_u32 (pretty n) = Ok n.
Proof.
  intros Hn. destruct (pretty_N_head n) as (a & r & Hp & Hd). unfold parse_u32. rewrite Hp.
  rewrite bool_decide_eq_false_2 by (intros ->; by destruct Hd). rewrite <- Hp.
  rewrite (parse_u32_digits _ _ (Z.of_N n)); [by rewrite N2Z.id|apply digits_go_pretty|lia].
Qed.

(** ** The identity of a process of Linux *)

Lemma digit_plain (a : ascii) : is_Some (digit_val a) -> plain_char a = true.
Proof. intros [d Hd]. revert Hd. destruct a as [[] [] [] [] [] [] [] []]; vm_compute; congruence. Qed.

Lemma pretty_plain (n : N) : plain (pretty n).
Proof.
  split; [destruct (pretty_N_head n) as (a & r & -> & _); done|].
  pose proof (digits_go_pretty n) as Hd. revert Hd. generalize 0%Z. generalize (Z.of_N n).
  induction (pretty n) as [|a s IH]; intros z acc Hd; [done|]. cbn [digits_go] in Hd.
  destruct (digit_val a) as [d|] eqn:Ha; [|done]. cbn [str_forallb]. rewrite digit_plain by eauto. by eapply IH.
Qed.

Lemma lxor_bound (a b k : N) : (a < 2 ^ k)%N -> (b < 2 ^ k)%N -> (N.lxor a b < 2 ^ k)%N.
Proof.
  intros Ha Hb. rewrite <- (N.mod_small a (2 ^ k)), <- (N.mod_small b (2 ^ k)) by done.
  assert (N.lxor (a mod 2 ^ k) (b mod 2 ^ k) = N.lxor (a mod 2 ^ k) (b mod 2 ^ k) mod 2 ^ k)%N as ->; [|apply N.mod_lt; lia].
  apply N.bits_inj. intros i. destruct (decide (i < k)%N).
  - by rewrite N.mod_pow2_bits_low.
  - rewrite N.mod_pow2_bits_high, N.lxor_spec, !N.mod_pow2_bits_high by lia. done.
Qed.

Lemma pidversion_bound (t : N) : (t < 2 ^ 64)%N -> (starttime_ticks_to_pidversion t < 2 ^ 32)%N.
Proof.
  intros Ht. apply lxor_bound; [apply N.mod_lt; lia|]. apply N.Div0.div_lt_upper_bound; lia.
Qed.

(** A line of no interest. *)
Definition other_line (l : string) : Prop := clean l /\ strip_prefix "Uid:" l = None /\ strip_prefix "Gid:" l = None.
Definition id_line (label : string) (id : N) (rest : string) : string := label +:+ String TAB (pretty id +:+ rest).

(** The two files as Linux writes them: the name of the command may be anything, the
    twentieth field after it is the time of the start; the first of the identifiers of a
    line is the real one.  Both have the name, and so both or neither are UTF-8. *)
Record linux_process `{ProcFs} (pid : Z) (uid gid starttime : N) (is_text : bool) : Prop := {
  lp_ranges : (0 < pid < 2 ^ 31)%Z /\ (uid < 2 ^ 32)%N /\ (gid < 2 ^ 32)%N /\ (starttime < 2 ^ 64)%N;
  lp_stat : exists comm first fields,
    let text := pretty pid +:+ " (" +:+ comm +:+ String ")" (spaced (first :: fields) nl) in
    proc_read ("/proc/" +:+ pretty pid +:+ "/stat") = Ok text /\ utf8_valid text = is_text
    /\ Forall plain (first :: fields) /\ (first :: fields) !! 19 = Some (pretty starttime);
  lp_status : exists pre mid post uids gids,
    let text := unlines (pre ++ [id_line "Uid:" uid uids] ++ mid ++ [id_line "Gid:" gid gids] ++ post) in
    proc_read ("/proc/" +:+ pretty pid +:+ "/status") = Ok text /\ utf8_valid text = is_text
    /\ Forall other_line (pre ++ mid ++ post) /\ Forall (fun r => ends_word r /\ clean r) [uids; gids];
}.

Lemma status_ids_skip (ls rest : list string) (u g : option N) :
  Forall other_line ls -> status_ids (ls ++ rest) u g = status_ids rest u g.
Proof. induction 1 as [|l ls (_ & Hu & Hg) _ IH]; [done|]. cbn [app status_ids]. by rewrite Hu, Hg. Qed.

Lemma parse_id (id : N) (rest capability : string) :
  (id < 2 ^ 32)%N -> ends_word rest -> parse_first_status_id (String TAB (pretty id +:+ rest)) capability = Ok id.
Proof.
  intros Hid Hr. unfold parse_first_status_id.
  assert (first_word (String TAB (pretty id +:+ rest)) = Some (pretty id)) as ->.
  { change (first_word (pretty id +:+ rest) = Some (pretty id)). apply first_word_plain; [apply pretty_plain|done]. }
  cbn [ok_or]. by rewrite parse_u32_pretty.
Qed.

Lemma no_char_spaced (fields : list string) (tail : string) :
  Forall plain fields -> no_char ")" tail = true -> no_char ")" (spaced fields tail) = true.
Proof.
  intros Hf Ht. induction Hf as [|f fields [_ Hf] _ IH]; [done|]. cbn [spaced]. apply no_char_cons. split; [done|].
  unfold no_char in *. rewrite str_forallb_app. apply andb_true_iff. split; [|done].
  clear IH Ht. induction f as [|a f IHf]; [done|]. cbn [str_forallb] in *. apply andb_true_iff in Hf as [Ha Hf].
  unfold plain_char in Ha. apply andb_true_iff in Ha as [_ Ha]. apply andb_true_iff. split; [done|by apply IHf].
Qed.

Section LinuxIdentity.
Context `{PF : ProcFs} (pid : Z) (uid gid starttime : N) (LP : linux_process pid uid gid starttime true).

Lemma starttime_read : process_starttime_ticks pid = Ok starttime.
Proof using LP.
  destruct LP as [(_ & _ & _ & Hs) (comm & first & fields & Hr & Hu & Hf & Hn) _]. unfold process_starttime_ticks, read_proc, pid_text.
  rewrite Hr, Hu. cbn [map_err]. unfold parse_proc_stat_starttime.
  replace (pretty pid +:+ " (" +:+ comm +:+ String ")" (spaced (first :: fields) nl))
    with ((pretty pid +:+ " (" +:+ comm) +:+ String ")" (String " " (first +:+ spaced fields nl))) by (by rewrite !app_assoc_str).
  pose proof (no_char_spaced _ nl Hf eq_refl) as Hnc. cbn [spaced] in Hnc. apply no_char_cons in Hnc as [_ Hnc].
  rewrite after_comm_last by done. cbn [ok_or].
  assert (nth_word 19 (first +:+ spaced fields nl) = Some (pretty starttime)) as ->.
  { rewrite <- (nth_word_space 19 " ") by done. apply (nth_word_spaced (first :: fields)); [done| |done]. right. by eexists _, _. }
  cbn [ok_or]. by rewrite parse_u64_pretty.
Qed.

Lemma ids_read : process_status_ids pid = Ok (mkIds uid gid).
Proof using LP.
  destruct LP as [(_ & Hu & Hg & _) _ (pre & mid & post & uids & gids & Hr & Hv & Ho & Hrest)].
  unfold process_status_ids, read_proc, pid_text. rewrite Hr, Hv. cbn [map_err]. unfold parse_proc_status_ids.
  apply Forall_app in Ho as [Hpre Ho]. apply Forall_app in Ho as [Hmid Hpost].
  apply Forall_cons in Hrest as [[Hu1 Hu2] Hrest]. apply Forall_cons in Hrest as [[Hg1 Hg2] _].
  assert (forall label id rest, clean label -> clean rest -> clean (id_line label id rest)) as Hid.
  { intros label id rest Hl Hre. unfold id_line. apply clean_app; [done|]. change (String TAB (pretty id +:+ rest)) with (String TAB "" +:+ (pretty id +:+ rest)).
    apply clean_app; [done|]. apply clean_app; [apply clean_pretty_N|done]. }
  rewrite lines_unlines.
  2: { rewrite !Forall_app. split_and!; try (eapply Forall_impl; [eassumption|]; by intros l []); (constructor; [|done]); by apply Hid. }
  rewrite status_ids_skip by done. cbn [app status_ids]. unfold id_line at 1.
  rewrite (proj2 (strip_prefix_Some _ _ _) eq_refl), parse_id by done.
  rewrite status_ids_skip by done. cbn [status_ids].
  assert (strip_prefix "Uid:" (id_line "Gid:" gid gids) = None) as -> by done. unfold id_line.
  rewrite (proj2 (strip_prefix_Some _ _ _) eq_refl), parse_id by done.
  rewrite <- (app_nil_r post), status_ids_skip by done. done.
Qed.

Lemma token_read :
  linux_audit_token_for_pid pid = Ok (linux_token uid gid (Z.to_N pid) (starttime_ticks_to_pidversion starttime)).
Proof using LP.
  unfold linux_audit_token_for_pid, linux_process_uid, linux_process_gid. rewrite ids_read, starttime_read.
  destruct (lp_ranges _ _ _ _ _ LP) as (Hp & _). rewrite bool_decide_eq_false_2 by lia. unfold u32_try_from.
  by rewrite bool_decide_eq_true_2 by lia.
Qed.

Lemma peer_read (euid egid : N) :
  linux_peer_audit_token (Ok (mkUcred pid euid egid, UCRED_SIZE))
  = Ok (linux_token euid egid (Z.to_N pid) (starttime_ticks_to_pidversion starttime)).
Proof using LP.
  unfold linux_peer_audit_token. cbn [map_err cr_pid cr_uid cr_gid]. rewrite starttime_read.
  destruct (lp_ranges _ _ _ _ _ LP) as (Hp & _). rewrite bool_decide_eq_true_2, bool_decide_eq_false_2 by (done || lia). cbn [negb].
  unfold u32_try_from. by rewrite bool_decide_eq_true_2 by lia.
Qed.

End LinuxIdentity.

(** A name that is not UTF-8 hides a process: its connections are refused, and the check
    of the version before a kill passes for lack of one. *)
Lemma foreign_name_unidentified `{ProcFs} (pid : Z) (cred : Ucred) (text : string) :
  proc_read ("/proc/" +:+ pretty pid +:+ "/stat") = Ok text -> utf8_valid text = false -> cr_pid cred = pid -> (0 < pid)%Z ->
  linux_kernel_pidversion pid = None /\ is_ok (linux_peer_audit_token (Ok (cred, UCRED_SIZE))) = false.
Proof.
  intros Hr Hu Hp Hpos. assert (process_starttime_ticks pid = Err (OsIo "process starttime" "stream did not contain valid UTF-8")) as E
    by (unfold process_starttime_ticks, read_proc, pid_text; by rewrite Hr, Hu).
  unfold linux_kernel_pidversion, linux_peer_audit_token. cbn [map_err]. rewrite Hp, E. split; [done|].
  rewrite bool_decide_eq_true_2, bool_decide_eq_false_2 by (done || lia). done.
Qed.

(** C20: on Linux a process has one identity, or none.  When the text of its files is
    UTF-8, the token the command line registers for it and the version the daemon asks the
    kernel for are read from the same twenty-second field of its stat file, whatever
    blanks and parentheses the name of the command has; the version fits its 32 bits; and
    the token of the peer, when the process connects, is the registered one exactly when
    the process runs under its real identifiers.  Under a name that is not UTF-8 there is
    no token to register, no version, and the connection has no token. *)
Theorem linux_identity_agrees `{ProcFs} (pid : Z) (uid gid starttime euid egid : N) (is_text : bool) :
  linux_process pid uid gid starttime is_text ->
  let v := starttime_ticks_to_pidversion starttime in
  let peer := Ok (mkUcred pid euid egid, UCRED_SIZE) in
  if is_text then
    linux_audit_token_for_pid pid = Ok (linux_token uid gid (Z.to_N pid) v)
    /\ linux_kernel_pidversion pid = Some v /\ (v < 2 ^ 32)%N
    /\ linux_peer_identity peer = Ok (Verified (linux_token euid egid (Z.to_N pid) v))
    /\ (linux_peer_audit_token peer = linux_audit_token_for_pid pid <-> euid = uid /\ egid = gid)
  else
    is_ok (linux_audit_token_for_pid pid) = false /\ linux_kernel_pidversion pid = None
    /\ is_ok (linux_peer_audit_token peer) = false.
Proof.
  intros LP v peer. destruct is_text; subst peer.
  - rewrite (token_read _ _ _ _ LP), (peer_read _ _ _ _ LP). unfold linux_peer_identity, linux_kernel_pidversion.
    rewrite (peer_read _ _ _ _ LP), (starttime_read _ _ _ _ LP). split; [done|]. split; [done|].
    split; [apply pidversion_bound; apply (lp_ranges _ _ _ _ _ LP)|]. split; [done|]. unfold linux_token. split; [by intros [= -> ->]|by intros [-> ->]].
  - destruct LP as [(Hp & _) (comm & first & fields & Hr & Hu & _) (pre & mid & post & uids & gids & Hr' & Hu' & _)].
    destruct (foreign_name_unidentified pid (mkUcred pid euid egid) _ Hr Hu eq_refl ltac:(lia)) as [Hv Ht]. split; [|done].
    unfold linux_audit_token_for_pid, linux_process_uid, process_status_ids, read_proc, pid_text. rewrite Hr', Hu'.
    by rewrite bool_decide_eq_false_2 by lia.
Qed.

(** ** Darwin *)

Record BsdInfo : Type := mkBsdInfo {
  pbi_uid : N; pbi_gid : N; pbi_start_tvsec : N; pbi_start_tvusec : N;
}.
Definition BSDINFO_SIZE : Z := 136.
Definition KERN_SUCCESS : Z := 0.

Class Darwin : Type := {
  (** The code and the port; the code and the token of a port. *)
  task_name_for_pid : Z -> Z * N;
  task_info : N -> Z * AuditToken;
  proc_pidinfo : Z -> Z * BsdInfo;
  (** The length and the buffer of [proc_pidpath]. *)
  proc_pidpath : Z -> Z * string;
  (** [sysctlbyname("kern.osproductversion")]: the code, the length with its NUL, the bytes. *)
  sysctl_version : Z * nat * string;
  (** [csops] of a process: the flags, or the error. *)
  csops : Z -> result N string;
}.

(** Ports held and given back. *)
Inductive PortOp : Type := PortTaken (port : N) | PortReleased (port : N).

Section Mac.
Context `{DW : Darwin}.

(** The token of a process by its port: [None] when a call fails. *)
Definition token_by_port (pid : Z) : option AuditToken * list PortOp :=
  let '(kr, port) := task_name_for_pid pid in
  if bool_decide (kr = KERN_SUCCESS) then
    let '(kr2, token) := task_info port in
    (if bool_decide (kr2 = KERN_SUCCESS) then Some token else None, [PortTaken port; PortReleased port])
  else (None, []).

Definition mac_kernel_pidversion (pid : Z) : option N * list PortOp :=
  let '(token, ops) := token_by_port pid in (val7 <$> token, ops).

Definition u32_of_u64 (v : N) : option N := if bool_decide (v < 4294967296)%N then Some v else None.

Definition audit_token_for_pid_fallback (pid : Z) : result AuditToken OsError :=
  let '(n, info) := proc_pidinfo pid in
  if negb (bool_decide (n = BSDINFO_SIZE))
  then Err (OsUnexpected "process audit token" ("proc_pidinfo(PROC_PIDTBSDINFO, pid=" +:+ pretty pid +:+ ") returned " +:+ pretty n
                                                +:+ ", expected " +:+ pretty BSDINFO_SIZE))
  else
    let? start_seconds := ok_or (u32_of_u64 (pbi_start_tvsec info))
                            (OsUnexpected "process audit token" "proc_pidinfo start seconds do not fit pidversion slot") in
    let? start_microseconds := ok_or (u32_of_u64 (pbi_start_tvusec info))
                                 (OsUnexpected "process audit token" "proc_pidinfo start microseconds do not fit pidversion slot") in
    let? pid_u32 := ok_or (u32_try_from pid) (OsUnexpected "process audit token" ("invalid pid " +:+ pretty pid)) in
    Ok (mkToken 0 (pbi_uid info) (pbi_gid info) 0 0 pid_u32 0 (N.lxor start_seconds start_microseconds)).

Definition mac_audit_token_for_pid (pid : Z) : result AuditToken OsError * list PortOp :=
  let '(token, ops) := token_by_port pid in
  match token with
  | Some t => (Ok t, ops)
  | None => (audit_token_for_pid_fallback pid, ops)
  end.

(** [process_uid], [process_gid]. *)
Definition bsd_info_field (capability : string) (field : BsdInfo -> N) (pid : Z) : result N OsError :=
  let '(n, info) := proc_pidinfo pid in
  if negb (bool_decide (n = BSDINFO_SIZE))
  then Err (OsUnexpected capability ("proc_pidinfo returned " +:+ pretty n +:+ ", expected " +:+ pretty BSDINFO_SIZE))
  else Ok (field info).
Definition mac_process_uid (pid : Z) : result N OsError := bsd_info_field "process uid" pbi_uid pid.
Definition mac_process_gid (pid : Z) : result N OsError := bsd_info_field "process gid" pbi_gid pid.

Definition mac_process_path (pid : Z) : option string :=
  let '(n, buf) := proc_pidpath pid in
  if bool_decide (0 < n)%Z then Some (from_utf8_lossy (str_take (Z.to_nat n) buf)) else None.

Definition TOKEN_SIZE : N := 32.

Definition mac_peer_audit_token (peertoken : result (AuditToken * N) string) : result AuditToken OsError :=
  let? tl := map_err (OsIo "peer audit token") peertoken in
  let '(tok, len) := tl in
  if negb (bool_decide (len = TOKEN_SIZE))
  then Err (OsUnexpected "peer audit token" ("LOCAL_PEERTOKEN returned unexpected length " +:+ pretty len))
  else Ok tok.

(** system.rs *)
Definition detect_macos_major (os : Os) : N :=
  match os with
  | Linux => 14%N
  | MacOs =>
      let '(rc, len, buf) := sysctl_version in
      if negb (bool_decide (rc = 0%Z)) || bool_decide (len = 0) then 14%N
      else
        let s := str_take (len - 1) buf in
        let major := match split_once "." s with Some (before, _) => before | None => s end in
        let major_str := if utf8_valid major then major else "14" in
        unwrap_or (parse_u32 major_str) 14%N
  end.

(** codesign.rs *)
Definition CS_HARD : N := 0x100.
Definition CS_RESTRICT : N := 0x800.
Definition CS_REQUIRE_LV : N := 0x2000.
Definition CS_RUNTIME : N := 0x10000.

Definition has_hardened_bits (flags : N) : bool :=
  negb (bool_decide (N.land flags CS_RESTRICT = 0%N)) || negb (bool_decide (N.land flags CS_RUNTIME = 0%N))
  || negb (bool_decide (N.land flags CS_HARD = 0%N)) || negb (bool_decide (N.land flags CS_REQUIRE_LV = 0%N)).

Definition csops_status (os : Os) (pid : Z) : result N OsError :=
  match os with
  | MacOs => map_err (OsIo "csops status") (csops pid)
  | Linux => Err (OsUnsupported "csops status" "linux")
  end.

Definition process_is_hardened (os : Os) (pid : Z) : bool :=
  match csops_status os pid with Ok flags => has_hardened_bits flags | Err _ => false end.

End Mac.

(** ** codesign.rs: the signature of a peer *)

Inductive CfOp : Type := CfCreated (object : N) | CfReleased (object : N).

(** The objects the frameworks create, [None] for null, and the answers of Security. *)
Class CodeSigning : Type := {
  cf_string_create : option N;
  cf_data_create : AuditToken -> option N;
  cf_dictionary_create : option N;
  sec_code_copy_guest : Z * option N;
  sec_code_check_validity : N -> Z;
}.
Definition ERR_SEC_SUCCESS : Z := 0.

(** A created object is released at the end of the scope of its guard. *)
Definition guarded {A} (object : N) (body : A * list CfOp) : A * list CfOp :=
  (body.1, [CfCreated object] ++ body.2 ++ [CfReleased object]).

Definition verify_peer_signature `{CodeSigning} (os : Os) (token : AuditToken) : CodesignVerdict * list CfOp :=
  match os with
  | Linux => (CsUnsupported, [])
  | MacOs =>
      match cf_string_create with
      | None => (CsCfError "CFStringCreateWithCString failed", [])
      | Some key =>
          guarded key
            match cf_data_create token with
            | None => (CsCfError "CFDataCreate failed", [])
            | Some token_data =>
                guarded token_data
                  match cf_dictionary_create with
                  | None => (CsCfError "CFDictionaryCreate failed", [])
                  | Some dict =>
                      guarded dict
                        match sec_code_copy_guest with
                        | (status, guest) =>
                            match guest with
                            | Some code_ref =>
                                if negb (bool_decide (status = ERR_SEC_SUCCESS)) then (CsLookupFailed status, [])
                                else guarded code_ref
                                       (let check := sec_code_check_validity code_ref in
                                        if bool_decide (check = ERR_SEC_SUCCESS) then (CsValid, []) else (CsInvalid check, []))
                            | None => (CsLookupFailed status, [])
                            end
                        end
                  end
            end
      end
  end.

Definition show_codesign_verdict (v : CodesignVerdict) : string :=
  match v with
  | CsValid => "valid"
  | CsInvalid s => "invalid (OSStatus " +:+ pretty s +:+ ")"
  | CsLookupFailed s => "lookup failed (OSStatus " +:+ pretty s +:+ ")"
  | CsCfError msg => "CF error: " +:+ msg
  | CsUnsupported => "unsupported"
  end.

(** ** fs_watch.rs *)

Class Kqueue : Type := {
  kq_new : result Z string;
  (** [kevent] with a list of changes, on Darwin. *)
  kq_add : list Z -> result unit string;
  (** [kevent] for events: the count, the identifiers, and the error with its number. *)
  kq_wait : Z -> Z * list Z * (Z * string);
  open_for_events : string -> result Z string;
}.

Definition EINTR : Z := 4.
Definition RAWFD_MAX : Z := 2147483647.

Inductive Watched : Type := WsTimeout | WsFds (fds : list Z).

Section Watch.
Context `{KQ : Kqueue}.

Definition WatchSet_new (os : Os) : result Z OsError :=
  match os with
  | MacOs => map_err (OsIo "filesystem watch") kq_new
  | Linux => Err (OsUnsupported "filesystem watch" "linux")
  end.

Definition watch_ident (fd : Z) : result Z OsError :=
  if bool_decide (fd < 0)%Z then Err (OsUnexpected "filesystem watch add" ("invalid fd " +:+ pretty fd)) else Ok fd.

Definition WatchSet_add (fd : Z) : result unit OsError :=
  let? ident := watch_ident fd in
  map_err (OsIo "filesystem watch add") (kq_add [ident]).

Definition WatchSet_add_many (fds : list Z) : result unit OsError :=
  let? changelist := collect_results (watch_ident <$> fds) in
  match changelist with
  | [] => Ok tt
  | _ =>
      if bool_decide (RAWFD_MAX < Z.of_nat (length changelist))%Z then Err (OsUnexpected "filesystem watch add" "too many descriptors")
      else map_err (OsIo "filesystem watch add") (kq_add changelist)
  end.

Definition WatchSet_wait (timeout_secs : Z) : result Watched OsError :=
  let '(n, idents, (errno, text)) := kq_wait timeout_secs in
  if bool_decide (n < 0)%Z then
    if bool_decide (errno = EINTR) then Ok (WsFds []) else Err (OsIo "filesystem watch wait" text)
  else if bool_decide (n = 0)%Z then Ok WsTimeout
  else
    let? fds := collect_results
                  ((fun ident => if bool_decide (ident <= RAWFD_MAX)%Z then Ok ident
                                 else Err (OsUnexpected "filesystem watch wait" ("event ident does not fit RawFd: " +:+ pretty ident)))
                     <$> take (Z.to_nat n) idents) in
    Ok (WsFds fds).

Definition open_dir_for_events (os : Os) (path : string) : result Z OsError :=
  match os with
  | Linux => Err (OsUnsupported "filesystem watch" "linux")
  | MacOs =>
      let c_path := from_utf8_lossy path in
      if no_char (ascii_of_nat 0) c_path then map_err (OsIo "filesystem watch open") (open_for_events c_path)
      else Err (OsUnexpected "filesystem watch path" "nul byte found in provided data")
  end.

(** What the watcher of persistence locations makes of an answer. *)
Definition watch_event (r : result Watched OsError) : WatchEvent :=
  match r with Ok WsTimeout => WatchTimeout | Ok (WsFds fds) => WatchFds fds | Err _ => WatchError end.

End Watch.

(** ** Tokens of Darwin, and what is given back *)

Definition cf_created (ops : list CfOp) : list N := omap (fun o => match o with CfCreated x => Some x | CfReleased _ => None end) ops.
Definition cf_released (ops : list CfOp) : list N := omap (fun o => match o with CfReleased x => Some x | CfCreated _ => None end) ops.

Lemma guarded_balanced {A} (object : N) (body : A * list CfOp) :
  cf_released body.2 = reverse (cf_created body.2) ->
  cf_released (guarded object body).2 = reverse (cf_created (guarded object body).2).
Proof.
  intros H. unfold guarded, cf_created, cf_released in *. cbn [snd]. rewrite !omap_app. cbn [omap list_omap app].
  by rewrite H, app_nil_r, reverse_cons.
Qed.

(** Every object of the frameworks is released once, the last created first, and a
    signature counts as valid exactly when all objects were created, the process was
    found and the check succeeded. *)
Lemma signature_check_balanced `{CodeSigning} (os : Os) (token : AuditToken) :
  let '(v, ops) := verify_peer_signature os token in
  cf_released ops = reverse (cf_created ops)
  /\ (v = CsValid <-> os = MacOs /\ is_Some cf_string_create /\ is_Some (cf_data_create token) /\ is_Some cf_dictionary_create
        /\ exists code, sec_code_copy_guest = (ERR_SEC_SUCCESS, Some code) /\ sec_code_check_validity code = ERR_SEC_SUCCESS).
Proof.
  unfold verify_peer_signature. destruct os; [|split; [done|by split; [|intros [? _]]]].
  destruct cf_string_create as [key|]; [|split; [done|split; [done|by intros (_ & [? ?] & _)]]].
  unfold guarded at 1. split.
  - apply (guarded_balanced key). destruct (cf_data_create token) as [d|]; [|done]. apply guarded_balanced.
    destruct cf_dictionary_create as [dict|]; [|done]. apply guarded_balanced. destruct sec_code_copy_guest as [status [code|]]; [|done].
    destruct (bool_decide _); [|done]. cbn [negb]. apply guarded_balanced. by destruct (bool_decide _).
  - destruct (cf_data_create token) as [d|]; cbn [guarded fst]; [|split; [done|by intros (_ & _ & [? ?] & _)]].
    destruct cf_dictionary_create as [dict|]; cbn [guarded fst]; [|split; [done|by intros (_ & _ & _ & [? ?] & _)]].
    destruct sec_code_copy_guest as [status [code|]]; [|split; [done|by intros (_ & _ & _ & _ & c & ? & _)]].
    destruct (decide (status = ERR_SEC_SUCCESS)) as [->|Hs].
    + rewrite bool_decide_eq_true_2 by done. cbn [negb guarded fst].
      destruct (decide (sec_code_check_validity code = ERR_SEC_SUCCESS)) as [Hv|Hv].
      * rewrite bool_decide_eq_true_2 by done. cbn [fst]. split; [|done]. intros _. split_and!; eauto.
      * rewrite bool_decide_eq_false_2 by done. cbn [fst]. split; [done|]. intros (_ & _ & _ & _ & c & [= <-] & ?). done.
    + rewrite bool_decide_eq_false_2 by done. cbn [negb fst]. split; [done|]. intros (_ & _ & _ & _ & c & [= ? _] & _). done.
Qed.

Section MacTokens.
Context `{DW : Darwin}.

(** A port is given back whenever one was taken. *)
Lemma ports_released (pid : Z) :
  (mac_audit_token_for_pid pid).2 = [] \/ exists port, (mac_audit_token_for_pid pid).2 = [PortTaken port; PortReleased port].
Proof using Type.
  unfold mac_audit_token_for_pid, token_by_port. destruct (task_name_for_pid pid) as [kr port]. case_bool_decide; [|by left].
  destruct (task_info port) as [kr2 token]. right. exists port. by destruct (bool_decide (kr2 = KERN_SUCCESS)).
Qed.

(** Where the port of the process is refused, the token is made up: it has no real user,
    so it is not the token with which a process of a user other than root connects, and a
    run registered under it is not found. *)
Lemma fallback_token_not_kernels (pid : Z) (kernel : AuditToken) :
  (token_by_port pid).1 = None -> val3 kernel <> 0%N -> (mac_audit_token_for_pid pid).1 <> Ok kernel.
Proof using Type.
  intros Hp Hk. unfold mac_audit_token_for_pid. destruct (token_by_port pid) as [t ops]. cbn [fst] in Hp. subst t. cbn [fst].
  unfold audit_token_for_pid_fallback. destruct (proc_pidinfo pid) as [n info]. destruct (negb _); [done|].
  destruct (u32_of_u64 _); cbn [ok_or]; [|done]. destruct (u32_of_u64 _); cbn [ok_or]; [|done].
  destruct (u32_try_from pid); cbn [ok_or]; [|done]. intros [= <-]. by apply Hk.
Qed.

End MacTokens.

(** ** A concrete process *)

Definition odd_stat : string :=
  "7 (sh) R 1 ) S 1 7 7 0 -1 4194560 1 2 3 4 5 6 7 8 20 0 1 0 987654321 20" +:+ nl.

Definition toy_proc : ProcFs := {|
  proc_read := fun path =>
    if bool_decide (path = "/proc/7/stat") then Ok odd_stat
    else if bool_decide (path = "/proc/7/status")
         then Ok (unlines ["Name:" +:+ String TAB "sh) R 1 "; id_line "Uid:" 1000 (String TAB "1000"); id_line "Gid:" 1001 (String TAB "1001")])
         else Err "No such file or directory";
  proc_exe := fun _ => None;
|}.

Lemma linux_identity_agrees_witness :
  @linux_audit_token_for_pid toy_proc 7 = Ok (linux_token 1000 1001 7 987654321)
  /\ @linux_peer_audit_token toy_proc (Ok (mkUcred 7 1000 1001, UCRED_SIZE)) = @linux_audit_token_for_pid toy_proc 7.
Proof.
  destruct (@linux_identity_agrees toy_proc 7 1000 1001 987654321 1000 1001 true) as (H & _ & _ & _ & Hp).
  - constructor.
    + split_and!; vm_compute; congruence.
    + exists "sh) R 1 ", "S", ["1"; "7"; "7"; "0"; "-1"; "4194560"; "1"; "2"; "3"; "4"; "5"; "6"; "7"; "8"; "20"; "0"; "1"; "0"; "987654321"; "20"].
      split; [vm_compute; reflexivity|]. split; [vm_compute; reflexivity|]. split; [|vm_compute; reflexivity].
      repeat constructor; try discriminate.
    + exists ["Name:" +:+ String TAB "sh) R 1 "], [], [], (String TAB "1000"), (String TAB "1001").
      split; [vm_compute; reflexivity|]. split; [vm_compute; reflexivity|].
      split; [repeat constructor; vm_compute; reflexivity|].
      do 2 (apply Forall_cons; split; [split; [right; by eexists _, _|split; vm_compute; reflexivity]|]). by constructor.
  - split; [rewrite H; vm_compute; reflexivity|apply Hp; split; reflexivity].
Defined.
