(* ===== verification/Update.v ===== *)
(** * The update of an installation

    [crates/guard-cli/src/install/update.rs].  The programs it runs (uname, curl, shasum,
    tar and the downloaded installer) are recorded in the order they are run; what each
    answers may depend on all that were run before it, and so may the files it leaves:
    that is the class [UpdateHost].  The state also has the temporary directory, which is
    removed when the value that holds it is dropped, and what is printed. *)

From S2P Require Import Prelude RustStr RustUtf8 Lockfile HardwareSigning CliPrompt.

Definition GITHUB_API_LATEST_RELEASE : string := "https://api.github.com/repos/stentorian-io/guard/releases/latest".
Definition GITHUB_RELEASE_BASE : string := "https://github.com/stentorian-io/guard/releases/download".
Definition CARGO_PKG_VERSION : string := "0.2.0".

Record Invocation : Type := mkRun { iv_program : string; iv_args : list string }.

#[export] Instance Invocation_eq_dec : EqDecision Invocation.
Proof. solve_decision. Defined.

(** [Command::output]: whether the status is a success, and the two streams. *)
Record Output : Type := mkOutput { op_success : bool; op_stdout : string; op_stderr : string }.

(** [Command::status]: a success, or the text of the failure. *)
Inductive ExitStatus : Type := ExitOk | ExitBad (shown : string).

Class UpdateHost : Type := {
  uh_output : list Invocation -> Invocation -> result Output string;
  uh_status : list Invocation -> Invocation -> result ExitStatus string;
  uh_read_to_string : list Invocation -> string -> result string string;
  uh_exists : list Invocation -> string -> bool;
  uh_json : string -> result Value string;
  uh_temp_dir : string;
  uh_process_id : N;
  (** Nanoseconds since 1970, or the text for a clock before. *)
  uh_now : result N string;
  uh_create_dir : option string;
  uh_set_permissions : option string;
}.

Record UpState : Type := mkUp {
  up_ran : list Invocation;
  up_dirs : list string;
  up_out : string;
}.

Definition UM (A : Type) : Type := SM UpState CliError A.

Section Update.
Context `{UH : UpdateHost}.

Definition up_say (line : string) : UM unit := fun st => (mkUp (up_ran st) (up_dirs st) (up_out st +:+ writeln line), Ok tt).
Definition up_ask {A} (f : list Invocation -> A) : UM A := fun st => (st, Ok (f (up_ran st))).

(** A program is run with what was run before it. *)
Definition invoke {A} (answer : list Invocation -> Invocation -> A) (i : Invocation) : UM A := fun st =>
  (mkUp (up_ran st ++ [i]) (up_dirs st) (up_out st), Ok (answer (up_ran st) i)).

Definition run_capture (program : string) (args : list string) : UM string :=
  r ← invoke uh_output (mkRun program args);
  match r : result Output string with
  | Err e => sm_lift (Err (CliOther ("run " +:+ program +:+ ": " +:+ e)))
  | Ok output =>
      if negb (op_success output)
      then sm_lift (Err (CliOther (program +:+ " failed: " +:+ trim (from_utf8_lossy (op_stderr output)))))
      else mret (op_stdout output)
  end.

Definition run_program (program : string) (args : list string) (description : string) : UM unit :=
  r ← invoke uh_status (mkRun program args);
  match r : result ExitStatus string with
  | Err e => sm_lift (Err (CliOther (description +:+ ": " +:+ e)))
  | Ok (ExitBad status) => sm_lift (Err (CliOther (description +:+ " failed with status " +:+ status)))
  | Ok ExitOk => mret tt
  end.

Definition latest_release_tag : UM string :=
  output ← run_capture "curl" ["-fsSL"; GITHUB_API_LATEST_RELEASE];
  sm_lift (let? json := map_err (fun e => CliOther ("parse latest release metadata: " +:+ e)) (uh_json output) in
           ok_or (vget "tag_name" json ≫= as_str) (CliOther "latest release metadata did not include tag_name")).

Definition selected_release (version : option string) : UM string :=
  version ← match version with Some version => mret version | None => latest_release_tag end;
  if is_empty (trim version) then sm_lift (Err (CliOther "release version is empty"))
  else if starts_with version "v" then mret version else mret ("v" +:+ version).

Definition release_target : UM string :=
  os ← run_capture "uname" ["-s"];
  arch ← run_capture "uname" ["-m"];
  let os := trim (from_utf8_lossy os) in
  let arch := trim (from_utf8_lossy arch) in
  sm_lift
    (if bool_decide (os = "Darwin") then
       if bool_decide (arch = "arm64") then Ok "aarch64-apple-darwin"
       else if bool_decide (arch = "x86_64") then Ok "x86_64-apple-darwin"
       else Err (CliOther ("unsupported macOS architecture: " +:+ arch))
     else Err (CliOther ("self-managed updates are currently supported on macOS only, got " +:+ os))).

Definition download_to (url destination : string) : UM unit :=
  run_program "curl" ["-fsSL"; "-o"; destination; url] ("download " +:+ url).

(** The words of a line, one after the other. *)
Definition second_word (line : string) : option string :=
  match first_word line with
  | None => None
  | Some w => first_word (str_drop (String.length w) (trim_start line))
  end.

(** The first line that names the asset. *)
Definition sha_for (asset : string) (checksums : string) : option string :=
  head (omap (fun line =>
    sha ← first_word line;
    name ← second_word line;
    if bool_decide (name = asset) then Some sha else None) (lines checksums)).

Definition expected_sha256 (checksums_path asset : string) : UM string :=
  r ← up_ask (fun ran => uh_read_to_string ran checksums_path);
  match r : result string string with
  | Err e => sm_lift (Err (CliOther ("read " +:+ from_utf8_lossy checksums_path +:+ ": " +:+ e)))
  | Ok checksums => sm_lift (ok_or (sha_for asset checksums) (CliOther ("no checksum found for " +:+ asset)))
  end.

Definition sha256_file (path : string) : UM string :=
  r ← invoke uh_output (mkRun "shasum" ["-a"; "256"; path]);
  match r : result Output string with
  | Err e => sm_lift (Err (CliOther ("run shasum: " +:+ e)))
  | Ok output =>
      if negb (op_success output) then sm_lift (Err (CliOther ("shasum failed: " +:+ trim (from_utf8_lossy (op_stderr output)))))
      else sm_lift (ok_or (first_word (from_utf8_lossy (op_stdout output))) (CliOther "shasum did not print a digest"))
  end.

Definition extract_tarball (tarball_path destination : string) : UM unit :=
  run_program "tar" ["-xzf"; tarball_path; "-C"; destination] ("extract " +:+ from_utf8_lossy tarball_path).

Definition installer_of (cli_path : string) : Invocation := mkRun cli_path ["install-system"; "--yes"].

Definition run_downloaded_system_installer (cli_path : string) : UM unit :=
  there ← up_ask (fun ran => uh_exists ran cli_path);
  if negb (there : bool) then sm_lift (Err (CliOther ("release artifact did not contain " +:+ from_utf8_lossy cli_path)))
  else run_program cli_path ["install-system"; "--yes"] "run system installer".

(** [TempWorkspace::create]: the value exists, and is dropped, only when both calls
    succeeded. *)
Definition create_temp_workspace : UM string := fun st =>
  match uh_now with
  | Err e => (st, Err (CliOther ("system clock before unix epoch: " +:+ e)))
  | Ok nanos =>
      let path := path_join uh_temp_dir ("stt-guard-update." +:+ pretty uh_process_id +:+ "." +:+ pretty nanos) in
      match uh_create_dir with
      | Some e => (st, Err (CliOther ("create " +:+ from_utf8_lossy path +:+ ": " +:+ e)))
      | None =>
          let st1 := mkUp (up_ran st) (up_dirs st ++ [path]) (up_out st) in
          match uh_set_permissions with
          | Some e => (st1, Err (CliOther ("chmod " +:+ from_utf8_lossy path +:+ ": " +:+ e)))
          | None => (st1, Ok path)
          end
      end
  end.

(** [Drop]: the directory is removed at the end of the body, however it ends. *)
Definition with_temp_workspace {A} (body : string -> UM A) : UM A := fun st =>
  match create_temp_workspace st with
  | (st1, Err e) => (st1, Err e)
  | (st1, Ok path) =>
      let '(st2, r) := body path st1 in
      (mkUp (up_ran st2) (filter (fun d => d <> path) (up_dirs st2)) (up_out st2), r)
  end.

Definition asset_name (version target : string) : string := "guard-" +:+ version +:+ "-" +:+ target +:+ ".tar.gz".

Definition mismatch (asset expected actual : string) : CliError :=
  CliOther ("checksum mismatch for " +:+ asset +:+ ": expected " +:+ expected +:+ ", got " +:+ actual).

(** The part that needs the workspace. *)
Definition install_release (selected_release asset workspace : string) : UM Z :=
  let release_url := GITHUB_RELEASE_BASE +:+ "/" +:+ selected_release in
  let tarball_path := path_join workspace asset in
  let checksums_path := path_join workspace "checksums.txt" in
  up_say ("stt-guard: downloading " +:+ asset) ;;
  download_to (release_url +:+ "/" +:+ asset) tarball_path ;;
  download_to (release_url +:+ "/checksums.txt") checksums_path ;;
  expected_sha ← expected_sha256 checksums_path asset;
  actual_sha ← sha256_file tarball_path;
  if negb (bool_decide (actual_sha = expected_sha)) then sm_lift (Err (mismatch asset expected_sha actual_sha))
  else
    extract_tarball tarball_path workspace ;;
    run_downloaded_system_installer (path_join workspace "stt-guard") ;;
    up_say ("stt-guard: updated to " +:+ selected_release) ;;
    mret 0%Z.

Definition run_update (check : bool) (version : option string) : UM Z :=
  target ← release_target;
  release ← selected_release version;
  let selected_version := trim_start_char "v" release in
  if check then
    (if bool_decide (selected_version = CARGO_PKG_VERSION)
     then up_say ("stt-guard is up to date (" +:+ CARGO_PKG_VERSION +:+ ").")
     else up_say ("stt-guard update available: " +:+ release) ;;
          up_say ("installed: v" +:+ CARGO_PKG_VERSION) ;;
          up_say "run: stt-guard update") ;;
    mret 0%Z
  else if bool_decide (selected_version = CARGO_PKG_VERSION) then
    up_say ("stt-guard is already up to date (" +:+ CARGO_PKG_VERSION +:+ ").") ;; mret 0%Z
  else with_temp_workspace (install_release release (asset_name selected_version target)).

End Update.

(** ** What is run, and when

    The steps of an update by what the machine answers, without the code. *)

Section Spec.
Context `{UH : UpdateHost}.

(** What a program prints, when it succeeds after [ran]. *)
Definition printed_by (ran : list Invocation) (i : Invocation) : option string :=
  match uh_output ran i with Ok out => if op_success out then Some (op_stdout out) else None | Err _ => None end.

Definition UNAME_S : Invocation := mkRun "uname" ["-s"].
Definition UNAME_M : Invocation := mkRun "uname" ["-m"].
Definition LATEST : Invocation := mkRun "curl" ["-fsSL"; GITHUB_API_LATEST_RELEASE].

Definition lookups (version : option string) : list Invocation :=
  [UNAME_S; UNAME_M] ++ match version with Some _ => [] | None => [LATEST] end.

(** The platform is a Mac of a known processor. *)
Definition target_is (ran : list Invocation) (target : string) : Prop :=
  exists os arch, printed_by ran UNAME_S = Some os /\ printed_by (ran ++ [UNAME_S]) UNAME_M = Some arch
    /\ trim (from_utf8_lossy os) = "Darwin"
    /\ ((trim (from_utf8_lossy arch) = "arm64" /\ target = "aarch64-apple-darwin")
        \/ (trim (from_utf8_lossy arch) = "x86_64" /\ target = "x86_64-apple-darwin")).

(** The release asked for, or else the latest, with its v. *)
Definition release_is (ran : list Invocation) (version : option string) (release : string) : Prop :=
  exists v, is_empty (trim v) = false /\ release = (if starts_with v "v" then v else "v" +:+ v)
    /\ match version with
       | Some asked => v = asked
       | None => exists out json, printed_by (ran ++ [UNAME_S; UNAME_M]) LATEST = Some out /\ uh_json out = Ok json
                                 /\ vget "tag_name" json = Some (JString v)
       end.

Definition up_to_date (release : string) : Prop := trim_start_char "v" release = CARGO_PKG_VERSION.
#[export] Instance up_to_date_dec (release : string) : base.Decision (up_to_date release) := _.

Definition told (check : bool) (release : string) : string :=
  if check then
    if decide (up_to_date release) then writeln ("stt-guard is up to date (" +:+ CARGO_PKG_VERSION +:+ ").")
    else writeln ("stt-guard update available: " +:+ release) +:+ writeln ("installed: v" +:+ CARGO_PKG_VERSION)
         +:+ writeln "run: stt-guard update"
  else writeln ("stt-guard is already up to date (" +:+ CARGO_PKG_VERSION +:+ ").").

Definition release_steps (release asset w : string) : list Invocation :=
  let url := GITHUB_RELEASE_BASE +:+ "/" +:+ release in
  [mkRun "curl" ["-fsSL"; "-o"; path_join w asset; url +:+ "/" +:+ asset];
   mkRun "curl" ["-fsSL"; "-o"; path_join w "checksums.txt"; url +:+ "/checksums.txt"];
   mkRun "shasum" ["-a"; "256"; path_join w asset];
   mkRun "tar" ["-xzf"; path_join w asset; "-C"; w];
   installer_of (path_join w "stt-guard")].

Section Gates.
Context (ran : list Invocation) (release asset w : string).

(** The digest the downloaded list gives for the archive, and that of the archive. *)
Definition listed_digest : option string :=
  match uh_read_to_string (ran ++ take 2 (release_steps release asset w)) (path_join w "checksums.txt") with
  | Ok checks => sha_for asset checks
  | Err _ => None
  end.
Definition actual_digest : option string :=
  out ← printed_by (ran ++ take 2 (release_steps release asset w)) (mkRun "shasum" ["-a"; "256"; path_join w asset]);
  first_word (from_utf8_lossy out).

(** The gates of an installation in their order; [n] programs have run when one is shut. *)
Definition done_by (k : nat) : Prop :=
  exists i, release_steps release asset w !! k = Some i /\ uh_status (ran ++ take k (release_steps release asset w)) i = Ok ExitOk.
Definition gates : list (Prop * nat) :=
  [(done_by 0, 1); (done_by 1, 2); (is_Some listed_digest, 2); (is_Some actual_digest /\ actual_digest = listed_digest, 3);
   (done_by 3, 4); (uh_exists (ran ++ take 4 (release_steps release asset w)) (path_join w "stt-guard") = true, 4); (done_by 4, 5)].

(** The first gate that is shut ends the installation; none is, and it succeeds. *)
Definition installation (ran' : list Invocation) (r : result Z CliError) : Prop :=
  (Forall fst gates /\ ran' = ran ++ release_steps release asset w /\ r = Ok 0%Z)
  \/ exists k g n, gates !! k = Some (g, n) /\ Forall fst (take k gates) /\ ~ g
      /\ ran' = ran ++ take n (release_steps release asset w) /\ is_ok r = false.

End Gates.

Definition workspace_path (nanos : N) : string :=
  path_join uh_temp_dir ("stt-guard-update." +:+ pretty uh_process_id +:+ "." +:+ pretty nanos).

(** A whole update, up to what it prints while installing. *)
Definition update_outcome (check : bool) (version : option string) (st st' : UpState) (r : result Z CliError) : Prop :=
  let looked := up_ran st ++ lookups version in
  (is_ok r = false /\ up_dirs st' = [] /\ (exists n, up_ran st' = up_ran st ++ take n (lookups version))
   /\ ~ exists target release, target_is (up_ran st) target /\ release_is (up_ran st) version release)
  \/ exists target release, target_is (up_ran st) target /\ release_is (up_ran st) version release
     /\ if decide (check = true \/ up_to_date release)
        then up_ran st' = looked /\ up_dirs st' = [] /\ r = Ok 0%Z /\ up_out st' = up_out st +:+ told check release
        else
          match uh_now, uh_create_dir, uh_set_permissions with
          | Ok nanos, None, None =>
              up_dirs st' = []
              /\ installation looked release (asset_name (trim_start_char "v" release) target) (workspace_path nanos) (up_ran st') r
          | Ok nanos, None, Some _ => is_ok r = false /\ up_ran st' = looked /\ up_dirs st' = [workspace_path nanos]
          | _, _, _ => is_ok r = false /\ up_ran st' = looked /\ up_dirs st' = []
          end.

(** ** The steps of the code *)

Lemma um_bind {A B} (m : UM A) (k : A -> UM B) (st st' : UpState) (r : result B CliError) :
  (m ≫= k) st = (st', r) ->
  exists st1 r1, m st = (st1, r1) /\ match r1 with Ok a => k a st1 = (st', r) | Err e => st' = st1 /\ r = Err e end.
Proof using Type.
  unfold mbind, sm_bind. destruct (m st) as [st1 [a|e]]; intros H; (eexists _, _; split; [reflexivity|]); [done|].
  by injection H as <- <-.
Qed.

Definition ran_one (i : Invocation) (st : UpState) : UpState := mkUp (up_ran st ++ [i]) (up_dirs st) (up_out st).

Lemma run_program_cases (p : string) (args : list string) (d : string) (st st' : UpState) (r : result unit CliError) :
  run_program p args d st = (st', r) ->
  st' = ran_one (mkRun p args) st /\ (is_ok r = true <-> uh_status (up_ran st) (mkRun p args) = Ok ExitOk).
Proof using Type.
  unfold run_program. intros (st1 & r1 & E & H)%um_bind. injection E as <- <-. cbn in H.
  destruct (uh_status _ _) as [[|shown]|e]; injection H as <- <-; (split; [done|]); by split.
Qed.

Lemma capture_cases (p : string) (args : list string) (st st' : UpState) (r : result string CliError) :
  run_capture p args st = (st', r) ->
  st' = ran_one (mkRun p args) st
  /\ match r with Ok out => printed_by (up_ran st) (mkRun p args) = Some out | Err _ => printed_by (up_ran st) (mkRun p args) = None end.
Proof using Type.
  unfold run_capture, printed_by. intros (st1 & r1 & E & H)%um_bind. injection E as <- <-. cbn in H.
  destruct (uh_output _ _) as [out|e]; [destruct (op_success out)|]; by injection H as <- <-.
Qed.

Lemma sha256_file_cases (path : string) (st st' : UpState) (r : result string CliError) :
  sha256_file path st = (st', r) ->
  let i := mkRun "shasum" ["-a"; "256"; path] in
  st' = ran_one i st
  /\ (out ← printed_by (up_ran st) i; first_word (from_utf8_lossy out)) = match r with Ok sha => Some sha | Err _ => None end.
Proof using Type.
  unfold sha256_file, printed_by. intros (st1 & r1 & E & H)%um_bind. injection E as <- <-. cbn in H. cbv zeta.
  destruct (uh_output _ _) as [out|e]; [|by injection H as <- <-].
  destruct (op_success out); cbn [negb] in H; [|by injection H as <- <-].
  unfold sm_lift in H. injection H as <- <-. split; [done|]. cbn. by destruct (first_word _).
Qed.

Lemma expected_cases (path asset : string) (st st' : UpState) (r : result string CliError) :
  expected_sha256 path asset st = (st', r) ->
  st' = st /\ match uh_read_to_string (up_ran st) path with Ok checks => sha_for asset checks | Err _ => None end
              = match r with Ok sha => Some sha | Err _ => None end.
Proof using Type.
  unfold expected_sha256. intros (st1 & r1 & E & H)%um_bind. injection E as <- <-. cbn in H.
  destruct (uh_read_to_string _ _) as [checks|e]; injection H as <- <-; (split; [done|]); [|done]. by destruct (sha_for _ _).
Qed.

Lemma installer_cases (cli : string) (st st' : UpState) (r : result unit CliError) :
  run_downloaded_system_installer cli st = (st', r) ->
  (uh_exists (up_ran st) cli = false /\ st' = st /\ is_ok r = false)
  \/ (uh_exists (up_ran st) cli = true /\ st' = ran_one (installer_of cli) st
      /\ (is_ok r = true <-> uh_status (up_ran st) (installer_of cli) = Ok ExitOk)).
Proof using Type.
  unfold run_downloaded_system_installer. intros (st1 & r1 & E & H)%um_bind. injection E as <- <-. cbn in H.
  destruct (uh_exists _ _); cbn [negb] in H; [right; split; [done|]; by apply run_program_cases in H|left; by injection H as <- <-].
Qed.

Lemma up_say_bind {A} (line : string) (k : UM A) (st : UpState) :
  (up_say line ;; k) st = k (mkUp (up_ran st) (up_dirs st) (up_out st +:+ writeln line)).
Proof using Type. done. Qed.

(** The programs run so far, as one list. *)
Ltac norm_ran := cbn [up_ran up_dirs up_out ran_one] in *; rewrite <- ?app_assoc in *; cbn [app] in *.

Ltac passed := cbn [take gates]; repeat (apply Forall_cons; split); [assumption..|apply Forall_nil_2].
Ltac shut k := split; [reflexivity|]; right; exists k; eexists _, _; split; [reflexivity|]; split; [passed|].

Lemma install_release_spec (release asset w : string) (st st' : UpState) (r : result Z CliError) :
  install_release release asset w st = (st', r) ->
  up_dirs st' = up_dirs st /\ installation (up_ran st) release asset w (up_ran st') r.
Proof using Type.
  assert (forall k i b, release_steps release asset w !! k = Some i ->
    (b = true <-> uh_status (up_ran st ++ take k (release_steps release asset w)) i = Ok ExitOk) ->
    (b = true <-> done_by (up_ran st) release asset w k)) as Hdone.
  { intros k i b Hi ->. unfold done_by. rewrite Hi. split; [by eauto|by intros (? & [= <-] & ?)]. }
  unfold install_release. rewrite up_say_bind.
  intros (s1 & r1 & E1 & H)%um_bind. apply run_program_cases in E1 as [-> O1]. norm_ran.
  rewrite <- (app_nil_r (up_ran st)) in O1. apply (Hdone 0) in O1; [|reflexivity].
  destruct r1 as [[]|e]; [|destruct H as [-> ->]; shut 0; split; [by intros ?%O1|done]].
  assert (done_by (up_ran st) release asset w 0) as G0 by by apply O1. clear O1.
  apply um_bind in H as (s2 & r2 & E2 & H). apply run_program_cases in E2 as [-> O2]. norm_ran. apply (Hdone 1) in O2; [|reflexivity].
  destruct r2 as [[]|e]; [|destruct H as [-> ->]; shut 1; split; [by intros ?%O2|by norm_ran]].
  assert (done_by (up_ran st) release asset w 1) as G1 by by apply O2. clear O2.
  apply um_bind in H as (s3 & r3 & E3 & H). apply expected_cases in E3 as [-> O3]. norm_ran.
  change (listed_digest (up_ran st) release asset w = match r3 with Ok sha => Some sha | Err _ => None end) in O3.
  destruct r3 as [sha|e]; [|destruct H as [-> ->]; shut 2; rewrite O3; split; [by intros [? ?]|by norm_ran]].
  assert (is_Some (listed_digest (up_ran st) release asset w)) as G2 by by eexists.
  apply um_bind in H as (s4 & r4 & E4 & H). apply sha256_file_cases in E4 as [-> O4]. norm_ran.
  change (actual_digest (up_ran st) release asset w = match r4 with Ok sha => Some sha | Err _ => None end) in O4.
  destruct r4 as [actual|e]; [|destruct H as [-> ->]; shut 3; rewrite O4; split; [by intros [[? ?] _]|by norm_ran]].
  destruct (decide (actual = sha)) as [->|Hne];
    [rewrite bool_decide_eq_true_2 in H by done
    |rewrite bool_decide_eq_false_2 in H by done; injection H as <- <-; shut 3; rewrite O4, O3; split; [by intros [_ [=]]|by norm_ran]].
  assert (is_Some (actual_digest (up_ran st) release asset w)
          /\ actual_digest (up_ran st) release asset w = listed_digest (up_ran st) release asset w) as G3 by (rewrite O4, O3; by eauto).
  cbn [negb] in H. apply um_bind in H as (s5 & r5 & E5 & H). apply run_program_cases in E5 as [-> O5]. norm_ran.
  apply (Hdone 3) in O5; [|reflexivity].
  destruct r5 as [[]|e]; [|destruct H as [-> ->]; shut 4; split; [by intros ?%O5|by norm_ran]].
  assert (done_by (up_ran st) release asset w 3) as G4 by by apply O5. clear O5.
  apply um_bind in H as (s6 & r6 & E6 & H). apply installer_cases in E6 as [(Hx & -> & Hr)|(Hx & -> & O6)]; norm_ran.
  { destruct r6 as [[]|e]; [done|]. destruct H as [-> ->]. shut 5. split; [cbn; by rewrite Hx|by norm_ran]. }
  change (uh_exists (up_ran st ++ take 4 (release_steps release asset w)) (path_join w "stt-guard") = true) in Hx.
  apply (Hdone 4) in O6; [|reflexivity].
  destruct r6 as [[]|e]; [|destruct H as [-> ->]; shut 6; split; [by intros ?%O6|by norm_ran]].
  assert (done_by (up_ran st) release asset w 4) as G6 by by apply O6.
  rewrite up_say_bind in H. injection H as <- <-. split; [reflexivity|]. left. split; [passed|]. by norm_ran.
Qed.

Lemma target_cases (st st' : UpState) (r : result string CliError) :
  release_target st = (st', r) ->
  up_dirs st' = up_dirs st /\ up_out st' = up_out st
  /\ match r with
     | Ok target => up_ran st' = up_ran st ++ [UNAME_S; UNAME_M] /\ forall t, target_is (up_ran st) t <-> t = target
     | Err _ => (up_ran st' = up_ran st ++ [UNAME_S] \/ up_ran st' = up_ran st ++ [UNAME_S; UNAME_M]) /\ forall t, ~ target_is (up_ran st) t
     end.
Proof using Type.
  unfold release_target, target_is. intros (s1 & r1 & E1 & H)%um_bind. apply capture_cases in E1 as [-> O1].
  fold UNAME_S in O1. norm_ran. destruct r1 as [os|e]; rewrite O1.
  2: { destruct H as [-> ->]. split_and!; [done|done|by left|]. by intros t (? & ? & ? & ?). }
  apply um_bind in H as (s2 & r2 & E2 & H). apply capture_cases in E2 as [-> O2]. fold UNAME_M in O2. norm_ran.
  change (mkRun "uname" ["-s"]) with UNAME_S in *.
  destruct r2 as [arch|e]; rewrite O2.
  2: { destruct H as [-> ->]. split_and!; [done|done|right; by norm_ran|]. by intros t (? & ? & ? & ? & ?). }
  cbv zeta in H. unfold sm_lift in H. injection H as <- <-. split; [done|]. split; [done|].
  destruct (decide (trim (from_utf8_lossy os) = "Darwin")) as [Ho|Ho];
    [rewrite bool_decide_eq_true_2 by done|rewrite bool_decide_eq_false_2 by done].
  2: { split; [right; by norm_ran|]. intros t (o & a & [= <-] & [= <-] & ? & _). done. }
  destruct (decide (trim (from_utf8_lossy arch) = "arm64")) as [Ha|Ha];
    [rewrite bool_decide_eq_true_2 by done|rewrite bool_decide_eq_false_2 by done].
  { split; [by norm_ran|]. intros t. split; [|intros ->; by eauto 10].
    intros (o & a & [= <-] & [= <-] & _ & [[_ ->]|[Hx _]]); [done|congruence]. }
  destruct (decide (trim (from_utf8_lossy arch) = "x86_64")) as [Hb|Hb];
    [rewrite bool_decide_eq_true_2 by done|rewrite bool_decide_eq_false_2 by done].
  { split; [by norm_ran|]. intros t. split; [|intros ->; by eauto 10].
    by intros (o & a & [= <-] & [= <-] & _ & [[? _]|[_ ->]]). }
  split; [right; by norm_ran|]. by intros t (o & a & [= <-] & [= <-] & _ & [[? _]|[? _]]).
Qed.

Lemma selected_cases (ran : list Invocation) (version : option string) (st st' : UpState) (r : result string CliError) :
  selected_release version st = (st', r) -> up_ran st = ran ++ [UNAME_S; UNAME_M] ->
  up_dirs st' = up_dirs st /\ up_out st' = up_out st /\ up_ran st' = ran ++ lookups version
  /\ match r with
     | Ok release => release_is ran version release /\ forall x, release_is ran version x -> x = release
     | Err _ => forall x, ~ release_is ran version x
     end.
Proof using Type.
  unfold selected_release, release_is, lookups. intros (s1 & r1 & E1 & H)%um_bind Hran.
  assert (up_dirs s1 = up_dirs st /\ up_out s1 = up_out st /\ up_ran s1 = ran ++ [UNAME_S; UNAME_M] ++ match version with Some _ => [] | None => [LATEST] end
    /\ match r1 with
       | Ok v => (forall x, match version with
                           | Some asked => x = asked
                           | None => exists out json, printed_by (ran ++ [UNAME_S; UNAME_M]) LATEST = Some out /\ uh_json out = Ok json
                                                     /\ vget "tag_name" json = Some (JString x)
                           end <-> x = v)
       | Err _ => forall x, ~ match version with
                           | Some asked => x = asked
                           | None => exists out json, printed_by (ran ++ [UNAME_S; UNAME_M]) LATEST = Some out /\ uh_json out = Ok json
                                                     /\ vget "tag_name" json = Some (JString x)
                           end
       end) as (D1 & U1 & R1 & V1).
  { destruct version as [v|]; [by injection E1 as <- <-|]. unfold latest_release_tag in E1. apply um_bind in E1 as (s2 & r2 & E2 & E1).
    apply capture_cases in E2 as [-> O2]. fold LATEST in O2. rewrite Hran in O2. norm_ran.
    destruct r2 as [out|e]; rewrite O2.
    2: { destruct E1 as [-> ->]. split_and!; [done|done|norm_ran; by rewrite Hran, <- app_assoc|]. by intros x (? & ? & ? & ?). }
    unfold sm_lift in E1. injection E1 as <- <-. split_and!; [done|done|norm_ran; by rewrite Hran, <- app_assoc|].
    destruct (uh_json out) as [json|e] eqn:Hj; cbn; [|by intros x (? & ? & [= <-] & ? & _); congruence].
    destruct (vget "tag_name" json) as [[]|] eqn:Hv; cbn; try (intros x (? & ? & [= <-] & ? & ?); congruence).
    intros x. split; [|intros ->; by eauto]. intros (? & ? & [= <-] & ? & ?). congruence. }
  destruct r1 as [v|e]; [|destruct H as [-> ->]; split_and!; try done; by intros x (v & _ & _ & ?%V1)].
  destruct (is_empty (trim v)) eqn:He.
  { injection H as <- <-. split_and!; try done. intros x (y & Hy & _ & ->%V1). congruence. }
  assert (st' = s1 /\ r = Ok (if starts_with v "v" then v else "v" +:+ v)) as [-> ->].
  { destruct (starts_with v "v"); by injection H as <- <-. }
  split_and!; try done. { exists v. split_and!; try done. by apply V1. }
  intros x (y & _ & -> & ->%V1). done.
Qed.

(** What is run is run after all the rest, and a mere check runs what looks the release up. *)
Lemma update_ran (check : bool) (version : option string) (st st' : UpState) (r : result Z CliError) :
  run_update check version st = (st', r) ->
  exists news, up_ran st' = up_ran st ++ news /\ (check = true -> exists n, news = take n (lookups version)).
Proof using Type.
  unfold run_update. intros (st1 & r1 & E1 & H)%um_bind. apply target_cases in E1 as (_ & _ & T1).
  destruct r1 as [target|e].
  2: { destruct H as [-> ->]. destruct T1 as [[R1|R1] _]; eexists; (split; [exact R1|]); intros _; [by exists 1|by exists 2]. }
  destruct T1 as [R1 _]. apply um_bind in H as (st2 & r2 & E2 & H). eapply selected_cases in E2 as (_ & _ & R2 & _); [|exact R1].
  assert (exists n, lookups version = take n (lookups version)) as Hall by (exists (length (lookups version)); by rewrite take_ge).
  destruct r2 as [release|e]; [|destruct H as [-> ->]; by exists (lookups version)].
  destruct check; [by destruct (bool_decide _); injection H as <- <-; exists (lookups version)|].
  destruct (bool_decide _); [by injection H as <- <-; exists (lookups version)|].
  unfold with_temp_workspace, create_temp_workspace in H.
  destruct uh_now as [nanos|e]; [|by injection H as <- <-; exists (lookups version)].
  destruct uh_create_dir; [by injection H as <- <-; exists (lookups version)|].
  destruct uh_set_permissions; [by injection H as <- <-; exists (lookups version)|].
  destruct (install_release _ _ _ _) as [s3 r3] eqn:E. injection H as <- <-. apply install_release_spec in E as [_ E].
  cbn [up_ran] in *. rewrite R2 in E. destruct E as [(_ & -> & _)|(k & g & n & _ & _ & _ & -> & _)];
    rewrite <- app_assoc; eexists; by split.
Qed.

End Spec.


(** A directory whose permissions cannot be set is left behind. *)
Lemma workspace_left_behind `{UH : UpdateHost} {A} (body : string -> UM A) (st : UpState) (nanos : N) (e : string) :
  uh_now = Ok nanos -> uh_create_dir = None -> uh_set_permissions = Some e ->
  up_dirs (with_temp_workspace body st).1
  = up_dirs st ++ [path_join uh_temp_dir ("stt-guard-update." +:+ pretty uh_process_id +:+ "." +:+ pretty nanos)].
Proof. intros H1 H2 H3. unfold with_temp_workspace, create_temp_workspace. by rewrite H1, H2, H3. Qed.

(** ** A concrete update *)

Definition toy_asset : string := "guard-0.3.0-aarch64-apple-darwin.tar.gz".

Definition toy_update (digest : string) : UpdateHost := {|
  uh_output := fun _ i =>
    Ok (mkOutput true
          (if bool_decide (i = mkRun "uname" ["-s"]) then "Darwin" +:+ String LF ""
           else if bool_decide (i = mkRun "uname" ["-m"]) then "arm64" +:+ String LF ""
           else if bool_decide (iv_program i = "shasum") then digest +:+ "  /tmp/x" +:+ String LF "" else "{}") "");
  uh_status := fun _ _ => Ok ExitOk;
  uh_read_to_string := fun _ _ => Ok ("00ff  other.tar.gz" +:+ String LF "" +:+ "abcd  " +:+ toy_asset +:+ String LF "" +:+ "ffff  " +:+ toy_asset +:+ String LF "");
  uh_exists := fun _ _ => true;
  uh_json := fun _ => Ok (JObject [("tag_name", JString "v0.3.0")]);
  uh_temp_dir := "/tmp"; uh_process_id := 77%N; uh_now := Ok 5%N; uh_create_dir := None; uh_set_permissions := None;
|}.

Definition up_start : UpState := mkUp [] [] "".

Definition toy_run (check : bool) (digest : string) : UpState * result Z CliError := @run_update (toy_update digest) check None up_start.

