(* ===== verification/DaemonStart.v ===== *)
(** * The start of the daemon and its workers

    [crates/guard-daemon/src/main.rs] ([serve]), [manifest.rs], the publication of the
    first snapshot in [snapshot.rs], [load_curated] of [curated.rs], and the socket, the
    accept loop and the pool of workers of [ipc_server.rs].  What the start finds is the
    class [StartEnv]; its files are those of [Publish].  The pool interleaves accepted
    connections with the steps of [Server]. *)

From S2P Require Import Prelude RustStr RustUtf8 Policy TrustedSigners Signature Snapshot Paths RuleStore ProcessTree Frame Handlers.
From S2P Require Import Prompt HookNet Lockfile Publish HookLoad Resolve LogWriter Messages Events Admin SnapshotGc Server OsLayer.

(** ** manifest.rs *)

Record ParsedManifest : Type := mkParsed { pm_snapshot_path : string; pm_digest_hex : string }.

Inductive ManifestError : Type := MissingPath | MissingDigest | MalformedDigestLine | MalformedDigest.

Definition parse_startup_manifest (contents : string) : result ParsedManifest ManifestError :=
  match lines contents with
  | [] => Err MissingPath
  | [_] => Err MissingDigest
  | path :: digest_line :: _ =>
      let? digest := ok_or (strip_prefix "digest=" digest_line) MalformedDigestLine in
      if negb (bool_decide (String.length digest = 64)) || negb (str_forallb is_ascii_hexdigit digest) then Err MalformedDigest
      else Ok (mkParsed path digest)
  end.

Definition startup_manifest (path digest : string) : string := unlines [from_utf8_lossy path; "digest=" +:+ digest].

(** [manifest::write]. *)
Definition write_startup_manifest `{PubEnv} (state_dir : string) (snap : PublishedSnapshot) : FM unit :=
  put_file (manifest_tmp_path state_dir) (manifest_path state_dir) (startup_manifest (pub_path snap) (pub_digest_hex snap)).

(** ** snapshot.rs *)

Definition byte_of (k : N) (n : N) : ascii := ascii_of_N (N.shiftr n (8 * k) mod 256).

(** [{nonce:016x}]. *)
Definition hex16 (nonce : N) : string :=
  hex_lower (String (byte_of 7 nonce) (String (byte_of 6 nonce) (String (byte_of 5 nonce) (String (byte_of 4 nonce)
    (String (byte_of 3 nonce) (String (byte_of 2 nonce) (String (byte_of 1 nonce) (String (byte_of 0 nonce) "")))))))).

Definition snapshot_path (state_dir : string) (nonce : N) : string := path_join state_dir ("snapshot-" +:+ hex16 nonce +:+ ".cbor").
Definition snapshot_tmp_path (state_dir : string) (nonce : N) : string := path_join state_dir (".snapshot-" +:+ hex16 nonce +:+ ".cbor.tmp").

Definition publish `{PubEnv, Crypto, SnapshotCodec} (state_dir : string) (snap : Snapshot) (nonce : N) : FM PublishedSnapshot :=
  match encode snap with
  | Err e => fun f => (f, Err ("encode: " +:+ show_snapshot_error e))
  | Ok bytes =>
      let tmp := snapshot_tmp_path state_dir nonce in
      let final_path := snapshot_path state_dir nonce in
      _ ← create_new tmp;
      _ ← write_all tmp bytes;
      _ ← sync_all tmp;
      _ ← rename tmp final_path;
      mret (mkPublished final_path (hex_lower (sha256 bytes)))
  end.

(** ** main.rs *)

(** How a start ends early: an error that [main] returns, or a panic. *)
Inductive Stop : Type := Failed (msg : string) | StartPanic (msg : string).

Class StartEnv : Type := {
  se_os : Os;
  se_vars : Env;
  se_exists : string -> bool;
  se_create_dir : string -> N -> option string;
  se_set_permissions : string -> N -> option string;
  se_thread : string -> option string;
  (** [serde_json] on the rules embedded in the build. *)
  se_curated_json : result (list RawEntry) string;
  se_nonce : result N string;
  (** The tables of the database after the migrations. *)
  se_tables : Db;
  se_artifact_rows : Artifacts;
  se_open_artifacts : option string;
  se_logs : LogDir;
  se_open_log : option string;
  se_bind : option string;
  se_socket_metadata : option string;
  se_pid : Z;
  se_unix_secs : N;
  se_instant_ms : Z;
}.

(** The files, the directories made and the permissions set in their order, the threads,
    and the socket with the mode it was given. *)
Record Boot : Type := mkBoot {
  bo_files : Files;
  bo_modes : list (string * N);
  bo_threads : list string;
  bo_socket : option (option N);
}.

Abbreviation ST := (SM Boot Stop).

Definition THREAD_LOG_WRITER : string := "stt-guard-daemon-log-writer".
Definition THREAD_SNAPSHOT_GC : string := "stt-guard-daemon-gc".
Definition THREAD_PERSIST_WATCH : string := "stt-guard-daemon-persist-watch".

(** The build without the test signer. *)
Definition rule_signature_policy : RuleSignaturePolicy := Production.

Section Start.
Context `{SE : StartEnv, PE : PubEnv, SQ : SqlEngine, TF : TrustFs, CR : Crypto, SNC : SnapshotCodec}.

Definition on_files {A} (m : FM A) : ST A := fun b =>
  let '(f, r) := m (bo_files b) in (mkBoot f (bo_modes b) (bo_threads b) (bo_socket b), map_err Failed r).
Definition io (e : option string) : ST unit := sm_lift match e with Some m => Err (Failed m) | None => Ok tt end.
Definition noted (path : string) (mode : N) : ST unit := fun b =>
  (mkBoot (bo_files b) (bo_modes b ++ [(path, mode)]) (bo_threads b) (bo_socket b), Ok tt).

Definition create_dir (path : string) (mode : N) : ST unit := io (se_create_dir path mode) ;; noted path mode.
Definition set_permissions (path : string) (mode : N) : ST unit := io (se_set_permissions path mode) ;; noted path mode.
(** [let _ = set_permissions(..)]. *)
Definition try_set_permissions (path : string) (mode : N) : ST unit :=
  match se_set_permissions path mode with Some _ => mret tt | None => noted path mode end.
Definition started (name : string) : ST unit := fun b =>
  (mkBoot (bo_files b) (bo_modes b) (bo_threads b ++ [name]) (bo_socket b), Ok tt).

Definition ensure_state_dir (state_dir : string) : ST unit :=
  if se_exists state_dir then mret tt else create_dir state_dir 448.

Definition ensure_runs_dir (state_dir : string) : ST unit :=
  let dir := runs_dir state_dir in
  (if se_exists dir then mret tt else create_dir dir 457) ;;
  set_permissions dir 457.

Definition show_curated_error (e : CuratedError) : string :=
  match e with
  | Parse m => "parse: " +:+ m
  | InvalidPattern index reason => "invalid pattern at index " +:+ pretty index +:+ ": " +:+ reason
  end.

(** [load_curated]. *)
Definition load_curated : result (list AllowlistEntry) CuratedError :=
  let? entries := map_err Parse se_curated_json in validate_entries entries.

Definition publish_startup (state_dir : string) : ST PublishedSnapshot :=
  nonce ← sm_lift (map_err (fun e => Failed ("getrandom: " +:+ e)) se_nonce);
  pub ← on_files (publish state_dir v2_default nonce);
  on_files (write_startup_manifest state_dir pub) ;;
  mret pub.

(** [LogWriter::spawn]; its errors are wrapped by the caller. *)
Definition spawn_log_writer (log_dir : string) : ST LogWriter :=
  let wrapped e := option_map (fun m => "spawn log_writer: " +:+ m) e in
  io (wrapped (se_create_dir log_dir 511)) ;; noted log_dir 511 ;;
  try_set_permissions log_dir (if path_eq log_dir SYSTEM_LOG_DIR then 457 else 448)%N ;;
  io (wrapped se_open_log) ;;
  try_set_permissions (path_join log_dir LOG_FILENAME) (if path_starts_with (path_join log_dir LOG_FILENAME) SYSTEM_LOG_DIR then 420 else 384)%N ;;
  io (wrapped (se_thread THREAD_LOG_WRITER)) ;;
  started THREAD_LOG_WRITER ;;
  mret (mkLogWriter [] true 0 0 0 0 (open_active se_logs se_unix_secs)).

Definition start_logging (state_dir : string) : ST LogWriter :=
  log_dir ← sm_lift (ok_or (log_dir_for_state se_os se_vars state_dir) (StartPanic "HOME environment variable must be set"));
  create_dir log_dir 511 ;;
  try_set_permissions log_dir (if is_system_install se_os state_dir then 457 else 448)%N ;;
  spawn_log_writer log_dir.

Definition initial_state (state_dir : string) (curated : list AllowlistEntry) (store : RuleStore) (w : LogWriter) : Server :=
  mkServer (fresh new_tree w) ∅ ∅ new_deferred ∅ store rule_signature_policy [] curated state_dir ∅ ∅ se_artifact_rows false se_instant_ms.

(** The start of the thread of the sweeper panics on failure; that of the watcher is not
    looked at. *)
Definition spawn_background : ST unit :=
  match se_thread THREAD_SNAPSHOT_GC with
  | Some e => sm_lift (Err (StartPanic ("spawn gc thread: " +:+ e)))
  | None => started THREAD_SNAPSHOT_GC
  end ;;
  match se_thread THREAD_PERSIST_WATCH with Some _ => mret tt | None => started THREAD_PERSIST_WATCH end.

(** Everything before the socket. *)
Definition prepare (state_dir : string) : ST Server :=
  ensure_state_dir state_dir ;;
  ensure_runs_dir state_dir ;;
  curated ← sm_lift (map_err (fun e => Failed ("load curated yaml: " +:+ show_curated_error e)) load_curated);
  store ← sm_lift (map_err (fun e => Failed ("open rule_store: " +:+ show_store_error e)) (RuleStore.open se_os (db_path state_dir) se_tables));
  publish_startup state_dir ;;
  w ← start_logging state_dir;
  io (option_map (fun m => "open install_artifact_store: " +:+ m) se_open_artifacts) ;;
  spawn_background ;;
  mret (initial_state state_dir curated store w).

(** [IpcServer::bind]: an old socket is removed without a look at it. *)
Definition socket_mode (state_dir : string) : N := if is_system_install se_os state_dir then 438 else 384.

Definition bound (mode : option N) : ST unit := fun b => (mkBoot (bo_files b) (bo_modes b) (bo_threads b) (Some mode), Ok tt).

Definition bind (state_dir : string) : ST unit :=
  on_files (ignore (remove_file (socket_path state_dir))) ;;
  io se_bind ;;
  bound None ;;
  io se_socket_metadata ;;
  io (se_set_permissions (socket_path state_dir) (socket_mode state_dir)) ;;
  bound (Some (socket_mode state_dir)).

Definition ready_line : string := pretty se_pid +:+ " " +:+ pretty se_unix_secs +:+ nl.

(** [std::fs::write]. *)
Definition write_ready (state_dir : string) : ST unit :=
  on_files (attempt "open" (ready_path state_dir) (write_all (ready_path state_dir) ready_line)).

Definition serve (state_dir : string) : ST Server :=
  s ← prepare state_dir;
  bind state_dir ;;
  write_ready state_dir ;;
  mret s.

(** [main], for [serve]. *)
Definition daemon_main (state_dir : option string) : ST Server :=
  match state_dir with
  | Some d => serve d
  | None => d ← sm_lift (ok_or (default_state_dir se_os se_vars se_exists) (StartPanic "HOME environment variable must be set")); serve d
  end.

End Start.

(** ** The accept loop and the workers *)

Definition WORKER_THREADS : nat := 32.
Definition ACCEPT_QUEUE_DEPTH : nat := 64.

(** The queue, and the workers that are idle, wait for a prompt, or have panicked.  The
    connections accepted, dropped and taken are kept in their order. *)
Record Pool : Type := mkPool {
  po_server : Server;
  po_queue : list Conn;
  po_accepted : list Conn;
  po_dropped : list Conn;
  po_served : list (Conn * Served);
  po_idle : nat;
  po_waiting : nat;
  po_panicked : nat;
}.

Definition new_pool (s : Server) : Pool := mkPool s [] [] [] [] WORKER_THREADS 0 0.

(** [try_send]. *)
Definition accept (p : Pool) (c : Conn) : Pool :=
  if bool_decide (length (po_queue p) < ACCEPT_QUEUE_DEPTH)
  then mkPool (po_server p) (po_queue p ++ [c]) (po_accepted p ++ [c]) (po_dropped p) (po_served p) (po_idle p) (po_waiting p) (po_panicked p)
  else mkPool (po_server p) (po_queue p) (po_accepted p) (po_dropped p ++ [c]) (po_served p) (po_idle p) (po_waiting p) (po_panicked p).

(** A worker takes the first connection of the queue. *)
Definition take_next `{ServerEnv, ServerCodec, Crypto} (p : Pool) (now : Z) : option Pool :=
  match po_queue p, po_idle p with
  | c :: rest, S idle =>
      let '(s, out) := handle (po_server p) now c in
      let '(i, w, x) := match out with
                        | Wrote _ | PromptThread _ _ => (S idle, po_waiting p, po_panicked p)
                        | Waiting _ _ _ _ => (idle, S (po_waiting p), po_panicked p)
                        | Panicked => (idle, po_waiting p, S (po_panicked p))
                        end in
      Some (mkPool s rest (po_accepted p) (po_dropped p) (po_served p ++ [(c, out)]) i w x)
  | _, _ => None
  end.

Definition with_server (p : Pool) (s : Server) (idle waiting panicked : nat) : Pool :=
  mkPool s (po_queue p) (po_accepted p) (po_dropped p) (po_served p) idle waiting panicked.

Inductive pool_step `{ServerCodec, Crypto} : Pool -> Pool -> Prop :=
| ps_accept p c : pool_step p (accept p c)
| ps_take (SE : ServerEnv) p now p' : free_rowid_unused -> take_next p now = Some p' -> pool_step p p'
| ps_resume (SE : ServerEnv) p waiting req u id chan timed d o :
    po_waiting p = S waiting -> finish_prompt (as_daemon (po_server p)) req u id chan timed = Some (d, o) ->
    pool_step p (with_server p (put_daemon (po_server p) d) (S (po_idle p)) waiting (po_panicked p))
| ps_respawn p panicked :
    po_panicked p = S panicked -> pool_step p (with_server p (po_server p) (S (po_idle p)) (po_waiting p) panicked)
| ps_other p s : server_step (po_server p) s -> pool_step p (with_server p s (po_idle p) (po_waiting p) (po_panicked p)).

(** ** Names that do not meet *)

Lemma join_ne (d a b : string) : relative a -> relative b -> a <> b -> path_join d a <> path_join d b.
Proof. intros Ha Hb Hne H. by apply Hne, (path_join_inj d). Qed.

Lemma start_paths_distinct (d : string) (n : N) :
  snapshot_tmp_path d n <> snapshot_path d n
  /\ manifest_tmp_path d <> manifest_path d
  /\ Forall (fun p => p <> snapshot_path d n /\ p <> manifest_path d) [ready_path d; socket_path d; manifest_tmp_path d; snapshot_tmp_path d n]
  /\ snapshot_path d n <> manifest_path d
  /\ Forall (fun p => p <> ready_path d) [socket_path d; manifest_tmp_path d; snapshot_tmp_path d n].
Proof.
  assert (relative ("snapshot-" +:+ hex16 n +:+ ".cbor")) as H1 by done.
  assert (relative (".snapshot-" +:+ hex16 n +:+ ".cbor.tmp")) as H2 by done.
  unfold snapshot_tmp_path, snapshot_path, manifest_tmp_path, manifest_path, ready_path, socket_path.
  split_and!; repeat (apply Forall_cons; split); try apply Forall_nil_2; try split; apply join_ne; try done;
    first [discriminate|by intros [=]].
Qed.

(** ** What an operation leaves alone *)

Section Leaves.
Context `{SE : StartEnv, PE : PubEnv, SQ : SqlEngine, TF : TrustFs, CR : Crypto, SNC : SnapshotCodec}.

Definition leaves {A} (P : string -> Prop) (m : ST A) : Prop := forall b,
  (forall p, P p -> bo_files (m b).1 !! p = bo_files b !! p) /\ bo_socket (m b).1 = bo_socket b.

Lemma leaves_ret {A} P (r : result A Stop) : leaves P (sm_lift r).
Proof using Type. done. Qed.

Lemma start_leaves_bind {A B} P (m : ST A) (k : A -> ST B) : leaves P m -> (forall a, leaves P (k a)) -> leaves P (m ≫= k).
Proof using Type.
  intros Hm Hk b. rewrite sm_bind_eq. destruct (Hm b) as [F1 S1]. destruct (m b) as [b1 [a|e]]; [|done].
  destruct (Hk a b1) as [F2 S2]. cbn [fst] in *. split; [intros p Hp; by rewrite F2, F1|congruence].
Qed.

Lemma leaves_files {A} P (m : FM A) : (forall f p, P p -> (m f).1 !! p = f !! p) -> leaves P (on_files m).
Proof using Type. intros H b. unfold on_files. specialize (H (bo_files b)). by destruct (m (bo_files b)). Qed.

Lemma leaves_noted P path mode : leaves P (noted path mode).
Proof using Type. done. Qed.
Lemma leaves_started P name : leaves P (started name).
Proof using Type. done. Qed.
Lemma leaves_try P path mode : leaves P (try_set_permissions path mode).
Proof using Type. unfold try_set_permissions. by destruct (se_set_permissions _ _). Qed.

Create HintDb leaves.
#[local] Hint Resolve leaves_ret leaves_noted leaves_started leaves_try : leaves.
Ltac leave := repeat first [progress intros | apply start_leaves_bind | solve [auto with leaves] | case_match | done].

Lemma leaves_logging P state_dir : leaves P (start_logging state_dir).
Proof using Type. unfold start_logging, spawn_log_writer, create_dir, io. leave. Qed.

Lemma leaves_background P : leaves P spawn_background.
Proof using Type. unfold spawn_background. leave. Qed.

Lemma leaves_state_dir P d : leaves P (ensure_state_dir d).
Proof using Type. unfold ensure_state_dir, create_dir, io. leave. Qed.

Lemma leaves_runs_dir P d : leaves P (ensure_runs_dir d).
Proof using Type. unfold ensure_runs_dir, create_dir, set_permissions, io. leave. Qed.

Lemma fm_case {A B} (m : FM A) (k : A -> FM B) (f : Files) (Q : Files -> Prop) :
  Q (m f).1 -> (forall a g, Q g -> Q (k a g).1) -> Q ((m ≫= k) f).1.
Proof using Type. rewrite fm_bind_eq. intros Hm Hk. destruct (m f) as [g [a|e]]; [by apply Hk|done]. Qed.

Lemma publish_leaves (d : string) (snap : Snapshot) (n : N) (f : Files) (p : string) :
  p <> snapshot_tmp_path d n -> p <> snapshot_path d n -> (publish d snap n f).1 !! p = f !! p.
Proof using Type.
  intros H1 H2. unfold publish. destruct (encode snap) as [bytes|e]; [|done].
  apply (fm_case _ _ _ (fun g => g !! p = f !! p)).
  { unfold create_new, attempt. destruct (fs_fault _ _); [done|]. destruct (f !! _); [done|]. cbn. by rewrite lookup_insert_ne. }
  intros _ g Hg. apply (fm_case _ _ _ (fun g => g !! p = f !! p)).
  { unfold write_all. destruct (fs_fault _ _); cbn; by rewrite lookup_insert_ne. }
  intros _ g1 Hg1. apply (fm_case _ _ _ (fun g => g !! p = f !! p)).
  { unfold sync_all, attempt. by destruct (fs_fault _ _). }
  intros _ g2 Hg2. apply (fm_case _ _ _ (fun g => g !! p = f !! p)); [|done].
  unfold rename, attempt. destruct (fs_fault _ _); [done|]. destruct (g2 !! snapshot_tmp_path d n); [|done]. cbn.
  by rewrite lookup_insert_ne, lookup_delete_ne.
Qed.

Lemma publish_ok (d : string) (snap : Snapshot) (n : N) (f f' : Files) (pub : PublishedSnapshot) :
  publish d snap n f = (f', Ok pub) ->
  exists bytes, encode snap = Ok bytes /\ f' !! snapshot_path d n = Some bytes
    /\ pub = mkPublished (snapshot_path d n) (hex_lower (sha256 bytes)).
Proof using Type.
  unfold publish. destruct (encode snap) as [bytes|e]; [|done]. rewrite fm_bind_eq. unfold create_new at 1, attempt at 1.
  destruct (fs_fault _ _); [done|]. destruct (f !! _); [done|]. rewrite fm_bind_eq. unfold write_all at 1.
  destruct (fs_fault "write" _); [done|]. rewrite fm_bind_eq. unfold sync_all, attempt at 1. destruct (fs_fault "sync" _); [done|].
  rewrite fm_bind_eq. unfold rename, attempt. destruct (fs_fault "rename" _); [done|]. rewrite lookup_insert_eq.
  intros [= <- <-]. exists bytes. by rewrite lookup_insert_eq.
Qed.

Lemma leaves_publish (d : string) : leaves (fun p => p = ready_path d) (publish_startup d).
Proof using Type.
  unfold publish_startup. apply start_leaves_bind; [apply leaves_ret|]. intros n.
  destruct (start_paths_distinct d n) as (_ & Hm & Ha & _ & Hr).
  rewrite !Forall_cons in Ha, Hr. destruct Ha as [[Ha1 Ha2] _]. destruct Hr as (_ & Hr2 & Hr3 & _).
  apply start_leaves_bind.
  - apply leaves_files. intros f p ->. by apply publish_leaves.
  - intros pub. apply start_leaves_bind; [|intros _; apply (leaves_ret _ (Ok pub))]. apply leaves_files. intros f p ->.
    unfold write_startup_manifest. destruct (put_file _ _ _ f) as [f' r] eqn:E. apply put_file_spec in E as [E _]; [|done].
    by apply E.
Qed.

End Leaves.

(** ** What a start leaves *)

Section Started.
Context `{SE : StartEnv, PE : PubEnv, SQ : SqlEngine, TF : TrustFs, CR : Crypto, SNC : SnapshotCodec}.

Lemma on_files_ok {A} (m : FM A) (b b' : Boot) (a : A) :
  on_files m b = (b', Ok a) -> m (bo_files b) = (bo_files b', Ok a) /\ bo_socket b' = bo_socket b.
Proof using Type. unfold on_files. destruct (m (bo_files b)) as [f [x|e]]; intros [= <- E]; cbn; by rewrite ?E. Qed.

Lemma leaves_eq {A} P (m : ST A) (b b' : Boot) (r : result A Stop) :
  leaves P m -> m b = (b', r) -> (forall p, P p -> bo_files b' !! p = bo_files b !! p) /\ bo_socket b' = bo_socket b.
Proof using Type. intros H E. specialize (H b). by rewrite E in H. Qed.

Lemma initial_inv (d : string) (cu : list AllowlistEntry) (st : RuleStore) (w : LogWriter) :
  store_inv st -> server_inv (initial_state d cu st w).
Proof using Type.
  intros Hs. split; cbn.
  - constructor; intros *; cbn; by rewrite lookup_empty.
  - apply fresh_timer_inv.
  - exact Hs.
  - unfold CAPACITY. lia.
  - intros c l Hl. by rewrite lookup_empty in Hl.
Qed.

(** The first snapshot and its manifest. *)
Definition startup_published (d : string) (n : N) (bytes : string) (f : Files) : Prop :=
  encode v2_default = Ok bytes /\ f !! snapshot_path d n = Some bytes
  /\ f !! manifest_path d = Some (startup_manifest (snapshot_path d n) (sha256_hex bytes)).

Lemma publish_startup_ok (d : string) (b b' : Boot) (pub : PublishedSnapshot) :
  publish_startup d b = (b', Ok pub) -> exists n bytes, se_nonce = Ok n /\ startup_published d n bytes (bo_files b').
Proof using Type.
  unfold publish_startup. intros (b1 & n & En & H)%sm_bind_ok. destruct se_nonce as [n'|]; [|done]. injection En as <- <-.
  apply sm_bind_ok in H as (b2 & p & Ep & H). apply on_files_ok in Ep as [Ep _]. apply publish_ok in Ep as (bytes & He & Hb & ->).
  apply sm_bind_ok in H as (b3 & [] & Em & H). injection H as <- _. apply on_files_ok in Em as [Em _].
  unfold write_startup_manifest in Em. destruct (start_paths_distinct d n') as (_ & Hm & Ha & Hs & _).
  rewrite !Forall_cons in Ha. destruct Ha as (_ & _ & [Ha _] & _).
  apply put_file_spec in Em as [Ho Hf]; [|done]. exists n', bytes. split; [done|]. split_and!; [done| |done].
  rewrite Ho; [done|by intros E|done].
Qed.

Lemma prepare_leaves (d : string) : leaves (fun p => p = ready_path d) (prepare d).
Proof using Type.
  unfold prepare. apply start_leaves_bind; [apply leaves_state_dir|intros _]. apply start_leaves_bind; [apply leaves_runs_dir|intros _].
  apply start_leaves_bind; [apply leaves_ret|intros cu]. apply start_leaves_bind; [apply leaves_ret|intros st].
  apply start_leaves_bind; [apply leaves_publish|intros pub]. apply start_leaves_bind; [apply leaves_logging|intros w].
  apply start_leaves_bind; [apply leaves_ret|intros _]. apply start_leaves_bind; [apply leaves_background|intros _].
  apply (leaves_ret _ (Ok _)).
Qed.

Lemma prepare_ok (d : string) (b b' : Boot) (s : Server) :
  prepare d b = (b', Ok s) ->
  exists curated mp w n bytes, load_curated = Ok curated /\ s = initial_state d curated (mkStore se_tables mp) w
    /\ se_nonce = Ok n /\ startup_published d n bytes (bo_files b').
Proof using Type.
  unfold prepare. intros (b1 & [] & _ & H)%sm_bind_ok. apply sm_bind_ok in H as (b2 & [] & _ & H).
  apply sm_bind_ok in H as (b3 & cu & E & H). unfold sm_lift in E. injection E as <- E.
  destruct load_curated as [cu'|]; [|done]. injection E as ->.
  apply sm_bind_ok in H as (b4 & st & E & H). injection E as <- E.
  assert (exists mp, st = mkStore se_tables mp) as [mp ->].
  { unfold RuleStore.open, stmt in E. repeat (destruct (sql_fault _); [done|]). injection E as <-. by eexists. }
  apply sm_bind_ok in H as (b5 & pub & Hp & H). apply publish_startup_ok in Hp as (n & bytes & Hn & Hp).
  apply sm_bind_ok in H as (b6 & w & Ew & H). apply (leaves_eq (fun _ => True) _ _ _ _ (leaves_logging _ _)) in Ew as [Fw _].
  apply sm_bind_ok in H as (b7 & [] & Ea & H). injection Ea as <- _.
  apply sm_bind_ok in H as (b8 & [] & Eb & H). apply (leaves_eq (fun _ => True) _ _ _ _ (leaves_background _)) in Eb as [Fb _].
  injection H as <- <-. exists cu, mp, w, n, bytes. split; [done|]. split; [done|]. split; [done|].
  destruct Hp as (H1 & H2 & H3). unfold startup_published. rewrite !Fb, !Fw by done. done.
Qed.

Lemma bind_leaves (d : string) (b b' : Boot) (r : result unit Stop) :
  bind d b = (b', r) -> (forall p, p <> socket_path d -> bo_files b' !! p = bo_files b !! p)
  /\ (r = Ok tt -> bo_socket b' = Some (Some (socket_mode d))).
Proof using Type.
  pose proof (remove_file_only (socket_path d) (bo_files b)) as Hf.
  unfold bind, on_files, ignore, io, bound, sm_lift, mbind, sm_bind. cbn [map_err].
  destruct se_bind; [by intros [= <- <-]|]. destruct se_socket_metadata; [by intros [= <- <-]|].
  destruct (se_set_permissions _ _); by intros [= <- <-].
Qed.

Lemma write_ready_cases (d : string) (b b' : Boot) (r : result unit Stop) :
  write_ready d b = (b', r) ->
  (forall p, p <> ready_path d -> bo_files b' !! p = bo_files b !! p) /\ bo_socket b' = bo_socket b
  /\ match r with
     | Ok _ => bo_files b' !! ready_path d = Some ready_line
     | Err _ => bo_files b' = bo_files b \/ is_Some (fs_fault "write" (ready_path d))
     end.
Proof using Type.
  unfold write_ready, on_files, attempt, write_all. destruct (fs_fault "open" _); [intros [= <- <-]; cbn; auto|].
  destruct (fs_fault "write" _) eqn:Hw; intros [= <- <-]; cbn [bo_files bo_socket map_err].
  - split; [intros p Hp; by rewrite lookup_insert_ne|]. split; [done|]. right. by eexists.
  - split; [intros p Hp; by rewrite lookup_insert_ne|]. split; [done|]. by rewrite lookup_insert_eq.
Qed.

End Started.

(** ** The manifest of the start *)

Lemma clean_join (d x : string) : clean d -> clean x -> clean (path_join d x).
Proof. intros Hd Hx. unfold path_join. destruct (_ || _); [done|]. destruct (ends_with d "/"); repeat apply clean_app; done. Qed.

Lemma utf8_join (d x : string) : utf8_valid d = true -> utf8_valid x = true -> utf8_valid (path_join d x) = true.
Proof. intros Hd Hx. unfold path_join. destruct (_ || _); [done|]. destruct (ends_with d "/"); by rewrite !utf8_valid_app. Qed.

Lemma utf8_hex_lower (s t : string) : utf8_valid t = true -> utf8_valid (hex_lower s +:+ t) = true.
Proof.
  intros Ht. induction s as [|a s IH]; [done|]. revert IH. destruct a as [[] [] [] [] [] [] [] []]; cbn [hex_lower]; intros IH; exact IH.
Qed.

(** It reads back, and the loader of the library, which wants a signature, refuses it. *)
Lemma startup_manifest_reads (d : string) (n : N) (digest_of : string) :
  clean d -> utf8_valid d = true -> String.length digest_of = 32 ->
  let text := startup_manifest (snapshot_path d n) (hex_lower digest_of) in
  parse_startup_manifest text = Ok (mkParsed (snapshot_path d n) (hex_lower digest_of)) /\ parse_manifest text = Err SnapshotSignatureMissing.
Proof.
  intros Hc Hu Hl text.
  assert (utf8_valid (snapshot_path d n) = true) as Hv.
  { apply utf8_join; [done|]. rewrite utf8_valid_app by done. by apply utf8_hex_lower. }
  assert (clean (snapshot_path d n)) as Hcp.
  { apply clean_join; [done|]. apply clean_app; [done|]. apply clean_app; [apply clean_hex_lower|done]. }
  assert (lines text = [snapshot_path d n; "digest=" +:+ hex_lower digest_of]) as Ht.
  { unfold text, startup_manifest. rewrite from_utf8_lossy_id by done. apply lines_unlines.
    repeat constructor; try apply Hcp; apply clean_app; (done || apply clean_hex_lower). }
  unfold parse_startup_manifest, parse_manifest. rewrite Ht, (proj2 (strip_prefix_Some _ _ _) eq_refl). cbn [ok_or].
  rewrite bool_decide_eq_true_2 by (rewrite length_hex_lower; lia). by rewrite hex_lower_hexdigits.
Qed.

(** ** The pool *)

Section Pool.
Context `{SC : ServerCodec, CR : Crypto}.

Record pool_inv (s0 : Server) (p : Pool) : Prop := {
  pi_server : rtc server_step s0 (po_server p);
  pi_queue : length (po_queue p) <= ACCEPT_QUEUE_DEPTH;
  pi_order : po_accepted p = (po_served p).*1 ++ po_queue p;
  pi_workers : po_idle p + po_waiting p + po_panicked p = WORKER_THREADS;
}.

Lemma new_pool_inv (s : Server) : pool_inv s (new_pool s).
Proof using Type. split; cbn; [reflexivity|unfold ACCEPT_QUEUE_DEPTH; lia|done|done]. Qed.

Lemma take_next_some `{SE : ServerEnv} (p p' : Pool) (now : Z) :
  take_next p now = Some p' ->
  exists c rest, po_queue p = c :: rest /\ po_server p' = (handle (po_server p) now c).1 /\ po_queue p' = rest
    /\ po_accepted p' = po_accepted p /\ po_served p' = po_served p ++ [(c, (handle (po_server p) now c).2)]
    /\ po_idle p' + po_waiting p' + po_panicked p' = po_idle p + po_waiting p + po_panicked p.
Proof using Type.
  unfold take_next. destruct (po_queue p) as [|c rest]; [done|]. destruct (po_idle p) as [|idle] eqn:Hi; [done|].
  destruct (handle _ now c) as [s out] eqn:Hh. exists c, rest. rewrite Hh.
  destruct out; (injection H as <-; cbn; split_and!; (done || lia)).
Qed.

Lemma pool_step_inv (s0 : Server) (p p' : Pool) : pool_step p p' -> pool_inv s0 p -> pool_inv s0 p'.
Proof using Type.
  intros Hs [I1 I2 I3 I4]. destruct Hs as [p c|SE p now p' Hf Ht|SE p w req u id chan timed d o Hw Hp|p x Hx|p s Hs].
  - unfold accept. case_bool_decide as Hl; split; cbn; try done.
    + rewrite length_app. cbn. unfold ACCEPT_QUEUE_DEPTH in *. lia.
    + by rewrite I3, app_assoc.
  - apply take_next_some in Ht as (c & rest & Eq & Es & Er & Ea & Ev & Ew). split.
    + etrans; [exact I1|]. rewrite Es. apply rtc_once. by apply ss_connection.
    + rewrite Er. rewrite Eq in I2. cbn in I2. lia.
    + rewrite Ea, I3, Ev, Er, Eq, fmap_app. cbn. by rewrite <- app_assoc.
    + lia.
  - split; cbn; [|done|done|lia]. etrans; [exact I1|]. apply rtc_once. by eapply ss_resume.
  - split; cbn; [done|done|done|lia].
  - split; cbn; [|done|done|done]. etrans; [exact I1|]. by apply rtc_once.
Qed.

Lemma pool_reachable_inv (s : Server) (p : Pool) : rtc pool_step (new_pool s) p -> pool_inv s p.
Proof using Type.
  intros H. pose proof (new_pool_inv s) as Hi. induction H as [q|q q1 q2 Hs _ IH]; [done|]. apply IH. by eapply pool_step_inv.
Qed.

(** Everything a daemon reaches from its first state. *)
Lemma reached_from (s s' : Server) :
  rtc server_step s s' -> server_inv s ->
  server_inv s' /\ sv_policy s' = sv_policy s /\ trusted_rule_signers (db (sv_store s')) = trusted_rule_signers (db (sv_store s))
  /\ forall id row, rules (db (sv_store s')) !! id = Some row ->
       rules (db (sv_store s)) !! id = Some row \/ attested (sv_policy s) (trusted_rule_signers (db (sv_store s))) row.
Proof using Type.
  induction 1 as [s|s s1 s2 Hs _ IH]; intros Hi; [by auto|]. destruct (IH (server_step_inv _ _ Hs Hi)) as (I1 & I2 & I3 & I4).
  apply server_step_rules in Hs as (Hp & _ & Ht & _ & Hr & _). split_and!; [done|congruence|congruence|].
  intros id row [Hl|Hl]%I4; [by apply Hr|right; by rewrite Hp, Ht in Hl].
Qed.

(** As many prompts as workers, and nothing more is served until one is answered: not the
    ping of the watchdog either. *)
Lemma prompts_exhaust_workers (s : Server) (p : Pool) :
  rtc pool_step (new_pool s) p -> po_waiting p = WORKER_THREADS ->
  forall (SE : ServerEnv) now, take_next p now = None.
Proof using Type.
  intros H%pool_reachable_inv Hw SE now. pose proof (pi_workers _ _ H) as Hi. unfold take_next.
  destruct (po_queue p); [done|]. destruct (po_idle p); [done|lia].
Qed.

End Pool.

(** C18: a daemon that starts is sound from its first step.  When [serve] gets to its accept
    loop, the socket has the mode of its kind of installation, the file that announces the
    daemon and the first snapshot with its manifest are in place (a manifest without a
    signature, which the library refuses), and through every interleaving of accepted
    connections, workers, prompts and timers the invariants of all components hold, the
    signature policy is that of production, the enrolled signers are those of the database
    and every rule was in the database or is attested by one of them; the queue of accepted
    connections is bounded, and they are served once each in the order they came.  When it
    fails, the daemon is not announced. *)
Theorem daemon_starts_sound `{SE : StartEnv, PE : PubEnv, SQ : SqlEngine, TF : TrustFs, CR : Crypto, SNC : SnapshotCodec}
    (d : string) (b b' : Boot) (r : result Server Stop) :
  codec_round_trips -> (forall mp, store_inv (mkStore se_tables mp)) -> (forall x, String.length (sha256 x) = 32) ->
  clean d -> utf8_valid d = true ->
  serve d b = (b', r) ->
  match r with
  | Err _ => bo_files b' !! ready_path d = bo_files b !! ready_path d \/ is_Some (fs_fault "write" (ready_path d))
  | Ok s =>
      bo_socket b' = Some (Some (socket_mode d)) /\ bo_files b' !! ready_path d = Some ready_line
      /\ (exists n bytes text, bo_files b' !! snapshot_path d n = Some bytes /\ decode bytes = Ok v2_default
           /\ bo_files b' !! manifest_path d = Some text
           /\ parse_startup_manifest text = Ok (mkParsed (snapshot_path d n) (sha256_hex bytes))
           /\ parse_manifest text = Err SnapshotSignatureMissing)
      /\ forall (SC : ServerCodec) (p : Pool), rtc pool_step (new_pool s) p ->
           server_inv (po_server p) /\ sv_policy (po_server p) = Production
           /\ trusted_rule_signers (db (sv_store (po_server p))) = trusted_rule_signers se_tables
           /\ (forall id row, rules (db (sv_store (po_server p))) !! id = Some row ->
                 rules se_tables !! id = Some row \/ attested Production (trusted_rule_signers se_tables) row)
           /\ length (po_queue p) <= ACCEPT_QUEUE_DEPTH /\ po_accepted p = (po_served p).*1 ++ po_queue p
  end.
Proof.
  intros Hcodec Hdb Hsha Hc Hu. unfold serve. rewrite sm_bind_eq. pose proof (prepare_leaves d b) as [HF _].
  destruct (prepare d b) as [b1 [s|e]] eqn:Ep; [|intros [= <- <-]; left; by apply HF].
  specialize (HF _ eq_refl). cbn [fst] in HF. apply prepare_ok in Ep as (cu & mp & w & n & bytes & _ & Es & _ & He & Hb & Hm).
  rewrite sm_bind_eq. destruct (bind d b1) as [b2 r2] eqn:Eb. apply bind_leaves in Eb as [Fb Sb].
  destruct (start_paths_distinct d n) as (_ & _ & Ha & Hsm & Hr). rewrite !Forall_cons in Ha, Hr.
  destruct Ha as ([Ha1 Ha2] & [Ha3 Ha4] & _). destruct Hr as (Hr1 & _).
  destruct r2 as [[]|e]; [|intros [= <- <-]; left; rewrite Fb; [done|by intros E; apply Hr1]].
  rewrite sm_bind_eq. destruct (write_ready d b2) as [b3 r3] eqn:Ew. apply write_ready_cases in Ew as (Fw & Sw & Hw).
  destruct r3 as [[]|e]; intros [= <- <-].
  - split; [rewrite Sw; by apply Sb|]. split; [exact Hw|]. split.
    + exists n, bytes, (startup_manifest (snapshot_path d n) (sha256_hex bytes)).
      rewrite !Fw, !Fb by done. split; [exact Hb|]. split.
      { unfold encode in He. destruct (cbor_encode_snapshot _) as [x|] eqn:Ex; [|done]. injection He as ->.
        apply Hcodec in Ex. unfold decode. by rewrite Ex. }
      split; [exact Hm|]. by apply startup_manifest_reads.
    + intros SC p Hp%pool_reachable_inv. destruct Hp as [P1 P2 P3 _].
      destruct (reached_from _ _ P1) as (R1 & R2 & R3 & R4); [rewrite Es; apply initial_inv, Hdb|].
      rewrite Es in R2, R3, R4. done.
  - destruct Hw as [Hw|Hw]; [left|by right]. rewrite Hw, Fb; [done|by intros E; apply Hr1].
Qed.

(** A peer of a daemon on Linux is refused for want of a code signature, whatever the kernel
    says of its identity. *)
Lemma linux_peers_refused `{ServerEnv, ServerCodec, Crypto, CodeSigning} (s : Server) (now : Z) (token : AuditToken) (bytes : string) :
  handle s now (mkConn (Ok (Verified token)) (fun t => (verify_peer_signature Linux t).1) bytes)
  = (s, Wrote (write_legacy_err "codesign verification failed")).
Proof. done. Qed.

(** The snapshot of an earlier start stays: a start touches the names of its own number only. *)
Lemma earlier_snapshots_stay `{PE : PubEnv, CR : Crypto, SNC : SnapshotCodec} (d : string) (n m : N) (f : Files) :
  hex16 n <> hex16 m -> (publish d v2_default n f).1 !! snapshot_path d m = f !! snapshot_path d m.
Proof.
  intros Hne. apply publish_leaves; unfold snapshot_path, snapshot_tmp_path; (apply join_ne; [reflexivity|reflexivity|]).
  - discriminate.
  - intros H. apply (app_inj_l_str "snapshot-"), app_inj_r_str in H. by apply Hne.
Qed.

(** ** A concrete start *)

Definition start_codec : SnapshotCodec := {|
  cbor_encode_snapshot s := if bool_decide (s = v2_default) then Ok "v2" else Err "unknown";
  cbor_decode_snapshot b := if bool_decide (b = "v2") then Ok v2_default else Err "unknown";
|}.

Definition toy_start (bind_error : option string) : StartEnv := {|
  se_os := MacOs; se_vars := {[ "HOME" := "/Users/a" ]}; se_exists := fun _ => false;
  se_create_dir := fun _ _ => None; se_set_permissions := fun _ _ => None; se_thread := fun _ => None;
  se_curated_json := Ok []; se_nonce := Ok 4660%N; se_tables := empty_db; se_artifact_rows := []; se_open_artifacts := None;
  se_logs := ∅; se_open_log := None; se_bind := bind_error; se_socket_metadata := None; se_pid := 77; se_unix_secs := 1000; se_instant_ms := 0;
|}.

Definition boot_empty : Boot := mkBoot ∅ [] [] None.

Definition toy_serve (bind_error : option string) : Boot * result Server Stop :=
  @serve (toy_start bind_error) toy_pub toy_sql crypto32 start_codec "/s" boot_empty.

Lemma daemon_starts_sound_witness :
  (exists s, (toy_serve None).2 = Ok s
     /\ bo_files (toy_serve None).1 !! "/s/snapshot-0000000000001234.cbor" = Some "v2"
     /\ forall (SC : ServerCodec) (p : Pool), rtc (@pool_step SC crypto32) (new_pool s) p -> server_inv (po_server p))
  /\ bo_files (toy_serve (Some "in use")).1 !! "/s/daemon.ready" = None.
Proof.
  assert (@codec_round_trips start_codec) as Hcodec.
  { intros s b. simpl. repeat case_bool_decide; intros; simplify_eq; done. }
  assert (forall x, String.length (@sha256 crypto32 x) = 32) as Hsha by (intros x; apply pad32_length).
  split.
  - destruct (toy_serve None) as [b' r] eqn:E.
    pose proof (@daemon_starts_sound (toy_start None) toy_pub toy_sql run_trust crypto32 start_codec "/s" boot_empty b' r Hcodec
      store_inv_empty Hsha (conj eq_refl eq_refl) eq_refl E) as H.
    assert (exists s, r = Ok s) as [s ->] by (replace r with (toy_serve None).2 by (by rewrite E); vm_compute; by eexists).
    exists s. split; [done|]. split.
    + replace b' with (toy_serve None).1 by (by rewrite E). vm_compute. reflexivity.
    + intros SC p Hp. destruct H as (_ & _ & _ & H). by apply (H SC p).
  - vm_compute. reflexivity.
Defined.
