(* ===== verification/Biometric.v ===== *)
(** * The authentication of the user

    [crates/guard-cli/src/biometric.rs].  The Objective-C runtime is the class [ObjC]: which
    classes and selectors it knows, and what it returns.  What has to be released is a trace.
    The reply of LocalAuthentication comes on a thread of its own, through a mutex and a
    condition variable on the stack of the caller: the two threads are a step relation. *)

From S2P Require Import Prelude RustStr.

(** ** The calls of the runtime *)

Inductive ObjOp : Type :=
| PoolPushed (pool : N) | PoolPopped (pool : N)
| ObjCreated (object : N) | ObjReleased (object : N)
| BlockCopied (block : N) | BlockReleased (block : N)
| PolicyEvaluated.

#[export] Instance ObjOp_eq_dec : EqDecision ObjOp.
Proof. solve_decision. Defined.

Class ObjC : Type := {
  oc_class : string -> bool;
  oc_selector : string -> bool;
  oc_alloc : string -> option N;
  (** [init] of an object, or [initWithBytes:length:encoding:] with a text. *)
  oc_init : N -> option string -> option N;
  oc_pool_push : option N;
  oc_block_copy : option N;
}.

Definition YES : Z := 1.

Section Runtime.
Context `{OC : ObjC}.

(** [new_object] and [ns_string_from_str]: the class and the two selectors are looked up
    first. *)
Definition new_with (class init : string) (text : option string) : option N :=
  if oc_class class && oc_selector "alloc" && oc_selector init then object ← oc_alloc class; oc_init object text else None.
Definition new_object (class_name : string) : option N := new_with class_name "init" None.
Definition ns_string_from_str (contents : string) : option N :=
  new_with "NSString" "initWithBytes:length:encoding:" (Some contents).

Definition release_object (object : N) : list ObjOp := if oc_selector "release" then [ObjReleased object] else [].
Definition release_authentication_resources (block reason context : N) : list ObjOp :=
  BlockReleased block :: release_object reason ++ release_object context.

(** Up to the end of the wait, whose result is [authenticated]. *)
Definition evaluate_in_pool (reason_text : string) (authenticated : bool) : option bool * list ObjOp :=
  match new_object "LAContext" with
  | None => (None, [])
  | Some context =>
      match ns_string_from_str reason_text with
      | None => (None, ObjCreated context :: release_object context)
      | Some reason =>
          let made := [ObjCreated context; ObjCreated reason] in
          match oc_block_copy with
          | None => (None, made ++ release_object reason ++ release_object context)
          | Some block =>
              if oc_selector "evaluatePolicy:localizedReason:reply:"
              then (Some authenticated, made ++ [BlockCopied block; PolicyEvaluated] ++ release_authentication_resources block reason context)
              else (None, made ++ [BlockCopied block] ++ release_authentication_resources block reason context)
          end
      end
  end.

(** [AutoreleasePool]: popped at the end of the scope, if it is one. *)
Definition evaluate_device_owner_authentication (reason : string) (authenticated : bool) : option bool * list ObjOp :=
  let '(r, ops) := evaluate_in_pool reason authenticated in
  match oc_pool_push with
  | Some pool => (r, PoolPushed pool :: ops ++ [PoolPopped pool])
  | None => (r, ops)
  end.

End Runtime.

(** The configurations of the build. *)
Inductive Build : Type := TestSigner | OtherPlatform | MacProduction.

(** What the caller learns, given the reply it waits for. *)
Definition authenticate `{ObjC} (build : Build) (reason : string) (authenticated : bool) : bool :=
  match build with
  | TestSigner => true
  | OtherPlatform => false
  | MacProduction => default false (evaluate_device_owner_authentication reason authenticated).1
  end.

(** ** The wait and the reply *)

Inductive Holder : Type := ByCaller | ByReply.

Inductive CallerPc : Type := CLock | CCheck | CWait | CReturned (authenticated : bool).

(** The reply block: not called yet, holding the lock, having written, done. *)
Inductive ReplyPc : Type := RNotCalled | RLocked | RWritten | RDone.

Record Auth : Type := mkAuth {
  au_caller : CallerPc;
  au_reply : ReplyPc;
  au_lock : option Holder;
  au_result : option bool;
  au_notified : bool;
}.

Definition auth_start : Auth := mkAuth CLock RNotCalled None None false.

(** The reply block is called with [success]; a waiting caller may wake without cause. *)
Inductive auth_step (success : Z) : Auth -> Auth -> Prop :=
| as_lock r res n : auth_step success (mkAuth CLock r None res n) (mkAuth CCheck r (Some ByCaller) res n)
| as_return r b n : auth_step success (mkAuth CCheck r (Some ByCaller) (Some b) n) (mkAuth (CReturned b) r None (Some b) n)
| as_wait r n : auth_step success (mkAuth CCheck r (Some ByCaller) None n) (mkAuth CWait r None None false)
| as_wake r l res n : auth_step success (mkAuth CWait r l res n) (mkAuth CLock r l res false)
| as_reply c res n : auth_step success (mkAuth c RNotCalled None res n) (mkAuth c RLocked (Some ByReply) res n)
| as_write c n :
    forall res, auth_step success (mkAuth c RLocked (Some ByReply) res n)
      (mkAuth c RWritten (Some ByReply) (Some (bool_decide (success = YES))) true)
| as_unlock c res n : auth_step success (mkAuth c RWritten (Some ByReply) res n) (mkAuth c RDone None res n).

(** How far the caller is from its return, once the result is there. *)
Definition distance (s : Auth) : nat := match au_caller s with CWait => 3 | CLock => 2 | CCheck => 1 | CReturned _ => 0 end.

Record auth_inv (success : Z) (s : Auth) : Prop := {
  ai_caller_lock : au_caller s = CCheck <-> au_lock s = Some ByCaller;
  ai_reply_lock : (au_reply s = RLocked \/ au_reply s = RWritten) <-> au_lock s = Some ByReply;
  ai_result : au_result s = match au_reply s with RNotCalled | RLocked => None | RWritten | RDone => Some (bool_decide (success = YES)) end;
  ai_returned : forall b, au_caller s = CReturned b -> au_reply s = RDone /\ b = bool_decide (success = YES);
  ai_no_lost_wake : au_result s <> None -> au_caller s = CWait -> au_notified s = true;
}.

Lemma auth_start_inv (success : Z) : auth_inv success auth_start.
Proof. split; cbn; try done; by split; [intros [? | ?]|]. Qed.

Lemma auth_step_inv (success : Z) (s s' : Auth) : auth_step success s s' -> auth_inv success s -> auth_inv success s'.
Proof.
  intros Hs [I1 I2 I3 I4 I5].
  destruct Hs as [r res n|r b n|r n|r l res n|c res n|c n res|c res n]; cbn in *.
  - split; cbn; try done. split; [intros H; by apply I2 in H|done].
  - split; cbn; try done; [by split; [intros H; apply I2 in H|]|]. intros b' [= <-].
    destruct r; try done; [|by injection I3]. destruct I2 as [I2 _]. specialize (I2 (or_intror eq_refl)). done.
  - split; cbn; try done. by split; [intros H; apply I2 in H|].
  - split; cbn; try done. split; [done|intros H; by apply I1 in H].
  - split; cbn; try done; [split; [intros H; by apply I1 in H|done]|split; [done|by left]|intros b H; by apply I4 in H as [H _]].
  - split; cbn; try done; [split; [done|by right]|intros b H; by apply I4 in H as [H _]].
  - split; cbn; try done; [split; [intros H; by apply I1 in H|done]|split; [by intros [?|?]|done]|intros b H; by apply I4 in H as [H _]].
Qed.

Lemma auth_reachable (success : Z) (s : Auth) : rtc (auth_step success) auth_start s -> auth_inv success s.
Proof. intros H. pose proof (auth_start_inv success) as Hi. induction H; eauto using auth_step_inv. Qed.

(** ** What is released *)

Definition created (ops : list ObjOp) : list N := omap (fun o => match o with ObjCreated x => Some x | _ => None end) ops.
Definition released (ops : list ObjOp) : list N := omap (fun o => match o with ObjReleased x => Some x | _ => None end) ops.
Definition blocks_copied (ops : list ObjOp) : list N := omap (fun o => match o with BlockCopied x => Some x | _ => None end) ops.
Definition blocks_released (ops : list ObjOp) : list N := omap (fun o => match o with BlockReleased x => Some x | _ => None end) ops.

(** Every call the authentication makes succeeds. *)
Definition all_available `{ObjC} (reason : string) : Prop :=
  is_Some (new_object "LAContext") /\ is_Some (ns_string_from_str reason) /\ is_Some oc_block_copy
  /\ oc_selector "evaluatePolicy:localizedReason:reply:" = true.

Lemma evaluate_some `{ObjC} (reason : string) (b : bool) :
  (all_available reason /\ (evaluate_device_owner_authentication reason b).1 = Some b)
  \/ (~ all_available reason /\ (evaluate_device_owner_authentication reason b).1 = None).
Proof.
  unfold evaluate_device_owner_authentication, evaluate_in_pool, all_available.
  destruct (new_object _); [|right; split; [by intros [[? ?] _]|by destruct oc_pool_push]].
  destruct (ns_string_from_str _); [|right; split; [by intros (_ & [? ?] & _)|by destruct oc_pool_push]].
  destruct oc_block_copy; [|right; split; [by intros (_ & _ & [? ?] & _)|by destruct oc_pool_push]].
  destruct (oc_selector _); [left; split; [by eauto|by destruct oc_pool_push]|right; split; [by intros (_ & _ & _ & ?)|by destruct oc_pool_push]].
Qed.

(** C34: the authentication fails closed, leaks nothing and cannot miss its answer.  In the
    production build it succeeds exactly when every call of the runtime does and the framework
    replies YES; every object is released once, the last created first, and so is the block,
    provided the runtime knows how to release.  Whatever the interleaving with the thread of
    the reply, the caller returns the answer of the reply; the reply touches the state on the
    caller's stack only while the caller is still there; and once the reply is through, a caller that
    waits has been notified, and every step brings it nearer to its return. *)
Theorem authentication_sound `{ObjC} (reason : string) (success : Z) (s : Auth) :
  (authenticate MacProduction reason (bool_decide (success = YES)) = true <-> all_available reason /\ success = YES)
  /\ (let ops := (evaluate_device_owner_authentication reason (bool_decide (success = YES))).2 in
      (oc_selector "release" = true -> released ops = reverse (created ops)) /\ blocks_released ops = blocks_copied ops)
  /\ (rtc (auth_step success) auth_start s ->
      (forall b, au_caller s = CReturned b -> b = bool_decide (success = YES))
      /\ (au_reply s <> RDone -> forall b, au_caller s <> CReturned b)
      /\ (au_reply s = RDone ->
            (au_caller s = CWait -> au_notified s = true)
            /\ (distance s = 0 \/ exists s', auth_step success s s')
            /\ forall s', auth_step success s s' -> au_reply s' = RDone /\ distance s' < distance s)).
Proof.
  split; [|split].
  - unfold authenticate. destruct (evaluate_some reason (bool_decide (success = YES))) as [[Ha ->]|[Ha ->]]; cbn.
    + rewrite bool_decide_eq_true. tauto.
    + split; [done|tauto].
  - unfold evaluate_device_owner_authentication, evaluate_in_pool, release_authentication_resources, release_object.
    destruct (new_object "LAContext"), (ns_string_from_str reason), oc_block_copy, (oc_selector "evaluatePolicy:localizedReason:reply:"),
      (oc_selector "release"), oc_pool_push; by split.
  - intros Hr%auth_reachable. destruct s as [c r l res n]. destruct Hr as [I1 I2 I3 I4 I5]. cbn in *. split_and!.
    + intros b Hb. by apply I4 in Hb as [_ Hb].
    + intros Hd b Hb. by apply I4 in Hb as [Hb _].
    + intros ->. subst res. split; [by apply I5|]. split.
      * destruct c as [| | |b]; [right..|by left].
        -- destruct l as [[]|]; [by destruct I1 as [_ I1]; specialize (I1 eq_refl)|by destruct I2 as [_ I2]; destruct (I2 eq_refl)|].
           eexists. apply as_lock.
        -- destruct I1 as [I1 _]. rewrite (I1 eq_refl). eexists. apply as_return.
        -- eexists. apply as_wake.
      * intros s' Hs. inversion Hs; subst; cbn; (split; [done|lia]).
Qed.

(** ** A concrete runtime *)

Definition toy_objc (block : option N) : ObjC := {|
  oc_class := fun _ => true; oc_selector := fun _ => true;
  oc_alloc := fun c => Some (if bool_decide (c = "NSString") then 2 else 1)%N; oc_init := fun o _ => Some o;
  oc_pool_push := Some 9%N; oc_block_copy := block;
|}.

Definition auth_done : Auth := mkAuth (CReturned true) RDone None (Some true) false.

Lemma auth_done_reached : rtc (auth_step YES) auth_start auth_done.
Proof.
  eapply rtc_l; [apply as_lock|]. eapply rtc_l; [apply as_wait|]. eapply rtc_l; [apply as_reply|]. eapply rtc_l; [apply as_write|].
  eapply rtc_l; [apply as_wake|]. eapply rtc_l; [apply as_unlock|]. eapply rtc_l; [apply as_lock|]. apply rtc_once. apply as_return.
Qed.

Lemma authentication_sound_witness :
  @authenticate (toy_objc (Some 3%N)) MacProduction "sign" true = true
  /\ @released (@evaluate_device_owner_authentication (toy_objc None) "sign" true).2 = [2%N; 1%N]
  /\ forall b, au_caller auth_done = CReturned b -> b = true.
Proof.
  destruct (@authentication_sound (toy_objc (Some 3%N)) "sign" YES auth_done) as (H1 & _ & H3).
  destruct (@authentication_sound (toy_objc None) "sign" YES auth_done) as (_ & [H2 _] & _). split; [|split].
  - apply H1. split; [|done]. split_and!; (by eexists) || done.
  - exact (H2 eq_refl).
  - apply H3. exact auth_done_reached.
Defined.
