(* ===== verification/Banner.v ===== *)
(** * The banner of the command line

    [crates/guard-cli/src/banner.rs].  A width of more than 65535 is beyond what the
    formatting of this toolchain takes: it panics, which is [None]. *)

From S2P Require Import Prelude RustStr Paths OsLayer CliPrompt CliLogs.

Definition banner_text (rows : list string) : string := join (String LF "") rows.
Definition dq : string := String DQUOTE "".

Definition LOGO : string := banner_text [
  "          _>==F~7^r-";
  "         < y ly[ F";
  "          L#JF_L__";
  "        iykywZ_=*q`";
  "        /`gM yZ~F==- L__   `";
  "        ,g@@W@@F        `~   '";
  "         $$@W@Ex ___~ <.   .";
  "        ^`=R@^`  `_  _ ~. ` 4";
  "       '    $ y_ARgsEwf`   /  .";
  "         a@d$__@@@F 4 $       1";
  "        ~r3E` _y@@r 4LE";
  "        'l @FT_ZF@L  l$    t";
  "         H ?a~___4'  $]  ,_/";
  "         'L 9@@RP~   @  _='";
  "         ,%  `       ByF'   _";
  "         ~d  ,)      ~ , y=_u-r";
  "            4l @   . wEa@=_yw==r";
  "             '$~ v" +:+ dq +:+ "y@P1*f~`";
  "           /  Fv^yPD=~.";
  "           7b  ,F` yr~";
  "                 wF";
  "                ^"].

Definition TITLE : string := banner_text [
  "   ⢠⡎  ⢸  ⢰                ⢰               ⠛                  ⣴⠋  ⠈⡇                       ⣿";
  "   ⠘⢷⣄⡀  ⠒⣿⠒⠂ ⡠⠂⠐⣄ ⠠⣴⠠⠐⢶⡄ ⠒⣿⠒⠂ ⡠⠂⠐⢤⡀ ⢤⡆ ⢶⠄⠠⣶  ⣤ ⠲⣄  ⢴⡆⠔⠲⣦    ⢸⡏      ⢠⡆  ⢴⡆ ⢠⠆⠐⣦  ⢤⡆ ⢶⠄⢀⡴⠒ ⣿";
  "     ⠉⠻⣦  ⣿  ⢸⡧⠤⠤⠿  ⣿  ⢸⡇  ⣿  ⢸⡇  ⢸⡧ ⢸⡇    ⣿  ⠁⡀ ⣿  ⢸⡇  ⣿    ⢸⡇   ⢰⡆ ⢸⡇  ⢸⠁ ⠈⡀⠠⣿  ⢸⡗   ⣿⠁  ⣿";
  "   ⢠   ⣸  ⣿  ⠸⣧  ⢀  ⣿  ⢸⡇  ⣿  ⠸⣇  ⢸⠇ ⢸⡇    ⣿ ⢠⣏  ⣿  ⢸⡇  ⣿    ⠈⢿⡀  ⢸⡇ ⢸⣇  ⢼⠄ ⣾  ⣿  ⢸⡇   ⢿⡄  ⣿";
  "   ⠈ ⠒⠂⠁  ⠉⠃⠁ ⠈⠙⠉⠁  ⠉  ⠈⠁  ⠉⠃⠁ ⠈⠐⠂⠁  ⠈⠉    ⠉  ⠉⠃⠁⠉  ⠈⠁  ⠉      ⠉⠐⠒⠈⠁  ⠉⠋⠁⠈⠁ ⠉⠋⠁⠈⠁ ⠈⠁    ⠉⠃⠁⠙"].

Definition SUBTITLE : string := "Default-deny outbound network enforcement for shell commands".

(** [{:n$}] of the empty text. *)
Definition MAX_FORMAT_WIDTH : nat := N.to_nat 65535.
Definition blanks (n : nat) : option string := if bool_decide (n <= MAX_FORMAT_WIDTH) then Some (spaces n) else None.

Definition write_centered_line (line : string) (columns : nat) : option string :=
  padding ← blanks ((columns - char_count line) / 2);
  Some (writeln (padding +:+ line)).

Definition minimum (l : list nat) : option nat := match l with [] => None | a :: rest => Some (foldr Nat.min a rest) end.

(** [line.get(n..)]. *)
Definition get_from (n : nat) (line : string) : option string :=
  if bool_decide (n <= String.length line) && is_char_boundary line n then Some (str_drop n line) else None.

Definition normalized_block_lines (block : string) : list string :=
  let ls := trim_end <$> lines block in
  let indents := (fun l => String.length l - String.length (trim_start l)) <$> filter (fun l => is_empty l = false) ls in
  let common_indent := default 0 (minimum indents) in
  (fun l => default l (get_from common_indent l)) <$> ls.

Definition block_width (block : string) : nat := max_list (char_count <$> normalized_block_lines block).

Definition block_line (padding : nat) (line : string) : option string :=
  if is_empty line then Some (writeln "") else (fun b => writeln (b +:+ line)) <$> blanks padding.

Definition write_centered_block (block : string) (columns : nat) : option string :=
  out ← mapM (block_line ((columns - block_width block) / 2)) (normalized_block_lines block);
  Some (concat_str out).

Definition banner_width : nat := block_width LOGO `max` block_width TITLE `max` char_count SUBTITLE.

(** [parse::<usize>] of the variable. *)
Definition env_columns (columns : option string) : option nat :=
  v ← columns;
  match parse_u64 v with Ok n => if bool_decide (n = 0%N) then None else Some (N.to_nat n) | Err _ => None end.

(** The width the terminal gives, [None] when the call fails. *)
Definition stdout_terminal_columns (winsize : option N) : option nat :=
  match winsize with Some c => if bool_decide (c = 0%N) then None else Some (N.to_nat c) | None => None end.

Definition terminal_columns (winsize : option N) (columns : option string) : option nat :=
  match stdout_terminal_columns winsize with Some c => Some c | None => env_columns columns end.

Definition print_bare_invocation (winsize : option N) (columns : option string) (help : string) : option string :=
  let columns := default banner_width (terminal_columns winsize columns) in
  logo ← write_centered_block LOGO columns;
  title ← write_centered_block TITLE columns;
  subtitle ← write_centered_line SUBTITLE columns;
  Some (logo +:+ writeln "" +:+ title +:+ writeln "" +:+ subtitle +:+ writeln "" +:+ help +:+ writeln "").

(** ** What is printed *)

Lemma char_count_app (s t : string) : char_count (s +:+ t) = char_count s + char_count t.
Proof. induction s as [|a s IH]; [done|]. change (String a s +:+ t) with (String a (s +:+ t)). cbn [char_count]. rewrite IH. by destruct (is_cont a). Qed.

Lemma char_count_spaces (n : nat) : char_count (spaces n) = n.
Proof. induction n as [|n IH]; [done|]. cbn [spaces char_count]. by rewrite IH. Qed.

Lemma blanks_some (n : nat) : n <= MAX_FORMAT_WIDTH -> blanks n = Some (spaces n).
Proof. intros H. unfold blanks. by rewrite bool_decide_eq_true_2. Qed.

Lemma half_le (n m : nat) : n <= m -> n / 2 <= m.
Proof. intros H. etrans; [apply Nat.Div0.div_le_upper_bound with (q := n); lia|exact H]. Qed.

(** A block that fits is centred: every row gets the same blanks, the rows stay within the
    columns, and the margins differ by one at most. *)
Lemma centered_block_fits (block : string) (columns : nat) :
  columns <= MAX_FORMAT_WIDTH ->
  let padding := (columns - block_width block) / 2 in
  write_centered_block block columns
    = Some (concat_str ((fun l => writeln (if is_empty l then "" else spaces padding +:+ l)) <$> normalized_block_lines block))
  /\ (block_width block <= columns ->
        Forall (fun l => char_count (spaces padding +:+ l) <= columns) (normalized_block_lines block)
        /\ columns - block_width block - padding - padding <= 1).
Proof.
  intros Hc padding. split.
  - unfold write_centered_block. fold padding.
    assert (mapM (block_line padding) (normalized_block_lines block)
            = Some ((fun l => writeln (if is_empty l then "" else spaces padding +:+ l)) <$> normalized_block_lines block)) as ->; [|done].
    apply mapM_Some, Forall2_fmap_r, Forall_Forall2_diag, Forall_forall. intros l _.
    unfold block_line. cbv beta. rewrite blanks_some by (subst padding; apply half_le; lia). unfold compose. by destruct (is_empty l).
  - intros Hw. pose proof (Nat.div_mod_eq (columns - block_width block) 2) as Hd. fold padding in Hd.
    pose proof (Nat.mod_upper_bound (columns - block_width block) 2). split; [|lia].
    apply Forall_forall. intros l Hl. rewrite char_count_app, char_count_spaces.
    assert (char_count l <= block_width block) by (apply max_list_elem_of_le, list_elem_of_fmap; eauto). lia.
Qed.

(** The banner is printed on every terminal of at most 65535 columns, and wherever the
    width is not known. *)
Lemma banner_printed (winsize : option N) (columns : option string) (help : string) :
  from_option (fun c => c <= MAX_FORMAT_WIDTH) True (terminal_columns winsize columns) ->
  is_Some (print_bare_invocation winsize columns help).
Proof.
  intros H. unfold print_bare_invocation.
  assert (default banner_width (terminal_columns winsize columns) <= MAX_FORMAT_WIDTH) as Hc.
  { destruct (terminal_columns _ _); [exact H|]. apply Nat.leb_le. vm_compute. reflexivity. }
  rewrite (proj1 (centered_block_fits LOGO _ Hc)), (proj1 (centered_block_fits TITLE _ Hc)). cbn [mbind option_bind].
  unfold write_centered_line. rewrite blanks_some by (apply half_le; lia). by eexists.
Qed.

Lemma wide_block (block : string) (columns : nat) (l : string) (rest : list string) :
  normalized_block_lines block = l :: rest -> is_empty l = false -> MAX_FORMAT_WIDTH < (columns - block_width block) / 2 ->
  write_centered_block block columns = None.
Proof.
  intros Hb Hl Hw. unfold write_centered_block. rewrite Hb. cbn [mapM]. unfold block_line. cbv beta. rewrite Hl. unfold blanks.
  by rewrite bool_decide_eq_false_2 by lia.
Qed.

(** Where the output is no terminal the width is that of a variable, and a large one ends
    the command in a panic. *)
Lemma wide_columns_panic (help : string) : print_bare_invocation None (Some "200000") help = None.
Proof.
  unfold print_bare_invocation. assert (terminal_columns None (Some "200000") = Some (N.to_nat 200000)) as -> by reflexivity.
  cbn [from_option]. unfold id. cbv zeta.
  assert (write_centered_block LOGO (N.to_nat 200000) = None) as ->; [|done].
  eapply wide_block; [vm_compute; reflexivity|reflexivity|].
  assert (block_width LOGO = 25) as -> by (vm_compute; reflexivity). unfold MAX_FORMAT_WIDTH.
  apply Nat.div_le_lower_bound; lia.
Qed.

Example banner_is_89_wide : banner_width = 89 /\ block_width LOGO = 25.
Proof. vm_compute. split; reflexivity. Qed.
