(* ===== verification/CliMain.v ===== *)
(** * The entry of the command line

    [crates/guard-cli/src/main.rs], [cli.rs], [tty.rs] and the plan and the privileges of
    [install/system.rs]: the parsed command is dispatched to the parts that are modelled in
    [CliRun], [CliLogs], [Install] and [Update], on the state of all of them.  What the
    parser of the arguments makes of them is a parameter ([Args]), and so are the log, the
    rules of the build, the clock, and what the programs an update runs do to the system
    and the keychains ([MainHost]).  The terminal takes what is printed, but for the
    messages of the installer, which are not modelled, and those of an update, which are
    kept with its state. *)

From S2P Require Import Prelude RustStr Policy TrustedSigners Signature Snapshot Paths RuleStore Frame Handlers Prompt.
From S2P Require Import Lockfile LogWriter Messages Admin Server Watchdog HardwareSigning Publish CliClient CliPrompt InstallHealth CliRun.
From S2P Require Import InstallSys Install Rollback Installed CliLogs Update Banner.

(** ** cli.rs *)

Inductive StatusSub : Type :=
| SubLogs
| SubRules (include_built_in : bool) (disable enable reason : option string)
| SubDenials (run_uuid : string)
| SubReview (run_uuid : option string)
| SubPersistence (run_uuid : option string)
| SubAdvisory (advisory_id : string).

Inductive CliCmd : Type :=
| InstallSystem (yes : bool)
| UpdateCmd (check : bool) (version : option string)
| Wrap (learn : bool) (argv : list string)
| StatusCmd (sub : option StatusSub).

(** The parser ends the process itself for an error, the help and the version. *)
Inductive Args : Type := NoArguments | ParserExits (text : string) (code : Z) | Parsed (cmd : CliCmd).

Class MainHost `{SecurityFramework} : Type := {
  mh_log : string -> LogFile;
  mh_watchdog_state : string -> option string;
  mh_curated : result (list AllowlistEntry) string;
  mh_flush_error : option string;
  mh_now : Z;
  mh_winsize : option N;
  mh_help : string;
  (** What a program does to the keychains and to the system, the programs run before it
      given. *)
  mh_effect : list Invocation -> Invocation -> gmap N SecKey * Sys -> gmap N SecKey * Sys;
}.

Record Machine `{SecurityFramework} : Type := mkMachine {
  ma_run : RunState;
  ma_update : UpState;
  ma_proc : Proc;
  ma_sys : Sys;
}.
Arguments mkMachine {_} _ _ _ _.

(** ** tty.rs *)

(** [line.trim().to_lowercase()] is one of the two: no letter but the capital has a letter
    of them as its lower case. *)
Definition affirmative (line : string) : bool :=
  let answer := to_ascii_lowercase (trim line) in bool_decide (answer = "y") || bool_decide (answer = "yes").

Section Main.
Context `{SF : SecurityFramework, MH : !MainHost, RH : RunHost, TY : Terminal, CE : CliEnv, SC : ServerCodec, CR : Crypto, SNC : SnapshotCodec}.
Context `{HV : HealthView, IE : InstallerEnv, SQL : SqlEngine, UH : UserHalf, UP : UpdateHost, LE : LockEnv, WJ : Cbor WatchdogState}.

Abbreviation MM := (SM Machine RunStop).

Definition on_run {A} (m : SM RunState RunStop A) : MM A := fun x =>
  let '(s, r) := m (ma_run x) in (mkMachine s (ma_update x) (ma_proc x) (ma_sys x), r).

(** The keychains and the system once programs have been run after [ran]. *)
Fixpoint left_by (ran news : list Invocation) (ks : gmap N SecKey * Sys) : gmap N SecKey * Sys :=
  match news with
  | [] => ks
  | i :: rest => left_by (ran ++ [i]) rest (mh_effect ran i ks)
  end.

(** The programs of an update do to the machine what they do. *)
Definition on_update {A} (m : UM A) : MM A := fun x =>
  let '(s, r) := m (ma_update x) in
  let news := drop (length (up_ran (ma_update x))) (up_ran s) in
  let '(keychains, sys) := left_by (up_ran (ma_update x)) news (p_keychains (ma_proc x), ma_sys x) in
  (mkMachine (ma_run x) s (mkProc _ (p_euid (ma_proc x)) (p_egid (ma_proc x)) keychains) sys, map_err Fails r).

Definition proc_of : MM Proc := fun x => (x, Ok (ma_proc x)).

Definition with_tty {A} (f : Tty -> Tty * A) : SM RunState RunStop A := fun st =>
  let '(t, a) := f (rs_tty st) in (mkRunState (rs_client st) t (rs_children st), Ok a).
Definition print (text : string) : MM unit := on_run (tell text).
Definition println (line : string) : MM unit := print (writeln line).
Definition next_line : MM (result string string) :=
  on_run (with_tty (fun t => (mkTty (S (tt_next t)) (tt_out t), read_line (tt_next t)))).

Definition other {A} (o : option A) (e : A -> CliError) : MM unit :=
  match o with Some a => sm_lift (Err (Fails (e a))) | None => mret tt end.
Definition or_panics {A} (what : string) (o : option A) : MM A := sm_lift (ok_or o (Panics what)).
Definition or_hangs {A} (o : option A) : MM A := sm_lift (ok_or o NeverEnds).

Definition confirm (prompt : string) : MM bool :=
  if negb rh_stdin_tty
  then sm_lift (Err (Fails (CliOther (prompt +:+ " (TTY required for confirmation; pass --yes to skip)"))))
  else
    print (prompt +:+ " [y/N] ") ;;
    other mh_flush_error (fun e => CliOther ("stdout: " +:+ e)) ;;
    r ← next_line;
    line ← sm_lift (map_err (fun e => Fails (CliOther ("stdin: " +:+ e))) r);
    mret (affirmative line).

(** ** install/system.rs: the plan, the privileges and the platform *)

Definition running_privileged_install (p : Proc) : bool :=
  match rh_os with Linux => false | MacOs => bool_decide (p_euid p = 0%N) end.

Definition plan : list string :=
  match rh_os with
  | Linux =>
      ["stt-guard Linux system install is not enabled yet.";
       "The production layout is defined for:";
       "  • " +:+ SERVICE_USER +:+ " service user (no login shell, " +:+ SYSTEM_STATE_DIR Linux +:+ " home)";
       "  • root-owned binaries and hook library under " +:+ SYSTEM_BIN_DIR +:+ "/";
       "  • service-owned state directory at " +:+ SYSTEM_STATE_DIR Linux +:+ "/";
       "  • service-owned log directory at " +:+ SYSTEM_LOG_DIR +:+ "/";
       "  • systemd daemon unit at " +:+ SYSTEMD_DAEMON_UNIT_PATH;
       "Activation is blocked until Linux OS-backed signer enrollment is implemented."]
  | MacOs =>
      ["stt-guard will install a root-owned system guard and start " +:+ PLIST_LABEL +:+ ".";
       "It will request sudo after enrolling your device-local macOS Keychain signer."]
  end.

Definition print_plan : MM unit := print (concat_str (writeln <$> plan)).

Definition linux_install_refused : string :=
  "Linux hardened install is not implemented yet. "
  +:+ "The systemd layout and health checks are defined, but production activation is blocked on OS-backed signer enrollment.".

Definition system_install : MM unit := fun x =>
  match rh_os with
  | Linux => (x, Err (Fails (CliOther linux_install_refused)))
  | MacOs =>
      let '(p, s, r) := run_install mh_now (ma_proc x) (ma_sys x) in
      (mkMachine (ma_run x) (ma_update x) p s, map_err Fails r)
  end.

(** ** main.rs *)

Definition install_system (yes : bool) : MM Z :=
  p ← proc_of;
  let should_prompt := negb yes && negb (running_privileged_install p) in
  proceed ← (if should_prompt then
               print_plan ;;
               println "" ;;
               confirm "Proceed?"
             else
               (if negb (running_privileged_install p) then print_plan else mret tt) ;;
               mret true);
  if negb (proceed : bool) then println "Aborted." ;; mret 0%Z
  else println "" ;; system_install ;; mret 0%Z.

Definition gate : MM unit := sm_lift (map_err Fails require_installed).

Definition printed (r : string * result Z CliError) : MM Z := print r.1 ;; sm_lift (map_err Fails r.2).

(** The log of [launchagent::logs_dir]. *)
Definition with_log_file (f : string -> LogFile -> option (string * result Z CliError)) : MM Z :=
  dir ← or_panics "HOME" logs_dir;
  let log_path := path_join dir LOG_FILENAME in
  r ← or_hangs (f log_path (mh_log log_path));
  printed r.

Definition review_needs_terminal : string :=
  "stt-guard: status review requires an interactive terminal " +:+ "(run on a developer machine, not in CI)".

Definition status_review (fuel : nat) (p : Proc) (run_uuid : option string) : MM Z :=
  if negb rh_stdin_tty then println review_needs_terminal ;; mret EX_USAGE
  else
    dir ← or_panics "HOME" logs_dir;
    let log_path := path_join dir LOG_FILENAME in
    on_run (fun st =>
      match review_run fuel p log_path (mh_log log_path) run_uuid (rs_client st) (rs_tty st) with
      | None => (st, Err NeverEnds)
      | Some (c, t, r) => (mkRunState c t (rs_children st), map_err Fails r)
      end).

Definition status_rules (p : Proc) (include_built_in : bool) (disable enable reason : option string) : MM Z :=
  r ← on_run (on_client (rules_run p include_built_in disable enable reason));
  print (r : string * Z).1 ;; mret r.2.

Definition status_overview (state : string) : MM Z :=
  r ← on_run (fun st =>
        let '(c, r) := run_status mh_curated (mh_watchdog_state (path_join state "watchdog.state")) (rs_client st) in
        (mkRunState c (rs_tty st) (rs_children st), Ok r));
  text ← or_panics "slice" r;
  printed text.

Definition status (fuel : nat) (sub : option StatusSub) : MM Z :=
  p ← proc_of;
  state ← or_panics "HOME" resolve_state_dir;
  let sock := socket_path state in
  match sub with
  | Some SubLogs => gate ;; with_log_file (fun _ log => Some (run_dump log))
  | Some (SubDenials run_uuid) => gate ;; with_log_file (fun path log => denials path log run_uuid)
  | Some (SubPersistence run_uuid) => gate ;; with_log_file (fun _ log => persistence log run_uuid)
  | Some (SubAdvisory advisory_id) => gate ;; printed (advisory_run mh_curated advisory_id)
  | None => on_run (ensure_daemon sock state) ;; status_overview state
  | Some (SubRules include_built_in disable enable reason) =>
      on_run (ensure_daemon sock state) ;; status_rules p include_built_in disable enable reason
  | Some (SubReview run_uuid) => on_run (ensure_daemon sock state) ;; status_review fuel p run_uuid
  end.

Definition real_main (fuel : nat) (args : Args) : MM Z :=
  match args with
  | NoArguments =>
      text ← or_panics "Formatting argument out of range" (print_bare_invocation mh_winsize (var_os "COLUMNS") mh_help);
      print text ;; mret 0%Z
  | ParserExits text code => print text ;; mret code
  | Parsed (InstallSystem yes) => install_system yes
  | Parsed (UpdateCmd check version) => on_update (run_update check version)
  | Parsed (Wrap learn argv) => p ← proc_of; on_run (wrap fuel p learn argv)
  | Parsed (StatusCmd sub) => status fuel sub
  end.

(** [main]: the error is printed and the process exits. *)
Definition cli_main (fuel : nat) (args : Args) (x : Machine) : Machine * option Z :=
  let '(x1, r) := real_main fuel args x in
  match r with
  | Err (Fails e) => ((println ("stt-guard: " +:+ show_cli_error e) x1).1, exit_code r)
  | _ => (x1, exit_code r)
  end.

End Main.

(** ** What a command touches *)

Section Frames.
Context `{SF : SecurityFramework, MH : !MainHost, RH : RunHost, TY : Terminal, CE : CliEnv, SC : ServerCodec, CR : Crypto, SNC : SnapshotCodec}.
Context `{HV : HealthView, IE : InstallerEnv, SQL : SqlEngine, UH : UserHalf, UP : UpdateHost, LE : LockEnv, WJ : Cbor WatchdogState}.

(** The installation, the keychains and the update are left alone. *)
Definition same_system (x x' : Machine) : Prop :=
  ma_update x' = ma_update x /\ ma_proc x' = ma_proc x /\ ma_sys x' = ma_sys x.

(** Of the run, no more than the terminal is touched. *)
Definition terminal_only (x x' : Machine) : Prop :=
  same_system x x' /\ rs_client (ma_run x') = rs_client (ma_run x) /\ rs_children (ma_run x') = rs_children (ma_run x).

Definition stays {A} (R : Machine -> Machine -> Prop) (m : SM Machine RunStop A) : Prop := forall x, R x (m x).1.

#[local] Instance same_system_refl : PreOrder same_system.
Proof using Type. split; [by repeat split|]. intros x y z (H1 & H2 & H3) (H4 & H5 & H6). repeat split; congruence. Qed.

#[local] Instance terminal_only_refl : PreOrder terminal_only.
Proof using Type.
  split; [by repeat split|]. intros x y z (H1 & H2 & H3) (H4 & H5 & H6). split; [by etrans|split; congruence].
Qed.

Lemma stays_lift {A} (R : Machine -> Machine -> Prop) `{!PreOrder R} (r : result A RunStop) : stays R (sm_lift r).
Proof using Type. intros x. reflexivity. Qed.

Lemma stays_bind {A B} (R : Machine -> Machine -> Prop) `{!PreOrder R} (m : SM Machine RunStop A) (k : A -> SM Machine RunStop B) :
  stays R m -> (forall a, stays R (k a)) -> stays R (m ≫= k).
Proof using Type.
  intros Hm Hk x. rewrite sm_bind_eq. specialize (Hm x). destruct (m x) as [x1 [a|e]]; [|done]. etrans; [exact Hm|apply Hk].
Qed.

Lemma stays_weaken {A} (m : SM Machine RunStop A) : stays terminal_only m -> stays same_system m.
Proof using Type. intros H x. apply H. Qed.

Lemma on_run_stays {A} (m : SM RunState RunStop A) : stays same_system (on_run m).
Proof using Type. intros x. unfold on_run. by destruct (m (ma_run x)). Qed.

Lemma with_tty_stays {A} (f : Tty -> Tty * A) : stays terminal_only (on_run (with_tty f)).
Proof using Type. intros x. unfold on_run, with_tty. by destruct (f _). Qed.

Lemma print_stays (text : string) : stays terminal_only (print text).
Proof using Type. by intros x. Qed.

Lemma proc_stays : stays terminal_only proc_of.
Proof using Type. intros x. reflexivity. Qed.

Lemma status_stays (fuel : nat) (sub : option StatusSub) : stays same_system (status fuel sub).
Proof using Type.
  assert (forall r, stays same_system (printed r)) as Hp.
  { intros r. apply stays_bind; [apply _|apply stays_weaken, print_stays|intros _; apply stays_lift, _]. }
  assert (forall f, stays same_system (with_log_file f)) as Hl.
  { intros f. repeat (apply stays_bind; [apply _|apply stays_lift, _|intros ?]). apply Hp. }
  apply stays_bind; [apply _|apply stays_weaken, proc_stays|intros p]. apply stays_bind; [apply _|apply stays_lift, _|intros d].
  destruct sub as [[]|]; (apply stays_bind; [apply _|(apply stays_lift, _) || apply on_run_stays|intros _]); try done.
  - apply stays_bind; [apply _|apply on_run_stays|intros r]. apply stays_bind; [apply _|apply stays_weaken, print_stays|intros _; apply stays_lift, _].
  - unfold status_review. destruct rh_stdin_tty; cbn [negb];
      [|apply stays_bind; [apply _|apply stays_weaken, print_stays|intros _; apply stays_lift, _]].
    apply stays_bind; [apply _|apply stays_lift, _|intros ?; apply on_run_stays].
  - apply stays_bind; [apply _|apply on_run_stays|intros r]. by apply stays_bind; [apply _|apply stays_lift, _|intros ?].
Qed.

(** ** Without a healthy installation *)

Lemma ensure_daemon_gated (e : CliError) (sock d : string) (st : RunState) :
  rh_os = MacOs -> require_installed = Err e -> ensure_daemon sock d st = (st, Err (Fails e)).
Proof using Type. intros Hos He. unfold ensure_daemon, ensure_installed_daemon. rewrite Hos, sm_bind_eq, He. done. Qed.

(** No installation is in order, and the environment names no directory to use instead. *)
Definition not_installed : Prop :=
  var_os ENV_STATE_DIR = None /\ is_healthy (check_installation rh_os) = false.

Lemma not_installed_gate : not_installed -> exists e, require_installed = Err e.
Proof using Type.
  intros [Hv Hh]. unfold require_installed. rewrite Hv, bool_decide_eq_false_2 by (by intros [? ?]). rewrite Hh. by eexists.
Qed.

(** What a refused wrap prints: the message for a learning run without a terminal. *)
Definition wrap_message (learn : bool) : string := if learn && negb rh_stdin_tty then learn_needs_terminal else "".

Lemma tell_nothing (st : RunState) : (tell "" st).1 = st.
Proof using Type. destruct st as [c [n o] l]. unfold tell. cbn. by rewrite app_nil_r_str. Qed.

Lemma wrap_gated (e : CliError) (fuel : nat) (p : Proc) (learn : bool) (argv : list string) (st : RunState) :
  rh_os = MacOs -> require_installed = Err e ->
  exists r, wrap fuel p learn argv st = ((tell (wrap_message learn) st).1, r) /\ exit_code r <> Some 0%Z.
Proof using Type.
  intros Hos He. unfold wrap, wrap_message. destruct (learn && _); [by eexists|]. rewrite tell_nothing.
  destruct argv as [|c argv]; [by eexists|].
  rewrite sm_bind_eq. destruct (preflight_root_command c); [|by eexists]. cbn.
  destruct resolve_state_dir as [d|]; [|by eexists]. rewrite sm_bind_eq, (ensure_daemon_gated e) by done. by eexists.
Qed.

Lemma machine_eta (x : Machine) : mkMachine (ma_run x) (ma_update x) (ma_proc x) (ma_sys x) = x.
Proof using Type. by destruct x. Qed.

Lemma status_gated (e : CliError) (fuel : nat) (sub : option StatusSub) (x : Machine) :
  rh_os = MacOs -> require_installed = Err e ->
  exists r, status fuel sub x = (x, r) /\ exit_code r <> Some 0%Z.
Proof using Type.
  intros Hos He. unfold status, proc_of. rewrite sm_bind_eq. cbv beta iota. rewrite sm_bind_eq. unfold or_panics, sm_lift at 1.
  destruct resolve_state_dir as [d|]; [|by eexists]. cbn [ok_or].
  assert (forall s, on_run (ensure_daemon s d) x = (x, Err (Fails e))) as Hd.
  { intros s. unfold on_run. by rewrite (ensure_daemon_gated e), machine_eta. }
  assert (gate x = (x, Err (Fails e))) as Hg by (unfold gate; by rewrite He).
  destruct sub as [[]|]; rewrite sm_bind_eq, ?Hg, ?Hd; by eexists.
Qed.

(** ** The consent *)

Definition consents (x : Machine) : Prop :=
  rh_stdin_tty = true /\ mh_flush_error = None
  /\ exists line, read_line (tt_next (rs_tty (ma_run x))) = Ok line /\ affirmative line = true.

Lemma confirm_spec (prompt : string) (x x' : Machine) (r : result bool RunStop) :
  confirm prompt x = (x', r) ->
  terminal_only x x' /\ (r = Ok true <-> consents x).
Proof using Type.
  unfold confirm, consents. destruct rh_stdin_tty; cbn [negb].
  2: { intros [= <- <-]. split; [reflexivity|]. split; [done|by intros [? _]]. }
  rewrite sm_bind_eq. cbn. rewrite sm_bind_eq. destruct mh_flush_error; cbn.
  { intros [= <- <-]. split; [by repeat split|]. split; [done|by intros (_ & ? & _)]. }
  rewrite sm_bind_eq. cbn. rewrite sm_bind_eq.
  destruct (read_line _) as [line|e]; cbn; intros [= <- <-]; (split; [by repeat split|]).
  - split; [intros [= Hl]; by eauto|]. intros (_ & _ & l & [= <-] & ->). done.
  - split; [done|]. by intros (_ & _ & l & ? & _).
Qed.

(** ** The installation *)

Definition allowed_to_install (yes : bool) (x : Machine) : Prop :=
  yes = true \/ running_privileged_install (ma_proc x) = true \/ consents x.

Definition installs (x x' : Machine) (r : result Z RunStop) : Prop :=
  match rh_os with
  | Linux => terminal_only x x' /\ r = Err (Fails (CliOther linux_install_refused))
  | MacOs =>
      exists outcome, run_install mh_now (ma_proc x) (ma_sys x) = (ma_proc x', ma_sys x', outcome)
      /\ r = match outcome with Ok _ => Ok 0%Z | Err e => Err (Fails e) end
      /\ ma_update x' = ma_update x /\ rs_client (ma_run x') = rs_client (ma_run x) /\ rs_children (ma_run x') = rs_children (ma_run x)
  end.

Lemma system_install_spec (x0 x x' : Machine) (r : result Z RunStop) :
  terminal_only x0 x -> (println "" ;; system_install ;; mret 0%Z) x = (x', r) -> installs x0 x' r.
Proof using Type.
  intros [(H1 & H2 & H3) [H4 H5]]. rewrite sm_bind_eq. cbn. rewrite sm_bind_eq. unfold system_install, installs. cbn.
  destruct rh_os.
  - rewrite <- H2, <- H3. destruct (run_install _ _ _) as [[p s] o]. destruct o as [[]|e]; cbn; intros [= <- <-]; eexists; by split_and!.
  - intros [= <- <-]. by repeat split.
Qed.

Lemma install_system_spec (yes : bool) (x x' : Machine) (r : result Z RunStop) :
  install_system yes x = (x', r) ->
  (allowed_to_install yes x /\ installs x x' r)
  \/ (~ allowed_to_install yes x /\ terminal_only x x' /\ (rh_stdin_tty = false -> exit_code r = Some EX_SOFTWARE)).
Proof using Type.
  unfold install_system, proc_of. rewrite sm_bind_eq. cbv beta iota. unfold allowed_to_install.
  destruct (negb yes && _) eqn:Hp.
  - apply andb_true_iff in Hp as [->%negb_true_iff ->%negb_true_iff]. rewrite sm_bind_eq, sm_bind_eq. cbn. rewrite sm_bind_eq. cbn.
    match goal with |- context [confirm ?q ?y] => destruct (confirm q y) as [x1 r1] eqn:Hc end.
    pose proof (confirm_spec _ _ _ _ Hc) as [Ht Hr].
    match type of Ht with terminal_only ?y _ => assert (terminal_only x y) as H0 by (by repeat split) end.
    change (r1 = Ok true <-> consents x) in Hr.
    assert (terminal_only x x1) as H1 by (by etrans). destruct r1 as [[]|e].
    + intros Hs. left. split; [right; right; by apply Hr|]. by eapply system_install_spec.
    + intros Hs. right. split; [intros [?|[?|?%Hr]]; done|].
      assert ((println "Aborted." ;; mret 0%Z) x1 = (x', r)) as Hs' by exact Hs.
      rewrite sm_bind_eq in Hs'. cbn in Hs'. injection Hs' as <- <-. split; [etrans; [exact H1|by repeat split]|].
      intros Hn. exfalso. unfold confirm in Hc. by rewrite Hn in Hc.
    + intros [= <- <-]. right. split; [intros [?|[?|?%Hr]]; done|]. split; [done|]. intros Hn. unfold confirm in Hc.
      rewrite Hn in Hc. cbn in Hc. by injection Hc as _ <-.
  - intros Hs. left. split.
    { destruct yes; [by left|right; left]. destruct (running_privileged_install _); done. }
    rewrite sm_bind_eq in Hs.
    destruct (running_privileged_install (ma_proc x)); cbn in Hs; (eapply system_install_spec; [|exact Hs]); by repeat split.
Qed.

End Frames.

(** C30: the entry of the command line guards what it does.  The system and the keychains are
    touched by the installation only, which runs when it was confirmed in advance, by root, or
    by a line at a terminal that says yes, and whose result is then that of the installer; and
    by the programs of an update, which run for an update only, with its result, and after
    which the system and the keychains are as those programs leave them; a mere check runs
    only what looks the release up.  A wrap or a question for the status leaves the
    installation alone, apart from what the wrapped program does, which is not part of the
    model.  On macOS, unless the environment names a state directory, without
    an installation that passes the health checks it does not exit with success and does
    nothing, but for the message that a learning run needs a terminal. *)
Theorem commands_gated
    `{SF : SecurityFramework, MH : !MainHost, RH : RunHost, TY : Terminal, CE : CliEnv, SC : ServerCodec, CR : Crypto, SNC : SnapshotCodec,
      HV : HealthView, IE : InstallerEnv, SQL : SqlEngine, UH : UserHalf, UP : UpdateHost, LE : LockEnv, WJ : Cbor WatchdogState}
    (fuel : nat) (args : Args) (x x' : Machine) (r : result Z RunStop) :
  real_main fuel args x = (x', r) ->
  match args with
  | Parsed (InstallSystem yes) =>
      (allowed_to_install yes x /\ installs x x' r)
      \/ (~ allowed_to_install yes x /\ terminal_only x x' /\ (rh_stdin_tty = false -> exit_code r = Some EX_SOFTWARE))
  | Parsed (UpdateCmd check version) =>
      exists outcome news, run_update check version (ma_update x) = (ma_update x', outcome) /\ r = map_err Fails outcome
      /\ up_ran (ma_update x') = up_ran (ma_update x) ++ news
      /\ (p_keychains (ma_proc x'), ma_sys x') = left_by (up_ran (ma_update x)) news (p_keychains (ma_proc x), ma_sys x)
      /\ (check = true -> exists n, news = take n (lookups version))
      /\ ma_run x' = ma_run x /\ p_euid (ma_proc x') = p_euid (ma_proc x) /\ p_egid (ma_proc x') = p_egid (ma_proc x)
  | Parsed (Wrap learn _) =>
      same_system x x'
      /\ (rh_os = MacOs -> not_installed -> x' = (print (wrap_message learn) x).1 /\ exit_code r <> Some 0%Z)
  | Parsed (StatusCmd _) =>
      same_system x x'
      /\ (rh_os = MacOs -> not_installed -> x' = x /\ exit_code r <> Some 0%Z)
  | NoArguments | ParserExits _ _ => terminal_only x x'
  end.
Proof.
  intros E. destruct args as [|text code|[yes|check version|learn argv|sub]].
  - unfold real_main in E. rewrite sm_bind_eq in E. unfold or_panics in E.
    destruct (print_bare_invocation _ _ _); cbn in E; [|by injection E as <- <-]. by injection E as <- <-.
  - cbn in E. by injection E as <- <-.
  - by apply install_system_spec in E.
  - cbn in E. unfold on_update in E. destruct (run_update check version (ma_update x)) as [u o] eqn:Hu.
    destruct (update_ran _ _ _ _ _ Hu) as (news & Hn & Hc). rewrite Hn, drop_app_length in E.
    destruct (left_by _ _ _) as [k s] eqn:Hl. injection E as <- <-. exists o, news. by split_and!.
  - unfold real_main, proc_of in E. rewrite sm_bind_eq in E. cbv beta iota in E. split.
    + pose proof (on_run_stays (wrap fuel (ma_proc x) learn argv) x) as H. by rewrite E in H.
    + intros Hos [e He]%not_installed_gate.
      destruct (wrap_gated e fuel (ma_proc x) learn argv (ma_run x) Hos He) as (r0 & Hw & Hx).
      unfold on_run in E. rewrite Hw in E. by injection E as <- <-.
  - cbn in E. split.
    + pose proof (status_stays fuel sub x) as H. by rewrite E in H.
    + intros Hos [e He]%not_installed_gate.
      destruct (status_gated e fuel sub x Hos He) as (r0 & Hw & Hx). rewrite Hw in E. by injection E as <- <-.
Qed.

(** ** A concrete command line *)

(** The downloaded installer leaves a key of the user 0. *)
Definition toy_effect (ran : list Invocation) (i : Invocation) (ks : gmap N (@SecKey (toy_keychain "N" (fun _ => None))) * Sys)
  : gmap N (@SecKey (toy_keychain "N" (fun _ => None))) * Sys :=
  if bool_decide (iv_args i = ["install-system"; "--yes"]) then (<[0%N := "R"]> ks.1, ks.2) else ks.

Definition main_host : @MainHost (toy_keychain "N" (fun _ => None)) := {|
  mh_log _ := LogMissing; mh_watchdog_state _ := None; mh_curated := Ok []; mh_flush_error := None;
  mh_now := 0; mh_winsize := Some 120%N; mh_help := "Usage: stt-guard <COMMAND>";
  mh_effect := toy_effect;
|}.

Definition main_run_host : RunHost := {|
  rh_os := MacOs; rh_vars := [("HOME", "/Users/a"); ("PATH", "/opt/homebrew/bin")]; rh_current_dir := Ok "/Users/a"; rh_current_exe := Err "";
  rh_exists _ := false; rh_is_file p := bool_decide (p = "/opt/homebrew/bin/npm");
  rh_canonicalize p := Ok p; rh_read_dir _ := Ok []; rh_create_dir_all _ := None; rh_stdin_tty := true;
  rh_spawn _ := Ok 5000%N; rh_posix_spawnp _ _ _ := Ok 0%Z; rh_audit_token _ := Ok wrap_tok;
  rh_signal_error := None; rh_sigint_thread_error := None; rh_reader_clone_error := None; rh_render_thread_error := None;
  rh_wait _ := Ok (Some 0%Z); rh_threads tt := Some tt;
|}.

Definition main_start : @Machine (toy_keychain "N" (fun _ => None)) := mkMachine wrap_start up_start (toy_user "K") toy_system.

(** The command, with the lines typed at the terminal. *)
Definition main_run (typed : list string) (args : Args) : @Machine (toy_keychain "N" (fun _ => None)) * result Z RunStop :=
  @real_main (toy_keychain "N" (fun _ => None)) main_host main_run_host (toy_terminal typed) (wrap_client wrap_codec) wrap_server_codec
    toy_crypto wrap_codec no_view toy_working_installer toy_sql toy_user_half (toy_update "abcd") toy_rows_lock
    (toy_cbor None) 9 args main_start.

(** A yes installs, another answer does not, an update installs and its check does not, and
    nothing is wrapped or shown without an installation. *)
Lemma commands_gated_witness :
  ((main_run [" Yes "] (Parsed (InstallSystem false))).2 = Ok 0%Z
   /\ p_keychains (ma_proc (main_run [" Yes "] (Parsed (InstallSystem false))).1) !! p_euid (toy_user "K") = Some "N")
  /\ ma_sys (main_run ["sure"] (Parsed (InstallSystem false))).1 = toy_system
  /\ p_keychains (ma_proc (main_run [] (Parsed (UpdateCmd false None))).1) !! 0%N = Some "R"
  /\ ma_sys (main_run [] (Parsed (UpdateCmd true None))).1 = toy_system
  /\ (main_run [] (Parsed (Wrap false ["npm"]))).1 = main_start
  /\ (main_run [] (Parsed (StatusCmd (Some SubLogs)))).1 = main_start.
Proof.
  assert (forall typed args x' r, main_run typed args = (x', r) -> x' = (main_run typed args).1 /\ r = (main_run typed args).2) as Hp.
  { intros typed args x' r ->. done. }
  pose proof (fun typed args => @commands_gated (toy_keychain "N" (fun _ => None)) main_host main_run_host (toy_terminal typed)
    (wrap_client wrap_codec) wrap_server_codec toy_crypto wrap_codec no_view toy_working_installer toy_sql toy_user_half (toy_update "abcd")
    toy_rows_lock (toy_cbor None) 9 args main_start (main_run typed args).1 (main_run typed args).2 (surjective_pairing _)) as H.
  split; [split; [vm_compute; reflexivity|]|split; [|split; [vm_compute; reflexivity|split; [|split]]]].
  - vm_compute. reflexivity.
  - destruct (H ["sure"] (Parsed (InstallSystem false))) as [[Ha _]|(_ & [(_ & _ & Hs) _] & _)]; [|exact Hs].
    exfalso. destruct Ha as [?|[Hr|(_ & _ & l & Hl & Ha)]]; [done|by vm_compute in Hr|]. injection Hl as <-. by vm_compute in Ha.
  - destruct (H [] (Parsed (UpdateCmd true None))) as (o & news & _ & _ & _ & Hl & Hc & _).
    destruct (Hc eq_refl) as [n ->]. apply (f_equal snd) in Hl. cbn [snd] in Hl. rewrite Hl.
    destruct n as [|[|[|n]]]; [reflexivity..|]. destruct n; vm_compute; reflexivity.
  - destruct (H [] (Parsed (Wrap false ["npm"]))) as [_ Hg]. apply Hg; [reflexivity|split; vm_compute; reflexivity].
  - destruct (H [] (Parsed (StatusCmd (Some SubLogs)))) as [_ Hg]. apply Hg; [reflexivity|split; vm_compute; reflexivity].
Defined.
